(* ===== verification/_CoqProject ===== *)
-Q . S2P
Prelude.v
Parcel.v
Hash.v
Record.v
CString.v
Helper.v
Utf8.v
Pool.v
PString.v
Query.v
Vector.v
Brc.v
Terminal.v
Convert.v
Screen.v
Xml.v
Web.v
Time.v
PostParse.v
Quote.v
QuoteSpec.v
File.v
Mention.v
Post.v
Content.v
UserCache.v
Board.v
Filter.v
BackendPost.v
RecordCache.v
Wire.v
Backend.v
Winmine.v
Pop3.v
More.v
Getdata.v
Sysconf.v
Menu.v
Config.v
Uinfo.v
TuiList.v
TuiRecent.v
Json.v
Display.v
Drawing.v
Edit.v
EditSpec.v
EditFile.v
