(* ===== verification/Prelude.v ===== *)
(** * A verification of the bulletin board [fbbs]

    [fbbs] is a bulletin board in C: a terminal program ([src/]), pages for the
    web ([fcgi/]), a server of posts ([backend/]) and what they share ([lib/]).
    Posts live in a database and are cached in files of fixed-length records and
    in one file for each content; accounts live in a table in shared memory; the
    processes talk to each other through lists of messages. The development
    translates the parts below into definitions that can be run, and proves what
    makes each of them correct.

    ** How C is modelled

    A function of the program is a function here, with the name it has in the
    source; state that it changes is an argument and a part of the result. What
    can go wrong is a value: [outcome] is a result, a fault (an access outside an
    object, which C leaves undefined) or the end of the fuel of a loop. Every
    theorem that says [Done] says that there is no fault and that the fuel is
    enough; the fuel is a bound that the inputs give (the bytes left, the records
    of a file, the entries of a chain), and one more. Integers are of type [Z]
    and wrap where the C type does ([u8], [u32], [i64] and so on). An object in
    memory is the list of its bytes or cells, a pointer into it an index; [rd],
    [wr], [rdn] and [wrn] fault outside. Heaps and tables in shared memory are
    finite maps from addresses or indices. What the program asks of libraries, of
    the system or of another process is an argument (what [malloc] returns, what
    a query answers), or a class that states what its documentation says
    ([Iconv] in [Convert], [Ilike] in [Filter], [Serial] in [Backend]).

    ** The parts

    What the programs share ([lib/]):
    - [Prelude]: outcomes, integers, memory, lines of text, and the tactics and
      the rewriting base [blen] that the others use;
    - [Parcel]: messages as bytes ([lib/parcel.c]), their round trip and growth;
    - [Hash]: chained tables ([lib/hash.c]) that implement a finite map, with
      their growth and iteration;
    - [Record]: files of records ([lib/record.c]): searching, merging, deleting
      and visiting, against definitions on lists;
    - [CString], [Utf8]: strings of bytes, of GBK and of UTF-8 ([lib/string.c]);
    - [PString], [Query]: strings that grow, and the statements and results of
      the database ([lib/string.c], [lib/pg.c]);
    - [Pool], [Vector]: memory pools and arrays ([lib/pool.c], [lib/vector.c]);
    - [Helper], [File]: files of lines, and files by name ([lib/helper.c],
      [lib/fileio.c], with [src/bm.c] and [src/deny.c]);
    - [Brc]: the marks of what is read ([lib/boardrc.c]);
    - [Convert]: conversion between character sets ([lib/convert.c]);
    - [Time]: dates as text ([lib/time.c]).

    Posts, boards and accounts:
    - [Mention], [Quote], [QuoteSpec]: who is mentioned in a text, and how a text
      is quoted ([lib/post.c]), against definitions on lines;
    - [Post], [RecordCache], [Content]: records of posts, the files that cache
      them and the contents ([lib/post.c]), against the tables;
    - [UserCache]: the table of accounts ([lib/ucache.c]), which implements a map
      from places to names;
    - [Board]: who may read and post ([lib/board.c], [lib/user.c]);
    - [Filter], [BackendPost], [Backend]: the server: the statements of its
      requests and the rows they choose, what each request does to the tables,
      the files and the accounts, and the messages that carry requests and
      responses ([backend/], [lib/helper.c]).

    The terminal:
    - [Terminal]: bytes from and to the client ([src/terminal.c]);
    - [Screen], [Display], [Drawing]: what is drawn, a terminal that interprets
      what is sent, and that it shows what was drawn ([src/screen.c]);
    - [Edit], [EditSpec], [EditFile]: the editor, on lists of lines
      ([src/edit.c], [src/postheader.c]);
    - [More]: the pager, on the lines of a text ([src/more.c]);
    - [Winmine]: the game of mines ([game/winmine.c]).

    Mail:
    - [Pop3]: the server of mail ([util/bbspop3d.c]): its commands against a
      mailbox whose messages are marked, who may enter, and what a client reads.

    The web:
    - [Xml], [Json]: documents and a parser that reads them back ([fcgi/xml.c]);
    - [Web]: forms and responses ([fcgi/web.c]);
    - [PostParse]: a post as a document ([fcgi/parse.c]).

    ** What the theorems show

    Each property is a theorem with its number in its comment. Most components
    have an abstract counterpart that their operations implement: a finite map
    for [Hash] and [UserCache], a list of values for [Parcel] and [Json], lists
    of records for [Record], a table for [Content] and [RecordCache], a picture
    for [Screen], a list of lines for [Edit], a queue of calls for [Backend].
    Others are equivalences with a definition that says what is meant
    ([Mention], [Quote], [Filter]), round trips, or that nothing outside an
    object is touched whatever the input. The examples at the end of a file show
    inputs for which the code does not do what it means to; no theorem covers
    these inputs.

    ** What is not modelled

    Of the modelled files: the attaching of shared memory and the calls of
    [libpq], [hiredis] and [iconv], whose results are arguments; drawing of
    prompts and menus, which is a call of what [Screen] models with constant
    texts; logging. Not at all: the other games, the pages of [fcgi/] that print the
    result of a query, the menus of the terminal program, which are sequences of
    prompts, the other tools in [util/], and the copy of [libssh]. *)

From Stdlib Require Export ZArith Lia.
From Stdlib Require String.
From stdpp Require Export base list list_numbers numbers option.
Export String.StringSyntax.
Delimit Scope string_scope with string.

#[global] Open Scope Z_scope.

(** * Outcomes of C code *)

(** [Done a] is a normal return, [Fault] an access outside an object (undefined
    behaviour in C), [NoFuel] an exhausted iteration bound of a loop. *)
Inductive outcome (A : Type) : Type :=
| Done (a : A)
| Fault
| NoFuel.
Arguments Done {A} a.
Arguments Fault {A}.
Arguments NoFuel {A}.

#[export] Instance outcome_ret : MRet outcome := fun A a => Done a.
#[export] Instance outcome_bind : MBind outcome := fun A B f m =>
  match m with Done a => f a | Fault => Fault | NoFuel => NoFuel end.
#[export] Instance outcome_fmap : FMap outcome := fun A B f m =>
  match m with Done a => Done (f a) | Fault => Fault | NoFuel => NoFuel end.

(** * Machine integers, at their width *)

Definition u8 (x : Z) : Z := x mod 2 ^ 8.
Definition u16 (x : Z) : Z := x mod 2 ^ 16.
Definition u32 (x : Z) : Z := x mod 2 ^ 32.
Definition u64 (x : Z) : Z := x mod 2 ^ 64.
Definition i8 (x : Z) : Z := (x + 2 ^ 7) mod 2 ^ 8 - 2 ^ 7.
Definition i32 (x : Z) : Z := (x + 2 ^ 31) mod 2 ^ 32 - 2 ^ 31.
Definition i64 (x : Z) : Z := (x + 2 ^ 63) mod 2 ^ 64 - 2 ^ 63.

Definition is_u8 (x : Z) : Prop := 0 <= x < 2 ^ 8.
Definition is_u32 (x : Z) : Prop := 0 <= x < 2 ^ 32.
Definition is_u64 (x : Z) : Prop := 0 <= x < 2 ^ 64.
Definition is_i32 (x : Z) : Prop := - 2 ^ 31 <= x < 2 ^ 31.
Definition is_i64 (x : Z) : Prop := - 2 ^ 63 <= x < 2 ^ 63.

Ltac width := unfold u8, u16, u32, u64, i8, i32, i64,
  is_u8, is_u32, is_u64, is_i32, is_i64 in *.

Lemma u8_range x : is_u8 (u8 x).
Proof. width. apply Z.mod_pos_bound. lia. Qed.
Lemma u32_range x : is_u32 (u32 x).
Proof. width. apply Z.mod_pos_bound. lia. Qed.
Lemma u64_range x : is_u64 (u64 x).
Proof. width. apply Z.mod_pos_bound. lia. Qed.
Lemma u8_id x : is_u8 x -> u8 x = x.
Proof. width. apply Z.mod_small. Qed.
Lemma u32_id x : is_u32 x -> u32 x = x.
Proof. width. apply Z.mod_small. Qed.
Lemma u64_id x : is_u64 x -> u64 x = x.
Proof. width. apply Z.mod_small. Qed.
Lemma i32_id x : is_i32 x -> i32 x = x.
Proof. width. intros. rewrite Z.mod_small; lia. Qed.
Lemma i64_id x : is_i64 x -> i64 x = x.
Proof. width. intros. rewrite Z.mod_small; lia. Qed.
Lemma i32_range x : is_i32 (i32 x).
Proof. width. pose proof (Z.mod_pos_bound (x + 2 ^ 31) (2 ^ 32)). lia. Qed.

Create HintDb width discriminated.
#[export] Hint Resolve u8_range u32_range u64_range i32_range : width.
Create Rewrite HintDb widthr.
#[export] Hint Rewrite u8_id u32_id u64_id i32_id i64_id using (width; lia) : widthr.

(** The value of a [char], which is signed on the platforms the program
    targets, from the byte it holds. *)
Definition schar (c : Z) : Z := i8 c.

Lemma schar_ascii c : 0 <= c < 128 -> schar c = c.
Proof. unfold schar. width. intros. rewrite Z.mod_small; lia. Qed.
Lemma schar_high c : 128 <= c < 256 -> schar c = c - 256.
Proof.
  unfold schar. width. intros.
  replace (c + 2 ^ 7) with (c - 128 + 1 * 2 ^ 8) by lia.
  rewrite Z.mod_add by lia. rewrite Z.mod_small; lia.
Qed.
Lemma schar_eq c : 0 <= c < 256 -> schar c = if c <? 128 then c else c - 256.
Proof.
  intros. destruct (Z.ltb_spec c 128); [apply schar_ascii|apply schar_high]; lia.
Qed.

(** * Character classes of the C locale (the program never calls setlocale) *)

Definition isdigit (c : Z) : bool := (48 <=? c) && (c <=? 57).
Definition isupper (c : Z) : bool := (65 <=? c) && (c <=? 90).
Definition islower (c : Z) : bool := (97 <=? c) && (c <=? 122).
Definition isalpha (c : Z) : bool := isupper c || islower c.
Definition isspace (c : Z) : bool := (c =? 32) || ((9 <=? c) && (c <=? 13)).
Definition isprint (c : Z) : bool := (32 <=? c) && (c <=? 126).
Definition tolower (c : Z) : Z := if isupper c then c + 32 else c.
Definition toupper (c : Z) : Z := if islower c then c - 32 else c.

(** The value of a hexadecimal digit. *)
Definition hex_value (c : Z) : option Z :=
  if isdigit c then Some (c - 48)
  else if (65 <=? c) && (c <=? 70) then Some (c - 55)
  else if (97 <=? c) && (c <=? 102) then Some (c - 87)
  else None.

(** * Objects in memory: byte arrays, read and written within their bounds *)

Definition blen (m : list Z) : Z := Z.of_nat (length m).

Definition rd (m : list Z) (p : Z) : outcome Z :=
  if p <? 0 then Fault
  else match m !! Z.to_nat p with Some c => Done c | None => Fault end.

Definition wr (m : list Z) (p v : Z) : outcome (list Z) :=
  if (0 <=? p) && (p <? blen m) then Done (<[Z.to_nat p := u8 v]> m) else Fault.

(** [memcpy]'s read of [n] bytes, and the write of a block. *)
Definition rdn (m : list Z) (p n : Z) : outcome (list Z) :=
  if (0 <=? p) && (0 <=? n) && (p + n <=? blen m)
  then Done (take (Z.to_nat n) (drop (Z.to_nat p) m)) else Fault.

Definition wrn (m : list Z) (p : Z) (bs : list Z) : outcome (list Z) :=
  if (0 <=? p) && (p + blen bs <=? blen m)
  then Done (take (Z.to_nat p) m ++ bs ++ drop (Z.to_nat p + length bs) m)
  else Fault.

Definition memmove (m : list Z) (dst src n : Z) : outcome (list Z) :=
  bs ← rdn m src n; wrn m dst bs.

(** The bytes of the C string at [p], without its NUL. *)
Fixpoint until_nul (l : list Z) : outcome (list Z) :=
  match l with
  | [] => Fault
  | c :: l => if c =? 0 then Done [] else s ← until_nul l; Done (c :: s)
  end.

Definition cstring (m : list Z) (p : Z) : outcome (list Z) :=
  if p <? 0 then Fault else until_nul (drop (Z.to_nat p) m).

Definition strlen (m : list Z) (p : Z) : outcome Z :=
  s ← cstring m p; Done (blen s).

(** [strchr] of a character that is not NUL. *)
Fixpoint strchr_from (l : list Z) (p c : Z) : outcome (option Z) :=
  match l with
  | [] => Fault
  | x :: l => if x =? c then Done (Some p) else if x =? 0 then Done None else strchr_from l (p + 1) c
  end.

Definition strchr (m : list Z) (p c : Z) : outcome (option Z) :=
  if p <? 0 then Fault else strchr_from (drop (Z.to_nat p) m) p c.

Definition streq (m1 : list Z) (p1 : Z) (m2 : list Z) (p2 : Z) : outcome bool :=
  s1 ← cstring m1 p1; s2 ← cstring m2 p2; Done (bool_decide (s1 = s2)).

(** The bytes of a literal. *)
Definition bytes (s : String.string) : list Z :=
  (fun b => Z.of_N (Byte.to_N b)) <$> String.list_byte_of_string s.
Arguments bytes s%_string.

(** The digits of a natural number, and what [%d] and [%ld] print. *)
Fixpoint digits (fuel : nat) (n : Z) (acc : list Z) : list Z :=
  match fuel with
  | O => acc
  | S fuel => let acc := (48 + n mod 10) :: acc in if n <? 10 then acc else digits fuel (n / 10) acc
  end.

Definition decimal (n : Z) : list Z :=
  if n <? 0 then 45 :: digits 20 (- n) [] else digits 20 n [].

(** Lines, each with a newline. *)
Definition text_of (ls : list (list Z)) : list Z := mjoin ((fun s => s ++ [10]) <$> ls).

(** [nul_free s]: [s] holds bytes of a C string. *)
Definition nul_free (s : list Z) : Prop := Forall (fun c => 0 < c < 256) s.

Lemma blen_nil : blen [] = 0.
Proof. done. Qed.
Lemma blen_cons c m : blen (c :: m) = 1 + blen m.
Proof. unfold blen. simpl. lia. Qed.
Lemma blen_app m m' : blen (m ++ m') = blen m + blen m'.
Proof. unfold blen. rewrite length_app. lia. Qed.
Lemma blen_nonneg m : 0 <= blen m.
Proof. unfold blen. lia. Qed.
Create Rewrite HintDb blen.
#[export] Hint Rewrite blen_nil blen_cons blen_app : blen.

(** Normalise lengths of concatenations and close the arithmetic goal. *)
Ltac blen := autorewrite with blen in *;
  repeat match goal with
  | |- context [blen ?m] => lazymatch goal with
      | _ : 0 <= blen m |- _ => fail
      | _ => pose proof (blen_nonneg m) end
  | _ : context [blen ?m] |- _ => lazymatch goal with
      | _ : 0 <= blen m |- _ => fail
      | _ => pose proof (blen_nonneg m) end
  end; try lia.

Lemma to_nat_blen (m : list Z) : Z.to_nat (blen m) = length m.
Proof. unfold blen. lia. Qed.


(** Equality of lists built from appends and conses. *)
Ltac app_eq := repeat (rewrite <- ?app_assoc; cbn [app]); rewrite ?app_nil_r; done.

Lemma rd_at m pre c post p :
  m = pre ++ c :: post -> p = blen pre -> rd m p = Done c.
Proof.
  intros -> ->. unfold rd. pose proof (blen_nonneg pre).
  destruct (Z.ltb_spec (blen pre) 0); [lia|].
  by rewrite to_nat_blen, list_lookup_middle.
Qed.

Lemma wr_at m pre c post p v :
  m = pre ++ c :: post -> p = blen pre -> wr m p v = Done (pre ++ u8 v :: post).
Proof.
  intros -> ->. unfold wr. rewrite blen_app, blen_cons.
  pose proof (blen_nonneg pre). pose proof (blen_nonneg post).
  destruct (Z.leb_spec 0 (blen pre)); [|lia].
  destruct (Z.ltb_spec (blen pre) (blen pre + (1 + blen post))); [|lia].
  cbn. by rewrite to_nat_blen, insert_app_r_alt, Nat.sub_diag.
Qed.

Lemma rd_neg m p : p < 0 -> rd m p = Fault.
Proof. intros. unfold rd. destruct (Z.ltb_spec p 0); [done|lia]. Qed.

Lemma rd_end m p : blen m <= p -> rd m p = Fault.
Proof.
  intros. unfold rd. pose proof (blen_nonneg m).
  destruct (Z.ltb_spec p 0); [done|].
  rewrite lookup_ge_None_2; [done|]. unfold blen in *. lia.
Qed.

Lemma wr_length m p v m' : wr m p v = Done m' -> blen m' = blen m.
Proof.
  unfold wr, blen. case_match; intros [= <-]. by rewrite length_insert.
Qed.

Lemma rdn_at m pre bs post p n :
  m = pre ++ bs ++ post -> p = blen pre -> n = blen bs -> rdn m p n = Done bs.
Proof.
  intros -> -> ->. unfold rdn. rewrite !blen_app.
  pose proof (blen_nonneg pre). pose proof (blen_nonneg post).
  pose proof (blen_nonneg bs).
  destruct (Z.leb_spec 0 (blen pre)); [|lia].
  destruct (Z.leb_spec 0 (blen bs)); [|lia].
  destruct (Z.leb_spec (blen pre + blen bs) (blen pre + (blen bs + blen post)));
    [|lia]. cbn. by rewrite !to_nat_blen, drop_app_length, take_app_length.
Qed.

Lemma wrn_at m pre old post p bs :
  m = pre ++ old ++ post -> p = blen pre -> blen bs = blen old ->
  wrn m p bs = Done (pre ++ bs ++ post).
Proof.
  intros -> -> Hl. unfold wrn. rewrite !blen_app.
  pose proof (blen_nonneg pre). pose proof (blen_nonneg post).
  destruct (Z.leb_spec 0 (blen pre)); [|lia].
  destruct (Z.leb_spec (blen pre + blen bs) (blen pre + (blen old + blen post)));
    [|lia]. cbn. rewrite to_nat_blen, take_app_length.
  replace (length bs) with (length old) by (unfold blen in Hl; lia).
  by rewrite drop_app_add, drop_app_length.
Qed.

Lemma memmove_at m pre1 bs post1 pre2 old post2 dst src n :
  m = pre1 ++ bs ++ post1 -> m = pre2 ++ old ++ post2 ->
  src = blen pre1 -> n = blen bs -> dst = blen pre2 -> blen bs = blen old ->
  memmove m dst src n = Done (pre2 ++ bs ++ post2).
Proof.
  intros H1 H2 Hs Hn Hd Hl. unfold memmove.
  rewrite (rdn_at m pre1 bs post1) by done. cbn.
  by apply wrn_at with (old := old).
Qed.

Lemma until_nul_app s post :
  nul_free s -> until_nul (s ++ 0 :: post) = Done s.
Proof.
  induction 1 as [|c s Hc _ IH]; cbn; [done|].
  destruct (Z.eqb_spec c 0); [lia|]. by rewrite IH.
Qed.

Lemma cstring_at m pre s post p :
  m = pre ++ s ++ 0 :: post -> p = blen pre -> nul_free s ->
  cstring m p = Done s.
Proof.
  intros -> -> Hs. unfold cstring. pose proof (blen_nonneg pre).
  destruct (Z.ltb_spec (blen pre) 0); [lia|].
  rewrite to_nat_blen, drop_app_length. by apply until_nul_app.
Qed.

Lemma strlen_at m pre s post p :
  m = pre ++ s ++ 0 :: post -> p = blen pre -> nul_free s ->
  strlen m p = Done (blen s).
Proof.
  intros Hm Hp Hs. unfold strlen. by rewrite (cstring_at m pre s post).
Qed.

Lemma strchr_from_at s c post : forall p, nul_free s -> Forall (fun x => x <> c) s ->
  strchr_from (s ++ c :: post) p c = Done (Some (p + blen s)).
Proof.
  induction s as [|x s IH]; intros p Hs Hc; cbn [strchr_from app].
  - rewrite Z.eqb_refl. do 2 f_equal. unfold blen. cbn. lia.
  - apply Forall_cons_1 in Hs as [Hx Hs]. apply Forall_cons_1 in Hc as [Hxc Hc].
    rewrite (proj2 (Z.eqb_neq x c)), (proj2 (Z.eqb_neq x 0)), IH by (done || lia).
    do 2 f_equal. rewrite blen_cons. lia.
Qed.

Lemma strchr_at m pre s c post p : m = pre ++ s ++ c :: post -> p = blen pre -> nul_free s ->
  Forall (fun x => x <> c) s -> strchr m p c = Done (Some (p + blen s)).
Proof.
  intros -> -> Hs Hc. unfold strchr. rewrite (proj2 (Z.ltb_ge _ 0)) by apply blen_nonneg.
  rewrite to_nat_blen, drop_app_length. by apply strchr_from_at.
Qed.

Lemma strchr_none m pre s c post p : m = pre ++ s ++ 0 :: post -> p = blen pre -> c <> 0 -> nul_free s ->
  Forall (fun x => x <> c) s -> strchr m p c = Done None.
Proof.
  intros -> -> Hc0 Hs Hc. unfold strchr. rewrite (proj2 (Z.ltb_ge _ 0)) by apply blen_nonneg.
  rewrite to_nat_blen, drop_app_length. generalize (blen pre). induction s as [|x s IH]; intros p; cbn [strchr_from app].
  - rewrite (proj2 (Z.eqb_neq 0 c)) by lia. done.
  - apply Forall_cons_1 in Hs as [Hx Hs]. apply Forall_cons_1 in Hc as [Hxc Hc].
    rewrite (proj2 (Z.eqb_neq x c)), (proj2 (Z.eqb_neq x 0)) by lia. by apply IH.
Qed.

(** Integer tests as propositions. *)
Ltac zprop E :=
  rewrite ?andb_true_iff, ?andb_false_iff, ?orb_true_iff, ?orb_false_iff,
    ?negb_true_iff, ?negb_false_iff, ?Z.ltb_lt, ?Z.ltb_ge, ?Z.leb_le, ?Z.leb_gt,
    ?Z.eqb_eq, ?Z.eqb_neq in E.

(** Split the [if]s of the goal on their integer tests, and prune by [lia]. *)
Ltac zcase :=
  match goal with
  | |- context [if ?b then _ else _] =>
      let E := fresh "E" in destruct b eqn:E;
      try (exfalso; first [lia | zprop E; lia])
  end.

(** * Lists *)

Lemma Forall_app_intro {A} (P : A -> Prop) l k :
  Forall P l -> Forall P k -> Forall P (l ++ k).
Proof. rewrite Forall_app. done. Qed.

Lemma snoc_case {A} (l : list A) : l = [] \/ exists k x, l = k ++ [x].
Proof. destruct l using rev_ind; eauto. Qed.

(** * Facts about bytes, by enumeration *)

Lemma byte_table (P : Z -> bool) :
  forallb P (seqZ 0 256) = true -> forall v, is_u8 v -> P v = true.
Proof.
  intros H v Hv. rewrite forallb_forall in H. apply H.
  apply list_elem_of_In, elem_of_seqZ. width. lia.
Qed.

(** * Bit operations as arithmetic *)

Lemma lor_shift a b n :
  0 <= n -> 0 <= a < 2 ^ n -> Z.lor a (Z.shiftl b n) = a + b * 2 ^ n.
Proof.
  intros Hn Ha.
  assert (Z.land a (Z.shiftl b n) = 0) as H0.
  { apply Z.bits_inj'. intros i Hi. rewrite Z.land_spec, Z.bits_0.
    destruct (Z.lt_ge_cases i n).
    - rewrite Z.shiftl_spec_low by done. apply andb_false_r.
    - rewrite <- (Z.mod_small a (2 ^ n)) by done.
      by rewrite Z.mod_pow2_bits_high. }
  rewrite <- Z.shiftl_mul_pow2 by done.
  by rewrite Z.add_nocarry_lxor, Z.lxor_lor.
Qed.

Lemma land_ones_mod v n : 0 <= n -> Z.land v (2 ^ n - 1) = v mod 2 ^ n.
Proof.
  intros. rewrite <- Z.land_ones by done. f_equal. rewrite Z.ones_equiv. lia.
Qed.

Lemma div_minus_one v n : - n <= v < 0 -> v / n = -1.
Proof. intros. symmetry. apply (Z.div_unique v n (-1) (v + n)); lia. Qed.

Lemma land_1 v : Z.land v 1 = v mod 2.
Proof. apply (land_ones_mod v 1). lia. Qed.

(** * Numbers as text *)

(** The value of digits read after [acc]. *)
Definition digits_value (acc : Z) (ds : list Z) : Z := foldl (fun a c => a * 10 + (c - 48)) acc ds.

Lemma digits_spec fuel : forall n acc, 0 <= n < 10 ^ Z.of_nat fuel -> (0 < fuel)%nat ->
  exists ds, digits fuel n acc = ds ++ acc /\ ds <> [] /\ Forall (fun c => isdigit c = true) ds /\
    digits_value 0 ds = n.
Proof.
  induction fuel as [|fuel IH]; intros n acc Hn Hf; [lia|]. cbn [digits].
  pose proof (Z.mod_pos_bound n 10 ltac:(lia)) as Hm.
  assert (isdigit (48 + n mod 10) = true) as Hd.
  { unfold isdigit. rewrite andb_true_iff, !Z.leb_le. lia. }
  destruct (Z.ltb_spec n 10) as [Hlt|Hge].
  - exists [48 + n mod 10]. split_and!; [done|done|by repeat constructor|].
    unfold digits_value. cbn. rewrite Z.mod_small by lia. lia.
  - assert (0 < fuel)%nat as Hf' by (destruct fuel; [cbn in Hn; lia|lia]).
    rewrite Nat2Z.inj_succ, Z.pow_succ_r in Hn by lia.
    destruct (IH (n / 10) ((48 + n mod 10) :: acc)) as (ds & Hds & Hne & Hall & Hv);
      [split; [apply Z.div_pos; lia|apply Z.div_lt_upper_bound; lia]|done|].
    exists (ds ++ [48 + n mod 10]). rewrite Hds, <- app_assoc. split_and!; [done|by destruct ds| |].
    + apply Forall_app. split; [done|by repeat constructor].
    + unfold digits_value in *. rewrite foldl_app. cbn. rewrite Hv. pose proof (Z.div_mod n 10). lia.
Qed.

Lemma digits_chars fuel : forall n acc, Forall (fun c => 48 <= c <= 57) acc ->
  Forall (fun c => 48 <= c <= 57) (digits fuel n acc).
Proof.
  induction fuel as [|fuel IH]; intros n acc Ha; [done|]. cbn [digits].
  assert (Forall (fun c => 48 <= c <= 57) ((48 + n mod 10) :: acc)) as Ha'.
  { constructor; [|done]. pose proof (Z.mod_pos_bound n 10). lia. }
  destruct (n <? 10); [done|by apply IH].
Qed.

Lemma decimal_chars n : Forall (fun c => 45 <= c <= 57) (decimal n).
Proof.
  unfold decimal. destruct (n <? 0); [constructor; [lia|]|];
    (eapply Forall_impl; [|by apply digits_chars]); intros c; cbn; lia.
Qed.

(** * Reading on through a text in memory *)

Lemma rd_head (pre : list Z) c t post : rd (pre ++ (c :: t) ++ post) (blen pre) = Done c.
Proof. apply (rd_at _ pre c (t ++ post)); done. Qed.

Lemma move_on (pre s r post : list Z) : pre ++ (s ++ r) ++ post = (pre ++ s) ++ r ++ post.
Proof. by rewrite !app_assoc. Qed.

(** The length of the first line, with its newline. *)
Fixpoint newline_len (text : list Z) : nat := match text with [] => 0 | c :: t => if c =? 10 then 1 else S (newline_len t) end.

Lemma newline_len_le text : (newline_len text <= length text)%nat.
Proof. induction text as [|c t IH]; [done|]. cbn. destruct (c =? 10); lia. Qed.

(** * Reads that are in bounds *)

Lemma rd_in m p : 0 <= p < blen m -> exists c, rd m p = Done c.
Proof.
  intros Hp. unfold rd. rewrite (proj2 (Z.ltb_ge p 0)) by lia.
  destruct (lookup_lt_is_Some_2 m (Z.to_nat p)) as [c ->]; [unfold blen in *; lia|by exists c].
Qed.

Lemma rdn_in m p n : 0 <= p -> 0 <= n -> p + n <= blen m -> exists s, rdn m p n = Done s.
Proof.
  intros. unfold rdn. rewrite (proj2 (Z.leb_le 0 p)), (proj2 (Z.leb_le 0 n)), (proj2 (Z.leb_le (p + n) _)) by lia.
  by eexists.
Qed.

Lemma rdn_head m p n c t : rdn m p n = Done (c :: t) -> rd m p = Done c.
Proof.
  unfold rdn, rd. destruct ((0 <=? p) && (0 <=? n) && (p + n <=? blen m)) eqn:E; [|done]. zprop E.
  intros [= H]. rewrite (proj2 (Z.ltb_ge p 0)) by lia.
  assert (take (Z.to_nat n) (drop (Z.to_nat p) m) !! 0%nat = Some c) as Hl by (by rewrite H).
  apply lookup_take_Some in Hl as [Hl _]. rewrite lookup_drop, Nat.add_0_r in Hl. by rewrite Hl.
Qed.

Lemma digits_length k : forall fuel n acc, 0 <= n < 10 ^ Z.of_nat (S k) ->
  (length (digits fuel n acc) <= S k + length acc)%nat.
Proof.
  induction k as [|k IH]; intros fuel n acc Hn; (destruct fuel as [|fuel]; [cbn; lia|]); cbn [digits].
  - change (10 ^ Z.of_nat 1) with 10 in Hn. rewrite (proj2 (Z.ltb_lt n 10)) by lia. cbn. lia.
  - destruct (n <? 10); [cbn; lia|]. rewrite Nat2Z.inj_succ, Z.pow_succ_r in Hn by lia.
    specialize (IH fuel (n / 10) ((48 + n mod 10) :: acc)). cbn [length] in IH.
    assert (0 <= n / 10 < 10 ^ Z.of_nat (S k)) by (split; [apply Z.div_pos; lia|apply Z.div_lt_upper_bound; lia]).
    specialize (IH ltac:(done)). lia.
Qed.

Lemma digits_fuel fuel : forall n acc, (length (digits fuel n acc) <= fuel + length acc)%nat.
Proof. induction fuel as [|fuel IH]; intros n acc; cbn; [lia|]. destruct (n <? 10); cbn; [lia|]. etrans; [apply IH|]. cbn. lia. Qed.

Lemma decimal_bound n : 0 <= n -> (length (decimal n) <= 20)%nat.
Proof. intros Hn. unfold decimal. rewrite (proj2 (Z.ltb_ge _ _)) by lia. etrans; [apply digits_fuel|]. cbn. lia. Qed.

Lemma decimal_short n : blen (decimal n) <= 21.
Proof.
  unfold decimal, blen. destruct (n <? 0); cbn [length].
  - pose proof (digits_fuel 20 (- n) []). cbn in *. lia.
  - pose proof (digits_fuel 20 n []). cbn in *. lia.
Qed.

Lemma decimal_length n : 0 <= n < 10000 -> blen (decimal n) <= 4.
Proof.
  intros Hn. unfold decimal. rewrite (proj2 (Z.ltb_ge n 0)) by lia.
  pose proof (digits_length 3 20 n []). change (10 ^ Z.of_nat 4) with 10000 in H. unfold blen. cbn [length] in H. lia.
Qed.
