(* ===== verification/Parcel.v ===== *)
(** Serialisation buffers: [lib/parcel.c].

    A writing parcel owns a heap block of [capacity] bytes; a reading parcel
    looks at a block it was given.  [malloc_ok n] says whether the allocator can
    supply [n] bytes; fresh bytes read as 0, which no theorem relies on. *)
From S2P Require Import Prelude.

Definition PARCEL_DEFAULT_CAPACITY : Z := 4096.

(** [parcel_t]; [ptr = None] is the null pointer. *)
Record parcel := Parcel {
  size : Z;
  capacity : Z;
  ptr : option (list Z);
  error : bool;
}.

Definition set_error (p : parcel) : parcel :=
  Parcel (size p) (capacity p) (ptr p) true.
Definition set_size (n : Z) (p : parcel) : parcel :=
  Parcel n (capacity p) (ptr p) (error p).

(** * Writing *)
Section Write.
Context (malloc_ok : Z -> bool).

Definition zeros (n : Z) : list Z := replicate (Z.to_nat n) 0.

Definition malloc (n : Z) : option (list Z) :=
  if malloc_ok n then Some (zeros n) else None.

(** [realloc] to a larger block keeps the old bytes. *)
Definition realloc (m : option (list Z)) (n : Z) : option (list Z) :=
  if malloc_ok n then
    Some (match m with Some m => m ++ zeros (n - blen m) | None => zeros n end)
  else None.

Definition parcel_new : parcel :=
  Parcel 0 PARCEL_DEFAULT_CAPACITY (malloc PARCEL_DEFAULT_CAPACITY) false.

Definition parcel_size (p : parcel) : Z := size p.
Definition parcel_clear (p : parcel) : parcel := set_size 0 p.

(** The loop [while (parcel->capacity < new_size) parcel->capacity *= 2]. *)
Fixpoint grow_capacity (fuel : nat) (cap new_size : Z) : outcome Z :=
  match fuel with
  | O => NoFuel
  | S fuel =>
      if cap <? new_size then grow_capacity fuel (u64 (cap * 2)) new_size
      else Done cap
  end.

Definition parcel_write (p : parcel) (bs : list Z) : outcome parcel :=
  if error p then Done p
  else
    let new_size := u64 (size p + blen bs) in
    p ← (if capacity p <? new_size then
           cap ← grow_capacity 64 (capacity p) new_size;
           Done (Parcel (size p) cap (realloc (ptr p) cap) (error p))
         else Done p);
    match ptr p with
    | None => Done (set_error p)
    | Some m =>
        if capacity p <? new_size then Done (set_error p)
        else m ← wrn m (size p) bs;
             Done (Parcel (u64 (size p + blen bs)) (capacity p) (Some m) (error p))
    end.

(** The loop of [parcel_write_varuint64] filling [uchar_t buf[10]]: the bytes
    [buf[0 .. cur]]; an eleventh byte would be outside [buf]. *)
Fixpoint varuint_bytes (room : nat) (val : Z) : outcome (list Z) :=
  match room with
  | O => Fault
  | S room =>
      let b := Z.land val 127 in
      let val := Z.shiftr val 7 in
      if val =? 0 then Done [b]
      else rest ← varuint_bytes room val; Done (Z.lor b 128 :: rest)
  end.

Definition parcel_write_varuint64 (p : parcel) (val : Z) : outcome parcel :=
  buf ← varuint_bytes 10 (u64 val); parcel_write p buf.

Definition parcel_write_varint (p : parcel) (val : Z) : outcome parcel :=
  let v := u32 (Z.lxor (i32 (Z.shiftl val 1)) (Z.shiftr val 31)) in
  parcel_write_varuint64 p v.

Definition parcel_write_varint64 (p : parcel) (val : Z) : outcome parcel :=
  parcel_write_varuint64 p (u64 (Z.lxor (i64 (Z.shiftl val 1)) (Z.shiftr val 63))).

Definition parcel_write_bool (p : parcel) (val : bool) : outcome parcel :=
  parcel_write p [if val then 1 else 0].

(** [str] is the object the pointer designates, [None] the null pointer. *)
Definition parcel_write_string_with_size (p : parcel) (str : option (list Z))
    (n : Z) : outcome parcel :=
  match str with
  | Some s =>
      n ← (if n =? 0 then strlen s 0 else Done n);
      p ← parcel_write_bool p false;
      p ← parcel_write_varuint64 p n;
      bs ← rdn s 0 n;
      p ← parcel_write p bs;
      parcel_write p [0]
  | None => parcel_write_bool p true
  end.

Definition parcel_write_string (p : parcel) (str : option (list Z)) : outcome parcel :=
  parcel_write_string_with_size p str 0.

(** The bytes of an integer in memory, little-endian. *)
Fixpoint le_bytes (n : nat) (x : Z) : list Z :=
  match n with O => [] | S n => u8 x :: le_bytes n (Z.shiftr x 8) end.

Definition parcel_write_int (p : parcel) (val : Z) : outcome parcel :=
  parcel_write p (le_bytes 4 val).
Definition parcel_write_int64 (p : parcel) (val : Z) : outcome parcel :=
  parcel_write p (le_bytes 8 val).
End Write.

(** * Reading *)

Definition parcel_read_new (obj : list Z) (n : Z) : parcel := Parcel 0 n (Some obj) false.

(** The object a parcel reads from; reading through a null pointer faults. *)
Definition deref (p : parcel) : outcome (list Z) :=
  match ptr p with Some m => Done m | None => Fault end.

Definition parcel_read_uchar (p : parcel) : outcome (Z * parcel) :=
  if size p <=? capacity p then
    m ← deref p; c ← rd m (size p); Done (c, set_size (u64 (size p + 1)) p)
  else Done (0, set_error p).

(** A 64-bit shift by 64 or more is undefined. *)
Definition shl64 (v offset : Z) : outcome Z :=
  if offset <? 64 then Done (u64 (Z.shiftl v offset)) else Fault.

Fixpoint read_varuint_loop (fuel : nat) (p : parcel) (val offset : Z)
    : outcome (Z * parcel) :=
  match fuel with
  | O => NoFuel
  | S fuel =>
      r ← parcel_read_uchar p;
      let '(v, p) := r in
      if Z.land v 128 =? 0 then
        w ← shl64 v offset; Done (Z.lor val w, p)
      else
        w ← shl64 (Z.land v 127) offset;
        read_varuint_loop fuel p (Z.lor val w) (offset + 7)
  end.

(** Eleven rounds are enough: the eleventh shift is already by 70. *)
Definition parcel_read_varuint64 (p : parcel) : outcome (Z * parcel) :=
  read_varuint_loop 11 p 0 0.

Definition parcel_read_varint64 (p : parcel) : outcome (Z * parcel) :=
  r ← parcel_read_varuint64 p;
  let '(val, p) := r in
  Done (i64 (Z.lxor (Z.shiftr val 1) (u64 (- Z.land val 1))), p).

Definition parcel_read_varint (p : parcel) : outcome (Z * parcel) :=
  r ← parcel_read_varint64 p; let '(v, p) := r in Done (i32 v, p).

Definition parcel_read_bool (p : parcel) : outcome (bool * parcel) :=
  r ← parcel_read_uchar p; let '(v, p) := r in Done (negb (v =? 0), p).

(** The string is returned as its offset in the object and its size. *)
Definition parcel_read_string_and_size (p : parcel)
    : outcome (option (Z * Z) * parcel) :=
  r ← parcel_read_bool p;
  let '(is_null, p) := r in
  if (is_null : bool) then Done (None, p)
  else
    r ← parcel_read_varuint64 p;
    let '(n, p) := r in
    let str := size p in
    let p := set_size (u64 (size p + u64 (n + 1))) p in
    Done (Some (str, n), if capacity p <? size p then set_error p else p).

Definition parcel_read_string (p : parcel) : outcome (option Z * parcel) :=
  r ← parcel_read_string_and_size p;
  let '(s, p) := r in
  Done (match s with Some (str, _) => Some str | None => None end, p).

Definition parcel_read (p : parcel) (n : Z) : outcome (option (list Z) * parcel) :=
  if u64 (size p + n) <=? capacity p then
    m ← deref p; bs ← rdn m (size p) n;
    Done (Some bs, set_size (u64 (size p + n)) p)
  else Done (None, set_error p).

Fixpoint le_value (bs : list Z) : Z :=
  match bs with [] => 0 | b :: bs => Z.lor b (Z.shiftl (le_value bs) 8) end.

Definition parcel_read_int (p : parcel) : outcome (Z * parcel) :=
  r ← parcel_read p 4;
  let '(bs, p) := r in
  Done (match bs with Some bs => i32 (le_value bs) | None => 0 end, p).
Definition parcel_read_int64 (p : parcel) : outcome (Z * parcel) :=
  r ← parcel_read p 8;
  let '(bs, p) := r in
  Done (match bs with Some bs => i64 (le_value bs) | None => 0 end, p).

Definition parcel_ok (p : parcel) : bool := negb (error p).


(** * The variable-length encoding *)

Lemma group_byte b : 0 <= b < 128 ->
  Z.land b 128 = 0 /\ Z.land (Z.lor b 128) 128 <> 0 /\
  Z.land (Z.lor b 128) 127 = b /\ 0 <= Z.lor b 128 < 256.
Proof.
  intros Hb.
  pose proof (byte_table (fun b => (128 <=? b) ||
    ((Z.land b 128 =? 0) && negb (Z.land (Z.lor b 128) 128 =? 0) &&
     (Z.land (Z.lor b 128) 127 =? b) && (0 <=? Z.lor b 128) &&
     (Z.lor b 128 <? 256))) eq_refl b) as H.
  cbn beta in H. width. lia.
Qed.

Lemma shl64_ok v off : 0 <= v -> 0 <= off < 64 -> v * 2 ^ off < 2 ^ 64 ->
  shl64 v off = Done (Z.shiftl v off).
Proof.
  intros. unfold shl64. zcase. rewrite u64_id; [done|].
  width. rewrite Z.shiftl_mul_pow2; lia.
Qed.

Lemma read_uchar_at obj pre c post n :
  obj = pre ++ c :: post -> blen pre <= n < 2 ^ 64 - 1 ->
  parcel_read_uchar (Parcel (blen pre) n (Some obj) false)
  = Done (c, Parcel (blen (pre ++ [c])) n (Some obj) false).
Proof.
  intros -> Hn. unfold parcel_read_uchar. cbn. zcase.
  rewrite (rd_at _ pre c post) by done. unfold set_size. cbn.
  rewrite u64_id by (width; blen). do 4 f_equal. blen.
Qed.

(** Decoding inverts encoding, group by group, from any bit offset. *)
Lemma varuint_roundtrip_gen room : forall v, 0 <= v < 2 ^ (7 * Z.of_nat room) ->
  (0 < room)%nat ->
  exists bs, varuint_bytes room v = Done bs /\ 1 <= blen bs <= Z.of_nat room /\
    Forall is_u8 bs /\
    forall fuel pre post n val off, (room <= fuel)%nat ->
      0 <= off -> off + 7 * (Z.of_nat room - 1) < 64 -> v * 2 ^ off < 2 ^ 64 ->
      0 <= val < 2 ^ off -> blen pre + blen bs <= n < 2 ^ 64 - 1 ->
      read_varuint_loop fuel
        (Parcel (blen pre) n (Some (pre ++ bs ++ post)) false) val off
      = Done (val + v * 2 ^ off,
              Parcel (blen (pre ++ bs)) n (Some (pre ++ bs ++ post)) false).
Proof.
  induction room as [|room IH]; intros v Hv Hr; [lia|]. cbn [varuint_bytes].
  change 127 with (2 ^ 7 - 1). rewrite land_ones_mod, Z.shiftr_div_pow2 by lia.
  change (2 ^ 7) with 128.
  pose proof (Z.mod_pos_bound v 128 eq_refl) as Hm.
  pose proof (Z.div_mod v 128 ltac:(lia)) as Hdm.
  destruct (group_byte (v mod 128)) as (G1 & G2 & G3 & G4); [lia|].
  destruct (Z.eqb_spec (v / 128) 0) as [H0|H0].
  - eexists; split; [done|]. split; [blen|].
    split; [repeat constructor; width; lia|].
    intros fuel pre post n val off Hf Ho Hs Hov Hval Hn.
    destruct fuel as [|fuel]; [lia|]. cbn [read_varuint_loop app].
    rewrite (read_uchar_at _ pre (v mod 128) post) by (try done; blen). cbn.
    rewrite G1. cbn. rewrite shl64_ok by lia. cbn.
    rewrite lor_shift by lia. do 2 f_equal. lia.
  - assert (0 <= v / 128 < 2 ^ (7 * Z.of_nat room)) as Hv'.
    { split; [apply Z.div_pos; lia|]. apply Z.div_lt_upper_bound; [lia|].
      replace (7 * Z.of_nat (S room)) with (7 + 7 * Z.of_nat room) in Hv by lia.
      rewrite Z.pow_add_r in Hv; lia. }
    assert (0 < room)%nat as Hr'. { destruct room; [|lia]. cbn in Hv'. lia. }
    destruct (IH _ Hv' Hr') as (bs & Hbs & Hl & Hu & Hread).
    rewrite Hbs. cbn. eexists; split; [done|]. split; [blen|].
    split; [constructor; [width; lia|done]|].
    intros fuel pre post n val off Hf Ho Hs Hov Hval Hn.
    destruct fuel as [|fuel]; [lia|]. cbn [read_varuint_loop app].
    rewrite (read_uchar_at _ pre (Z.lor (v mod 128) 128) (bs ++ post)) by
      (try done; blen). cbn.
    rewrite (proj2 (Z.eqb_neq _ _) G2), G3.
    assert (v mod 128 * 2 ^ off <= v * 2 ^ off) by
      (apply Z.mul_le_mono_nonneg_r; lia).
    assert (2 ^ (off + 7) = 128 * 2 ^ off) as Hp by (rewrite Z.pow_add_r; lia).
    rewrite shl64_ok by lia. cbn. rewrite lor_shift by lia.
    specialize (Hread fuel (pre ++ [Z.lor (v mod 128) 128]) post n
      (val + v mod 128 * 2 ^ off) (off + 7)).
    rewrite <- !app_assoc in Hread. cbn in Hread.
    assert (0 <= v mod 128 * 2 ^ off <= 127 * 2 ^ off) by nia.
    assert (v mod 128 * 2 ^ off + v / 128 * 2 ^ (off + 7) = v * 2 ^ off) by
      (rewrite Hp; nia).
    rewrite Hread; [|lia|lia|lia|nia|nia|blen].
    do 2 f_equal; lia.
Qed.

(** The bytes [parcel_write_varuint64] appends for [v]. *)
Definition enc_varuint (v : Z) : list Z :=
  match varuint_bytes 10 (u64 v) with Done bs => bs | _ => [] end.

Lemma enc_varuint_spec v : is_u64 v ->
  varuint_bytes 10 (u64 v) = Done (enc_varuint v) /\
  1 <= blen (enc_varuint v) <= 10 /\ Forall is_u8 (enc_varuint v).
Proof.
  intros Hv. unfold enc_varuint. rewrite u64_id by done.
  destruct (varuint_roundtrip_gen 10 v) as (bs & -> & ? & ? & _);
    [width; lia|lia|done].
Qed.

Lemma read_varuint_at v pre post n :
  is_u64 v -> blen pre + blen (enc_varuint v) <= n < 2 ^ 64 - 1 ->
  parcel_read_varuint64
    (Parcel (blen pre) n (Some (pre ++ enc_varuint v ++ post)) false)
  = Done (v, Parcel (blen (pre ++ enc_varuint v)) n
               (Some (pre ++ enc_varuint v ++ post)) false).
Proof.
  unfold enc_varuint. intros Hv. rewrite u64_id by done.
  destruct (varuint_roundtrip_gen 10 v) as (bs & -> & Hl & Hu & Hrd);
    [width; lia|lia|]. intros Hn.
  unfold parcel_read_varuint64. rewrite Hrd by (width; lia).
  by rewrite Z.pow_0_r, Z.mul_1_r.
Qed.

(** * Zigzag *)

Definition zigzag (v : Z) : Z := if 0 <=? v then 2 * v else - 2 * v - 1.

Lemma lxor_m1 x : Z.lxor x (-1) = - x - 1.
Proof. rewrite Z.lxor_m1_r. unfold Z.lnot. lia. Qed.

Lemma u64_i64 x : u64 (i64 x) = u64 x.
Proof.
  width. rewrite Zminus_mod_idemp_l. f_equal. lia.
Qed.
Lemma u32_i32 x : u32 (i32 x) = u32 x.
Proof.
  width. rewrite Zminus_mod_idemp_l. f_equal. lia.
Qed.


Lemma zigzag64 v : is_i64 v ->
  u64 (Z.lxor (i64 (Z.shiftl v 1)) (Z.shiftr v 63)) = zigzag v.
Proof.
  intros Hv. rewrite Z.shiftl_mul_pow2, Z.shiftr_div_pow2 by lia.
  unfold zigzag. destruct (Z.leb_spec 0 v).
  - rewrite Z.div_small by (width; lia). rewrite Z.lxor_0_r, u64_i64.
    rewrite u64_id by (width; lia). lia.
  - rewrite div_minus_one by (width; lia). rewrite lxor_m1. width.
    destruct (Z.lt_ge_cases v (- 2 ^ 62)).
    + rewrite <- (Z.mod_add (v * 2 ^ 1 + 2 ^ 63) 1 (2 ^ 64)) by lia.
      rewrite (Z.mod_small (v * 2 ^ 1 + 2 ^ 63 + _)) by lia.
      rewrite <- (Z.mod_add _ 1 (2 ^ 64)) by lia. rewrite Z.mod_small; lia.
    + rewrite (Z.mod_small (v * 2 ^ 1 + 2 ^ 63)) by lia.
      rewrite Z.mod_small; lia.
Qed.

Lemma zigzag32 v : is_i32 v ->
  u32 (Z.lxor (i32 (Z.shiftl v 1)) (Z.shiftr v 31)) = zigzag v.
Proof.
  intros Hv. rewrite Z.shiftl_mul_pow2, Z.shiftr_div_pow2 by lia.
  unfold zigzag. destruct (Z.leb_spec 0 v).
  - rewrite Z.div_small by (width; lia). rewrite Z.lxor_0_r, u32_i32.
    rewrite u32_id by (width; lia). lia.
  - rewrite div_minus_one by (width; lia). rewrite lxor_m1. width.
    destruct (Z.lt_ge_cases v (- 2 ^ 30)).
    + rewrite <- (Z.mod_add (v * 2 ^ 1 + 2 ^ 31) 1 (2 ^ 32)) by lia.
      rewrite (Z.mod_small (v * 2 ^ 1 + 2 ^ 31 + _)) by lia.
      rewrite <- (Z.mod_add _ 1 (2 ^ 32)) by lia. rewrite Z.mod_small; lia.
    + rewrite (Z.mod_small (v * 2 ^ 1 + 2 ^ 31)) by lia.
      rewrite Z.mod_small; lia.
Qed.

Lemma lxor_ones x n : 0 <= n -> 0 <= x < 2 ^ n ->
  Z.lxor x (2 ^ n - 1) = 2 ^ n - 1 - x.
Proof.
  intros Hn Hx. replace (2 ^ n - 1) with (Z.ones n) by (rewrite Z.ones_equiv; lia).
  assert (Z.land x (Z.lxor x (Z.ones n)) = 0) as H0.
  { apply Z.bits_inj'. intros i Hi. rewrite Z.land_spec, Z.lxor_spec, Z.bits_0.
    destruct (Z.lt_ge_cases i n).
    - rewrite Z.ones_spec_low by lia. by destruct (Z.testbit x i).
    - rewrite <- (Z.mod_small x (2 ^ n)) by done.
      by rewrite Z.mod_pow2_bits_high. }
  pose proof (Z.add_nocarry_lxor _ _ H0) as H.
  rewrite <- Z.lxor_assoc, Z.lxor_nilpotent, Z.lxor_0_l in H. lia.
Qed.

Lemma unzigzag v : is_i64 v ->
  i64 (Z.lxor (Z.shiftr (zigzag v) 1) (u64 (- Z.land (zigzag v) 1))) = v.
Proof.
  intros Hv. unfold zigzag.
  rewrite land_1, Z.shiftr_div_pow2 by lia. change (2 ^ 1) with 2.
  destruct (Z.leb_spec 0 v).
  - rewrite Z.mul_comm, Z.div_mul, Z.mod_mul by lia.
    change (u64 (- 0)) with 0. rewrite Z.lxor_0_r. by apply i64_id.
  - replace (-2 * v - 1) with (1 + (- v - 1) * 2) by lia.
    rewrite Z.div_add, Z.mod_add by lia.
    change (u64 (- (1 mod 2))) with (2 ^ 64 - 1). change (1 / 2) with 0.
    rewrite lxor_ones by (width; lia).
    width. replace (2 ^ 64 - 1 - (0 + (- v - 1)) + 2 ^ 63)
      with (v + 2 ^ 63 + 1 * 2 ^ 64) by lia.
    rewrite Z.mod_add, Z.mod_small; lia.
Qed.

Lemma zigzag_u64 v : is_i64 v -> is_u64 (zigzag v).
Proof. unfold zigzag. width. intros. zcase; lia. Qed.

(** * Writing appends *)

(** [p] is an error-free writer whose contents are [s]. *)
Definition wrote (p : parcel) (s : list Z) : Prop :=
  error p = false /\ size p = blen s /\
  PARCEL_DEFAULT_CAPACITY <= capacity p < 2 ^ 64 /\
  exists rest, ptr p = Some (s ++ rest) /\ blen (s ++ rest) = capacity p.

Lemma grow_capacity_spec fuel : forall cap n,
  0 < cap < 2 ^ 64 -> n <= 2 ^ 63 -> n <= cap * 2 ^ Z.of_nat fuel ->
  exists c, grow_capacity (S fuel) cap n = Done c /\ n <= c /\ cap <= c < 2 ^ 64.
Proof.
  induction fuel as [|fuel IH]; intros cap n Hc Hn Hf.
  - cbn. zcase. eauto with lia.
  - cbn [grow_capacity]. zcase; [|eauto with lia].
    rewrite u64_id by (width; lia).
    destruct (IH (cap * 2) n) as (c & Hg & ? & ?); [lia|lia| |].
    + rewrite Nat2Z.inj_succ, Z.pow_succ_r in Hf; lia.
    + exists c. cbn [grow_capacity] in Hg. rewrite Hg. eauto with lia.
Qed.

Lemma blen_zeros n : 0 <= n -> blen (zeros n) = n.
Proof. intros. unfold blen, zeros. rewrite length_replicate. lia. Qed.

Section WriteSpec.
Context (malloc_ok : Z -> bool).

Lemma wrn_append s rest bs : blen bs <= blen rest ->
  exists rest', wrn (s ++ rest) (blen s) bs = Done ((s ++ bs) ++ rest') /\
    blen (s ++ rest) = blen ((s ++ bs) ++ rest').
Proof.
  intros H. exists (drop (length bs) rest).
  rewrite (wrn_at _ s (take (length bs) rest) (drop (length bs) rest)).
  - rewrite <- app_assoc. split; [done|]. rewrite !blen_app.
    unfold blen in *. rewrite length_drop. lia.
  - by rewrite take_drop.
  - done.
  - unfold blen in *. rewrite length_take. lia.
Qed.

(** A write either appends its bytes or sets the error flag; it can only do the
    latter when the allocator fails. *)
Lemma parcel_write_spec p s bs : wrote p s -> blen s + blen bs <= 2 ^ 63 ->
  exists p', parcel_write malloc_ok p bs = Done p' /\
    (wrote p' (s ++ bs) \/
     error p' = true /\ exists n, malloc_ok n = false).
Proof.
  intros (He & Hs & Hc & rest & Hp & Hr) Hlen.
  unfold PARCEL_DEFAULT_CAPACITY in Hc. unfold parcel_write.
  rewrite He, Hs, Hp. pose proof (blen_nonneg s). pose proof (blen_nonneg bs).
  rewrite u64_id by (width; lia). rewrite blen_app in Hr.
  destruct (Z.ltb_spec (capacity p) (blen s + blen bs)) as [Hlt|Hge].
  - destruct (grow_capacity_spec 63 (capacity p) (blen s + blen bs))
      as (c & -> & ? & ?); [lia|lia|lia|]. cbn -[wrn u64]. unfold realloc.
    destruct (malloc_ok c) eqn:Hm; cbn -[wrn u64]; [|eauto 10].
    zcase. rewrite blen_app, <- app_assoc.
    pose proof (blen_zeros (c - (blen s + blen rest))) as Hz.
    destruct (wrn_append s (rest ++ zeros (c - (blen s + blen rest))) bs)
      as (rest' & -> & Hl'); [blen|]. cbn.
    eexists; split; [done|]. left. unfold wrote; cbn.
    rewrite u64_id by (width; lia). unfold PARCEL_DEFAULT_CAPACITY.
    split_and!; [done|blen|lia|lia|]. eexists; split; [done|]. blen.
  - cbn -[wrn u64]. rewrite Hp, Hs. zcase.
    destruct (wrn_append s rest bs) as (rest' & -> & Hl'); [lia|]. cbn.
    eexists; split; [done|]. left. unfold wrote; cbn.
    rewrite He, u64_id by (width; lia). unfold PARCEL_DEFAULT_CAPACITY.
    split_and!; [done|blen|lia|lia|]. eexists; split; [done|]. blen.
Qed.

Hypothesis mem_available : forall n, malloc_ok n = true.

Lemma parcel_write_ok p s bs : wrote p s -> blen s + blen bs <= 2 ^ 63 ->
  exists p', parcel_write malloc_ok p bs = Done p' /\ wrote p' (s ++ bs).
Proof.
  intros Hw Hl. destruct (parcel_write_spec p s bs Hw Hl) as (p' & Hp & [H|H]);
    [eauto|]. destruct H as (_ & n & Hn). by rewrite mem_available in Hn.
Qed.

Lemma wrote_new : wrote (parcel_new malloc_ok) [].
Proof.
  unfold wrote, parcel_new, malloc. rewrite mem_available. cbn -[zeros].
  unfold PARCEL_DEFAULT_CAPACITY.
  split_and!; [done|done|lia|lia|]. eexists; split; [done|].
  by apply blen_zeros.
Qed.

Lemma write_varuint64_ok p s v : wrote p s -> is_u64 v -> blen s + 10 <= 2 ^ 63 ->
  exists p', parcel_write_varuint64 malloc_ok p v = Done p' /\
    wrote p' (s ++ enc_varuint v).
Proof.
  intros Hw Hv Hl. unfold parcel_write_varuint64.
  destruct (enc_varuint_spec v Hv) as (-> & ? & _).
  apply parcel_write_ok; [done|lia].
Qed.
End WriteSpec.

(** * Little-endian integers *)

Lemma blen_le_bytes n x : blen (le_bytes n x) = Z.of_nat n.
Proof. revert x; induction n; intros; cbn [le_bytes]; [done|]. rewrite blen_cons, IHn. lia. Qed.

Lemma le_value_bytes n : forall x, le_value (le_bytes n x) = x mod 2 ^ (8 * Z.of_nat n).
Proof.
  induction n as [|n IH]; intros x; cbn [le_bytes le_value].
  - by rewrite Z.mod_1_r.
  - rewrite IH, lor_shift by (try apply u8_range; lia).
    rewrite Z.shiftr_div_pow2 by lia. unfold u8.
    replace (8 * Z.of_nat (S n)) with (8 + 8 * Z.of_nat n) by lia.
    rewrite Z.pow_add_r by lia.
    rewrite (Z.rem_mul_r x (2 ^ 8)) by lia. lia.
Qed.

(** * Messages *)

(** A reading parcel that has consumed [pre] of the object [obj]. *)
Definition reader (pre obj : list Z) (n : Z) : parcel :=
  Parcel (blen pre) n (Some obj) false.

(** What a caller does to get at a string field: read it, then follow the
    pointer. *)
Definition read_string_contents (p : parcel) : outcome (option (list Z) * parcel) :=
  '(s, p) ← parcel_read_string_and_size p;
  match s with
  | None => Done (None, p)
  | Some (str, n) => m ← deref p; bs ← rdn m str n; Done (Some bs, p)
  end.

(** How one type of field is written and read back, and its bytes. *)
Record codec (A : Type) := Codec {
  c_put : (Z -> bool) -> parcel -> A -> outcome parcel;
  c_get : parcel -> outcome (A * parcel);
  c_ok : A -> Prop;
  c_enc : A -> list Z;
}.
Arguments Codec {A}.
Arguments c_put {A}.
Arguments c_get {A}.
Arguments c_ok {A}.
Arguments c_enc {A}.

(** The contract between the serialisers and the parcel. *)
Class CodecLaws {A} (c : codec A) : Prop := {
  put_law malloc_ok p s a :
    (forall n, malloc_ok n = true) -> wrote p s -> c_ok c a ->
    blen s + blen (c_enc c a) <= 2 ^ 63 ->
    exists p', c_put c malloc_ok p a = Done p' /\ wrote p' (s ++ c_enc c a);
  get_law pre post n a :
    c_ok c a -> blen pre + blen (c_enc c a) <= n < 2 ^ 64 - 1 ->
    c_get c (reader pre (pre ++ c_enc c a ++ post) n)
    = Done (a, reader (pre ++ c_enc c a) (pre ++ c_enc c a ++ post) n);
}.

Definition varuint64_codec : codec Z :=
  Codec parcel_write_varuint64 parcel_read_varuint64 is_u64 enc_varuint.
Definition varint_codec : codec Z :=
  Codec parcel_write_varint parcel_read_varint is_i32
    (fun v => enc_varuint (zigzag v)).
Definition varint64_codec : codec Z :=
  Codec parcel_write_varint64 parcel_read_varint64 is_i64
    (fun v => enc_varuint (zigzag v)).
Definition bool_codec : codec bool :=
  Codec parcel_write_bool parcel_read_bool (fun _ => True)
    (fun b => [if b then 1 else 0]).
Definition int_codec : codec Z :=
  Codec parcel_write_int parcel_read_int is_i32 (le_bytes 4).
Definition int64_codec : codec Z :=
  Codec parcel_write_int64 parcel_read_int64 is_i64 (le_bytes 8).

(** A nullable C string; the argument is the object holding it. *)
Definition string_codec : codec (option (list Z)) :=
  Codec
    (fun mo p s => parcel_write_string mo p ((fun s => s ++ [0]) <$> s))
    read_string_contents
    (fun s => match s with Some s => nul_free s /\ blen s < 2 ^ 62 | None => True end)
    (fun s => match s with
              | Some s => [0] ++ enc_varuint (blen s) ++ s ++ [0]
              | None => [1]
              end).

(** Consecutive fields. *)
Definition pair_codec {A B} (c : codec A) (d : codec B) : codec (A * B) :=
  Codec
    (fun mo p ab => p ← c_put c mo p ab.1; c_put d mo p ab.2)
    (fun p => '(a, p) ← c_get c p; '(b, p) ← c_get d p; Done ((a, b), p))
    (fun ab => c_ok c ab.1 /\ c_ok d ab.2)
    (fun ab => c_enc c ab.1 ++ c_enc d ab.2).

#[export] Instance varuint64_laws : CodecLaws varuint64_codec.
Proof.
  split; cbn [c_put c_get c_ok c_enc varuint64_codec].
  - intros mo p s a Hmo Hw Ha Hl. unfold parcel_write_varuint64.
    destruct (enc_varuint_spec a Ha) as (-> & _). by apply parcel_write_ok.
  - intros. by apply read_varuint_at.
Qed.

#[export] Instance varint64_laws : CodecLaws varint64_codec.
Proof.
  split; cbn [c_put c_get c_ok c_enc varint64_codec].
  - intros mo p s a Hmo Hw Ha Hl. unfold parcel_write_varint64.
    rewrite zigzag64 by done.
    by apply (put_law (c := varuint64_codec)); [..|apply zigzag_u64|].
  - intros. unfold parcel_read_varint64, reader.
    rewrite read_varuint_at by (try apply zigzag_u64; done). cbn -[i64 u64].
    by rewrite unzigzag.
Qed.

#[export] Instance varint_laws : CodecLaws varint_codec.
Proof.
  assert (forall v, is_i32 v -> is_i64 v) as Hw by (width; lia).
  split; cbn [c_put c_get c_ok c_enc varint_codec].
  - intros mo p s a Hmo Hs Ha Hl. unfold parcel_write_varint.
    rewrite zigzag32 by done.
    by apply (put_law (c := varuint64_codec)); [..|apply zigzag_u64, Hw|].
  - intros. unfold parcel_read_varint.
    pose proof (get_law (c := varint64_codec)) as Hg.
    cbn [c_get c_ok c_enc varint64_codec] in Hg.
    rewrite Hg by auto. cbn -[i32]. by rewrite i32_id.
Qed.

#[export] Instance bool_laws : CodecLaws bool_codec.
Proof.
  split; cbn [c_put c_get c_ok c_enc bool_codec].
  - intros. by apply parcel_write_ok.
  - intros pre post n b _ Hn. unfold parcel_read_bool, reader.
    rewrite (read_uchar_at _ pre (if b then 1 else 0) post) by (try done; blen).
    by destruct b.
Qed.

Lemma parcel_read_at pre bs post n k :
  k = blen bs -> blen pre + k <= n < 2 ^ 64 - 1 ->
  parcel_read (reader pre (pre ++ bs ++ post) n) k
  = Done (Some bs, reader (pre ++ bs) (pre ++ bs ++ post) n).
Proof.
  intros -> Hn. unfold parcel_read, reader. cbn.
  pose proof (blen_nonneg pre). pose proof (blen_nonneg bs).
  rewrite u64_id by (width; lia). zcase.
  rewrite (rdn_at _ pre bs post) by done. cbn. unfold set_size. cbn.
  do 4 f_equal. blen.
Qed.

#[export] Instance int_laws : CodecLaws int_codec.
Proof.
  split; cbn [c_put c_get c_ok c_enc int_codec].
  - intros. by apply parcel_write_ok.
  - intros pre post n a Ha Hn. unfold parcel_read_int.
    rewrite parcel_read_at by (rewrite ?blen_le_bytes in *; lia).
    cbn [mbind outcome_bind]. rewrite le_value_bytes. do 2 f_equal.
    width. rewrite Zplus_mod_idemp_l, Z.mod_small; lia.
Qed.

#[export] Instance int64_laws : CodecLaws int64_codec.
Proof.
  split; cbn [c_put c_get c_ok c_enc int64_codec].
  - intros. by apply parcel_write_ok.
  - intros pre post n a Ha Hn. unfold parcel_read_int64.
    rewrite parcel_read_at by (rewrite ?blen_le_bytes in *; lia).
    cbn [mbind outcome_bind]. rewrite le_value_bytes. do 2 f_equal.
    width. rewrite Zplus_mod_idemp_l, Z.mod_small; lia.
Qed.

#[export] Instance pair_laws {A B} (c : codec A) (d : codec B) :
  CodecLaws c -> CodecLaws d -> CodecLaws (pair_codec c d).
Proof.
  intros Hc Hd. split; cbn [c_put c_get c_ok c_enc pair_codec].
  - intros mo p s [a b] Hmo Hw [Ha Hb] Hl. cbn [fst snd] in *.
    pose proof (blen_nonneg (c_enc d b)). rewrite blen_app in Hl.
    destruct (put_law mo p s a) as (p1 & -> & H1); [done..|lia|].
    cbn [mbind outcome_bind]. rewrite app_assoc. apply put_law; try done. blen.
  - intros pre post n [a b] [Ha Hb] Hn. cbn [fst snd] in *.
    pose proof (blen_nonneg (c_enc d b)). rewrite blen_app in Hn.
    rewrite <- app_assoc, (get_law pre (c_enc d b ++ post)) by (try done; lia).
    cbn [mbind outcome_bind].
    pose proof (get_law (pre ++ c_enc c a) post n b Hb) as Hg.
    rewrite <- app_assoc in Hg. rewrite Hg by blen. cbn.
    by rewrite <- app_assoc.
Qed.

Lemma nul_free_blen_u64 s : blen s < 2 ^ 62 -> is_u64 (blen s).
Proof. pose proof (blen_nonneg s). width. lia. Qed.

Lemma string_put_some malloc_ok p s str :
  (forall n, malloc_ok n = true) -> wrote p s -> nul_free str ->
  blen str < 2 ^ 62 -> blen s + blen (c_enc string_codec (Some str)) <= 2 ^ 63 ->
  exists p', c_put string_codec malloc_ok p (Some str) = Done p' /\
    wrote p' (s ++ c_enc string_codec (Some str)).
Proof.
  intros Hmo Hw Hf Hlt Hl. cbn [c_enc string_codec] in *.
  pose proof (blen_nonneg str). rewrite !blen_app, !blen_cons, blen_nil in Hl.
  cbn [c_put string_codec fmap option_fmap option_map].
  unfold parcel_write_string, parcel_write_string_with_size.
  rewrite Z.eqb_refl, (strlen_at _ [] str []) by done. cbn [mbind outcome_bind].
  pose proof (nul_free_blen_u64 str Hlt) as Hu.
  pose proof (enc_varuint_spec _ Hu) as (_ & He & _).
  destruct (put_law (c := bool_codec) malloc_ok p s false)
    as (p1 & Hp1 & H1); [done..|cbn; blen|]. cbn in Hp1, H1. rewrite Hp1. cbn [mbind outcome_bind].
  destruct (put_law (c := varuint64_codec) malloc_ok p1 (s ++ [0]) (blen str))
    as (p2 & Hp2 & H2); [done..|cbn; blen|].
  cbn [c_put c_enc varuint64_codec] in Hp2, H2. rewrite Hp2. cbn [mbind outcome_bind].
  rewrite (rdn_at _ [] str [0]) by done. cbn [mbind outcome_bind].
  destruct (parcel_write_ok malloc_ok Hmo p2 _ str H2) as (p3 & -> & H3); [blen|].
  cbn [mbind outcome_bind].
  destruct (parcel_write_ok malloc_ok Hmo p3 _ [0] H3) as (p4 & -> & H4); [blen|].
  exists p4; split; [done|]. revert H4. rewrite <- !app_assoc. done.
Qed.

#[export] Instance string_laws : CodecLaws string_codec.
Proof.
  split.
  - intros mo p s [str|] Hmo Hw Ha Hl; [destruct Ha; by apply string_put_some|].
    by apply (put_law (c := bool_codec) mo p s true).
  - intros pre post n [str|] Ha Hn; cbn [c_get c_enc string_codec] in *;
      unfold read_string_contents, parcel_read_string_and_size.
    + destruct Ha as [Hf Hlt]. pose proof (nul_free_blen_u64 str Hlt) as Hu.
      rewrite !blen_app, !blen_cons, blen_nil in Hn.
      pose proof (blen_nonneg str). pose proof (blen_nonneg pre).
      pose proof (enc_varuint_spec _ Hu) as (_ & He & _).
      set (e := enc_varuint (blen str)) in *.
      pose proof (get_law (c := bool_codec) pre (e ++ str ++ [0] ++ post) n false I) as Hb.
      cbn [c_get c_enc bool_codec] in Hb. rewrite <- !app_assoc.
      rewrite Hb by blen. cbn [mbind outcome_bind].
      pose proof (get_law (c := varuint64_codec) (pre ++ [0]) (str ++ [0] ++ post)
        n (blen str) Hu) as Hv.
      cbn [c_get c_enc varuint64_codec] in Hv. fold e in Hv.
      rewrite <- !app_assoc in Hv. rewrite Hv by blen.
      cbn [mbind outcome_bind]. unfold reader, set_size. cbn [size capacity ptr error].
      rewrite (u64_id (blen str + 1)), u64_id by (width; blen).
      zcase; [blen|]. unfold deref. cbn [ptr mbind outcome_bind].
      rewrite (rdn_at _ (pre ++ [0] ++ e) str ([0] ++ post)) by app_eq. cbn.
      do 4 f_equal. blen.
    + pose proof (get_law (c := bool_codec) pre post n true I) as Hb.
      cbn [c_get c_enc bool_codec] in Hb. rewrite Hb by done. done.
Qed.

(** * Properties *)



(** A write to an error-free parcel either appends exactly its bytes to the
    contents or leaves the error flag set; the error flag is only set when the
    allocator refused a request. *)
Theorem parcel_write_append malloc_ok p s bs :
  wrote p s -> blen s + blen bs <= 2 ^ 63 ->
  exists p', parcel_write malloc_ok p bs = Done p' /\
    (wrote p' (s ++ bs) \/ error p' = true /\ exists n, malloc_ok n = false).
Proof. apply parcel_write_spec. Qed.

Lemma parcel_write_append_witness :
  let p := Parcel 2 4096 (Some ([1; 2] ++ zeros 4094)) false in
  wrote p [1; 2] /\
  exists p', parcel_write (fun _ => true) p [3] = Done p' /\
    (wrote p' ([1; 2] ++ [3]) \/ error p' = true /\ exists n : Z, true = false).
Proof.
  intros p.
  assert (wrote p [1; 2]) as Hw.
  { unfold p, wrote. cbn -[zeros]. unfold PARCEL_DEFAULT_CAPACITY.
    split_and!; [done|done|lia|lia|]. exists (zeros 4094). split; [done|].
    vm_compute. done. }
  split; [exact Hw|].
  apply (parcel_write_append (fun _ => true) p [1; 2] [3] Hw). vm_compute. done.
Defined.

(** [parcel_read_uchar] tests [size <= capacity]: at the end of the data it
    reads one byte past them, which faults when the object ends there; from the
    next position on it reports an error instead. *)
Theorem parcel_read_uchar_past_end obj : blen obj < 2 ^ 63 ->
  parcel_read_uchar (reader obj obj (blen obj)) = Fault /\
  (forall c, parcel_read_uchar (reader obj (obj ++ [c]) (blen obj))
     = Done (c, reader (obj ++ [c]) (obj ++ [c]) (blen obj))) /\
  (forall c, parcel_read_uchar (reader (obj ++ [c]) (obj ++ [c]) (blen obj))
     = Done (0, set_error (reader (obj ++ [c]) (obj ++ [c]) (blen obj)))).
Proof.
  intros Hl. pose proof (blen_nonneg obj). split_and!; intros; unfold reader.
  - unfold parcel_read_uchar. cbn. zcase. by rewrite rd_end by lia.
  - by apply read_uchar_at with (post := []); [done|lia].
  - unfold parcel_read_uchar. cbn. zcase; [blen|done].
Qed.

Lemma parcel_read_uchar_past_end_witness :
  blen [7] < 2 ^ 63 /\
  parcel_read_uchar (reader [7] [7] 1) = Fault.
Proof.
  assert (blen [7] < 2 ^ 63) as H by (vm_compute; done).
  split; [exact H|]. exact (proj1 (parcel_read_uchar_past_end [7] H)).
Defined.
