(* ===== verification/Hash.v ===== *)
(** Chained hash tables with recycled entries: [lib/hash.c].

    A chain is the list of its entries in order; a pointer to a chain's pointer
    ([hash_entry_t **]) is a bucket number and a position in its chain, which is
    the chain's length when it designates the terminating null pointer.  A key
    is the object its pointer designates. *)
From S2P Require Import Prelude.
From stdpp Require Import gmap.
#[local] Open Scope Z_scope.

Definition HASH_DEFAULT_MAX : Z := 15.
(** [HASH_KEY_STRING], -1 converted to [unsigned int]. *)
Definition HASH_KEY_STRING : Z := u32 (-1).

Section Hash.
Context {V : Type}.

Record hash_entry_t := Entry {
  e_key : list Z;
  e_klen : Z;
  e_hash : Z;
  e_val : V;
}.

(** A hash function: from a key and a length, the code and the real length. *)
Definition hash_func_t : Type := list Z -> Z -> outcome (Z * Z).

Record hash_t := Hash {
  count : Z;
  max : Z;
  array : list (list hash_entry_t);
  free : list hash_entry_t;
  func : hash_func_t;
}.

Definition hash_step (value c : Z) : Z := u32 (value + (value * 33 + schar c)).

Definition hash_func_default : hash_func_t := fun key klen =>
  if klen =? HASH_KEY_STRING then
    str ← cstring key 0;
    Done (foldl hash_step 0 str, u32 (blen str))
  else
    bs ← rdn key 0 klen;
    Done (foldl hash_step 0 bs, klen).

(** [ok]: whether [malloc] succeeds. *)
Definition hash_create (ok : bool) (max : Z) (func : option hash_func_t)
    : option hash_t :=
  let max := if max =? 0 then HASH_DEFAULT_MAX else max in
  if ok then
    Some (Hash 0 max (replicate (Z.to_nat (u32 (max + 1))) []) []
            (match func with None => hash_func_default | Some f => f end))
  else None.

(** One round of the inner loop of [hash_expand]: push an entry on its chain. *)
Definition push_entry (max : Z) (array : list (list hash_entry_t))
    (e : hash_entry_t) : list (list hash_entry_t) :=
  let b := Z.to_nat (Z.land (e_hash e) max) in
  <[b := e :: default [] (array !! b)]> array.

Definition hash_expand (ok : bool) (ht : hash_t) : Z * hash_t :=
  let max := u32 (2 * max ht + 1) in
  if ok then
    let fresh := replicate (Z.to_nat (u32 (max + 1))) [] in
    (0, Hash (count ht) max (foldl (foldl (push_entry max)) fresh (array ht))
             (free ht) (func ht))
  else (-1, ht).

(** The test of the chain walk; [memcmp] looks at [klen] bytes of both keys. *)
Definition entry_matches (key : list Z) (klen hash : Z) (e : hash_entry_t) : bool :=
  (e_klen e =? klen) && (e_hash e =? hash) &&
  bool_decide (take (Z.to_nat klen) (e_key e) = take (Z.to_nat klen) key).

Fixpoint chain_find (p : hash_entry_t -> bool) (chain : list hash_entry_t) : nat :=
  match chain with
  | [] => O
  | e :: chain => if p e then O else S (chain_find p chain)
  end.

(** The result [None] is the null pointer of a failed allocation. *)
Definition find_entry (ok : bool) (ht : hash_t) (key : list Z) (klen : Z)
    (val : option V) : outcome (option (nat * nat) * hash_t) :=
  '(hash, klen) ← func ht key klen;
  let b := Z.to_nat (Z.land hash (max ht)) in
  match array ht !! b with
  | None => Fault
  | Some chain =>
      let i := chain_find (entry_matches key klen hash) chain in
      match chain !! i, val with
      | None, Some v =>
          let take_free := match free ht with
                           | _ :: rest => Some rest
                           | [] => if ok then Some [] else None
                           end in
          match take_free with
          | None => Done (None, ht)
          | Some rest =>
              let e := Entry key klen hash v in
              Done (Some (b, i),
                    Hash (u32 (count ht + 1)) (max ht)
                         (<[b := chain ++ [e]]> (array ht)) rest (func ht))
          end
      | _, _ => Done (Some (b, i), ht)
      end
  end.

Definition chain_at (ht : hash_t) (b : nat) : list hash_entry_t :=
  default [] (array ht !! b).

(** [ok1], [ok2]: whether allocating an entry and a larger array succeeds. *)
Definition hash_set (ok1 ok2 : bool) (ht : hash_t) (key : list Z) (klen : Z)
    (val : option V) : outcome (Z * hash_t) :=
  '(ptr, ht) ← find_entry ok1 ht key klen val;
  match ptr with
  | None => Fault
  | Some (b, i) =>
      let chain := chain_at ht b in
      match val with
      | Some v =>
          match chain !! i with
          | None => Done (-1, ht)
          | Some e =>
              let e := Entry (e_key e) (e_klen e) (e_hash e) v in
              let ht := Hash (count ht) (max ht)
                          (<[b := <[i := e]> chain]> (array ht)) (free ht) (func ht) in
              Done (if max ht <? count ht then hash_expand ok2 ht else (0, ht))
          end
      | None =>
          match chain !! i with
          | Some old =>
              Done (0, Hash (u32 (count ht - 1)) (max ht)
                         (<[b := take i chain ++ drop (S i) chain]> (array ht))
                         (old :: free ht) (func ht))
          | None => Done (0, ht)
          end
      end
  end.

Definition hash_get (ht : hash_t) (key : list Z) (klen : Z) : outcome (option V) :=
  '(ptr, ht) ← find_entry true ht key klen None;
  match ptr with
  | None => Fault
  | Some (b, i) => Done (e_val <$> chain_at ht b !! i)
  end.

(** The entries [hash_destroy] frees: the loop runs over [i < max]. *)
Definition hash_destroy (ht : hash_t) : list hash_entry_t :=
  concat (take (Z.to_nat (max ht)) (array ht)) ++ free ht.

(** An iterator's entry pointer is the rest of a chain, starting with that
    entry. *)
Record hash_iter_t := Iter {
  entry : list hash_entry_t;
  next : list hash_entry_t;
  index : Z;
}.

(** The loop of [hash_next] looking for a non-empty chain. *)
Fixpoint next_chain (fuel : nat) (ht : hash_t) (idx : Z) (e : list hash_entry_t)
    : outcome (option hash_iter_t) :=
  match e with
  | _ :: rest => Done (Some (Iter e rest idx))
  | [] =>
      match fuel with
      | O => NoFuel
      | S fuel =>
          if max ht <? idx then Done None
          else match array ht !! Z.to_nat idx with
               | None => Fault
               | Some chain => next_chain fuel ht (u32 (idx + 1)) chain
               end
      end
  end.

Definition hash_next (ht : hash_t) (it : hash_iter_t) : outcome (option hash_iter_t) :=
  next_chain (Z.to_nat (max ht) + 2) ht (index it) (next it).

Definition hash_begin (ok : bool) (ht : hash_t) : outcome (option hash_iter_t) :=
  if ok then hash_next ht (Iter [] [] 0) else Done None.

(** A client's loop over the table: the entries it sees, in order. *)
Fixpoint iterate (fuel : nat) (ht : hash_t) (it : option hash_iter_t)
    : outcome (list hash_entry_t) :=
  match it with
  | None => Done []
  | Some it =>
      match fuel, entry it with
      | S fuel, e :: _ =>
          it ← hash_next ht it; rest ← iterate fuel ht it; Done (e :: rest)
      | S _, [] => Fault
      | O, _ => NoFuel
      end
  end.
End Hash.
Arguments hash_entry_t : clear implicits.
Arguments hash_t : clear implicits.
Arguments hash_iter_t : clear implicits.


(** * Chains and the array *)

Lemma concat_insert_perm {A} (arr : list (list A)) b c c' : arr !! b = Some c ->
  concat arr ≡ₚ c ++ concat (delete b arr) /\
  concat (<[b := c']> arr) ≡ₚ c' ++ concat (delete b arr).
Proof.
  intros Hb. pose proof (lookup_lt_Some _ _ _ Hb).
  rewrite (insert_take_drop arr b c') by done.
  rewrite <- (take_drop_middle arr b c Hb) at 1.
  rewrite delete_take_drop, !concat_app. cbn. split; solve_Permutation.
Qed.

Lemma elem_of_concat {A} (x : A) (arr : list (list A)) :
  x ∈ concat arr <-> exists b c, arr !! b = Some c /\ x ∈ c.
Proof.
  induction arr as [|c arr IH]; cbn; split.
  - intros []%elem_of_nil.
  - intros (b & c & Hb & _). by rewrite lookup_nil in Hb.
  - rewrite elem_of_app, IH. intros [H|(b & c' & ? & ?)].
    + by exists 0%nat, c.
    + by exists (S b), c'.
  - rewrite elem_of_app, IH. intros ([|b] & c' & Hb & ?); cbn in Hb.
    + left. by simplify_eq.
    + right. eauto.
Qed.

Section Spec.
Context {V : Type} (H : list Z -> Z).
Implicit Types (e : hash_entry_t V) (l chain : list (hash_entry_t V))
  (ht : hash_t V).

(** The byte string a key argument denotes under a hash function. *)
Definition denotes (f : hash_func_t) (key : list Z) (klen : Z) (bs : list Z) : Prop :=
  f key klen = Done (H bs, blen bs) /\ exists post, key = bs ++ post.

Definition ebytes e : list Z := take (Z.to_nat (e_klen e)) (e_key e).
Definition entry_ok e : Prop :=
  e_klen e = blen (ebytes e) /\ e_hash e = H (ebytes e).

(** The finite map a table implements. *)
Definition emap l : gmap (list Z) V :=
  list_to_map ((fun e => (ebytes e, e_val e)) <$> l).
Definition to_map ht : gmap (list Z) V := emap (concat (array ht)).

Definition chains_ok (max : Z) (arr : list (list (hash_entry_t V))) : Prop :=
  Z.of_nat (length arr) = max + 1 /\
  forall b c e, arr !! b = Some c -> e ∈ c ->
    entry_ok e /\ Z.of_nat b = Z.land (e_hash e) max.

(** The table invariant. *)
Record hash_ok ht : Prop := {
  ok_max : 0 <= max ht < 2 ^ 31;
  ok_count : count ht = Z.of_nat (length (concat (array ht)));
  ok_small : count ht < 2 ^ 30;
  ok_nodup : NoDup (ebytes <$> concat (array ht));
  ok_chains : chains_ok (max ht) (array ht);
}.

Lemma emap_perm l l' : l ≡ₚ l' -> NoDup (ebytes <$> l) -> emap l = emap l'.
Proof.
  intros Hp Hn. apply list_to_map_proper.
  - by rewrite <- list_fmap_compose.
  - by rewrite Hp.
Qed.

Lemma emap_cons e l : emap (e :: l) = <[ebytes e := e_val e]> (emap l).
Proof. done. Qed.

Lemma emap_None l bs : bs ∉ (ebytes <$> l) -> emap l !! bs = None.
Proof.
  intros Hn. apply not_elem_of_list_to_map_1. by rewrite <- list_fmap_compose.
Qed.

Lemma chains_length max arr : chains_ok max arr -> Z.of_nat (length arr) = max + 1.
Proof. by intros [Hl _]. Qed.

Lemma land_max h max : 0 <= max -> 0 <= Z.land h max <= max.
Proof.
  intros Hm. split.
  - apply Z.land_nonneg. by right.
  - destruct (Z.eq_dec max 0) as [->|]; [by rewrite Z.land_0_r|].
    assert (Z.land h max = max - Z.ldiff max h) as ->.
    { rewrite Z.sub_nocarry_ldiff.
      - apply Z.bits_inj'. intros i ?.
        rewrite Z.land_spec, !Z.ldiff_spec. by destruct (Z.testbit h i), (Z.testbit max i).
      - apply Z.bits_inj'. intros i ?.
        rewrite !Z.ldiff_spec, Z.bits_0. by destruct (Z.testbit h i), (Z.testbit max i). }
    assert (0 <= Z.ldiff max h) by (apply Z.ldiff_nonneg; by left). lia.
Qed.

Lemma bucket_exists max arr h : 0 <= max -> chains_ok max arr ->
  exists c, arr !! Z.to_nat (Z.land h max) = Some c.
Proof.
  intros Hm Hc. pose proof (chains_length _ _ Hc). pose proof (land_max h max Hm).
  apply lookup_lt_is_Some. lia.
Qed.

Lemma entry_matches_iff bs post e : entry_ok e ->
  entry_matches (bs ++ post) (blen bs) (H bs) e = bool_decide (ebytes e = bs).
Proof.
  intros [Hk Hh]. unfold entry_matches. rewrite to_nat_blen, take_app_length.
  destruct (decide (ebytes e = bs)) as [He|He].
  - assert (e_klen e = blen bs) as Hl by congruence.
    rewrite Hh, Hl, He, !Z.eqb_refl. unfold ebytes in He.
    rewrite Hl, to_nat_blen in He. by rewrite !bool_decide_true.
  - rewrite (bool_decide_false (ebytes e = bs)) by done.
    destruct (Z.eqb_spec (e_klen e) (blen bs)) as [Hl|]; [|done].
    rewrite bool_decide_false; [apply andb_false_r|].
    unfold ebytes in He. by rewrite Hl, to_nat_blen in He.
Qed.

(** The chain walk of [find_entry] finds the entry of the key, if any. *)
Lemma chain_find_spec key bs post chain :
  key = bs ++ post -> Forall entry_ok chain ->
  let i := chain_find (entry_matches key (blen bs) (H bs)) chain in
  (exists c1 e c2, chain = c1 ++ e :: c2 /\ i = length c1 /\ ebytes e = bs) \/
  (i = length chain /\ bs ∉ (ebytes <$> chain)).
Proof.
  intros -> Hok. induction Hok as [|e chain He Hok IH].
  - right. split; [done|]. apply not_elem_of_nil.
  - cbn [chain_find]. rewrite entry_matches_iff by done. case_bool_decide as Hb.
    + left. by exists [], e, chain.
    + destruct IH as [(c1 & e' & c2 & -> & Hi & Hb')|[Hi Hn]].
      * left. exists (e :: c1), e', c2. by rewrite Hi.
      * right. rewrite Hi. split; [done|].
        rewrite fmap_cons, not_elem_of_cons. by split; [congruence|].
Qed.

(** Where [find_entry] looks, and what it finds there. *)
Lemma lookup_spec ht key klen bs :
  hash_ok ht -> denotes (func ht) key klen bs ->
  let b := Z.to_nat (Z.land (H bs) (max ht)) in
  exists c, array ht !! b = Some c /\
    (let i := chain_find (entry_matches key (blen bs) (H bs)) c in
    (exists c1 e c2, c = c1 ++ e :: c2 /\ i = length c1 /\ ebytes e = bs /\
       to_map ht !! bs = Some (e_val e)) \/
    (i = length c /\ c !! i = None /\ (bs ∉ (ebytes <$> concat (array ht))) /\
       to_map ht !! bs = None)).
Proof.
  intros Hok (_ & post & Hkey) b.
  destruct (bucket_exists (max ht) (array ht) (H bs)) as [c Hc];
    [apply Hok|apply Hok|]. fold b in Hc. exists c. split; [done|].
  assert (Forall entry_ok c) as Hf.
  { apply Forall_forall. intros e He. destruct (ok_chains _ Hok) as [_ Hch].
    by destruct (Hch b c e Hc He). }
  destruct (chain_find_spec key bs post c Hkey Hf)
    as [(c1 & e & c2 & Hcc & Hi & He)|[Hi Hn]]; [left|right].
  - exists c1, e, c2. split_and!; [done..|].
    unfold to_map, emap. apply elem_of_list_to_map_1.
    + rewrite <- list_fmap_compose. apply Hok.
    + apply list_elem_of_fmap. exists e. split; [by rewrite He|].
      apply elem_of_concat. exists b, c. split; [done|]. subst c. set_solver.
  - assert (bs ∉ (ebytes <$> concat (array ht))) as Hno.
    { intros (e & Hbs & (b' & c' & Hb' & He)%elem_of_concat)%list_elem_of_fmap.
      destruct (ok_chains _ Hok) as [_ Hch].
      destruct (Hch b' c' e Hb' He) as [[_ Hh] Hb].
      assert (b' = b) as -> by (unfold b; rewrite Hbs, <- Hh; lia).
      rewrite Hb' in Hc. simplify_eq. apply Hn, list_elem_of_fmap. eauto. }
    split_and!; [done| |done|].
    + rewrite Hi. by apply lookup_ge_None_2.
    + by apply emap_None.
Qed.

(** Replacing one chain of the array. *)
Lemma chains_insert max arr b c :
  chains_ok max arr ->
  (forall e, e ∈ c -> entry_ok e /\ Z.of_nat b = Z.land (e_hash e) max) ->
  chains_ok max (<[b := c]> arr).
Proof.
  intros [Hl Hch] Hc. split; [by rewrite length_insert|].
  intros b' c' e Hb' He. destruct (decide (b = b')) as [<-|Hne].
  - destruct (decide (b < length arr)%nat).
    + rewrite list_lookup_insert_eq in Hb' by done. simplify_eq. auto.
    + rewrite list_insert_ge in Hb' by lia. eauto.
  - rewrite list_lookup_insert_ne in Hb' by done. eauto.
Qed.

Lemma concat_push max arr e : 0 <= max -> Z.of_nat (length arr) = max + 1 ->
  concat (push_entry max arr e) ≡ₚ e :: concat arr.
Proof.
  intros Hm Hl. unfold push_entry.
  pose proof (land_max (e_hash e) max Hm).
  destruct (lookup_lt_is_Some_2 arr (Z.to_nat (Z.land (e_hash e) max))) as [c Hc];
    [lia|].
  rewrite Hc. destruct (concat_insert_perm arr _ c (e :: c) Hc) as [-> ->]. done.
Qed.

Lemma chains_push max arr e : 0 <= max -> chains_ok max arr -> entry_ok e ->
  chains_ok max (push_entry max arr e).
Proof.
  intros Hm Hch He. unfold push_entry. pose proof (land_max (e_hash e) max Hm).
  apply chains_insert; [done|]. intros e' [->|He']%elem_of_cons.
  - split; [done|lia].
  - destruct (arr !! _) as [c|] eqn:Hc; [|by apply elem_of_nil in He'].
    by apply (proj2 Hch) with c.
Qed.

(** Rehashing keeps the entries and puts each in its chain. *)
Lemma rehash_chain max c : 0 <= max -> Forall entry_ok c ->
  forall arr, chains_ok max arr ->
  chains_ok max (foldl (push_entry max) arr c) /\
  concat (foldl (push_entry max) arr c) ≡ₚ c ++ concat arr.
Proof.
  intros Hm Hc. induction Hc as [|e c He Hc IH]; intros arr Ha; cbn; [done|].
  destruct (IH (push_entry max arr e)) as [H1 H2]; [by apply chains_push|].
  split; [done|]. rewrite H2, concat_push by (try done; apply Ha).
  solve_Permutation.
Qed.

Lemma rehash_all max old : 0 <= max -> Forall (Forall entry_ok) old ->
  forall arr, chains_ok max arr ->
  chains_ok max (foldl (foldl (push_entry max)) arr old) /\
  concat (foldl (foldl (push_entry max)) arr old) ≡ₚ concat old ++ concat arr.
Proof.
  intros Hm Ho. induction Ho as [|c old Hc Ho IH]; intros arr Ha; cbn; [done|].
  destruct (rehash_chain max c Hm Hc arr Ha) as [H1 H2].
  destruct (IH _ H1) as [H3 H4]. split; [done|].
  rewrite H4, H2. solve_Permutation.
Qed.

Lemma chains_empty max n : Z.of_nat n = max + 1 ->
  chains_ok max (replicate n []).
Proof.
  intros Hn. split; [by rewrite length_replicate|].
  intros b c e [-> _]%lookup_replicate He. by apply elem_of_nil in He.
Qed.

Lemma concat_replicate_nil {A} n : concat (replicate n ([] : list A)) = [].
Proof. by induction n. Qed.

Lemma chains_all_ok ht : hash_ok ht -> Forall (Forall entry_ok) (array ht).
Proof.
  intros Hok. apply Forall_lookup_2. intros b c Hb.
  apply Forall_forall. intros e He. by destruct (proj2 (ok_chains _ Hok) b c e Hb He).
Qed.

(** Expansion preserves the invariant and the map, whether or not it succeeds. *)
Lemma hash_expand_spec ok ht : hash_ok ht -> max ht < count ht ->
  let '(r, ht') := hash_expand ok ht in
  r = (if ok then 0 else -1) /\ hash_ok ht' /\ to_map ht' = to_map ht /\
  func ht' = func ht /\ count ht' = count ht.
Proof.
  intros Hok Hgt. pose proof (ok_max _ Hok). pose proof (ok_small _ Hok).
  unfold hash_expand. destruct ok; [|done].
  rewrite !u32_id by (width; rewrite ?u32_id; width; lia).
  set (max' := 2 * max ht + 1).
  destruct (rehash_all max' (array ht) ltac:(lia) (chains_all_ok _ Hok)
    (replicate (Z.to_nat (max' + 1)) [])) as [Hch Hp].
  { apply chains_empty. lia. }
  rewrite concat_replicate_nil, app_nil_r in Hp.
  split_and!; [done| | |done|done].
  - split; cbn [max count array].
    + lia.
    + rewrite Hp. apply Hok.
    + done.
    + rewrite Hp. apply Hok.
    + done.
  - symmetry. apply emap_perm; [by cbn; rewrite Hp|apply Hok].
Qed.

(** One chain is replaced, and the entries change as the chain does: the shared
    step of insertion, update and deletion. *)
Lemma replace_chain ht b c c' fr :
  hash_ok ht -> array ht !! b = Some c ->
  (forall e, e ∈ c' -> entry_ok e /\ Z.of_nat b = Z.land (e_hash e) (max ht)) ->
  let l := c' ++ concat (delete b (array ht)) in
  Z.of_nat (length l) < 2 ^ 30 -> NoDup (ebytes <$> l) ->
  let ht' := Hash (Z.of_nat (length l)) (max ht) (<[b := c']> (array ht)) fr (func ht) in
  hash_ok ht' /\ to_map ht' = emap l.
Proof.
  intros Hok Hb Hc' l Hl Hn ht'.
  destruct (concat_insert_perm (array ht) b c c' Hb) as [_ Hp]. fold l in Hp.
  split; unfold ht'.
  - split; cbn [max count array].
    + apply Hok.
    + by rewrite Hp.
    + done.
    + by rewrite Hp.
    + apply chains_insert; [apply Hok|done].
  - symmetry. apply emap_perm; [by cbn [array]; rewrite Hp|done].
Qed.

(** The table's entries, given the chain at [b] splits as [c1 ++ e :: c2]. *)
Lemma split_perm ht b c1 e c2 : hash_ok ht -> array ht !! b = Some (c1 ++ e :: c2) ->
  let rest := (c1 ++ c2) ++ concat (delete b (array ht)) in
  concat (array ht) ≡ₚ e :: rest /\
  to_map ht = <[ebytes e := e_val e]> (emap rest) /\
  emap rest !! ebytes e = None /\ NoDup (ebytes <$> (e :: rest)).
Proof.
  intros Hok Hb rest. destruct (concat_insert_perm (array ht) b _ [] Hb) as [Hp _].
  assert (concat (array ht) ≡ₚ e :: rest) as Hp'.
  { rewrite Hp. unfold rest. solve_Permutation. }
  pose proof (ok_nodup _ Hok) as Hn. rewrite Hp' in Hn.
  split_and!; [done| | |done].
  - rewrite <- emap_cons. apply emap_perm; [done|apply Hok].
  - apply emap_None. rewrite fmap_cons in Hn. by apply NoDup_cons in Hn as [? _].
Qed.

Lemma chain_entries_ok ht b c e : hash_ok ht -> array ht !! b = Some c -> e ∈ c ->
  entry_ok e /\ Z.of_nat b = Z.land (e_hash e) (max ht).
Proof. intros Hok. apply (proj2 (ok_chains _ Hok)). Qed.

(** The final step of a successful [hash_set]: expand when over-full. *)
Lemma maybe_expand ok ht : hash_ok ht ->
  let '(r, ht') := (if max ht <? count ht then hash_expand ok ht else (0, ht)) in
  hash_ok ht' /\ to_map ht' = to_map ht /\ func ht' = func ht /\
  count ht' = count ht /\ (r = 0 \/ r = -1 /\ ok = false).
Proof.
  intros Hok. destruct (Z.ltb_spec (max ht) (count ht)); [|by split_and!; auto].
  pose proof (hash_expand_spec ok ht Hok) as He.
  destruct (hash_expand ok ht) as [r ht']. destruct He as (-> & ? & ? & ? & ?); [lia|].
  destruct ok; auto 10.
Qed.


(** Storing a new value in the entry at the end of [c1]. *)
Lemma update_present ht b c1 e c2 v : hash_ok ht ->
  array ht !! b = Some (c1 ++ e :: c2) ->
  let e' := Entry (e_key e) (e_klen e) (e_hash e) v in
  let ht' := Hash (count ht) (max ht) (<[b := c1 ++ e' :: c2]> (array ht))
               (free ht) (func ht) in
  hash_ok ht' /\ to_map ht' = <[ebytes e := v]> (to_map ht).
Proof.
  intros Hok Hc e' ht'.
  destruct (split_perm ht b c1 e c2 Hok Hc) as (Hp & Hmap & _ & Hnd).
  set (rest := (c1 ++ c2) ++ concat (delete b (array ht))) in *.
  assert ((c1 ++ e' :: c2) ++ concat (delete b (array ht)) ≡ₚ e' :: rest) as Hp'
    by (unfold rest; solve_Permutation).
  assert (count ht = Z.of_nat (length ((c1 ++ e' :: c2) ++ concat (delete b (array ht)))))
    as Hcnt by (rewrite (ok_count _ Hok), Hp, Hp'; done).
  destruct (replace_chain ht b _ (c1 ++ e' :: c2) (free ht) Hok Hc) as [Hok' Hmap'].
  - intros x [Hx|[->|Hx]%elem_of_cons]%elem_of_app;
      [apply (chain_entries_ok ht b _ x Hok Hc)|apply (chain_entries_ok ht b _ e Hok Hc)
      |apply (chain_entries_ok ht b _ x Hok Hc)];
      apply elem_of_app; rewrite elem_of_cons; auto.
  - rewrite <- Hcnt. apply Hok.
  - by rewrite Hp'.
  - unfold ht'. rewrite Hcnt. split; [done|].
    rewrite Hmap', Hmap, (emap_perm _ _ Hp'), emap_cons by (by rewrite Hp').
    by rewrite insert_insert_eq.
Qed.

(** Appending a fresh entry for an absent key to its chain. *)
Lemma append_absent ht b c key bs post v fr : hash_ok ht -> array ht !! b = Some c ->
  key = bs ++ post -> Z.of_nat b = Z.land (H bs) (max ht) ->
  bs ∉ (ebytes <$> concat (array ht)) -> count ht < 2 ^ 30 - 1 ->
  let ht' := Hash (u32 (count ht + 1)) (max ht)
    (<[b := c ++ [Entry key (blen bs) (H bs) v]]> (array ht)) fr (func ht) in
  hash_ok ht' /\ to_map ht' = <[bs := v]> (to_map ht) /\ count ht' = count ht + 1.
Proof.
  intros Hok Hc -> Hb Hno Hsmall. set (e := Entry _ _ _ v). intros ht'.
  assert (ebytes e = bs) as He by
    (unfold ebytes; cbn; by rewrite to_nat_blen, take_app_length).
  destruct (concat_insert_perm (array ht) b c [] Hc) as [Hp _].
  assert ((c ++ [e]) ++ concat (delete b (array ht)) ≡ₚ e :: concat (array ht))
    as Hp' by (rewrite Hp; solve_Permutation).
  assert (NoDup (ebytes <$> (e :: concat (array ht)))) as Hnd.
  { rewrite fmap_cons, He. apply NoDup_cons. split; [done|apply Hok]. }
  pose proof (ok_count _ Hok) as Hcnt.
  assert (u32 (count ht + 1)
    = Z.of_nat (length ((c ++ [e]) ++ concat (delete b (array ht))))) as Hcnt'.
  { rewrite Hp'. cbn [length]. rewrite u32_id; [lia|width; lia]. }
  assert (u32 (count ht + 1) = count ht + 1) as Hu by (apply u32_id; width; lia).
  destruct (replace_chain ht b _ (c ++ [e]) fr Hok Hc) as [Hok' Hmap'].
  - intros x [Hx| ->%list_elem_of_singleton]%elem_of_app.
    + by apply (chain_entries_ok ht b c x Hok Hc).
    + split; [|done]. unfold entry_ok. by rewrite He.
  - rewrite <- Hcnt', Hu. lia.
  - by rewrite Hp'.
  - unfold ht'. cbn [count]. rewrite Hu in *. rewrite Hcnt' in *. split_and!; [done| |lia].
    rewrite Hmap', (emap_perm _ _ Hp'), emap_cons, He by (by rewrite Hp'). done.
Qed.

Lemma hash_set_insert ok2 ht key klen bs v :
  hash_ok ht -> denotes (func ht) key klen bs -> count ht < 2 ^ 30 - 1 ->
  exists r ht', hash_set true ok2 ht key klen (Some v) = Done (r, ht') /\
    hash_ok ht' /\ to_map ht' = <[bs := v]> (to_map ht) /\ func ht' = func ht /\
    count ht' = count ht + (if to_map ht !! bs is Some _ then 0 else 1) /\
    (r = 0 \/ r = -1 /\ ok2 = false).
Proof.
  intros Hok Hden Hsmall. pose proof Hden as (Hf & post & Hkey).
  destruct (lookup_spec ht key klen bs Hok Hden) as (c & Hc & Hcase).
  unfold hash_set, find_entry. rewrite Hf. cbn [mbind outcome_bind]. rewrite Hc.
  pose proof (land_max (H bs) (max ht) (proj1 (ok_max _ Hok))) as Hland.
  set (b := Z.to_nat _) in *. set (i := chain_find _ _) in *.
  destruct Hcase as [(c1 & e & c2 & -> & Hi & He & Hm)|(Hi & Hnone & Hno & Hm)].
  - rewrite Hi, list_lookup_middle by done. cbn [mbind outcome_bind].
    unfold chain_at. rewrite Hc. cbn [default from_option id].
    rewrite list_lookup_middle by done.
    rewrite insert_app_r_alt, Nat.sub_diag by done. cbn [insert list_insert].
    destruct (update_present ht b c1 e c2 v Hok Hc) as [Hok' Hmap'].
    pose proof (maybe_expand ok2 _ Hok') as Hme. cbn [max count func] in *.
    match type of Hme with let '(_, _) := ?x in _ => destruct x as [r ht'] eqn:Hx end.
    destruct Hme as (? & Hmap2 & ? & Hcnt & ?). exists r, ht'.
    split_and!; [|done| |done| |done].
    + by f_equal.
    + by rewrite Hmap2, Hmap', He.
    + rewrite Hcnt, Hm. lia.
  - assert (Z.of_nat b = Z.land (H bs) (max ht)) as Hb by lia.
    assert (exists rest, match free ht with _ :: r => Some r | [] => Some [] end
      = Some rest) as [rest Hrest] by (destruct (free ht); eauto).
    rewrite Hnone, Hi, Hrest. cbn [mbind outcome_bind].
    destruct (append_absent ht b c key bs post v rest Hok Hc Hkey Hb Hno Hsmall)
      as (Hok' & Hmap' & Hcnt').
    pose proof (lookup_lt_Some _ _ _ Hc). unfold chain_at. cbn [array max count free func].
    rewrite list_lookup_insert_eq by done. cbn [default from_option id].
    rewrite list_lookup_middle by done. cbn [e_key e_klen e_hash].
    rewrite (insert_app_r_alt c), Nat.sub_diag by done. cbn [insert list_insert].
    rewrite list_insert_insert_eq.
    pose proof (maybe_expand ok2 _ Hok') as Hme. cbn [max count func] in *.
    match type of Hme with let '(_, _) := ?x in _ => destruct x as [r ht'] eqn:Hx end.
    destruct Hme as (? & Hmap2 & ? & Hcnt & ?). exists r, ht'.
    split_and!; [by f_equal|done|by rewrite Hmap2, Hmap'|done| |done].
    rewrite Hcnt, Hm. lia.
Qed.

Lemma hash_set_delete ok1 ok2 ht key klen bs :
  hash_ok ht -> denotes (func ht) key klen bs ->
  exists ht', hash_set ok1 ok2 ht key klen None = Done (0, ht') /\
    hash_ok ht' /\ to_map ht' = delete bs (to_map ht) /\ func ht' = func ht /\
    count ht' = count ht - (if to_map ht !! bs is Some _ then 1 else 0).
Proof.
  intros Hok Hden. pose proof Hden as (Hf & post & Hkey).
  destruct (lookup_spec ht key klen bs Hok Hden) as (c & Hc & Hcase).
  unfold hash_set, find_entry. rewrite Hf. cbn [mbind outcome_bind]. rewrite Hc.
  set (b := Z.to_nat _) in *. set (i := chain_find _ _) in *.
  destruct Hcase as [(c1 & e & c2 & -> & Hi & He & Hm)|(Hi & Hnone & Hno & Hm)].
  - rewrite Hi, list_lookup_middle by done. cbn [mbind outcome_bind].
    unfold chain_at. rewrite Hc. cbn [default from_option id].
    rewrite list_lookup_middle by done. rewrite take_app_length.
    replace (drop (S (length c1)) (c1 ++ e :: c2)) with c2 by
      (by rewrite (cons_middle e c1 c2), app_assoc, drop_app_length'
        by (rewrite length_app; cbn; lia)).
    destruct (split_perm ht b c1 e c2 Hok Hc) as (Hp & Hmap & Hnone & Hnd).
    pose proof (ok_count _ Hok) as Hcnt. rewrite Hp in Hcnt. cbn [length] in Hcnt.
    pose proof (ok_small _ Hok).
    destruct (replace_chain ht b _ (c1 ++ c2) (e :: free ht) Hok Hc) as [Hok' Hmap'].
    + intros x Hx. apply (chain_entries_ok ht b _ x Hok Hc).
      rewrite elem_of_app, elem_of_cons in *. tauto.
    + lia.
    + rewrite fmap_cons in Hnd. by apply NoDup_cons in Hnd as [_ ?].
    + assert (u32 (count ht - 1) = Z.of_nat (length ((c1 ++ c2) ++ concat (delete b (array ht)))))
        as Hu by (rewrite u32_id; width; lia).
      rewrite Hu. eexists; split_and!; [done|done| |done|cbn [count]; rewrite Hm; lia].
      rewrite Hmap', Hmap, He. rewrite He in Hnone. by rewrite delete_insert_id.
  - rewrite Hnone. cbn [mbind outcome_bind]. unfold chain_at. rewrite Hc.
    cbn [default from_option id]. rewrite Hnone.
    exists ht. split_and!; [done|done| |done|rewrite Hm; lia].
    by rewrite delete_id.
Qed.

Lemma hash_get_spec ht key klen bs :
  hash_ok ht -> denotes (func ht) key klen bs ->
  hash_get ht key klen = Done (to_map ht !! bs).
Proof.
  intros Hok Hden. pose proof Hden as (Hf & post & Hkey).
  destruct (lookup_spec ht key klen bs Hok Hden) as (c & Hc & Hcase).
  unfold hash_get, find_entry. rewrite Hf. cbn [mbind outcome_bind]. rewrite Hc. cbv zeta.
  destruct Hcase as [(c1 & e & c2 & -> & Hi & He & Hm)|(Hi & Hnone & Hno & Hm)].
  - rewrite Hi, list_lookup_middle by done. cbn [mbind outcome_bind]. unfold chain_at.
    rewrite Hc, Hm. cbn [default from_option id]. by rewrite list_lookup_middle.
  - rewrite Hnone. cbn [mbind outcome_bind]. unfold chain_at.
    rewrite Hc, Hm. cbn [default from_option id]. by rewrite Hnone.
Qed.

(** ** Iteration *)

Lemma next_chain_spec ht fuel : forall idx l,
  hash_ok ht -> 0 <= idx <= max ht + 1 -> max ht + 1 - idx < Z.of_nat fuel ->
  exists it, next_chain fuel ht idx l = Done it /\
    match it with
    | None => l ++ concat (drop (Z.to_nat idx) (array ht)) = []
    | Some it => exists x, entry it = x :: next it /\ idx <= index it <= max ht + 1 /\
        l ++ concat (drop (Z.to_nat idx) (array ht))
        = x :: next it ++ concat (drop (Z.to_nat (index it)) (array ht))
    end.
Proof.
  induction fuel as [|fuel IH]; intros idx l Hok Hi Hf; [lia|].
  destruct l as [|x l]; cbn [next_chain].
  2:{ eexists; split; [done|]. exists x. cbn. split_and!; [done|lia|lia|done]. }
  pose proof (chains_length _ _ (ok_chains _ Hok)) as Hl.
  pose proof (ok_max _ Hok) as Hm.
  destruct (Z.ltb_spec (max ht) idx).
  - eexists; split; [done|]. cbn. rewrite drop_ge by lia. done.
  - destruct (lookup_lt_is_Some_2 (array ht) (Z.to_nat idx)) as [c Hc]; [lia|].
    rewrite Hc, u32_id by (width; lia).
    destruct (IH (idx + 1) c Hok) as (it & Hit & Hspec); [lia|lia|].
    exists it. split; [done|]. rewrite (drop_S _ c) by done. cbn [app concat].
    replace (Z.to_nat (idx + 1)) with (S (Z.to_nat idx)) in Hspec by lia.
    destruct it as [it|]; [|done].
    destruct Hspec as (x & ? & ? & Heq). exists x. split_and!; [done|lia|lia|done].
Qed.

(** Iterating from an iterator yields its entry and everything after it. *)
Lemma iterate_spec ht fuel : forall it x,
  hash_ok ht -> entry it = x :: next it -> 0 <= index it <= max ht + 1 ->
  let rest := next it ++ concat (drop (Z.to_nat (index it)) (array ht)) in
  (length rest < fuel)%nat ->
  iterate fuel ht (Some it) = Done (x :: rest).
Proof.
  induction fuel as [|fuel IH]; intros it x Hok He Hi rest Hf; [lia|].
  cbn [iterate]. rewrite He. unfold hash_next.
  destruct (next_chain_spec ht (Z.to_nat (max ht) + 2) (index it) (next it))
    as (it' & -> & Hspec); [done|lia|lia|]. cbn [mbind outcome_bind].
  fold rest in Hspec. destruct it' as [it'|].
  - destruct Hspec as (y & Hy & Hidx & Hrest). rewrite (IH it' y Hok Hy); [|lia|].
    + cbn. by rewrite Hrest.
    + rewrite Hrest in Hf. cbn in Hf. lia.
  - rewrite Hspec. destruct fuel; done.
Qed.
End Spec.

(** The default hash function reads the bytes of the key. *)
Lemma default_denotes_string bs post : nul_free bs -> blen bs < 2 ^ 32 ->
  denotes (foldl hash_step 0) hash_func_default (bs ++ 0 :: post) HASH_KEY_STRING bs.
Proof.
  intros Hf Hl. pose proof (blen_nonneg bs). split; [|by eexists].
  unfold hash_func_default. rewrite Z.eqb_refl.
  rewrite (cstring_at _ [] bs post) by done. cbn [mbind outcome_bind].
  by rewrite u32_id by (width; lia).
Qed.

Lemma default_denotes_bytes bs post : blen bs < 2 ^ 32 - 1 ->
  denotes (foldl hash_step 0) hash_func_default (bs ++ post) (blen bs) bs.
Proof.
  intros Hl. pose proof (blen_nonneg bs). split; [|by eexists].
  unfold hash_func_default, HASH_KEY_STRING.
  destruct (Z.eqb_spec (blen bs) (u32 (-1))) as [He|]; [vm_compute (u32 (-1)) in He; lia|].
  by rewrite (rdn_at _ [] bs post).
Qed.

Lemma hash_create_ok {V} H ok m f (ht : hash_t V) : 0 <= m < 2 ^ 31 ->
  hash_create ok m f = Some ht ->
  hash_ok H ht /\ to_map ht = ∅ /\ count ht = 0 /\
  func ht = default hash_func_default f.
Proof.
  unfold hash_create. intros Hm. destruct ok; [|done]. intros [= <-].
  assert (0 <= (if m =? 0 then HASH_DEFAULT_MAX else m) < 2 ^ 31) as Hm'
    by (unfold HASH_DEFAULT_MAX; zcase; lia).
  revert Hm'. generalize (if m =? 0 then HASH_DEFAULT_MAX else m). intros k Hk.
  unfold to_map. cbn [array count func max].
  split_and!; [|by rewrite concat_replicate_nil|done|by destruct f].
  split; cbn [array count func max]; rewrite ?concat_replicate_nil;
    [lia|done|lia|constructor|].
  apply chains_empty. rewrite u32_id by (width; lia). lia.
Qed.

(** * A client of the table, and its specification *)

Inductive op (V : Type) : Type :=
| Put (key : list Z) (v : V) (ok : bool)
| Del (key : list Z)
| Get (key : list Z).
Arguments Put {V}.
Arguments Del {V}.
Arguments Get {V}.

Definition op_key {V} (o : op V) : list Z :=
  match o with Put k _ _ | Del k | Get k => k end.

(** The answers to the [Get]s; keys are C strings. *)
Fixpoint run {V} (ht : hash_t V) (ops : list (op V)) : outcome (list (option V)) :=
  match ops with
  | [] => Done []
  | Put k v ok :: ops =>
      '(_, ht) ← hash_set true ok ht (k ++ [0]) HASH_KEY_STRING (Some v); run ht ops
  | Del k :: ops =>
      '(_, ht) ← hash_set true true ht (k ++ [0]) HASH_KEY_STRING None; run ht ops
  | Get k :: ops =>
      v ← hash_get ht (k ++ [0]) HASH_KEY_STRING; vs ← run ht ops; Done (v :: vs)
  end.

Fixpoint run_map {V} (m : gmap (list Z) V) (ops : list (op V)) : list (option V) :=
  match ops with
  | [] => []
  | Put k v _ :: ops => run_map (<[k := v]> m) ops
  | Del k :: ops => run_map (delete k m) ops
  | Get k :: ops => (m !! k) :: run_map m ops
  end.

Definition key_ok (k : list Z) : Prop := nul_free k /\ blen k < 2 ^ 32.

(** The simulation between tables and finite maps. *)
Lemma run_refines {V} (ops : list (op V)) : forall ht,
  hash_ok (foldl hash_step 0) ht -> func ht = hash_func_default ->
  count ht + Z.of_nat (length ops) < 2 ^ 30 ->
  Forall (fun o => key_ok (op_key o)) ops ->
  run ht ops = Done (run_map (to_map ht) ops).
Proof.
  induction ops as [|o ops IH]; intros ht Hok Hfun Hlen Hkeys; [done|].
  apply Forall_cons in Hkeys as [[Hk1 Hk2] Hkeys]. cbn [length] in Hlen.
  assert (denotes (foldl hash_step 0) (func ht) (op_key o ++ [0]) HASH_KEY_STRING
    (op_key o)) as Hden by (rewrite Hfun; by apply default_denotes_string).
  destruct o as [k v ok|k|k]; cbn [run run_map op_key] in *.
  - destruct (hash_set_insert _ ok ht _ _ _ v Hok Hden) as (r & ht' & -> & ? & Hm & ? & Hc & _);
      [lia|]. cbn [mbind outcome_bind]. rewrite <- Hm. apply IH; [done|congruence| |done].
    destruct (to_map ht !! k); lia.
  - destruct (hash_set_delete _ true true ht _ _ _ Hok Hden) as (ht' & -> & ? & Hm & ? & Hc).
    cbn [mbind outcome_bind]. rewrite <- Hm. apply IH; [done|congruence| |done].
    destruct (to_map ht !! k); lia.
  - rewrite (hash_get_spec _ ht _ _ _ Hok Hden). cbn [mbind outcome_bind].
    rewrite IH by (try done; lia). done.
Qed.

(** * Properties *)

(** C1. A new table under any sequence of insertions, updates, deletions and
    lookups of string keys answers every lookup as a finite map would, across
    recycled entries and expansions, even when an expansion fails for lack of
    memory. *)
Theorem hash_refines_map {V} (ops : list (op V)) m ht :
  0 <= m < 2 ^ 31 -> hash_create true m None = Some ht ->
  Z.of_nat (length ops) < 2 ^ 30 -> Forall (fun o => key_ok (op_key o)) ops ->
  run ht ops = Done (run_map ∅ ops).
Proof.
  intros Hm Hc Hlen Hk.
  destruct (hash_create_ok (foldl hash_step 0) true m None ht Hm Hc) as (? & <- & ? & ?).
  apply run_refines; [done..|lia|done].
Qed.

Lemma hash_refines_map_witness :
  let ops := [Put [97] 1 true; Put [98] 2 false; Put [99] 3 true; Del [98];
              Put [97] 4 true; Get [97]; Get [98]; Get [99]] in
  let ht := Hash 0 1 (replicate 2 []) [] hash_func_default in
  hash_create true 1 None = Some ht /\ run ht ops = Done [Some 4; None; Some 3].
Proof.
  intros ops ht. assert (hash_create true 1 None = Some ht) as Hc by reflexivity.
  split; [exact Hc|]. apply (hash_refines_map ops 1 ht); [lia|exact Hc|vm_compute; done|].
  unfold ops. repeat constructor.
Defined.

(** Iterating over a table visits each of its bindings exactly once. *)
Theorem hash_iterate_all {V} H (ht : hash_t V) :
  hash_ok H ht -> forall fuel, (length (concat (array ht)) < fuel)%nat ->
  exists it es, hash_begin true ht = Done it /\ iterate fuel ht it = Done es /\
    (fun e => (ebytes e, e_val e)) <$> es ≡ₚ map_to_list (to_map ht).
Proof.
  intros Hok fuel Hf. unfold hash_begin, hash_next. cbn [index next].
  pose proof (ok_max _ _ Hok).
  destruct (next_chain_spec H ht (Z.to_nat (max ht) + 2) 0 []) as (it & -> & Hs);
    [done|lia|lia|]. change (Z.to_nat 0) with O in Hs. rewrite drop_0 in Hs. cbn [app] in Hs.
  exists it, (concat (array ht)). split; [done|]. split.
  - destruct it as [it|].
    + destruct Hs as (x & Hx & Hi & Heq). rewrite Heq in Hf |- *.
      apply (iterate_spec H); [done|done|lia|]. cbn in Hf. lia.
    + rewrite Hs. by destruct fuel.
  - symmetry. apply map_to_list_to_map. rewrite <- list_fmap_compose. apply Hok.
Qed.

Lemma hash_iterate_all_witness :
  let ht := Hash (V := Z) 0 1 (replicate 2 []) [] hash_func_default in
  hash_ok (foldl hash_step 0) ht /\
  exists it es, hash_begin true ht = Done it /\ iterate 1 ht it = Done es /\
    (fun e => (ebytes e, e_val e)) <$> es ≡ₚ map_to_list (to_map ht).
Proof.
  intros ht. assert (hash_ok (foldl hash_step 0) ht) as Hok.
  { by apply (hash_create_ok _ true 1 None ht ltac:(lia) eq_refl). }
  split; [exact Hok|]. apply (hash_iterate_all _ ht Hok). vm_compute. lia.
Defined.

(** [hash_destroy] does not free the entries of the last chain: it releases
    exactly the recycled entries and those of the chains before [max]. *)
Theorem hash_destroy_leaks_last_chain {V} H (ht : hash_t V) c :
  hash_ok H ht -> array ht !! Z.to_nat (max ht) = Some c ->
  concat (array ht) ++ free ht ≡ₚ c ++ hash_destroy ht.
Proof.
  intros Hok Hc. unfold hash_destroy.
  pose proof (chains_length _ _ _ (ok_chains _ _ Hok)). pose proof (ok_max _ _ Hok).
  rewrite <- (take_drop_middle _ _ _ Hc) at 1.
  rewrite drop_ge by lia. rewrite concat_app. cbn. rewrite app_nil_r.
  solve_Permutation.
Qed.

(** One binding whose key hashes to the last slot: nothing is freed. *)
Lemma hash_destroy_leaks_last_chain_witness :
  let e := Entry [97; 0] 1 97 tt in
  let ht := Hash 1 1 [[]; [e]] [] hash_func_default in
  hash_ok (foldl hash_step 0) ht /\ hash_destroy ht = [] /\
  concat (array ht) ++ free ht ≡ₚ [e] ++ hash_destroy ht.
Proof.
  intros e ht. assert (hash_ok (foldl hash_step 0) ht) as Hok.
  { split; cbn [max count array ht]; [lia|done|lia|apply NoDup_singleton|].
    split; [done|]. intros [|[|b]] c e' Hb He; cbn in Hb; simplify_eq;
      [by apply elem_of_nil in He|]. apply list_elem_of_singleton in He as ->.
    vm_compute. done. }
  split; [exact Hok|]. split; [reflexivity|].
  by apply (hash_destroy_leaks_last_chain _ ht [e] Hok).
Defined.

(** When an entry must be allocated and [malloc] fails, [find_entry] returns a
    null pointer, which [hash_set] dereferences instead of returning -1. *)
Theorem hash_set_oom_faults {V} H ok2 (ht : hash_t V) key klen bs v :
  hash_ok H ht -> denotes H (func ht) key klen bs ->
  to_map ht !! bs = None -> free ht = [] ->
  hash_set false ok2 ht key klen (Some v) = Fault.
Proof.
  intros Hok Hden Hno Hfree. pose proof Hden as (Hf & _).
  destruct (lookup_spec H ht key klen bs Hok Hden) as (c & Hc & Hcase).
  unfold hash_set, find_entry. rewrite Hf. cbn [mbind outcome_bind]. rewrite Hc.
  destruct Hcase as [(c1 & e & c2 & _ & _ & _ & Hm)|(_ & Hnone & _)]; [congruence|].
  cbv zeta. by rewrite Hnone, Hfree.
Qed.

Lemma hash_set_oom_faults_witness :
  let ht := Hash 0 15 (replicate 16 []) [] hash_func_default in
  hash_ok (foldl hash_step 0) ht /\
  hash_set false true ht [97; 0] HASH_KEY_STRING (Some tt) = Fault.
Proof.
  intros ht. assert (hash_ok (foldl hash_step 0) ht) as Hok.
  { by apply (hash_create_ok _ true 15 None ht ltac:(lia) eq_refl). }
  split; [exact Hok|].
  apply (hash_set_oom_faults _ true ht [97; 0] _ [97] tt Hok); [|reflexivity|reflexivity].
  apply (default_denotes_string [97] []); [repeat constructor|vm_compute; done].
Defined.
