(* ===== verification/Record.v ===== *)
(** Files of fixed-length records: [lib/record.c].

    A file whose size is a multiple of the record length is the list of its
    records; positions and offsets count records, as the record interface does.
    Byte offsets are assumed to fit the C types.  A mapping of the file is the
    same list, and an access beyond its records faults. *)
From S2P Require Import Prelude.
From stdpp Require Import sets sorting.
#[local] Open Scope Z_scope.

(** [record_callback_e] *)
Inductive record_callback_e := MATCH | CONTINUE | BREAK.

(** [record_whence_e] *)
Inductive record_whence_e := RECORD_SET | RECORD_CUR | RECORD_END.

Definition RECORD_BUFFER_SIZE : Z := 8192.

Definition zlen {A} (l : list A) : Z := Z.of_nat (length l).

(** [p[i]] on an array of records. *)
Definition at_ {A} (l : list A) (i : Z) : outcome A :=
  if i <? 0 then Fault
  else match l !! Z.to_nat i with Some x => Done x | None => Fault end.

Definition put_at {A} (l : list A) (i : Z) (x : A) : outcome (list A) :=
  if (0 <=? i) && (i <? zlen l) then Done (<[Z.to_nat i := x]> l) else Fault.

(** The order a comparison function stands for. *)
Definition cmp_le {R} (cmp : R -> R -> Z) (a b : R) : Prop := cmp a b <= 0.
#[export] Instance cmp_le_dec {R} (cmp : R -> R -> Z) : RelDecision (cmp_le cmp).
Proof. intros a b. unfold cmp_le. apply _. Defined.

Section Record.
Context {R S : Type}.

(** [record_t]: an open file, its position and the comparison of records. *)
Record record_t := Rec {
  file : list R;
  pos : Z;
  rlen : Z;
  cmp : R -> R -> Z;
}.

(** A callback may change the record it is given and its argument. *)
Definition record_callback_t : Type := R -> S -> Z -> record_callback_e * R * S.

(** What the system can refuse: reading, writing, mapping, locking, resizing. *)
Record system := System {
  stat_ok : bool;
  read_ok : Z -> bool;
  write_ok : bool;
  mmap_ok : bool;
  lock_ok : bool;
  truncate_ok : bool;
}.
Context (sys : system) (hole : R).

Definition set_pos (p : Z) (rec : record_t) : record_t :=
  Rec (file rec) p (rlen rec) (cmp rec).
Definition set_file (f : list R) (rec : record_t) : record_t :=
  Rec f (pos rec) (rlen rec) (cmp rec).

Definition record_count (rec : record_t) : Z :=
  if stat_ok sys then zlen (file rec) else 0.

Definition record_seek (rec : record_t) (offset : Z) (whence : record_whence_e)
    : Z * record_t :=
  let base := match whence with
              | RECORD_SET => 0 | RECORD_CUR => pos rec
              | RECORD_END => zlen (file rec) end in
  let off := base + offset in
  if off <? 0 then (-1, rec) else (off, set_pos off rec).

(** The records read, as many as the result says, are what is stored in the
    caller's buffer. *)
Definition record_read (rec : record_t) (count : Z) : Z * list R * record_t :=
  if count <? 0 then (-1, [], rec)
  else if read_ok sys (pos rec) then
    let data := take (Z.to_nat count) (drop (Z.to_nat (pos rec)) (file rec)) in
    (zlen data, data, set_pos (pos rec + zlen data) rec)
  else (-1, [], rec).

Definition record_read_after (rec : record_t) (count offset : Z)
    : Z * list R * record_t :=
  if count <? 0 then (0, [], rec)
  else
    let '(off, rec) := record_seek rec offset RECORD_SET in
    if off <? 0 then (0, [], rec)
    else
      let '(count, data, rec) := record_read rec count in
      if count <? 0 then (0, data, rec) else (count, data, rec).

(** Writing [data] at position [p]; a gap after the end reads as zeros. *)
Definition write_at (f : list R) (p : Z) (data : list R) : list R :=
  let f' := f ++ replicate (Z.to_nat p - length f) hole in
  take (Z.to_nat p) f' ++ data ++ drop (Z.to_nat p + length data) f'.

Definition record_write (rec : record_t) (data : list R) (count offset : Z)
    : Z * record_t :=
  if count <? 0 then (0, rec)
  else
    let '(off, rec) := record_seek rec offset RECORD_SET in
    if off <? 0 then (0, rec)
    else if write_ok sys then
      let d := take (Z.to_nat count) data in
      (zlen d, set_pos (pos rec + zlen d) (set_file (write_at (file rec) (pos rec) d) rec))
    else (0, rec).

(** The result of [file_write], in bytes. *)
Definition record_append (rec : record_t) (data : list R) (count : Z)
    : Z * record_t :=
  if count <? 0 then (-1, rec)
  else if write_ok sys then
    let d := take (Z.to_nat count) data in
    (count * rlen rec, set_pos (zlen (file rec) + zlen d) (set_file (file rec ++ d) rec))
  else (-1, rec).

Definition record_append_locked (rec : record_t) (data : list R) (count : Z)
    : Z * record_t :=
  if lock_ok sys then record_append rec data count else (-1, rec).

(** [offset * rlen < size] compares unsigned numbers: a negative offset fails. *)
Definition check_offset (rec : record_t) (ptr : option R) (offset : Z) : outcome Z :=
  match ptr with
  | None => Done offset
  | Some ptr =>
      if (0 <? offset) && (offset <? zlen (file rec)) then
        r ← at_ (file rec) offset;
        Done (if cmp rec r ptr <=? 0 then offset else 0)
      else Done 0
  end.

Fixpoint apply_loop (fuel : nat) (cb : record_callback_t) (_delete : bool)
    (arr : list R) (p affected : Z) (args : S) : outcome (Z * list R * S) :=
  match fuel with
  | O => NoFuel
  | Datatypes.S fuel =>
      if p <? zlen arr then
        rec ← at_ arr p;
        let '(r, rec, args) := cb rec args p in
        arr ← put_at arr p rec;
        match r with
        | MATCH => apply_loop fuel cb _delete arr (p + 1) (affected + 1) args
        | _ =>
            if _delete then
              arr ← put_at arr (p - affected) rec;
              apply_loop fuel cb _delete arr (p + 1) affected args
            else match r with
                 | BREAK => Done (affected, arr, args)
                 | _ => apply_loop fuel cb _delete arr (p + 1) affected args
                 end
        end
      else Done (affected, arr, args)
  end.

(** Every record is visited at most once, from [offset] on. *)
Definition record_apply (rec : record_t) (ptr : option R) (offset : Z)
    (cb : record_callback_t) (args : S) (_delete : bool) : outcome (Z * record_t * S) :=
  if mmap_ok sys then
    offset ← check_offset rec ptr offset;
    '(affected, arr, args) ←
      apply_loop (Z.to_nat (zlen (file rec) - offset) + 1) cb _delete (file rec) offset 0 args;
    let arr := if negb (affected =? 0) && _delete && truncate_ok sys
               then take (Z.to_nat (zlen arr - affected)) arr else arr in
    Done (affected, set_file arr rec, args)
  else Done (-1, rec, args).

(** The inner loop of [record_foreach]: [true] when the callback breaks. *)
Fixpoint foreach_block (cb : record_callback_t) (data : list R) (offset matched : Z)
    (args : S) : bool * Z * Z * S :=
  match data with
  | [] => (false, offset, matched, args)
  | p :: data =>
      let '(r, _, args) := cb p args offset in
      match r with
      | MATCH => foreach_block cb data (offset + 1) (matched + 1) args
      | BREAK => (true, offset + 1, matched, args)
      | CONTINUE => foreach_block cb data (offset + 1) matched args
      end
  end.

(** [ptr] is [Some] while its check is still to be done. *)
Fixpoint foreach_loop (fuel : nat) (block : Z) (cb : record_callback_t)
    (rec : record_t) (ptr : option R) (offset matched : Z) (args : S)
    : outcome (Z * S) :=
  match fuel with
  | O => NoFuel
  | Datatypes.S fuel =>
      let '(count, data, rec) := record_read rec block in
      if count <? 0 then Done (matched, args)
      else
        let stale := match ptr, data with
                     | None, _ => false
                     | Some _, [] => true
                     | Some p, r :: _ => 0 <? cmp rec r p
                     end in
        if (stale : bool) then
          let '(_, rec) := record_seek rec 0 RECORD_SET in
          if count =? block then foreach_loop fuel block cb rec None 0 matched args
          else Done (matched, args)
        else
          let '(stop, offset, matched, args) := foreach_block cb data offset matched args in
          if (stop : bool) then Done (matched, args)
          else if count =? block then
            foreach_loop fuel block cb rec None offset matched args
          else Done (matched, args)
  end.

(** Each full block advances, and the check restarts at most once. *)
Definition record_foreach (rec : record_t) (ptr : option R) (offset : Z)
    (cb : record_callback_t) (args : S) : outcome (Z * S) :=
  let block := RECORD_BUFFER_SIZE / rlen rec in
  let '(_, rec) := record_seek rec offset RECORD_SET in
  foreach_loop (2 * length (file rec) + 3) block cb rec ptr offset 0 args.

(** [i] from [count - 1] down to 0 over the records read at [offset]. *)
Fixpoint reverse_block (cb : record_callback_t) (rdata : list R) (top matched : Z)
    (args : S) : bool * Z * S :=
  match rdata with
  | [] => (false, matched, args)
  | p :: rdata =>
      let '(r, _, args) := cb p args top in
      match r with
      | MATCH => reverse_block cb rdata (top - 1) (matched + 1) args
      | BREAK => (true, matched, args)
      | CONTINUE => reverse_block cb rdata (top - 1) matched args
      end
  end.

Fixpoint reverse_loop (fuel : nat) (block : Z) (cb : record_callback_t)
    (rec : record_t) (offset matched : Z) (args : S) : outcome (Z * S) :=
  match fuel with
  | O => NoFuel
  | Datatypes.S fuel =>
      let offset := offset - block in
      let offset := if offset <? 0 then 0 else offset in
      let '(count, data, rec) := record_read_after rec block offset in
      if count <=? 0 then Done (matched, args)
      else
        let '(stop, matched, args) :=
          reverse_block cb (reverse data) (offset + count - 1) matched args in
        if (stop : bool) then Done (matched, args)
        else if 0 <? offset then reverse_loop fuel block cb rec offset matched args
        else Done (matched, args)
  end.

Definition record_reverse_foreach (rec : record_t) (cb : record_callback_t)
    (args : S) : outcome (Z * S) :=
  let block := RECORD_BUFFER_SIZE / rlen rec in
  reverse_loop (length (file rec) + 1) block cb rec (record_count rec) 0 args.

(** [qsort] by the comparison. *)
Definition qsort (cmp : R -> R -> Z) (l : list R) : list R :=
  merge_sort (cmp_le cmp) l.

Fixpoint merge_loop (fuel : nat) (cmp : R -> R -> Z) (buf : list R)
    (arr : list R) (src dst p2 : Z) : outcome (list R) :=
  match fuel with
  | O => NoFuel
  | Datatypes.S fuel =>
      if 0 <=? p2 then
        b ← at_ buf p2;
        take_new ← (if src <? 0 then Done true
                    else s ← at_ arr src; Done (cmp s b <=? 0));
        if (take_new : bool) then
          arr ← put_at arr dst b;
          merge_loop fuel cmp buf arr src (dst - 1) (p2 - 1)
        else
          s ← at_ arr src;
          arr ← put_at arr dst s;
          merge_loop fuel cmp buf arr (src - 1) (dst - 1) p2
      else Done arr
  end.

Definition record_merge (rec : record_t) (ptr : list R) : outcome (Z * record_t) :=
  let count := zlen ptr in
  if count <=? 0 then Done (0, rec)
  else
    let buf := qsort (cmp rec) ptr in
    if mmap_ok sys then
      let size := zlen (file rec) in
      if truncate_ok sys then
        let arr := file rec ++ replicate (length ptr) hole in
        arr ← merge_loop (length (file rec) + length ptr + 1) (cmp rec) buf arr
                (size - 1) (size + count - 1) (count - 1);
        Done (0, set_file arr rec)
      else Done (-1, rec)
    else Done (-1, rec).

(** A search filter does not change what it is given. *)
Definition record_filter_t : Type := R -> Z -> record_callback_e.

(** The loop over one block: [inl] is the function's result. *)
Fixpoint search_block (filter : record_filter_t) (data : list R) (base : Z)
    : option (Z * option R) :=
  match data with
  | [] => None
  | p :: data =>
      match filter p base with
      | MATCH => Some (base, Some p)
      | BREAK => Some (-1, None)
      | CONTINUE => search_block filter data (base + 1)
      end
  end.

Fixpoint search_block_reverse (filter : record_filter_t) (rdata : list R) (top : Z)
    : option (Z * option R) :=
  match rdata with
  | [] => None
  | p :: rdata =>
      match filter p top with
      | MATCH => Some (top, Some p)
      | BREAK => Some (-1, None)
      | CONTINUE => search_block_reverse filter rdata (top - 1)
      end
  end.

(** [rounds] blocks of [capacity] records are left to read. *)
Fixpoint search_forward (rounds : nat) (capacity : Z) (filter : record_filter_t)
    (rec : record_t) (base : Z) : Z * option R :=
  match rounds with
  | O => (-1, None)
  | Datatypes.S rounds =>
      let '(count, data, rec) := record_read rec capacity in
      if count <=? 0 then (-1, None)
      else match search_block filter data base with
           | Some found => found
           | None => search_forward rounds capacity filter rec (base + capacity)
           end
  end.

Fixpoint search_reverse (rounds : nat) (capacity all : Z) (filter : record_filter_t)
    (rec : record_t) : Z * option R :=
  match rounds with
  | O => (-1, None)
  | Datatypes.S rounds =>
      let base := Z.of_nat rounds * capacity in
      let '(_, rec) := record_seek rec base RECORD_SET in
      let '(count, data, rec) := record_read rec capacity in
      if count <=? 0 then (-1, None)
      else
        let count := if all - base <? count then all - base else count in
        match search_block_reverse filter (reverse (take (Z.to_nat count) data))
                (base + count - 1) with
        | Some found => found
        | None => search_reverse rounds capacity all filter rec
        end
  end.

Definition record_search_copy (rec : record_t) (filter : record_filter_t)
    (offset : Z) (reverse : bool) : Z * option R :=
  let capacity := RECORD_BUFFER_SIZE / rlen rec in
  let all := if 0 <=? offset then
               if reverse then offset else record_count rec - offset - 1
             else record_count rec in
  if all <=? 0 then (-1, None)
  else
    let rounds := Z.to_nat ((all + capacity - 1) / capacity) in
    if reverse then search_reverse rounds capacity all filter rec
    else
      let offset := if offset + 1 <? 0 then 0 else offset + 1 in
      let '(_, rec) := record_seek rec offset RECORD_SET in
      search_forward rounds capacity filter rec offset.

Definition record_truncate (rec : record_t) (count : Z) : Z * record_t :=
  if truncate_ok sys && (0 <=? count) then
    (0, set_file (take (Z.to_nat count)
          (file rec ++ replicate (Z.to_nat count - length (file rec)) hole)) rec)
  else (-1, rec).
End Record.
Arguments record_t : clear implicits.

(** * Record files addressed by name *)
Section Legacy.
Context {R : Type} (hole : R).

(** A file that does not exist is [None]. *)
Definition get_num_records (f : option (list R)) : Z :=
  match f with None => 0 | Some f => zlen f end.

(** The number of bytes written, for records of [size] bytes. *)
Definition append_record (open_ok : bool) (f : option (list R)) (record : R)
    (size : Z) : Z * option (list R) :=
  if open_ok then (size, Some (default [] f ++ [record])) else (-1, f).

Definition get_record_handle (f : list R) (id : Z) : Z * option R :=
  if id - 1 <? 0 then (-1, None)
  else match f !! Z.to_nat (id - 1) with
       | Some r => (0, Some r)
       | None => (-1, None)
       end.

Definition get_record (f : option (list R)) (id : Z) : Z * option R :=
  match f with None => (-1, None) | Some f => get_record_handle f id end.

Definition get_records (f : option (list R)) (id number : Z) : Z * list R :=
  match f with
  | None => (-1, [])
  | Some f =>
      if id - 1 <? 0 then (0, [])
      else
        let data := take (Z.to_nat number) (drop (Z.to_nat (id - 1)) f) in
        (zlen data, data)
  end.

(** The callback of [apply_record] answers whether to quit. *)
Fixpoint apply_records {S} (func : R -> Z -> S -> bool * S) (f : list R)
    (num step : Z) (arg : S) : S :=
  match f with
  | [] => arg
  | r :: f =>
      let '(quit, arg) := func r num arg in
      if (quit : bool) then arg else apply_records func f (num + step) step arg
  end.

Definition apply_record {S} (f : option (list R)) (func : R -> Z -> S -> bool * S)
    (arg : S) (reverse : bool) : Z * S :=
  match f with
  | None => (-1, arg)
  | Some f =>
      if reverse then (0, apply_records func (list.reverse f) (zlen f) (-1) arg)
      else (0, apply_records func f 1 1 arg)
  end.

Fixpoint search_records (func : R -> bool) (f : list R) (i : Z) : Z * option R :=
  match f with
  | [] => (0, None)
  | r :: f => if func r then (i + 1, Some r) else search_records func f (i + 1)
  end.

Definition search_record (f : option (list R)) (func : R -> bool) : Z * option R :=
  match f with None => (0, None) | Some f => search_records func f 0 end.

Definition substitute_record (open_ok lock_ok : bool) (f : option (list R)) (r : R)
    (id : Z) : Z * option (list R) :=
  if open_ok then
    let f := default [] f in
    if lock_ok then
      if id - 1 <? 0 then (-1, Some f)
      else (0, Some (write_at hole f (id - 1) [r]))
    else (-1, Some f)
  else (-1, f).

(** The search for a checked record, from record 1 on. *)
Fixpoint find_checked (check : R -> bool) (f : list R) (id : Z) : option Z :=
  match f with
  | [] => None
  | r :: f => if check r then Some id else find_checked check f (id + 1)
  end.

(** [memmove] of the following records over record [id], then truncation. *)
Definition remove_record (f : list R) (id : Z) : list R :=
  take (Z.to_nat (id - 1)) f ++ drop (Z.to_nat id) f.

Definition delete_record (f : option (list R)) (id : Z) (check : option (R -> bool))
    : outcome (Z * option (list R)) :=
  if id <=? 0 then Done (0, f)
  else match f with
  | None => Done (-1, None)
  | Some f =>
      if zlen f <? id then Done (-2, Some f)
      else match check with
      | None => Done (0, Some (remove_record f id))
      | Some check =>
          r ← at_ f (id - 1);
          if check r then Done (0, Some (remove_record f id))
          else match find_checked check f 1 with
               | Some id => Done (0, Some (remove_record f id))
               | None => Done (-2, Some f)
               end
      end
  end.

(** The insertion point: the first record the check accepts, or the end. *)
Fixpoint insertion_point (check : R -> bool) (f : list R) : nat :=
  match f with
  | [] => O
  | r :: f => if check r then O else Datatypes.S (insertion_point check f)
  end.

Definition insert_record (truncate_ok : bool) (f : option (list R))
    (check : option (R -> R -> bool)) (arg : option R) : Z * option (list R) :=
  match check, arg with
  | Some check, Some arg =>
      match f with
      | None => (-1, None)
      | Some f =>
          if truncate_ok then
            let iter := insertion_point (fun r => check r arg) f in
            (0, Some (take iter f ++ [arg] ++ drop iter f))
          else (-1, Some f)
      end
  | _, _ => (-1, f)
  end.
End Legacy.

(** * Arrays *)

Lemma zlen_nil {A} : zlen (@nil A) = 0.
Proof. done. Qed.
Lemma zlen_cons {A} (x : A) l : zlen (x :: l) = 1 + zlen l.
Proof. unfold zlen. cbn. lia. Qed.
Lemma zlen_app {A} (l k : list A) : zlen (l ++ k) = zlen l + zlen k.
Proof. unfold zlen. rewrite length_app. lia. Qed.
Lemma zlen_nonneg {A} (l : list A) : 0 <= zlen l.
Proof. unfold zlen. lia. Qed.
Lemma to_nat_zlen {A} (l : list A) : Z.to_nat (zlen l) = length l.
Proof. unfold zlen. lia. Qed.
Create Rewrite HintDb zlen.
#[export] Hint Rewrite @zlen_nil @zlen_cons @zlen_app : zlen.

(** Normalise the lengths of the goal, and close it. *)
Ltac zl := autorewrite with zlen;
  repeat match goal with
  | |- context [zlen ?l] => lazymatch goal with
      | _ : 0 <= zlen l |- _ => fail
      | _ => pose proof (zlen_nonneg l) end
  end; try lia.

Lemma at_app {A} l pre (x : A) post i :
  l = pre ++ x :: post -> i = zlen pre -> at_ l i = Done x.
Proof.
  intros -> ->. unfold at_. pose proof (zlen_nonneg pre). zcase.
  by rewrite to_nat_zlen, list_lookup_middle.
Qed.

Lemma put_at_app {A} l pre (x y : A) post i :
  l = pre ++ x :: post -> i = zlen pre -> put_at l i y = Done (pre ++ y :: post).
Proof.
  intros -> ->. unfold put_at. rewrite zlen_app, zlen_cons.
  pose proof (zlen_nonneg pre). pose proof (zlen_nonneg post). zcase.
  by rewrite to_nat_zlen, insert_app_r_alt, Nat.sub_diag.
Qed.

Section Apply.
Context {R S : Type} (cb : R -> S -> Z -> record_callback_e * R * S).

(** What deleting leaves of the records from position [p] on, how many matched,
    and the final argument. *)
Fixpoint deleted (l : list R) (p : Z) (args : S) : list R * Z * S :=
  match l with
  | [] => ([], 0, args)
  | r :: l =>
      let '(res, r', args) := cb r args p in
      let '(kept, n, args) := deleted l (p + 1) args in
      match res with MATCH => (kept, n + 1, args) | _ => (r' :: kept, n, args) end
  end.

(** The same for updating in place, which a break ends. *)
Fixpoint updated (l : list R) (p : Z) (args : S) : list R * Z * S :=
  match l with
  | [] => ([], 0, args)
  | r :: l =>
      let '(res, r', args) := cb r args p in
      match res with
      | BREAK => (r' :: l, 0, args)
      | _ => let '(l', n, args) := updated l (p + 1) args in
             (r' :: l', match res with MATCH => n + 1 | _ => n end, args)
      end
  end.

Lemma deleted_range l : forall p args, 0 <= (deleted l p args).1.2 <= zlen l.
Proof.
  induction l as [|r l IH]; intros p args; cbn [deleted]; [done|].
  destruct (cb r args p) as [[res r'] args']. specialize (IH (p + 1) args').
  destruct (deleted l (p + 1) args') as [[kept n] args'']. cbn in IH.
  destruct res; cbn; zl.
Qed.

(** A kept record slides down over the gap [g] of matched ones. *)
Lemma slide_down d g (r : R) l p : p = zlen d ->
  exists g', put_at (d ++ g ++ r :: l) p r = Done (d ++ r :: g' ++ l) /\
    zlen g' = zlen g.
Proof.
  intros ->. destruct g as [|x g]; cbn [app].
  - exists []. by rewrite (put_at_app _ d r r l).
  - exists (g ++ [r]). rewrite (put_at_app _ d x r (g ++ r :: l)) by done.
    rewrite <- app_assoc. split; [done|]. zl.
Qed.

Lemma apply_loop_delete l : forall fuel d g p aff args,
  (length l < fuel)%nat -> p = zlen d + zlen g -> aff = zlen g ->
  exists g', let '(kept, n, args') := deleted l p args in
    apply_loop fuel cb true (d ++ g ++ l) p aff args
      = Done (aff + n, d ++ kept ++ g', args') /\ zlen g' = aff + n.
Proof.
  induction l as [|r l IH]; intros fuel d g p aff args Hf Hp Ha;
    (destruct fuel as [|fuel]; [cbn in Hf; lia|]); cbn [deleted apply_loop].
  - exists g. rewrite app_nil_r, zlen_app. zcase. by rewrite Z.add_0_r.
  - assert ((p <? zlen (d ++ g ++ r :: l)) = true) as -> by zl.
    rewrite (at_app _ (d ++ g) r l) by (rewrite ?app_assoc; zl; done).
    cbn [mbind outcome_bind]. destruct (cb r args p) as [[res r'] args'].
    rewrite (put_at_app _ (d ++ g) r r' l) by (rewrite ?app_assoc; zl; done).
    cbn [mbind outcome_bind]. cbn in Hf. rewrite <- app_assoc.
    destruct (slide_down d g r' l (p - aff)) as (g1 & Hg1 & Hl1); [lia|].
    pose proof (IH fuel d (g ++ [r']) (p + 1) (aff + 1) args') as IHm.
    pose proof (IH fuel (d ++ [r']) g1 (p + 1) aff args') as IHk.
    destruct (deleted l (p + 1) args') as [[kept n] args''].
    destruct res; rewrite ?Hg1; cbn [mbind outcome_bind].
    + destruct IHm as [g' Hg']; [lia|zl|zl|]. exists g'.
      rewrite <- !app_assoc in Hg'. cbn [app] in Hg'.
      replace (aff + (n + 1)) with (aff + 1 + n) by lia. done.
    + destruct IHk as [g' Hg']; [lia|zl|zl|]. exists g'.
      by rewrite <- !app_assoc in Hg'.
    + destruct IHk as [g' Hg']; [lia|zl|zl|]. exists g'.
      by rewrite <- !app_assoc in Hg'.
Qed.

Lemma apply_loop_update l : forall fuel d p aff args,
  (length l < fuel)%nat -> p = zlen d ->
  let '(l', n, args') := updated l p args in
  apply_loop fuel cb false (d ++ l) p aff args = Done (aff + n, d ++ l', args').
Proof.
  induction l as [|r l IH]; intros fuel d p aff args Hf Hp;
    (destruct fuel as [|fuel]; [cbn in Hf; lia|]); cbn [updated apply_loop].
  - rewrite app_nil_r. zcase. by rewrite Z.add_0_r.
  - assert ((p <? zlen (d ++ r :: l)) = true) as -> by zl.
    rewrite (at_app _ d r l) by done.
    cbn [mbind outcome_bind]. destruct (cb r args p) as [[res r'] args'].
    rewrite (put_at_app _ d r r' l) by done. cbn [mbind outcome_bind]. cbn in Hf.
    pose proof (fun a => IH fuel (d ++ [r']) (p + 1) a args') as IHk.
    destruct (updated l (p + 1) args') as [[l' n] args''].
    destruct res.
    + specialize (IHk (aff + 1)). rewrite <- !app_assoc in IHk. cbn [app] in IHk.
      rewrite IHk by (zl). do 3 f_equal. lia.
    + specialize (IHk aff). rewrite <- !app_assoc in IHk. cbn [app] in IHk.
      by rewrite IHk by (zl).
    + by rewrite Z.add_0_r.
Qed.
End Apply.

(** * Merging *)
Section Merge.
Context {R : Type} (cmp : R -> R -> Z).
Local Abbreviation le := (cmp_le cmp).
Context `{!Transitive le} `{!Total le}.

Lemma snoc_sorted f x : StronglySorted le (f ++ [x]) ->
  StronglySorted le f /\ forall y, y ∈ f -> le y x.
Proof.
  intros Hs. apply StronglySorted_app in Hs as (H & Hf & _). split; [done|].
  intros y Hy. apply H; [done|]. by apply list_elem_of_singleton.
Qed.

Lemma cons_sorted z l :
  StronglySorted le l -> (forall y, y ∈ l -> le z y) -> StronglySorted le (z :: l).
Proof. intros Hl Hz. constructor; [done|]. by apply list.Forall_forall. Qed.

(** The state of the merge: a prefix [f] of the file, the gap [g] that the
    unplaced records [b] will fill, and the sorted output. *)
Definition merging (fuel : nat) (f b b2 g out : list R) : outcome (list R) :=
  merge_loop fuel cmp (b ++ b2) (f ++ g ++ out)
    (zlen f - 1) (zlen f + zlen g - 1) (zlen b - 1).

Ltac located := rewrite <- ?app_assoc; autorewrite with zlen; try lia; done.
Ltac advance := rewrite <- ?app_assoc; cbn [app]; autorewrite with zlen; f_equal; lia.

(** The last record of the file, if any, is not after [x]: [x] is placed. *)
Lemma merging_new fuel f b x b2 g y out :
  (forall s, last f = Some s -> le s x) -> zlen g = zlen b ->
  merging (S fuel) f (b ++ [x]) b2 (g ++ [y]) out = merging fuel f b (x :: b2) g (x :: out).
Proof.
  intros Hf Hg. unfold merging. cbn [merge_loop]. autorewrite with zlen.
  assert ((0 <=? zlen b + (1 + 0) - 1) = true) as -> by zl.
  rewrite (at_app _ b x b2 (zlen b + (1 + 0) - 1)) by located. cbn [mbind outcome_bind].
  assert ((if zlen f - 1 <? 0 then Done true
           else s ← at_ (f ++ (g ++ [y]) ++ out) (zlen f - 1); Done (cmp s x <=? 0))
    = Done true) as ->.
  { destruct (snoc_case f) as [->|(f' & s & ->)]; [done|]. pose proof (zlen_nonneg f').
    autorewrite with zlen. zcase.
    rewrite (at_app _ f' s ((g ++ [y]) ++ out)) by located. cbn.
    specialize (Hf s). rewrite last_snoc in Hf. unfold cmp_le in Hf.
    specialize (Hf eq_refl). do 2 f_equal. lia. }
  cbn [mbind outcome_bind].
  rewrite (put_at_app _ (f ++ g) y x out) by located. cbn [mbind outcome_bind]. advance.
Qed.

(** Otherwise it is placed after [x]. *)
Lemma merging_old fuel f s b x b2 g y out :
  ~ le s x -> zlen g = zlen b ->
  merging (S fuel) (f ++ [s]) (b ++ [x]) b2 (g ++ [y]) out
    = merging fuel f (b ++ [x]) b2 (s :: g) (s :: out).
Proof.
  intros Hs Hg. unfold merging. cbn [merge_loop]. autorewrite with zlen.
  pose proof (zlen_nonneg f).
  assert ((0 <=? zlen b + (1 + 0) - 1) = true) as -> by zl.
  rewrite (at_app _ b x b2 (zlen b + (1 + 0) - 1)) by located. cbn [mbind outcome_bind].
  zcase.
  rewrite (at_app _ f s ((g ++ [y]) ++ out) (zlen f + (1 + 0) - 1)) by located.
  cbn [mbind outcome_bind].
  unfold cmp_le in Hs. destruct (Z.leb_spec (cmp s x) 0); [done|].
  rewrite (put_at_app _ ((f ++ [s]) ++ g) y s out) by located. cbn [mbind outcome_bind].
  advance.
Qed.

Lemma last_le f x : StronglySorted le f ->
  (forall s, last f = Some s -> le s x) /\ (forall y, y ∈ f -> le y x) \/
  exists f' s, f = f' ++ [s] /\ ~ le s x /\ le x s /\ forall y, y ∈ f' -> le y s.
Proof.
  intros Sf. destruct (snoc_case f) as [->|(f' & s & ->)].
  { left. split; [done|]. intros y Hy. by apply not_elem_of_nil in Hy. }
  apply snoc_sorted in Sf as [_ Hf]. destruct (decide (le s x)) as [Hs|Hs]; [left|right].
  - split; [intros ?; rewrite last_snoc; by intros [= <-]|].
    intros y [Hy| ->%list_elem_of_singleton]%elem_of_app; [|done].
    etrans; [by apply Hf|done].
  - exists f', s. split_and!; try done. by destruct (total le x s).
Qed.

(** The placed record dominates the rest, and those placed dominate it. *)
Lemma place_dominated z (l k out : list R) :
  (forall x y, x ∈ k -> y ∈ out -> le x y) -> z ∈ k -> (forall x, x ∈ l -> x ∈ k) ->
  StronglySorted le out -> (forall x, x ∈ l -> le x z) ->
  StronglySorted le (z :: out) /\ forall x y, x ∈ l -> y ∈ z :: out -> le x y.
Proof.
  intros Hle Hz Hl So Hlz. split; [apply cons_sorted; auto|].
  intros x y Hx Hy. apply elem_of_cons in Hy as [->|Hy]; auto.
Qed.

Lemma merging_spec fuel : forall f b b2 g out,
  (length f + length b < fuel)%nat -> zlen g = zlen b ->
  StronglySorted le f -> StronglySorted le b -> StronglySorted le out ->
  (forall x y, x ∈ f ++ b -> y ∈ out -> le x y) ->
  exists res, merging fuel f b b2 g out = Done res /\
    StronglySorted le res /\ res ≡ₚ f ++ b ++ out.
Proof.
  induction fuel as [|fuel IH]; intros f b b2 g out Hf Hg Sf Sb So Hle; [lia|].
  destruct (snoc_case b) as [->|(b' & x & ->)].
  { destruct g; [|rewrite zlen_cons, zlen_nil in Hg; pose proof (zlen_nonneg g); lia].
    eexists; split; [done|]. split; [|done].
    apply StronglySorted_app. split_and!; [|done|done]. intros; apply Hle; set_solver. }
  destruct (snoc_case g) as [->|(g' & y & ->)];
    [autorewrite with zlen in Hg; pose proof (zlen_nonneg b'); lia|].
  autorewrite with zlen in Hg. rewrite length_app in Hf. cbn in Hf.
  pose proof (snoc_sorted _ _ Sb) as [Sb' Hb'].
  assert (zlen g' = zlen b') as Hg' by lia.
  destruct (last_le f x Sf) as [[Hn Hfx]|(f' & s & -> & Hn & Hxs & Hfs)].
  - rewrite merging_new by done.
    destruct (place_dominated x (f ++ b') _ out Hle) as [So' Hle'];
      [clear; set_solver|clear; set_solver|done| |].
    { intros z [Hz|Hz]%elem_of_app; auto. }
    destruct (IH f b' (x :: b2) g' (x :: out)) as (res & -> & Hr & Hp); try done; [lia|].
    exists res. split; [done|]. split; [done|]. by rewrite Hp, <- app_assoc.
  - rewrite merging_old by done. rewrite length_app in Hf. cbn in Hf.
    apply snoc_sorted in Sf as [Sf' _].
    destruct (place_dominated s (f' ++ b' ++ [x]) _ out Hle) as [So' Hle'];
      [clear; set_solver|clear; set_solver|done| |].
    { intros z [Hz|[Hz| ->%list_elem_of_singleton]%elem_of_app]%elem_of_app; [by apply Hfs| |done].
      etrans; [by apply Hb'|done]. }
    destruct (IH f' (b' ++ [x]) b2 (s :: g') (s :: out)) as (res & -> & Hr & Hp); try done.
    { rewrite length_app. cbn. lia. }
    { autorewrite with zlen. lia. }
    exists res. split; [done|]. split; [done|]. rewrite Hp, <- !app_assoc. cbn. solve_Permutation.
Qed.
End Merge.

(** * The operations *)
Section Operations.
Context {R S : Type} (sys : system) (hole : R).
Implicit Types (rec : record_t R) (cb : @record_callback_t R S).

Lemma set_file_file rec : set_file (file rec) rec = rec.
Proof. by destruct rec. Qed.

Lemma take_drop_zlen (l : list R) off : 0 <= off <= zlen l ->
  exists d l', l = d ++ l' /\ off = zlen d /\
    take (Z.to_nat off) l = d /\ drop (Z.to_nat off) l = l'.
Proof.
  intros. exists (take (Z.to_nat off) l), (drop (Z.to_nat off) l).
  rewrite take_drop. split_and!; try done.
  unfold zlen in *. rewrite length_take. lia.
Qed.

(** Deleting through [record_apply] from [offset] on keeps the records
    before it and those the callback does not match, as the callback leaves
    them and in their order, shrinks the file to them, and returns how many it
    removed; the callback sees every record once. *)
Theorem record_apply_deletes rec cb offset args :
  mmap_ok sys = true -> truncate_ok sys = true -> 0 <= offset <= zlen (file rec) ->
  record_apply sys rec None offset cb args true =
    let '(kept, n, args') := deleted cb (drop (Z.to_nat offset) (file rec)) offset args in
    Done (n, set_file (take (Z.to_nat offset) (file rec) ++ kept) rec, args').
Proof.
  intros Hm Ht Ho. destruct (take_drop_zlen _ _ Ho) as (d & l & Hf & Hd & -> & ->).
  unfold record_apply. rewrite Hm. cbn [check_offset mbind outcome_bind]. rewrite Hf.
  destruct (apply_loop_delete cb l (Z.to_nat (zlen (d ++ l) - offset) + 1) d [] offset 0 args)
    as [g Hg]; [rewrite zlen_app; unfold zlen in *; lia|rewrite zlen_nil; lia|done|].
  destruct (deleted cb l offset args) as [[kept n] args'].
  destruct Hg as [Hg Hn]. cbn [app] in Hg. rewrite Hg. cbn [mbind outcome_bind].
  rewrite Ht, andb_true_r, andb_true_r. do 4 f_equal. rewrite Z.add_0_l in *.
  destruct (Z.eqb_spec n 0) as [->|Hn0]; cbn [negb].
  - assert (g = []) as -> by (destruct g; [done|rewrite zlen_cons in Hn; pose proof (zlen_nonneg g); lia]).
    by rewrite app_nil_r.
  - rewrite app_assoc, zlen_app, Hn.
    replace (zlen (d ++ kept) + n - n) with (zlen (d ++ kept)) by lia.
    by rewrite to_nat_zlen, take_app_length.
Qed.

(** A record file is sorted by a total preorder. *)
Context (cmp : R -> R -> Z) `{!Transitive (cmp_le cmp)} `{!Total (cmp_le cmp)}.

(** Merging new records into a sorted file leaves a sorted file holding
    exactly the old and the new records, whatever order the new ones come in. *)
Theorem record_merge_sorted f p len new :
  mmap_ok sys = true -> truncate_ok sys = true -> StronglySorted (cmp_le cmp) f ->
  exists f', record_merge sys hole (Rec f p len cmp) new = Done (0, Rec f' p len cmp) /\
    StronglySorted (cmp_le cmp) f' /\ f' ≡ₚ f ++ new.
Proof.
  intros Hm Ht Sf. unfold record_merge. cbn [file Record.cmp]. rewrite Hm, Ht.
  destruct (Z.leb_spec (zlen new) 0) as [Hn|Hn].
  { exists f. assert (new = []) as -> by (destruct new; [done|unfold zlen in Hn; cbn in Hn; lia]).
    by rewrite app_nil_r. }
  pose proof (merge_sort_Permutation (cmp_le cmp) new) as Hperm.
  fold (qsort cmp new) in Hperm. pose proof (Permutation_length Hperm) as Hlen.
  destruct (merging_spec cmp (length f + length new + 1) f (qsort cmp new) []
    (replicate (length new) hole) []) as (res & Hr & Sr & Hp); try done.
  - lia.
  - unfold zlen. rewrite length_replicate. lia.
  - apply StronglySorted_merge_sort; apply _.
  - constructor.
  - intros x y _ Hy. by apply not_elem_of_nil in Hy.
  - unfold merging in Hr. rewrite !app_nil_r in *. exists res.
    replace (zlen f + zlen new - 1) with (zlen f + zlen (replicate (length new) hole) - 1)
      by (unfold zlen; rewrite length_replicate; lia).
    replace (zlen new - 1) with (zlen (qsort cmp new) - 1) by (unfold zlen; lia).
    rewrite Hr. cbn. split; [done|]. split; [done|]. by rewrite Hp, Hperm.
Qed.
End Operations.

(** * Scans in blocks *)
Section Blocks.
Context {R S : Type} (sys : system).
Implicit Types (rec : record_t R) (filter : @record_filter_t R).
Hypothesis reads : forall p, read_ok sys p = true.
Variable block : Z.
Hypothesis block_pos : 0 < block.

(** A read within the file returns a block, or the shorter rest. *)
Lemma read_block rec : 0 <= pos rec <= zlen (file rec) ->
  let q := Z.min (pos rec + block) (zlen (file rec)) in
  exists data, record_read sys rec block = (q - pos rec, data, set_pos q rec) /\
    zlen data = q - pos rec /\
    drop (Z.to_nat (pos rec)) (file rec) = data ++ drop (Z.to_nat q) (file rec).
Proof.
  intros Hp q. exists (take (Z.to_nat block) (drop (Z.to_nat (pos rec)) (file rec))).
  assert (zlen (take (Z.to_nat block) (drop (Z.to_nat (pos rec)) (file rec))) = q - pos rec)
    as Hl by (unfold zlen in *; rewrite length_take, length_drop; lia).
  unfold record_read. rewrite reads. zcase. rewrite Hl. split_and!; try done.
  - do 2 f_equal. lia.
  - rewrite <- (take_drop (Z.to_nat block) (drop _ _)) at 1. f_equal. rewrite drop_drop.
    unfold zlen in *. subst q.
    destruct (Z.min_spec (pos rec + block) (Z.of_nat (length (file rec)))) as [[? ->]|[? ->]].
    + f_equal. lia.
    + rewrite !drop_ge by lia. done.
Qed.

Lemma search_block_app filter l k base :
  search_block filter (l ++ k) base =
    match search_block filter l base with
    | Some found => Some found
    | None => search_block filter k (base + zlen l)
    end.
Proof.
  revert base. induction l as [|r l IH]; intros base; cbn.
  - by rewrite zlen_nil, Z.add_0_r.
  - rewrite IH, zlen_cons, Z.add_assoc. by destruct (filter r base).
Qed.

Lemma search_block_reverse_app filter l k top :
  search_block_reverse filter (l ++ k) top =
    match search_block_reverse filter l top with
    | Some found => Some found
    | None => search_block_reverse filter k (top - zlen l)
    end.
Proof.
  revert top. induction l as [|r l IH]; intros top; cbn.
  - by rewrite zlen_nil, Z.sub_0_r.
  - rewrite IH, zlen_cons, Z.sub_add_distr. by destruct (filter r top).
Qed.

Lemma search_forward_scan filter rounds : forall rec base,
  0 <= base -> pos rec = Z.min base (zlen (file rec)) ->
  zlen (file rec) - base <= Z.of_nat rounds * block ->
  search_forward sys rounds block filter rec base =
    default (-1, None) (search_block filter (drop (Z.to_nat base) (file rec)) base).
Proof.
  induction rounds as [|rounds IH]; intros rec base Hb Hp Hr.
  { rewrite drop_ge by (unfold zlen in Hr; lia). done. }
  pose proof (zlen_nonneg (file rec)).
  destruct (read_block rec) as (data & Hrd & Hl & Hd); [lia|].
  cbn [search_forward]. rewrite Hrd. zcase.
  { rewrite drop_ge by (unfold zlen in *; lia). done. }
  replace (pos rec) with base in * by lia.
  rewrite Hd, search_block_app. destruct (search_block filter data base); [done|].
  rewrite IH; cbn [file pos set_pos]; [|lia..].
  rewrite Hl. destruct (Z.le_gt_cases (base + block) (zlen (file rec))).
  - repeat f_equal; lia.
  - rewrite !drop_ge by (unfold zlen in *; lia). done.
Qed.

Lemma search_reverse_scan filter rounds : forall rec all,
  0 <= all <= zlen (file rec) -> Z.of_nat rounds * block < all + block ->
  search_reverse sys rounds block all filter rec =
    let n := Z.min all (Z.of_nat rounds * block) in
    default (-1, None)
      (search_block_reverse filter (reverse (take (Z.to_nat n) (file rec))) (n - 1)).
Proof.
  induction rounds as [|rounds IH]; intros rec all Ha Hr.
  { replace (Z.min all (Z.of_nat 0 * block)) with 0 by lia. done. }
  set (base := Z.of_nat rounds * block) in *.
  destruct (read_block (set_pos base rec)) as (data & Hrd & Hl & Hd); cbn [pos set_pos file] in *;
    [lia|].
  cbn [search_reverse]. unfold record_seek. fold base. rewrite Z.add_0_l.
  assert ((base <? 0) = false) as -> by lia. rewrite Hrd.
  assert ((Z.min (base + block) (zlen (file rec)) - base <=? 0) = false) as -> by lia.
  set (n := Z.min all (Z.of_nat (Datatypes.S rounds) * block)).
  replace (if _ <? _ then _ else _) with (n - base) by (zcase; lia).
  assert (take (Z.to_nat n) (file rec) =
    take (Z.to_nat base) (file rec) ++ take (Z.to_nat (n - base)) data) as ->.
  { replace (Z.to_nat n) with (Z.to_nat base + Z.to_nat (n - base))%nat by lia.
    rewrite <- take_take_drop, Hd. f_equal. rewrite take_app_le; [done|].
    unfold zlen in *. lia. }
  rewrite reverse_app, search_block_reverse_app.
  replace (base + (n - base) - 1) with (n - 1) by lia.
  destruct (search_block_reverse filter (reverse (take _ data)) (n - 1)); [done|].
  rewrite IH; cbn [file set_pos]; [|lia..]. fold base. cbv zeta.
  replace (Z.min all base) with base by lia.
  replace (n - 1 - _) with (base - 1); [done|].
  unfold zlen in *. rewrite length_reverse, length_take. lia.
Qed.

(** Callbacks over consecutive blocks. *)
Lemma foreach_block_app (cb : @record_callback_t R S) l k offset matched args :
  foreach_block cb (l ++ k) offset matched args =
    let '(stop, offset, matched, args) := foreach_block cb l offset matched args in
    if (stop : bool) then (true, offset, matched, args)
    else foreach_block cb k offset matched args.
Proof.
  revert offset matched args. induction l as [|r l IH]; intros; cbn; [done|].
  destruct (cb r args offset) as [[[] r'] args']; by rewrite ?IH.
Qed.

Lemma foreach_loop_scan (cb : @record_callback_t R S) fuel : forall rec offset matched args,
  0 <= pos rec <= zlen (file rec) -> zlen (file rec) - pos rec < Z.of_nat fuel ->
  foreach_loop sys fuel block cb rec None offset matched args =
    let '(_, _, matched, args) :=
      foreach_block cb (drop (Z.to_nat (pos rec)) (file rec)) offset matched args in
    Done (matched, args).
Proof.
  induction fuel as [|fuel IH]; intros rec offset matched args Hp Hf; [lia|].
  destruct (read_block rec) as (data & Hrd & Hl & ->); [done|].
  cbn [foreach_loop]. rewrite Hrd, foreach_block_app. zcase.
  destruct (foreach_block cb data offset matched args) as [[[stop o] m] a].
  destruct stop; [done|]. zcase.
  - rewrite IH; cbn [pos file set_pos]; [done|lia|lia].
  - rewrite drop_ge by (unfold zlen in *; lia). done.
Qed.

Lemma reverse_block_app (cb : @record_callback_t R S) l k top matched args :
  reverse_block cb (l ++ k) top matched args =
    let '(stop, matched, args) := reverse_block cb l top matched args in
    if (stop : bool) then (true, matched, args)
    else reverse_block cb k (top - zlen l) matched args.
Proof.
  revert top matched args. induction l as [|r l IH]; intros; cbn.
  { by rewrite zlen_nil, Z.sub_0_r. }
  rewrite zlen_cons, Z.sub_add_distr.
  destruct (cb r args top) as [[[] r'] args']; by rewrite ?IH.
Qed.

Lemma read_after_start rec : record_read_after sys rec block 0 =
  let data := take (Z.to_nat block) (drop 0 (file rec)) in
  (zlen data, data, set_pos (0 + zlen data) rec).
Proof.
  unfold record_read_after, record_seek.
  assert ((block <? 0) = false) as -> by lia.
  change (0 + 0) with 0. change (0 <? 0) with false. cbv beta iota.
  change (0 <? 0) with false. cbv beta iota. unfold record_read. rewrite reads. assert ((block <? 0) = false) as -> by lia.
  cbn [pos file set_pos Z.to_nat]. rewrite (proj2 (Z.ltb_ge _ 0)) by apply zlen_nonneg. done.
Qed.

(** The block read before [offset]; it ends at [offset] unless [offset] is
    within the first block of a longer file. *)
Lemma read_before rec offset : 0 < offset <= zlen (file rec) ->
  let o := if offset - block <? 0 then 0 else offset - block in
  exists data, record_read_after sys rec block o =
      (zlen data, data, set_pos (o + zlen data) rec) /\
    zlen data = Z.min block (zlen (file rec) - o) /\ 0 <= o < offset /\
    take (Z.to_nat (o + zlen data)) (file rec) = take (Z.to_nat o) (file rec) ++ data.
Proof.
  intros Ho o. assert (0 <= o < offset) as Ho' by (subst o; zcase; lia).
  destruct (read_block (set_pos o rec)) as (data & Hrd & Hl & Hd); cbn [pos set_pos file] in *;
    [lia|]. exists data.
  unfold record_read_after, record_seek. rewrite Z.add_0_l.
  assert ((block <? 0) = false) as -> by lia. assert ((o <? 0) = false) as -> by lia.
  rewrite (proj2 (Z.ltb_ge o 0)), Hrd by lia. zcase. split_and!; try lia.
  - rewrite Hl.
    replace (o + (_ - o)) with (Z.min (o + block) (zlen (file rec))) by lia. done.
  - rewrite Z2Nat.inj_add, <- take_take_drop, Hd by (unfold zlen; lia). f_equal.
    by rewrite to_nat_zlen, take_app_length.
Qed.

Lemma reverse_loop_scan (cb : @record_callback_t R S) fuel : forall rec offset matched args,
  0 < offset <= zlen (file rec) -> offset <= Z.of_nat fuel ->
  offset mod block = 0 \/ (offset = zlen (file rec) /\ offset <= block) ->
  reverse_loop sys fuel block cb rec offset matched args =
    let '(_, matched, args) :=
      reverse_block cb (reverse (take (Z.to_nat offset) (file rec))) (offset - 1) matched args in
    Done (matched, args).
Proof.
  induction fuel as [|fuel IH]; intros rec offset matched args Ho Hf Hm; [lia|].
  destruct (read_before rec offset Ho) as (data & Hrd & Hl & Ho' & Ht).
  cbn [reverse_loop]. cbv zeta. set (o := if _ <? _ then _ else _) in *. rewrite Hrd.
  assert (o = Z.max 0 (offset - block)) as Hmax by (subst o; zcase; lia). clearbody o.
  assert (o + zlen data = offset /\ o mod block = 0) as [Hod Hom].
  { destruct Hm as [Hm|Hm].
    - apply Z.mod_divide in Hm as [k ->]; [|lia].
      assert (0 < k) by (apply (Z.mul_pos_cancel_r k block); lia).
      assert (block <= k * block) by nia. split; [lia|].
      replace o with ((k - 1) * block) by lia. apply Z.mod_mul. lia.
    - replace o with 0 by lia. rewrite Z.mod_0_l; lia. }
  rewrite Hod in *. rewrite Ht, reverse_app, reverse_block_app. zcase.
  destruct (reverse_block cb (reverse data) (offset - 1) matched args) as [[stop m] a].
  destruct stop; [done|]. zcase.
  - rewrite IH; cbn [file set_pos]; [|lia|lia|by left].
    replace (offset - 1 - zlen (reverse data)) with (o - 1); [done|].
    unfold zlen in *. rewrite length_reverse. lia.
  - replace o with 0 by lia. done.
Qed.

(** When every record matches, the matches count the records visited. *)
Lemma reverse_block_all_match (cb : @record_callback_t R S)
    (matches : forall r a o, (cb r a o).1.1 = MATCH) l : forall top matched args,
  exists args', reverse_block cb l top matched args = (false, matched + zlen l, args').
Proof.
  induction l as [|r l IH]; intros top matched args; cbn.
  - exists args. by rewrite zlen_nil, Z.add_0_r.
  - specialize (matches r args top). destruct (cb r args top) as [[res r'] args']. cbn in matches.
    subst res. destruct (IH (top - 1) (matched + 1) args') as [a ->]. exists a.
    rewrite zlen_cons. do 2 f_equal. lia.
Qed.

Lemma reverse_loop_all_match (cb : @record_callback_t R S)
    (matches : forall r a o, (cb r a o).1.1 = MATCH) fuel : forall rec offset matched args,
  block <= zlen (file rec) -> 0 < offset <= zlen (file rec) -> offset <= Z.of_nat fuel ->
  exists args', reverse_loop sys fuel block cb rec offset matched args =
    Done (matched + block * ((offset + block - 1) / block), args').
Proof.
  induction fuel as [|fuel IH]; intros rec offset matched args Hb Ho Hf; [lia|].
  destruct (read_before rec offset Ho) as (data & Hrd & Hl & Ho' & _).
  cbn [reverse_loop]. cbv zeta. set (o := if _ <? _ then _ else _) in *. rewrite Hrd. zcase.
  destruct (reverse_block_all_match cb matches (reverse data) (o + zlen data - 1) matched args)
    as [a ->].
  replace (zlen (reverse data)) with block by (unfold zlen in *; rewrite length_reverse; subst o; case_match; lia).
  destruct (Z.ltb_spec (offset - block) 0) as [Hlt|Hge]; subst o.
  - exists a. rewrite <- (Z.div_unique (offset + block - 1) block 1 (offset - 1)) by lia.
    by rewrite Z.mul_1_r.
  - replace (offset + block - 1) with (offset - 1 + 1 * block) by lia. rewrite Z.div_add by lia.
    destruct (Z.ltb_spec 0 (offset - block)).
    + destruct (IH (set_pos (offset - block + zlen data) rec) (offset - block)
        (matched + block) a) as [a' ->]; cbn [file set_pos]; [lia..|].
      exists a'. replace (offset - block + block - 1) with (offset - 1) by lia. do 2 f_equal. lia.
    + exists a. rewrite Z.div_small by lia. do 2 f_equal. lia.
Qed.
End Blocks.

Section Visiting.
Context {R S : Type} (sys : system).
Implicit Types (rec : record_t R) (cb : @record_callback_t R S) (filter : @record_filter_t R).
Context (reads : forall p, read_ok sys p = true) (stats : stat_ok sys = true).

(** What a search scans, in one piece: the records after [offset], or all of
    them; backwards, the records before [offset], or all of them. *)
Definition scan filter (f : list R) (offset : Z) (reverse : bool) : option (Z * option R) :=
  if reverse then
    let n := if offset <? 0 then zlen f else offset in
    search_block_reverse filter (list.reverse (take (Z.to_nat n) f)) (n - 1)
  else
    let start := Z.max 0 (offset + 1) in
    search_block filter (drop (Z.to_nat start) f) start.

Lemma block_pos len : 0 < len <= RECORD_BUFFER_SIZE -> 0 < RECORD_BUFFER_SIZE / len.
Proof. unfold RECORD_BUFFER_SIZE. intros. apply Z.div_str_pos. lia. Qed.

Lemma rounds_enough all block : 0 < all -> 0 < block ->
  let rounds := Z.of_nat (Z.to_nat ((all + block - 1) / block)) in
  all <= rounds * block < all + block.
Proof.
  intros Ha Hb rounds. subst rounds.
  pose proof (Z.div_mod (all + block - 1) block ltac:(lia)).
  pose proof (Z.mod_pos_bound (all + block - 1) block ltac:(lia)).
  assert (0 <= (all + block - 1) / block) by (apply Z.div_pos; lia). nia.
Qed.

(** Reading the file in blocks does not show in a search: it returns the
    first match of one scan over the records after [offset], or the last match
    before it, whatever the record length. *)
Theorem record_search_copy_scan rec filter offset reverse :
  0 < rlen rec <= RECORD_BUFFER_SIZE -> offset <= zlen (file rec) ->
  record_search_copy sys rec filter offset reverse
    = default (-1, None) (scan filter (file rec) offset reverse).
Proof.
  intros Hlen Ho. apply block_pos in Hlen. pose proof (zlen_nonneg (file rec)).
  unfold record_search_copy, record_count, scan. rewrite stats.
  set (block := RECORD_BUFFER_SIZE / rlen rec) in *. set (all := if 0 <=? offset then _ else _).
  destruct reverse.
  - assert (all = if offset <? 0 then zlen (file rec) else offset) as <-
      by (subst all; repeat zcase; lia).
    assert (0 <= all <= zlen (file rec)) by (subst all; repeat zcase; lia). clearbody all.
    destruct (Z.leb_spec all 0); [by replace all with 0 by lia|].
    pose proof (rounds_enough all block ltac:(lia) ltac:(lia)) as Hr. cbv zeta in Hr.
    rewrite (search_reverse_scan sys reads); [|lia..].
    by rewrite Z.min_l by lia.
  - assert (all = zlen (file rec) - Z.max 0 (offset + 1)) as -> by (subst all; repeat zcase; lia).
    replace (if offset + 1 <? 0 then 0 else offset + 1) with (Z.max 0 (offset + 1))
      by (zcase; lia).
    set (start := Z.max 0 (offset + 1)). destruct (Z.leb_spec (zlen (file rec) - start) 0).
    { rewrite drop_ge by (unfold zlen in *; lia). done. }
    pose proof (rounds_enough (zlen (file rec) - start) block ltac:(lia) ltac:(lia)) as Hr.
    cbv zeta in Hr.
    unfold record_seek. rewrite Z.add_0_l. rewrite (proj2 (Z.ltb_ge start 0)) by lia.
    rewrite (search_forward_scan sys reads); cbn [pos file set_pos]; try done; lia.
Qed.

(** [record_foreach] from an offset calls the callback on each record from
    there to the end, in order, until it breaks; the blocks do not show. *)
Theorem record_foreach_visits rec cb offset args :
  0 < rlen rec <= RECORD_BUFFER_SIZE -> 0 <= offset <= zlen (file rec) ->
  record_foreach sys rec None offset cb args =
    let '(_, _, matched, args') :=
      foreach_block cb (drop (Z.to_nat offset) (file rec)) offset 0 args in
    Done (matched, args').
Proof.
  intros Hlen Ho. apply block_pos in Hlen. unfold record_foreach, record_seek.
  rewrite Z.add_0_l, (proj2 (Z.ltb_ge offset 0)) by lia.
  rewrite (foreach_loop_scan sys reads); cbn [pos file set_pos]; try done. unfold zlen in *. lia.
Qed.

(** When the first record read at [offset] is after the one asked for and
    the read does not fill a block, [record_foreach] visits nothing: the
    [continue] meant to restart from the first record meets the loop's
    condition, which ends it. *)
Theorem record_foreach_stale_offset rec cb ptr offset args r :
  0 < rlen rec <= RECORD_BUFFER_SIZE -> 0 <= offset ->
  file rec !! Z.to_nat offset = Some r -> 0 < cmp rec r ptr ->
  zlen (file rec) - offset < RECORD_BUFFER_SIZE / rlen rec ->
  record_foreach sys rec (Some ptr) offset cb args = Done (0, args).
Proof.
  intros Hlen Ho Hr Hc Hb. pose proof (block_pos _ Hlen) as Hpos.
  unfold record_foreach. set (block := RECORD_BUFFER_SIZE / rlen rec) in *.
  apply lookup_lt_Some in Hr as Hlt.
  unfold record_seek. rewrite Z.add_0_l, (proj2 (Z.ltb_ge offset 0)) by lia.
  cbv beta iota.
  replace (2 * length _ + 3)%nat with (Datatypes.S (2 * length (file rec) + 2)) by (cbn; lia).
  cbn [foreach_loop].
  destruct (read_block sys reads block Hpos (set_pos offset rec)) as (data & -> & Hl & Hd);
    cbn [pos set_pos file] in *; [unfold zlen in *; lia|]. unfold zlen in *. zcase.
  rewrite (drop_S _ r) in Hd by done. destruct data as [|r' data]; [cbn in Hl; lia|].
  injection Hd as <- _. cbn [cmp set_pos Record.cmp]. zcase. zcase. done.
Qed.

(** Backwards, a file of whole blocks, or of at most one, is visited from
    its last record to its first. *)
Theorem record_reverse_foreach_visits rec cb args :
  0 < rlen rec <= RECORD_BUFFER_SIZE ->
  let block := RECORD_BUFFER_SIZE / rlen rec in
  zlen (file rec) <= block \/ zlen (file rec) mod block = 0 ->
  record_reverse_foreach sys rec cb args =
    let '(_, matched, args') :=
      reverse_block cb (reverse (file rec)) (zlen (file rec) - 1) 0 args in
    Done (matched, args').
Proof.
  intros Hlen block Hb. apply block_pos in Hlen. fold block in Hlen.
  unfold record_reverse_foreach, record_count. rewrite stats. fold block.
  pose proof (zlen_nonneg (file rec)).
  destruct (decide (zlen (file rec) = 0)) as [Hz|Hz].
  - assert (file rec = []) as Hf by (destruct (file rec); [done|unfold zlen in Hz; cbn in Hz; lia]).
    rewrite Hf. cbn [length Nat.add reverse_loop]. rewrite zlen_nil. cbv zeta.
    assert ((if 0 - block <? 0 then 0 else 0 - block) = 0) as -> by (zcase; lia).
    rewrite (read_after_start sys reads block Hlen), Hf. cbv zeta.
    by rewrite drop_nil, take_nil.
  - rewrite (reverse_loop_scan sys reads block Hlen) by (unfold zlen in *; lia).
    by rewrite to_nat_zlen, firstn_all.
Qed.

(** A longer file whose last block is partial is not: when every record
    matches, more are counted than the file has, the last block being read
    where it overlaps the one before it. *)
Theorem record_reverse_foreach_revisits rec cb args :
  0 < rlen rec <= RECORD_BUFFER_SIZE -> (forall r a o, (cb r a o).1.1 = MATCH) ->
  let block := RECORD_BUFFER_SIZE / rlen rec in
  block < zlen (file rec) -> zlen (file rec) mod block <> 0 ->
  exists n args', record_reverse_foreach sys rec cb args = Done (n, args') /\
    zlen (file rec) < n.
Proof.
  intros Hlen Hcb block Hb Hm. apply block_pos in Hlen. fold block in Hlen.
  unfold record_reverse_foreach, record_count. rewrite stats. fold block.
  destruct (reverse_loop_all_match sys reads block Hlen cb Hcb (length (file rec) + 1) rec
    (zlen (file rec)) 0 args) as [args' ->]; [unfold zlen in *; lia..|].
  eexists _, args'. split; [done|].
  pose proof (Z.div_mod (zlen (file rec) + block - 1) block ltac:(lia)).
  pose proof (Z.mod_pos_bound (zlen (file rec) + block - 1) block ltac:(lia)).
  pose proof (Z.div_mod (zlen (file rec)) block ltac:(lia)).
  destruct (decide ((zlen (file rec) + block - 1) mod block = block - 1)) as [He|He]; [|lia].
  exfalso. apply Hm. rewrite <- (Z.mod_add _ 1 block) in Hm by lia.
  replace (zlen (file rec)) with (block * ((zlen (file rec) + block - 1) / block)) by lia.
  rewrite Z.mul_comm, Z.mod_mul; lia.
Qed.
End Visiting.

(** * Witnesses: records of one integer *)
Module Witness.
Ltac close := repeat split; (vm_compute; congruence).
Definition sys : system := System true (fun _ => true) true true true true.
Definition cmp (a b : Z) : Z := a - b.
#[local] Instance cmp_trans : Transitive (cmp_le cmp).
Proof. intros a b c. unfold cmp_le, cmp. lia. Defined.
#[local] Instance cmp_total : Total (cmp_le cmp).
Proof. intros a b. unfold cmp_le, cmp. lia. Defined.
Definition rec (len : Z) (f : list Z) : record_t Z := Rec f 0 len cmp.
Definition cb_even : @record_callback_t Z (list Z) :=
  fun r seen p => (if Z.even r then MATCH else CONTINUE, r, p :: seen).
Definition cb_all : @record_callback_t Z (list Z) := fun r seen p => (MATCH, r, p :: seen).

Lemma record_apply_deletes_witness :
  record_apply sys (rec 4 [1; 2; 3; 4; 5]) None 1 cb_even [] true
    = Done (2, rec 4 [1; 3; 5], [4; 3; 2; 1]).
Proof.
  rewrite (record_apply_deletes sys (rec 4 [1; 2; 3; 4; 5]) cb_even 1 []);
    [vm_compute; done|done|done|done].
Defined.

Lemma record_merge_sorted_witness :
  exists f', record_merge sys 0 (rec 4 [1; 4]) [5; 2] = Done (0, rec 4 f') /\
    StronglySorted (cmp_le cmp) f' /\ f' ≡ₚ [1; 4; 5; 2].
Proof.
  apply (record_merge_sorted sys 0 cmp [1; 4] 0 4 [5; 2]); [done|done|].
  repeat constructor; cbn; unfold cmp_le, cmp; lia.
Defined.

Lemma record_search_copy_scan_witness :
  record_search_copy sys (rec 4096 [1; 2; 3; 4; 5])
    (fun r _ => if Z.even r then MATCH else CONTINUE) 1 false = (3, Some 4) /\
  record_search_copy sys (rec 4096 [1; 2; 3; 4; 5])
    (fun r _ => if Z.even r then MATCH else CONTINUE) (-1) true = (3, Some 4).
Proof.
  split; apply (record_search_copy_scan sys (fun _ => eq_refl) eq_refl
    (rec 4096 [1; 2; 3; 4; 5])); close.
Defined.

Lemma record_foreach_visits_witness :
  record_foreach sys (rec 4096 [1; 2; 3; 4; 5]) None 1 cb_even [] = Done (2, [4; 3; 2; 1]).
Proof.
  rewrite (record_foreach_visits sys (fun _ => eq_refl) (rec 4096 [1; 2; 3; 4; 5]) cb_even 1 []);
    close.
Defined.

Lemma record_foreach_stale_offset_witness :
  record_foreach sys (rec 4 [1; 2; 3]) (Some 1) 1 cb_all [] = Done (0, []).
Proof.
  apply (record_foreach_stale_offset sys (fun _ => eq_refl) (rec 4 [1; 2; 3]) cb_all 1 1 [] 2);
    close.
Defined.

Lemma record_reverse_foreach_visits_witness :
  record_reverse_foreach sys (rec 4096 [1; 2; 3; 4]) cb_even [] = Done (2, [0; 1; 2; 3]).
Proof.
  rewrite (record_reverse_foreach_visits sys (fun _ => eq_refl) eq_refl
    (rec 4096 [1; 2; 3; 4]) cb_even []);
    [close|close|by right].
Defined.

Lemma record_reverse_foreach_revisits_witness : exists n args',
  record_reverse_foreach sys (rec 4096 [1; 2; 3]) cb_all [] = Done (n, args') /\ 3 < n.
Proof.
  apply (record_reverse_foreach_revisits sys (fun _ => eq_refl) eq_refl (rec 4096 [1; 2; 3]));
    [close|done|done|done].
Defined.
End Witness.
