(* ===== verification/CString.v ===== *)
(** Byte strings, mostly GBK: [lib/string.c] up to its UTF-8 part.

    A pointer is an index into the object it points into; where source and
    destination may be the same buffer, both are indices of one object. *)
From S2P Require Import Prelude.

(** * Case *)

(** Copy up to the NUL through [f], to which a [char] is passed as the signed
    value it has. *)
Fixpoint convert_loop (f : Z -> Z) (fuel : nat) (m : list Z) (dst src : Z)
    : outcome (list Z) :=
  match fuel with
  | O => NoFuel
  | S fuel =>
      c ← rd m src;
      if c =? 0 then wr m dst 0
      else m ← wr m dst (f (schar c));
           convert_loop f fuel m (dst + 1) (src + 1)
  end.

Definition strtolower (m : list Z) (dst src : option Z) : outcome (option Z * list Z) :=
  match dst, src with
  | Some dst, Some src =>
      m ← convert_loop tolower (length m + 1) m dst src; Done (Some dst, m)
  | _, _ => Done (None, m)
  end.

Definition strtoupper (m : list Z) (dst src : option Z) : outcome (option Z * list Z) :=
  match dst, src with
  | Some dst, Some src =>
      m ← convert_loop toupper (length m + 1) m dst src; Done (Some dst, m)
  | _, _ => Done (None, m)
  end.

(** * Searching *)

Fixpoint strncasecmp_loop (fuel : nat) (m1 m2 : list Z) (s1 s2 n l : Z) : outcome Z :=
  match fuel with
  | O => NoFuel
  | S fuel =>
      a ← rd m1 s1;
      more ← (if a =? 0 then Done false
              else b ← rd m2 s2; Done (negb (b =? 0) && (l <? n)));
      if (more : bool) then
        b ← rd m2 s2;
        let c1 := tolower (schar a) in
        let c2 := tolower (schar b) in
        if negb (c1 =? c2) then Done (c1 - c2)
        else if Z.land c1 128 =? 0 then
          strncasecmp_loop fuel m1 m2 (s1 + 1) (s2 + 1) n (l + 1)
        else
          a ← rd m1 (s1 + 1);
          b ← rd m2 (s2 + 1);
          if a =? b then strncasecmp_loop fuel m1 m2 (s1 + 2) (s2 + 2) n (l + 2)
          else Done (schar a - schar b)
      else Done (if l =? n then 0 else -1)
  end.

Definition strncasecmp_gbk (m1 m2 : list Z) (s1 s2 n : Z) : outcome Z :=
  strncasecmp_loop (length m1 + 1) m1 m2 s1 s2 n 0.

Fixpoint strcasestr_loop (fuel : nat) (h n : list Z) (haystack needle hlength nlength i : Z)
    : outcome (option Z) :=
  match fuel with
  | O => NoFuel
  | S fuel =>
      if i <=? hlength - nlength then
        r ← strncasecmp_gbk h n (haystack + i) needle nlength;
        if r =? 0 then Done (Some (haystack + i))
        else
          c ← rd h (haystack + i);
          let i := if Z.land (schar c) 128 =? 0 then i else i + 1 in
          strcasestr_loop fuel h n haystack needle hlength nlength (i + 1)
      else Done None
  end.

(** [haystack] points into [h], [needle] into [n]. *)
Definition strcasestr_gbk (h n : list Z) (haystack needle : option Z) : outcome (option Z) :=
  match haystack, needle with
  | Some haystack, Some needle =>
      nlength ← strlen n needle;
      hlength ← strlen h haystack;
      if hlength <? nlength then Done None
      else if hlength <=? 0 then Done None
      else if nlength <=? 0 then Done (Some haystack)
      else strcasestr_loop (length h + 1) h n haystack needle hlength nlength 0
  | _, _ => Done None
  end.

(** * Filtering *)

Fixpoint ansi_loop (fuel : nat) (m : list Z) (dst src : Z) (flag : bool) : outcome (list Z) :=
  match fuel with
  | O => NoFuel
  | S fuel =>
      c ← rd m src;
      if c =? 0 then wr m dst 0
      else if c =? 27 then ansi_loop fuel m dst (src + 1) true
      else if negb flag then
        m ← wr m dst c; ansi_loop fuel m (dst + 1) (src + 1) flag
      else ansi_loop fuel m dst (src + 1) (if isalpha (schar c) then false else flag)
  end.

Definition string_remove_ansi_control_code (m : list Z) (dst src : option Z)
    : outcome (option Z * list Z) :=
  match dst, src with
  | Some dst, Some src =>
      m ← ansi_loop (length m + 1) m dst src false; Done (Some dst, m)
  | _, _ => Done (None, m)
  end.

Definition isprint2 (ch : Z) : bool :=
  let c := u8 ch in
  (negb (Z.land c 128 =? 0) && negb (c =? 255)) || isprint c.

Fixpoint non_printable_loop (fuel : nat) (m : list Z) (dst str : Z) : outcome (list Z) :=
  match fuel with
  | O => NoFuel
  | S fuel =>
      c ← rd m str;
      if c =? 0 then wr m dst 0
      else if isprint2 (schar c) then
        m ← wr m dst c; non_printable_loop fuel m (dst + 1) (str + 1)
      else non_printable_loop fuel m dst (str + 1)
  end.

Definition string_remove_non_printable_gbk (m : list Z) (str : option Z)
    : outcome (list Z) :=
  match str with
  | None => Done m
  | Some str => non_printable_loop (length m + 1) m str str
  end.

(** * Shortening *)

(** The first loop: the pointer, and whether it is inside a GBK character. *)
Fixpoint ellipsis_skip (fuel : nat) (m : list Z) (ptr i : Z) (inGBK : bool)
    : outcome (Z * bool) :=
  match fuel with
  | O => NoFuel
  | S fuel =>
      c ← rd m ptr;
      if (c =? 0) || (i =? 0) then Done (ptr, inGBK)
      else
        let inGBK := if inGBK then false else negb (Z.land (schar c) 128 =? 0) in
        ellipsis_skip fuel m (ptr + 1) (i - 1) inGBK
  end.

(** The second loop, which increments the pointer before it reads. *)
Fixpoint ellipsis_tail (fuel : nat) (m : list Z) (ptr i : Z) : outcome (Z * Z) :=
  match fuel with
  | O => NoFuel
  | S fuel =>
      c ← rd m (ptr + 1);
      if c =? 0 then Done (ptr + 1, i)
      else if i - 1 =? 0 then Done (ptr + 1, 0)
      else ellipsis_tail fuel m (ptr + 1) (i - 1)
  end.

Definition ellipsis (m : list Z) (str : option Z) (len : Z) : outcome (Z * list Z) :=
  match str with
  | None => Done (0, m)
  | Some str =>
      if len <? 0 then Done (0, m)
      else if len <? 3 then m ← wr m (str + len) 0; Done (1, m)
      else
        '(ptr, inGBK) ← ellipsis_skip (length m + 1) m str (len - 3) false;
        '(ptr, i) ← ellipsis_tail 4 m ptr 3;
        c ← rd m ptr;
        if negb (c =? 0) && (i =? 0) then
          m ← wr m (str + len) 0;
          m ← wr m (ptr - 1) 46;
          m ← wr m (ptr - 2) 46;
          if negb inGBK then
            c ← rd m (ptr - 3);
            if Z.land (schar c) 128 =? 0 then Done (1, m)
            else m ← wr m (ptr - 3) 46; Done (1, m)
          else Done (1, m)
        else Done (1, m)
  end.

(** The byte at [ptr] is read before [ptr] is compared with the start. *)
Fixpoint trim_right (fuel : nat) (m : list Z) (ustr ptr : Z) : outcome Z :=
  match fuel with
  | O => NoFuel
  | S fuel =>
      c ← rd m ptr;
      if (c <=? 32) && (ustr <=? ptr) then trim_right fuel m ustr (ptr - 1)
      else Done ptr
  end.

Fixpoint trim_left (fuel : nat) (m : list Z) (left : Z) : outcome Z :=
  match fuel with
  | O => NoFuel
  | S fuel =>
      c ← rd m left;
      if (c <=? 32) && negb (c =? 0) then trim_left fuel m (left + 1) else Done left
  end.

Definition rtrim (m : list Z) (str : option Z) : outcome (option Z * list Z) :=
  match str with
  | None => Done (None, m)
  | Some ustr =>
      len ← strlen m ustr;
      ptr ← trim_right (Z.to_nat len + 2) m ustr (ustr + len);
      m ← wr m (ptr + 1) 0;
      Done (Some ustr, m)
  end.

Definition trim (m : list Z) (str : option Z) : outcome (option Z * list Z) :=
  match str with
  | None => Done (None, m)
  | Some ustr =>
      len ← strlen m ustr;
      right ← trim_right (Z.to_nat len + 2) m ustr (ustr + len);
      let right := right + 1 in
      m ← wr m right 0;
      left ← trim_left (Z.to_nat len + 1) m ustr;
      if left =? ustr then Done (Some ustr, m)
      else m ← memmove m ustr left (right - left + 1); Done (Some ustr, m)
  end.

(** * Copying *)

(** The loop of [strlcpy] while bytes fit: what is left of [n], and the two
    pointers. *)
Fixpoint strlcpy_loop (fuel : nat) (md ms : list Z) (d s n : Z)
    : outcome (list Z * Z * Z * Z) :=
  match fuel with
  | O => NoFuel
  | S fuel =>
      let n := n - 1 in
      if n =? 0 then Done (md, d, s, n)
      else
        c ← rd ms s;
        md ← wr md d c;
        if c =? 0 then Done (md, d + 1, s + 1, n)
        else strlcpy_loop fuel md ms (d + 1) (s + 1) n
  end.

(** Traverse the rest of the source, its NUL included. *)
Fixpoint strlcpy_rest (fuel : nat) (ms : list Z) (s : Z) : outcome Z :=
  match fuel with
  | O => NoFuel
  | S fuel =>
      c ← rd ms s;
      if c =? 0 then Done (s + 1) else strlcpy_rest fuel ms (s + 1)
  end.

(** [dst] points into [md] and [src] into another object [ms]. *)
Definition strlcpy (md : list Z) (dst : Z) (ms : list Z) (src siz : Z)
    : outcome (Z * list Z) :=
  '(md, d, s, n) ← (if negb (siz =? 0)
                    then strlcpy_loop (length ms + 1) md ms dst src siz
                    else Done (md, dst, src, siz));
  '(md, s) ← (if n =? 0 then
                md ← (if negb (siz =? 0) then wr md d 0 else Done md);
                s ← strlcpy_rest (length ms + 1) ms s;
                Done (md, s)
              else Done (md, s));
  Done (u64 (s - src - 1), md).

(** The new [*dst] and [*size]. *)
Definition strappend (md : list Z) (dst size : Z) (ms : list Z) (src : Z)
    : outcome (Z * Z * list Z) :=
  '(len, md) ← strlcpy md dst ms src size;
  let len := if size <=? len then size else len in
  Done (dst + len, size - len, md).

Definition string_copy_allow_null (md : list Z) (dst : Z) (ms : list Z) (src : option Z)
    (size : Z) : outcome (Z * list Z) :=
  match src with
  | None => md ← wr md dst 0; Done (0, md)
  | Some src => strlcpy md dst ms src size
  end.

(** A hexadecimal digit as [strtourl] computes it, in a [char]. *)
Definition url_digit (h : Z) : Z := if 9 <? h then 65 - 10 + h else 48 + h.

Fixpoint strtourl_loop (fuel : nat) (mu : list Z) (ms : list Z) (url str : Z)
    : outcome (list Z) :=
  match fuel with
  | O => NoFuel
  | S fuel =>
      b ← rd ms str;
      let c := schar b in
      if c =? 0 then wr mu url 0
      else if isprint c && negb (c =? 32) && negb (c =? 37) then
        mu ← wr mu url c;
        strtourl_loop fuel mu ms (url + 1) (str + 1)
      else
        mu ← wr mu url 37;
        mu ← wr mu (url + 1) (url_digit (Z.quot c 16));
        mu ← wr mu (url + 2) (url_digit (Z.rem c 16));
        strtourl_loop fuel mu ms (url + 3) (str + 1)
  end.

Definition strtourl (mu : list Z) (url : Z) (ms : list Z) (str : Z) : outcome (list Z) :=
  strtourl_loop (length ms + 1) mu ms url str.

(** * GBK *)

Inductive gbk_state := GBK_FIRST | GBK_SECOND.

(** One byte looked at; an invalid second byte is looked at again, as a first. *)
Fixpoint gbk_loop (fuel : nat) (m : list Z) (s len replace count : Z) (state : gbk_state)
    : outcome (Z * Z * gbk_state * list Z) :=
  match fuel with
  | O => NoFuel
  | S fuel =>
      if 0 <? len then
        c ← rd m s;
        match state with
        | GBK_FIRST =>
            if (c =? 128) || (c =? 255) then
              m ← wr m s replace;
              gbk_loop fuel m (s + 1) (len - 1) replace count GBK_FIRST
            else if negb (Z.land c 128 =? 0) then
              gbk_loop fuel m (s + 1) (len - 1) replace count GBK_SECOND
            else gbk_loop fuel m (s + 1) (len - 1) replace count GBK_FIRST
        | GBK_SECOND =>
            if (c <? 64) || (c =? 127) then
              m ← wr m (s - 1) replace;
              gbk_loop fuel m s len replace (count + 1) GBK_FIRST
            else gbk_loop fuel m (s + 1) (len - 1) replace count GBK_FIRST
        end
      else Done (count, s, state, m)
  end.

(** After the loop: a lead byte at the end is replaced too. *)
Definition gbk_finish (replace : Z) (r : Z * Z * gbk_state * list Z)
    : outcome (Z * list Z) :=
  let '(count, s, state, m) := r in
  match state with
  | GBK_SECOND => m ← wr m (s - 1) replace; Done (count, m)
  | GBK_FIRST => Done (count, m)
  end.

Definition valid_gbk (m : list Z) (str len replace : Z) : outcome (Z * list Z) :=
  r ← gbk_loop (2 * Z.to_nat len + 1) m str len replace 0 GBK_FIRST;
  gbk_finish replace r.

Fixpoint check_loop (fuel : nat) (m : list Z) (title : Z) (gbk : bool) : outcome Z :=
  match fuel with
  | O => NoFuel
  | S fuel =>
      c ← rd m title;
      if c =? 0 then Done (if gbk then title - 1 else title)
      else check_loop fuel m (title + 1) (negb gbk && negb (Z.land (schar c) 128 =? 0))
  end.

(** The end of the title, without a lead byte its second byte is missing for. *)
Definition check_gbk (m : list Z) (title : Z) : outcome Z :=
  check_loop (length m + 1) m title false.

Fixpoint line_end_loop (fuel : nat) (m : list Z) (s e : Z) : outcome Z :=
  match fuel with
  | O => NoFuel
  | S fuel =>
      if s =? e then Done s
      else c ← rd m s; if c =? 10 then Done (s + 1) else line_end_loop fuel m (s + 1) e
  end.

Definition get_line_end (m : list Z) (b e : Z) : outcome Z :=
  line_end_loop (length m + 1) m b e.

(** * In-place filters *)

(** Writing the byte just read back over the gap [g] of dropped bytes. *)
Lemma wr_slide d g c post p : is_u8 c -> p = blen d ->
  exists g', wr (d ++ g ++ c :: post) p c = Done (d ++ c :: g' ++ post) /\ blen g' = blen g.
Proof.
  intros Hc ->. destruct g as [|x g]; cbn [app].
  - exists []. rewrite (wr_at _ d c post) by done. by rewrite u8_id.
  - exists (g ++ [c]). rewrite (wr_at _ d x (g ++ c :: post)) by done.
    rewrite u8_id, <- app_assoc by done. split; [done|]. autorewrite with blen. lia.
Qed.

(** The text with its escape sequences dropped: [flag] inside one. *)
Fixpoint strip_ansi (flag : bool) (s : list Z) : list Z :=
  match s with
  | [] => []
  | c :: s =>
      if c =? 27 then strip_ansi true s
      else if negb flag then c :: strip_ansi flag s
      else strip_ansi (if isalpha (schar c) then false else flag) s
  end.

Lemma strip_ansi_no_esc s : forall flag, Forall (fun c => c <> 27) (strip_ansi flag s).
Proof.
  induction s as [|c s IH]; intros flag; cbn; [done|].
  destruct (Z.eqb_spec c 27); [done|]. destruct flag; cbn; auto.
Qed.

Lemma strip_ansi_plain s : Forall (fun c => c <> 27) s -> strip_ansi false s = s.
Proof.
  induction 1 as [|c s Hc _ IH]; cbn; [done|].
  destruct (Z.eqb_spec c 27); [done|]. cbn. by rewrite IH.
Qed.

Lemma ansi_loop_spec s : forall fuel d g post flag src,
  nul_free s -> (length s < fuel)%nat -> src = blen d + blen g ->
  exists g', ansi_loop fuel (d ++ g ++ s ++ 0 :: post) (blen d) src flag
    = Done (d ++ strip_ansi flag s ++ 0 :: g' ++ post) /\
    blen g' + blen (strip_ansi flag s) = blen g + blen s.
Proof.
  induction s as [|c s IH]; intros fuel d g post flag src Hs Hf ->;
    (destruct fuel as [|fuel]; [cbn in Hf; lia|]); cbn [ansi_loop strip_ansi app].
  - rewrite (rd_at _ (d ++ g) 0 post) by (rewrite ?app_assoc; blen; done). cbn [mbind outcome_bind].
    destruct (wr_slide d g 0 post (blen d)) as (g' & -> & Hg); [by width|done|].
    exists g'. split; [done|]. blen.
  - apply Forall_cons_1 in Hs as [Hc Hs]. cbn in Hf.
    rewrite (rd_at _ (d ++ g) c (s ++ 0 :: post)) by (rewrite ?app_assoc; blen; done).
    cbn [mbind outcome_bind]. destruct (Z.eqb_spec c 0); [lia|].
    assert (forall flag', exists g', ansi_loop fuel (d ++ g ++ c :: s ++ 0 :: post) (blen d)
        (blen d + blen g + 1) flag' = Done (d ++ strip_ansi flag' s ++ 0 :: g' ++ post) /\
        blen g' + blen (strip_ansi flag' s) = blen g + blen (c :: s)) as Hskip.
    { intros flag'. destruct (IH fuel d (g ++ [c]) post flag' (blen d + blen g + 1)) as (g' & Hr & Hl);
        [done|lia|blen|]. exists g'. rewrite <- Hr. split; [app_eq|blen]. }
    destruct (Z.eqb_spec c 27); [apply Hskip|]. destruct flag; cbn [negb]; [apply Hskip|].
    destruct (wr_slide d g c (s ++ 0 :: post) (blen d)) as (g1 & -> & Hg1); [width; lia|done|].
    cbn [mbind outcome_bind].
    destruct (IH fuel (d ++ [c]) g1 post false (blen d + blen g + 1)) as (g' & Hr & Hl);
      [done|lia|blen|]. exists g'. split; [|blen].
    replace (blen d + 1) with (blen (d ++ [c])) by blen.
    rewrite <- !app_assoc in Hr. cbn [app] in Hr. rewrite Hr. app_eq.
Qed.

(** Removing escape sequences in place leaves a string that holds the
    text outside them, no escape character, and, without one in the first
    place, the same string; the bytes around the string are not touched. *)
Theorem ansi_removed pre s post : nul_free s ->
  exists rest, string_remove_ansi_control_code (pre ++ s ++ 0 :: post)
      (Some (blen pre)) (Some (blen pre))
    = Done (Some (blen pre), pre ++ strip_ansi false s ++ 0 :: rest ++ post) /\
    blen (strip_ansi false s) + blen rest = blen s /\
    Forall (fun c => c <> 27) (strip_ansi false s) /\
    (Forall (fun c => c <> 27) s -> strip_ansi false s = s).
Proof.
  intros Hs. unfold string_remove_ansi_control_code.
  destruct (ansi_loop_spec s (length (pre ++ s ++ 0 :: post) + 1) pre [] post false (blen pre))
    as (g & Hr & Hl); [done|rewrite !length_app; lia|blen|].
  cbn [app] in Hr. rewrite Hr. exists g. split_and!; [done|blen| |].
  - apply strip_ansi_no_esc.
  - apply strip_ansi_plain.
Qed.

Lemma ansi_removed_witness :
  exists rest, string_remove_ansi_control_code
      ([1] ++ [65; 27; 91; 51; 49; 109; 66] ++ 0 :: [9]) (Some 1) (Some 1)
    = Done (Some 1, [1] ++ [65; 66] ++ 0 :: rest ++ [9]) /\ 2 + blen rest = 7 /\
    Forall (fun c => c <> 27) [65; 66] /\
    (Forall (fun c => c <> 27) [65; 27; 91; 51; 49; 109; 66] ->
     [65; 66] = [65; 27; 91; 51; 49; 109; 66]).
Proof.
  apply (ansi_removed [1] [65; 27; 91; 51; 49; 109; 66] [9]).
  repeat constructor; lia.
Defined.

(** * Trimming *)

Lemma trim_right_spec pre x r : forall fuel ustr post ptr,
  Forall (fun c => c <= 32) r -> 32 < x -> (length r < fuel)%nat ->
  ustr <= blen pre -> ptr = blen pre + blen r ->
  trim_right fuel (pre ++ x :: r ++ post) ustr ptr = Done (blen pre).
Proof.
  induction r as [|c r IH] using rev_ind; intros fuel ustr post ptr Hr Hx Hf Hu ->;
    (destruct fuel as [|fuel]; [rewrite ?length_app in Hf; cbn in Hf; lia|]); cbn [trim_right].
  - rewrite (rd_at _ pre x post) by (blen; done). cbn [mbind outcome_bind]. zcase.
    by rewrite blen_nil, Z.add_0_r.
  - apply Forall_app in Hr as [Hr Hc]. apply Forall_cons_1 in Hc as [Hc _].
    rewrite length_app in Hf. cbn in Hf.
    rewrite (rd_at _ (pre ++ x :: r) c post) by (blen; app_eq).
    cbn [mbind outcome_bind]. pose proof (blen_nonneg r).
    assert ((c <=? 32) && (ustr <=? blen pre + blen (r ++ [c])) = true) as -> by (rewrite blen_app; blen).
    replace (pre ++ x :: (r ++ [c]) ++ post) with (pre ++ x :: r ++ [c] ++ post) by app_eq.
    apply IH; try done; [lia|blen].
Qed.

Lemma trim_left_spec l x : forall fuel pre post,
  Forall (fun c => 0 < c <= 32) l -> 32 < x -> (length l < fuel)%nat ->
  trim_left fuel (pre ++ l ++ x :: post) (blen pre) = Done (blen pre + blen l).
Proof.
  induction l as [|c l IH]; intros fuel pre post Hl Hx Hf;
    (destruct fuel as [|fuel]; [cbn in Hf; lia|]); cbn [trim_left app].
  - rewrite (rd_at _ pre x post) by done. cbn [mbind outcome_bind]. zcase. f_equal. blen.
  - apply Forall_cons_1 in Hl as [Hc Hl]. cbn in Hf.
    rewrite (rd_at _ pre c (l ++ x :: post)) by done. cbn [mbind outcome_bind]. zcase.
    specialize (IH fuel (pre ++ [c]) post Hl Hx ltac:(lia)).
    rewrite blen_app, blen_cons, blen_nil, Z.add_0_r, <- app_assoc in IH. cbn [app] in IH.
    rewrite IH. f_equal. blen.
Qed.

(** The middle of a string to trim: neither end is blank. *)
Definition solid (s : list Z) : Prop :=
  exists x y t t', s = x :: t /\ s = t' ++ [y] /\ 32 < x /\ 32 < y.

(** Moving the trimmed string to the front leaves a tail of as many bytes as
    were blank. *)
Lemma move_front pre l bs post : exists rest,
  memmove (pre ++ l ++ bs ++ post) (blen pre) (blen pre + blen l) (blen bs)
    = Done (pre ++ bs ++ rest ++ post) /\ blen rest = blen l.
Proof.
  exists (drop (length bs) (l ++ bs)).
  rewrite (memmove_at _ (pre ++ l) bs post pre (take (length bs) (l ++ bs))
    (drop (length bs) (l ++ bs) ++ post)).
  - split; [done|]. unfold blen. rewrite length_drop, length_app. lia.
  - app_eq.
  - by rewrite (app_assoc (take _ _)), take_drop, <- app_assoc.
  - by rewrite blen_app.
  - done.
  - done.
  - unfold blen. rewrite length_take, length_app. lia.
Qed.

Lemma trim_eq pre l mid r post :
  nul_free (l ++ mid ++ r) -> Forall (fun c => c <= 32) l -> Forall (fun c => c <= 32) r ->
  solid mid ->
  exists rest, trim (pre ++ l ++ mid ++ r ++ 0 :: post) (Some (blen pre))
    = Done (Some (blen pre), pre ++ mid ++ 0 :: rest ++ post) /\ blen rest = blen l + blen r.
Proof.
  intros Hs Hl Hr (x & y & t & t' & Hx & Hy & Hx' & Hy').
  unfold trim. rewrite (strlen_at _ pre (l ++ mid ++ r) post) by (done || app_eq).
  cbn [mbind outcome_bind].
  assert (Forall (fun c => c <= 32) (r ++ [0])) as Hr0 by (apply Forall_app; split; [done|by repeat constructor]).
  pose proof (trim_right_spec (pre ++ l ++ t') y (r ++ [0])
    (Z.to_nat (blen (l ++ mid ++ r)) + 2) (blen pre) post (blen pre + blen (l ++ mid ++ r))
    Hr0 Hy') as HR.
  replace ((pre ++ l ++ t') ++ y :: (r ++ [0]) ++ post) with (pre ++ l ++ mid ++ r ++ 0 :: post)
    in HR by (rewrite Hy; app_eq).
  rewrite HR; [|unfold blen; rewrite !length_app; cbn; lia|blen|rewrite Hy; blen].
  cbn [mbind outcome_bind]. replace (blen (pre ++ l ++ t') + 1) with (blen pre + blen l + blen mid)
    by (rewrite Hy; blen).
  destruct (r ++ [0]) as [|z r'] eqn:Hz; [by destruct r|].
  assert (blen r' = blen r) as Hr' by (apply (f_equal blen) in Hz; blen).
  rewrite (wr_at _ (pre ++ l ++ mid) z (r' ++ post)); cycle 1.
  { replace (r ++ 0 :: post) with ((r ++ [0]) ++ post) by app_eq. rewrite Hz. app_eq. }
  { blen. }
  change (u8 0) with 0. cbn [mbind outcome_bind].
  replace ((pre ++ l ++ mid) ++ 0 :: r' ++ post) with (pre ++ l ++ (mid ++ [0]) ++ r' ++ post)
    by app_eq.
  pose proof (trim_left_spec l x (Z.to_nat (blen (l ++ mid ++ r)) + 1) pre
    (t ++ [0] ++ r' ++ post)) as HL.
  replace (pre ++ l ++ x :: t ++ [0] ++ r' ++ post) with (pre ++ l ++ (mid ++ [0]) ++ r' ++ post)
    in HL by (rewrite Hx; app_eq).
  rewrite HL; [|apply Forall_app in Hs as [Hs _]; clear -Hl Hs|done|unfold blen; rewrite length_app; lia].
  2:{ apply list.Forall_forall. intros c Hc. rewrite list.Forall_forall in Hl.
      unfold nul_free in Hs. rewrite list.Forall_forall in Hs. specialize (Hl c Hc). specialize (Hs c Hc). lia. }
  cbn [mbind outcome_bind]. zcase.
  - exists r'. assert (l = []) as -> by (destruct l; [done|blen]). split; [app_eq|blen].
  - replace (blen pre + blen l + blen mid - (blen pre + blen l) + 1) with (blen (mid ++ [0])) by blen.
    destruct (move_front pre l (mid ++ [0]) (r' ++ post)) as (rest & -> & Hrest).
    exists (rest ++ r'). cbn. split; [app_eq|blen].
Qed.

(** Trimming a string that is not all blank leaves exactly what is between
    its leading and trailing blanks, in place, and the bytes around it alone. *)
Theorem trim_strips pre l mid r post :
  nul_free (l ++ mid ++ r) -> Forall (fun c => c <= 32) l -> Forall (fun c => c <= 32) r ->
  solid mid ->
  exists rest, trim (pre ++ l ++ mid ++ r ++ 0 :: post) (Some (blen pre))
    = Done (Some (blen pre), pre ++ mid ++ 0 :: rest ++ post) /\ blen rest = blen l + blen r.
Proof. apply trim_eq. Qed.

Lemma trim_strips_witness :
  exists rest, trim ([9] ++ [32; 10] ++ [65; 32; 66] ++ [32] ++ 0 :: [7]) (Some 1)
    = Done (Some 1, [9] ++ [65; 32; 66] ++ 0 :: rest ++ [7]) /\ blen rest = 2 + 1.
Proof.
  apply (trim_strips [9] [32; 10] [65; 32; 66] [32] [7]); [repeat constructor; lia..|].
  exists 65, 66, [32; 66], [65; 32]. split_and!; [done|done|lia|lia].
Defined.

Lemma trim_right_underflow r : forall fuel post ptr,
  Forall (fun c => c <= 32) r -> (length r < fuel)%nat -> ptr = blen r - 1 ->
  trim_right fuel (r ++ post) 0 ptr = Fault.
Proof.
  induction r as [|c r IH] using rev_ind; intros fuel post ptr Hr Hf ->;
    (destruct fuel as [|fuel]; [rewrite ?length_app in Hf; cbn in Hf; lia|]); cbn [trim_right].
  - by rewrite rd_neg.
  - apply Forall_app in Hr as [Hr Hc]. apply Forall_cons_1 in Hc as [Hc _].
    rewrite length_app in Hf. cbn in Hf. rewrite <- app_assoc. pose proof (blen_nonneg r).
    rewrite (rd_at _ r c post) by (blen; done). cbn [mbind outcome_bind].
    assert ((c <=? 32) && (0 <=? blen (r ++ [c]) - 1) = true) as -> by blen.
    apply IH; [done|lia|blen].
Qed.

(** On a string of blanks only at the start of its object, the empty
    string included, [rtrim] and [trim] read the byte before the object: the
    loops compare the pointer with the start after reading through it. *)
Theorem trim_blank_underflow s post :
  nul_free s -> Forall (fun c => c <= 32) s ->
  rtrim (s ++ 0 :: post) (Some 0) = Fault /\ trim (s ++ 0 :: post) (Some 0) = Fault.
Proof.
  intros Hs Hb. assert (trim_right (Z.to_nat (blen s) + 2) (s ++ 0 :: post) 0 (0 + blen s) = Fault) as H.
  { replace (s ++ 0 :: post) with ((s ++ [0]) ++ post) by app_eq.
    apply trim_right_underflow; [|unfold blen; rewrite length_app; cbn; lia|blen].
    apply Forall_app; split; [done|by repeat constructor]. }
  unfold rtrim, trim. rewrite (strlen_at _ [] s post) by done. cbn [mbind outcome_bind].
  by rewrite H.
Qed.

Lemma trim_blank_underflow_witness :
  rtrim ([32] ++ 0 :: []) (Some 0) = Fault /\ trim ([32] ++ 0 :: []) (Some 0) = Fault.
Proof. apply (trim_blank_underflow [32] []); repeat constructor; lia. Defined.

(** * Copying *)

Lemma strlcpy_rest_spec s : forall fuel pre post,
  nul_free s -> (length s < fuel)%nat ->
  strlcpy_rest fuel (pre ++ s ++ 0 :: post) (blen pre) = Done (blen pre + blen s + 1).
Proof.
  induction s as [|c s IH]; intros fuel pre post Hs Hf;
    (destruct fuel as [|fuel]; [cbn in Hf; lia|]); cbn [strlcpy_rest app].
  - rewrite (rd_at _ pre 0 post) by done. cbn. f_equal. blen.
  - apply Forall_cons_1 in Hs as [Hc Hs]. cbn in Hf.
    rewrite (rd_at _ pre c (s ++ 0 :: post)) by done. cbn [mbind outcome_bind]. zcase.
    specialize (IH fuel (pre ++ [c]) post Hs ltac:(lia)).
    rewrite blen_app, blen_cons, blen_nil, Z.add_0_r, <- app_assoc in IH. cbn [app] in IH.
    rewrite IH. f_equal. blen.
Qed.

Lemma done4 {A} (a a' : A) (b b' c c' d d' : Z) :
  a = a' -> b = b' -> c = c' -> d = d' -> Done (a, b, c, d) = Done (a', b', c', d').
Proof. by intros -> -> -> ->. Qed.

(** While the source lasts and there is room, the loop copies; it stops with
    [n = 0] when the room is used up and after the NUL otherwise. *)
Lemma strlcpy_loop_spec s : forall fuel md ms pre old post spre spost n,
  md = pre ++ old ++ post -> ms = spre ++ s ++ 0 :: spost ->
  nul_free s -> (length s < fuel)%nat -> 0 < n -> Z.min n (blen s + 1) <= blen old ->
  strlcpy_loop fuel md ms (blen pre) (blen spre) n =
    if blen s + 1 <? n then
      Done (pre ++ s ++ 0 :: drop (length s + 1) old ++ post,
            blen pre + blen s + 1, blen spre + blen s + 1, n - blen s - 1)
    else
      let k := Z.to_nat (n - 1) in
      Done (pre ++ take k s ++ drop k old ++ post, blen pre + (n - 1), blen spre + (n - 1), 0).
Proof.
  induction s as [|c s IH]; intros fuel md ms pre old post spre spost n -> -> Hs Hf Hn Ho;
    (destruct fuel as [|fuel]; [cbn in Hf; lia|]); cbn [strlcpy_loop app]; cbv zeta.
  - rewrite blen_nil in *. destruct (Z.eqb_spec (n - 1) 0).
    + replace n with 1 by lia. cbn. repeat f_equal; lia.
    + rewrite (rd_at _ spre 0 spost) by done. cbn [mbind outcome_bind].
      destruct old as [|o old]; [rewrite blen_nil in Ho; lia|].
      rewrite (wr_at _ pre o (old ++ post)) by done. change (u8 0) with 0. cbn.
      zcase. repeat f_equal; lia.
  - apply Forall_cons_1 in Hs as [Hc Hs]. cbn in Hf. rewrite blen_cons in *.
    pose proof (blen_nonneg s). destruct (Z.eqb_spec (n - 1) 0).
    + zcase. replace n with 1 by lia. cbn. repeat f_equal; lia.
    + rewrite (rd_at _ spre c (s ++ 0 :: spost)) by done. cbn [mbind outcome_bind].
      destruct old as [|o old]; [rewrite blen_nil in Ho; lia|]. rewrite blen_cons in Ho.
      rewrite (wr_at _ pre o (old ++ post)) by done. rewrite u8_id by (width; lia).
      cbn [mbind outcome_bind]. zcase.
      pose proof (IH fuel _ _ (pre ++ [c]) old post (spre ++ [c]) spost (n - 1)
        eq_refl eq_refl Hs ltac:(lia) ltac:(lia) ltac:(lia)) as H1.
      rewrite !blen_app, blen_cons, blen_nil, Z.add_0_r, <- !app_assoc in H1.
      cbn [app] in H1. rewrite H1. clear H1 IH.
      destruct (Z.ltb_spec (blen s + 1) (n - 1)); destruct (Z.ltb_spec (1 + blen s + 1) n); try lia.
      * apply done4; try lia. app_eq.
      * replace (Z.to_nat (n - 1)) with (S (Z.to_nat (n - 1 - 1))) by lia. cbn [take drop app].
        apply done4; try lia. app_eq.
Qed.

Lemma strlcpy_eq pre old post spre s spost siz :
  nul_free s -> blen s < 2 ^ 64 -> 0 <= siz -> Z.min siz (blen s + 1) <= blen old ->
  let k := Z.to_nat (Z.min (siz - 1) (blen s)) in
  strlcpy (pre ++ old ++ post) (blen pre) (spre ++ s ++ 0 :: spost) (blen spre) siz =
    Done (blen s, if siz =? 0 then pre ++ old ++ post
                  else pre ++ take k s ++ 0 :: drop (k + 1) old ++ post).
Proof.
  intros Hs H64 Hz Ho k. pose proof (blen_nonneg s). unfold strlcpy.
  set (ms := spre ++ s ++ 0 :: spost).
  assert (length s < length ms + 1)%nat as Hf by (subst ms; rewrite !length_app; lia).
  destruct (Z.eqb_spec siz 0) as [->|Hz0]; cbn [negb mbind outcome_bind].
  - cbn [Z.eqb mbind outcome_bind negb]. subst ms. rewrite strlcpy_rest_spec by done. cbn.
    rewrite u64_id by (width; lia). do 2 f_equal. lia.
  - rewrite (strlcpy_loop_spec s _ _ ms pre old post spre spost) by (done || lia).
    destruct (Z.ltb_spec (blen s + 1) siz); cbn [mbind outcome_bind]; cbv zeta.
    + rewrite (proj2 (Z.eqb_neq _ 0)) by lia. cbn [mbind outcome_bind].
      replace k with (length s) by (unfold k, blen in *; lia). rewrite firstn_all.
      rewrite u64_id by (width; lia). do 2 f_equal. lia.
    + assert (Z.to_nat (siz - 1) = k) as -> by (unfold k; f_equal; lia). cbn [Z.eqb mbind outcome_bind].
      destruct (drop k old) as [|o rest] eqn:Hd.
      { apply (f_equal length) in Hd. rewrite length_drop in Hd. cbn in Hd. unfold k, blen in *. lia. }
      assert (blen (take k s) = siz - 1) as Hk by (unfold k, blen in *; rewrite length_take; lia).
      rewrite (wr_at _ (pre ++ take k s) o (rest ++ post)) by (app_eq || (rewrite blen_app; lia)).
      change (u8 0) with 0. cbn [mbind outcome_bind].
      replace ms with ((spre ++ take k s) ++ drop k s ++ 0 :: spost)
        by (subst ms; rewrite <- app_assoc, (app_assoc (take k s)), take_drop; done).
      replace (blen spre + (siz - 1)) with (blen (spre ++ take k s)) by (rewrite blen_app; lia).
      rewrite strlcpy_rest_spec; [|by apply Forall_drop|rewrite length_drop, !length_app; cbn; rewrite length_drop; lia].
      cbn [mbind outcome_bind].
      assert (blen (take k s) + blen (drop k s) = blen s) as Hsum
        by (rewrite <- blen_app, take_drop; done).
      rewrite u64_id by (width; rewrite blen_app; lia). rewrite blen_app. do 2 f_equal; [lia|].
      rewrite <- drop_drop, Hd. app_eq.
Qed.

(** [strlcpy] stores the longest prefix of the source that fits a buffer of
    [siz] bytes, always NUL-terminated, touches nothing past it, and returns the
    length of the source; a size of 0 stores nothing. *)
Theorem strlcpy_copies pre old post spre s spost siz :
  nul_free s -> blen s < 2 ^ 64 -> 0 <= siz -> Z.min siz (blen s + 1) <= blen old ->
  let k := Z.to_nat (Z.min (siz - 1) (blen s)) in
  strlcpy (pre ++ old ++ post) (blen pre) (spre ++ s ++ 0 :: spost) (blen spre) siz =
    Done (blen s, if siz =? 0 then pre ++ old ++ post
                  else pre ++ take k s ++ 0 :: drop (k + 1) old ++ post).
Proof. apply strlcpy_eq. Qed.

Lemma strlcpy_copies_witness :
  strlcpy ([1] ++ [9; 9; 9] ++ [2]) 1 ([] ++ [65; 66; 67; 68] ++ 0 :: []) 0 3 =
    Done (4, [1] ++ [65; 66] ++ 0 :: [] ++ [2]).
Proof.
  apply (strlcpy_copies [1] [9; 9; 9] [2] [] [65; 66; 67; 68] [] 3);
    [repeat constructor; lia|done|lia|vm_compute; congruence].
Defined.

(** * Searching *)

Definition ascii (s : list Z) : Prop := Forall (fun c => 0 < c < 128) s.
Definition lower (s : list Z) : list Z := map tolower s.

(** The first place of [h], from index [i] on, where [n] is found when case is
    ignored. *)
Fixpoint first_nocase (n h : list Z) (i : Z) : option Z :=
  if bool_decide (lower (take (length n) h) = lower n) then Some i
  else match h with
       | [] => None
       | _ :: h => first_nocase n h (i + 1)
       end.

Lemma ascii_nul_free s : ascii s -> nul_free s.
Proof. intros Hs. eapply Forall_impl; [|exact Hs]. intros c Hc. cbn in *. lia. Qed.

Lemma ascii_high c : 0 <= c < 128 -> Z.land c 128 = 0.
Proof.
  intros Hc. assert (((128 <=? c) || (Z.land c 128 =? 0)) = true) as H.
  { apply (byte_table (fun c => (128 <=? c) || (Z.land c 128 =? 0))); [by vm_compute|width; lia]. }
  lia.
Qed.

Lemma tolower_range c : 0 < c < 128 -> 0 < tolower c < 128.
Proof. unfold tolower, isupper. intros. zcase; lia. Qed.

Lemma strncasecmp_spec a : forall b fuel m1 m2 p1 q1 p2 q2 n l,
  m1 = p1 ++ a ++ 0 :: q1 -> m2 = p2 ++ b ++ 0 :: q2 ->
  ascii a -> ascii b -> n = l + blen b -> (length a < fuel)%nat ->
  exists r, strncasecmp_loop fuel m1 m2 (blen p1) (blen p2) n l = Done r /\
    (r = 0 <-> lower (take (length b) a) = lower b).
Proof.
  induction a as [|x a IH]; intros b fuel m1 m2 p1 q1 p2 q2 n l Hm1 Hm2 Ha Hb -> Hf;
    (destruct fuel as [|fuel]; [cbn in Hf; lia|]); cbn [strncasecmp_loop app] in *.
  { rewrite (rd_at m1 p1 0 q1 (blen p1)) by done. cbn [mbind outcome_bind Z.eqb]. eexists. split; [done|].
    destruct b as [|y b]; [by rewrite blen_nil, Z.add_0_r, Z.eqb_refl|].
    rewrite blen_cons. pose proof (blen_nonneg b). zcase. cbn. split; intros; [lia|done]. }
  rewrite (rd_at m1 p1 x (a ++ 0 :: q1) (blen p1)) by done. cbn [mbind outcome_bind].
  apply Forall_cons_1 in Ha as [Hx Ha]. cbn in Hf. assert ((x =? 0) = false) as -> by lia.
  destruct b as [|y b].
  { cbn [app] in Hm2. rewrite (rd_at m2 p2 0 q2 (blen p2)) by done. cbn [mbind outcome_bind Z.eqb negb andb].
    exists 0. by rewrite blen_nil, Z.add_0_r, Z.eqb_refl. }
  apply Forall_cons_1 in Hb as [Hy Hb]. rewrite blen_cons. pose proof (blen_nonneg b).
  cbn [app] in Hm2. rewrite (rd_at m2 p2 y (b ++ 0 :: q2) (blen p2)) by done. cbn [mbind outcome_bind].
  assert (negb (y =? 0) && (l <? l + (1 + blen b)) = true) as -> by lia.
  rewrite !schar_ascii by lia. pose proof (tolower_range x Hx). pose proof (tolower_range y Hy).
  cbn [length take lower map]. destruct (Z.eqb_spec (tolower x) (tolower y)) as [He|He]; cbn [negb].
  - rewrite ascii_high by lia. cbn [Z.eqb].
    destruct (IH b fuel m1 m2 (p1 ++ [x]) q1 (p2 ++ [y]) q2 (l + (1 + blen b)) (l + 1))
      as (r & Hr & Hiff); try done; [by rewrite Hm1; app_eq|by rewrite Hm2; app_eq|lia|lia|].
    rewrite !blen_app, !blen_cons, !blen_nil, !Z.add_0_r in Hr. exists r. split; [done|].
    rewrite Hiff. unfold lower. split; [intros ->; by rewrite He|by intros [= _ ?]].
  - exists (tolower x - tolower y). split; [done|]. split; [lia|by intros [= ? _]].
Qed.

Lemma first_nocase_short n h i : (length h < length n)%nat -> first_nocase n h i = None.
Proof.
  revert i. induction h as [|x h IH]; intros i Hl; cbn [first_nocase].
  - destruct n; [cbn in Hl; lia|]. done.
  - rewrite bool_decide_false; [apply IH; cbn in Hl; lia|].
    intros He. apply (f_equal length) in He. unfold lower in He.
    rewrite !length_map, length_take in He. lia.
Qed.

Lemma strcasestr_loop_spec n h : forall fuel pre0 pre post q mh,
  mh = pre0 ++ (pre ++ h) ++ 0 :: post -> ascii h -> ascii n -> n <> [] ->
  (length h < fuel)%nat ->
  strcasestr_loop fuel mh (n ++ 0 :: q) (blen pre0) 0 (blen (pre ++ h)) (blen n) (blen pre)
    = Done (Z.add (blen pre0) <$> first_nocase n h (blen pre)).
Proof.
  induction h as [|x h IH]; intros fuel pre0 pre post q mh -> Hh Hn Hne Hf;
    (destruct fuel as [|fuel]; [cbn in Hf; lia|]); cbn [strcasestr_loop].
  { destruct n as [|y n]; [done|]. rewrite app_nil_r, blen_cons. pose proof (blen_nonneg n). by zcase. }
  destruct (Z.leb_spec (blen pre) (blen (pre ++ x :: h) - blen n)) as [Hle|Hgt]; cycle 1.
  { rewrite first_nocase_short; [done|]. rewrite blen_app in Hgt. unfold blen in *. lia. }
  unfold strncasecmp_gbk. rewrite <- blen_app.
  destruct (strncasecmp_spec (x :: h) n (length (pre0 ++ (pre ++ x :: h) ++ 0 :: post) + 1)
    (pre0 ++ (pre ++ x :: h) ++ 0 :: post) (n ++ 0 :: q) (pre0 ++ pre) post [] q (blen n) 0)
    as (r & Hr & Hiff); try done; [app_eq|rewrite !length_app; lia|].
  change (blen []) with 0 in Hr. rewrite Hr. cbn [mbind outcome_bind first_nocase].
  destruct (Z.eqb_spec r 0) as [Hr0|Hr0].
  { rewrite bool_decide_true by tauto. cbn. by rewrite blen_app. }
  rewrite bool_decide_false by tauto.
  apply Forall_cons_1 in Hh as [Hx Hh].
  rewrite (rd_at _ (pre0 ++ pre) x (h ++ 0 :: post)) by app_eq. cbn [mbind outcome_bind].
  rewrite schar_ascii, ascii_high by lia. cbn [Z.eqb].
  pose proof (IH fuel pre0 (pre ++ [x]) post q _ eq_refl Hh Hn Hne ltac:(cbn in Hf; lia)) as H1.
  rewrite <- !app_assoc in H1. cbn [app] in H1. rewrite <- !app_assoc. cbn [app].
  rewrite (blen_app pre [x]), blen_cons, blen_nil, Z.add_0_r in H1. exact H1.
Qed.

(** On ASCII strings [strcasestr_gbk] returns the first occurrence of the
    needle when case is ignored, and NULL when there is none; an empty haystack
    has none. *)
Theorem strcasestr_first pre h post n q :
  ascii h -> ascii n -> h <> [] ->
  strcasestr_gbk (pre ++ h ++ 0 :: post) (n ++ 0 :: q) (Some (blen pre)) (Some 0)
    = Done (Z.add (blen pre) <$> first_nocase n h 0).
Proof.
  intros Hh Hn Hne. unfold strcasestr_gbk.
  rewrite (strlen_at (n ++ 0 :: q) [] n q) by (done || by apply ascii_nul_free).
  rewrite (strlen_at _ pre h post) by (done || by apply ascii_nul_free).
  cbn [mbind outcome_bind]. destruct (Z.ltb_spec (blen h) (blen n)).
  { rewrite first_nocase_short; [done|]. unfold blen in *. lia. }
  assert ((blen h <=? 0) = false) as -> by (destruct h; [done|rewrite blen_cons; pose proof (blen_nonneg h); lia]).
  destruct n as [|y n].
  { rewrite blen_nil. destruct h as [|x h]; [done|]. cbn [first_nocase].
    rewrite bool_decide_true by done. cbn. by rewrite Z.add_0_r. }
  rewrite blen_cons. pose proof (blen_nonneg n). zcase. rewrite <- (blen_cons y).
  apply (strcasestr_loop_spec (y :: n) h _ pre [] post q); try done.
  rewrite !length_app. lia.
Qed.

Lemma strcasestr_first_witness :
  strcasestr_gbk ([1] ++ [70; 117; 68; 97; 110] ++ 0 :: []) ([100; 65] ++ 0 :: []) (Some 1) (Some 0)
    = Done (Some 3).
Proof.
  apply (strcasestr_first [1] [70; 117; 68; 97; 110] [] [100; 65] []);
    [repeat constructor; lia|repeat constructor; lia|done].
Defined.

(** * GBK *)

Definition gbk_lead (c : Z) : bool :=
  negb (Z.land c 128 =? 0) && negb (c =? 128) && negb (c =? 255).
Definition gbk_second (c : Z) : bool := (64 <=? c) && negb (c =? 127).

(** Well-formed GBK: ASCII bytes, and lead bytes followed by a second byte. *)
Fixpoint gbk_ok (l : list Z) : bool :=
  match l with
  | [] => true
  | c :: l1 =>
      if Z.land c 128 =? 0 then gbk_ok l1
      else match l1 with
           | [] => false
           | d :: l2 => gbk_lead c && gbk_second d && gbk_ok l2
           end
  end.

(** The repair: a byte that cannot start a character, or whose character is not
    completed, is replaced. *)
Fixpoint gbk_fix (r : Z) (l : list Z) : list Z :=
  match l with
  | [] => []
  | c :: l1 =>
      if (c =? 128) || (c =? 255) then r :: gbk_fix r l1
      else if Z.land c 128 =? 0 then c :: gbk_fix r l1
      else match l1 with
           | [] => [r]
           | d :: l2 => if gbk_second d then c :: d :: gbk_fix r l2 else r :: gbk_fix r l1
           end
  end.

(** The lead bytes without a second byte, those at the end left out. *)
Fixpoint gbk_errors (l : list Z) : Z :=
  match l with
  | [] => 0
  | c :: l1 =>
      if (c =? 128) || (c =? 255) then gbk_errors l1
      else if Z.land c 128 =? 0 then gbk_errors l1
      else match l1 with
           | [] => 0
           | d :: l2 => if gbk_second d then gbk_errors l2 else 1 + gbk_errors l1
           end
  end.

Lemma gbk_loop_spec r n : is_u8 r -> forall l fuel pre post count,
  (length l <= n)%nat -> (2 * length l < fuel)%nat ->
  (x ← gbk_loop fuel (pre ++ l ++ post) (blen pre) (blen l) r count GBK_FIRST;
   gbk_finish r x) = Done (count + gbk_errors l, pre ++ gbk_fix r l ++ post).
Proof.
  intros Hr. induction n as [|n IH]; intros l fuel pre post count Hn Hf;
    (destruct l as [|c l]; [destruct fuel; [cbn in Hf; lia|]; cbn [gbk_errors];
       rewrite Z.add_0_r; done|]); [cbn in Hn; lia|].
  assert (forall l' x count' fuel', (length l' <= n)%nat -> (2 * length l' < fuel')%nat ->
    (y ← gbk_loop fuel' (pre ++ x :: l' ++ post) (blen pre + 1) (blen l') r count' GBK_FIRST;
     gbk_finish r y) = Done (count' + gbk_errors l', pre ++ x :: gbk_fix r l' ++ post)) as IH1.
  { intros l' x count' fuel' H1 H2. pose proof (IH l' fuel' (pre ++ [x]) post count' H1 H2) as H.
    rewrite blen_app, <- !app_assoc in H. exact H. }
  cbn in Hn, Hf. destruct fuel as [|fuel]; [lia|]. cbn [gbk_loop gbk_fix gbk_errors app].
  rewrite blen_cons. pose proof (blen_nonneg l). zcase.
  rewrite (rd_at _ pre c (l ++ post)) by done. cbn [mbind outcome_bind].
  replace (1 + blen l - 1) with (blen l) by lia.
  destruct ((c =? 128) || (c =? 255)).
  { rewrite (wr_at _ pre c (l ++ post)), u8_id by done. cbn [mbind outcome_bind].
    apply IH1; lia. }
  destruct (Z.land c 128 =? 0); cbn [negb]; [apply IH1; lia|].
  destruct fuel as [|fuel]; [lia|]. cbn [gbk_loop]. destruct l as [|d l].
  { change (blen []) with 0. cbn [Z.ltb Z.compare mbind outcome_bind gbk_finish app].
    rewrite (wr_at _ pre c post), u8_id by (done || lia). cbn. by rewrite Z.add_0_r. }
  rewrite blen_cons. pose proof (blen_nonneg l). zcase. cbn [app].
  rewrite (rd_at _ (pre ++ [c]) d (l ++ post)) by (app_eq || blen). cbn [mbind outcome_bind].
  unfold gbk_second at 1 2.
  assert ((d <? 64) || (d =? 127) = negb ((64 <=? d) && negb (d =? 127))) as -> by lia.
  destruct ((64 <=? d) && negb (d =? 127)); cbn [negb].
  - pose proof (IH l fuel (pre ++ [c; d]) post count ltac:(cbn in *; lia) ltac:(cbn in *; lia)) as H1.
    rewrite blen_app, <- !app_assoc in H1. cbn [app] in H1 |- *. rewrite <- H1.
    replace (blen [c; d]) with (1 + 1) by done. do 2 f_equal; lia.
  - rewrite (wr_at _ pre c (d :: l ++ post)) by (done || lia). cbn [mbind outcome_bind].
    rewrite u8_id by done. pose proof (IH1 (d :: l) r (count + 1) fuel) as H1. cbn [app] in H1.
    rewrite blen_cons in H1. rewrite H1 by (cbn in *; lia). do 2 f_equal. lia.
Qed.

(** Induction on a string by one or two bytes. *)
Lemma gbk_ind (P : list Z -> Prop) :
  P [] -> (forall c, P [c]) -> (forall c d l, P l -> P (d :: l) -> P (c :: d :: l)) ->
  forall l, P l.
Proof.
  intros H0 H1 H2 l. assert (P l /\ forall c, P (c :: l)) as [H _]; [|exact H].
  induction l as [|d l [IH IH']]; split; auto.
Qed.

Lemma gbk_fix_ok r l : 0 <= r < 128 -> gbk_ok (gbk_fix r l) = true.
Proof.
  intros Hr. pose proof (ascii_high r Hr) as Hr0.
  induction l as [|c|c d l IHl IHd] using gbk_ind; [done|..].
  - cbn. repeat case_match; cbn; rewrite ?Hr0; try done; by rewrite H0.
  - cbn [gbk_fix]. fold (gbk_fix r (d :: l)).
    destruct ((c =? 128) || (c =? 255)) eqn:Ec.
    { change (gbk_ok (r :: gbk_fix r (d :: l)) = true). cbn [gbk_ok]. by rewrite Hr0. }
    destruct (Z.land c 128 =? 0) eqn:El.
    { change (gbk_ok (c :: gbk_fix r (d :: l)) = true). cbn [gbk_ok]. by rewrite El. }
    destruct (gbk_second d) eqn:Ed.
    + cbn [gbk_ok]. rewrite El, Ed, IHl. unfold gbk_lead. rewrite El.
      apply orb_false_iff in Ec as [-> ->]. done.
    + change (gbk_ok (r :: gbk_fix r (d :: l)) = true). cbn [gbk_ok]. by rewrite Hr0.
Qed.

Lemma gbk_fix_id r l : gbk_ok l = true -> gbk_fix r l = l /\ gbk_errors l = 0.
Proof.
  induction l as [|c|c d l IHl IHd] using gbk_ind; [done|..]; intros H.
  - cbn in H. destruct (Z.land c 128 =? 0) eqn:El; [|done].
    cbn. rewrite El. destruct (Z.eqb_spec c 128); [by subst|]. destruct (Z.eqb_spec c 255); [by subst|].
    done.
  - cbn [gbk_ok] in H. cbn [gbk_fix gbk_errors].
    fold (gbk_fix r (d :: l)). fold (gbk_errors (d :: l)). destruct (Z.land c 128 =? 0) eqn:El.
    + destruct (Z.eqb_spec c 128); [by subst|]. destruct (Z.eqb_spec c 255); [by subst|]. cbn [orb].
      change (gbk_ok (d :: l) = true) in H. destruct (IHd H) as [H1 H2].
      cbn [gbk_fix gbk_errors] in H1, H2. by rewrite H1, H2.
    + apply andb_prop in H as [[Hc ->]%andb_prop H]. unfold gbk_lead in Hc.
      apply andb_prop in Hc as [[_ ->%negb_true_iff]%andb_prop ->%negb_true_iff]. cbn [orb].
      destruct (IHl H) as [-> ->]. done.
Qed.

Lemma gbk_fix_length r l : length (gbk_fix r l) = length l.
Proof.
  induction l as [|c|c d l IHl IHd] using gbk_ind; [done|cbn; by repeat case_match|].
  cbn [gbk_fix]. fold (gbk_fix r (d :: l)). destruct ((c =? 128) || (c =? 255)).
  - change (S (length (gbk_fix r (d :: l))) = length (c :: d :: l)). by rewrite IHd.
  - destruct (Z.land c 128 =? 0).
    + change (S (length (gbk_fix r (d :: l))) = length (c :: d :: l)). by rewrite IHd.
    + destruct (gbk_second d).
      * cbn. by rewrite IHl.
      * change (S (length (gbk_fix r (d :: l))) = length (c :: d :: l)). by rewrite IHd.
Qed.

(** [valid_gbk] with an ASCII replacement turns any bytes into well-formed
    GBK of the same length, in place, and leaves well-formed GBK as it is, with
    no error counted. *)
Theorem valid_gbk_repairs pre l post r : 0 <= r < 128 ->
  exists n l', valid_gbk (pre ++ l ++ post) (blen pre) (blen l) r = Done (n, pre ++ l' ++ post) /\
    length l' = length l /\ gbk_ok l' = true /\ (gbk_ok l = true -> l' = l /\ n = 0).
Proof.
  intros Hr. exists (gbk_errors l), (gbk_fix r l). split_and!.
  - unfold valid_gbk. rewrite to_nat_blen.
    apply (gbk_loop_spec r (length l)); [width; lia|lia|lia].
  - apply gbk_fix_length.
  - by apply gbk_fix_ok.
  - apply gbk_fix_id.
Qed.

Lemma valid_gbk_repairs_witness :
  exists n l', valid_gbk ([] ++ [65; 176; 32; 200] ++ [0]) 0 4 63 = Done (n, [] ++ l' ++ [0]) /\
    length l' = 4%nat /\ gbk_ok l' = true /\
    (gbk_ok [65; 176; 32; 200] = true -> l' = [65; 176; 32; 200] /\ n = 0).
Proof. apply (valid_gbk_repairs [] [65; 176; 32; 200] [0] 63). lia. Defined.

(** * Shortening *)

Lemma ellipsis_skip_spec s : forall fuel pre post i gbk,
  nul_free s -> (length s < fuel)%nat -> blen s <= i ->
  exists gbk', ellipsis_skip fuel (pre ++ s ++ 0 :: post) (blen pre) i gbk
    = Done (blen pre + blen s, gbk').
Proof.
  induction s as [|c s IH]; intros fuel pre post i gbk Hs Hf Hi;
    (destruct fuel as [|fuel]; [cbn in Hf; lia|]); cbn [ellipsis_skip app].
  - rewrite (rd_at _ pre 0 post) by done. cbn. exists gbk. by rewrite Z.add_0_r.
  - apply Forall_cons_1 in Hs as [Hc Hs]. cbn in Hf. rewrite blen_cons in *.
    pose proof (blen_nonneg s).
    rewrite (rd_at _ pre c (s ++ 0 :: post)) by done. cbn [mbind outcome_bind]. zcase.
    destruct (IH fuel (pre ++ [c]) post (i - 1)
      (if gbk then false else negb (Z.land (schar c) 128 =? 0))) as [gbk' H1]; [done|lia|lia|].
    exists gbk'. rewrite blen_app, <- app_assoc in H1. cbn [app] in H1.
    rewrite blen_cons, blen_nil, Z.add_0_r in H1. rewrite H1. do 2 f_equal. lia.
Qed.

(** [ellipsis] reads past the end of a string shorter than [len - 2] that
    fills its object, although there is nothing to shorten: its second loop
    steps over the NUL the first one stopped at. *)
Theorem ellipsis_short_overruns pre s len :
  nul_free s -> 3 <= len -> blen s <= len - 3 ->
  ellipsis (pre ++ s ++ [0]) (Some (blen pre)) len = Fault.
Proof.
  intros Hs H3 Hl. unfold ellipsis. do 2 zcase.
  destruct (ellipsis_skip_spec s (length (pre ++ s ++ [0]) + 1) pre [] (len - 3) false)
    as [gbk ->]; [done|rewrite !length_app; lia|done|].
  cbn [mbind outcome_bind]. cbn [ellipsis_tail]. rewrite (rd_end (pre ++ s ++ [0]) (blen pre + blen s + 1)); [done|blen].
Qed.

Lemma ellipsis_short_overruns_witness : ellipsis ([] ++ [65; 66] ++ [0]) (Some 0) 10 = Fault.
Proof. apply (ellipsis_short_overruns [] [65; 66] 10); [repeat constructor; lia|lia|vm_compute; congruence]. Defined.

(** A byte above 127 is a negative [char], and the digits [strtourl] writes for
    it are not hexadecimal: 176 becomes ["%+0"]. *)
Example strtourl_high_byte : strtourl (replicate 8 7) 0 [176; 0] 0 = Done [37; 43; 48; 0; 7; 7; 7; 7].
Proof. reflexivity. Qed.
