(* ===== verification/Helper.v ===== *)
(** Helpers on paths, hosts and line files: [lib/helper.c], and the lists of
    users that [src/bm.c] and [src/deny.c] keep in such files. *)
From S2P Require Import Prelude CString.

Definition BBS_ELEXIST : Z := -24.
Definition LINE_BUFSIZE : Z := 256.
Definition STRLEN : Z := 80.
Definition IP_LEN : Z := 40.

(** * Paths *)

(** [sprintf] with the first letter of the user in upper case. *)
Definition user_dir (root userid filename : list Z) : list Z :=
  root ++ [toupper (match userid with c :: _ => c | [] => 0 end)] ++ bytes "/" ++ userid ++ bytes "/" ++ filename.
Definition sethomefile (userid filename : list Z) : list Z := user_dir (bytes "home/") userid filename.
Definition setbpath (boardname : list Z) : list Z := bytes "boards/" ++ boardname.
Definition setbfile (boardname filename : list Z) : list Z := bytes "boards/" ++ boardname ++ bytes "/" ++ filename.
Definition setmfile (userid filename : list Z) : list Z := user_dir (bytes "mail/") userid filename.
Definition setmdir (userid : list Z) : list Z := user_dir (bytes "mail/") userid (bytes ".DIR").

(** * Hosts *)

(** [strrchr] of a character that is not NUL. *)
Fixpoint strrchr_from (s : list Z) (p c : Z) (found : option Z) : option Z :=
  match s with [] => found | x :: s => strrchr_from s (p + 1) c (if x =? c then Some p else found) end.
Definition strrchr (m : list Z) (p c : Z) : outcome (option Z) :=
  s ← cstring m p; Done (strrchr_from s p c None).

(** [masked] is the static buffer; the new buffer is returned. *)
Definition mask_host (masked host : list Z) : outcome (list Z) :=
  let end_ := IP_LEN in
  '(_, m) ← strlcpy masked 0 host 0 IP_LEN;
  dot ← strrchr m 0 46;
  m ← (match dot with
       | Some last =>
           let last := last + 1 in
           if last <? end_ then
             c ← rd m last;
             if isdigit c then
               m ← wr m last 42;
               if last + 1 <? end_ then wr m (last + 1) 0 else Done m
             else Done m
           else Done m
       | None =>
           colon ← strrchr m 0 58;
           match colon with
           | Some last =>
               m ← (if last + 1 <? end_ then wr m (last + 1) 42 else Done m);
               if last + 2 <? end_ then wr m (last + 2) 0 else Done m
           | None => Done m
           end
       end);
  wr m (IP_LEN - 1) 0.

(** [check_gbk], a NUL there, then [valid_gbk] with question marks. *)
Definition valid_title_gbk (title : list Z) : outcome (list Z) :=
  e ← check_gbk title 0;
  title ← wr title e 0;
  n ← strlen title 0;
  '(_, title) ← valid_gbk title 0 n 63;
  Done title.

(** * Line files *)

(** [fgets]: at most [n] bytes, up to a newline; [buf] is left with them and a
    NUL. *)
Fixpoint fgets_line (n : nat) (s : list Z) : list Z * list Z :=
  match n, s with
  | S n, c :: s => if c =? 10 then ([c], s) else let '(l, r) := fgets_line n s in (c :: l, r)
  | _, _ => ([], s)
  end.

Definition fgets (buf : list Z) (size : Z) (s : list Z) : outcome (option (list Z * list Z)) :=
  match s with
  | [] => Done None
  | _ =>
      let '(l, rest) := fgets_line (Z.to_nat (size - 1)) s in
      buf ← wrn buf 0 (l ++ [0]);
      Done (Some (buf, rest))
  end.

(** [strncmp] of the [n] first bytes finds no difference. *)
Fixpoint strncmp_loop (n : nat) (a b : list Z) (p q : Z) : outcome bool :=
  match n with
  | O => Done true
  | S n =>
      x ← rd a p;
      y ← rd b q;
      if x =? y then if x =? 0 then Done true else strncmp_loop n a b (p + 1) (q + 1) else Done false
  end.
Definition strncmp_eq (a : list Z) (p : Z) (b : list Z) (q n : Z) : outcome bool := strncmp_loop (Z.to_nat n) a b p q.

(** The first token of [strtok]: what is not in [delims], after what is. *)
Fixpoint skip_in (delims s : list Z) : list Z :=
  match s with [] => [] | c :: s' => if existsb (Z.eqb c) delims then skip_in delims s' else s end.
Fixpoint take_out (delims s : list Z) : list Z * list Z :=
  match s with
  | [] => ([], [])
  | c :: s' => if existsb (Z.eqb c) delims then ([], s') else let '(t, r) := take_out delims s' in (c :: t, r)
  end.
Definition strtok (delims s : list Z) : option (list Z * list Z) :=
  match skip_in delims s with [] => None | s => Some (take_out delims s) end.

(** [strcasecmp] finds no difference. *)
Definition strcaseeq (s t : list Z) : bool := bool_decide (map tolower s = map tolower t).

(** The lines of a file are read one by one into [buf]. *)
Fixpoint seek_loop (fuel : nat) (buf s seekstr : list Z) : outcome bool :=
  match fuel with
  | O => NoFuel
  | S fuel =>
      r ← fgets buf STRLEN s;
      match r with
      | None => Done false
      | Some (buf, s) =>
          l ← cstring buf 0;
          match strtok (bytes ": " ++ [10; 13; 9]) l with
          | Some (namep, _) => if strcaseeq namep seekstr then Done true else seek_loop fuel buf s seekstr
          | None => seek_loop fuel buf s seekstr
          end
      end
  end.

(** A file that cannot be opened is [None]. *)
Definition seek_in_file (buf : list Z) (file : option (list Z)) (seekstr : list Z) : outcome bool :=
  match file with None => Done false | Some s => seek_loop (length s + 1) buf s seekstr end.

Fixpoint special_loop (fuel : nat) (buf s uid host : list Z) (len : Z) : outcome (list Z) :=
  match fuel with
  | O => NoFuel
  | S fuel =>
      r ← fgets buf STRLEN s;
      match r with
      | None => Done host
      | Some (buf, s) =>
          l ← cstring buf 0;
          match strtok (bytes " " ++ [13; 10; 9]) l with
          | Some (special, l) =>
              if strcaseeq uid special then
                match strtok (bytes " " ++ [13; 10; 9]) l with
                | Some (special, _) => '(_, host) ← strlcpy host 0 (special ++ [0]) 0 len; Done host
                | None => Done host
                end
              else special_loop fuel buf s uid host len
          | None => special_loop fuel buf s uid host len
          end
      end
  end.

Definition SpecialID (buf : list Z) (file : option (list Z)) (uid host : list Z) (len : Z) : outcome (list Z) :=
  match file with None => Done host | Some s => special_loop (length s + 1) buf s uid host len end.

(** What is written to the new file, and whether the line was in the old one;
    [equal] may be a null pointer. *)
Fixpoint add_loop (fuel : nat) (buf s str : list Z) (len : Z) (overwrite : bool)
    (equal : option (list Z -> Z -> list Z -> Z -> outcome bool)) (found : bool) (out : list Z)
    : outcome (bool * list Z) :=
  match fuel with
  | O => NoFuel
  | S fuel =>
      r ← fgets buf LINE_BUFSIZE s;
      match r with
      | None => Done (found, out)
      | Some (buf, s) =>
          same ← (match equal with
                  | Some eq => if found then Done false else eq buf LINE_BUFSIZE str len
                  | None => Done false
                  end);
          if (same : bool) then
            if overwrite then t ← cstring str 0; add_loop fuel buf s str len overwrite equal true (out ++ t)
            else Done (true, out)
          else l ← cstring buf 0; add_loop fuel buf s str len overwrite equal found (out ++ l)
      end
  end.

Section Files.
(** The path of the new file fits its buffer and the file can be opened; it can
    be renamed; the old one can be removed. *)
Context (opened renamed unlinked : bool).

(** The result, and what becomes of [file]. *)
Definition add_to_file (buf : list Z) (file : option (list Z)) (str : list Z) (len : Z) (overwrite : bool)
    (equal : option (list Z -> Z -> list Z -> Z -> outcome bool)) : outcome (Z * option (list Z)) :=
  if negb opened then Done (-1, file)
  else
  '(found, out) ← (match file with
                   | Some s => add_loop (length s + 1) buf s str len overwrite equal false []
                   | None => Done (false, [])
                   end);
  t ← cstring str 0;
  let out := if (found : bool) then out else out ++ t in
  if negb overwrite && found then Done (BBS_ELEXIST, file)
  else if renamed then Done (0, Some out) else Done (-1, file).

Fixpoint del_loop (fuel : nat) (buf s str : list Z) (len : Z) (deleted : bool) (out : list Z) : outcome (bool * list Z) :=
  match fuel with
  | O => NoFuel
  | S fuel =>
      r ← fgets buf 1024 s;
      match r with
      | None => Done (deleted, out)
      | Some (buf, s) =>
          same ← (if deleted then Done false
                  else
                    c ← rd buf len;
                    if (c =? 0) || (c =? 32) || (c =? 10) then strncmp_eq buf 0 str 0 len else Done false);
          if (same : bool) then del_loop fuel buf s str len true out
          else l ← cstring buf 0; del_loop fuel buf s str len deleted (out ++ l)
      end
  end.

Definition del_from_file (buf : list Z) (file : option (list Z)) (str : list Z) : outcome (Z * option (list Z)) :=
  match file with
  | None => Done (-1, None)
  | Some s =>
      if negb opened then Done (-1, file)
      else
      len ← strlen str 0;
      '(deleted, out) ← del_loop (length s + 1) buf s str len false [];
      if (deleted : bool) then
        if blen out <=? 0 then if unlinked then Done (0, None) else Done (-1, file)
        else if renamed then Done (0, Some out) else Done (-1, file)
      else Done (-1, file)
  end.

(** * Lists of users *)

Definition club_do_add_equal (buf : list Z) (size : Z) (str : list Z) (len : Z) : outcome bool :=
  if size <=? len then Done false
  else c ← rd buf len; if c =? 32 then strncmp_eq buf 0 str 0 len else Done false.
Definition deny_do_add_eqaul (buf : list Z) (size : Z) (str : list Z) (len : Z) : outcome bool :=
  if size <=? len then Done false
  else c ← rd buf len; if c =? 32 then strncmp_eq buf 0 str 0 len else Done false.

(** [%-ns]. *)
Definition pad_right (n : nat) (s : list Z) : list Z := s ++ replicate (n - length s) 32.

(** The line of a member: [date] is what the year, the month and the day print. *)
Definition club_line (user ps date userid : list Z) : list Z :=
  take 255 (pad_right 12 user ++ [32] ++ pad_right 40 ps ++ [32] ++ date ++ [32] ++ pad_right 12 userid ++ [10]).

Definition club_do_add (buf : list Z) (file : option (list Z)) (user ps date userid : list Z)
    : outcome (Z * option (list Z)) :=
  add_to_file buf file (club_line user ps date userid ++ [0]) (blen user) false (Some club_do_add_equal).

Definition club_del (buf : list Z) (file : option (list Z)) (user : list Z) : outcome (Z * option (list Z)) :=
  del_from_file buf file (user ++ [0]).

(** A ban that is added, or changed. *)
Definition deny_line (user reason period userid : list Z) : list Z :=
  take 79 (pad_right 12 user ++ [32] ++ pad_right 31 reason ++ [32] ++ period ++ [32] ++ pad_right 12 userid ++ [10]).

Definition deny_edit (buf : list Z) (file : option (list Z)) (user reason period userid : list Z) (change : bool)
    : outcome (Z * option (list Z)) :=
  add_to_file buf file (deny_line user reason period userid ++ [0]) (blen user) change (Some deny_do_add_eqaul).

Definition deny_release (buf : list Z) (file : option (list Z)) (line : list Z) : outcome (Z * option (list Z)) :=
  del_from_file buf file (line ++ [0]).
End Files.

(** * Lines *)

(** A line that [fgets] reads whole into a buffer of [size] bytes. *)
Definition row_ok (size : Z) (row : list Z) : Prop :=
  nul_free row /\ Forall (fun c => c <> 10) row /\ blen row + 2 <= size.

(** A line that starts with the word [str]. *)
Definition is_row (str row : list Z) : bool :=
  bool_decide (take (length str) row = str) &&
  match drop (length str) row with [] => true | c :: _ => c =? 32 end.

Fixpoint remove_first (f : list Z -> bool) (rows : list (list Z)) : list (list Z) :=
  match rows with [] => [] | r :: rows => if f r then rows else r :: remove_first f rows end.

(** A file that does not exist is one without lines. *)
Definition listed (rows : list (list Z)) : option (list Z) :=
  match rows with [] => None | _ => Some (text_of rows) end.

Lemma text_of_cons r rows : text_of (r :: rows) = r ++ 10 :: text_of rows.
Proof. unfold text_of. cbn. by rewrite <- app_assoc. Qed.
Lemma text_of_app a b : text_of (a ++ b) = text_of a ++ text_of b.
Proof. unfold text_of. by rewrite fmap_app, join_app. Qed.

Lemma fgets_line_row row rest : Forall (fun c => c <> 10) row -> forall n, (length row < n)%nat ->
  fgets_line n (row ++ 10 :: rest) = (row ++ [10], rest).
Proof.
  induction 1 as [|c row Hc _ IH]; intros [|n] Hn; cbn [length] in Hn; try lia; cbn [fgets_line app]; [done|].
  rewrite (proj2 (Z.eqb_neq c 10)), IH by (done || lia). done.
Qed.

Lemma fgets_row buf size row rest : row_ok size row -> blen buf = size -> exists tl,
  fgets buf size (row ++ 10 :: rest) = Done (Some (row ++ 10 :: 0 :: tl, rest)) /\ blen (row ++ 10 :: 0 :: tl) = size.
Proof.
  intros (_ & Hr & Hl) Hb. unfold fgets. destruct (row ++ 10 :: rest) eqn:E; [by destruct row|]. rewrite <- E.
  pose proof (blen_nonneg row). rewrite fgets_line_row by (done || unfold blen in *; lia).
  exists (drop (length row + 2) buf).
  rewrite (wrn_at buf [] (take (length row + 2) buf) (drop (length row + 2) buf)).
  - cbn. rewrite <- !app_assoc. split; [done|]. rewrite blen_app, !blen_cons. unfold blen in *. rewrite length_drop. lia.
  - by rewrite app_nil_l, take_drop.
  - done.
  - rewrite !blen_app. change (blen [10]) with 1. change (blen [0]) with 1. unfold blen in *. rewrite length_take. lia.
Qed.

(** [strncmp] against a whole string. *)
Lemma strncmp_whole s t sp tp : nul_free s -> nul_free t -> forall pre qre,
  strncmp_loop (length s) (pre ++ t ++ 0 :: tp) (qre ++ s ++ sp) (blen pre) (blen qre) =
    Done (bool_decide (take (length s) t = s)).
Proof.
  intros Hs. revert t. induction Hs as [|c s Hc Hs IH]; intros t Ht pre qre; [done|].
  cbn [strncmp_loop length]. destruct Ht as [|d t Hd Ht].
  - rewrite (rd_at (pre ++ [] ++ 0 :: tp) pre 0 tp) by done. cbn [mbind outcome_bind]. rewrite (rd_at _ qre c (s ++ sp)) by done. cbn [mbind outcome_bind].
    rewrite (proj2 (Z.eqb_neq 0 c)) by lia. by rewrite bool_decide_eq_false_2 by done.
  - rewrite (rd_at (pre ++ (d :: t) ++ 0 :: tp) pre d (t ++ 0 :: tp)) by done. cbn [mbind outcome_bind]. rewrite (rd_at _ qre c (s ++ sp)) by done. cbn [mbind outcome_bind].
    destruct (Z.eqb_spec d c) as [->|Hne].
    + rewrite (proj2 (Z.eqb_neq c 0)) by lia.
      replace (pre ++ (c :: t) ++ 0 :: tp) with ((pre ++ [c]) ++ t ++ 0 :: tp) by app_eq.
      replace (qre ++ (c :: s) ++ sp) with ((qre ++ [c]) ++ s ++ sp) by app_eq.
      replace (blen pre + 1) with (blen (pre ++ [c])) by (by rewrite blen_app).
      replace (blen qre + 1) with (blen (qre ++ [c])) by (by rewrite blen_app).
      rewrite IH by done. cbn [take]. do 2 f_equal. apply bool_decide_ext. split; [by intros ->|by intros [= ->]].
    + rewrite bool_decide_eq_false_2; [done|]. cbn. congruence.
Qed.

(** The comparison of a line with the word that [mem] starts with. *)
Lemma word_cmp str row sp tl : nul_free str -> Forall (fun c => c <> 10) str -> nul_free row ->
  strncmp_eq (row ++ 10 :: 0 :: tl) 0 (str ++ sp) 0 (blen str) = Done (bool_decide (take (length str) row = str)).
Proof.
  intros Hs Hsn Hr. unfold strncmp_eq. rewrite to_nat_blen. pose proof (strncmp_whole str (row ++ [10]) sp tl Hs) as H.
  specialize (H ltac:(apply Forall_app; split; [done|by repeat constructor]) [] []). rewrite <- app_assoc in H. cbn [app] in H.
  change (blen []) with 0 in H. rewrite H. f_equal. apply bool_decide_ext. destruct (decide (length str <= length row)%nat).
  - by rewrite take_app_le by lia.
  - rewrite !take_ge; [|lia|rewrite length_app; cbn; lia]. split; [|intros ->; lia].
    intros <-. apply Forall_app in Hsn as [_ Hn]. by apply Forall_cons_1 in Hn as [? _].
Qed.

(** What follows the word. *)
Lemma word_end str row tl : blen str < blen (row ++ 10 :: 0 :: tl) -> exists c, rd (row ++ 10 :: 0 :: tl) (blen str) = Done c /\
  (take (length str) row = str -> c = match drop (length str) row with [] => 10 | c :: _ => c end).
Proof.
  intros Hl. destruct (rd_in (row ++ 10 :: 0 :: tl) (blen str)) as [c Hc]; [pose proof (blen_nonneg str); lia|].
  exists c. split; [done|]. intros Ht. assert (row = str ++ drop (length str) row) as E by (rewrite <- Ht at 1; by rewrite take_drop).
  destruct (drop (length str) row) as [|d rest].
  - rewrite (rd_at _ str 10 (0 :: tl)) in Hc by (done || (rewrite E; app_eq)). by injection Hc.
  - rewrite (rd_at _ str d (rest ++ 10 :: 0 :: tl)) in Hc by (done || (rewrite E; app_eq)). by injection Hc.
Qed.

Lemma row_line size row tl : row_ok size row -> cstring (row ++ 10 :: 0 :: tl) 0 = Done (row ++ [10]).
Proof.
  intros (Hr & _ & _). apply (cstring_at _ [] (row ++ [10]) tl); [app_eq|done|].
  apply Forall_app. split; [done|by repeat constructor].
Qed.

Lemma rows_length row rows : (length (text_of rows) < length (text_of (row :: rows)))%nat.
Proof. rewrite text_of_cons, length_app. cbn. lia. Qed.

Lemma del_loop_rows str rows : nul_free str -> Forall (fun c => c <> 10) str -> blen str < 1024 -> Forall (row_ok 1024) rows ->
  forall fuel buf deleted out, blen buf = 1024 -> (length (text_of rows) < fuel)%nat ->
  del_loop fuel buf (text_of rows) (str ++ [0]) (blen str) deleted out =
    Done (deleted || existsb (is_row str) rows, out ++ text_of (if deleted then rows else remove_first (is_row str) rows)).
Proof.
  intros Hs Hsn Hl Hrows. induction Hrows as [|row rows Hr _ IH]; intros fuel buf deleted out Hb Hf; (destruct fuel as [|fuel]; [lia|]); cbn [del_loop].
  - change (text_of []) with (@nil Z). destruct deleted; cbn; by rewrite app_nil_r.
  - pose proof (rows_length row rows). rewrite text_of_cons in *. destruct (fgets_row buf 1024 row (text_of rows) Hr Hb) as (tl & -> & Hb').
    cbn [mbind outcome_bind]. pose proof (row_line 1024 row tl Hr) as Hline. destruct deleted; cbn [mbind outcome_bind orb].
    + rewrite Hline. cbn [mbind outcome_bind]. rewrite IH by (done || lia). rewrite text_of_cons. cbn [orb]. do 2 f_equal. app_eq.
    + destruct Hr as (Hr1 & Hr2 & Hr3). destruct (word_end str row tl) as (c & Hc & Heq); [lia|]. pose proof (word_cmp str row [0] tl Hs Hsn Hr1) as Hcmp. rewrite Hc. cbn [mbind outcome_bind existsb remove_first].
      assert ((if (c =? 0) || (c =? 32) || (c =? 10) then strncmp_eq (row ++ 10 :: 0 :: tl) 0 (str ++ [0]) 0 (blen str) else Done false)
        = Done (is_row str row)) as ->.
      { rewrite Hcmp. unfold is_row. case_bool_decide as Ht; [|by destruct (_ || _)]. specialize (Heq Ht). cbn [andb].
        assert (nul_free (drop (length str) row) /\ Forall (fun c => c <> 10) (drop (length str) row)) as [Hd1 Hd2]
          by (split; by apply Forall_drop).
        destruct (drop (length str) row) as [|d rest]; subst c; [done|]. apply Forall_cons_1 in Hd1 as [Hd1 _]. apply Forall_cons_1 in Hd2 as [Hd2 _].
        rewrite (proj2 (Z.eqb_neq d 0)), (proj2 (Z.eqb_neq d 10)) by (done || lia). cbn [orb]. rewrite orb_false_r. by destruct (d =? 32). }
      cbn [mbind outcome_bind]. destruct (is_row str row); cbn [orb].
      * rewrite IH by (done || lia). by rewrite orb_true_l.
      * rewrite Hline. cbn [mbind outcome_bind]. rewrite IH by (done || lia). rewrite text_of_cons. cbn [orb]. do 2 f_equal. app_eq.
Qed.

Lemma listed_text rows : (if blen (text_of rows) <=? 0 then None else Some (text_of rows)) = listed rows.
Proof.
  destruct rows as [|r rows]; [done|]. cbn [listed]. rewrite text_of_cons, (proj2 (Z.leb_gt _ _)); [done|]. blen.
Qed.

Lemma del_rows buf rows str : nul_free str -> Forall (fun c => c <> 10) str -> blen str < 1024 -> Forall (row_ok 1024) rows ->
  blen buf = 1024 -> del_from_file true true true buf (Some (text_of rows)) (str ++ [0]) =
    Done (if existsb (is_row str) rows then (0, listed (remove_first (is_row str) rows)) else (-1, Some (text_of rows))).
Proof.
  intros Hs Hsn Hl Hr Hb. unfold del_from_file. cbn [negb]. rewrite (strlen_at _ [] str []) by done. cbn [mbind outcome_bind].
  rewrite (del_loop_rows str rows) by (done || lia). cbn [mbind outcome_bind app orb].
  destruct (existsb _ _); [|done]. rewrite <- listed_text. by destruct (_ <=? 0).
Qed.

(** Deleting a word from a file of lines removes the first line that is the
    word, or the word and a space and more, leaves the other lines and their
    order, and removes the file when no line is left; without such a line the
    result is -1 and the file is not changed. *)
Theorem del_from_file_removes buf rows str : nul_free str -> Forall (fun c => c <> 10) str -> blen str < 1024 ->
  Forall (row_ok 1024) rows -> blen buf = 1024 -> del_from_file true true true buf (Some (text_of rows)) (str ++ [0]) =
    Done (if existsb (is_row str) rows then (0, listed (remove_first (is_row str) rows)) else (-1, Some (text_of rows))).
Proof. apply del_rows. Qed.

Lemma del_from_file_removes_witness :
  del_from_file true true true (replicate 1024 7) (Some (bytes "ann 1" ++ [10] ++ bytes "an 2" ++ [10] ++ bytes "an" ++ [10])) (bytes "an" ++ [0]) =
    Done (0, Some (bytes "ann 1" ++ [10] ++ bytes "an" ++ [10])).
Proof.
  apply (del_from_file_removes (replicate 1024 7) [bytes "ann 1"; bytes "an 2"; bytes "an"] (bytes "an")); try by repeat constructor.
Defined.

(** A line that starts with the word [str] and a space. *)
Definition starts_row (str row : list Z) : bool :=
  bool_decide (take (length str) row = str) && match drop (length str) row with [] => false | c :: _ => c =? 32 end.

Lemma starts_is str row : starts_row str row = true -> is_row str row = true.
Proof. unfold starts_row, is_row. intros [-> H]%andb_true_iff. by destruct (drop _ _). Qed.

Lemma equal_row size str row sp tl : nul_free str -> Forall (fun c => c <> 10) str -> row_ok size row ->
  blen str < size -> blen (row ++ 10 :: 0 :: tl) = size ->
  club_do_add_equal (row ++ 10 :: 0 :: tl) size (str ++ sp) (blen str) = Done (starts_row str row).
Proof.
  intros Hs Hsn (Hr1 & Hr2 & Hr3) Hl Hb. unfold club_do_add_equal. rewrite (proj2 (Z.leb_gt _ _)) by lia.
  destruct (word_end str row tl) as (c & -> & Heq); [lia|]. cbn [mbind outcome_bind]. rewrite word_cmp by done.
  unfold starts_row. case_bool_decide as Ht; cbn [andb]; [|by destruct (c =? 32)]. rewrite (Heq Ht).
  destruct (drop _ row) as [|d ?]; [done|by destruct (d =? 32)].
Qed.

(** [r] for the first line that [f] finds. *)
Fixpoint replace_first (f : list Z -> bool) (r : list Z) (rows : list (list Z)) : list (list Z) :=
  match rows with [] => [] | x :: rows => if f x then r :: rows else x :: replace_first f r rows end.

Lemma add_loop_rows user line overwrite rows sp : nul_free user -> Forall (fun c => c <> 10) user -> blen user < LINE_BUFSIZE ->
  cstring (user ++ sp) 0 = Done (line ++ [10]) -> Forall (row_ok LINE_BUFSIZE) rows ->
  forall fuel buf found out, blen buf = LINE_BUFSIZE -> (length (text_of rows) < fuel)%nat -> exists out',
  add_loop fuel buf (text_of rows) (user ++ sp) (blen user) overwrite (Some club_do_add_equal) found out =
    Done (found || existsb (starts_row user) rows, out') /\
  (overwrite || found || negb (existsb (starts_row user) rows) = true ->
   out' = out ++ text_of (if found then rows else replace_first (starts_row user) line rows)).
Proof.
  intros Hs Hsn Hl Hline Hrows. induction Hrows as [|row rows Hr _ IH]; intros fuel buf found out Hb Hf; (destruct fuel as [|fuel]; [lia|]); cbn [add_loop].
  - change (text_of []) with (@nil Z). exists out. rewrite orb_false_r. split; [done|]. intros _. destruct found; cbn; by rewrite app_nil_r.
  - pose proof (rows_length row rows). rewrite text_of_cons in *. destruct (fgets_row buf LINE_BUFSIZE row (text_of rows) Hr Hb) as (tl & -> & Hb').
    cbn [mbind outcome_bind]. pose proof (row_line LINE_BUFSIZE row tl Hr) as Hrl. rewrite (equal_row LINE_BUFSIZE user row sp tl) by done.
    cbn [existsb replace_first]. destruct found; cbn [mbind outcome_bind orb].
    + rewrite Hrl. cbn [mbind outcome_bind]. destruct (IH fuel (row ++ 10 :: 0 :: tl) true (out ++ row ++ [10])) as (o & -> & Ho); [done|lia|].
      exists o. split; [done|]. rewrite text_of_cons. intros _. rewrite Ho by (by rewrite orb_true_r). app_eq.
    + destruct (starts_row user row); cbn [orb negb].
      * destruct overwrite; [|by exists out]. rewrite Hline. cbn [mbind outcome_bind].
        destruct (IH fuel (row ++ 10 :: 0 :: tl) true (out ++ line ++ [10])) as (o & -> & Ho); [done|lia|].
        exists o. split; [done|]. rewrite text_of_cons. intros _. rewrite Ho by (by rewrite orb_true_r). app_eq.
      * rewrite Hrl. cbn [mbind outcome_bind]. destruct (IH fuel (row ++ 10 :: 0 :: tl) false (out ++ row ++ [10])) as (o & -> & Ho); [done|lia|].
        exists o. split; [done|]. rewrite text_of_cons. intros H'. rewrite Ho by done. app_eq.
Qed.

Lemma replace_none f r rows : existsb f rows = false -> replace_first f r rows = rows.
Proof.
  induction rows as [|x rows IH]; [done|]. cbn. intros [Hx Hr]%orb_false_iff. by rewrite Hx, IH.
Qed.

Lemma listed_content rows : match listed rows with Some s => s | None => [] end = text_of rows.
Proof. by destruct rows. Qed.

(** A line added, or put for the one that starts with the same word. *)
Lemma add_rows buf rows user line sp overwrite : nul_free user -> Forall (fun c => c <> 10) user -> blen user < LINE_BUFSIZE ->
  cstring (user ++ sp) 0 = Done (line ++ [10]) -> Forall (row_ok LINE_BUFSIZE) rows -> blen buf = LINE_BUFSIZE ->
  add_to_file true true buf (listed rows) (user ++ sp) (blen user) overwrite (Some club_do_add_equal) =
    Done (if existsb (starts_row user) rows
          then if overwrite then (0, listed (replace_first (starts_row user) line rows)) else (BBS_ELEXIST, listed rows)
          else (0, listed (rows ++ [line]))).
Proof.
  intros Hs Hsn Hl Hline Hrows Hb. unfold add_to_file. cbn [negb].
  destruct (add_loop_rows user line overwrite rows sp Hs Hsn Hl Hline Hrows (length (text_of rows) + 1) buf false []) as (o & Ho & Ht); [done|lia|].
  assert ((match listed rows with
           | Some s => add_loop (length s + 1) buf s (user ++ sp) (blen user) overwrite (Some club_do_add_equal) false []
           | None => Done (false, [])
           end) = Done (existsb (starts_row user) rows, if existsb (starts_row user) rows then o else text_of rows)) as ->.
  { destruct rows as [|r rows]; [done|]. cbn [listed]. rewrite Ho. cbn [orb] in *. destruct (existsb _ _) eqn:E; [done|].
    rewrite Ht by (cbn; by rewrite orb_true_r). by rewrite replace_none. }
  cbn [mbind outcome_bind]. rewrite Hline. cbn [mbind outcome_bind]. cbn [orb] in Ht. destruct (existsb _ rows) eqn:E.
  - destruct overwrite; [|done]. cbn [negb andb]. rewrite Ht by done. cbn [app]. do 2 f_equal.
    destruct rows as [|r rows]; [done|]. cbn [replace_first]. by destruct (starts_row user r).
  - rewrite andb_false_r. do 2 f_equal. replace (text_of rows ++ line ++ [10]) with (text_of (rows ++ [line])) by (rewrite text_of_app; f_equal; unfold text_of; cbn; by rewrite app_nil_r).
    by destruct rows.
Qed.

(** * Looking for a word *)

(** The first word of the line, in any case. *)
Definition names (w row : list Z) : bool :=
  match strtok (bytes ": " ++ [10; 13; 9]) (row ++ [10]) with Some (t, _) => strcaseeq t w | None => false end.

Lemma seek_rows w rows : Forall (row_ok STRLEN) rows -> forall fuel buf, blen buf = STRLEN ->
  (length (text_of rows) < fuel)%nat -> seek_loop fuel buf (text_of rows) w = Done (existsb (names w) rows).
Proof.
  induction 1 as [|row rows Hr _ IH]; intros fuel buf Hb Hf; (destruct fuel as [|fuel]; [lia|]); [done|]. cbn [seek_loop].
  pose proof (rows_length row rows). rewrite text_of_cons in *. destruct (fgets_row buf STRLEN row (text_of rows) Hr Hb) as (tl & -> & Hb').
  cbn [mbind outcome_bind]. rewrite (row_line STRLEN row tl Hr). cbn [mbind outcome_bind existsb]. unfold names at 1.
  destruct (strtok _ _) as [[t r]|]; [destruct (strcaseeq t w); [done|]|]; rewrite IH by (done || lia); done.
Qed.

(** The name of a user: letters and digits. *)
Definition user_name (w : list Z) : Prop := Forall (fun c => isalpha c || isdigit c = true) w /\ w <> [] /\ blen w <= 12.

Lemma alnum_char c : isalpha c || isdigit c = true -> 47 < c < 123 /\ c <> 58.
Proof. unfold isalpha, isupper, islower, isdigit. lia. Qed.

Lemma user_plain w : user_name w -> nul_free w /\ Forall (fun c => c <> 10) w.
Proof. intros [Hw _]. split; (eapply Forall_impl; [|exact Hw]); intros c Hc%alnum_char; lia. Qed.

Lemma take_out_word delims w d r : Forall (fun c => existsb (Z.eqb c) delims = false) w -> existsb (Z.eqb d) delims = true ->
  take_out delims (w ++ d :: r) = (w, r).
Proof. induction 1 as [|c w Hc _ IH]; intros Hd; cbn; [by rewrite Hd|]. by rewrite Hc, IH. Qed.

Lemma names_word w r : user_name w -> names w (w ++ 32 :: r) = true.
Proof.
  intros (Hw & Hne & _). unfold names, strtok.
  assert (Forall (fun c => existsb (Z.eqb c) (bytes ": " ++ [10; 13; 9]) = false) w) as Hd.
  { eapply Forall_impl; [|exact Hw]. intros c Hc%alnum_char. cbn. lia. }
  replace ((w ++ 32 :: r) ++ [10]) with (w ++ 32 :: (r ++ [10])) by app_eq.
  assert (skip_in (bytes ": " ++ [10; 13; 9]) (w ++ 32 :: (r ++ [10])) = w ++ 32 :: (r ++ [10])) as ->.
  { destruct w as [|c w]; [done|]. apply Forall_cons_1 in Hd as [Hd _]. cbn [app skip_in]. by rewrite Hd. }
  destruct (w ++ 32 :: (r ++ [10])) eqn:E; [by destruct w|]. rewrite <- E, take_out_word by done.
  by apply bool_decide_eq_true_2.
Qed.

(** A field of a line. *)
Definition field (n : Z) (s : list Z) : Prop := nul_free s /\ Forall (fun c => c <> 10) s /\ blen s <= n.

Lemma pad_blen n s : blen s <= Z.of_nat n -> blen (pad_right n s) = Z.of_nat n.
Proof. intros H. unfold pad_right. rewrite blen_app. unfold blen in *. rewrite length_replicate. lia. Qed.

Lemma pad_field n s : field (Z.of_nat n) s -> field (Z.of_nat n) (pad_right n s).
Proof.
  intros (H1 & H2 & H3). split; [|split].
  - apply Forall_app. split; [done|]. apply list.Forall_forall. intros x Hx%elem_of_replicate. lia.
  - apply Forall_app. split; [done|]. apply list.Forall_forall. intros x Hx%elem_of_replicate. lia.
  - by rewrite pad_blen.
Qed.

Lemma club_line_row user ps date by_ : user_name user -> field 40 ps -> field 10 date -> field 12 by_ ->
  exists r, club_line user ps date by_ = (user ++ 32 :: r) ++ [10] /\ row_ok STRLEN (user ++ 32 :: r).
Proof.
  intros Hu Hps Hd Hb. pose proof (user_plain user Hu) as [Hu1 Hu2]. destruct Hu as (_ & _ & Hu).
  apply (pad_field 40) in Hps. apply (pad_field 12) in Hb. pose proof (pad_field 12 user ltac:(done)) as Hpu.
  set (body := pad_right 12 user ++ [32] ++ pad_right 40 ps ++ [32] ++ date ++ [32] ++ pad_right 12 by_).
  assert (exists r, body = user ++ 32 :: r) as [r Hr].
  { subst body. unfold pad_right at 1. rewrite <- app_assoc. destruct (12 - length user)%nat; cbn [replicate app]; by eexists. }
  assert (field 77 body) as (B1 & B2 & B3).
  { unfold body. destruct Hps as (? & ? & ?), Hb as (? & ? & ?), Hpu as (? & ? & ?), Hd as (? & ? & ?). split; [|split].
    - do 6 (apply Forall_app; split; [first [done|by repeat constructor]|]). done.
    - do 6 (apply Forall_app; split; [first [done|by repeat constructor]|]). done.
    - rewrite !blen_app. change (blen [32]) with 1. lia. }
  exists r. rewrite Hr in *. split; [|split; [done|split; [done|unfold STRLEN; lia]]].
  unfold club_line. replace (pad_right 12 user ++ _) with (body ++ [10]) by (unfold body; app_eq). rewrite Hr.
  apply take_ge. rewrite length_app. cbn [length]. unfold blen in B3. lia.
Qed.

Lemma starts_word user r : starts_row user (user ++ 32 :: r) = true.
Proof. unfold starts_row. rewrite take_app_length, drop_app_length. by rewrite bool_decide_eq_true_2. Qed.

Lemma remove_last f rows r : existsb f rows = false -> f r = true -> remove_first f (rows ++ [r]) = rows.
Proof.
  intros Hn Hr. induction rows as [|x rows IH]; cbn in *; [by rewrite Hr|]. apply orb_false_iff in Hn as [-> Hn]. by rewrite IH.
Qed.

Lemma not_starts user rows : existsb (is_row user) rows = false -> existsb (starts_row user) rows = false.
Proof.
  induction rows as [|r rows IH]; [done|]. cbn. intros [H1 H2]%orb_false_iff. rewrite IH by done.
  destruct (starts_row user r) eqn:E; [|done]. apply starts_is in E. congruence.
Qed.

Lemma row_ok_weaken n m row : row_ok n row -> n <= m -> row_ok m row.
Proof. intros (? & ? & ?) ?. split; [done|]. split; [done|lia]. Qed.

Lemma add_member buf rows user ps date by_ : user_name user -> field 40 ps -> field 10 date -> field 12 by_ -> blen buf = LINE_BUFSIZE ->
  Forall (row_ok STRLEN) rows -> exists r, row_ok STRLEN (user ++ 32 :: r) /\ club_do_add true true buf (listed rows) user ps date by_ =
    Done (if existsb (starts_row user) rows then (BBS_ELEXIST, listed rows) else (0, listed (rows ++ [user ++ 32 :: r]))).
Proof.
  intros Hu Hps Hd Hby Hb Hr0. pose proof (user_plain user Hu) as [Hu1 Hu2].
  assert (blen user < LINE_BUFSIZE) as Hl by (destruct Hu as (_ & _ & ?); unfold LINE_BUFSIZE; lia).
  destruct (club_line_row user ps date by_ Hu Hps Hd Hby) as (r & Hr & Hok).
  exists r. split; [done|]. unfold club_do_add. rewrite Hr. rewrite <- !app_assoc.
  rewrite (add_rows buf rows user (user ++ 32 :: r)); try done.
  - apply (cstring_at _ [] ((user ++ 32 :: r) ++ [10]) []); [app_eq|done|]. destruct Hok as (H & _). apply Forall_app. split; [done|by repeat constructor].
  - eapply Forall_impl; [|exact Hr0]. intros x Hx. by eapply row_ok_weaken.
Qed.

Lemma del_member buf rows user r : user_name user -> blen buf = 1024 -> Forall (row_ok STRLEN) (rows ++ [user ++ 32 :: r]) ->
  existsb (is_row user) rows = false -> club_del true true true buf (listed (rows ++ [user ++ 32 :: r])) user = Done (0, listed rows).
Proof.
  intros Hu Hb Hall Hn. pose proof (user_plain user Hu) as [Hu1 Hu2]. unfold club_del.
  assert (listed (rows ++ [user ++ 32 :: r]) = Some (text_of (rows ++ [user ++ 32 :: r]))) as -> by (by destruct rows).
  rewrite del_rows; try done; [|destruct Hu as (_ & _ & ?); lia|eapply Forall_impl; [|exact Hall]; intros y Hy; by eapply row_ok_weaken].
  rewrite existsb_app. cbn [existsb]. rewrite (starts_is _ _ (starts_word user r)), orb_true_r.
  by rewrite remove_last by (done || apply starts_is, starts_word).
Qed.

(** A user added to the members of a club is found, in any case of letters,
    is not added twice, and is taken out again: the file is then what it was,
    or is removed when it had no line. *)
Theorem club_membership b1 b2 b3 b4 rows user ps date by_ :
  user_name user -> field 40 ps -> field 10 date -> field 12 by_ ->
  Forall (row_ok STRLEN) rows -> existsb (is_row user) rows = false ->
  blen b1 = LINE_BUFSIZE -> blen b2 = LINE_BUFSIZE -> blen b3 = STRLEN -> blen b4 = 1024 ->
  exists file, club_do_add true true b1 (listed rows) user ps date by_ = Done (0, file) /\
    (forall ps date by_, field 40 ps -> field 10 date -> field 12 by_ ->
      club_do_add true true b2 file user ps date by_ = Done (BBS_ELEXIST, file)) /\
    seek_in_file b3 file user = Done true /\ club_del true true true b4 file user = Done (0, listed rows).
Proof.
  intros Hu Hps Hd Hby Hrows Hn Hb1 Hb2 Hb3 Hb4.
  destruct (add_member b1 rows user ps date by_) as (r & Hok & Had); try done. rewrite not_starts in Had by done.
  assert (Forall (row_ok STRLEN) (rows ++ [user ++ 32 :: r])) as Hall by (apply Forall_app; split; [done|by constructor]).
  exists (listed (rows ++ [user ++ 32 :: r])). split; [done|]. split; [|split].
  - intros ps' date' by' ? ? ?. destruct (add_member b2 (rows ++ [user ++ 32 :: r]) user ps' date' by') as (r' & _ & ->); try done.
    rewrite existsb_app. cbn [existsb]. by rewrite starts_word, orb_true_r.
  - assert (exists x xs, rows ++ [user ++ 32 :: r] = x :: xs) as (x & xs & E) by (destruct rows; by do 2 eexists).
    rewrite E in *. cbn [listed seek_in_file]. rewrite seek_rows by (done || lia). rewrite <- E, existsb_app. cbn [existsb].
    by rewrite names_word, orb_true_r.
  - by apply del_member.
Qed.

Lemma club_membership_witness :
  exists file, club_do_add true true (replicate 256 7) (Some (bytes "bob x" ++ [10])) (bytes "Ann") (bytes "hi") (bytes "2012.01.02") (bytes "SYSOP") = Done (0, file) /\
    (forall ps date by_, field 40 ps -> field 10 date -> field 12 by_ ->
      club_do_add true true (replicate 256 7) file (bytes "Ann") ps date by_ = Done (BBS_ELEXIST, file)) /\
    seek_in_file (replicate 80 7) file (bytes "Ann") = Done true /\
    club_del true true true (replicate 1024 7) file (bytes "Ann") = Done (0, Some (bytes "bob x" ++ [10])).
Proof.
  apply (club_membership (replicate 256 7) (replicate 256 7) (replicate 80 7) (replicate 1024 7) [bytes "bob x"] (bytes "Ann")
    (bytes "hi") (bytes "2012.01.02") (bytes "SYSOP")); try done; by repeat constructor.
Defined.
