(* ===== verification/Utf8.v ===== *)
(** UTF-8 strings: the second part of [lib/string.c]. *)
From S2P Require Import Prelude CString.

(** [WEOF] as the [wchar_t] it is compared with. *)
Definition WEOF : Z := -1.

Definition is_cont (c : Z) : bool := Z.land c 192 =? 128.

(** The bytes at [p], [p + 1], ... are [n] continuation bytes; the reads stop at
    the first that is not. *)
Fixpoint conts_at (m : list Z) (p : Z) (n : nat) : outcome bool :=
  match n with
  | O => Done true
  | S n => c ← rd m p; if is_cont c then conts_at m (p + 1) n else Done false
  end.

(** The code point, where the string pointer is left and how many bytes remain.
    Without a count, 9 bytes are assumed to be there. *)
Definition next_wchar (m : list Z) (str : Z) (leftp : option Z)
    : outcome (Z * Z * option Z) :=
  let left := default 9 leftp in
  let advance wc incr := Done (wc, str + incr, (fun l => u64 (l - incr)) <$> leftp) in
  let invalid := Done (WEOF, str, leftp) in
  if left =? 0 then Done (0, str, leftp)
  else
    s0 ← rd m str;
    if s0 =? 0 then Done (0, str, leftp)
    else if s0 <? 128 then advance s0 1
    else if (Z.land s0 224 =? 192) && (1 <? left) then
      ok ← conts_at m (str + 1) 1;
      if (ok : bool) then
        s1 ← rd m (str + 1);
        advance (Z.lor (Z.shiftl (Z.land s0 31) 6) (Z.land s1 63)) 2
      else invalid
    else if (Z.land s0 240 =? 224) && (2 <? left) then
      ok ← conts_at m (str + 1) 2;
      if (ok : bool) then
        s1 ← rd m (str + 1);
        s2 ← rd m (str + 2);
        advance (Z.lor (Z.lor (Z.shiftl (Z.land s0 15) 12) (Z.shiftl (Z.land s1 63) 6))
                       (Z.land s2 63)) 3
      else invalid
    else if (Z.land s0 248 =? 240) && (3 <? left) then
      ok ← conts_at m (str + 1) 3;
      if (ok : bool) then
        s1 ← rd m (str + 1);
        s2 ← rd m (str + 2);
        s3 ← rd m (str + 3);
        advance (Z.lor (Z.lor (Z.lor (Z.shiftl (Z.land s0 7) 18) (Z.shiftl (Z.land s1 63) 12))
                              (Z.shiftl (Z.land s2 63) 6)) (Z.land s3 63)) 4
      else invalid
    else invalid.

Fixpoint tail_loop (fuel : nat) (m : list Z) (b e p : Z) : outcome (Z * list Z) :=
  match fuel with
  | O => NoFuel
  | S fuel =>
      if b <=? p then
        c ← rd m p;
        if is_cont c then tail_loop fuel m b e (p - 1)
        else
          '(wc, p, _) ← next_wchar m p None;
          if wc =? WEOF then m ← wr m p 0; Done (e - p, m)
          else Done (0, m)
      else Done (0, m)
  end.

Definition string_check_tail (m : list Z) (b : Z) (e : option Z) : outcome (Z * list Z) :=
  e ← (match e with Some e => Done e | None => n ← strlen m b; Done (b + n) end);
  tail_loop (Z.to_nat (e - b) + 1) m b e (e - 1).

Definition string_cp (md : list Z) (dst : Z) (ms : list Z) (src siz : Z)
    : outcome (Z * list Z) :=
  '(size, md) ← strlcpy md dst ms src siz;
  if siz <=? size then
    '(n, md) ← string_check_tail md dst (Some (dst + siz - 1));
    Done (u64 (size - n), md)
  else Done (size, md).

(** * Widths *)

Local Abbreviation interval := (Z * Z)%type.

Fixpoint bisearch_loop (fuel : nat) (ucs : Z) (table : list interval) (min max : Z)
    : outcome bool :=
  match fuel with
  | O => NoFuel
  | S fuel =>
      if min <=? max then
        let mid := Z.quot (min + max) 2 in
        match table !! Z.to_nat mid with
        | None => Fault
        | Some (first, last) =>
            if last <? ucs then bisearch_loop fuel ucs table (mid + 1) max
            else if ucs <? first then bisearch_loop fuel ucs table min (mid - 1)
            else Done true
        end
      else Done false
  end.

Definition bisearch (ucs : Z) (table : list interval) (max : Z) : outcome bool :=
  match table !! 0%nat, table !! Z.to_nat max with
  | Some (first, _), Some (_, last) =>
      if (ucs <? first) || (last <? ucs) then Done false
      else bisearch_loop (length table + 1) ucs table 0 max
  | _, _ => Fault
  end.

(** The intervals of non-spacing characters. *)
Definition combining : list interval := [
  (0x0300, 0x0357); (0x035d, 0x036f); (0x0483, 0x0486); (0x0488, 0x0489);
  (0x0591, 0x05a1); (0x05a3, 0x05b9); (0x05bb, 0x05bd); (0x05bf, 0x05bf);
  (0x05c1, 0x05c2); (0x05c4, 0x05c4); (0x0600, 0x0603); (0x0610, 0x0615);
  (0x064b, 0x0658); (0x0670, 0x0670); (0x06d6, 0x06e4); (0x06e7, 0x06e8);
  (0x06ea, 0x06ed); (0x070f, 0x070f); (0x0711, 0x0711); (0x0730, 0x074a);
  (0x07a6, 0x07b0); (0x0901, 0x0902); (0x093c, 0x093c); (0x0941, 0x0948);
  (0x094d, 0x094d); (0x0951, 0x0954); (0x0962, 0x0963); (0x0981, 0x0981);
  (0x09bc, 0x09bc); (0x09c1, 0x09c4); (0x09cd, 0x09cd); (0x09e2, 0x09e3);
  (0x0a01, 0x0a02); (0x0a3c, 0x0a3c); (0x0a41, 0x0a42); (0x0a47, 0x0a48);
  (0x0a4b, 0x0a4d); (0x0a70, 0x0a71); (0x0a81, 0x0a82); (0x0abc, 0x0abc);
  (0x0ac1, 0x0ac5); (0x0ac7, 0x0ac8); (0x0acd, 0x0acd); (0x0ae2, 0x0ae3);
  (0x0b01, 0x0b01); (0x0b3c, 0x0b3c); (0x0b3f, 0x0b3f); (0x0b41, 0x0b43);
  (0x0b4d, 0x0b4d); (0x0b56, 0x0b56); (0x0b82, 0x0b82); (0x0bc0, 0x0bc0);
  (0x0bcd, 0x0bcd); (0x0c3e, 0x0c40); (0x0c46, 0x0c48); (0x0c4a, 0x0c4d);
  (0x0c55, 0x0c56); (0x0cbc, 0x0cbc); (0x0cbf, 0x0cbf); (0x0cc6, 0x0cc6);
  (0x0ccc, 0x0ccd); (0x0d41, 0x0d43); (0x0d4d, 0x0d4d); (0x0dca, 0x0dca);
  (0x0dd2, 0x0dd4); (0x0dd6, 0x0dd6); (0x0e31, 0x0e31); (0x0e34, 0x0e3a);
  (0x0e47, 0x0e4e); (0x0eb1, 0x0eb1); (0x0eb4, 0x0eb9); (0x0ebb, 0x0ebc);
  (0x0ec8, 0x0ecd); (0x0f18, 0x0f19); (0x0f35, 0x0f35); (0x0f37, 0x0f37);
  (0x0f39, 0x0f39); (0x0f71, 0x0f7e); (0x0f80, 0x0f84); (0x0f86, 0x0f87);
  (0x0f90, 0x0f97); (0x0f99, 0x0fbc); (0x0fc6, 0x0fc6); (0x102d, 0x1030);
  (0x1032, 0x1032); (0x1036, 0x1037); (0x1039, 0x1039); (0x1058, 0x1059);
  (0x1160, 0x11ff); (0x1712, 0x1714); (0x1732, 0x1734); (0x1752, 0x1753);
  (0x1772, 0x1773); (0x17b4, 0x17b5); (0x17b7, 0x17bd); (0x17c6, 0x17c6);
  (0x17c9, 0x17d3); (0x17dd, 0x17dd); (0x180b, 0x180d); (0x18a9, 0x18a9);
  (0x1920, 0x1922); (0x1927, 0x1928); (0x1932, 0x1932); (0x1939, 0x193b);
  (0x200b, 0x200f); (0x202a, 0x202e); (0x2060, 0x2063); (0x206a, 0x206f);
  (0x20d0, 0x20ea); (0x302a, 0x302f); (0x3099, 0x309a); (0xfb1e, 0xfb1e);
  (0xfe00, 0xfe0f); (0xfe20, 0xfe23); (0xfeff, 0xfeff); (0xfff9, 0xfffb);
  (0x1d167, 0x1d169); (0x1d173, 0x1d182); (0x1d185, 0x1d18b); (0x1d1aa, 0x1d1ad);
  (0xe0001, 0xe0001); (0xe0020, 0xe007f); (0xe0100, 0xe01ef)
].

Definition wide (ch : Z) : bool :=
  (0x1100 <=? ch) &&
  ((ch <=? 0x115f) || (ch =? 0x2329) || (ch =? 0x232a) ||
   ((0x2e80 <=? ch) && (ch <=? 0xa4cf) && negb (ch =? 0x303f)) ||
   ((0xac00 <=? ch) && (ch <=? 0xd7a3)) ||
   ((0xf900 <=? ch) && (ch <=? 0xfaff)) ||
   ((0xfe30 <=? ch) && (ch <=? 0xfe6f)) ||
   ((0xff00 <=? ch) && (ch <=? 0xff60)) ||
   ((0xffe0 <=? ch) && (ch <=? 0xffe6)) ||
   ((0x20000 <=? ch) && (ch <=? 0x2fffd)) ||
   ((0x30000 <=? ch) && (ch <=? 0x3fffd))).

Definition fb_wcwidth (ch : Z) : outcome Z :=
  if ch =? 0 then Done 0
  else if (ch <? 32) || ((0x7f <=? ch) && (ch <? 0xa0)) then Done (-1)
  else
    zero ← bisearch ch combining (Z.of_nat (length combining) - 1);
    if (zero : bool) then Done 0
    else Done (1 + if wide ch then 1 else 0).

(** * Filtering and validation *)

(** [memcpy] of the character just read to [dst], which never is after it. *)
Fixpoint remove_loop (fuel : nat) (m : list Z) (dst str : Z) : outcome (list Z) :=
  match fuel with
  | O => NoFuel
  | S fuel =>
      c ← rd m str;
      if c =? 0 then wr m dst 0
      else
        '(wc, str', _) ← next_wchar m str None;
        if wc =? 0 then m ← wr m dst 0; remove_loop fuel m dst str'
        else if wc =? WEOF then remove_loop fuel m dst (str' + 1)
        else
          w ← fb_wcwidth wc;
          if 0 <? w then
            m ← (if dst =? str then Done m else memmove m dst str (str' - str));
            remove_loop fuel m (dst + (str' - str)) str'
          else remove_loop fuel m dst str'
  end.

Definition string_remove_non_printable (m : list Z) (str : option Z) : outcome (list Z) :=
  match str with
  | None => Done m
  | Some str => remove_loop (length m + 1) m str str
  end.

Definition allowed (allow_zero_width allow_esc : bool) (w wc : Z) : bool :=
  (0 <? w) || (allow_esc && (wc =? 27)) ||
  (allow_zero_width && ((w =? 0) || (wc =? 10))).

(** [width] is a [size_t]: adding a width of -1 wraps. *)
Fixpoint validate_loop (fuel : nat) (m : list Z) (str s length max_width width : Z)
    (allow_zero_width allow_esc : bool) : outcome Z :=
  match fuel with
  | O => NoFuel
  | S fuel =>
      '(wc, s, _) ← next_wchar m s None;
      if wc =? WEOF then Done (-1)
      else if wc =? 0 then
        if (length <? s - str) || (max_width <? width) then Done (-1) else Done (s - str)
      else
        w ← fb_wcwidth wc;
        if allowed allow_zero_width allow_esc w wc then
          validate_loop fuel m str s length max_width (u64 (width + w)) allow_zero_width allow_esc
        else Done (-1)
  end.

Definition string_validate_width_and_length (m : list Z) (str length max_width : Z)
    (allow_zero_width allow_esc : bool) : outcome Z :=
  validate_loop (List.length m + 1) m str str length max_width 0 allow_zero_width allow_esc.

Definition string_validate_utf8 (m : list Z) (str max_chinese_chars : Z)
    (allow_zero_width_or_esc : bool) : outcome Z :=
  string_validate_width_and_length m str (u64 (max_chinese_chars * 4))
    (u64 (max_chinese_chars * 2)) allow_zero_width_or_esc allow_zero_width_or_esc.

(** * Encoding *)

(** The UTF-8 bytes of a code point. *)
Definition utf8_encode (w : Z) : list Z :=
  if w <? 2 ^ 7 then [w]
  else if w <? 2 ^ 11 then [192 + w / 2 ^ 6; 128 + w mod 2 ^ 6]
  else if w <? 2 ^ 16 then
    [224 + w / 2 ^ 12; 128 + (w / 2 ^ 6) mod 2 ^ 6; 128 + w mod 2 ^ 6]
  else [240 + w / 2 ^ 18; 128 + (w / 2 ^ 12) mod 2 ^ 6;
        128 + (w / 2 ^ 6) mod 2 ^ 6; 128 + w mod 2 ^ 6].

Definition code_point (w : Z) : Prop := 0 < w < 2 ^ 21.

Lemma range_table n (P : Z -> bool) :
  forallb P (seqZ 0 n) = true -> forall v, 0 <= v < n -> P v = true.
Proof.
  intros H v Hv. rewrite forallb_forall in H. apply H.
  apply list_elem_of_In, elem_of_seqZ. lia.
Qed.

Lemma cont_byte x : 0 <= x < 2 ^ 6 -> is_cont (128 + x) = true /\ Z.land (128 + x) 63 = x.
Proof.
  intros Hx. assert (is_cont (128 + x) && (Z.land (128 + x) 63 =? x) = true) as H;
    [|by apply andb_prop in H as [H1 H2%Z.eqb_eq]].
  by apply (range_table (2 ^ 6) (fun x => is_cont (128 + x) && (Z.land (128 + x) 63 =? x))).
Qed.

Lemma lead2 x : 0 <= x < 2 ^ 5 -> Z.land (192 + x) 224 = 192 /\ Z.land (192 + x) 31 = x.
Proof.
  intros Hx.
  assert ((Z.land (192 + x) 224 =? 192) && (Z.land (192 + x) 31 =? x) = true) as H; [|lia].
  by apply (range_table (2 ^ 5) (fun x => (Z.land (192 + x) 224 =? 192) && (Z.land (192 + x) 31 =? x))).
Qed.

Lemma lead3 x : 0 <= x < 2 ^ 4 ->
  Z.land (224 + x) 224 <> 192 /\ Z.land (224 + x) 240 = 224 /\ Z.land (224 + x) 15 = x.
Proof.
  intros Hx. assert (negb (Z.land (224 + x) 224 =? 192) && (Z.land (224 + x) 240 =? 224) &&
    (Z.land (224 + x) 15 =? x) = true) as H; [|lia].
  by apply (range_table (2 ^ 4) (fun x => negb (Z.land (224 + x) 224 =? 192) &&
    (Z.land (224 + x) 240 =? 224) && (Z.land (224 + x) 15 =? x))).
Qed.

Lemma lead4 x : 0 <= x < 2 ^ 3 -> Z.land (240 + x) 224 <> 192 /\
  Z.land (240 + x) 240 <> 224 /\ Z.land (240 + x) 248 = 240 /\ Z.land (240 + x) 7 = x.
Proof.
  intros Hx. assert (negb (Z.land (240 + x) 224 =? 192) && negb (Z.land (240 + x) 240 =? 224) &&
    (Z.land (240 + x) 248 =? 240) && (Z.land (240 + x) 7 =? x) = true) as H; [|lia].
  by apply (range_table (2 ^ 3) (fun x => negb (Z.land (240 + x) 224 =? 192) &&
    negb (Z.land (240 + x) 240 =? 224) && (Z.land (240 + x) 248 =? 240) &&
    (Z.land (240 + x) 7 =? x))).
Qed.

Lemma lor_add a b n : 0 <= n -> 0 <= b < 2 ^ n -> Z.lor (Z.shiftl a n) b = a * 2 ^ n + b.
Proof. intros. rewrite Z.lor_comm, lor_shift by done. lia. Qed.

Lemma lor_shift_shift a b m n k : m = n + k -> 0 <= n -> 0 <= k -> 0 <= b < 2 ^ k ->
  Z.lor (Z.shiftl a m) (Z.shiftl b n) = Z.shiftl (a * 2 ^ k + b) n.
Proof.
  intros ->. intros. rewrite <- lor_add by done. rewrite Z.shiftl_lor, Z.shiftl_shiftl by lia.
  by rewrite (Z.add_comm k n).
Qed.

(** The digits of a code point in base 64. *)
Lemma digits w k : 0 <= k -> w / 2 ^ k = w / 2 ^ (k + 6) * 2 ^ 6 + (w / 2 ^ k) mod 2 ^ 6.
Proof.
  intros. rewrite Z.pow_add_r, <- Z.div_div by lia.
  pose proof (Z.div_mod (w / 2 ^ k) (2 ^ 6) ltac:(lia)). lia.
Qed.

Lemma digits0 w : w = w / 2 ^ 6 * 2 ^ 6 + w mod 2 ^ 6.
Proof. pose proof (Z.div_mod w (2 ^ 6) ltac:(lia)). lia. Qed.

Lemma conts_at_spec l : forall m pre post p, m = pre ++ l ++ post -> p = blen pre ->
  Forall (fun c => is_cont c = true) l -> conts_at m p (length l) = Done true.
Proof.
  induction l as [|c l IH]; intros m pre post p -> -> Hl; cbn [conts_at length]; [done|].
  apply Forall_cons_1 in Hl as [Hc Hl].
  rewrite (rd_at _ pre c (l ++ post)) by done. cbn [mbind outcome_bind]. rewrite Hc.
  apply (IH _ (pre ++ [c]) post); [app_eq|blen|done].
Qed.

Section Decode.
Context (pre post : list Z) (left : option Z) (a b c d : Z).
Context (Hb : 0 <= b < 2 ^ 6) (Hc : 0 <= c < 2 ^ 6) (Hd : 0 <= d < 2 ^ 6).

Ltac read_at p c l := rewrite (rd_at _ p c l) by (app_eq || blen); cbn [mbind outcome_bind].
Ltac conts l p := rewrite (conts_at_spec l _ p post) by
  (app_eq || blen || (repeat constructor; apply cont_byte; lia)); cbn [mbind outcome_bind].

Lemma decode1 : 0 < a < 128 -> 0 < default 9 left ->
  next_wchar (pre ++ a :: post) (blen pre) left
    = Done (a, blen pre + 1, (fun l => u64 (l - 1)) <$> left).
Proof.
  intros Ha Hl. unfold next_wchar. rewrite (proj2 (Z.eqb_neq (default 9 left) 0)) by lia.
  rewrite (rd_at _ pre a post (blen pre)) by done. cbn [mbind outcome_bind]. by do 2 zcase.
Qed.

Lemma decode2 : 0 <= a < 2 ^ 5 -> 1 < default 9 left ->
  next_wchar (pre ++ [192 + a; 128 + b] ++ post) (blen pre) left
    = Done (a * 2 ^ 6 + b, blen pre + 2, (fun l => u64 (l - 2)) <$> left).
Proof.
  intros Ha Hl. unfold next_wchar. rewrite (proj2 (Z.eqb_neq (default 9 left) 0)) by lia.
  rewrite (rd_at _ pre (192 + a) ([128 + b] ++ post) (blen pre)) by done. cbn [mbind outcome_bind].
  destruct (lead2 a Ha) as [-> ->]. do 3 zcase.
  conts [128 + b] (pre ++ [192 + a]).
  rewrite (rd_at _ (pre ++ [192 + a]) (128 + b) post) by (app_eq || blen). cbn [mbind outcome_bind].
  destruct (cont_byte b Hb) as [_ ->]. by rewrite lor_add.
Qed.

Lemma decode3 : 0 <= a < 2 ^ 4 -> 2 < default 9 left ->
  next_wchar (pre ++ [224 + a; 128 + b; 128 + c] ++ post) (blen pre) left
    = Done ((a * 2 ^ 6 + b) * 2 ^ 6 + c, blen pre + 3, (fun l => u64 (l - 3)) <$> left).
Proof.
  intros Ha Hl. unfold next_wchar. rewrite (proj2 (Z.eqb_neq (default 9 left) 0)) by lia.
  rewrite (rd_at _ pre (224 + a) ([128 + b; 128 + c] ++ post) (blen pre)) by done.
  cbn [mbind outcome_bind]. destruct (lead3 a Ha) as (Hn & -> & ->). do 4 zcase.
  conts [128 + b; 128 + c] (pre ++ [224 + a]).
  rewrite (rd_at _ (pre ++ [224 + a]) (128 + b) ([128 + c] ++ post) (blen pre + 1)) by (app_eq || blen).
  cbn [mbind outcome_bind].
  rewrite (rd_at _ (pre ++ [224 + a; 128 + b]) (128 + c) post (blen pre + 2)) by (app_eq || blen).
  cbn [mbind outcome_bind]. destruct (cont_byte b Hb) as [_ ->]. destruct (cont_byte c Hc) as [_ ->].
  rewrite (lor_shift_shift a b 12 6 6), lor_add by lia. done.
Qed.

Lemma decode4 : 0 <= a < 2 ^ 3 -> 3 < default 9 left ->
  next_wchar (pre ++ [240 + a; 128 + b; 128 + c; 128 + d] ++ post) (blen pre) left
    = Done (((a * 2 ^ 6 + b) * 2 ^ 6 + c) * 2 ^ 6 + d, blen pre + 4,
            (fun l => u64 (l - 4)) <$> left).
Proof.
  intros Ha Hl. unfold next_wchar. rewrite (proj2 (Z.eqb_neq (default 9 left) 0)) by lia.
  rewrite (rd_at _ pre (240 + a) ([128 + b; 128 + c; 128 + d] ++ post) (blen pre)) by done.
  cbn [mbind outcome_bind]. destruct (lead4 a Ha) as (Hn & Hn' & -> & ->). do 5 zcase.
  conts [128 + b; 128 + c; 128 + d] (pre ++ [240 + a]).
  rewrite (rd_at _ (pre ++ [240 + a]) (128 + b) ([128 + c; 128 + d] ++ post) (blen pre + 1))
    by (app_eq || blen). cbn [mbind outcome_bind].
  rewrite (rd_at _ (pre ++ [240 + a; 128 + b]) (128 + c) ([128 + d] ++ post) (blen pre + 2))
    by (app_eq || blen). cbn [mbind outcome_bind].
  rewrite (rd_at _ (pre ++ [240 + a; 128 + b; 128 + c]) (128 + d) post (blen pre + 3))
    by (app_eq || blen). cbn [mbind outcome_bind].
  destruct (cont_byte b Hb) as [_ ->]. destruct (cont_byte c Hc) as [_ ->].
  destruct (cont_byte d Hd) as [_ ->].
  rewrite (lor_shift_shift a b 18 12 6), (lor_shift_shift (a * 2 ^ 6 + b) c 12 6 6), lor_add by lia. done.
Qed.
End Decode.

Lemma decode_encode pre w post left : code_point w ->
  blen (utf8_encode w) <= default 9 left ->
  next_wchar (pre ++ utf8_encode w ++ post) (blen pre) left
    = Done (w, blen pre + blen (utf8_encode w),
            (fun l => u64 (l - blen (utf8_encode w))) <$> left).
Proof.
  intros Hw. unfold code_point in Hw.
  pose proof (Z.mod_pos_bound w (2 ^ 6) ltac:(lia)).
  pose proof (Z.mod_pos_bound (w / 2 ^ 6) (2 ^ 6) ltac:(lia)).
  pose proof (Z.mod_pos_bound (w / 2 ^ 12) (2 ^ 6) ltac:(lia)).
  pose proof (digits0 w). pose proof (digits w 6). pose proof (digits w 12).
  assert (forall k n, 0 <= k -> w < 2 ^ k * n -> 0 <= w / 2 ^ k < n) as Hdiv.
  { intros k n Hk Hn. split; [apply Z.div_pos|apply Z.div_lt_upper_bound]; lia. }
  unfold utf8_encode.
  destruct (Z.ltb_spec w (2 ^ 7)); [|destruct (Z.ltb_spec w (2 ^ 11));
    [|destruct (Z.ltb_spec w (2 ^ 16))]]; intros Hl; autorewrite with blen in Hl.
  - apply decode1; lia.
  - rewrite decode2 by (lia || (apply Hdiv; lia)).
    change (blen [_; _]) with 2. do 3 f_equal; lia.
  - rewrite decode3 by (lia || (apply Hdiv; lia)).
    change (blen [_; _; _]) with 3. do 3 f_equal. change (6 + 6) with 12 in *. lia.
  - rewrite decode4 by (lia || (apply Hdiv; lia)).
    change (blen [_; _; _; _]) with 4. change (6 + 6) with 12 in *. change (12 + 6) with 18 in *.
    do 3 f_equal. lia.
Qed.

(** A code point below 2^21 is read back from its encoding, the pointer
    and the count moving by the length of the encoding. *)
Theorem utf8_decode_encode pre w post left : code_point w ->
  blen (utf8_encode w) <= default 9 left -> default 9 left < 2 ^ 64 ->
  next_wchar (pre ++ utf8_encode w ++ post) (blen pre) left
    = Done (w, blen pre + blen (utf8_encode w), (fun l => l - blen (utf8_encode w)) <$> left).
Proof.
  intros Hw Hl H64. rewrite decode_encode by done. do 2 f_equal.
  destruct left as [l|]; [|done]. change (default 9 (Some l)) with l in *. cbn [fmap option_fmap option_map].
  pose proof (blen_nonneg (utf8_encode w)).
  by rewrite u64_id by (width; lia).
Qed.

Lemma utf8_decode_encode_witness :
  next_wchar ([1] ++ utf8_encode 0x6c49 ++ [65]) 1 (Some 4) = Done (0x6c49, 4, Some 1).
Proof.
  apply (utf8_decode_encode [1] 0x6c49 [65] (Some 4));
    [by split|vm_compute; congruence|done].
Defined.

(** * Copying *)

(** The bytes of a sequence of code points. *)
Definition utf8_text (ws : list Z) : list Z := concat (map utf8_encode ws).

Lemma utf8_text_app ws ws' : utf8_text (ws ++ ws') = utf8_text ws ++ utf8_text ws'.
Proof. unfold utf8_text. by rewrite map_app, concat_app. Qed.

Definition conts (l : list Z) : Prop := Forall (fun c => is_cont c = true) l.

Lemma lead_not_cont h : 0 <= h < 128 \/ 192 <= h < 256 -> is_cont h = false.
Proof.
  intros Hh. assert (((128 <=? h) && (h <? 192)) || negb (is_cont h) = true) as H.
  { apply (range_table 256 (fun h => ((128 <=? h) && (h <? 192)) || negb (is_cont h)));
      [by vm_compute|lia]. }
  destruct (is_cont h); [|done]. rewrite orb_false_r in H. lia.
Qed.

Lemma conts_bytes l : Forall (fun c => 128 <= c < 192) l -> conts l.
Proof.
  apply Forall_impl. intros c Hc. replace c with (128 + (c - 128)) by lia.
  apply cont_byte. lia.
Qed.

Lemma encode_bytes w : code_point w -> exists h t, utf8_encode w = h :: t /\
  (0 < h < 128 /\ t = [] \/ 192 <= h < 248) /\ Forall (fun c => 128 <= c < 192) t.
Proof.
  intros Hw. unfold code_point in Hw.
  pose proof (Z.mod_pos_bound w (2 ^ 6) ltac:(lia)).
  pose proof (Z.mod_pos_bound (w / 2 ^ 6) (2 ^ 6) ltac:(lia)).
  pose proof (Z.mod_pos_bound (w / 2 ^ 12) (2 ^ 6) ltac:(lia)).
  assert (forall k n, 0 <= k -> w < 2 ^ k * n -> 0 <= w / 2 ^ k < n) as Hdiv.
  { intros k n Hk Hn. split; [apply Z.div_pos|apply Z.div_lt_upper_bound]; lia. }
  unfold utf8_encode.
  destruct (Z.ltb_spec w (2 ^ 7)); [|destruct (Z.ltb_spec w (2 ^ 11));
    [|destruct (Z.ltb_spec w (2 ^ 16))]]; eexists _, _; (split; [done|]);
    (split; [|repeat constructor; lia]).
  - left. split; [lia|done].
  - right. pose proof (Hdiv 6 (2 ^ 5) ltac:(lia) ltac:(lia)). lia.
  - right. pose proof (Hdiv 12 (2 ^ 4) ltac:(lia) ltac:(lia)). lia.
  - right. pose proof (Hdiv 18 (2 ^ 3) ltac:(lia) ltac:(lia)). lia.
Qed.

Lemma encode_shape w : code_point w ->
  exists h t, utf8_encode w = h :: t /\ is_cont h = false /\ conts t /\ nul_free (h :: t).
Proof.
  intros Hw. destruct (encode_bytes w Hw) as (h & t & He & Hh & Ht). exists h, t.
  split; [done|]. split; [apply lead_not_cont; lia|]. split; [by apply conts_bytes|].
  constructor; [lia|]. revert Ht. apply Forall_impl. intros c Hc. lia.
Qed.

Lemma text_nul_free ws : Forall code_point ws -> nul_free (utf8_text ws).
Proof.
  induction 1 as [|w ws Hw _ IH]; [constructor|]. change (utf8_text (w :: ws)) with (utf8_encode w ++ utf8_text ws).
  apply Forall_app_intro; [|done]. destruct (encode_shape w Hw) as (h & t & -> & _ & _ & ?). done.
Qed.

(** Continuation bytes followed by another byte, when more are wanted. *)
Lemma conts_at_cut l x : forall m pre post p n, m = pre ++ l ++ x :: post -> p = blen pre ->
  conts l -> is_cont x = false -> (length l < n)%nat -> conts_at m p n = Done false.
Proof.
  induction l as [|c l IH]; intros m pre post p n -> -> Hl Hx Hn;
    (destruct n as [|n]; [cbn in Hn; lia|]); cbn [conts_at app].
  - rewrite (rd_at _ pre x post) by done. cbn. by rewrite Hx.
  - apply Forall_cons_1 in Hl as [Hc Hl].
    rewrite (rd_at _ pre c (l ++ x :: post)) by done. cbn [mbind outcome_bind]. rewrite Hc.
    apply (IH _ (pre ++ [c]) post); [app_eq|blen|done|done|cbn in Hn; lia].
Qed.

(** A lead byte of a longer character than what follows it is invalid. *)
Lemma decode_cut pre h t post :
  192 <= h < 248 -> conts t ->
  (length t < if (Z.land h 224 =? 192)%Z then 1 else if (Z.land h 240 =? 224)%Z then 2 else 3)%nat ->
  next_wchar (pre ++ (h :: t) ++ 0 :: post) (blen pre) None = Done (WEOF, blen pre, None).
Proof.
  intros Hh Ht Hn. unfold next_wchar. cbn [default app Z.eqb].
  rewrite (rd_at _ pre h (t ++ 0 :: post) (blen pre)) by done. cbn [mbind outcome_bind].
  do 2 zcase.
  assert (forall n, (length t < n)%nat -> conts_at (pre ++ h :: t ++ 0 :: post) (blen pre + 1) n = Done false) as Hcut.
  { intros n Hl. apply (conts_at_cut t 0 _ (pre ++ [h]) post); [app_eq|blen|done|done|done]. }
  destruct (Z.land h 224 =? 192); cbn [andb Z.ltb Z.compare];
    [|destruct (Z.land h 240 =? 224); cbn [andb Z.ltb Z.compare];
      [|destruct (Z.land h 248 =? 240); cbn [andb Z.ltb Z.compare]; [|done]]];
    by rewrite Hcut.
Qed.

Lemma encode_length w : code_point w -> exists h t, utf8_encode w = h :: t /\
  (t = [] \/ length t =
    if (Z.land h 224 =? 192)%Z then 1 else if (Z.land h 240 =? 224)%Z then 2 else 3)%nat.
Proof.
  intros Hw. unfold code_point in Hw.
  assert (forall k n, 0 <= k -> w < 2 ^ k * n -> 0 <= w / 2 ^ k < n) as Hdiv.
  { intros k n Hk Hn. split; [apply Z.div_pos|apply Z.div_lt_upper_bound]; lia. }
  unfold utf8_encode.
  destruct (Z.ltb_spec w (2 ^ 7)); [|destruct (Z.ltb_spec w (2 ^ 11));
    [|destruct (Z.ltb_spec w (2 ^ 16))]]; eexists _, _; (split; [done|]).
  - by left.
  - right. destruct (lead2 (w / 2 ^ 6)) as [-> _]; [apply Hdiv; lia|done].
  - right. destruct (lead3 (w / 2 ^ 12)) as (Hn & -> & _); [apply Hdiv; lia|]. by zcase.
  - right. destruct (lead4 (w / 2 ^ 18)) as (Hn & Hn' & _); [apply Hdiv; lia|]. by do 2 zcase.
Qed.

Lemma encode_le4 w : blen (utf8_encode w) <= 4.
Proof. unfold utf8_encode. by repeat zcase. Qed.

(** A character cut off before its end reads as invalid. *)
Lemma decode_prefix pre w p q post : code_point w -> utf8_encode w = p ++ q ->
  p <> [] -> q <> [] ->
  next_wchar (pre ++ p ++ 0 :: post) (blen pre) None = Done (WEOF, blen pre, None).
Proof.
  intros Hw He Hp Hq. destruct p as [|h t]; [done|].
  destruct (encode_bytes w Hw) as (h1 & t1 & E1 & Hh & Ht1).
  destruct (encode_length w Hw) as (h2 & t2 & E2 & Hl).
  rewrite E2 in E1. injection E1 as -> ->. rewrite E2 in He. injection He as -> ->.
  assert (length (t ++ q) <> 0%nat) as Hne by (destruct q; [done|rewrite length_app; cbn; lia]).
  destruct Hl as [Hl|Hl]; [by rewrite Hl in Hne|].
  apply decode_cut.
  - destruct Hh as [[_ Hh]|Hh]; [by rewrite Hh in Hne|done].
  - apply Forall_app in Ht1 as [Ht1 _]. by apply conts_bytes.
  - rewrite <- Hl, length_app. destruct q; [done|cbn; lia].
Qed.

(** Backwards over continuation bytes to the byte that starts the character. *)
Lemma tail_loop_spec a h t post b e : forall fuel p, blen b <= blen a -> p = blen a + blen t ->
  conts t -> is_cont h = false -> (length t < fuel)%nat ->
  tail_loop fuel (a ++ h :: t ++ post) (blen b) e p =
    '(wc, p, _) ← next_wchar (a ++ h :: t ++ post) (blen a) None;
    if wc =? WEOF then m ← wr (a ++ h :: t ++ post) p 0; Done (e - p, m)
    else Done (0, a ++ h :: t ++ post).
Proof.
  revert post. induction t as [|c t IH] using rev_ind; intros post fuel p Hb -> Ht Hh Hf;
    (destruct fuel as [|fuel]; [rewrite ?length_app in Hf; cbn in Hf; lia|]); cbn [tail_loop app].
  - rewrite blen_nil, Z.add_0_r. zcase. rewrite (rd_at _ a h post (blen a)) by done.
    cbn [mbind outcome_bind]. by rewrite Hh.
  - apply Forall_app in Ht as [Ht Hc]. apply Forall_cons_1 in Hc as [Hc _].
    rewrite length_app in Hf. cbn in Hf. rewrite blen_app. pose proof (blen_nonneg t).
    change (blen [c]) with 1. zcase.
    rewrite (rd_at _ (a ++ h :: t) c post) by (app_eq || blen). cbn [mbind outcome_bind].
    rewrite Hc, <- app_assoc. apply (IH ([c] ++ post)); try done; lia.
Qed.

(** A cut of a text is between two characters or inside one. *)
Lemma take_text ws : forall k, (k <= length (utf8_text ws))%nat ->
  exists ws1 ws2 p, ws = ws1 ++ ws2 /\ take k (utf8_text ws) = utf8_text ws1 ++ p /\
    (p = [] \/ exists w ws3 q, ws2 = w :: ws3 /\ utf8_encode w = p ++ q /\ q <> []).
Proof.
  induction ws as [|w ws IH]; intros k Hk.
  - exists [], [], []. change (utf8_text []) with (@nil Z). rewrite take_nil. auto.
  - change (utf8_text (w :: ws)) with (utf8_encode w ++ utf8_text ws) in *.
    destruct (decide (k < length (utf8_encode w))%nat) as [Hlt|Hge].
    + exists [], (w :: ws), (take k (utf8_encode w)). split; [done|].
      rewrite take_app_le by lia. split; [done|]. right.
      exists w, ws, (drop k (utf8_encode w)). rewrite take_drop. split_and!; [done|done|].
      intros H. apply (f_equal length) in H. rewrite length_drop in H. cbn in H. lia.
    + rewrite length_app in Hk. destruct (IH (k - length (utf8_encode w))%nat) as
        (ws1 & ws2 & p & -> & Ht & Hp); [lia|].
      exists (w :: ws1), ws2, p. split; [done|]. split; [|done].
      rewrite take_app_ge, Ht by lia. change (utf8_text (w :: ws1)) with (utf8_encode w ++ utf8_text ws1).
      by rewrite app_assoc.
Qed.

(** The tail check on a text cut after [k] bytes: what is left of a cut
    character is dropped. *)
Lemma check_tail_text ws1 p pre post : Forall code_point ws1 ->
  (p = [] \/ exists w q, code_point w /\ utf8_encode w = p ++ q /\ q <> []) ->
  exists rest, string_check_tail (pre ++ (utf8_text ws1 ++ p) ++ 0 :: post) (blen pre)
      (Some (blen pre + blen (utf8_text ws1 ++ p)))
    = Done (blen p, pre ++ utf8_text ws1 ++ 0 :: rest ++ post) /\ length rest = length p.
Proof.
  intros H1 Hp. unfold string_check_tail. cbn [mbind outcome_bind].
  rewrite Z.add_simpl_l, to_nat_blen.
  destruct p as [|h t].
  - rewrite app_nil_r. exists []. split; [|done]. cbn [app].
    destruct (snoc_case ws1) as [->|(ws & w & ->)].
    { cbn [utf8_text map concat length tail_loop app Nat.add]. rewrite blen_nil, Z.add_0_r. by zcase. }
    apply Forall_app in H1 as [_ H1]. apply Forall_cons_1 in H1 as [Hw _].
    destruct (encode_shape w Hw) as (h & t & He & Hh & Ht & _).
    rewrite utf8_text_app. replace (utf8_text [w]) with (h :: t) by (unfold utf8_text; cbn; by rewrite app_nil_r).
    replace (pre ++ (utf8_text ws ++ h :: t) ++ 0 :: post)
      with ((pre ++ utf8_text ws) ++ h :: t ++ 0 :: post) by app_eq.
    rewrite (tail_loop_spec (pre ++ utf8_text ws) h t (0 :: post)); try done;
      [|blen|blen|rewrite length_app; cbn; lia].
    change (h :: t ++ 0 :: post) with ((h :: t) ++ 0 :: post). rewrite <- He.
    rewrite decode_encode; [|done|cbn [default]; pose proof (encode_le4 w); lia].
    cbn [mbind outcome_bind]. rewrite (proj2 (Z.eqb_neq w WEOF)) by (unfold code_point, WEOF in *; lia).
    rewrite He. do 2 f_equal.
  - destruct Hp as [Hp|(w & q & Hw & He & Hq)]; [done|].
    destruct (encode_shape w Hw) as (h' & t' & He' & Hh & Ht & Hn).
    rewrite He' in He. injection He as -> ->. apply Forall_app in Ht as [Ht _].
    exists (t ++ [0]). split; [|rewrite length_app; cbn; lia].
    replace (pre ++ (utf8_text ws1 ++ h :: t) ++ 0 :: post)
      with ((pre ++ utf8_text ws1) ++ h :: t ++ 0 :: post) by app_eq.
    rewrite (tail_loop_spec (pre ++ utf8_text ws1) h t (0 :: post)); try done;
      [|blen|blen|rewrite length_app; cbn; lia].
    change (h :: t ++ 0 :: post) with ((h :: t) ++ 0 :: post).
    rewrite (decode_prefix _ w (h :: t) q) by done. cbn [mbind outcome_bind app].
    change (WEOF =? WEOF) with true.
    rewrite (wr_at _ (pre ++ utf8_text ws1) h (t ++ 0 :: post)) by done.
    change (u8 0) with 0. cbn [mbind outcome_bind]. do 2 f_equal; [blen|app_eq].
Qed.

(** [string_cp] of a valid text stores the longest sequence of its whole
    characters that fits a buffer of [siz] bytes; it returns the length of the
    text, less the bytes it took back from the end of a full buffer. *)
Theorem string_cp_whole pre old post spre ws spost siz :
  Forall code_point ws -> blen (utf8_text ws) < 2 ^ 64 -> 0 < siz -> blen old = siz ->
  exists ws1 ws2 rest n, ws = ws1 ++ ws2 /\
    string_cp (pre ++ old ++ post) (blen pre) (spre ++ utf8_text ws ++ 0 :: spost) (blen spre) siz
      = Done (n, pre ++ utf8_text ws1 ++ 0 :: rest ++ post) /\
    blen (utf8_text ws1) + 1 + blen rest = siz /\
    (ws2 = [] /\ n = blen (utf8_text ws) \/
     exists w ws3, ws2 = w :: ws3 /\ siz <= blen (utf8_text ws1) + blen (utf8_encode w) /\
       n = blen (utf8_text ws) - blen rest).
Proof.
  intros Hws H64 Hs Ho. pose proof (text_nul_free ws Hws) as Hn.
  pose proof (blen_nonneg (utf8_text ws)).
  unfold string_cp. rewrite strlcpy_eq by (done || lia). cbn [mbind outcome_bind]. cbv zeta.
  rewrite (proj2 (Z.eqb_neq siz 0)) by lia.
  destruct (Z.leb_spec siz (blen (utf8_text ws))) as [Hle|Hgt].
  - destruct (take_text ws (Z.to_nat (Z.min (siz - 1) (blen (utf8_text ws))))) as
      (ws1 & ws2 & p & Hsplit & Ht & Hp); [unfold blen in *; lia|].
    pose proof (f_equal length Ht) as Hlen. rewrite length_take in Hlen.
    rewrite Ht. subst ws. apply Forall_app in Hws as [Hw1 Hw2].
    assert (blen (utf8_text ws1 ++ p) = siz - 1) as Hk by (unfold blen in *; lia).
    destruct (check_tail_text ws1 p pre
      (drop (Z.to_nat (Z.min (siz - 1) (blen (utf8_text (ws1 ++ ws2)))) + 1) old ++ post))
      as (rest & Hc & Hr); [done| |].
    { destruct Hp as [->|(w & ws3 & q & -> & He & Hq)]; [by left|right].
      apply Forall_cons_1 in Hw2 as [Hw _]. by exists w, q. }
    replace (blen pre + siz - 1) with (blen pre + blen (utf8_text ws1 ++ p)) by lia.
    rewrite Hc. cbn [mbind outcome_bind].
    rewrite (drop_ge old) by (unfold blen in *; lia). cbn [app].
    exists ws1, ws2, rest, (blen (utf8_text (ws1 ++ ws2)) - blen p). split; [done|].
    rewrite blen_app in Hk. split; [|split].
    + rewrite u64_id; [done|]. width. pose proof (blen_nonneg p). pose proof (blen_nonneg (utf8_text ws1)). lia.
    + unfold blen in *. lia.
    + right. assert (blen rest = blen p) as -> by (unfold blen; lia).
      destruct ws2 as [|w ws3]; [rewrite app_nil_r in Hle; pose proof (blen_nonneg p); lia|].
      exists w, ws3. split; [done|]. split; [|done].
      assert (blen p + 1 <= blen (utf8_encode w)); [|lia].
      destruct Hp as [->|(w' & ws' & q & [= <- <-] & -> & Hq)].
      * apply Forall_cons_1 in Hw2 as [Hw _]. destruct (encode_shape w Hw) as (h & t & -> & _). blen.
      * destruct q; [done|]. blen.
  - exists ws, [], (drop (length (utf8_text ws) + 1) old), (blen (utf8_text ws)).
    rewrite app_nil_r. split; [done|].
    replace (Z.to_nat (Z.min (siz - 1) (blen (utf8_text ws)))) with (length (utf8_text ws)) by (unfold blen in *; lia).
    rewrite firstn_all. split; [done|]. split; [|by left].
    unfold blen in *. rewrite length_drop. lia.
Qed.

(** Two Chinese characters of 3 bytes do not fit a buffer of 6: one is stored. *)
Lemma string_cp_whole_witness :
  exists ws1 ws2 rest n, [0x4e00; 0x4e01] = ws1 ++ ws2 /\
    string_cp ([] ++ replicate 6 7 ++ [9]) 0 ([] ++ utf8_text [0x4e00; 0x4e01] ++ 0 :: []) 0 6
      = Done (n, [] ++ utf8_text ws1 ++ 0 :: rest ++ [9]) /\
    blen (utf8_text ws1) + 1 + blen rest = 6 /\
    (ws2 = [] /\ n = 6 \/
     exists w ws3, ws2 = w :: ws3 /\ 6 <= blen (utf8_text ws1) + blen (utf8_encode w) /\
       n = 6 - blen rest).
Proof.
  apply (string_cp_whole [] (replicate 6 7) [9] [] [0x4e00; 0x4e01] [] 6);
    [repeat constructor; lia|vm_compute; congruence|lia|done].
Defined.

(** * Widths *)

Definition within (ucs : Z) (i : interval) : bool := (i.1 <=? ucs) && (ucs <=? i.2).

(** Non-empty intervals in increasing order, with gaps or not, never touching. *)
Fixpoint increasing (table : list interval) : bool :=
  match table with
  | [] => true
  | i :: table =>
      (i.1 <=? i.2) &&
      match table with [] => true | j :: _ => i.2 <? j.1 end && increasing table
  end.

Lemma increasing_cons i table : increasing (i :: table) = true ->
  i.1 <= i.2 /\ increasing table = true /\ forall k j, table !! k = Some j -> i.2 < j.1.
Proof.
  revert i. induction table as [|j table IH]; intros i H; cbn [increasing] in H.
  { split_and!; [lia|done|]. intros k j Hk. by rewrite lookup_nil in Hk. }
  apply andb_prop in H as [[H1 H2]%andb_prop H3]. destruct (IH j H3) as (Hj & _ & Hk).
  split_and!; [lia|done|]. intros [|k] j' Hj'; [injection Hj' as <-; lia|].
  specialize (Hk k j' Hj'). lia.
Qed.

Lemma increasing_lookup table : increasing table = true -> forall k i, table !! k = Some i ->
  i.1 <= i.2 /\ forall k' j, (k < k')%nat -> table !! k' = Some j -> i.2 < j.1.
Proof.
  induction table as [|i0 table IH]; intros H k i Hk; [by rewrite lookup_nil in Hk|].
  destruct (increasing_cons _ _ H) as (H1 & H2 & H3). destruct k as [|k].
  - injection Hk as <-. split; [done|]. intros [|k'] j Hlt Hj; [lia|]. by apply (H3 k').
  - destruct (IH H2 k i Hk) as [H4 H5]. split; [done|].
    intros [|k'] j Hlt Hj; [lia|]. apply (H5 k'); [lia|done].
Qed.

Lemma bisearch_loop_spec ucs table : increasing table = true -> forall fuel min max,
  0 <= min <= max + 1 -> max < Z.of_nat (length table) -> max - min + 1 < Z.of_nat fuel ->
  (forall k i, table !! k = Some i -> Z.of_nat k < min -> i.2 < ucs) ->
  (forall k i, table !! k = Some i -> max < Z.of_nat k -> ucs < i.1) ->
  bisearch_loop fuel ucs table min max = Done (existsb (within ucs) table).
Proof.
  intros Ht. induction fuel as [|fuel IH]; intros min max Hmin Hmax Hf Hlo Hhi; cbn [bisearch_loop].
  - lia.
  - destruct (Z.leb_spec min max) as [Hle|Hgt]; cycle 1.
    + f_equal. symmetry. apply not_true_iff_false. intros He. apply existsb_exists in He as (i & Hi & Hw).
      apply list_elem_of_In, list_elem_of_lookup in Hi as [k Hk]. unfold within in Hw.
      destruct (decide (Z.of_nat k < min)); [specialize (Hlo k i Hk)|specialize (Hhi k i Hk)]; lia.
    + rewrite Z.quot_div_nonneg by lia.
      assert (min <= (min + max) / 2 <= max) as Hmid by (split; [apply Z.div_le_lower_bound|apply Z.div_le_upper_bound]; lia).
      set (mid := (min + max) / 2) in *. clearbody mid.
      destruct (lookup_lt_is_Some_2 table (Z.to_nat mid)) as [[first last] Hk]; [lia|]. rewrite Hk.
      destruct (Z.ltb_spec last ucs); [|destruct (Z.ltb_spec ucs first)].
      * apply IH; try lia; [|done]. intros k i Hi Hlt.
        destruct (decide (k = Z.to_nat mid)) as [->|Hne]; [rewrite Hk in Hi; by injection Hi as <-|].
        destruct (increasing_lookup table Ht k i Hi) as [_ H2].
        specialize (H2 (Z.to_nat mid) (first, last) ltac:(lia) Hk). cbn in H2.
        destruct (increasing_lookup table Ht _ _ Hk) as [H3 _]. cbn in H3. lia.
      * apply IH; try lia; [done|]. intros k i Hi Hlt.
        destruct (decide (k = Z.to_nat mid)) as [->|Hne]; [rewrite Hk in Hi; by injection Hi as <-|].
        destruct (increasing_lookup table Ht _ _ Hk) as [H3 H2].
        specialize (H2 k i ltac:(lia) Hi). cbn in H2, H3. lia.
      * f_equal. symmetry. apply existsb_exists. exists (first, last).
        split; [apply list_elem_of_In, (list_elem_of_lookup_2 table _ _ Hk)|].
        unfold within. cbn. lia.
Qed.

Lemma bisearch_spec ucs table : increasing table = true -> table <> [] ->
  bisearch ucs table (Z.of_nat (length table) - 1) = Done (existsb (within ucs) table).
Proof.
  intros Ht Hne. unfold bisearch.
  assert (0 < length table)%nat as Hl by (destruct table; [done|cbn; lia]).
  destruct (lookup_lt_is_Some_2 table 0) as [[first0 last0] H0]; [done|]. rewrite H0.
  destruct (lookup_lt_is_Some_2 table (Z.to_nat (Z.of_nat (length table) - 1))) as [[first1 last1] H1]; [lia|].
  rewrite H1. destruct ((ucs <? first0) || (last1 <? ucs)) eqn:E.
  - f_equal. symmetry. apply not_true_iff_false. intros He. apply existsb_exists in He as (i & Hi & Hw).
    apply list_elem_of_In, list_elem_of_lookup in Hi as [k Hk]. unfold within in Hw.
    pose proof (lookup_lt_Some _ _ _ Hk) as Hlt.
    destruct (increasing_lookup table Ht _ _ Hk) as [H3 H4].
    destruct (increasing_lookup table Ht _ _ H0) as [H5 H6]. cbn in H5, H6.
    destruct (decide (k = 0%nat)) as [->|Hk0].
    + assert (i = (first0, last0)) as -> by congruence. cbn in *.
      destruct (decide (length table = 1%nat)) as [Hl1|Hl1].
      * replace (Z.to_nat (Z.of_nat (length table) - 1)) with 0%nat in H1 by lia.
        rewrite H0 in H1. injection H1 as -> ->. lia.
      * specialize (H4 (Z.to_nat (Z.of_nat (length table) - 1)) (first1, last1) ltac:(lia) H1). cbn in H4.
        destruct (increasing_lookup table Ht _ _ H1) as [H7 _]. cbn in H7. lia.
    + specialize (H6 k i ltac:(lia) Hk).
      destruct (decide (k = Z.to_nat (Z.of_nat (length table) - 1))) as [->|Hkl].
      * rewrite H1 in Hk. injection Hk as <-. cbn in *. lia.
      * specialize (H4 (Z.to_nat (Z.of_nat (length table) - 1)) (first1, last1) ltac:(lia) H1). cbn in *.
        destruct (increasing_lookup table Ht _ _ H1) as [H7 _]. cbn in H7. lia.
  - apply bisearch_loop_spec; try done; try lia.
    intros k i Hk Hlt. apply lookup_lt_Some in Hk. lia.
Qed.

(** The width of every code point. *)
Definition wcwidth (ch : Z) : Z :=
  if ch =? 0 then 0
  else if (ch <? 32) || ((0x7f <=? ch) && (ch <? 0xa0)) then -1
  else if existsb (within ch) combining then 0
  else if wide ch then 2 else 1.

Lemma fb_wcwidth_eq ch : fb_wcwidth ch = Done (wcwidth ch).
Proof.
  unfold fb_wcwidth, wcwidth. destruct (ch =? 0); [done|]. case_match; [done|].
  rewrite bisearch_spec by (by vm_compute). cbn [mbind outcome_bind].
  destruct (existsb (within ch) combining); [done|]. by destruct (wide ch).
Qed.

(** [fb_wcwidth] returns for every code point: the binary search of the
    table finds exactly its intervals' members, so the width is 0 for NUL and
    the characters of the table, -1 for control characters, 2 for the wide
    ranges and 1 for the rest. *)
Theorem fb_wcwidth_spec ch : fb_wcwidth ch = Done (
  if ch =? 0 then 0
  else if (ch <? 32) || ((0x7f <=? ch) && (ch <? 0xa0)) then -1
  else if existsb (within ch) combining then 0
  else if wide ch then 2 else 1).
Proof. apply fb_wcwidth_eq. Qed.

(** * Filtering *)

Definition printable (w : Z) : bool := 0 <? wcwidth w.

Lemma text_cons w ws : utf8_text (w :: ws) = utf8_encode w ++ utf8_text ws.
Proof. done. Qed.

Lemma remove_loop_spec ws : forall fuel d g post str,
  Forall code_point ws -> (length ws < fuel)%nat -> str = blen d + blen g ->
  exists g', remove_loop fuel (d ++ g ++ utf8_text ws ++ 0 :: post) (blen d) str
    = Done (d ++ utf8_text (List.filter printable ws) ++ 0 :: g' ++ post) /\
    blen g' + blen (utf8_text (List.filter printable ws)) = blen g + blen (utf8_text ws).
Proof.
  induction ws as [|w ws IH]; intros fuel d g post str Hws Hf ->;
    (destruct fuel as [|fuel]; [cbn in Hf; lia|]); cbn [remove_loop List.filter].
  - change (utf8_text []) with (@nil Z). cbn [app].
    rewrite (rd_at _ (d ++ g) 0 post) by (app_eq || blen). cbn [mbind outcome_bind].
    destruct (wr_slide d g 0 post (blen d)) as (g' & -> & Hg); [by width|done|].
    exists g'. split; [done|]. blen.
  - apply Forall_cons_1 in Hws as [Hw Hws]. cbn in Hf. rewrite text_cons.
    pose proof (decode_encode (d ++ g) w (utf8_text ws ++ 0 :: post) None Hw) as Hdec.
    specialize (Hdec ltac:(cbn [default]; pose proof (encode_le4 w); lia)).
    rewrite blen_app in Hdec.
    replace ((d ++ g) ++ utf8_encode w ++ utf8_text ws ++ 0 :: post)
      with (d ++ g ++ (utf8_encode w ++ utf8_text ws) ++ 0 :: post) in Hdec by app_eq.
    destruct (encode_shape w Hw) as (h & t & He & _ & _ & Hn). apply Forall_cons_1 in Hn as [Hh _].
    rewrite (rd_at _ (d ++ g) h (t ++ utf8_text ws ++ 0 :: post)) by (rewrite ?He; app_eq || blen).
    cbn [mbind outcome_bind]. rewrite (proj2 (Z.eqb_neq h 0)) by lia.
    rewrite Hdec. cbn [mbind outcome_bind]. clear Hdec.
    rewrite (proj2 (Z.eqb_neq w 0)), (proj2 (Z.eqb_neq w WEOF)) by (unfold code_point, WEOF in *; lia).
    rewrite fb_wcwidth_eq. cbn [mbind outcome_bind]. fold (printable w). destruct (printable w).
    + rewrite Z.add_simpl_l.
      assert (exists g1, (if blen d =? blen d + blen g then Done (d ++ g ++ (utf8_encode w ++ utf8_text ws) ++ 0 :: post)
          else memmove (d ++ g ++ (utf8_encode w ++ utf8_text ws) ++ 0 :: post) (blen d)
                 (blen d + blen g) (blen (utf8_encode w)))
        = Done (d ++ utf8_encode w ++ g1 ++ utf8_text ws ++ 0 :: post) /\ blen g1 = blen g) as (g1 & -> & Hg1).
      { destruct (Z.eqb_spec (blen d) (blen d + blen g)).
        - assert (g = []) as -> by (destruct g; [done|blen]). exists []. split; [app_eq|done].
        - destruct (move_front d g (utf8_encode w) (utf8_text ws ++ 0 :: post)) as (g1 & Hm & Hl).
          exists g1. rewrite <- app_assoc, Hm. by split. }
      cbn [mbind outcome_bind].
      destruct (IH fuel (d ++ utf8_encode w) g1 post (blen d + blen g + blen (utf8_encode w)))
        as (g' & Hr & Hl); [done|lia|blen|].
      rewrite <- !app_assoc, blen_app in Hr. rewrite Hr. exists g'.
      rewrite text_cons, <- app_assoc. split; [done|]. rewrite !blen_app. lia.
    + destruct (IH fuel d (g ++ utf8_encode w) post (blen d + blen g + blen (utf8_encode w)))
        as (g' & Hr & Hl); [done|lia|blen|].
      rewrite <- !app_assoc in Hr. rewrite <- !app_assoc, Hr. exists g'.
      split; [done|]. rewrite !blen_app in *. lia.
Qed.

Lemma text_length ws : Forall code_point ws -> (length ws <= length (utf8_text ws))%nat.
Proof.
  induction 1 as [|w ws Hw _ IH]; [done|]. rewrite text_cons, length_app.
  destruct (encode_shape w Hw) as (h & t & -> & _). cbn. lia.
Qed.

(** Of a valid text, [string_remove_non_printable] keeps in place exactly
    the characters of positive width, whole and in their order, and leaves the
    bytes around the string alone. *)
Theorem remove_non_printable_keeps pre ws post : Forall code_point ws ->
  exists rest, string_remove_non_printable (pre ++ utf8_text ws ++ 0 :: post) (Some (blen pre))
    = Done (pre ++ utf8_text (List.filter printable ws) ++ 0 :: rest ++ post) /\
    blen (utf8_text (List.filter printable ws)) + blen rest = blen (utf8_text ws).
Proof.
  intros Hws. unfold string_remove_non_printable. pose proof (text_length ws Hws).
  destruct (remove_loop_spec ws (length (pre ++ utf8_text ws ++ 0 :: post) + 1) pre [] post (blen pre))
    as (g & Hr & Hl); [done|rewrite !length_app; lia|blen|].
  cbn [app] in Hr. exists g. rewrite Hr. split; [done|]. blen.
Qed.

Lemma remove_non_printable_keeps_witness :
  exists rest, string_remove_non_printable ([1] ++ utf8_text [65; 7; 0x6c49; 0x300] ++ 0 :: []) (Some 1)
    = Done ([1] ++ utf8_text [65; 0x6c49] ++ 0 :: rest ++ []) /\
    blen (utf8_text [65; 0x6c49]) + blen rest = blen (utf8_text [65; 7; 0x6c49; 0x300]).
Proof.
  apply (remove_non_printable_keeps [1] [65; 7; 0x6c49; 0x300] []).
  repeat constructor; lia.
Defined.

(** * Validation *)

Definition total_width (ws : list Z) : Z := foldr (fun w n => wcwidth w + n) 0 ws.

Lemma u64_add_l a b : u64 (u64 a + b) = u64 (a + b).
Proof. unfold u64. by rewrite Zplus_mod_idemp_l. Qed.

Lemma validate_loop_spec az ae len maxw ws : forall fuel pre0 pre post width,
  Forall code_point ws -> (length ws < fuel)%nat ->
  validate_loop fuel (pre0 ++ pre ++ utf8_text ws ++ 0 :: post) (blen pre0) (blen (pre0 ++ pre))
      len maxw (u64 width) az ae
    = Done (if forallb (fun w => allowed az ae (wcwidth w) w) ws &&
               (blen (pre ++ utf8_text ws) <=? len) && (u64 (width + total_width ws) <=? maxw)
            then blen (pre ++ utf8_text ws) else -1).
Proof.
  induction ws as [|w ws IH]; intros fuel pre0 pre post width Hws Hf;
    (destruct fuel as [|fuel]; [cbn in Hf; lia|]); cbn [validate_loop forallb total_width foldr].
  - change (utf8_text []) with (@nil Z). unfold next_wchar. cbn [default Z.eqb].
    rewrite (rd_at _ (pre0 ++ pre) 0 post (blen (pre0 ++ pre))) by (app_eq || done).
    cbn [mbind outcome_bind Z.eqb]. change (0 =? WEOF) with false. cbn [andb].
    rewrite app_nil_r, Z.add_0_r, blen_app, Z.add_simpl_l.
    destruct (Z.ltb_spec len (blen pre)), (Z.leb_spec (blen pre) len); try lia; cbn [orb andb]; [done|].
    by destruct (Z.ltb_spec maxw (u64 width)), (Z.leb_spec (u64 width) maxw); try lia.
  - apply Forall_cons_1 in Hws as [Hw Hws]. cbn in Hf. rewrite text_cons.
    pose proof (decode_encode (pre0 ++ pre) w (utf8_text ws ++ 0 :: post) None Hw) as Hdec.
    specialize (Hdec ltac:(cbn [default]; pose proof (encode_le4 w); lia)).
    replace (pre0 ++ pre ++ (utf8_encode w ++ utf8_text ws) ++ 0 :: post)
      with ((pre0 ++ pre) ++ utf8_encode w ++ utf8_text ws ++ 0 :: post) by app_eq.
    rewrite Hdec. cbn [mbind outcome_bind].
    rewrite (proj2 (Z.eqb_neq w WEOF)), (proj2 (Z.eqb_neq w 0)) by (unfold code_point, WEOF in *; lia).
    rewrite fb_wcwidth_eq. cbn [mbind outcome_bind].
    destruct (allowed az ae (wcwidth w) w); cbn [andb]; [|done].
    pose proof (IH fuel pre0 (pre ++ utf8_encode w) post (width + wcwidth w) Hws ltac:(lia)) as H.
    rewrite u64_add_l. replace (blen (pre0 ++ pre) + blen (utf8_encode w))
      with (blen (pre0 ++ pre ++ utf8_encode w)) by blen.
    replace ((pre0 ++ pre) ++ utf8_encode w ++ utf8_text ws ++ 0 :: post)
      with (pre0 ++ (pre ++ utf8_encode w) ++ utf8_text ws ++ 0 :: post) by app_eq.
    rewrite H. rewrite <- (app_assoc pre), <- Z.add_assoc. done.
Qed.

(** A valid text passes exactly when every character is allowed, it is at
    most [length] bytes long and the sum of its widths, as a [size_t], is at
    most [max_width]; the result is then its length, and -1 otherwise. *)
Theorem validate_text pre ws post len maxw az ae : Forall code_point ws ->
  string_validate_width_and_length (pre ++ utf8_text ws ++ 0 :: post) (blen pre) len maxw az ae
    = Done (if forallb (fun w => allowed az ae (wcwidth w) w) ws &&
               (blen (utf8_text ws) <=? len) && (u64 (total_width ws) <=? maxw)
            then blen (utf8_text ws) else -1).
Proof.
  intros Hws. pose proof (text_length ws Hws).
  pose proof (validate_loop_spec az ae len maxw ws (length (pre ++ utf8_text ws ++ 0 :: post) + 1)
    pre [] post 0 Hws ltac:(rewrite !length_app; lia)) as H1.
  rewrite app_nil_r in H1. exact H1.
Qed.

Lemma validate_text_witness :
  string_validate_width_and_length ([] ++ utf8_text [65; 0x6c49] ++ 0 :: []) 0 4 3 false false
    = Done 4.
Proof.
  apply (validate_text [] [65; 0x6c49] [] 4 3 false false). repeat constructor; lia.
Defined.

(** A text of newlines has a negative width, which wraps: it is refused although
    newlines are allowed. *)
Example newline_refused : string_validate_utf8 [10; 0] 0 10 true = Done (-1).
Proof. reflexivity. Qed.

(** The overlong encoding of NUL ends validation: whatever bytes follow it,
    invalid or too long, the string passes, as one of 2 bytes. *)
Theorem overlong_ends_validation rest len maxw az ae : 2 <= len -> 0 <= maxw ->
  string_validate_width_and_length (192 :: 128 :: rest) 0 len maxw az ae = Done 2.
Proof.
  intros Hl Hw. unfold string_validate_width_and_length. cbn [length Nat.add validate_loop].
  pose proof (decode2 [] rest None 0 0 ltac:(lia) ltac:(lia) ltac:(cbn; lia)) as H.
  cbn [app] in H. change (192 + 0) with 192 in H. change (128 + 0) with 128 in H.
  change (blen []) with 0 in H. change (0 * 2 ^ 6 + 0) with 0 in H.
  rewrite H. cbn. by zcase.
Qed.

Lemma overlong_ends_validation_witness :
  string_validate_width_and_length (192 :: 128 :: [255; 255; 255; 0]) 0 2 0 false false = Done 2.
Proof. apply (overlong_ends_validation [255; 255; 255; 0] 2 0 false false); lia. Defined.
