(* ===== verification/Pool.v ===== *)
(** Memory pools: [lib/pool.c].

    Pointers are addresses. What [malloc] returns, and the page size [sysconf]
    reports, are arguments of the operations that ask for them. *)
From S2P Require Import Prelude.

Definition ALIGNMENT : Z := 8.
Definition sizeof_block : Z := 24.
Definition sizeof_pool : Z := 16.
Definition sizeof_large : Z := 16.

(** A block starts at [base] with its own header. *)
Record pool_block_t := Block { base : Z; last : Z; end_ : Z }.

(** The pool is at the start of its first block; new blocks come after [head].
    [large] holds the pointers of the large allocations. *)
Record pool_t := Pool { head : pool_block_t; next : list pool_block_t; large : list (option Z) }.

Definition _align_ptr (ptr : Z) : Z := Z.land (ptr + ALIGNMENT - 1) (Z.lnot (ALIGNMENT - 1)).

(** [page] is the value of [_max_pool_alloc]; [m] what [malloc(size)] returns. *)
Definition pool_create (page size : Z) (m : option Z) : option (Z * pool_t) :=
  let size := if size =? 0 then page * 2 else size in
  if size <=? sizeof_block then None
  else match m with
  | None => None
  | Some b =>
      let p := _align_ptr (b + sizeof_block) in
      Some (p, Pool (Block b (p + sizeof_pool) (b + size)) [] [])
  end.

(** The pointers freed, and the pool with its blocks empty. *)
Definition pool_clear (p : pool_t) : list Z * pool_t :=
  (omap id (large p),
   Pool (Block (base (head p)) (_align_ptr (base (head p) + sizeof_block) + sizeof_pool) (end_ (head p)))
        (map (fun b => Block (base b) (base b + sizeof_block) (end_ b)) (next p)) []).

(** The pointers freed, in order. *)
Definition pool_destroy (p : pool_t) : list Z :=
  omap id (large p) ++ base (head p) :: map base (next p).

Definition _pool_alloc_block (p : pool_t) (size : Z) (m : option Z) : option Z * pool_t :=
  let bsize := end_ (head p) - base (head p) in
  match m with
  | None => (None, p)
  | Some b =>
      let ret := _align_ptr (b + sizeof_block) in
      (Some ret, Pool (head p) (Block b (ret + size) (b + bsize) :: next p) (large p))
  end.

(** The comparison is between unsigned numbers. *)
Definition has_room (b : pool_block_t) (size : Z) : bool :=
  size <=? u64 (end_ b - _align_ptr (last b)).

(** The first block with room, and the blocks after the allocation. *)
Fixpoint take_room (bs : list pool_block_t) (size : Z) : option (Z * list pool_block_t) :=
  match bs with
  | [] => None
  | b :: bs =>
      if has_room b size then
        let ret := _align_ptr (last b) in
        Some (ret, Block (base b) (ret + size) (end_ b) :: bs)
      else '(ret, bs) ← take_room bs size; Some (ret, b :: bs)
  end.

(** The branch of [pool_alloc] for sizes below a page. *)
Definition pool_alloc_small (p : pool_t) (size : Z) (m : option Z) : option Z * pool_t :=
  match take_room (head p :: next p) size with
  | Some (ret, h :: bs) => (Some ret, Pool h bs (large p))
  | _ => _pool_alloc_block p size m
  end.

(** The list node is allocated from the pool, then the memory with [malloc]. *)
Definition _pool_alloc_large (p : pool_t) (m m2 : option Z) : option Z * pool_t :=
  let '(l, p) := pool_alloc_small p sizeof_large m in
  match l with
  | None => (None, p)
  | Some _ => (m2, Pool (head p) (next p) (m2 :: large p))
  end.

(** [m] is what [malloc] returns for a new block, [m2] for a large memory. *)
Definition pool_alloc (page : Z) (p : pool_t) (size : Z) (m m2 : option Z) : option Z * pool_t :=
  if size <? page then pool_alloc_small p size m
  else _pool_alloc_large p m m2.

(** The result, the pool, and the bytes copied to the new memory. *)
Definition pool_strdup (page : Z) (p : pool_t) (m : list Z) (str : option Z) (size : Z)
    (m1 m2 : option Z) : outcome (option Z * pool_t * list Z) :=
  match str with
  | None => Done (None, p, [])
  | Some str =>
      size ← (if size =? 0 then n ← strlen m str; Done (n + 1) else Done size);
      let '(dst, p) := pool_alloc page p size m1 m2 in
      match dst with
      | None => Done (None, p, [])
      | Some _ => bs ← rdn m str size; Done (dst, p, bs)
      end
  end.

(** * Regions *)

Definition region : Type := Z * Z.

(** Two regions, each an address and a length, have no byte in common. *)
Definition disj (r s : region) : Prop := r.1 + r.2 <= s.1 \/ s.1 + s.2 <= r.1.

Definition inside (r s : region) : Prop := s.1 <= r.1 /\ r.1 + r.2 <= s.1 + s.2.

Fixpoint pairwise (l : list region) : Prop :=
  match l with
  | [] => True
  | r :: l => Forall (disj r) l /\ pairwise l
  end.

Lemma disj_sym r s : disj r s -> disj s r.
Proof. unfold disj. lia. Qed.

Lemma disj_inside r s t : inside r t -> disj s t -> disj s r.
Proof. unfold disj, inside. lia. Qed.

Lemma pairwise_mid l r k : pairwise (l ++ r :: k) -> Forall (disj r) l /\ Forall (disj r) k.
Proof.
  induction l as [|s l IH]; cbn; intros [H1 H2]; [by split|].
  apply Forall_app in H1 as [_ H1]. apply Forall_cons_1 in H1 as [H1 _].
  destruct (IH H2). split; [|done]. constructor; [by apply disj_sym|done].
Qed.

Definition chunk (b : pool_block_t) : region := (base b, end_ b - base b).

(** The part of a block that has been given out. *)
Definition used (b : pool_block_t) : region := (base b + sizeof_block, last b - (base b + sizeof_block)).

Definition block_ok (b : pool_block_t) : Prop :=
  0 <= base b /\ base b mod 8 = 0 /\ end_ b mod 8 = 0 /\ end_ b < 2 ^ 63 /\
  base b + sizeof_block <= last b <= end_ b.

Definition blocks (p : pool_t) : list pool_block_t := head p :: next p.

(** A region given out: within the used part of a block, or outside them all. *)
Definition placed (bs : list pool_block_t) (r : region) : Prop :=
  r.1 mod 8 = 0 /\ 0 <= r.2 /\
  ((exists b, b ∈ bs /\ inside r (used b)) \/ Forall (fun b => disj r (chunk b)) bs).

(** The invariant of a pool and the regions given out from it. *)
Record pool_ok (page : Z) (p : pool_t) (issued : list region) : Prop := {
  ok_blocks : Forall block_ok (blocks p);
  ok_room : page + sizeof_block <= end_ (head p) - base (head p);
  ok_chunks : pairwise (map chunk (blocks p));
  ok_placed : Forall (placed (blocks p)) issued;
  ok_issued : pairwise issued;
}.

(** What [malloc] may return for [n] bytes: aligned, and away from all the
    memory in use. *)
Definition fresh (p : pool_t) (issued : list region) (n a : Z) : Prop :=
  0 <= a /\ a mod 8 = 0 /\ a + n < 2 ^ 63 /\
  Forall (fun b => disj (a, n) (chunk b)) (blocks p) /\ Forall (disj (a, n)) issued.

Lemma align_eq v : _align_ptr v = (v + 7) / 8 * 8.
Proof.
  unfold _align_ptr, ALIGNMENT. change (8 - 1) with (Z.ones 3).
  replace (v + 8 - 1) with (v + 7) by lia.
  change (Z.land ?a (Z.lnot ?b)) with (Z.land a (Z.lnot b)).
  rewrite <- Z.ldiff_land, Z.ldiff_ones_r, Z.shiftr_div_pow2, Z.shiftl_mul_pow2 by lia. done.
Qed.

Lemma align_mod v : _align_ptr v mod 8 = 0.
Proof. rewrite align_eq. apply Z.mod_mul. lia. Qed.

Lemma align_le v e : v <= e -> e mod 8 = 0 -> v <= _align_ptr v <= e.
Proof.
  intros Hv He. rewrite align_eq. apply Z.mod_divide in He as [k ->]; [|lia].
  pose proof (Z.div_mod (v + 7) 8 ltac:(lia)). pose proof (Z.mod_pos_bound (v + 7) 8 ltac:(lia)).
  nia.
Qed.

Lemma align_id v : v mod 8 = 0 -> _align_ptr v = v.
Proof. intros Hv. pose proof (align_le v v ltac:(lia) Hv). lia. Qed.

(** For a sound block the unsigned comparison means what it says. *)
Lemma has_room_ok b size : block_ok b -> 0 <= size ->
  has_room b size = true -> _align_ptr (last b) + size <= end_ b.
Proof.
  intros (H0 & H1 & H2 & H3 & H4) Hs. unfold has_room.
  pose proof (align_le (last b) (end_ b) ltac:(lia) H2).
  rewrite u64_id by (width; unfold sizeof_block in *; lia). lia.
Qed.

Lemma take_room_spec bs size ret bs' : Forall block_ok bs -> 0 <= size ->
  take_room bs size = Some (ret, bs') -> exists b1 b b2, bs = b1 ++ b :: b2 /\
    bs' = b1 ++ Block (base b) (ret + size) (end_ b) :: b2 /\
    ret = _align_ptr (last b) /\ ret + size <= end_ b.
Proof.
  intros Hbs Hs. revert bs'. induction Hbs as [|b bs Hb _ IH]; intros bs' H; [done|].
  cbn in H. destruct (has_room b size) eqn:E.
  - injection H as <- <-. exists [], b, bs. split_and!; try done. by apply has_room_ok.
  - destruct (take_room bs size) as [[ret' bs1]|]; [|done]. injection H as <- <-.
    destruct (IH bs1 eq_refl) as (b1 & b' & b2 & -> & -> & ? & ?).
    by exists (b :: b1), b', b2.
Qed.

(** * Allocation keeps the invariant *)

Lemma used_chunk b : block_ok b -> inside (used b) (chunk b).
Proof. unfold block_ok, inside, used, chunk, sizeof_block. cbn. lia. Qed.

Lemma inside_trans r s t : inside r s -> inside s t -> inside r t.
Proof. unfold inside. lia. Qed.

(** A region at the free end of block [b] is apart from all those given out. *)
Lemma free_end_disj b1 b b2 r s :
  Forall block_ok (b1 ++ b :: b2) -> pairwise (map chunk (b1 ++ b :: b2)) ->
  placed (b1 ++ b :: b2) r -> last b <= s.1 -> s.1 + s.2 <= end_ b -> 0 <= s.2 -> disj s r.
Proof.
  intros Hok Hp (Ha & Hn & Hr) Hl He Hs.
  assert (block_ok b) as Hb by (rewrite list.Forall_forall in Hok; apply Hok; apply elem_of_app; right; left).
  assert (inside s (chunk b)) as Hin by (unfold block_ok, inside, chunk, sizeof_block in *; cbn; lia).
  destruct Hr as [(b0 & Hin0 & Hr)|Hout].
  - rewrite list.Forall_forall in Hok. pose proof (used_chunk _ (Hok b0 Hin0)) as Hu.
    rewrite map_app in Hp. cbn in Hp. apply pairwise_mid in Hp as [H1 H2].
    assert (b0 = b \/ disj (chunk b) (chunk b0)) as [->|Hd].
    { apply elem_of_app in Hin0 as [H|H]; [right|apply elem_of_cons in H as [->|H]; [by left|right]].
      - rewrite list.Forall_forall in H1. apply H1. by apply list_elem_of_fmap_2.
      - rewrite list.Forall_forall in H2. apply H2. by apply list_elem_of_fmap_2. }
    + unfold inside, used, disj, sizeof_block in *. cbn in *. lia.
    + apply disj_sym, (disj_inside _ _ (chunk b)); [done|].
      apply disj_sym, (disj_inside _ _ (chunk b0)); [by eapply inside_trans|done].
  - apply Forall_app in Hout as [_ Hout]. apply Forall_cons_1 in Hout as [Hout _].
    by apply disj_sym, (disj_inside _ _ (chunk b)).
Qed.

Lemma placed_grow b1 b b' b2 r : base b' = base b -> end_ b' = end_ b -> last b <= last b' ->
  placed (b1 ++ b :: b2) r -> placed (b1 ++ b' :: b2) r.
Proof.
  intros Hb He Hl (Ha & Hn & Hr). split; [done|]. split; [done|].
  assert (chunk b' = chunk b) as Hc by (unfold chunk; by rewrite Hb, He).
  destruct Hr as [(b0 & Hin & Hr)|Hout]; [left|right].
  - apply elem_of_app in Hin as [H|H]; [exists b0; split; [apply elem_of_app; by left|done]|].
    apply elem_of_cons in H as [->|H].
    + exists b'. split; [apply elem_of_app; right; left|].
      unfold inside, used in *. cbn in *. lia.
    + exists b0. split; [apply elem_of_app; right; by right|done].
  - apply Forall_app in Hout as [H1 H2]. apply Forall_cons_1 in H2 as [H2 H3].
    apply Forall_app. split; [done|]. constructor; [by rewrite Hc|done].
Qed.

(** Growing one block by an allocation. *)
Lemma grow_ok page p issued b1 b b2 h bs ret size :
  pool_ok page p issued -> blocks p = b1 ++ b :: b2 -> 0 <= size ->
  ret = _align_ptr (last b) -> ret + size <= end_ b ->
  h :: bs = b1 ++ Block (base b) (ret + size) (end_ b) :: b2 ->
  pool_ok page (Pool h bs (large p)) ((ret, size) :: issued).
Proof.
  intros [Hb Hr Hc Hp Hi] Hbs Hs -> He Hh.
  set (b' := Block (base b) (_align_ptr (last b) + size) (end_ b)) in *.
  rewrite Hbs in *.
  assert (block_ok b) as Hbok by (rewrite list.Forall_forall in Hb; apply Hb; apply elem_of_app; right; left).
  destruct Hbok as (B0 & B1 & B2 & B3 & B4).
  pose proof (align_le (last b) (end_ b) ltac:(lia) B2) as Hal.
  assert (blocks (Pool h bs (large p)) = b1 ++ b' :: b2) as Hbs' by done.
  split; rewrite ?Hbs'.
  - apply Forall_app in Hb as [H1 H2]. apply Forall_cons_1 in H2 as [_ H2].
    apply Forall_app. split; [done|]. constructor; [|done].
    unfold block_ok. cbn. unfold sizeof_block in *. lia.
  - cbn. assert (end_ h - base h = end_ (head p) - base (head p)) as ->; [|done].
    unfold blocks in Hbs. destruct b1; cbn in *; injection Hbs as -> _; injection Hh as -> _; done.
  - rewrite map_app in Hc |- *. exact Hc.
  - constructor.
    + split; [apply align_mod|]. split; [done|]. left. exists b'.
      split; [apply elem_of_app; right; left|]. unfold inside, used. cbn. lia.
    + revert Hp. apply Forall_impl. intros r. by apply placed_grow; cbn; [| |lia].
  - split; [|done]. revert Hp. apply Forall_impl. intros r Hpl.
    apply (free_end_disj b1 b b2); try done; cbn; lia.
Qed.

(** Adding a block for an allocation that fits it. *)
Lemma new_block_ok page p issued a size :
  pool_ok page p issued -> 0 <= size < page ->
  fresh p issued (end_ (head p) - base (head p)) a ->
  pool_ok page (_pool_alloc_block p size (Some a)).2 ((_align_ptr (a + sizeof_block), size) :: issued).
Proof.
  intros [Hb Hr Hc Hp Hi] Hs (A0 & A1 & A2 & A3 & A4). cbn.
  set (n := end_ (head p) - base (head p)) in *.
  assert (block_ok (head p)) as (B0 & B1 & B2 & B3 & B4) by (by apply Forall_cons_1 in Hb as [? _]).
  assert (n mod 8 = 0) as Hn.
  { subst n. rewrite Zminus_mod, B1, B2. done. }
  assert (_align_ptr (a + sizeof_block) = a + sizeof_block) as ->.
  { apply align_id. unfold sizeof_block. rewrite Z.add_mod, A1 by lia. done. }
  set (b := Block a (a + sizeof_block + size) (a + n)).
  assert (block_ok b) as Hbok.
  { unfold block_ok, b. cbn. unfold sizeof_block in *. split_and!; try lia.
    rewrite Z.add_mod, A1, Hn by lia. done. }
  assert (chunk b = (a, n)) as Hcb by (unfold chunk, b; cbn; f_equal; lia).
  unfold blocks in *. cbn [head next map] in *.
  apply Forall_cons_1 in Hb as [Hb1 Hb2]. destruct Hc as [Hc1 Hc2].
  apply Forall_cons_1 in A3 as [A3 A3'].
  split; unfold blocks; cbn [head next map].
  - constructor; [done|]. by constructor.
  - done.
  - cbn. rewrite Hcb. split_and!; [|by apply Forall_fmap|done].
    constructor; [by apply disj_sym|done].
  - constructor.
    + split; [cbn; unfold sizeof_block; rewrite Z.add_mod, A1 by lia; done|]. split; [cbn; lia|].
      left. exists b. split; [right; left|]. unfold inside, used, b. cbn. lia.
    + apply list.Forall_forall. intros r Hin. rewrite list.Forall_forall in Hp, A4.
      destruct (Hp r Hin) as (R1 & R2 & R3). split; [done|]. split; [done|].
      destruct R3 as [(b0 & Hin0 & R3)|R3]; [left; exists b0|right].
      * split; [|done]. apply elem_of_cons in Hin0 as [->|Hin0]; [left|by right; right].
      * apply Forall_cons_1 in R3 as [R3 R4]. constructor; [done|]. constructor; [|done].
        rewrite Hcb. by apply disj_sym, A4.
  - split; [|done]. revert A4. apply Forall_impl. intros r Hd.
    apply disj_sym, (disj_inside _ _ (a, n)); [|by apply disj_sym].
    unfold inside. cbn. unfold sizeof_block in *. lia.
Qed.

Definition bsize (p : pool_t) : Z := end_ (head p) - base (head p).

Lemma alloc_small_ok page p issued size m :
  pool_ok page p issued -> 0 <= size < page ->
  (forall a, m = Some a -> fresh p issued (bsize p) a) ->
  match pool_alloc_small p size m with
  | (Some a, p') => pool_ok page p' ((a, size) :: issued) /\
      (exists b, b ∈ blocks p' /\ inside (a, size) (used b)) /\
      forall b, b ∈ blocks p' -> chunk b ∈ map chunk (blocks p) \/ m = Some (base b) /\ chunk b = (base b, bsize p)
  | (None, p') => p' = p /\ m = None
  end.
Proof.
  intros Hok Hs Hm. unfold pool_alloc_small. fold (blocks p).
  destruct (take_room (blocks p) size) as [[ret bs']|] eqn:E.
  - apply take_room_spec in E as (b1 & b & b2 & Hb & -> & Hr & He); [|apply Hok|lia].
    destruct (b1 ++ Block (base b) (ret + size) (end_ b) :: b2) as [|h bs] eqn:Hh; [by destruct b1|].
    split; [by eapply grow_ok; try done; lia|]. split.
    { exists (Block (base b) (ret + size) (end_ b)). split.
      - unfold blocks. cbn. rewrite <- Hh. apply elem_of_app. right. left.
      - destruct Hok as [Hbl _ _ _ _]. rewrite Hb in Hbl. apply Forall_app in Hbl as [_ Hbl].
        apply Forall_cons_1 in Hbl as [(B0 & B1 & B2 & B3 & B4) _].
        pose proof (align_le (last b) (end_ b) ltac:(lia) B2).
        unfold inside, used. cbn. lia. }
    intros b0 Hb0. left. apply (list_elem_of_fmap_2 chunk) in Hb0.
    change (chunk <$> blocks (Pool h bs (large p))) with (map chunk (h :: bs)) in Hb0.
    rewrite <- Hh, map_app in Hb0. by rewrite Hb, map_app.
  - unfold _pool_alloc_block. destruct m as [a|]; [|done].
    pose proof (new_block_ok page p issued a size Hok Hs (Hm a eq_refl)) as H.
    cbn in H. split; [done|]. split.
    { eexists. split; [right; left|]. destruct (Hm a eq_refl) as (A0 & A1 & _).
      unfold inside, used. cbn. rewrite align_id by (unfold sizeof_block; rewrite Z.add_mod, A1 by lia; done).
      lia. }
    intros b0 Hb0. unfold blocks in Hb0. cbn in Hb0.
    apply elem_of_cons in Hb0 as [->|Hb0]; [left; left|].
    apply elem_of_cons in Hb0 as [->|Hb0]; [right|left].
    + cbn. split; [done|]. unfold chunk, bsize. cbn. f_equal. lia.
    + right. by apply list_elem_of_fmap_2.
Qed.

(** As long as [malloc] returns aligned memory that is not in use, every
    allocation from a pool, small or large, returns aligned memory that overlaps
    neither the pool's own structures nor anything given out before, and lies in
    memory that was obtained from [malloc]; it returns NULL only when [malloc]
    does. *)
Theorem pool_alloc_sound page p issued size m m2 :
  pool_ok page p issued -> 0 <= size -> sizeof_large < page ->
  (forall a, m = Some a -> fresh p issued (bsize p) a) ->
  (forall a, m2 = Some a -> fresh p issued size a) ->
  (forall a a2, m = Some a -> m2 = Some a2 -> disj (a2, size) (a, bsize p)) ->
  match pool_alloc page p size m m2 with
  | (Some a, p') => exists own, pool_ok page p' ((a, size) :: own ++ issued)
  | (None, p') => (m = None \/ m2 = None) /\ exists own, pool_ok page p' (own ++ issued)
  end.
Proof.
  intros Hok Hs Hpage Hm Hm2 Hmm. unfold pool_alloc.
  destruct (Z.ltb_spec size page) as [Hlt|Hge].
  - pose proof (alloc_small_ok page p issued size m Hok ltac:(lia) Hm) as H.
    destruct (pool_alloc_small p size m) as [[a|] p'].
    + destruct H as [H _]. by exists [].
    + destruct H as [-> ->]. split; [by left|]. by exists [].
  - unfold _pool_alloc_large.
    pose proof (alloc_small_ok page p issued sizeof_large m Hok ltac:(unfold sizeof_large in *; lia) Hm) as H.
    destruct (pool_alloc_small p sizeof_large m) as [[l|] p1]; cycle 1.
    { destruct H as [-> ->]. split; [by left|]. by exists []. }
    destruct H as [[H1 H2 H3 H4 H5] [(bl & Hbl & Hinl) Hch]].
    destruct m2 as [a|]; cycle 1.
    { split; [by right|]. exists [(l, sizeof_large)]. by split. }
    destruct (Hm2 a eq_refl) as (A0 & A1 & A2 & A3 & A4).
    assert (Forall (fun b => disj (a, size) (chunk b)) (blocks p1)) as Hout.
    { apply list.Forall_forall. intros b Hb. destruct (Hch b Hb) as [Hin|[Hmb ->]].
      - apply list_elem_of_fmap in Hin as (b0 & -> & Hb0).
        rewrite list.Forall_forall in A3. by apply A3.
      - by apply Hmm. }
    exists [(l, sizeof_large)]. split; try done.
    + constructor; [|done]. split; [done|]. split; [done|]. by right.
    + split; [|done]. constructor; [|done]. rewrite list.Forall_forall in Hout, H1.
      apply (disj_inside _ _ (chunk bl)); [|by apply Hout].
      eapply inside_trans; [done|]. by apply used_chunk, H1.
Qed.

(** A new pool is sound, its own structure being the first region given out. *)
Lemma pool_create_ok page size a p pool : sizeof_large < page -> 0 <= a -> a mod 8 = 0 ->
  size mod 8 = 0 -> page + sizeof_block <= size -> a + size < 2 ^ 63 ->
  pool_create page size (Some a) = Some (p, pool) -> pool_ok page pool [(p, sizeof_pool)].
Proof.
  intros Hpage Ha Ha8 Hs8 Hs Hmax. unfold pool_create, sizeof_block, sizeof_large in *.
  rewrite (proj2 (Z.eqb_neq size 0)), (proj2 (Z.leb_gt size 24)) by lia.
  rewrite align_id by (rewrite Z.add_mod, Ha8 by lia; done). intros [= <- <-].
  set (b := Block a (a + 24 + sizeof_pool) (a + size)).
  assert (block_ok b) as Hb.
  { unfold block_ok, b, sizeof_block, sizeof_pool. cbn. split_and!; try lia.
    rewrite Z.add_mod, Ha8, Hs8 by lia. done. }
  split; cbn [blocks head next].
  - by constructor.
  - unfold b, sizeof_block. cbn. lia.
  - done.
  - constructor; [|done]. split; [cbn; rewrite Z.add_mod, Ha8 by lia; done|].
    split; [cbn; unfold sizeof_pool; lia|]. left. exists b. split; [left|].
    unfold inside, used, b, sizeof_block. cbn. lia.
  - by constructor.
Qed.

Lemma pool_alloc_sound_witness : exists own,
  pool_ok 4096 (pool_alloc 4096 (Pool (Block 4096 4136 12288) [] []) 5 None None).2
    ((4136, 5) :: own ++ [(4120, 16)]).
Proof.
  apply (pool_alloc_sound 4096 (Pool (Block 4096 4136 12288) [] []) [(4120, 16)] 5 None None);
    [|lia|unfold sizeof_large; lia|done|done|done].
  apply (pool_create_ok 4096 8192 4096); unfold sizeof_large, sizeof_block; (done || lia).
Defined.
