(* ===== verification/PString.v ===== *)
(** Growing strings in a pool: the [pstring_t] part of [lib/string.c].

    [alloc n] is the new memory [pool_alloc] returns for [n] bytes, if any. *)
From S2P Require Import Prelude.

Definition PSTRING_DEFAULT_LEN : Z := 7.
Definition FB_UINT_MAX : Z := 2 ^ 32 - 1.

(** [pstring_t]: the buffer, the length of the text in it, and its size. *)
Record pstring_t := PString { str : list Z; len : Z; size : Z }.

Fixpoint round_loop (fuel : nat) (s size : Z) : outcome Z :=
  match fuel with
  | O => NoFuel
  | S fuel => if s <=? size then round_loop fuel (u32 (s * 2)) size else Done s
  end.

(** 30 doublings take the default size to the end of the type. *)
Definition pstring_round_size (size : Z) : outcome Z :=
  if size =? FB_UINT_MAX then Done FB_UINT_MAX
  else round_loop 30 (PSTRING_DEFAULT_LEN + 1) size.

Section PString.
Context (alloc : Z -> option (list Z)).

(** A failed allocation makes a null pointer, which the callers write through. *)
Definition new_memory (n : Z) : outcome (list Z) :=
  match alloc n with Some m => Done m | None => Fault end.

Definition pstring_sized_new (size : Z) : outcome pstring_t :=
  size ← pstring_round_size size;
  m ← new_memory size;
  Done (PString m 0 size).

Definition pstring_new : outcome pstring_t := pstring_sized_new PSTRING_DEFAULT_LEN.

Definition _pstring_realloc (s : pstring_t) (size : Z) : outcome pstring_t :=
  m ← new_memory size;
  bs ← rdn (str s) 0 (len s + 1);
  m ← wrn m 0 bs;
  Done (PString m (len s) size).

(** A string of the largest size stays as it is: the callers ignore NULL. *)
Definition pstring_realloc (s : pstring_t) : outcome pstring_t :=
  if size s =? FB_UINT_MAX then Done s else _pstring_realloc s (u32 (size s * 2)).

Definition pstring_append_c (s : pstring_t) (c : Z) : outcome pstring_t :=
  s ← (if len s =? u32 (size s - 1) then pstring_realloc s else Done s);
  m ← wr (str s) (len s) c;
  Done (PString m (u32 (len s + 1)) (size s)).

(** [p] points to the string in [ms]. *)
Definition pstring_append_string (s : pstring_t) (ms : list Z) (p : Z) : outcome pstring_t :=
  src ← cstring ms p;
  s ← (if size s <=? len s + blen src then pstring_realloc s else Done s);
  m ← wrn (str s) (len s) src;
  Done (PString m (u32 (len s + blen src)) (size s)).

(** [vsnprintf] into [n] bytes at [p], of a format that makes the text [out]. *)
Definition vsnprintf (m : list Z) (p n : Z) (out : list Z) : outcome (list Z) :=
  if n =? 0 then Done m else wrn m p (take (Z.to_nat (n - 1)) out ++ [0]).

Definition pstring_append_printf (s : pstring_t) (out : list Z) : outcome pstring_t :=
  let remain := u32 (size s - len s) in
  m ← vsnprintf (str s) (len s) remain out;
  let s := PString m (len s) (size s) in
  let chars := blen out in
  s ← (if remain <=? chars then
         n ← pstring_round_size (u32 (len s + chars + 1));
         s ← _pstring_realloc s n;
         m ← vsnprintf (str s) (len s) (u32 (size s - len s)) out;
         Done (PString m (len s) (size s))
       else Done s);
  Done (PString (str s) (u32 (len s + chars)) (size s)).

Definition pstring_append_space (s : pstring_t) : outcome pstring_t :=
  if len s =? 0 then Done s
  else c ← rd (str s) (len s - 1);
       if isspace (schar c) then Done s else pstring_append_c s 32.

(** The buffer with the text terminated. *)
Definition pstring (s : pstring_t) : outcome (list Z) := wr (str s) (len s) 0.

(** * Rounding *)

(** The sizes a buffer can have. *)
Definition rounded (n : Z) : Prop := exists k, 3 <= k <= 31 /\ n = 2 ^ k.

Lemma rounded_range n : rounded n -> 8 <= n <= 2 ^ 31.
Proof.
  intros (k & Hk & ->). split; [apply (Z.pow_le_mono_r 2 3); lia|apply Z.pow_le_mono_r; lia].
Qed.

Lemma rounded_double n : rounded n -> n < 2 ^ 31 -> rounded (n * 2).
Proof.
  intros (k & Hk & ->) Hn. exists (k + 1). rewrite Z.pow_add_r by lia. split; [|lia].
  destruct (decide (k = 31)) as [->|]; lia.
Qed.

Lemma round_loop_spec fuel : forall s size, rounded s -> size < 2 ^ 31 ->
  2 ^ 31 < s * 2 ^ Z.of_nat fuel ->
  exists r, round_loop fuel s size = Done r /\ size < r /\ rounded r.
Proof.
  induction fuel as [|fuel IH]; intros s sz Hs Hsz Hf; pose proof (rounded_range s Hs); [lia|].
  cbn [round_loop]. destruct (Z.leb_spec s sz) as [Hle|Hgt]; [|by exists s].
  rewrite u32_id by (width; lia). apply IH; [apply rounded_double; [done|lia]|done|].
  rewrite Nat2Z.inj_succ, Z.pow_succ_r in Hf by lia. lia.
Qed.

Lemma round_size_spec sz : 0 <= sz < 2 ^ 31 ->
  exists r, pstring_round_size sz = Done r /\ sz < r /\ rounded r.
Proof.
  intros Hs. unfold pstring_round_size, FB_UINT_MAX. rewrite (proj2 (Z.eqb_neq sz _)) by lia.
  apply round_loop_spec; [by exists 3|lia|]. unfold PSTRING_DEFAULT_LEN. lia.
Qed.

(** From 2^31 on the size wraps to 0 before it is large enough, and the
    loop does not end, however long it runs. *)
Theorem round_size_diverges sz fuel : 2 ^ 31 <= sz -> round_loop fuel (PSTRING_DEFAULT_LEN + 1) sz = NoFuel.
Proof.
  intros Hs.
  assert (forall k s, s = 0 \/ s = 2 ^ k /\ 0 <= k <= 31 -> round_loop fuel s sz = NoFuel) as H.
  { induction fuel as [|fuel' IH]; intros k s Hk; [done|]. cbn [round_loop].
    assert (s <= sz) as Hle.
    { destruct Hk as [->|[-> Hk]]; [lia|]. pose proof (Z.pow_le_mono_r 2 k 31). lia. }
    rewrite (proj2 (Z.leb_le s sz)) by done. apply (IH (k + 1)).
    destruct Hk as [->|[-> Hk]]; [by left|].
    replace (2 ^ k * 2) with (2 ^ (k + 1)) by (rewrite Z.pow_add_r by lia; lia).
    destruct (decide (k = 31)) as [->|Hk31]; [by left|right].
    pose proof (Z.pow_le_mono_r 2 (k + 1) 31). pose proof (Z.pow_pos_nonneg 2 (k + 1)).
    split; [apply u32_id; width; lia|lia]. }
  apply (H 3). right. split; [done|lia].
Qed.

(** * The text of a string *)

Context (alloc_ok : forall n, 0 < n <= 2 ^ 31 -> exists m, alloc n = Some m /\ blen m = n).

(** [s] holds [text], with room for its NUL; [tail] is the rest of the buffer. *)
Definition holds (s : pstring_t) (text : list Z) : Prop :=
  exists tail, str s = text ++ tail /\ len s = blen text /\ size s = blen (str s) /\
    len s < size s /\ rounded (size s).

Lemma new_memory_ok n : 0 < n <= 2 ^ 31 -> exists m, new_memory n = Done m /\ blen m = n.
Proof. intros Hn. unfold new_memory. destruct (alloc_ok n Hn) as (m & -> & Hm). by exists m. Qed.

Lemma pstring_new_holds : exists s, pstring_new = Done s /\ holds s [].
Proof.
  unfold pstring_new, pstring_sized_new. cbn [pstring_round_size].
  change (pstring_round_size PSTRING_DEFAULT_LEN) with (Done 8). cbn [mbind outcome_bind].
  destruct (new_memory_ok 8 ltac:(lia)) as (m & -> & Hm). cbn [mbind outcome_bind].
  eexists. split; [done|]. exists m. cbn. split_and!; try (done || lia). by exists 3.
Qed.

Lemma realloc_holds s text n : holds s text -> blen text < n -> rounded n ->
  exists s', _pstring_realloc s n = Done s' /\ holds s' text /\ size s' = n.
Proof.
  intros (tail & Hs & Hl & Hz & Hr & _) Hn Hn8. unfold _pstring_realloc.
  pose proof (blen_nonneg text). pose proof (rounded_range n Hn8).
  destruct (new_memory_ok n ltac:(lia)) as (m & -> & Hm). cbn [mbind outcome_bind].
  destruct tail as [|c tail]; [rewrite app_nil_r in Hs; rewrite Hs in Hz; lia|].
  rewrite (rdn_at (str s) [] (text ++ [c]) tail);
    [|by rewrite Hs; app_eq|done|by rewrite blen_app, Hl].
  cbn [mbind outcome_bind].
  set (k := Z.to_nat (blen (text ++ [c]))).
  rewrite (wrn_at m [] (take k m) (drop k m)); cycle 1.
  { cbn [app]. by rewrite take_drop. }
  { done. }
  { subst k. unfold blen in *. rewrite length_take, length_app in *. cbn. lia. }
  cbn [mbind outcome_bind]. eexists. split; [done|]. split; [|done].
  exists ([c] ++ drop k m). cbn [str len size app]. split_and!; try lia; [app_eq| |done].
  subst k. unfold blen in *. rewrite !length_app, length_drop in *. cbn in *. lia.
Qed.

Lemma append_c_holds s text c : holds s text -> 0 <= c < 256 -> blen text + 2 <= 2 ^ 31 ->
  exists s', pstring_append_c s c = Done s' /\ holds s' (text ++ [c]).
Proof.
  intros Hh Hc Hb. unfold pstring_append_c. pose proof (blen_nonneg text).
  assert (exists s1, (if len s =? u32 (size s - 1) then pstring_realloc s else Done s) = Done s1 /\
    holds s1 text /\ blen text + 1 < size s1) as (s1 & -> & Hh1 & Hz1).
  { pose proof Hh as (tail & Hs & Hl & Hz & Hr & H8). pose proof (rounded_range _ H8).
    rewrite u32_id by (width; lia).
    destruct (Z.eqb_spec (len s) (size s - 1)) as [He|He]; [|exists s; split; [done|split; [done|lia]]].
    unfold pstring_realloc, FB_UINT_MAX. rewrite (proj2 (Z.eqb_neq (size s) _)) by lia.
    rewrite u32_id by (width; lia).
    destruct (realloc_holds s text (size s * 2) Hh) as (s' & -> & Hh' & Hz');
      [lia|apply rounded_double; [done|lia]|].
    exists s'. split; [done|]. split; [done|lia]. }
  cbn [mbind outcome_bind]. destruct Hh1 as (tail & Hs & Hl & Hz & Hr & H8).
  pose proof (rounded_range _ H8).
  destruct tail as [|x tail]; [rewrite app_nil_r in Hs; rewrite Hs in Hz; lia|].
  rewrite (wr_at (str s1) text x tail) by (rewrite ?Hs; done). cbn [mbind outcome_bind].
  eexists. split; [done|]. rewrite u8_id by (width; lia).
  exists tail. cbn [str len size]. rewrite u32_id by (width; lia).
  split_and!; [app_eq|by rewrite blen_app, Hl| |lia|done].
  rewrite Hz, Hs, !blen_app, !blen_cons. lia.
Qed.

Lemma vsnprintf_fits s text out : holds s text -> blen text + blen out < size s ->
  exists m, vsnprintf (str s) (len s) (u32 (size s - len s)) out = Done m /\
    holds (PString m (u32 (len s + blen out)) (size s)) (text ++ out).
Proof.
  intros (tail & Hs & Hl & Hz & Hr & H8) Hb. unfold vsnprintf. pose proof (blen_nonneg out).
  pose proof (blen_nonneg text). pose proof (rounded_range _ H8).
  rewrite u32_id by (width; lia). rewrite (proj2 (Z.eqb_neq _ 0)) by lia.
  rewrite take_ge by (unfold blen in *; lia).
  assert (blen tail = size s - len s) as Ht by (rewrite Hz, Hs, blen_app in *; lia).
  set (k := length (out ++ [0])).
  rewrite (wrn_at (str s) text (take k tail) (drop k tail)); cycle 1.
  { by rewrite take_drop. }
  { done. }
  { subst k. unfold blen in *. rewrite length_take, length_app in *. cbn in *. lia. }
  eexists. split; [done|]. exists ([0] ++ drop k tail). cbn [str len size].
  rewrite u32_id by (width; lia). split_and!; try done; [app_eq|rewrite blen_app; lia| |lia].
  subst k. rewrite !blen_app. unfold blen in *. rewrite length_drop, length_app. cbn in *. lia.
Qed.

Lemma vsnprintf_cut s text out : holds s text -> size s <= blen text + blen out ->
  exists m, vsnprintf (str s) (len s) (u32 (size s - len s)) out = Done m /\
    holds (PString m (len s) (size s)) text.
Proof.
  intros (tail & Hs & Hl & Hz & Hr & H8) Hb. unfold vsnprintf. pose proof (blen_nonneg out).
  pose proof (blen_nonneg text). pose proof (rounded_range _ H8).
  rewrite u32_id by (width; lia). rewrite (proj2 (Z.eqb_neq _ 0)) by lia.
  assert (blen tail = size s - len s) as Ht by (rewrite Hz, Hs, blen_app in *; lia).
  set (bs := take _ out ++ [0]).
  assert (blen bs = blen tail) as Hbs.
  { subst bs. rewrite blen_app. unfold blen in *. rewrite length_take. cbn. lia. }
  rewrite (wrn_at (str s) text tail []) by (rewrite ?app_nil_r; done).
  eexists. split; [done|]. exists bs. rewrite app_nil_r. cbn [str len size].
  split_and!; try done. rewrite blen_app. lia.
Qed.

Lemma append_printf_holds s text out : holds s text -> blen text + blen out + 1 < 2 ^ 31 ->
  exists s', pstring_append_printf s out = Done s' /\ holds s' (text ++ out).
Proof.
  intros Hh Hb. unfold pstring_append_printf. pose proof (blen_nonneg text). pose proof (blen_nonneg out).
  pose proof Hh as (tail & Hs & Hl & Hz & Hr & H8). pose proof (rounded_range _ H8).
  assert (u32 (size s - len s) = size s - len s) as Hu by (apply u32_id; width; lia).
  destruct (Z.leb_spec (u32 (size s - len s)) (blen out)) as [Hle|Hgt].
  - destruct (vsnprintf_cut s text out Hh) as (m & -> & Hm); [lia|]. cbn [mbind outcome_bind len size].
    rewrite u32_id by (width; lia).
    destruct (round_size_spec (len s + blen out + 1)) as (r & -> & Hr1 & Hr8); [lia|].
    cbn [mbind outcome_bind].
    destruct (realloc_holds _ text r Hm ltac:(lia) Hr8) as (s1 & -> & Hh1 & Hz1).
    cbn [mbind outcome_bind].
    destruct (vsnprintf_fits s1 text out Hh1) as (m1 & -> & Hm1); [lia|].
    cbn [mbind outcome_bind str len size]. eexists. split; [done|].
    destruct Hh1 as (_ & _ & Hl1 & _). by rewrite Hl1 in *.
  - destruct (vsnprintf_fits s text out Hh) as (m & -> & Hm); [lia|].
    cbn [mbind outcome_bind str len size]. by eexists.
Qed.

(** A space is added unless the text is empty or ends in one. *)
Definition add_space (text : list Z) : list Z :=
  match List.rev text with
  | [] => text
  | c :: _ => if isspace (schar c) then text else text ++ [32]
  end.

Lemma append_space_holds s text : holds s text -> blen text + 2 <= 2 ^ 31 ->
  exists s', pstring_append_space s = Done s' /\ holds s' (add_space text).
Proof.
  intros Hh Hb. unfold pstring_append_space, add_space.
  pose proof Hh as (tail & Hs & Hl & Hz & Hr & H8).
  destruct (snoc_case text) as [->|(t & c & ->)].
  { rewrite Hl. by exists s. }
  rewrite rev_unit. rewrite blen_app in Hl. change (blen [c]) with 1 in Hl. pose proof (blen_nonneg t).
  rewrite (proj2 (Z.eqb_neq (len s) 0)) by lia.
  rewrite (rd_at _ t c tail (len s - 1)) by (rewrite ?Hs; (app_eq || lia)). cbn [mbind outcome_bind].
  destruct (isspace (schar c)); [by exists s|]. apply append_c_holds; [done|lia|done].
Qed.

(** The operations that grow a string. *)
Inductive op := AppendC (c : Z) | AppendPrintf (out : list Z) | AppendSpace.

Definition step (s : pstring_t) (o : op) : outcome pstring_t :=
  match o with
  | AppendC c => pstring_append_c s c
  | AppendPrintf out => pstring_append_printf s out
  | AppendSpace => pstring_append_space s
  end.

Fixpoint steps (s : pstring_t) (ops : list op) : outcome pstring_t :=
  match ops with [] => Done s | o :: ops => s ← step s o; steps s ops end.

(** The text they make. *)
Definition text_step (text : list Z) (o : op) : list Z :=
  match o with
  | AppendC c => text ++ [c]
  | AppendPrintf out => text ++ out
  | AppendSpace => add_space text
  end.

(** Bytes, and at most this many of them. *)
Definition op_ok (o : op) : Prop :=
  match o with AppendC c => 0 <= c < 256 | _ => True end.
Definition op_size (o : op) : Z := match o with AppendPrintf out => blen out | _ => 1 end.

Lemma add_space_le text : blen (add_space text) <= blen text + 1.
Proof. unfold add_space. repeat case_match; rewrite ?blen_app; change (blen [32]) with 1; lia. Qed.

Lemma steps_holds ops : forall s text, Forall op_ok ops -> holds s text ->
  blen text + foldr (fun o n => op_size o + n) 0 ops + 2 < 2 ^ 31 ->
  exists s', steps s ops = Done s' /\ holds s' (foldl text_step text ops).
Proof.
  induction ops as [|o ops IH]; intros s text Ho Hh Hb; cbn [steps foldl foldr] in *; [by exists s|].
  apply Forall_cons_1 in Ho as [Ho Hos].
  assert (0 <= foldr (fun o n => op_size o + n) 0 ops) as Hpos.
  { clear. induction ops as [|[c|out|] ops IH]; cbn; [lia|lia| |lia]. pose proof (blen_nonneg out). lia. }
  assert (exists s', step s o = Done s' /\ holds s' (text_step text o)) as (s' & -> & Hh').
  { destruct o as [c|out|]; cbn in *; [apply append_c_holds|apply append_printf_holds|apply append_space_holds];
      (done || lia). }
  cbn [mbind outcome_bind]. apply IH; try done.
  assert (blen (text_step text o) <= blen text + op_size o); [|lia].
  destruct o as [c|out|]; cbn; rewrite ?blen_app; [change (blen [c]) with 1; lia|lia|apply add_space_le].
Qed.

(** A string built by any sequence of appended characters, formatted texts
    and separating spaces, below 2 GB and as long as memory lasts, holds exactly
    their concatenation, terminated, and never leaves its buffer. *)
Theorem pstring_built ops : Forall op_ok ops ->
  foldr (fun o n => op_size o + n) 0 ops + 2 < 2 ^ 31 ->
  exists s m rest, (s ← pstring_new; steps s ops) = Done s /\ pstring s = Done m /\
    m = foldl text_step [] ops ++ 0 :: rest.
Proof.
  intros Ho Hb. destruct pstring_new_holds as (s & -> & Hh). cbn [mbind outcome_bind].
  destruct (steps_holds ops s [] Ho Hh) as (s' & -> & (tail & Hs & Hl & Hz & Hr & _)); [rewrite blen_nil; lia|].
  destruct tail as [|c tail]; [rewrite app_nil_r in Hs; rewrite Hs in Hz; lia|].
  eexists s', _, tail. split; [done|]. unfold pstring.
  by rewrite (wr_at _ (foldl text_step [] ops) c tail).
Qed.

(** [pstring_append_string] doubles the buffer once: a text that needs more
    is written past its end. *)
Theorem append_string_overflows s text pre src post : holds s text -> nul_free src ->
  blen text + blen src < 2 ^ 31 -> size s * 2 < blen text + blen src ->
  pstring_append_string s (pre ++ src ++ 0 :: post) (blen pre) = Fault.
Proof.
  intros Hh Hn Hb Hlong. unfold pstring_append_string.
  pose proof Hh as (tail & Hs & Hl & Hz & Hr & H8). pose proof (rounded_range _ H8).
  rewrite (cstring_at _ pre src post) by done. cbn [mbind outcome_bind]. zcase.
  unfold pstring_realloc, FB_UINT_MAX. rewrite (proj2 (Z.eqb_neq (size s) _)) by lia.
  rewrite u32_id by (width; lia). pose proof (blen_nonneg text).
  destruct (realloc_holds s text (size s * 2) Hh) as (s' & -> & (t' & Hs' & Hl' & Hz' & _) & Hz2);
    [lia|apply rounded_double; [done|lia]|].
  cbn [mbind outcome_bind]. unfold wrn.
  by destruct (Z.leb_spec (len s' + blen src) (blen (str s'))); [lia|rewrite andb_false_r].
Qed.
End PString.

(** * Witnesses: an allocator of zeros *)

Definition zeros (n : Z) : option (list Z) := Some (replicate (Z.to_nat n) 0).

Lemma zeros_ok n : 0 < n <= 2 ^ 31 -> exists m, zeros n = Some m /\ blen m = n.
Proof. intros Hn. eexists. split; [done|]. unfold blen. rewrite length_replicate. lia. Qed.

Lemma round_size_diverges_witness : round_loop 1000 8 (2 ^ 31) = NoFuel.
Proof. apply (round_size_diverges (2 ^ 31) 1000). lia. Defined.

Lemma pstring_built_witness : exists s m rest,
  (s ← pstring_new zeros; steps zeros s [AppendPrintf [65; 66]; AppendSpace; AppendC 67]) = Done s /\
  pstring s = Done m /\ m = [65; 66; 32; 67] ++ 0 :: rest.
Proof.
  apply (pstring_built zeros zeros_ok [AppendPrintf [65; 66]; AppendSpace; AppendC 67]);
    [repeat constructor; cbn; lia|done].
Defined.

Lemma append_string_overflows_witness :
  pstring_append_string zeros (PString (replicate 8 0) 0 8) ([] ++ replicate 17 65 ++ 0 :: []) 0 = Fault.
Proof.
  apply (append_string_overflows zeros zeros_ok (PString (replicate 8 0) 0 8) [] [] (replicate 17 65) []);
    [|repeat constructor; lia|done|done].
  exists (replicate 8 0). split_and!; try done. exists 3. split; [lia|done].
Defined.
