(* ===== verification/Query.v ===== *)
(** Database queries: the query builder of [lib/pg.c]. *)
From S2P Require Import Prelude PString.

(** * Parameters *)

Inductive param :=
| QUERY_PARAM_BOOL (d : Z)
| QUERY_PARAM_INT (d : Z)
| QUERY_PARAM_BIGINT (l : Z)
| QUERY_PARAM_STRING (s : list Z)
| QUERY_PARAM_TIME (t : Z).

(** Variable arguments: integers and strings. *)
Inductive arg := Int (z : Z) | Str (s : list Z).

Record query_t := Query { query : pstring_t; params : list param; count : Z }.

Section Build.
Context (alloc : Z -> option (list Z)).

Definition query_new (size : Z) : outcome query_t :=
  s ← pstring_sized_new alloc (if size =? 0 then 511 else size); Done (Query s [] 0).

Definition query_append_param (q : query_t) (p : param) : outcome query_t :=
  s ← pstring_append_printf alloc (query q) (bytes "$" ++ decimal (count q + 1));
  Done (Query s (params q ++ [p]) (count q + 1)).

Definition append_c (q : query_t) (c : Z) : outcome query_t :=
  s ← pstring_append_c alloc (query q) c; Done (Query s (params q) (count q)).
Definition append_space (q : query_t) : outcome query_t :=
  s ← pstring_append_space alloc (query q); Done (Query s (params q) (count q)).
Definition append_string (q : query_t) (symbol : list Z) : outcome query_t :=
  s ← pstring_append_string alloc (query q) (symbol ++ [0]) 0; Done (Query s (params q) (count q)).

(** The next argument, for a conversion. *)
Definition take_arg (c : Z) (args : list arg) : option (param * list arg) :=
  match args with
  | Int d :: args =>
      if c =? 98 then Some (QUERY_PARAM_BOOL (i32 d), args)
      else if c =? 100 then Some (QUERY_PARAM_INT (i32 d), args)
      else if c =? 108 then Some (QUERY_PARAM_BIGINT (i64 d), args)
      else if c =? 116 then Some (QUERY_PARAM_TIME (u32 d), args)
      else None
  | Str s :: args => if c =? 115 then Some (QUERY_PARAM_STRING s, args) else None
  | [] => None
  end.

Definition is_conversion (c : Z) : bool := existsb (Z.eqb c) (bytes "bdlst").

(** A format whose last character is the percent sign is read past its end; an
    argument of the wrong type is undefined. *)
Fixpoint vappend_loop (q : query_t) (cmd : list Z) (args : list arg) : outcome query_t :=
  match cmd with
  | [] => Done q
  | c :: cmd =>
      if c =? 37 then
        match cmd with
        | [] => Fault
        | d :: cmd =>
            if is_conversion d then
              match take_arg d args with
              | Some (p, args) => q ← query_append_param q p; vappend_loop q cmd args
              | None => Fault
              end
            else q ← append_c q d; vappend_loop q cmd args
        end
      else q ← append_c q c; vappend_loop q cmd args
  end.

Definition query_vappend (q : query_t) (cmd : option (list Z)) (args : list arg) : outcome query_t :=
  match cmd with
  | None => Done q
  | Some cmd =>
      q ← (if negb (bool_decide (head cmd = Some 32)) then append_space q else Done q);
      vappend_loop q cmd args
  end.

Definition query_vappend_symbol (q : query_t) (symbol : list Z) (cmd : option (list Z)) (args : list arg) : outcome query_t :=
  q ← append_space q;
  q ← (match symbol with [] => Done q | _ => append_string q symbol end);
  query_vappend q cmd args.

Definition query_append (q : query_t) (cmd : list Z) (args : list arg) : outcome query_t :=
  query_vappend_symbol q [] (Some cmd) args.
Definition query_sappend (q : query_t) (symbol cmd : list Z) (args : list arg) : outcome query_t :=
  query_vappend_symbol q symbol (Some cmd) args.

Definition query_select q fields := query_sappend q (bytes "SELECT") fields [].
Definition query_from q table := query_sappend q (bytes "FROM") table [].
Definition query_update q table := query_sappend q (bytes "UPDATE") table [].
Definition query_set q cmd args := query_sappend q (bytes "SET") cmd args.
Definition query_where q cmd args := query_sappend q (bytes "WHERE") cmd args.
Definition query_and q cmd args := query_sappend q (bytes "AND") cmd args.

Definition query_orderby (q : query_t) (field : list Z) (asc : bool) : outcome query_t :=
  q ← query_sappend q (bytes "ORDER BY") field [];
  if asc then Done q else query_append q (bytes "DESC") [].
Definition query_limit (q : query_t) (limit : Z) : outcome query_t := query_sappend q (bytes "LIMIT") (bytes "%l") [Int limit].
End Build.

(** * Values in messages *)

Definition POSTGRES_EPOCH_TIME : Z := 946684800.

(** The division is of 64-bit numbers, the result a 32-bit one. *)
Definition ts_to_time (ts : Z) : Z := u32 (Z.quot ts 1000000 + POSTGRES_EPOCH_TIME).
(** The difference is of unsigned 32-bit numbers. *)
Definition time_to_ts (t : Z) : Z := i64 (u32 (t - POSTGRES_EPOCH_TIME) * 1000000).

(** [n] bytes of a number, the first the most significant, and the number. *)
Fixpoint be_bytes (n : nat) (x : Z) : list Z :=
  match n with O => [] | S n => be_bytes n (x / 256) ++ [x mod 256] end.
Definition be_value (l : list Z) : Z := fold_left (fun a b => a * 256 + b) l 0.

(** The value of a parameter and whether it is binary. *)
Definition convert_param (p : param) : list Z * bool :=
  match p with
  | QUERY_PARAM_BOOL d => ([if d =? 0 then 0 else 1], true)
  | QUERY_PARAM_INT d => (be_bytes 4 (u32 d), true)
  | QUERY_PARAM_BIGINT l => (be_bytes 8 (u64 l), true)
  | QUERY_PARAM_TIME t => (be_bytes 8 (u64 (time_to_ts t)), true)
  | QUERY_PARAM_STRING s => (s, false)
  end.
Definition convert_param_array (q : query_t) : list (list Z * bool) := convert_param <$> params q.

(** A field of a result, binary. *)
Definition db_get_smallint (r : list Z) : outcome Z := b ← rdn r 0 2; Done ((be_value b + 2 ^ 15) mod 2 ^ 16 - 2 ^ 15).
Definition db_get_integer (r : list Z) : outcome Z := b ← rdn r 0 4; Done (i32 (be_value b)).
Definition db_get_bigint (r : list Z) : outcome Z := b ← rdn r 0 8; Done (i64 (be_value b)).
Definition db_get_bool (r : list Z) : outcome bool := c ← rd r 0; Done (negb (c =? 0)).
(** Or a text. *)
Definition db_get_bool_text (r : list Z) : outcome bool := c ← rd r 0; Done (existsb (Z.eqb c) (bytes "TtYy1")).
Definition db_get_time (r : list Z) : outcome Z := b ← rdn r 0 8; Done (ts_to_time (i64 (be_value b))).

(** How many parameters a format has. *)
Fixpoint get_num_args (cmd : list Z) : Z :=
  match cmd with
  | [] => 0
  | c :: cmd =>
      if c =? 37 then match cmd with [] => 0 | d :: cmd => (if is_conversion d then 1 else 0) + get_num_args cmd end
      else get_num_args cmd
  end.

(** * The text of a query *)

(** The text of a format after [n] parameters, and how many there are then. It
    does not depend on arguments. *)
Fixpoint format_text (n : Z) (cmd : list Z) : option (list Z * Z) :=
  match cmd with
  | [] => Some ([], n)
  | c :: cmd =>
      if c =? 37 then
        match cmd with
        | [] => None
        | d :: cmd =>
            if is_conversion d then '(t, m) ← format_text (n + 1) cmd; Some ((bytes "$" ++ decimal (n + 1)) ++ t, m)
            else '(t, m) ← format_text n cmd; Some (d :: t, m)
        end
      else '(t, m) ← format_text n cmd; Some (c :: t, m)
  end.

(** The values of the arguments of a format, in order. *)
Fixpoint format_params (cmd : list Z) (args : list arg) : option (list param) :=
  match cmd with
  | [] => Some []
  | c :: cmd =>
      if c =? 37 then
        match cmd with
        | [] => None
        | d :: cmd =>
            if is_conversion d then '(p, args) ← take_arg d args; ps ← format_params cmd args; Some (p :: ps)
            else format_params cmd args
        end
      else format_params cmd args
  end.

(** One part of a query: a symbol, a format and its arguments. *)
Record part := Part { symbol : list Z; cmd : list Z; args : list arg }.

Definition add_text (text : list Z) (n : Z) (p : part) : option (list Z * Z) :=
  let text := add_space text ++ symbol p in
  '(t, m) ← format_text n (cmd p);
  Some ((if bool_decide (head (cmd p) = Some 32) then text else add_space text) ++ t, m).

Fixpoint parts_text (text : list Z) (n : Z) (ps : list part) : option (list Z * Z) :=
  match ps with [] => Some (text, n) | p :: ps => '(text, n) ← add_text text n p; parts_text text n ps end.

Fixpoint parts_params (ps : list part) : option (list param) :=
  match ps with [] => Some [] | p :: ps => a ← format_params (cmd p) (args p); b ← parts_params ps; Some (a ++ b) end.

(** The same parts without their arguments. *)
Definition erased (p : part) : part := Part (symbol p) (cmd p) [].

Section Spec.
Context (alloc : Z -> option (list Z)) (alloc_ok : forall n, 0 < n <= 2 ^ 31 -> exists m, alloc n = Some m /\ blen m = n).

Definition run_part (q : query_t) (p : part) : outcome query_t := query_sappend alloc q (symbol p) (cmd p) (args p).
Fixpoint run_parts (q : query_t) (ps : list part) : outcome query_t :=
  match ps with [] => Done q | p :: ps => q ← run_part q p; run_parts q ps end.

(** ** Buffers never shrink *)

Lemma realloc_size s n s' : _pstring_realloc alloc s n = Done s' -> size s' = n.
Proof.
  unfold _pstring_realloc. destruct (new_memory alloc n) as [m| |]; cbn [mbind outcome_bind]; try done.
  destruct (rdn (str s) 0 (len s + 1)) as [b| |]; cbn [mbind outcome_bind]; try done.
  destruct (wrn m 0 b) as [m'| |]; cbn [mbind outcome_bind]; try done. by intros [= <-].
Qed.

Lemma append_c_grows s text c s' : holds s text -> blen text + 2 <= 2 ^ 31 -> pstring_append_c alloc s c = Done s' -> size s <= size s'.
Proof.
  intros (tail & _ & Hl & _ & _ & Hr) Hb. apply rounded_range in Hr. unfold pstring_append_c, pstring_realloc, FB_UINT_MAX.
  rewrite (u32_id (size s - 1)) by (width; lia). destruct (Z.eqb_spec (len s) (size s - 1)) as [He|He].
  - rewrite (proj2 (Z.eqb_neq (size s) _)), (u32_id (size s * 2)) by (width; lia).
    destruct (_pstring_realloc alloc s (size s * 2)) as [s1| |] eqn:E; cbn [mbind outcome_bind]; try done. apply realloc_size in E.
    destruct (wr (str s1) (len s1) c); cbn [mbind outcome_bind]; try done. intros [= <-]. cbn. lia.
  - cbn [mbind outcome_bind]. destruct (wr (str s) (len s) c); cbn [mbind outcome_bind]; try done. intros [= <-]. done.
Qed.

Lemma append_printf_grows s text out s' : holds s text -> blen text + blen out + 1 < 2 ^ 31 ->
  pstring_append_printf alloc s out = Done s' -> size s <= size s'.
Proof.
  intros (tail & _ & Hl & _ & Hlt & Hr) Hb. apply rounded_range in Hr. unfold pstring_append_printf. pose proof (blen_nonneg text). pose proof (blen_nonneg out).
  rewrite (u32_id (size s - len s)) by (width; lia).
  destruct (vsnprintf _ _ _ out) as [m| |]; cbn [mbind outcome_bind len size str]; try done.
  destruct (Z.leb_spec (size s - len s) (blen out)); cbn [mbind outcome_bind]; [|intros [= <-]; done].
  rewrite u32_id by (width; lia). destruct (round_size_spec (len s + blen out + 1)) as (n & -> & Hn & _); [lia|]. cbn [mbind outcome_bind].
  destruct (_pstring_realloc alloc _ n) as [s1| |] eqn:E; cbn [mbind outcome_bind]; try done. apply realloc_size in E.
  destruct (vsnprintf _ _ _ out); cbn [mbind outcome_bind]; try done. intros [= <-]. cbn. lia.
Qed.

(** A query whose text is [text]: its buffer is no smaller than a new one. *)
Definition built (q : query_t) (text : list Z) (n : Z) (vs : list param) : Prop :=
  holds (query q) text /\ 512 <= size (query q) /\ count q = n /\ params q = vs.

Lemma built_new : exists q, query_new alloc 0 = Done q /\ built q [] 0 [].
Proof.
  unfold query_new, pstring_sized_new. change (pstring_round_size (if 0 =? 0 then 511 else 0)) with (Done 512). cbn [mbind outcome_bind].
  destruct (new_memory_ok alloc alloc_ok 512) as (m & -> & Hm); [lia|]. cbn [mbind outcome_bind]. eexists. split; [done|].
  split; [|cbn; split; [lia|done]]. exists m. split; [done|]. split; [done|]. cbn. split; [lia|]. split; [lia|]. exists 9. lia.
Qed.

Lemma built_c q text n vs c : built q text n vs -> 0 <= c < 256 -> blen text + 2 <= 2 ^ 31 ->
  exists q', append_c alloc q c = Done q' /\ built q' (text ++ [c]) n vs.
Proof.
  intros (Hh & Hs & Hc & Hp) Hr Hb. unfold append_c. destruct (append_c_holds alloc alloc_ok _ _ c Hh Hr Hb) as (s' & E & Hh').
  rewrite E. cbn [mbind outcome_bind]. eexists. split; [done|]. split; [done|]. apply (append_c_grows _ text) in E; [|done..]. cbn. split; [lia|done].
Qed.

Lemma built_space q text n vs : built q text n vs -> blen text + 2 <= 2 ^ 31 ->
  exists q', append_space alloc q = Done q' /\ built q' (add_space text) n vs.
Proof.
  intros (Hh & Hs & Hc & Hp) Hb. unfold append_space. destruct (append_space_holds alloc alloc_ok _ _ Hh Hb) as (s' & E & Hh').
  rewrite E. cbn [mbind outcome_bind]. eexists. split; [done|]. split; [done|]. cbn. split; [|done].
  unfold pstring_append_space in E. destruct (len (query q) =? 0); [by injection E as <-|].
  destruct (rd _ _); cbn [mbind outcome_bind] in E; try done. destruct (isspace _); [by injection E as <-|].
  apply (append_c_grows _ text) in E; [lia|done..].
Qed.

(** A symbol is no longer than a new buffer: doubling it once is enough. *)
Lemma built_string q text n vs t : built q text n vs -> nul_free t -> blen t <= 512 -> blen text + blen t + 2 <= 2 ^ 31 ->
  exists q', append_string alloc q t = Done q' /\ built q' (text ++ t) n vs.
Proof.
  intros (Hh & Hs & Hc & Hp) Hn Ht Hb. unfold append_string, pstring_append_string. rewrite (cstring_at _ [] t []) by done. cbn [mbind outcome_bind].
  assert (exists s1, (if size (query q) <=? len (query q) + blen t then pstring_realloc alloc (query q) else Done (query q)) = Done s1 /\
    holds s1 text /\ size (query q) <= size s1 /\ blen text + blen t < size s1) as (s1 & -> & (tail & S1 & S2 & S3 & S4 & S5) & Hs1 & Hroom).
  { pose proof Hh as (tail & Hst & Hl & Hz & Hlt & Hr). pose proof (rounded_range _ Hr).
    destruct (Z.leb_spec (size (query q)) (len (query q) + blen t)); [|exists (query q); split; [done|]; split; [done|]; lia].
    assert (size (query q) < 2 ^ 31) as Hlt2 by (destruct (Z.eq_dec (size (query q)) (2 ^ 31)); lia).
    unfold pstring_realloc, FB_UINT_MAX. rewrite (proj2 (Z.eqb_neq (size (query q)) _)), u32_id by (width; lia).
    destruct (realloc_holds alloc alloc_ok _ text (size (query q) * 2) Hh) as (s1 & -> & Hh1 & Hsz); [lia|by apply rounded_double|].
    exists s1. split; [done|]. split; [done|]. lia. }
  cbn [mbind outcome_bind]. pose proof (rounded_range _ S5). pose proof (blen_nonneg t). pose proof (blen_nonneg text).
  assert (blen tail = size s1 - blen text) as Htail by (rewrite S3, S1, blen_app; lia).
  rewrite (wrn_at (str s1) text (take (length t) tail) (drop (length t) tail)); [|by rewrite take_drop|done|unfold blen in *; rewrite length_take; lia].
  cbn [mbind outcome_bind]. eexists. split; [done|]. split; [|cbn; split; [lia|done]].
  exists (drop (length t) tail). cbn. split; [app_eq|]. rewrite blen_app. split; [rewrite u32_id; [lia|width; lia]|].
  split; [|split; [rewrite u32_id; [lia|width; lia]|done]]. rewrite !blen_app. unfold blen in *. rewrite length_drop. lia.
Qed.

Lemma built_param q text n vs p : built q text n vs -> blen (text ++ bytes "$" ++ decimal (n + 1)) + 2 < 2 ^ 31 ->
  exists q', query_append_param alloc q p = Done q' /\ built q' (text ++ bytes "$" ++ decimal (n + 1)) (n + 1) (vs ++ [p]).
Proof.
  intros (Hh & Hs & Hc & Hp) Hb. unfold query_append_param. rewrite Hc, Hp. rewrite blen_app in Hb.
  destruct (append_printf_holds alloc alloc_ok _ _ (bytes "$" ++ decimal (n + 1)) Hh) as (s' & E & Hh'); [lia|].
  rewrite E. cbn [mbind outcome_bind]. eexists. split; [done|]. split; [done|]. apply (append_printf_grows _ text) in E; [|done|lia]. cbn. split; [lia|done].
Qed.

(** The parameters of a format are counted. *)
Lemma format_counts f : forall n args t m ps, format_text n f = Some (t, m) -> format_params f args = Some ps -> m = n + Z.of_nat (length ps).
Proof.
  induction f as [f IH] using (induction_ltof1 _ (@length Z)). intros n args t m ps Ht Hp.
  destruct f as [|c f]; cbn [format_text format_params] in *; [injection Ht as _ <-; injection Hp as <-; cbn; lia|].
  destruct (c =? 37).
  - destruct f as [|d f]; [done|]. destruct (is_conversion d).
    + destruct (format_text (n + 1) f) as [[t' m']|] eqn:E; cbn in Ht; [|done]. injection Ht as _ <-.
      destruct (take_arg d args) as [[p args']|]; cbn in Hp; [|done]. destruct (format_params f args') as [ps'|] eqn:Ep; cbn in Hp; [|done].
      injection Hp as <-. assert (m' = n + 1 + Z.of_nat (length ps')) as -> by (eapply (IH f); [unfold ltof; cbn; lia|done|done]). cbn. lia.
    + destruct (format_text n f) as [[t' m']|] eqn:E; cbn in Ht; [|done]. injection Ht as _ <-. eapply (IH f); [unfold ltof; cbn; lia|done|done].
  - destruct (format_text n f) as [[t' m']|] eqn:E; cbn in Ht; [|done]. injection Ht as _ <-. eapply (IH f); [unfold ltof; cbn; lia|done|done].
Qed.

Lemma parts_count ps : forall text n text' m vals, parts_text text n ps = Some (text', m) -> parts_params ps = Some vals -> m = n + Z.of_nat (length vals).
Proof.
  induction ps as [|p ps IH]; intros text n text' m vals Ht Hv; cbn [parts_text parts_params] in *; [injection Ht as _ <-; injection Hv as <-; cbn; lia|].
  unfold add_text in Ht. destruct (format_text n (cmd p)) as [[t1 n1]|] eqn:E; cbn in Ht; [|done].
  destruct (format_params (cmd p) (args p)) as [a|] eqn:Ea; cbn in Hv; [|done]. destruct (parts_params ps) as [b|]; cbn in Hv; [|done].
  injection Hv as <-. rewrite (IH _ _ _ _ _ Ht eq_refl), (format_counts _ _ _ _ _ _ E Ea), length_app. lia.
Qed.

(** What a format adds. *)
Lemma vappend_ok cmd : forall q text n vs args t m ps, built q text n vs -> Forall (fun c => 0 <= c < 256) cmd ->
  format_text n cmd = Some (t, m) -> format_params cmd args = Some ps -> blen (text ++ t) + 2 < 2 ^ 31 ->
  exists q', vappend_loop alloc q cmd args = Done q' /\ built q' (text ++ t) m (vs ++ ps).
Proof.
  induction cmd as [cmd IH] using (induction_ltof1 _ (@length Z)). intros q text n vs args t m ps Hq Hr Ht Hps Hb.
  destruct cmd as [|c cmd]; cbn [format_text format_params vappend_loop] in *.
  { injection Ht as <- <-. injection Hps as <-. exists q. by rewrite !app_nil_r. }
  apply Forall_cons_1 in Hr as [Hc Hr]. destruct (c =? 37).
  - destruct cmd as [|d cmd]; [done|]. apply Forall_cons_1 in Hr as [Hd Hr]. destruct (is_conversion d).
    + destruct (format_text (n + 1) cmd) as [[t' m']|] eqn:E; cbn in Ht; [|done]. injection Ht as <- <-.
      destruct (take_arg d args) as [[p args']|] eqn:Ea; cbn in Hps; [|done].
      destruct (format_params cmd args') as [ps'|] eqn:Ep; cbn in Hps; [|done]. injection Hps as <-.
      change (36 :: decimal (n + 1) ++ t') with ((bytes "$" ++ decimal (n + 1)) ++ t') in *.
      rewrite app_assoc in Hb |- *. assert (blen (text ++ bytes "$" ++ decimal (n + 1)) + 2 < 2 ^ 31) as Hb' by (rewrite (blen_app _ t') in Hb; pose proof (blen_nonneg t'); lia).
      destruct (built_param q text n vs p Hq Hb') as (q1 & -> & Hq1). cbn [mbind outcome_bind].
      destruct (IH cmd) with (q := q1) (text := text ++ bytes "$" ++ decimal (n + 1)) (n := n + 1) (vs := vs ++ [p]) (args := args') (t := t') (m := m') (ps := ps')
        as (q2 & -> & Hq2); try done; [unfold ltof; cbn; lia|]. exists q2. split; [done|]. rewrite <- !app_assoc in Hq2 |- *. rewrite <- (app_assoc vs) in Hq2. exact Hq2.
    + destruct (format_text n cmd) as [[t' m']|] eqn:E; cbn in Ht; [|done]. injection Ht as <- <-.
      rewrite cons_middle, app_assoc in Hb |- *. rewrite (blen_app _ t') in Hb. pose proof (blen_nonneg t').
      destruct (built_c q text n vs d Hq Hd) as (q1 & -> & Hq1); [rewrite blen_app in Hb; change (blen [d]) with 1 in Hb; lia|]. cbn [mbind outcome_bind].
      destruct (IH cmd) with (q := q1) (text := text ++ [d]) (n := n) (vs := vs) (args := args) (t := t') (m := m') (ps := ps)
        as (q2 & -> & Hq2); try done; [unfold ltof; cbn; lia|rewrite blen_app; lia|]. by exists q2.
  - destruct (format_text n cmd) as [[t' m']|] eqn:E; cbn in Ht; [|done]. injection Ht as <- <-.
    rewrite cons_middle, app_assoc in Hb |- *. rewrite (blen_app _ t') in Hb. pose proof (blen_nonneg t').
    destruct (built_c q text n vs c Hq Hc) as (q1 & -> & Hq1); [rewrite blen_app in Hb; change (blen [c]) with 1 in Hb; lia|]. cbn [mbind outcome_bind].
    destruct (IH cmd) with (q := q1) (text := text ++ [c]) (n := n) (vs := vs) (args := args) (t := t') (m := m') (ps := ps)
      as (q2 & -> & Hq2); try done; [unfold ltof; cbn; lia|rewrite blen_app; lia|]. by exists q2.
Qed.

Lemma add_space_le' text : blen text <= blen (add_space text).
Proof.
  unfold add_space. destruct (List.rev text); [done|]. destruct (isspace _); [done|]. rewrite blen_app. change (blen [32]) with 1. lia.
Qed.

(** Parts whose symbols fit and whose formats are text. *)
Definition part_ok (p : part) : Prop := nul_free (symbol p) /\ blen (symbol p) <= 512 /\ Forall (fun c => 0 <= c < 256) (cmd p).

Lemma part_runs q text n vs p text' m ps : built q text n vs -> part_ok p -> add_text text n p = Some (text', m) ->
  format_params (cmd p) (args p) = Some ps -> blen text' + 2 < 2 ^ 31 ->
  blen text <= blen text' /\ exists q', run_part q p = Done q' /\ built q' text' m (vs ++ ps).
Proof.
  intros Hq (Hs1 & Hs2 & Hc) Ht Hps Hb. unfold add_text in Ht. set (t0 := add_space text ++ symbol p) in *.
  set (t1 := if bool_decide (head (cmd p) = Some 32) then t0 else add_space t0) in *.
  destruct (format_text n (cmd p)) as [[t m']|] eqn:E; cbn in Ht; [|done]. injection Ht as <- <-.
  pose proof (blen_nonneg t). pose proof (blen_nonneg (symbol p)). pose proof (add_space_le' text) as L1. pose proof (add_space_le' t0) as L2.
  assert (blen t0 = blen (add_space text) + blen (symbol p)) as L0 by apply blen_app.
  assert (blen t0 <= blen t1) as L3 by (unfold t1; destruct (bool_decide _); lia). rewrite blen_app in Hb. split; [rewrite blen_app; lia|].
  unfold run_part, query_sappend, query_vappend_symbol, query_vappend.
  destruct (built_space q text n vs Hq) as (q1 & -> & Hq1); [lia|]. cbn [mbind outcome_bind].
  assert (exists q2, (match symbol p with [] => Done q1 | _ => append_string alloc q1 (symbol p) end) = Done q2 /\ built q2 t0 n vs) as (q2 & -> & Hq2).
  { assert (blen (add_space text) + blen (symbol p) + 2 <= 2 ^ 31) as Hroom by lia.
    subst t0. clearbody t1. clear -Hs1 Hs2 Hroom Hq1 alloc_ok. revert Hs1 Hs2 Hroom. generalize (symbol p) as sy. intros sy Hs1 Hs2 Hroom.
    destruct sy as [|x sy]; [exists q1; by rewrite app_nil_r|]. by apply built_string. }
  cbn [mbind outcome_bind].
  assert (exists q3, (if negb (bool_decide (head (cmd p) = Some 32)) then append_space alloc q2 else Done q2) = Done q3 /\ built q3 t1 n vs) as (q3 & -> & Hq3).
  { unfold t1 in *. destruct (bool_decide _); cbn [negb]; [by exists q2|]. apply built_space; [done|]. lia. }
  cbn [mbind outcome_bind]. eapply vappend_ok; try done. rewrite blen_app. lia.
Qed.

Lemma parts_run ps : forall q text n vs text' m vals, built q text n vs -> Forall part_ok ps -> parts_text text n ps = Some (text', m) ->
  parts_params ps = Some vals -> blen text' + 2 < 2 ^ 31 ->
  blen text <= blen text' /\ exists q', run_parts q ps = Done q' /\ built q' text' m (vs ++ vals).
Proof.
  induction ps as [|p ps IH]; intros q text n vs text' m vals Hq Hok Ht Hv Hb; cbn [parts_text parts_params run_parts] in *.
  { injection Ht as <- <-. injection Hv as <-. split; [done|]. exists q. by rewrite app_nil_r. }
  apply Forall_cons_1 in Hok as [Hp Hok]. destruct (add_text text n p) as [[t1 n1]|] eqn:E; cbn in Ht; [|done].
  destruct (format_params (cmd p) (args p)) as [a|] eqn:Ea; cbn in Hv; [|done]. destruct (parts_params ps) as [b|] eqn:Eb; cbn in Hv; [|done].
  injection Hv as <-. assert (blen t1 <= blen text') as Hle.
  { clear -Ht. revert t1 n1 Ht. induction ps as [|p ps IH]; intros t1 n1 Ht; cbn in Ht; [by injection Ht as <- _|].
    destruct (add_text t1 n1 p) as [[t2 n2]|] eqn:E; cbn in Ht; [|done]. apply IH in Ht. etransitivity; [|exact Ht].
    unfold add_text in E. destruct (format_text n1 (cmd p)) as [[t m0]|]; cbn in E; [|done]. injection E as <- _.
    rewrite blen_app. pose proof (blen_nonneg t). pose proof (add_space_le' t1). pose proof (add_space_le' (add_space t1 ++ symbol p)) as H1.
    destruct (bool_decide _); rewrite ?blen_app in *; pose proof (blen_nonneg (symbol p)); lia. }
  destruct (part_runs q text n vs p t1 n1 a Hq Hp E Ea) as [H1 (q1 & -> & Hq1)]; [lia|]. cbn [mbind outcome_bind].
  destruct (IH q1 t1 n1 (vs ++ a) text' m b Hq1 Hok Ht eq_refl Hb) as [H2 (q2 & -> & Hq2)]. split; [lia|]. exists q2. by rewrite app_assoc.
Qed.

Lemma text_erased ps : forall text n, parts_text text n (erased <$> ps) = parts_text text n ps.
Proof.
  induction ps as [|p ps IH]; intros text n; [done|]. rewrite fmap_cons. cbn [parts_text].
  change (add_text text n (erased p)) with (add_text text n p). destruct (add_text text n p) as [[t m]|]; cbn; [apply IH|done].
Qed.

(** C28. A query that is built of symbols, formats and values has the text of
    the formats with the numbers of the parameters in their places: the values
    are not part of it, so that no value changes what is asked. The values are
    the parameters, in order, and each number is that of one value. *)
Theorem query_built ps text n vals : Forall part_ok ps -> parts_text [] 0 (erased <$> ps) = Some (text, n) -> parts_params ps = Some vals ->
  blen text + 2 < 2 ^ 31 ->
  exists q, (q ← query_new alloc 0; run_parts q ps) = Done q /\
    (exists m rest, pstring (query q) = Done m /\ m = text ++ 0 :: rest) /\ params q = vals /\ count q = n /\ n = Z.of_nat (length vals).
Proof.
  intros Hok Ht Hv Hb. rewrite text_erased in Ht. destruct built_new as (q0 & -> & Hq0). cbn [mbind outcome_bind].
  destruct (parts_run ps q0 [] 0 [] text n vals Hq0 Hok Ht Hv Hb) as [_ (q & -> & (Hh & _ & Hc & Hp))]. exists q. split; [done|].
  split; [|split; [done|split; [done|]]].
  - destruct Hh as (tail & Hs & Hl & Hz & Hlt & _). destruct tail as [|x tail]; [rewrite app_nil_r in Hs; rewrite Hs in Hz; lia|].
    eexists _, tail. split; [unfold pstring; by rewrite (wr_at _ text x tail)|done].
  - by rewrite (parts_count ps [] 0 text n vals Ht Hv).
Qed.
End Spec.

Lemma query_built_witness :
  exists q, (q ← query_new zeros 0; run_parts zeros q
      [Part (bytes "SELECT") (bytes "title") []; Part (bytes "FROM") (bytes "post.recent") [];
       Part (bytes "WHERE") (bytes "id >= %l") [Int 7]; Part (bytes "AND") (bytes "title = %s") [Str (bytes "' OR TRUE")]]) = Done q /\
    (exists m rest, pstring (query q) = Done m /\
      m = bytes "SELECT title FROM post.recent WHERE id >= $1 AND title = $2" ++ 0 :: rest) /\
    params q = [QUERY_PARAM_BIGINT 7; QUERY_PARAM_STRING (bytes "' OR TRUE")] /\ count q = 2 /\ 2 = Z.of_nat 2.
Proof.
  apply (query_built zeros zeros_ok); [|by vm_compute|by vm_compute|by vm_compute].
  repeat (apply Forall_cons; [split; [|split]|]); try done; by repeat constructor.
Defined.

(** * Values *)

Lemma be_value_snoc l x : be_value (l ++ [x]) = be_value l * 256 + x.
Proof. unfold be_value. by rewrite fold_left_app. Qed.

Lemma be_roundtrip n : forall x, be_value (be_bytes n x) = x mod 256 ^ Z.of_nat n.
Proof.
  induction n as [|n IH]; intros x; [cbn; by rewrite Z.mod_1_r|]. cbn [be_bytes]. rewrite be_value_snoc, IH.
  rewrite Nat2Z.inj_succ, Z.pow_succ_r, Z.rem_mul_r by lia. lia.
Qed.

Lemma be_length n : forall x, blen (be_bytes n x) = Z.of_nat n.
Proof. induction n as [|n IH]; intros x; [done|]. cbn [be_bytes]. rewrite blen_app, IH. change (blen [_]) with 1. lia. Qed.

Lemma be_read n x : rdn (be_bytes n x) 0 (Z.of_nat n) = Done (be_bytes n x).
Proof. apply (rdn_at _ [] _ []); [by rewrite app_nil_r|done|by rewrite be_length]. Qed.

Lemma i64_u64 x : i64 (u64 x) = i64 x.
Proof. width. by rewrite Zplus_mod_idemp_l. Qed.
Lemma i32_u32 x : i32 (u32 x) = i32 x.
Proof. width. by rewrite Zplus_mod_idemp_l. Qed.

(** A value sent as a parameter and returned in a field is the same value,
    for every number of its width, truth value and time. *)
Theorem values_return d l b t : is_i32 d -> is_i64 l -> is_u32 t ->
  db_get_integer (convert_param (QUERY_PARAM_INT d)).1 = Done d /\
  db_get_bigint (convert_param (QUERY_PARAM_BIGINT l)).1 = Done l /\
  db_get_bool (convert_param (QUERY_PARAM_BOOL b)).1 = Done (negb (b =? 0)) /\
  db_get_time (convert_param (QUERY_PARAM_TIME t)).1 = Done t.
Proof.
  intros Hd Hl Ht. split; [|split; [|split]]; cbn [convert_param fst].
  - unfold db_get_integer. change 4 with (Z.of_nat 4) at 1. rewrite be_read. cbn [mbind outcome_bind]. rewrite be_roundtrip.
    change (256 ^ Z.of_nat 4) with (2 ^ 32). f_equal. change (u32 d mod 2 ^ 32) with (u32 (u32 d)). by rewrite (u32_id (u32 d)), i32_u32, i32_id by auto with width.
  - unfold db_get_bigint. change 8 with (Z.of_nat 8) at 1. rewrite be_read. cbn [mbind outcome_bind]. rewrite be_roundtrip.
    change (256 ^ Z.of_nat 8) with (2 ^ 64). f_equal. change (u64 l mod 2 ^ 64) with (u64 (u64 l)). by rewrite (u64_id (u64 l)), i64_u64, i64_id by auto with width.
  - unfold db_get_bool. destruct (b =? 0); done.
  - unfold db_get_time. change 8 with (Z.of_nat 8) at 1. rewrite be_read. cbn [mbind outcome_bind]. rewrite be_roundtrip.
    change (256 ^ Z.of_nat 8) with (2 ^ 64). f_equal. set (ts := time_to_ts t). change (u64 ts mod 2 ^ 64) with (u64 (u64 ts)).
    rewrite (u64_id (u64 ts)), i64_u64 by auto with width. subst ts. unfold time_to_ts, ts_to_time.
    pose proof (u32_range (t - POSTGRES_EPOCH_TIME)) as Hr. rewrite (i64_id (i64 _)) by (unfold i64, is_i64; pose proof (Z.mod_pos_bound (u32 (t - POSTGRES_EPOCH_TIME) * 1000000 + 2 ^ 63) (2 ^ 64)); lia).
    rewrite i64_id by (unfold is_i64, is_u32 in *; lia). rewrite Z.quot_mul by lia. unfold u32. rewrite Zplus_mod_idemp_l.
    replace (t - POSTGRES_EPOCH_TIME + POSTGRES_EPOCH_TIME) with t by lia. by apply u32_id.
Qed.

Lemma values_return_witness :
  db_get_integer (convert_param (QUERY_PARAM_INT (-5))).1 = Done (-5) /\
  db_get_bigint (convert_param (QUERY_PARAM_BIGINT (2 ^ 40))).1 = Done (2 ^ 40) /\
  db_get_bool (convert_param (QUERY_PARAM_BOOL 3)).1 = Done (negb (3 =? 0)) /\
  db_get_time (convert_param (QUERY_PARAM_TIME 1349000000)).1 = Done 1349000000.
Proof. apply values_return; by vm_compute. Defined.
