(* ===== verification/Vector.v ===== *)
(** Growing arrays of fixed-length elements: [lib/vector.c].

    [realloc old n] is the memory [realloc] returns, if any. Element addresses
    are offsets into [data]; the null checks of the vector itself are left out. *)
From S2P Require Import Prelude.

Definition VECTOR_DEFAULT_CAPACITY : Z := 8.

(** [vector_t]: [len] bytes per element, [size] elements, room for [capacity]. *)
Record vector_t := Vector { len : Z; size : Z; capacity : Z; data : option (list Z) }.

Fixpoint grow_loop (fuel : nat) (val capacity : Z) : outcome Z :=
  match fuel with
  | O => NoFuel
  | S fuel => if val <? capacity then grow_loop fuel (u32 (val * 2)) capacity else Done val
  end.

(** 29 doublings reach 2^31; a larger capacity is never reached. *)
Definition grow_capacity (capacity : Z) : outcome Z :=
  grow_loop 30 VECTOR_DEFAULT_CAPACITY capacity.

Section Vector.
Context (realloc : option (list Z) -> Z -> option (list Z)).

Definition vector_reserve (v : vector_t) (cap : Z) : outcome (bool * vector_t) :=
  if capacity v <? cap then
    cap ← grow_capacity cap;
    let d := realloc (data v) (u32 (len v * cap)) in
    Done (match d with Some _ => true | None => false end, Vector (len v) (size v) cap d)
  else Done (true, v).

Definition vector_init (len capacity : Z) : outcome (bool * vector_t) :=
  vector_reserve (Vector len 0 0 None) capacity.

Definition vector_size (v : vector_t) : Z := size v.

Definition vector_at (v : vector_t) (position : Z) : option Z :=
  match data v with
  | Some _ => if position <? size v then Some (u32 (len v * position)) else None
  | None => None
  end.

Definition _vector_grow (v : vector_t) (n : Z) : outcome (bool * vector_t) :=
  let n := u32 (size v + n) in
  vector_reserve (Vector (len v) n (capacity v) (data v)) n.

Definition vector_grow (v : vector_t) (n : Z) : outcome (option Z * vector_t) :=
  '(ok, v) ← _vector_grow v n;
  Done (if ok && (n <=? size v) then Some (u32 (len v * u32 (size v - n))) else None, v).

Definition vector_erase_range (v : vector_t) (first last : Z) : outcome (bool * vector_t) :=
  if (first <? last) && (first <? size v) then
    if last <=? size v then
      match data v with
      | None => Fault
      | Some d =>
          d ← memmove d (u32 (first * len v)) (u32 (last * len v))
                (u32 (len v * u32 (size v - last + 1)));
          Done (true, Vector (len v) (u32 (size v - (last - first))) (capacity v) (Some d))
      end
    else Done (true, Vector (len v) first (capacity v) (data v))
  else Done (false, v).

Definition vector_erase (v : vector_t) (position : Z) : outcome (bool * vector_t) :=
  vector_erase_range v position (u32 (position + 1)).

(** The pointer is freed but kept. *)
Definition vector_free (v : vector_t) : vector_t := Vector (len v) 0 0 (data v).

(** [v] holds the elements [l], one after the other. *)
Definition elements (v : vector_t) (l : list (list Z)) : Prop :=
  Forall (fun e => blen e = len v) l /\ size v = Z.of_nat (length l) /\ 0 < len v /\
  size v <= capacity v /\ len v * capacity v < 2 ^ 32 /\
  exists tail, data v = Some (concat l ++ tail) /\
    blen (concat l ++ tail) = len v * capacity v.

Lemma concat_blen n l : Forall (fun e => blen e = n) l -> blen (concat l) = Z.of_nat (length l) * n.
Proof.
  induction 1 as [|e l He _ IH]; [done|]. cbn [concat length]. rewrite blen_app, IH, He. lia.
Qed.

(** Erasing a range moves the later elements down over it, provided there
    is unused capacity; in a full vector it reads one element past the end of
    the data, for it moves one element too many. *)
Theorem vector_erase_range_moves v a b c :
  elements v (a ++ b ++ c) -> b <> [] ->
  let first := Z.of_nat (length a) in
  let last := first + Z.of_nat (length b) in
  if size v <? capacity v then
    exists v', vector_erase_range v first last = Done (true, v') /\ elements v' (a ++ c) /\
      capacity v' = capacity v
  else vector_erase_range v first last = Fault.
Proof.
  intros (He & Hs & Hl & Hc & Hmax & tail & Hd & Ht) Hb first last.
  apply Forall_app in He as [Ha He]. apply Forall_app in He as [Hbe Hce].
  rewrite !length_app in Hs. rewrite !concat_app in Hd, Ht.
  pose proof (concat_blen _ a Ha) as La. pose proof (concat_blen _ b Hbe) as Lb.
  pose proof (concat_blen _ c Hce) as Lc.
  assert (0 < Z.of_nat (length b)) as Hbl by (destruct b; [done|cbn; lia]).
  rewrite !blen_app, La, Lb, Lc in Ht. fold first in La, Ht.
  assert (blen tail = len v * (capacity v - size v)) as Htl by (subst first; nia).
  assert (first * len v <= last * len v <= size v * len v) as Hr by (subst first last; nia).
  assert (size v * len v <= len v * capacity v) as Hr2 by nia.
  assert (0 <= first * len v) by (subst first; nia).
  unfold vector_erase_range. rewrite (proj2 (Z.ltb_lt first last)), (proj2 (Z.ltb_lt first (size v))),
    (proj2 (Z.leb_le last (size v))), Hd by (subst first last; lia). cbn [andb].
  assert (capacity v < 2 ^ 32) as Hcm by nia.
  rewrite (u32_id (first * len v)), (u32_id (last * len v)), (u32_id (size v - last + 1))
    by (width; subst first last; nia).
  rewrite (u32_id (len v * _)) by (width; subst first last; nia).
  destruct (Z.ltb_spec (size v) (capacity v)) as [Hlt|Hge].
  - set (t1 := take (Z.to_nat (len v)) tail). set (t2 := drop (Z.to_nat (len v)) tail).
    assert (tail = t1 ++ t2) as Ht12 by (subst t1 t2; by rewrite take_drop).
    assert (blen t1 = len v) as Lt1 by (subst t1; unfold blen in *; rewrite length_take; nia).
    set (bs := concat c ++ t1). set (rest := concat b ++ concat c ++ tail).
    assert (blen bs = len v * (size v - last + 1)) as Lbs
      by (subst bs first last; rewrite blen_app, Lc, Lt1; nia).
    assert (blen bs <= blen rest) as Lrest.
    { subst bs rest. rewrite Ht12, !blen_app. pose proof (blen_nonneg (concat b)).
      pose proof (blen_nonneg t2). lia. }
    rewrite (memmove_at _ (concat a ++ concat b) bs t2 (concat a)
      (take (length bs) rest) (drop (length bs) rest)); cycle 1.
    { subst bs. rewrite Ht12. app_eq. }
    { rewrite take_drop. subst rest. app_eq. }
    { rewrite blen_app, La, Lb. subst first last. lia. }
    { by rewrite Lbs. }
    { by rewrite La. }
    { unfold blen in *. rewrite length_take. lia. }
    cbn [mbind outcome_bind]. eexists. split; [done|]. cbn [capacity].
    replace (u32 (size v - (last - first))) with (Z.of_nat (length (a ++ c)))
      by (rewrite u32_id by (width; subst first last; lia); rewrite length_app; subst first last; lia).
    split; [|done]. split_and!; cbn [len size capacity data]; try done; try lia.
    + by apply Forall_app.
    + rewrite length_app. lia.
    + exists (t1 ++ drop (length bs) rest). rewrite concat_app. split; [subst bs; app_eq|].
      assert (blen bs + blen (drop (length bs) rest) = blen rest) as Hdrop.
      { rewrite <- (take_drop (length bs) rest) at 2. rewrite blen_app.
        unfold blen in *. rewrite length_take, length_drop in *. lia. }
      subst bs rest. rewrite !blen_app in *. lia.
  - unfold memmove, rdn.
    rewrite (proj2 (Z.leb_gt (last * len v + _) _)); [by rewrite andb_false_r|].
    rewrite !blen_app, La, Lb, Lc. subst first last. nia.
Qed.
End Vector.

Lemma vector_erase_range_moves_witness :
  exists v', vector_erase_range (Vector 2 3 4 (Some [1; 1; 2; 2; 3; 3; 9; 9])) 1 2 = Done (true, v') /\
    elements v' [[1; 1]; [3; 3]] /\ capacity v' = 4.
Proof.
  apply (vector_erase_range_moves (Vector 2 3 4 (Some [1; 1; 2; 2; 3; 3; 9; 9]))
    [[1; 1]] [[2; 2]] [[3; 3]]); [|done].
  split_and!; try done; [by repeat constructor|]. by exists [9; 9].
Defined.
