(* ===== verification/Brc.v ===== *)
(** Read marks of boards: [lib/boardrc.c].

    The two static variables are the state of every operation. The user's file
    is an argument: its contents, when it can be opened; saving returns what is
    written to it. *)
From S2P Require Import Prelude CString.
From stdpp Require Import sets sorting.
#[local] Open Scope Z_scope.

Definition BRC_BUFSIZE : Z := 50000.
Definition BRC_MAXNUM : Z := 60.
Definition BRC_STRLEN : Z := 20.
Definition sizeof_item : Z := 4.
Definition BRC_ITEMSIZE : Z := BRC_STRLEN + 1 + BRC_MAXNUM * sizeof_item.

(** [brc_buf_t]: all read marks, as stored. *)
Record brc_buf_t := Buf { b_size : Z; b_dirty : bool; initialized : bool; ptr : list Z }.

(** [brc_t]: the marks of the current board, latest first. *)
Record brc_t := Brc { size : Z; dirty : bool; name : list Z; items : list Z }.

(** [brc_buf] and [brc]. *)
Record state := St { brc_buf : brc_buf_t; brc : brc_t }.

Definition set_brc (b : brc_t) (s : state) : state := St (brc_buf s) b.
Definition set_buf (b : brc_buf_t) (s : state) : state := St b (brc s).

(** * Items in memory *)

(** The bytes of a 32-bit item, least significant first. *)
Definition item_bytes (x : Z) : list Z :=
  [x mod 2 ^ 8; (x / 2 ^ 8) mod 2 ^ 8; (x / 2 ^ 16) mod 2 ^ 8; x / 2 ^ 24].

Definition items_bytes (l : list Z) : list Z := concat (map item_bytes l).

Fixpoint items_of (bs : list Z) : list Z :=
  match bs with
  | a :: b :: c :: d :: bs => a + b * 2 ^ 8 + c * 2 ^ 16 + d * 2 ^ 24 :: items_of bs
  | _ => []
  end.

(** [strncmp] of two strings finds no difference. *)
Fixpoint strneq (n : nat) (m1 : list Z) (p1 : Z) (m2 : list Z) (p2 : Z) : outcome bool :=
  match n with
  | O => Done true
  | S n =>
      a ← rd m1 p1;
      b ← rd m2 p2;
      if negb (a =? b) then Done false
      else if a =? 0 then Done true
      else strneq n m1 (p1 + 1) m2 (p2 + 1)
  end.

(** * Records *)

(** The next pointer and the record, read over an old one. *)
Definition brc_get_record (m : list Z) (p : Z) (brcp : brc_t) : outcome (Z * brc_t) :=
  '(_, name) ← strlcpy (name brcp) 0 m p BRC_STRLEN;
  let p := p + BRC_STRLEN in
  c ← rd m p;
  let p := p + 1 in
  let size := u32 (schar c) in
  let size := if BRC_MAXNUM <? size then BRC_MAXNUM else size in
  bs ← rdn m p (size * sizeof_item);
  Done (p + size * sizeof_item,
        Brc size (dirty brcp) name (items_of bs ++ drop (Z.to_nat size) (items brcp))).

Definition brc_put_record (m : list Z) (p : Z) (brcp : brc_t) : outcome (Z * list Z) :=
  if negb (size brcp =? 0) then
    let size := if BRC_MAXNUM <? size brcp then BRC_MAXNUM else size brcp in
    '(_, m) ← strlcpy m p (name brcp) 0 BRC_STRLEN;
    let p := p + BRC_STRLEN in
    m ← wr m p size;
    let p := p + 1 in
    bs ← rdn (items_bytes (items brcp)) 0 (size * sizeof_item);
    m ← wrn m p bs;
    Done (p + size * sizeof_item, m)
  else Done (p, m).

(** * Files *)

(** [file] is the contents of the user's file; a read that fails returns -1. *)
Definition brc_load (file : option (list Z)) (read_ok : bool) (buf : brc_buf_t) : brc_buf_t :=
  match file with
  | Some f =>
      let bs := take (Z.to_nat BRC_BUFSIZE) f in
      if read_ok then Buf (blen bs) false true (bs ++ drop (length bs) (ptr buf))
      else Buf (u32 (-1)) false true (ptr buf)
  | None => Buf 0 false true (ptr buf)
  end.

(** What the file holds afterwards, if it can be opened. *)
Definition brc_save (open_ok : bool) (file : option (list Z)) (buf : brc_buf_t)
    : outcome (option (list Z)) :=
  if open_ok then bs ← rdn (ptr buf) 0 (b_size buf); Done (Some bs)
  else Done file.

(** The characters a record may start with. *)
Definition starts_record (c : Z) : bool := (32 <=? schar c) && (schar c <=? 126).

(** Copy the records of [buf] from [tmp] on whose name is not the current one. *)
Fixpoint merge_loop (fuel : nat) (buf : list Z) (tmp e : Z) (tmp_brc : brc_t)
    (name_ : list Z) (m : list Z) (p : Z) : outcome (Z * list Z) :=
  match fuel with
  | O => NoFuel
  | S fuel =>
      more ← (if tmp <? e then c ← rd buf tmp; Done (starts_record c) else Done false);
      if (more : bool) then
        '(tmp, tmp_brc) ← brc_get_record buf tmp tmp_brc;
        same ← strneq (Z.to_nat BRC_STRLEN) (name tmp_brc) 0 name_ 0;
        if (same : bool) then merge_loop fuel buf tmp e tmp_brc name_ m p
        else '(p, m) ← brc_put_record m p tmp_brc;
             merge_loop fuel buf tmp e tmp_brc name_ m p
      else Done (p, m)
  end.

(** A record not yet read, with arbitrary contents. *)
Definition blank_brc : brc_t :=
  Brc 0 false (replicate (Z.to_nat BRC_STRLEN) 0) (replicate (Z.to_nat BRC_MAXNUM) 0).

(** A record takes at least 21 bytes, so the buffer bounds the iterations. *)
Definition brc_merge (s : state) (buf : brc_buf_t) : outcome state :=
  '(p, m) ← (if negb (size (brc s) =? 0) then brc_put_record (ptr (brc_buf s)) 0 (brc s)
             else Done (0, ptr (brc_buf s)));
  let bsize := if BRC_BUFSIZE - BRC_ITEMSIZE <? b_size buf
               then BRC_BUFSIZE - BRC_ITEMSIZE * 2 + 1 else b_size buf in
  '(p, m) ← merge_loop (length (ptr buf) + 1) (ptr buf) 0 bsize blank_brc (name (brc s)) m p;
  Done (St (Buf p true (initialized (brc_buf s)) m)
           (Brc (size (brc s)) false (name (brc s)) (items (brc s)))).

(** * Operations *)

Definition brc_sync (file : option (list Z)) (read_ok open_ok : bool) (s : state)
    : outcome (state * option (list Z)) :=
  if negb (dirty (brc s)) && negb (b_dirty (brc_buf s)) then Done (s, file)
  else
    let buf := brc_load file read_ok (Buf 0 false false (replicate (Z.to_nat BRC_BUFSIZE) 0)) in
    s ← brc_merge s buf;
    file ← brc_save open_ok file (brc_buf s);
    Done (s, file).

(** The search for the board among the stored records. *)
Fixpoint find_loop (fuel : nat) (m : list Z) (p e : Z) (b : brc_t) (board_name : list Z)
    : outcome (bool * brc_t) :=
  match fuel with
  | O => NoFuel
  | S fuel =>
      more ← (if p <? e then c ← rd m p; Done (starts_record c) else Done false);
      if (more : bool) then
        '(p, b) ← brc_get_record m p b;
        same ← strneq (Z.to_nat BRC_STRLEN) (name b) 0 board_name 0;
        if (same : bool) then Done (true, b) else find_loop fuel m p e b board_name
      else Done (false, b)
  end.

(** The rest of [brc_init] once the current marks are saved and the buffer is
    loaded: look the board up, or start its marks. *)
Definition brc_switch (s : state) (board_name : list Z) : outcome (Z * state) :=
  '(found, b) ← find_loop (length (ptr (brc_buf s)) + 1) (ptr (brc_buf s)) 0
                  (b_size (brc_buf s)) (brc s) board_name;
  if (found : bool) then Done (size b, set_brc b s)
  else
    '(_, nm) ← strlcpy (name b) 0 board_name 0 BRC_STRLEN;
    Done (0, set_brc (Brc 1 true nm (<[0%nat := 1]> (items b))) s).

(** [board_name] is the memory holding the name. *)
Definition brc_init (file : option (list Z)) (read_ok : bool) (s : state)
    (user_name board_name : option (list Z)) : outcome (Z * state) :=
  match user_name, board_name with
  | Some _, Some board_name =>
      same ← strneq (Z.to_nat BRC_STRLEN) (name (brc s)) 0 board_name 0;
      if (same : bool) then Done (size (brc s), s)
      else
        s ← (if dirty (brc s) then brc_merge s (brc_buf s) else Done s);
        let s := if initialized (brc_buf s) then s
                 else set_buf (brc_load file read_ok (brc_buf s)) s in
        brc_switch s board_name
  | _, _ => Done (0, s)
  end.

Definition brc_reset : state :=
  St (Buf 0 false false (replicate (Z.to_nat BRC_BUFSIZE) 0))
     (Brc 0 false (replicate (Z.to_nat BRC_STRLEN) 0) (replicate (Z.to_nat BRC_MAXNUM) 0)).

(** [memmove] of [n] items from index [i] to the next one. *)
Definition shift_items (l : list Z) (i n : Z) : outcome (list Z) :=
  if (0 <=? i) && (0 <=? n) && (i + 1 + n <=? Z.of_nat (length l)) then
    Done (take (Z.to_nat (i + 1)) l ++ take (Z.to_nat n) (drop (Z.to_nat i) l) ++
          drop (Z.to_nat (i + 1 + n)) l)
  else Fault.

Definition put_item (l : list Z) (i x : Z) : outcome (list Z) :=
  if (0 <=? i) && (i <? Z.of_nat (length l)) then Done (<[Z.to_nat i := x]> l) else Fault.

Fixpoint mark_loop (fuel : nat) (b : brc_t) (item i : Z) : outcome (bool * brc_t) :=
  match fuel with
  | O => NoFuel
  | S fuel =>
      if i <? size b then
        match items b !! Z.to_nat i with
        | None => Fault
        | Some x =>
            if item =? x then Done (false, b)
            else if x <? item then
              let sz := if size b <? BRC_MAXNUM then size b + 1 else size b in
              l ← shift_items (items b) i (sz - i - 1);
              l ← put_item l i item;
              Done (true, Brc sz true (name b) l)
            else mark_loop fuel b item (i + 1)
        end
      else if size b <? BRC_MAXNUM then
        l ← put_item (items b) (size b) item;
        Done (false, Brc (size b + 1) true (name b) l)
      else Done (false, b)
  end.

Definition brc_mark_as_read (b : brc_t) (item : Z) : outcome (bool * brc_t) :=
  if size b =? 0 then
    l ← put_item (items b) 0 item;
    Done (true, Brc 1 true (name b) l)
  else mark_loop (Z.to_nat (size b) + 1) b item 0.

Fixpoint unread_loop (fuel : nat) (b : brc_t) (item i : Z) : outcome bool :=
  match fuel with
  | O => NoFuel
  | S fuel =>
      if i <? size b then
        match items b !! Z.to_nat i with
        | None => Fault
        | Some x =>
            if x <? item then Done true
            else if item =? x then Done false
            else unread_loop fuel b item (i + 1)
        end
      else Done false
  end.

Definition brc_unread (b : brc_t) (item : Z) : outcome bool :=
  if size b =? 0 then Done true else unread_loop (Z.to_nat (size b) + 1) b item 0.

Definition brc_last_read (b : brc_t) : outcome Z :=
  if negb (size b =? 0) then
    match items b !! 0%nat with Some x => Done x | None => Fault end
  else Done 0.

(** The counter is an [int], compared with the unsigned [item]. *)
Fixpoint clear_loop (fuel : nat) (b : brc_t) (i item : Z) : outcome brc_t :=
  match fuel with
  | O => NoFuel
  | S fuel =>
      if u32 i <=? item then
        '(_, b) ← brc_mark_as_read b (u32 i);
        clear_loop fuel b (i32 (i + 1)) item
      else Done b
  end.

(** At most [BRC_MAXNUM] items are marked, for an item below 2^31. *)
Definition brc_clear (b : brc_t) (item : Z) : outcome brc_t :=
  clear_loop (Z.to_nat BRC_MAXNUM + 1) b (i32 (u32 (item - BRC_MAXNUM + 1))) item.

(** [now] is what [fb_time] returns. *)
Definition brc_clear_all (b : brc_t) (now : Z) : outcome brc_t := brc_clear b (u32 now).

Definition brc_zapbuf (b : brc_t) (zbuf : Z) : outcome Z :=
  if (0 <? zbuf) && negb (size b =? 0) then
    match items b !! 0%nat with Some x => Done (i32 x) | None => Fault end
  else Done zbuf.

(** [last_post] is [get_last_post_time(board_id)]. *)
Definition brc_board_unread (file : option (list Z)) (read_ok : bool) (s : state)
    (user_name board_name : option (list Z)) (last_post : Z) : outcome (bool * state) :=
  '(n, s) ← brc_init file read_ok s user_name board_name;
  if n =? 0 then Done (true, s)
  else u ← brc_unread (brc s) last_post; Done (u, s).

(** * Marks as a list *)

(** [b] holds the marks [l]; [rest] is the unused part of the array. *)
Definition marks (b : brc_t) (l : list Z) : Prop :=
  exists rest, items b = l ++ rest /\ size b = Z.of_nat (length l) /\
    Z.of_nat (length (items b)) = BRC_MAXNUM /\ StronglySorted (fun a b => b < a) l.

(** Insertion in order, and what is unread. *)
Fixpoint insert_mark (x : Z) (l : list Z) : list Z :=
  match l with
  | [] => [x]
  | y :: l => if y <? x then x :: y :: l else if x =? y then y :: l else y :: insert_mark x l
  end.

Definition unread (l : list Z) (x : Z) : bool :=
  match l with [] => true | _ => negb (existsb (Z.eqb x) l) && existsb (fun y => y <? x) l end.

(** The marks after another one: the 60 latest. *)
Definition mark (x : Z) (l : list Z) : list Z := take 60 (insert_mark x l).

Lemma insert_mark_app x l1 l2 : Forall (fun y => x < y) l1 ->
  insert_mark x (l1 ++ l2) = l1 ++ insert_mark x l2.
Proof. induction 1 as [|y l1 Hy _ IH]; cbn; [done|]. do 2 zcase. by rewrite IH. Qed.

Lemma elem_of_insert x y l : y ∈ insert_mark x l <-> y = x \/ y ∈ l.
Proof.
  induction l as [|z l IH]; cbn; [set_solver|].
  repeat zcase; rewrite ?elem_of_cons, ?IH; intuition (subst; auto; lia).
Qed.

Lemma insert_sorted x l : StronglySorted (fun a b => b < a) l ->
  StronglySorted (fun a b => b < a) (insert_mark x l).
Proof.
  induction 1 as [|y l Hl IH Hy]; cbn; [by repeat constructor|].
  destruct (Z.ltb_spec y x); [|destruct (Z.eqb_spec x y)].
  - constructor; [by constructor|]. constructor; [done|].
    apply (Forall_impl _ _ _ Hy). intros z. lia.
  - by constructor.
  - constructor; [done|]. rewrite list.Forall_forall in *. intros z Hz.
    apply elem_of_insert in Hz as [->|Hz]; [lia|by apply Hy].
Qed.

Lemma take_sorted {A} (R : A -> A -> Prop) n l : StronglySorted R l -> StronglySorted R (take n l).
Proof.
  intros H. revert n. induction H as [|x l Hl IH Hx]; intros [|n]; cbn; try constructor; [apply IH|].
  by apply Forall_take.
Qed.

Lemma mark_sorted x l : StronglySorted (fun a b => b < a) l ->
  StronglySorted (fun a b => b < a) (mark x l).
Proof. intros H. by apply take_sorted, insert_sorted. Qed.

Lemma existsb_false {A} (f : A -> bool) l : Forall (fun x => f x = false) l -> existsb f l = false.
Proof. induction 1 as [|x l Hx _ IH]; cbn; [done|]. by rewrite Hx. Qed.

Lemma put_item_app l1 y l2 x : put_item (l1 ++ y :: l2) (Z.of_nat (length l1)) x = Done (l1 ++ x :: l2).
Proof.
  unfold put_item. rewrite length_app. cbn. zcase. rewrite Nat2Z.id.
  by rewrite insert_app_r_alt, Nat.sub_diag by done.
Qed.

Lemma shift_items_app l1 y a r r1 rest n : n = Z.of_nat (length a) -> y :: r = a ++ r1 :: rest ->
  shift_items (l1 ++ y :: r) (Z.of_nat (length l1)) n = Done (l1 ++ y :: a ++ rest).
Proof.
  intros -> Hr. unfold shift_items. pose proof (f_equal length Hr) as Hl.
  rewrite length_app in Hl. cbn in Hl. rewrite length_app. cbn. zcase.
  replace (Z.to_nat (Z.of_nat (length l1) + 1)) with (length l1 + 1)%nat by lia.
  replace (Z.to_nat (Z.of_nat (length l1) + 1 + Z.of_nat (length a)))
    with (length l1 + (length a + 1))%nat by lia.
  rewrite !Nat2Z.id, take_app_add, drop_app_length, drop_app_add. cbn [take]. rewrite take_0.
  by rewrite Hr, take_app_length, drop_app_add, <- app_assoc.
Qed.

Lemma mark_loop_spec l2 : forall fuel b item l1,
  marks b (l1 ++ l2) -> l1 ++ l2 <> [] -> Forall (fun y => item < y) l1 -> (length l2 < fuel)%nat ->
  exists b', mark_loop fuel b item (Z.of_nat (length l1)) = Done (unread (l1 ++ l2) item, b') /\
    marks b' (mark item (l1 ++ l2)) /\ name b' = name b.
Proof.
  induction l2 as [|y l2 IH]; intros fuel b item l1 Hm Hne H1 Hf;
    (destruct fuel as [|fuel]; [cbn in Hf; lia|]);
    pose proof Hm as (rest & Hi & Hs & Hn & Hsort); cbn [mark_loop].
  - rewrite app_nil_r in *. rewrite Hs, Z.ltb_irrefl.
    assert (unread l1 item = false) as ->.
    { destruct l1; [done|]. unfold unread. rewrite (existsb_false (fun y => y <? item)); [apply andb_false_r|].
      apply (Forall_impl _ _ _ H1). intros w. lia. }
    assert (insert_mark item l1 = l1 ++ [item]) as Hins.
    { rewrite <- (app_nil_r l1) at 1. by rewrite insert_mark_app. }
    unfold mark. rewrite Hins. pose proof (insert_sorted item l1 Hsort) as Hs'. rewrite Hins in Hs'.
    rewrite Hi, length_app in Hn. unfold BRC_MAXNUM in *.
    destruct (Z.ltb_spec (Z.of_nat (length l1)) 60).
    + destruct rest as [|r rest]; [cbn in Hn; lia|]. rewrite Hi, put_item_app.
      cbn [mbind outcome_bind]. eexists. split; [done|]. split; [|done].
      rewrite take_ge by (rewrite length_app; cbn; lia).
      exists rest. cbn [items size]. rewrite <- app_assoc, !length_app. cbn in *. split_and!; (done || lia).
    + eexists. split; [done|]. split; [|done]. rewrite take_app_le, take_ge by lia. done.
  - rewrite (proj2 (Z.ltb_lt _ (size b))) by (rewrite Hs, length_app; cbn; lia).
    rewrite Hi, Nat2Z.id, <- app_assoc. cbn [app]. rewrite list_lookup_middle by done.
    destruct (Z.eqb_spec item y) as [->|Hiy].
    { assert (unread (l1 ++ y :: l2) y = false) as ->.
      { unfold unread. rewrite existsb_app. cbn. rewrite Z.eqb_refl, orb_true_r. by destruct (l1 ++ y :: l2). }
      eexists. split; [done|]. split; [|done]. unfold mark. rewrite insert_mark_app by done. cbn.
      rewrite Z.ltb_irrefl, Z.eqb_refl, take_ge; [done|].
      rewrite Hi, length_app in Hn. unfold BRC_MAXNUM in Hn. lia. }
    destruct (Z.ltb_spec y item) as [Hlt|Hge]; cycle 1.
    { destruct (IH fuel b item (l1 ++ [y])) as (b' & Hr & Hm' & Hnm); rewrite <- ?app_assoc; try done.
      - apply Forall_app. split; [done|]. constructor; [lia|done].
      - cbn in Hf. lia.
      - exists b'. rewrite length_app, Nat2Z.inj_add in Hr. change (Z.of_nat (length [y])) with 1 in Hr.
        rewrite <- app_assoc in Hr, Hm'. cbn [app] in *. rewrite Hr. done. }
    assert (unread (l1 ++ y :: l2) item = true) as ->.
    { unfold unread. rewrite !existsb_app. cbn [existsb].
      rewrite (proj2 (Z.eqb_neq item y)), (proj2 (Z.ltb_lt y item)), orb_true_r by done.
      rewrite (existsb_false _ l1) by (apply (Forall_impl _ _ _ H1); intros w ?; lia).
      rewrite existsb_false; [by destruct (l1 ++ y :: l2)|].
      apply StronglySorted_app in Hsort as (_ & _ & Hsort). apply StronglySorted_inv in Hsort as [_ Hy].
      apply (Forall_impl _ _ _ Hy). intros w ?. lia. }
    assert (insert_mark item (l1 ++ y :: l2) = l1 ++ item :: y :: l2) as Hins.
    { rewrite insert_mark_app by done. cbn. rewrite (proj2 (Z.ltb_lt y item)) by done. done. }
    pose proof (insert_sorted item _ Hsort) as Hs'. rewrite Hins in Hs'.
    unfold mark. rewrite Hins. rewrite Hi, !length_app in Hn. rewrite length_app in Hs.
    cbn [length] in Hn, Hs. unfold BRC_MAXNUM in *.
    destruct (Z.ltb_spec (size b) 60) as [H60|H60].
    + destruct rest as [|r rest]; [cbn in Hn; lia|].
      rewrite (shift_items_app l1 y (y :: l2) (l2 ++ r :: rest) r rest); [|cbn; lia|done].
      cbn [mbind outcome_bind]. rewrite put_item_app. cbn [mbind outcome_bind].
      eexists. split; [done|]. split; [|done]. rewrite take_ge by (rewrite length_app; cbn; lia).
      exists rest. cbn [items size].
      rewrite <- app_assoc, !length_app. cbn [length app]. rewrite !length_app. cbn [length] in *.
      unfold BRC_MAXNUM. split_and!; (done || lia).
    + assert (rest = []) as -> by (destruct rest; [done|cbn in Hn; lia]). rewrite app_nil_r.
      destruct (snoc_case (y :: l2)) as [|(a & w & Ha)]; [done|].
      pose proof (f_equal length Ha) as Hla. rewrite length_app in Hla. cbn in Hla.
      rewrite (shift_items_app l1 y a l2 w []); [|lia|done].
      cbn [mbind outcome_bind]. rewrite put_item_app, app_nil_r. cbn [mbind outcome_bind].
      eexists. split; [done|]. split; [|done].
      assert (take 60 (l1 ++ item :: y :: l2) = l1 ++ item :: a) as Ht.
      { rewrite Ha. replace (l1 ++ item :: a ++ [w]) with ((l1 ++ item :: a) ++ [w]) by app_eq.
        rewrite take_app_le, take_ge; [done|rewrite length_app; cbn in *; lia..]. }
      pose proof (take_sorted _ 60 _ Hs') as Hst. rewrite Ht in *.
      exists []. cbn [items size]. rewrite app_nil_r, !length_app. cbn [length] in *.
      unfold BRC_MAXNUM. split_and!; (done || lia).
Qed.

Lemma unread_loop_spec l2 : forall fuel b item l1,
  marks b (l1 ++ l2) -> l1 ++ l2 <> [] -> Forall (fun y => item < y) l1 -> (length l2 < fuel)%nat ->
  unread_loop fuel b item (Z.of_nat (length l1)) = Done (unread (l1 ++ l2) item).
Proof.
  induction l2 as [|y l2 IH]; intros fuel b item l1 Hm Hne H1 Hf;
    (destruct fuel as [|fuel]; [cbn in Hf; lia|]);
    pose proof Hm as (rest & Hi & Hs & Hn & Hsort); cbn [unread_loop].
  - rewrite app_nil_r in *. rewrite Hs, Z.ltb_irrefl. f_equal. symmetry. unfold unread.
    destruct l1 as [|y l1]; [done|]. rewrite (existsb_false (fun z => z <? item)); [apply andb_false_r|].
    apply (Forall_impl _ _ _ H1). intros w ?. lia.
  - rewrite (proj2 (Z.ltb_lt _ (size b))) by (rewrite Hs, length_app; cbn; lia).
    rewrite Hi, Nat2Z.id, <- app_assoc. cbn [app]. rewrite list_lookup_middle by done.
    destruct (Z.ltb_spec y item) as [Hlt|Hge].
    { f_equal. symmetry. unfold unread. rewrite !existsb_app. cbn [existsb].
      rewrite (proj2 (Z.eqb_neq item y)), (proj2 (Z.ltb_lt y item)), orb_true_r by lia.
      rewrite (existsb_false _ l1) by (apply (Forall_impl _ _ _ H1); intros w ?; lia).
      rewrite existsb_false; [by destruct (l1 ++ y :: l2)|].
      apply StronglySorted_app in Hsort as (_ & _ & Hsort). apply StronglySorted_inv in Hsort as [_ Hy].
      apply (Forall_impl _ _ _ Hy). intros w ?. lia. }
    destruct (Z.eqb_spec item y) as [->|Hiy].
    { f_equal. unfold unread. rewrite existsb_app. cbn. rewrite Z.eqb_refl, orb_true_r.
      by destruct (l1 ++ y :: l2). }
    pose proof (IH fuel b item (l1 ++ [y])) as H. rewrite <- app_assoc in H. cbn [app] in H.
    rewrite length_app, Nat2Z.inj_add in H. apply H; try done; [|cbn in Hf; lia].
    apply Forall_app. split; [done|]. constructor; [lia|done].
Qed.

Lemma unread_spec b l item : marks b l -> brc_unread b item = Done (unread l item).
Proof.
  intros Hm. pose proof Hm as (rest & Hi & Hs & Hn & Hsort). unfold brc_unread.
  destruct l as [|y l]; [by rewrite Hs|]. rewrite (proj2 (Z.eqb_neq (size b) 0)) by (rewrite Hs; cbn; lia).
  apply (unread_loop_spec (y :: l) _ b item []); [done|done|done|rewrite Hs; lia].
Qed.

Lemma mark_spec b l item : marks b l -> exists b',
  brc_mark_as_read b item = Done (unread l item, b') /\ marks b' (mark item l) /\ name b' = name b.
Proof.
  intros Hm. pose proof Hm as (rest & Hi & Hs & Hn & Hsort). unfold brc_mark_as_read.
  destruct l as [|y l].
  - rewrite Hs. cbn [length Z.of_nat Z.eqb]. cbn [app] in Hi. unfold BRC_MAXNUM in Hn.
    destruct rest as [|r rest]; [rewrite Hi in Hn; cbn in Hn; lia|].
    pose proof (put_item_app [] r rest item) as Hput. cbn [app length] in Hput.
    change (Z.of_nat 0) with 0 in Hput.
    rewrite Hi, Hput. cbn [mbind outcome_bind].
    eexists. split; [done|]. split; [|done]. exists rest. cbn. rewrite Hi in Hn. cbn [length] in *.
    split_and!; try done. by repeat constructor.
  - rewrite (proj2 (Z.eqb_neq (size b) 0)) by (rewrite Hs; cbn; lia).
    apply (mark_loop_spec (y :: l) _ b item []); [done|done|done|rewrite Hs; lia].
Qed.

(** Marking an item answers what [brc_unread] answered about it before,
    and leaves the 60 latest of the old marks and the item, in decreasing order
    and within the array. *)
Theorem brc_mark_as_read_spec b l item : marks b l -> exists b',
  brc_mark_as_read b item = Done (unread l item, b') /\
  brc_unread b item = Done (unread l item) /\ marks b' (take 60 (insert_mark item l)).
Proof.
  intros Hm. destruct (mark_spec b l item Hm) as (b' & Hr & Hm' & _).
  exists b'. split; [done|]. split; [by apply unread_spec|done].
Qed.

(** * Clearing *)

(** An item counts as read and will go on to, whatever later items are marked. *)
Definition covered (x : Z) (l : list Z) : Prop :=
  x ∈ l \/ length l = 60%nat /\ Forall (fun y => x < y) l.

Lemma insert_length x l : StronglySorted (fun a b => b < a) l ->
  length (insert_mark x l) = length l \/ length (insert_mark x l) = S (length l) /\ ~ x ∈ l.
Proof.
  induction 1 as [|y l Hl IH Hy]; cbn [insert_mark length].
  { right. split; [done|]. apply not_elem_of_nil. }
  destruct (Z.ltb_spec y x) as [Hlt|Hge]; [|destruct (Z.eqb_spec x y); cbn [length]; [by left|]].
  - right. split; [done|]. intros [->|Hx]%elem_of_cons; [lia|].
    rewrite list.Forall_forall in Hy. specialize (Hy x Hx). lia.
  - destruct IH as [->|[-> IH]]; [by left|right]. split; [done|]. intros [?|?]%elem_of_cons; done.
Qed.

(** Marking keeps 60 marks at most: it inserts, or drops the earliest. *)
Lemma mark_cases z l : StronglySorted (fun a b => b < a) l -> (length l <= 60)%nat ->
  mark z l = insert_mark z l \/
  exists w, insert_mark z l = mark z l ++ [w] /\ length l = 60%nat /\ length (mark z l) = 60%nat /\
    Forall (fun y => w < y) (mark z l).
Proof.
  intros Hs Hl. unfold mark.
  destruct (decide (length (insert_mark z l) <= 60)%nat) as [H|H]; [left; by apply take_ge|right].
  destruct (insert_length z l Hs) as [Hi|[Hi _]]; [lia|].
  destruct (snoc_case (insert_mark z l)) as [He|(k & w & He)]; [by rewrite He in H; cbn in H; lia|].
  pose proof (f_equal length He) as Hk. rewrite length_app in Hk. cbn in Hk.
  exists w. pose proof (insert_sorted z l Hs) as Hs'. rewrite He in *.
  rewrite take_app_le, take_ge by lia. split_and!; try lia; [done|].
  apply StronglySorted_app in Hs' as (Hw & _ & _). apply list.Forall_forall. intros y Hy.
  apply Hw; [done|]. by apply list_elem_of_singleton.
Qed.

Lemma mark_length z l : (length (mark z l) <= 60)%nat.
Proof. unfold mark. rewrite length_take. lia. Qed.

Lemma mark_covered z l : StronglySorted (fun a b => b < a) l -> (length l <= 60)%nat ->
  covered z (mark z l).
Proof.
  intros Hs Hl. assert (z ∈ insert_mark z l) as Hz by (apply elem_of_insert; by left).
  destruct (mark_cases z l Hs Hl) as [->|(w & Hi & _ & Hk & Hw)]; [by left|].
  rewrite Hi in Hz. apply elem_of_app in Hz as [Hz| ->%list_elem_of_singleton]; [by left|by right].
Qed.

Lemma covered_mark x z l : StronglySorted (fun a b => b < a) l -> (length l <= 60)%nat ->
  covered x l -> covered x (mark z l).
Proof.
  intros Hs Hl Hx. destruct (mark_cases z l Hs Hl) as [He|(w & Hi & Hl60 & Hk & Hw)].
  - rewrite He. destruct Hx as [Hx|[H60 Hx]]; [left; apply elem_of_insert; by right|].
    pose proof (mark_length z l) as Hm. rewrite He in Hm. rewrite list.Forall_forall in Hx.
    destruct (insert_length z l Hs) as [Hi|[Hi _]]; [|lia]. right. split; [lia|].
    apply list.Forall_forall. intros y Hy. apply elem_of_insert in Hy as [->|Hy]; [|by apply Hx].
    assert (z ∈ l) as Hz; [|by apply Hx]. clear -Hi. induction l as [|y l IH]; cbn in Hi; [done|].
    destruct (Z.ltb_spec y z); [cbn in Hi; lia|]. destruct (Z.eqb_spec z y) as [->|]; [left|].
    right. apply IH. by injection Hi.
  - assert (forall y, y ∈ insert_mark z l <-> y ∈ mark z l \/ y = w) as Hin.
    { intros y. rewrite Hi, elem_of_app, list_elem_of_singleton. done. }
    rewrite list.Forall_forall in Hw. destruct Hx as [Hx|[_ Hx]].
    + destruct (proj1 (Hin x)) as [Hxm| ->]; [apply elem_of_insert; by right|by left|].
      right. split; [done|]. by apply list.Forall_forall.
    + rewrite list.Forall_forall in Hx. destruct (decide (x = z)) as [->|Hxz].
      { by apply mark_covered. }
      right. split; [done|]. apply list.Forall_forall. intros y Hy.
      destruct (proj1 (elem_of_insert z y l)) as [->|Hyl]; [apply Hin; by left| |by apply Hx].
      destruct (proj1 (elem_of_insert z w l)) as [->|Hwl]; [apply Hin; by right| |].
      * specialize (Hw z Hy). lia.
      * specialize (Hw z Hy). specialize (Hx w Hwl). lia.
Qed.

Lemma marks_length b l : marks b l -> (length l <= 60)%nat.
Proof.
  intros (rest & Hi & _ & Hn & _). rewrite Hi, length_app in Hn. unfold BRC_MAXNUM in Hn. lia.
Qed.

Lemma clear_loop_spec item fuel : forall b l i, marks b l -> item < 2 ^ 31 - 1 ->
  0 <= i <= item + 1 -> item - i + 1 < Z.of_nat fuel -> (l <> [] \/ i <= item) ->
  exists b' l', clear_loop fuel b i item = Done b' /\ marks b' l' /\ l' <> [] /\
    (forall x, covered x l \/ i <= x <= item -> covered x l').
Proof.
  induction fuel as [|fuel IH]; intros b l i Hm Hmax Hi Hf Hne; [lia|].
  pose proof Hm as (_ & _ & _ & _ & Hs). pose proof (marks_length b l Hm) as Hl. cbn [clear_loop].
  rewrite (u32_id i) by (width; lia). destruct (Z.leb_spec i item) as [Hle|Hgt]; cycle 1.
  { exists b, l. split_and!; try done; [destruct Hne; [done|lia]|]. intros x [?|?]; [done|lia]. }
  destruct (mark_spec b l i Hm) as (b1 & -> & Hm1 & _). cbn [mbind outcome_bind].
  rewrite i32_id by (width; lia).
  assert (mark i l <> []) as Hne1.
  { pose proof (mark_covered i l Hs Hl) as [Hin|[H60 _]]; intros He; rewrite He in *; [|done].
    by apply not_elem_of_nil in Hin. }
  destruct (IH b1 (mark i l) (i + 1) Hm1) as (b' & l' & Hr & Hm' & Hne' & Hc); try lia; [by left|].
  exists b', l'. split_and!; try done. intros x Hx. apply Hc.
  destruct Hx as [Hx|Hx]; [left; by apply covered_mark|].
  destruct (decide (x = i)) as [->|]; [left; by apply mark_covered|right; lia].
Qed.

(** Sixty consecutive covered items leave no room for an earlier mark. *)
Lemma covered_all l a : StronglySorted (fun a b => b < a) l -> (length l <= 60)%nat ->
  (forall x, a <= x < a + 60 -> covered x l) -> forall y j, y ∈ l -> y < j -> j < a + 60 -> j ∈ l.
Proof.
  intros Hs Hl Hc y j Hy Hyj Hj. destruct (decide (a <= j)) as [Haj|Haj].
  { destruct (Hc j ltac:(lia)) as [Hin|[_ Hlt]]; [done|].
    rewrite list.Forall_forall in Hlt. specialize (Hlt y Hy). lia. }
  exfalso. assert (forall x, x ∈ y :: seqZ a 60 -> x ∈ l) as Hsub.
  { intros x Hx. apply elem_of_cons in Hx as [->|Hx]; [done|]. apply elem_of_seqZ in Hx.
    destruct (Hc x ltac:(lia)) as [Hin|[_ Hlt]]; [done|].
    rewrite list.Forall_forall in Hlt. specialize (Hlt y Hy). lia. }
  assert (NoDup (y :: seqZ a 60)) as Hnd.
  { constructor; [rewrite elem_of_seqZ; lia|apply NoDup_seqZ]. }
  pose proof (NoDup_submseteq _ _ Hnd Hsub) as Hsm. apply submseteq_length in Hsm.
  cbn [length] in Hsm. rewrite length_seqZ in Hsm. lia.
Qed.

(** After [brc_clear] of an item, that item and every earlier one count as
    read, whatever was marked before; the marks stay ordered and at most 60. *)
Theorem brc_clear_reads b l item : marks b l -> 59 <= item < 2 ^ 31 - 1 ->
  exists b' l', brc_clear b item = Done b' /\ marks b' l' /\
    forall j, 0 <= j <= item -> brc_unread b' j = Done false.
Proof.
  intros Hm Hi. unfold brc_clear, BRC_MAXNUM. rewrite u32_id, i32_id by (width; lia).
  destruct (clear_loop_spec item (Z.to_nat 60 + 1) b l (item - 60 + 1) Hm) as
    (b' & l' & Hr & Hm' & Hne & Hc); try lia.
  exists b', l'. split_and!; try done. intros j Hj. rewrite (unread_spec b' l') by done. f_equal.
  pose proof Hm' as (_ & _ & _ & _ & Hs). pose proof (marks_length b' l' Hm') as Hl.
  unfold unread. destruct l' as [|y0 l0] eqn:E; [done|]. rewrite <- E in *.
  destruct (existsb (fun y => y <? j) l') eqn:Hex; [|apply andb_false_r].
  apply existsb_exists in Hex as (y & Hy & Hyj). apply list_elem_of_In in Hy.
  assert (j ∈ l') as Hin.
  { apply (covered_all l' (item - 60 + 1) Hs Hl) with (y := y); [|done|lia|lia].
    intros x Hx. apply Hc. right. lia. }
  assert (existsb (Z.eqb j) l' = true) as ->; [|done].
  apply existsb_exists. exists j. split; [by apply list_elem_of_In|apply Z.eqb_refl].
Qed.

(** Below 59 the first item to mark is negative, hence a large unsigned number,
    and nothing is marked. *)
Lemma brc_clear_small b item : 0 <= item < 59 -> brc_clear b item = Done b.
Proof.
  intros Hi. unfold brc_clear, BRC_MAXNUM.
  assert (u32 (item - 60 + 1) = item - 59 + 2 ^ 32) as ->.
  { unfold u32. symmetry. apply (Z.mod_unique _ _ (-1)); lia. }
  assert (i32 (item - 59 + 2 ^ 32) = item - 59) as ->.
  { unfold i32. rewrite <- (Z.mod_unique (item - 59 + 2 ^ 32 + 2 ^ 31) (2 ^ 32) 1 (item - 59 + 2 ^ 31)); lia. }
  change (Z.to_nat 60 + 1)%nat with (S 60). cbn [clear_loop].
  assert (u32 (item - 59) = item - 59 + 2 ^ 32) as ->.
  { unfold u32. symmetry. apply (Z.mod_unique _ _ (-1)); lia. }
  by zcase.
Qed.

(** * Records in the buffer *)

Lemma items_of_bytes l : Forall is_u32 l -> items_of (items_bytes l) = l.
Proof.
  induction 1 as [|x l Hx _ IH]; [done|]. unfold items_bytes in *. cbn [map concat app item_bytes items_of].
  rewrite IH. f_equal. width.
  pose proof (Z.div_mod x (2 ^ 8) ltac:(lia)) as H1.
  pose proof (Z.div_mod (x / 2 ^ 8) (2 ^ 8) ltac:(lia)) as H2.
  pose proof (Z.div_mod (x / 2 ^ 16) (2 ^ 8) ltac:(lia)) as H3.
  rewrite Z.div_div in H2 by lia. rewrite Z.div_div in H3 by lia.
  change (2 ^ 8 * 2 ^ 8) with (2 ^ 16) in *. change (2 ^ 16 * 2 ^ 8) with (2 ^ 24) in *. lia.
Qed.

Lemma items_bytes_length l : blen (items_bytes l) = 4 * Z.of_nat (length l).
Proof.
  unfold items_bytes. induction l as [|x l IH]; [done|]. cbn [map concat length].
  rewrite blen_app, IH. change (blen (item_bytes x)) with 4. lia.
Qed.

Lemma items_bytes_app l k : items_bytes (l ++ k) = items_bytes l ++ items_bytes k.
Proof. unfold items_bytes. by rewrite map_app, concat_app. Qed.

(** The record of a board: its name and marks. *)
Definition stored (b : brc_t) (nm l : list Z) : Prop :=
  (exists tail, name b = nm ++ 0 :: tail) /\ nul_free nm /\ blen nm < BRC_STRLEN /\
  blen (name b) = BRC_STRLEN /\ Forall is_u32 l /\ l <> [] /\ marks b l.

Lemma stored_size b nm l : stored b nm l -> 1 <= size b <= 60 /\ size b = Z.of_nat (length l).
Proof.
  intros (_ & _ & _ & _ & _ & Hne & Hm). pose proof (marks_length b l Hm).
  destruct Hm as (_ & _ & Hs & _). destruct l; [done|]. rewrite Hs. cbn [length] in *. lia.
Qed.

(** A board's record read back from where it was written is the same name
    and marks, and ends where the writing did; only the bytes of the record are
    written. *)
Theorem brc_record_roundtrip b b0 nm l pre old post :
  stored b nm l -> blen old = BRC_STRLEN + 1 + 4 * size b ->
  blen (name b0) = BRC_STRLEN -> Z.of_nat (length (items b0)) = BRC_MAXNUM ->
  exists m' b1 new, brc_put_record (pre ++ old ++ post) (blen pre) b
      = Done (blen pre + blen old, m') /\ m' = pre ++ new ++ post /\ blen new = blen old /\
    brc_get_record m' (blen pre) b0 = Done (blen pre + blen old, b1) /\ stored b1 nm l.
Proof.
  intros Hst Ho Hn0 Hi0. destruct (stored_size b nm l Hst) as [Hsz Hl].
  destruct Hst as ([tail Hn] & Hnm & Hlt & Hnb & Hu & Hne & (rest & Hi & Hs & Hb & Hsort)).
  unfold BRC_STRLEN, BRC_MAXNUM in *. pose proof (blen_nonneg nm).
  set (o1 := take 20 old). set (o2 := drop 20 old).
  assert (old = o1 ++ o2) as Hold by (subst o1 o2; by rewrite take_drop).
  assert (blen o1 = 20) as Ho1 by (subst o1; unfold blen in *; rewrite length_take; lia).
  clearbody o1 o2.
  assert (blen o2 = 1 + 4 * size b) as Ho2 by (rewrite Hold, blen_app in Ho; lia).
  destruct o2 as [|x o2]; [rewrite blen_nil in Ho2; lia|]. rewrite blen_cons in Ho2.
  set (field := nm ++ 0 :: drop (length nm + 1) o1).
  assert (blen field = 20) as Hfield.
  { subst field. rewrite blen_app, blen_cons. unfold blen in *. rewrite length_drop. lia. }
  unfold brc_put_record, BRC_MAXNUM. rewrite (proj2 (Z.eqb_neq (size b) 0)), (proj2 (Z.ltb_ge 60 (size b))) by lia.
  cbn [negb].
  assert (Z.to_nat (Z.min (20 - 1) (blen nm)) = length nm) as Hk by (unfold blen in *; lia).
  pose proof (strlcpy_eq pre o1 ((x :: o2) ++ post) [] nm tail 20 Hnm ltac:(lia) ltac:(lia) ltac:(lia)) as Hc.
  cbv zeta in Hc. rewrite Hk, firstn_all in Hc. cbn [app Z.eqb] in Hc.
  rewrite Hold, <- app_assoc, Hn. cbn [app]. change (blen []) with 0 in Hc.
  unfold BRC_STRLEN. rewrite Hc. cbn [mbind outcome_bind]. clear Hc.
  replace (pre ++ nm ++ 0 :: drop (length nm + 1) o1 ++ x :: o2 ++ post)
    with ((pre ++ field) ++ x :: o2 ++ post) by (subst field; app_eq).
  rewrite (wr_at _ (pre ++ field) x (o2 ++ post)) by (done || (rewrite blen_app; lia)).
  rewrite u8_id by (width; lia). cbn [mbind outcome_bind].
  rewrite (rdn_at _ [] (items_bytes l) (items_bytes rest)); cycle 1.
  { rewrite Hi. apply items_bytes_app. }
  { done. }
  { rewrite items_bytes_length. unfold sizeof_item. lia. }
  cbn [mbind outcome_bind].
  rewrite (wrn_at _ (pre ++ field ++ [size b]) o2 post); cycle 1.
  { app_eq. }
  { rewrite !blen_app. change (blen [size b]) with 1. lia. }
  { rewrite items_bytes_length. lia. }
  cbn [mbind outcome_bind].
  set (m' := (pre ++ field ++ [size b]) ++ items_bytes l ++ post).
  assert (m' = pre ++ (field ++ [size b] ++ items_bytes l) ++ post) as Hm' by (subst m'; app_eq).
  eexists m', (Brc (size b) (dirty b0) (nm ++ 0 :: drop (length nm + 1) (name b0))
    (l ++ drop (Z.to_nat (size b)) (items b0))), (field ++ [size b] ++ items_bytes l). split_and!.
  - do 2 f_equal. unfold sizeof_item. rewrite blen_app, blen_cons. lia.
  - done.
  - rewrite !blen_app, Hfield, items_bytes_length. change (blen [size b]) with 1. rewrite blen_cons. lia.
  - unfold brc_get_record, BRC_MAXNUM, BRC_STRLEN.
    pose proof (strlcpy_eq [] (name b0) [] pre nm
      (drop (length nm + 1) o1 ++ [size b] ++ items_bytes l ++ post) 20 Hnm
      ltac:(lia) ltac:(lia) ltac:(lia)) as Hc.
    cbv zeta in Hc. rewrite Hk, firstn_all in Hc. cbn [app Z.eqb] in Hc. rewrite !app_nil_r in Hc.
    change (blen []) with 0 in Hc. rewrite Hm'.
    replace (pre ++ (field ++ [size b] ++ items_bytes l) ++ post)
      with (pre ++ nm ++ 0 :: drop (length nm + 1) o1 ++ [size b] ++ items_bytes l ++ post)
      by (subst field; app_eq).
    cbn [app] in Hc |- *. rewrite Hc. cbn [mbind outcome_bind]. clear Hc.
    replace (pre ++ nm ++ 0 :: drop (length nm + 1) o1 ++ size b :: items_bytes l ++ post)
      with ((pre ++ field) ++ size b :: items_bytes l ++ post) by (subst field; app_eq).
    rewrite (rd_at _ (pre ++ field) (size b) (items_bytes l ++ post)) by (done || (rewrite blen_app; lia)).
    cbn [mbind outcome_bind]. rewrite schar_ascii, u32_id by (width; lia).
    rewrite (proj2 (Z.ltb_ge 60 (size b))) by lia.
    rewrite (rdn_at _ ((pre ++ field) ++ [size b]) (items_bytes l) post); cycle 1.
    { app_eq. }
    { rewrite !blen_app. change (blen [size b]) with 1. lia. }
    { rewrite items_bytes_length. unfold sizeof_item. lia. }
    cbn [mbind outcome_bind]. rewrite items_of_bytes by done. do 2 f_equal.
    unfold sizeof_item. rewrite blen_app, blen_cons. lia.
  - unfold stored, BRC_STRLEN. cbn [name]. split_and!; try done; [by eexists| |].
    + rewrite blen_app, blen_cons. unfold blen in *. rewrite length_drop. lia.
    + exists (drop (Z.to_nat (size b)) (items b0)). cbn [items size]. unfold BRC_MAXNUM.
      split_and!; try done. rewrite length_app, length_drop. lia.
Qed.

(** * Witnesses *)

Definition sample : brc_t := Brc 2 false ([66; 66] ++ replicate 18 0) ([70; 65] ++ replicate 58 0).

Lemma sample_marks : marks sample [70; 65].
Proof. exists (replicate 58 0). split_and!; try done. repeat constructor; lia. Defined.

Lemma brc_mark_as_read_spec_witness : exists b',
  brc_mark_as_read sample 68 = Done (true, b') /\ brc_unread sample 68 = Done true /\
  marks b' [70; 68; 65].
Proof. apply (brc_mark_as_read_spec sample [70; 65] 68 sample_marks). Defined.

Lemma brc_clear_reads_witness : exists b' l', brc_clear sample 100 = Done b' /\ marks b' l' /\
  forall j, 0 <= j <= 100 -> brc_unread b' j = Done false.
Proof. apply (brc_clear_reads sample [70; 65] 100 sample_marks). lia. Defined.

Lemma brc_record_roundtrip_witness : exists m' b1 new,
  brc_put_record ([1] ++ replicate 29 7 ++ [9]) 1 sample = Done (30, m') /\
  m' = [1] ++ new ++ [9] /\ blen new = 29 /\
  brc_get_record m' 1 (brc brc_reset) = Done (30, b1) /\ stored b1 [66; 66] [70; 65].
Proof.
  apply (brc_record_roundtrip sample (brc brc_reset) [66; 66] [70; 65] [1] (replicate 29 7) [9]);
    [|done|done|done].
  unfold stored. split_and!; try done; [by exists (replicate 17 0)|repeat constructor; lia| |apply sample_marks].
  repeat constructor; width; lia.
Defined.
