(* ===== verification/Terminal.v ===== *)
(** Terminal input and output: [src/terminal.c].

    The client's input is the list of chunks successive reads return, and the
    program exits when there is none left. Calls into the screen are recorded
    as events. *)
From S2P Require Import Prelude.

Definition INPUT_BUFFER_SIZE : Z := 48.
Definition OUTPUT_BUFFER_SIZE : Z := 4088.

Definition IAC : Z := 255.
Definition SB : Z := 250.
Definition SE : Z := 240.
Definition TELOPT_NAWS : Z := 31.
Definition KEY_ESC : Z := 27.
Definition KEY_UP : Z := 0x0101.
Definition KEY_HOME : Z := 0x0201.
Definition Ctrl (c : Z) : Z := Z.land c 31.

(** [screen_init(lines)] and [screen_redraw()]. *)
Inductive event := ScreenInit (lines : Z) | ScreenRedraw.

(** [input_buffer_t], what is still to be read, and the other variables of the
    input functions; [cr] is local to [igetch]. *)
Record input := Input {
  ptr : list Z;
  cur : Z;
  size : Z;
  source : list (list Z);
  cr : bool;
  KEY_ESC_arg : Z;
  RMSG : bool;
  msg_num : Z;
  events : list event;
}.

Definition set_cr (b : bool) (t : input) : input :=
  Input (ptr t) (cur t) (size t) (source t) b (KEY_ESC_arg t) (RMSG t) (msg_num t) (events t).
Definition set_esc_arg (c : Z) (t : input) : input :=
  Input (ptr t) (cur t) (size t) (source t) (cr t) c (RMSG t) (msg_num t) (events t).
Definition set_RMSG (b : bool) (t : input) : input :=
  Input (ptr t) (cur t) (size t) (source t) (cr t) (KEY_ESC_arg t) b (msg_num t) (events t).
Definition emit (e : event) (t : input) : input :=
  Input (ptr t) (cur t) (size t) (source t) (cr t) (KEY_ESC_arg t) (RMSG t) (msg_num t) (events t ++ [e]).

(** An input function returns a value and the new state, or exits ([None]). *)
Definition step A : Type := input -> outcome (option (A * input)).

Definition ret {A} (a : A) : step A := fun t => Done (Some (a, t)).
Definition bind {A B} (f : A -> step B) (m : step A) : step B := fun t =>
  r ← m t;
  match r with None => Done None | Some (a, t) => f a t end.
Definition modify (f : input -> input) : step unit := fun t => Done (Some (tt, f t)).

Definition terminal_input_buffer_empty (t : input) : outcome bool :=
  if size t <=? cur t then Done true
  else c ← rd (ptr t) (cur t); Done ((c =? 0) && (cur t =? size t - 1)).

(** A read puts its bytes at the start of the buffer; an empty read, or none,
    aborts. *)
Definition get_raw_ch : step Z := fun t =>
  if size t <=? cur t then
    match source t with
    | [] | [] :: _ => Done None
    | chunk :: source =>
        let p := chunk ++ drop (length chunk) (ptr t) in
        c ← rd p 0;
        Done (Some (c, Input p 1 (blen chunk) source (cr t) (KEY_ESC_arg t) (RMSG t)
                         (msg_num t) (events t)))
    end
  else
    c ← rd (ptr t) (cur t);
    Done (Some (c, Input (ptr t) (cur t + 1) (size t) (source t) (cr t) (KEY_ESC_arg t)
                     (RMSG t) (msg_num t) (events t))).

Inductive option_status_e :=
| OPTION_STATUS_IAC | OPTION_STATUS_COM | OPTION_STATUS_SUB | OPTION_STATUS_END.

(** What one byte does: the new status, [naws], the bytes collected in [buf], and
    the screen size it sets. *)
Definition iac_byte (status : option_status_e) (naws : bool) (buf : list Z) (ch : Z)
    : option_status_e * bool * list Z * option Z :=
  match status with
  | OPTION_STATUS_IAC =>
      (if ch =? SB then OPTION_STATUS_SUB else OPTION_STATUS_COM, naws, buf, None)
  | OPTION_STATUS_COM => (OPTION_STATUS_END, naws, buf, None)
  | OPTION_STATUS_SUB =>
      if ch =? TELOPT_NAWS then (status, true, [], None)
      else if ch =? SE then
        (OPTION_STATUS_END, naws, buf,
         if naws && (blen buf =? 5) then Some (schar (nth 3 buf 0)) else None)
      else if naws then
        (status, naws, if blen buf <? 8 then buf ++ [ch] else buf, None)
      else (status, naws, buf, None)
  | OPTION_STATUS_END => (status, naws, buf, None)
  end.

(** The loop of [handle_iac]; each iteration reads a byte. *)
Fixpoint iac_loop (fuel : nat) (status : option_status_e) (naws : bool) (buf : list Z) : step Z :=
  match fuel with
  | O => fun _ => NoFuel
  | S fuel =>
      match status with
      | OPTION_STATUS_END => ret 0
      | _ => bind (fun ch =>
          if ch <? 0 then ret ch
          else let '(status, naws, buf, lines) := iac_byte status naws buf ch in
               bind (fun _ => iac_loop fuel status naws buf)
                 (match lines with
                  | Some n => modify (emit (ScreenInit n))
                  | None => ret tt
                  end)) get_raw_ch
      end
  end.

#[export] Instance option_status_eq : EqDecision option_status_e.
Proof. solve_decision. Defined.

Inductive esc_status_e := ESC_STATUS_BEG | ESC_STATUS_CUR | ESC_STATUS_FUN | ESC_STATUS_ERR.

(** What one byte does: the key returned, or the next status. *)
Definition esc_byte (status : esc_status_e) (last ch : Z) : Z + esc_status_e :=
  match status with
  | ESC_STATUS_BEG =>
      if (ch =? 91) || (ch =? 79) then inr ESC_STATUS_CUR
      else if (ch =? 49) || (ch =? 52) then inr ESC_STATUS_FUN
      else inl KEY_ESC
  | ESC_STATUS_CUR =>
      if (65 <=? ch) && (ch <=? 68) then inl (KEY_UP + ch - 65)
      else if (49 <=? ch) && (ch <=? 54) then inr ESC_STATUS_FUN
      else inr ESC_STATUS_ERR
  | ESC_STATUS_FUN =>
      if (ch =? 126) && (49 <=? last) && (last <=? 54) then inl (KEY_HOME + last - 49)
      else inr ESC_STATUS_ERR
  | ESC_STATUS_ERR => inl ch
  end.

Fixpoint esc_loop (fuel : nat) (status : esc_status_e) (last : Z) : step Z :=
  match fuel with
  | O => fun _ => NoFuel
  | S fuel => bind (fun ch =>
      if ch <? 0 then ret ch
      else match esc_byte status last ch with
           | inl key =>
               match status with
               | ESC_STATUS_BEG => bind (fun _ => ret key) (modify (set_esc_arg ch))
               | _ => ret key
               end
           | inr status => esc_loop fuel status ch
           end) get_raw_ch
  end.

(** At most five bytes: the status only goes forward. *)
Definition handle_esc : step Z := esc_loop 5 ESC_STATUS_BEG 0.

Definition handle_iac (fuel : nat) : step Z := iac_loop fuel OPTION_STATUS_IAC false [].

Fixpoint igetch_loop (fuel : nat) : step Z :=
  match fuel with
  | O => fun _ => NoFuel
  | S fuel => bind (fun ch =>
      if ch =? IAC then bind (fun _ => igetch_loop fuel) (handle_iac fuel)
      else if ch =? KEY_ESC then handle_esc
      else if ch =? Ctrl 76 then bind (fun _ => igetch_loop fuel) (modify (emit ScreenRedraw))
      else if ch =? 13 then bind (fun _ => ret 10) (modify (set_cr true))
      else if ch =? 10 then fun t =>
        if cr t then bind (fun _ => igetch_loop fuel) (modify (set_cr false)) t
        else ret ch t
      else if ch =? 0 then bind (fun _ => igetch_loop fuel) (modify (set_cr false))
      else bind (fun _ => ret ch) (modify (set_cr false))) get_raw_ch
  end.

(** The bytes the program can still read. *)
Definition stream (t : input) : list Z :=
  drop (Z.to_nat (cur t)) (take (Z.to_nat (size t)) (ptr t)) ++ concat (source t).

(** Every iteration reads a byte, so the bytes left bound them. *)
Definition igetch : step Z := fun t => igetch_loop (2 * length (stream t) + 2) t.

Definition do_terminal_getchar : step Z :=
  bind (fun ch t =>
    if (ch =? Ctrl 90) && (msg_num t =? 0) then ret ch (set_RMSG true t) else ret ch t) igetch.

(** What the rest of the program does with messages is a parameter. *)
Section Messages.
Context (msg_reply : Z -> input -> input) (locked : input -> bool).

Fixpoint getchar_loop (fuel : nat) (ch : Z) : step Z :=
  match fuel with
  | O => fun _ => NoFuel
  | S fuel => fun t =>
      if (RMSG t || negb (msg_num t =? 0)) && negb (locked t) then
        bind (getchar_loop fuel) do_terminal_getchar (msg_reply ch t)
      else ret ch t
  end.

(** Replies are bounded by the input they read. *)
Definition terminal_getchar : step Z := fun t =>
  bind (getchar_loop (length (stream t) + 2)) do_terminal_getchar t.

Fixpoint egetch_loop (fuel : nat) : step Z :=
  match fuel with
  | O => fun _ => NoFuel
  | S fuel => bind (fun rval =>
      if rval =? Ctrl 76 then bind (fun _ => egetch_loop fuel) (modify (emit ScreenRedraw))
      else ret rval) terminal_getchar
  end.

Definition egetch : step Z := fun t => egetch_loop (length (stream t) + 1) t.
End Messages.

(** * Output *)

(** [output_buffer_t], and the bytes sent to the client; a write that fails
    sends nothing. *)
Record output := Output { optr : list Z; osize : Z; sent : list Z }.

Definition terminal_flush (write_ok : bool) (o : output) : outcome (Z * output) :=
  if 0 <? osize o then
    bs ← rdn (optr o) 0 (osize o);
    if write_ok then Done (osize o, Output (optr o) 0 (sent o ++ bs))
    else Done (-1, Output (optr o) 0 (sent o))
  else Done (0, Output (optr o) 0 (sent o)).

Definition put_raw_ch (write_ok : bool) (o : output) (ch : Z) : outcome output :=
  m ← wr (optr o) (osize o) ch;
  let o := Output m (osize o + 1) (sent o) in
  if osize o =? OUTPUT_BUFFER_SIZE then '(_, o) ← terminal_flush write_ok o; Done o
  else Done o.

Definition terminal_putchar (write_ok : bool) (o : output) (ch : Z) : outcome output :=
  put_raw_ch write_ok o (u8 ch).

(** [str] is the rest of the bytes to write, [size] how many of them. *)
Fixpoint write_loop (fuel : nat) (write_ok : bool) (o : output) (str : list Z) (size : Z)
    : outcome output :=
  match fuel with
  | O => NoFuel
  | S fuel =>
      if 0 <? size then
        let len := OUTPUT_BUFFER_SIZE - osize o in
        if len <? size then
          bs ← rdn str 0 len;
          m ← wrn (optr o) (osize o) bs;
          '(_, o) ← terminal_flush write_ok (Output m (osize o + len) (sent o));
          write_loop fuel write_ok o (drop (Z.to_nat len) str) (size - len)
        else
          bs ← rdn str 0 size;
          m ← wrn (optr o) (osize o) bs;
          Done (Output m (osize o + size) (sent o))
      else Done o
  end.

(** After the first flush every iteration but the last sends a full buffer. *)
Definition terminal_write_cached (write_ok : bool) (o : output) (str : list Z) (size : Z)
    : outcome output :=
  write_loop (Z.to_nat size + 2) write_ok o str size.

(** * Keys from bytes *)

(** Where in a sequence the next byte is. *)
Inductive mode :=
| Plain
| InIac (status : option_status_e) (naws : bool) (buf : list Z)
| InEsc (status : esc_status_e) (last : Z).

(** One byte either completes a key or leads to another mode. *)
Inductive effect :=
| Key (k : Z) (cr : bool) (arg : option Z)
| More (m : mode) (cr : bool) (evs : list event).

Definition plain_byte (cr : bool) (ch : Z) : effect :=
  if ch =? IAC then More (InIac OPTION_STATUS_IAC false []) cr []
  else if ch =? KEY_ESC then More (InEsc ESC_STATUS_BEG 0) cr []
  else if ch =? Ctrl 76 then More Plain cr [ScreenRedraw]
  else if ch =? 13 then Key 10 true None
  else if ch =? 10 then if cr then More Plain false [] else Key 10 cr None
  else if ch =? 0 then More Plain false []
  else Key ch false None.

Definition byte_effect (m : mode) (cr : bool) (ch : Z) : effect :=
  match m with
  | Plain => plain_byte cr ch
  | InIac status naws buf =>
      let '(status, naws, buf, lines) := iac_byte status naws buf ch in
      let evs := match lines with Some n => [ScreenInit n] | None => [] end in
      match status with
      | OPTION_STATUS_END => More Plain cr evs
      | _ => More (InIac status naws buf) cr evs
      end
  | InEsc status last =>
      match esc_byte status last ch with
      | inl key => Key key cr (match status with ESC_STATUS_BEG => Some ch | _ => None end)
      | inr status => More (InEsc status ch) cr []
      end
  end.

(** The next key of a stream of bytes, if it has one: the key, the rest, and
    what changes. *)
Record decoded := Dec { d_key : Z; d_rest : list Z; d_cr : bool; d_arg : option Z; d_events : list event }.

Definition add_events (evs : list event) (d : decoded) : decoded :=
  Dec (d_key d) (d_rest d) (d_cr d) (d_arg d) (evs ++ d_events d).

Fixpoint decode (m : mode) (cr : bool) (l : list Z) : option decoded :=
  match l with
  | [] => None
  | ch :: l =>
      match byte_effect m cr ch with
      | Key k cr arg => Some (Dec k l cr arg [])
      | More m cr evs => add_events evs <$> decode m cr l
      end
  end.

(** * Reading *)

Definition byte (c : Z) : Prop := 0 <= c < 256.

(** The buffer is within its bounds and holds bytes, and every read returns some
    and fits it. *)
Definition input_ok (t : input) : Prop :=
  0 <= cur t <= size t /\ size t <= blen (ptr t) /\ blen (ptr t) = INPUT_BUFFER_SIZE /\
  Forall byte (ptr t) /\
  Forall (fun chunk => chunk <> [] /\ blen chunk <= INPUT_BUFFER_SIZE /\ Forall byte chunk) (source t).

Definition reads (t : input) (l : list Z) : Prop := input_ok t /\ stream t = l.

(** The variables that reading a byte leaves alone. *)
Definition others (t : input) : bool * Z * bool * Z * list event :=
  (cr t, KEY_ESC_arg t, RMSG t, msg_num t, events t).

Lemma get_raw_ch_spec t l : reads t l ->
  match l with
  | [] => get_raw_ch t = Done None
  | c :: l => byte c /\ exists t', get_raw_ch t = Done (Some (c, t')) /\ reads t' l /\ others t' = others t
  end.
Proof.
  intros [(Hc & Hs & Hp & Hb & Hch) Hl]. unfold get_raw_ch.
  destruct (Z.leb_spec (size t) (cur t)) as [Hle|Hlt].
  - assert (stream t = concat (source t)) as He.
    { unfold stream. rewrite drop_ge; [done|]. rewrite length_take. lia. }
    rewrite He in Hl. destruct (source t) as [|[|c chunk] src] eqn:E; [by subst l|..].
    { apply Forall_cons_1 in Hch as [[? _] _]. done. }
    apply Forall_cons_1 in Hch as [(_ & Hcl & Hcb) Hch]. cbn [concat app] in Hl. subst l.
    split; [by apply Forall_cons_1 in Hcb as [? _]|].
    change (rd _ 0) with (Done c). cbn [mbind outcome_bind]. eexists. split; [done|].
    split; [|done]. split.
    + unfold input_ok. cbn [ptr cur size source]. split_and!; try done.
      * rewrite blen_cons. pose proof (blen_nonneg chunk). lia.
      * rewrite blen_app. pose proof (blen_nonneg (drop (length (c :: chunk)) (ptr t))). lia.
      * unfold blen, INPUT_BUFFER_SIZE in *. rewrite length_app, length_drop. lia.
      * apply Forall_app. split; [done|]. by apply Forall_drop.
    + unfold stream. cbn [ptr cur size source]. rewrite to_nat_blen, take_app_length. done.
  - destruct (lookup_lt_is_Some_2 (ptr t) (Z.to_nat (cur t))) as [c Hcu]; [unfold blen in *; lia|].
    unfold stream in Hl. rewrite (drop_S (take (Z.to_nat (size t)) (ptr t)) c (Z.to_nat (cur t))) in Hl
      by (rewrite lookup_take_lt by lia; done). cbn [app] in Hl. subst l.
    split; [by eapply Forall_lookup_1|].
    unfold rd. rewrite (proj2 (Z.ltb_ge (cur t) 0)), Hcu by lia. cbn [mbind outcome_bind].
    eexists. split; [done|]. split; [|done]. split.
    + unfold input_ok. cbn [ptr cur size source]. split_and!; (done || lia).
    + unfold stream. cbn [ptr cur size source]. do 2 f_equal. lia.
Qed.

(** How a run of input functions agrees with the decoder: the state reached
    reads what is left. *)
Definition agrees (t : input) (d : option decoded) (r : outcome (option (Z * input))) : Prop :=
  match d with
  | None => r = Done None
  | Some d => exists t', r = Done (Some (d_key d, t')) /\ reads t' (d_rest d) /\ cr t' = d_cr d /\
      KEY_ESC_arg t' = default (KEY_ESC_arg t) (d_arg d) /\ events t' = events t ++ d_events d /\
      RMSG t' = RMSG t /\ msg_num t' = msg_num t
  end.

Lemma agrees_add evs t t1 (d : option decoded) r : KEY_ESC_arg t1 = KEY_ESC_arg t -> RMSG t1 = RMSG t ->
  msg_num t1 = msg_num t -> events t1 = events t ++ evs ->
  agrees t1 d r -> agrees t (add_events evs <$> d) r.
Proof.
  intros Ha Hr Hm He. destruct d as [d|]; cbn; [|done].
  intros (t' & -> & H1 & H2 & H3 & H4 & H5 & H6). exists t'.
  rewrite H4, He, <- app_assoc, H3, Ha, H5, H6, Hr, Hm. done.
Qed.

Lemma add_events_nil (d : option decoded) : add_events [] <$> d = d.
Proof. by destruct d as [[]|]. Qed.

Lemma reads_modify t l t' : reads t l -> ptr t' = ptr t -> cur t' = cur t -> size t' = size t ->
  source t' = source t -> reads t' l.
Proof.
  unfold reads, input_ok, stream. by intros H -> -> -> ->.
Qed.

(** Negotiation: the loop consumes the sequence the decoder does. *)
Lemma iac_loop_spec l : forall fuel status naws buf t,
  reads t l -> (length l < fuel)%nat -> status <> OPTION_STATUS_END ->
  (iac_loop fuel status naws buf t = Done None /\ decode (InIac status naws buf) (cr t) l = None) \/
  exists t' l' evs, iac_loop fuel status naws buf t = Done (Some (0, t')) /\ reads t' l' /\
    (length l' < length l)%nat /\
    cr t' = cr t /\ KEY_ESC_arg t' = KEY_ESC_arg t /\ RMSG t' = RMSG t /\ msg_num t' = msg_num t /\
    events t' = events t ++ evs /\
    decode (InIac status naws buf) (cr t) l = add_events evs <$> decode Plain (cr t) l'.
Proof.
  induction l as [|ch l IH]; intros fuel status naws buf t Ht Hf Hne;
    (destruct fuel as [|fuel]; [cbn in Hf; lia|]);
    pose proof (get_raw_ch_spec t _ Ht) as Hg.
  - left. split; [|done]. cbn [iac_loop]. unfold bind. destruct status; try done; by rewrite Hg.
  - destruct Hg as (Hch & t1 & Hg & Ht1 & Ho). cbn in Hf.
    injection Ho as Ho1 Ho2 Ho3 Ho4 Ho5.
    assert (iac_loop (S fuel) status naws buf t =
      (let '(status, naws, buf, lines) := iac_byte status naws buf ch in
       iac_loop fuel status naws buf (match lines with Some n => emit (ScreenInit n) t1 | None => t1 end))) as ->.
    { cbn [iac_loop]. destruct status; try done; unfold bind; rewrite Hg; cbn [mbind outcome_bind];
        unfold byte in Hch; rewrite (proj2 (Z.ltb_ge ch 0)) by lia;
        destruct (iac_byte _ naws buf ch) as [[[st na] bu] [n|]]; done. }
    cbn [decode byte_effect]. destruct (iac_byte status naws buf ch) as [[[st na] bu] lines].
    set (t2 := match lines with Some n => emit (ScreenInit n) t1 | None => t1 end).
    set (evs := match lines with Some n => [ScreenInit n] | None => [] end).
    assert (reads t2 l) as Ht2.
    { subst t2. destruct lines; [|done]. by apply (reads_modify t1). }
    assert (cr t2 = cr t /\ KEY_ESC_arg t2 = KEY_ESC_arg t /\ RMSG t2 = RMSG t /\
      msg_num t2 = msg_num t /\ events t2 = events t ++ evs) as (Hc2 & Ha2 & Hr2 & Hm2 & He2).
    { subst t2 evs. destruct lines; cbn; rewrite ?Ho1, ?Ho2, ?Ho3, ?Ho4, ?Ho5, ?app_nil_r; done. }
    destruct (decide (st = OPTION_STATUS_END)) as [->|Hst].
    + right. exists t2, l, evs. rewrite Hc2. split_and!; try done; [|cbn; lia].
      destruct fuel; [lia|]. done.
    + assert ((match st with
          | OPTION_STATUS_END => More Plain (cr t) evs
          | _ => More (InIac st na bu) (cr t) evs
          end) = More (InIac st na bu) (cr t) evs) as -> by (by destruct st).
      rewrite <- Hc2.
      destruct (IH fuel st na bu t2 Ht2 ltac:(lia) Hst) as [[H1 H2]|(t' & l' & evs' & H1 & H2 & H3 & H4 & H5 & H6 & H7 & H8 & H9)].
      * left. by rewrite H1, H2.
      * right. exists t', l', (evs ++ evs'). rewrite H1, H9. split_and!; try congruence; try done.
        -- cbn. lia.
        -- by rewrite H8, He2, app_assoc.
        -- destruct (decode Plain (cr t2) l') as [[]|]; cbn; [|done]. unfold add_events. cbn.
           by rewrite app_assoc.
Qed.

Lemma esc_loop_spec l : forall fuel status last t, reads t l ->
  (match status with ESC_STATUS_BEG => 3 | ESC_STATUS_CUR => 2 | ESC_STATUS_FUN => 1 | _ => 0 end < fuel)%nat ->
  agrees t (decode (InEsc status last) (cr t) l) (esc_loop fuel status last t).
Proof.
  induction l as [|ch l IH]; intros fuel status last t Ht Hf; (destruct fuel as [|fuel]; [lia|]);
    pose proof (get_raw_ch_spec t _ Ht) as Hg; cbn [esc_loop]; unfold bind at 1.
  - by rewrite Hg.
  - destruct Hg as (Hch & t1 & Hg & Ht1 & Ho). rewrite Hg. cbn [mbind outcome_bind].
    injection Ho as Ho1 Ho2 Ho3 Ho4 Ho5.
    unfold byte in Hch. rewrite (proj2 (Z.ltb_ge ch 0)) by lia. cbn [decode byte_effect].
    destruct (esc_byte status last ch) as [key|st] eqn:E.
    + cbn [agrees]. destruct status; cbn [d_key d_rest d_cr d_arg d_events]; rewrite app_nil_r;
        eexists; (split; [done|]); cbn; rewrite ?Ho1, ?Ho2, ?Ho3, ?Ho4, ?Ho5; split_and!; try done.
    + rewrite <- Ho1. apply (agrees_add [] t t1); rewrite ?app_nil_r; try done.
      apply IH; [done|]. unfold esc_byte in E. destruct status; repeat case_match; simplify_eq; lia.
Qed.

Lemma igetch_loop_spec n : forall fuel l t, (length l <= n)%nat -> reads t l -> (2 * length l + 1 < fuel)%nat ->
  agrees t (decode Plain (cr t) l) (igetch_loop fuel t).
Proof.
  induction n as [|n IH]; intros fuel l t Hn Ht Hf; (destruct fuel as [|fuel]; [lia|]);
    pose proof (get_raw_ch_spec t _ Ht) as Hg; cbn [igetch_loop]; unfold bind at 1;
    (destruct l as [|ch l]; [by rewrite Hg|]); [cbn in Hn; lia|].
  destruct Hg as (Hch & t1 & Hg & Ht1 & Ho). rewrite Hg. cbn [mbind outcome_bind].
  injection Ho as Ho1 Ho2 Ho3 Ho4 Ho5. cbn in Hn, Hf. cbn [decode byte_effect]. unfold plain_byte.
  assert (forall t2 c evs, reads t2 l -> cr t2 = c -> KEY_ESC_arg t2 = KEY_ESC_arg t -> RMSG t2 = RMSG t ->
    msg_num t2 = msg_num t -> events t2 = events t ++ evs ->
    agrees t (add_events evs <$> decode Plain c l) (igetch_loop fuel t2)) as Hmore.
  { intros t2 c evs H1 <- H2 H3 H4 H5. apply (agrees_add evs t t2); try done.
    apply IH; [lia|done|lia]. }
  destruct (ch =? IAC).
  { unfold bind, handle_iac.
    destruct (iac_loop_spec l fuel OPTION_STATUS_IAC false [] t1 Ht1 ltac:(lia) ltac:(done))
      as [[H1 H2]|(t' & l' & evs' & H1 & H2 & H3 & H4 & H5 & H6 & H7 & H8 & H9)].
    - rewrite H1. rewrite Ho1 in H2. by rewrite H2.
    - rewrite H1. rewrite Ho1 in H9. rewrite H9. cbn [mbind outcome_bind].
      rewrite add_events_nil. apply (agrees_add evs' t t'); try congruence.
      rewrite <- Ho1, <- H4. apply IH; [lia|done|lia]. }
  destruct (ch =? KEY_ESC).
  { rewrite add_events_nil, <- Ho1. unfold handle_esc.
    rewrite <- (add_events_nil (decode _ _ _)). apply (agrees_add [] t t1); rewrite ?app_nil_r; try done.
    apply esc_loop_spec; [done|lia]. }
  destruct (ch =? Ctrl 76).
  { unfold bind, modify. cbn [mbind outcome_bind]. apply Hmore; cbn; try congruence.
   
    all: by apply (reads_modify t1). }
  destruct (ch =? 13).
  { cbn. rewrite app_nil_r. eexists. split; [done|]. cbn. split_and!; try done.
    all: by apply (reads_modify t1). }
  destruct (ch =? 10) eqn:E10.
  { rewrite Ho1. destruct (cr t) eqn:Ecr.
    - unfold bind, modify. cbn [mbind outcome_bind]. apply Hmore; cbn; rewrite ?app_nil_r; try congruence.
     
    all: by apply (reads_modify t1).
    - cbn. rewrite app_nil_r. exists t1. assert (ch = 10) as -> by lia. split_and!; try done; congruence. }
  destruct (ch =? 0).
  { unfold bind, modify. cbn [mbind outcome_bind]. apply Hmore; cbn; rewrite ?app_nil_r; try congruence.
   
    all: by apply (reads_modify t1). }
  cbn. rewrite app_nil_r. eexists. split; [done|]. cbn. split_and!; try done.
    all: by apply (reads_modify t1).
Qed.

(** C2. [igetch] returns the next key of the bytes the client sent, however
    they are divided into reads: the key, the bytes left, the state of the line
    ends and the calls into the screen are those of the decoder run on their
    concatenation, and the program exits when the bytes end before a key. *)
Theorem igetch_decodes t : input_ok t ->
  match decode Plain (cr t) (stream t) with
  | None => igetch t = Done None
  | Some d => exists t', igetch t = Done (Some (d_key d, t')) /\ input_ok t' /\
      stream t' = d_rest d /\ cr t' = d_cr d /\ events t' = events t ++ d_events d
  end.
Proof.
  intros Hok. pose proof (igetch_loop_spec (length (stream t)) (2 * length (stream t) + 2) (stream t) t
    ltac:(lia) (conj Hok eq_refl) ltac:(lia)) as H.
  unfold igetch. destruct (decode Plain (cr t) (stream t)) as [d|]; [|done].
  destruct H as (t' & H1 & [H2 H3] & H4 & _ & H5 & _). by exists t'.
Qed.

(** * Writing *)

Definition out_ok (o : output) : Prop :=
  blen (optr o) = OUTPUT_BUFFER_SIZE /\ 0 <= osize o <= OUTPUT_BUFFER_SIZE.

(** All that was written: what is sent and what is buffered. *)
Definition written (o : output) : list Z := sent o ++ take (Z.to_nat (osize o)) (optr o).

Lemma flush_ok o : out_ok o -> exists n, terminal_flush true o = Done (n, Output (optr o) 0 (written o)).
Proof.
  intros [Hl Hs]. unfold terminal_flush, written. destruct (Z.ltb_spec 0 (osize o)).
  - unfold rdn. cbn [Z.leb Z.compare andb]. rewrite (proj2 (Z.leb_le 0 (osize o))) by lia.
    rewrite (proj2 (Z.leb_le (0 + osize o) (blen (optr o)))) by lia.
    cbn [andb mbind outcome_bind Z.to_nat drop]. by eexists.
  - replace (osize o) with 0 by lia. rewrite app_nil_r. by eexists.
Qed.

(** Bytes copied to the free part of the buffer. *)
Lemma buffer_write o bs : out_ok o -> osize o + blen bs <= OUTPUT_BUFFER_SIZE ->
  exists m, wrn (optr o) (osize o) bs = Done m /\ out_ok (Output m (osize o + blen bs) (sent o)) /\
    written (Output m (osize o + blen bs) (sent o)) = written o ++ bs.
Proof.
  intros [Hl Hs] Hb. set (a := take (Z.to_nat (osize o)) (optr o)).
  set (r := drop (Z.to_nat (osize o)) (optr o)).
  assert (optr o = a ++ r) as Ho by (subst a r; by rewrite take_drop).
  assert (blen a = osize o) as Ha by (subst a; unfold blen in *; rewrite length_take; lia).
  assert (blen r = OUTPUT_BUFFER_SIZE - osize o) as Hr by (rewrite Ho, blen_app in Hl; lia).
  pose proof (blen_nonneg bs).
  rewrite (wrn_at (optr o) a (take (length bs) r) (drop (length bs) r)).
  - eexists. split; [done|]. split; [split; cbn [optr osize]; [|lia]|].
    + rewrite !blen_app. unfold blen in *. rewrite length_drop. lia.
    + unfold written. cbn [sent osize optr]. fold a. rewrite <- app_assoc. f_equal.
      rewrite app_assoc. rewrite take_app_length'; [done|]. unfold blen in *. rewrite length_app. lia.
  - by rewrite take_drop.
  - done.
  - unfold blen in *. rewrite length_take. lia.
Qed.

(** A single byte, stored in the buffer. *)
Lemma buffer_put o ch : out_ok o -> osize o < OUTPUT_BUFFER_SIZE ->
  exists m, wr (optr o) (osize o) (u8 ch) = Done m /\ out_ok (Output m (osize o + 1) (sent o)) /\
    written (Output m (osize o + 1) (sent o)) = written o ++ [u8 ch].
Proof.
  intros Ho Hroom. destruct (buffer_write o [u8 ch] Ho) as (m & Hm & Hok & Hw); [change (blen [u8 ch]) with 1; lia|].
  change (blen [u8 ch]) with 1 in *. exists m. split; [|done]. destruct Ho as [Hl Hs].
  unfold wrn in Hm. change (blen [u8 ch]) with 1 in Hm. unfold wr.
  rewrite (proj2 (Z.leb_le 0 (osize o))), (proj2 (Z.ltb_lt (osize o) _)) by lia.
  rewrite (proj2 (Z.leb_le 0 (osize o))), (proj2 (Z.leb_le (osize o + 1) _)) in Hm by lia.
  cbn [andb] in *. rewrite <- Hm. f_equal. rewrite insert_take_drop by (unfold blen in *; lia).
  rewrite (u8_id (u8 ch)) by apply u8_range. cbn [length app]. do 2 f_equal. by rewrite Nat.add_1_r.
Qed.

(** What the output functions do while the buffer does not get full. *)
Definition adds (o o' : output) (bs : list Z) : Prop :=
  out_ok o' /\ written o' = written o ++ bs /\ osize o' = osize o + blen bs.

Lemma putchar_adds o ch : out_ok o -> osize o + 1 < OUTPUT_BUFFER_SIZE ->
  exists o', terminal_putchar true o ch = Done o' /\ adds o o' [u8 ch].
Proof.
  intros Ho Hroom. destruct (buffer_put o ch Ho) as (m & Hm & Hok & Hw); [lia|].
  unfold terminal_putchar, put_raw_ch. rewrite Hm. cbn [mbind outcome_bind osize].
  rewrite (proj2 (Z.eqb_neq (osize o + 1) _)) by lia. eexists. split; [done|]. by split_and!.
Qed.

Lemma write_cached_adds o bs : out_ok o -> osize o + blen bs < OUTPUT_BUFFER_SIZE ->
  exists o', terminal_write_cached true o bs (blen bs) = Done o' /\ adds o o' bs.
Proof.
  intros Ho Hroom. unfold terminal_write_cached. pose proof (blen_nonneg bs).
  replace (Z.to_nat (blen bs) + 2)%nat with (S (S (Z.to_nat (blen bs)))) by lia. cbn [write_loop].
  destruct (Z.ltb_spec 0 (blen bs)).
  - rewrite (proj2 (Z.ltb_ge _ (blen bs))) by lia.
    rewrite (rdn_at bs [] bs [] 0 (blen bs)) by (rewrite ?app_nil_r; done). cbn [mbind outcome_bind].
    destruct (buffer_write o bs Ho) as (m & -> & Hok & Hw); [lia|]. cbn [mbind outcome_bind].
    eexists. split; [done|]. by split_and!.
  - exists o. split; [done|]. assert (bs = []) as -> by (destruct bs; [done|rewrite blen_cons in *; pose proof (blen_nonneg bs); lia]).
    split_and!; [done|by rewrite app_nil_r|cbn; lia].
Qed.

Lemma write_loop_ok fuel : forall o str, out_ok o -> 
  (length str + (if (osize o =? OUTPUT_BUFFER_SIZE)%Z then 1 else 0) < fuel)%nat ->
  exists o', write_loop fuel true o str (blen str) = Done o' /\ out_ok o' /\ written o' = written o ++ str.
Proof.
  induction fuel as [|fuel IH]; intros o str Ho Hf; [lia|]. cbn [write_loop].
  pose proof Ho as [Hl Hs]. destruct (Z.ltb_spec 0 (blen str)) as [Hpos|Hz]; cycle 1.
  { exists o. split; [done|]. split; [done|]. destruct str; [by rewrite app_nil_r|].
    rewrite blen_cons in Hz. pose proof (blen_nonneg str). lia. }
  set (len := OUTPUT_BUFFER_SIZE - osize o).
  destruct (Z.ltb_spec len (blen str)) as [Hlt|Hge].
  - set (a := take (Z.to_nat len) str). set (r := drop (Z.to_nat len) str).
    assert (str = a ++ r) as Hstr by (subst a r; by rewrite take_drop).
    assert (blen a = len) as Ha by (subst a; unfold blen in *; rewrite length_take; lia).
    rewrite (rdn_at str [] a r 0 len) by done. cbn [mbind outcome_bind].
    destruct (buffer_write o a Ho) as (m & -> & Hm & Hw); [subst len; lia|].
    cbn [mbind outcome_bind]. rewrite Ha in Hm, Hw. destruct (flush_ok _ Hm) as [n ->].
    cbn [mbind outcome_bind optr]. rewrite Hw.
    replace (blen str - len) with (blen r) by (rewrite Hstr, blen_app; lia).
    destruct (IH (Output m 0 (written o ++ a)) r) as (o' & Hr & Ho' & Hw').
    + split; [apply Hm|cbn; unfold OUTPUT_BUFFER_SIZE; lia].
    + cbn [osize]. change (0 =? OUTPUT_BUFFER_SIZE) with false.
      assert (length str = length a + length r)%nat by (by rewrite Hstr at 1; rewrite length_app).
      assert (Z.of_nat (length a) = len) by done.
      destruct (Z.eqb_spec (osize o) OUTPUT_BUFFER_SIZE); [lia|]. subst len. lia.
    + exists o'. split; [done|]. split; [done|]. rewrite Hw'. unfold written at 1. cbn [sent osize optr].
      change (Z.to_nat 0) with 0%nat. rewrite take_0, app_nil_r, <- app_assoc. by rewrite Hstr.
  - rewrite (rdn_at str [] str [] 0 (blen str)) by (rewrite ?app_nil_r; done). cbn [mbind outcome_bind].
    destruct (buffer_write o str Ho) as (m & -> & Hm & Hw); [subst len; lia|].
    cbn [mbind outcome_bind]. by eexists.
Qed.

(** The output functions. *)
Inductive out_op := PutChar (ch : Z) | WriteCached (str : list Z) | Flush.

Definition run_out (o : output) (op : out_op) : outcome output :=
  match op with
  | PutChar ch => terminal_putchar true o ch
  | WriteCached str => terminal_write_cached true o str (blen str)
  | Flush => '(_, o) ← terminal_flush true o; Done o
  end.

Definition out_bytes (op : out_op) : list Z :=
  match op with PutChar ch => [u8 ch] | WriteCached str => str | Flush => [] end.

(** Output is sent in the order it was written, nothing lost or repeated,
    and a flush sends all of it, provided no single byte is put into a full
    buffer. *)
Theorem output_in_order o op : out_ok o ->
  (osize o < OUTPUT_BUFFER_SIZE \/ forall ch, op <> PutChar ch) ->
  exists o', run_out o op = Done o' /\ out_ok o' /\ written o' = written o ++ out_bytes op /\
    (op = Flush -> sent o' = written o).
Proof.
  intros Ho Hroom. destruct op as [ch|str|]; cbn [run_out out_bytes].
  - destruct Hroom as [Hroom|Hroom]; [|by destruct (Hroom ch)].
    unfold terminal_putchar, put_raw_ch. destruct (buffer_put o ch Ho Hroom) as (m & -> & Hok & Hw).
    cbn [mbind outcome_bind osize].
    destruct (osize o + 1 =? OUTPUT_BUFFER_SIZE); [|by eexists].
    destruct (flush_ok _ Hok) as [n ->]. cbn [mbind outcome_bind optr]. eexists. split; [done|].
    split; [split; [apply Hok|cbn; unfold OUTPUT_BUFFER_SIZE; lia]|]. split; [|done].
    rewrite <- Hw. unfold written at 1. cbn [sent osize]. by rewrite app_nil_r.
  - destruct (write_loop_ok (Z.to_nat (blen str) + 2) o str Ho) as (o' & Hr & Ho' & Hw).
    { rewrite to_nat_blen. destruct (osize o =? OUTPUT_BUFFER_SIZE); lia. }
    exists o'. by split_and!.
  - destruct (flush_ok o Ho) as [n ->]. cbn [mbind outcome_bind]. eexists. split; [done|].
    split; [split; [apply Ho|cbn; unfold OUTPUT_BUFFER_SIZE; lia]|]. split; [|done].
    unfold written at 1. cbn [sent osize optr]. by rewrite !app_nil_r.
Qed.

(** A cached write that ends exactly at the end of the buffer leaves it
    full, and the next single byte is stored past the buffer. *)
Theorem putchar_after_full_write o str ch : out_ok o -> str <> [] ->
  osize o + blen str = OUTPUT_BUFFER_SIZE ->
  (o ← terminal_write_cached true o str (blen str); terminal_putchar true o ch) = Fault.
Proof.
  intros Ho Hne Hfull. unfold terminal_write_cached.
  replace (Z.to_nat (blen str) + 2)%nat with (S (Z.to_nat (blen str) + 1)) by lia. cbn [write_loop].
  assert (0 < blen str) by (destruct str; [done|rewrite blen_cons; pose proof (blen_nonneg str); lia]).
  rewrite (proj2 (Z.ltb_lt 0 (blen str))), (proj2 (Z.ltb_ge _ (blen str))) by lia.
  rewrite (rdn_at str [] str [] 0 (blen str)) by (rewrite ?app_nil_r; done). cbn [mbind outcome_bind].
  destruct (buffer_write o str Ho) as (m & -> & [Hm _] & _); [lia|]. cbn [mbind outcome_bind].
  unfold terminal_putchar, put_raw_ch. cbn [optr osize] in *. unfold wr.
  rewrite (proj2 (Z.ltb_ge (osize o + blen str) (blen m))) by lia. by rewrite andb_false_r.
Qed.

(** * Witnesses *)

(** Telnet sends a window of 80 by 24, then an arrow key split over two reads. *)
Definition session : input :=
  Input (replicate 48 0) 0 0
    [[IAC; SB; TELOPT_NAWS; 0; 80; 0; 24]; [IAC; SE; 27]; [91; 65; 13]] false 0 false 0 [].

Lemma igetch_decodes_witness : exists t', igetch session = Done (Some (KEY_UP, t')) /\ input_ok t' /\
  stream t' = [13] /\ cr t' = false /\ events t' = [ScreenInit 24].
Proof.
  apply (igetch_decodes session). split_and!; cbn [cur size ptr source session]; try (vm_compute; congruence).
  - apply Forall_replicate. unfold byte. lia.
  - repeat constructor; try done; unfold byte, IAC, SB, SE, TELOPT_NAWS; lia.
Defined.

Definition fresh_output : output := Output (replicate 4088 0) 0 [].

Lemma fresh_ok : out_ok fresh_output.
Proof. split; [by vm_compute|cbn; unfold OUTPUT_BUFFER_SIZE; lia]. Defined.

Lemma output_in_order_witness : exists o', run_out fresh_output (WriteCached [65; 66]) = Done o' /\
  out_ok o' /\ written o' = [65; 66] /\ (WriteCached [65; 66] = Flush -> sent o' = []).
Proof. apply (output_in_order fresh_output (WriteCached [65; 66]) fresh_ok). by right. Defined.

Lemma putchar_after_full_write_witness :
  (o ← terminal_write_cached true fresh_output (replicate 4088 65) (blen (replicate 4088 65));
   terminal_putchar true o 65) = Fault.
Proof. apply (putchar_after_full_write fresh_output (replicate 4088 65) 65 fresh_ok); by vm_compute. Defined.
