(* ===== verification/Convert.v ===== *)
(** Character set conversion: [src/lib/convert.c].

    The [iconv] library is an interface, [Iconv]: a function and what its
    documentation says of it. *)
From S2P Require Import Prelude.

(** Why [iconv] stopped: the input is used up, or [errno]. *)
Inductive iconv_stop := Converted | E2BIG | EILSEQ | EINVAL | Other_errno.

Definition CONVERT_ALL : Z := 2 ^ 64 - 1.

(** What a [convert_handler_t] does to the state of the program, and returns. *)
Definition convert_handler_t (S : Type) : Type := list Z -> S -> Z * S.

Section Convert.
(** One call on an open descriptor in its initial state: the input and the room
    for output give the bytes used, the output and the reason to stop. *)
Context (iconv : list Z -> Z -> Z * list Z * iconv_stop).
Context {S : Type} (handler : option (convert_handler_t S)).

Definition call (bs : list Z) (s : S) : Z * S :=
  match handler with Some h => h bs s | None => (0, s) end.
Definition handled : bool := match handler with Some _ => true | None => false end.

(** The loop of [convert]: [f] is the input left in memory and [l] its length,
    [b] an offset in [buffer]. The result is the returned value, the buffer and
    the state of the handler. *)
Fixpoint convert_loop (fuel : nat) (len : Z) (buffer : list Z) (size b oleft : Z) (f : list Z) (l ret : Z)
    (s : S) : outcome (Z * list Z * S) :=
  match fuel with
  | O => NoFuel
  | Datatypes.S fuel =>
      if l =? 0 then Done (ret, buffer, s)
      else
        let b := if handled then 0 else b in
        let oleft := if handled then size else oleft in
        bs ← rdn f 0 l;
        let '(n, out, stop) := iconv bs oleft in
        buffer ← wrn buffer b out;
        let f := drop (Z.to_nat n) f in
        let l := l - n in
        let b := b + blen out in
        let oleft := oleft - blen out in
        buffer ← wr buffer (size - oleft) 0;
        let finish f l ret s :=
          if handled && (oleft <? size) then
            bs ← rdn buffer 0 (size - oleft);
            let '(r, s) := call bs s in
            if r <? 0 then Done (ret, buffer, s)
            else convert_loop fuel len buffer size b oleft f l ret s
          else convert_loop fuel len buffer size b oleft f l ret s in
        match stop with
        | E2BIG => if handled then finish f l ret s else Done (0, buffer, s)
        | EILSEQ => finish (drop 1 f) (u64 (l - 1)) ret (call [63] s).2
        | EINVAL => finish f 0 (len - l) s
        | Converted | Other_errno => finish f l ret s
        end
  end.

(** [from] is the memory at the pointer, [None] for a null pointer; [buf] the
    caller's buffer and [internal] the one on the stack, as it is when the
    function is called. *)
Definition convert (internal : list Z) (from : option (list Z)) (len : Z) (buf : option (list Z))
    (size : Z) (s : S) : outcome (Z * list Z * S) :=
  len ← (if len =? CONVERT_ALL
         then match from with Some m => strlen m 0 | None => Done 0 end
         else Done len);
  let buffer := default internal buf in
  let size := match buf with Some _ => u64 (size - 1) | None => 1024 - 1 end in
  if len =? 0 then buffer ← wr buffer 0 0; Done (0, buffer, s)
  else convert_loop (Z.to_nat len + 1) len buffer size 0 size (default [] from) len 0 s.

End Convert.

(** * The library *)

(** The next character of an input. *)
Inductive next_char := Char (n : nat) (out : list Z) | Illegal | Incomplete.

(** [iconv] converts whole characters while they fit, and stops at a byte that
    starts no character, or at the part of one that ends the input. *)
Fixpoint greedy (step : list Z -> next_char) (fuel : nat) (l : list Z) (room : Z)
    : Z * list Z * iconv_stop :=
  match fuel with
  | O => (0, [], Converted)
  | Datatypes.S fuel =>
      match l with
      | [] => (0, [], Converted)
      | _ =>
          match step l with
          | Char n out =>
              if blen out <=? room then
                let '(c, o, stop) := greedy step fuel (drop n l) (room - blen out) in
                (Z.of_nat n + c, out ++ o, stop)
              else (0, [], E2BIG)
          | Illegal => (0, [], EILSEQ)
          | Incomplete => (0, [], EINVAL)
          end
      end
  end.

(** A converter between the two encodings of the program: the function, how it
    reads one character, and that a character is a non-empty part of the input
    and at most four bytes of output. *)
Class Iconv := {
  iconv : list Z -> Z -> Z * list Z * iconv_stop;
  char_of : list Z -> next_char;
  iconv_greedy l room : iconv l room = greedy char_of (length l) l room;
  char_of_bounds l n out : l <> [] -> char_of l = Char n out ->
    (0 < n <= length l)%nat /\ 0 < blen out <= 4;
}.

(** * What a handler is given *)

Section Delivered.
Context `{Iconv}.

(** The conversion of an input without illegal bytes, and how many bytes at its
    end are only a part of a character. *)
Fixpoint whole (fuel : nat) (l : list Z) : list Z * nat :=
  match fuel, l with
  | O, _ | _, [] => ([], 0%nat)
  | Datatypes.S fuel, _ =>
      match char_of l with
      | Char n out => let '(o, k) := whole fuel (drop n l) in (out ++ o, k)
      | _ => ([], length l)
      end
  end.

(** The bytes delivered when [pend] is in a buffer with room for [size]: a full
    buffer is delivered and the character starts the next one, and the mark for
    an illegal byte comes before what is in the buffer. *)
Fixpoint delivered (size : Z) (fuel : nat) (pend l : list Z) : list Z * nat :=
  match fuel, l with
  | O, _ | _, [] => (pend, 0%nat)
  | Datatypes.S fuel, _ :: t =>
      match char_of l with
      | Char n out =>
          if blen pend + blen out <=? size then delivered size fuel (pend ++ out) (drop n l)
          else let '(o, k) := delivered size fuel out (drop n l) in (pend ++ o, k)
      | Illegal => let '(o, k) := delivered size fuel [] t in (63 :: pend ++ o, k)
      | Incomplete => (pend, length l)
      end
  end.

(** No byte of the input is illegal where a character should start. *)
Fixpoint legal (fuel : nat) (l : list Z) : bool :=
  match fuel, l with
  | O, _ | _, [] => true
  | Datatypes.S fuel, _ =>
      match char_of l with Char n _ => legal fuel (drop n l) | Illegal => false | Incomplete => true end
  end.

End Delivered.

(** * The loop *)

Section Loop.
Context `{Iconv}.

Lemma delivered_fuel size fuel : forall pend l, (length l <= fuel)%nat ->
  delivered size fuel pend l = delivered size (length l) pend l.
Proof.
  induction fuel as [fuel IH] using lt_wf_ind. intros pend l Hl.
  destruct l as [|c l]; [by destruct fuel|]. destruct fuel as [|fuel]; [cbn in Hl; lia|].
  cbn [length] in *. cbn [delivered]. destruct (char_of (c :: l)) as [n out| |] eqn:E; [|..].
  - destruct (char_of_bounds (c :: l) n out ltac:(done) E) as [[Hn _] _].
    assert (length (drop n (c :: l)) <= length l)%nat by (rewrite length_drop; cbn [length]; lia).
    rewrite !(IH fuel) by lia. symmetry. destruct (decide (length l < S fuel)%nat); [|lia].
    by rewrite !(IH (length l)) by lia.
  - rewrite (IH fuel) by lia. done.
  - done.
Qed.

(** One call of [iconv], as a part of what is delivered. *)
Definition delivered_after (size : Z) (out l : list Z) (n : nat) (stop : iconv_stop) : list Z * nat :=
  let rest m := delivered size (length (drop m l)) [] (drop m l) in
  match stop with
  | E2BIG => let '(o, k) := rest n in (out ++ o, k)
  | EILSEQ => let '(o, k) := rest (n + 1)%nat in (63 :: out ++ o, k)
  | EINVAL => (out, length l - n)%nat
  | _ => (out, 0%nat)
  end.

Lemma greedy_delivered size fuel : forall pend l, 4 <= size -> blen pend <= size -> (length l <= fuel)%nat ->
  exists n out stop, greedy char_of fuel l (size - blen pend) = (Z.of_nat n, out, stop) /\
    (n <= length l)%nat /\ blen pend + blen out <= size /\
    (stop = Converted -> n = length l) /\ stop <> Other_errno /\
    (stop <> Converted -> n < length l)%nat /\
    (stop = E2BIG -> pend = [] -> 0 < n)%nat /\
    delivered size (length l) pend l = delivered_after size (pend ++ out) l n stop.
Proof.
  induction fuel as [|fuel IH]; intros pend l Hs Hp Hl.
  { destruct l; [|cbn in Hl; lia]. exists 0%nat, [], Converted. cbn. rewrite app_nil_r. split_and!; try done; blen. }
  destruct l as [|c l].
  { exists 0%nat, [], Converted. cbn. rewrite app_nil_r. split_and!; try done; blen. }
  cbn [greedy]. cbn [length] in *. cbn [delivered].
  destruct (char_of (c :: l)) as [m out| |] eqn:E.
  - destruct (char_of_bounds (c :: l) m out ltac:(done) E) as [[Hm Hm'] Ho].
    assert (length (drop m (c :: l)) = S (length l) - m)%nat as Hd by (rewrite length_drop; done).
    destruct (Z.leb_spec (blen out) (size - blen pend)) as [Hfit|Hfull].
    + rewrite (proj2 (Z.leb_le (blen pend + blen out) size)) by lia.
      destruct (IH (pend ++ out) (drop m (c :: l))) as (n & o & stop & Hg & Hn & Hb & Hc & Hx & Hlt & _ & Hdel);
        [done|blen|lia|].
      replace (size - blen pend - blen out) with (size - blen (pend ++ out)) by blen.
      rewrite Hg. exists (m + n)%nat, (out ++ o), stop. rewrite Hd in *. cbn [length] in *. split_and!.
      * do 2 f_equal. lia.
      * lia.
      * revert Hb. blen.
      * intros Hst. rewrite (Hc Hst). lia.
      * done.
      * intros Hst. specialize (Hlt Hst). lia.
      * lia.
      * rewrite delivered_fuel, Hd, Hdel by lia. unfold delivered_after. rewrite app_assoc, Hd, !drop_drop.
        replace (m + (n + 1))%nat with (m + n + 1)%nat by lia. cbn [length].
        replace (S (length l) - m - n)%nat with (S (length l) - (m + n))%nat by lia. done.
    + rewrite (proj2 (Z.leb_gt (blen pend + blen out) size)) by lia.
      exists 0%nat, [], E2BIG. cbn [length]. split_and!; try done; try lia.
      * cbn [blen length Z.of_nat]. unfold blen in *. cbn. lia.
      * intros _ ->. change (blen []) with 0 in Hfull. lia.
      * unfold delivered_after. rewrite app_nil_r, drop_0. cbn [length delivered]. rewrite E.
        rewrite (proj2 (Z.leb_le (blen [] + blen out) size)) by (unfold blen at 1; cbn; lia).
        cbn [app]. done.
  - exists 0%nat, [], EILSEQ. cbn [length]. split_and!; try done; try lia.
    + cbn. unfold blen in *. cbn. lia.
    + unfold delivered_after. by rewrite app_nil_r.
  - exists 0%nat, [], EINVAL. cbn [length]. split_and!; try done; try lia.
    + cbn. unfold blen in *. cbn. lia.
    + unfold delivered_after. by rewrite app_nil_r.
Qed.

(** What a call writes into the buffer, and the NUL after it. *)
Lemma write_chunk buffer out size : blen buffer = size + 1 -> blen out <= size ->
  exists b, wrn buffer 0 out = Done b /\ exists b', wr b (size - (size - blen out)) 0 = Done b' /\
    blen b' = size + 1 /\ rdn b' 0 (blen out) = Done out.
Proof.
  intros Hb Ho. set (k := length out).
  destruct (drop k buffer) as [|c post] eqn:Ed.
  { apply (f_equal length) in Ed. rewrite length_drop in Ed. cbn in Ed. subst k. unfold blen in *. lia. }
  assert (blen (take k buffer) = blen out) as Ht by (unfold blen in *; rewrite length_take; lia).
  assert (buffer = take k buffer ++ c :: post) as Hbuf by (by rewrite <- Ed, take_drop).
  exists (out ++ c :: post). split; [by apply (wrn_at buffer [] (take k buffer) (c :: post))|].
  exists (out ++ 0 :: post). split; [rewrite (wr_at _ out c post) by (done || lia); done|]. split.
  - rewrite Hbuf in Hb. revert Hb. blen.
  - by apply (rdn_at _ [] out (0 :: post)).
Qed.

Lemma delivered_legal size fuel : forall pend l, legal fuel l = true ->
  delivered size fuel pend l = (pend ++ (whole fuel l).1, (whole fuel l).2).
Proof.
  induction fuel as [|fuel IH]; intros pend l Hl; [by cbn; rewrite app_nil_r|].
  destruct l as [|c l]; [by cbn; rewrite app_nil_r|]. cbn [delivered whole legal] in *.
  destruct (char_of (c :: l)) as [n out| |]; [|done|cbn; by rewrite app_nil_r].
  destruct (blen pend + blen out <=? size); rewrite IH by done;
    destruct (whole fuel (drop n (c :: l))); cbn [fst snd]; by rewrite ?app_assoc.
Qed.

(** A handler that never stops the conversion, seen through [observe]: it does
    to the state what [act] does with the bytes. *)
Context {S T : Type} (h : convert_handler_t S) (observe : S -> T) (act : T -> list Z -> T).
Context (act_nil : forall t, act t [] = t) (act_app : forall t a b, act t (a ++ b) = act (act t a) b).
Context (h_ok : forall bs s, 0 <= (h bs s).1 /\ observe (h bs s).2 = act (observe s) bs).

Lemma convert_loop_delivers size len l : forall fuel rest buffer b oleft ret s,
  4 <= size -> blen buffer = size + 1 -> blen l < 2 ^ 64 -> (length l < fuel)%nat ->
  exists buffer' s', let '(o, k) := delivered size (length l) [] l in
    convert_loop iconv (Some h) fuel len buffer size b oleft (l ++ rest) (blen l) ret s =
      Done (if Nat.eqb k 0 then ret else len - Z.of_nat k, buffer', s') /\ observe s' = act (observe s) o.
Proof.
  induction l as [l IH] using (induction_ltof1 _ (@length Z)). intros fuel rest buffer b oleft ret s Hs Hb Hl Hf.
  destruct fuel as [|fuel]; [lia|]. cbn [convert_loop].
  destruct (Z.eqb_spec (blen l) 0) as [Hz|Hz].
  { destruct l; [|rewrite blen_cons in Hz; pose proof (blen_nonneg l); lia].
    exists buffer, s. cbn. by rewrite act_nil. }
  cbn [handled]. rewrite (rdn_at (l ++ rest) [] l rest 0 (blen l)) by done. cbn [mbind outcome_bind].
  rewrite iconv_greedy.
  destruct (greedy_delivered size (length l) [] l) as (n & out & stop & Hg & Hn & Hbo & Hc & Hx & Hlt & Hpr & Hdel);
    [done|unfold blen; cbn; lia|done|].
  change (blen []) with 0 in *. rewrite Z.sub_0_r in Hg. rewrite Hg. cbn [app] in Hdel. rewrite Hdel.
  destruct (write_chunk buffer out size Hb) as (m & -> & m' & Hm & Hm' & Hr); [lia|].
  cbn [mbind outcome_bind]. rewrite Hm. cbn [mbind outcome_bind andb].
  replace (drop (Z.to_nat (Z.of_nat n)) (l ++ rest)) with (drop n l ++ rest)
    by (rewrite Nat2Z.id, drop_app_le by lia; done).
  replace (blen l - Z.of_nat n) with (blen (drop n l)) by (unfold blen; rewrite length_drop; lia).
  assert (forall f l ret s, exists s1, observe s1 = act (observe s) out /\
    (if size - blen out <? size then
       bs ← rdn m' 0 (size - (size - blen out));
       let '(r, s) := call (Some h) bs s in
       if r <? 0 then Done (ret, m', s)
       else convert_loop iconv (Some h) fuel len m' size (0 + blen out) (size - blen out) f l ret s
     else convert_loop iconv (Some h) fuel len m' size (0 + blen out) (size - blen out) f l ret s) =
    convert_loop iconv (Some h) fuel len m' size (0 + blen out) (size - blen out) f l ret s1) as Hfin.
  { intros f' l' ret' s'. destruct (Z.ltb_spec (size - blen out) size).
    - replace (size - (size - blen out)) with (blen out) by lia. rewrite Hr. cbn [mbind outcome_bind call].
      pose proof (h_ok out s') as [H1 H2]. destruct (h out s') as [r s1]. cbn [fst snd] in *.
      rewrite (proj2 (Z.ltb_ge r 0)) by lia. by exists s1.
    - exists s'. assert (out = []) as -> by (destruct out; [done|rewrite blen_cons in *; pose proof (blen_nonneg out); lia]).
      by rewrite act_nil. }
  unfold delivered_after.
  destruct stop; [..|done].
  - destruct (Hfin (drop n l ++ rest) (blen (drop n l)) ret s) as (s1 & Hs1 & ->).
    rewrite (Hc eq_refl), drop_all.
    destruct fuel; [destruct l; [done|cbn in Hf; lia]|]. exists m', s1. by cbn.
  - destruct (Hfin (drop n l ++ rest) (blen (drop n l)) ret s) as (s1 & Hs1 & ->).
    specialize (Hpr eq_refl eq_refl). pose proof (length_drop l n).
    destruct (IH (drop n l)) with (fuel := fuel) (rest := rest) (buffer := m') (b := 0 + blen out)
      (oleft := size - blen out) (ret := ret) (s := s1) as (buffer' & s' & Hres);
      [unfold ltof; lia|done|done|unfold blen in *; lia|lia|].
    exists buffer', s'. destruct (delivered size _ [] (drop n l)) as [o k]. destruct Hres as [-> ->].
    by rewrite Hs1, act_app.
  - set (s0 := (call (Some h) [63] s).2). assert (observe s0 = act (observe s) [63]) as H0 by apply h_ok.
    assert (n < length l)%nat as Hn' by (by apply Hlt).
    rewrite drop_app_le by (rewrite length_drop; lia). rewrite drop_drop.
    pose proof (length_drop l n). pose proof (length_drop l (n + 1)).
    rewrite u64_id by (width; unfold blen in *; lia).
    replace (blen (drop n l) - 1) with (blen (drop (n + 1) l)) by (unfold blen; lia).
    destruct (Hfin (drop (n + 1) l ++ rest) (blen (drop (n + 1) l)) ret s0) as (s1 & Hs1 & ->).
    destruct (IH (drop (n + 1) l)) with (fuel := fuel) (rest := rest) (buffer := m') (b := 0 + blen out)
      (oleft := size - blen out) (ret := ret) (s := s1) as (buffer' & s' & Hres);
      [unfold ltof; lia|done|done|unfold blen in *; lia|lia|].
    exists buffer', s'. destruct (delivered size _ [] (drop (n + 1) l)) as [o k]. destruct Hres as [-> ->].
    rewrite Hs1, H0. split; [done|]. by rewrite <- !act_app.
  - destruct (Hfin (drop n l ++ rest) 0 (len - blen (drop n l)) s) as (s1 & Hs1 & ->).
    assert (n < length l)%nat by (by apply Hlt). destruct fuel; [lia|]. exists m', s1. cbn [convert_loop Z.eqb].
    destruct (Nat.eqb_spec (length l - n) 0); [lia|]. split; [|done].
    do 3 f_equal. unfold blen. by rewrite length_drop.
Qed.

Lemma convert_observed internal l rest s : blen internal = 1024 -> blen l < 2 ^ 64 - 1 ->
  exists ret buffer' s', convert iconv (Some h) internal (Some (l ++ rest)) (blen l) None 0 s =
      Done (ret, buffer', s') /\
    let '(o, k) := delivered 1023 (length l) [] l in
    observe s' = act (observe s) o /\ ret = (if Nat.eqb k 0 then 0 else blen l - Z.of_nat k) /\
    (legal (length l) l = true -> (o, k) = whole (length l) l).
Proof.
  intros Hi Hl. unfold convert. rewrite (proj2 (Z.eqb_neq (blen l) CONVERT_ALL)) by (unfold CONVERT_ALL; lia).
  cbn [mbind outcome_bind from_option id]. unfold id. change (1024 - 1) with 1023.
  pose proof (delivered_legal 1023 (length l) [] l) as Hlegal.
  destruct (Z.eqb_spec (blen l) 0) as [Hz|Hz].
  - destruct l; [|rewrite blen_cons in Hz; pose proof (blen_nonneg l); lia].
    destruct internal as [|c internal]; [done|]. exists 0, (0 :: internal), s. split; [done|]. cbn.
    by rewrite act_nil.
  - destruct (convert_loop_delivers 1023 (blen l) l (Z.to_nat (blen l) + 1) rest internal 0 1023 0 s)
      as (buffer' & s' & Hr); [lia|lia|lia|rewrite to_nat_blen; lia|].
    destruct (delivered 1023 (length l) [] l) as [o k]. destruct Hr as [Hr Ho]. rewrite Hr.
    eexists _, _, _. split; [done|]. split_and!; [done|done|]. intros Hle. rewrite (Hlegal Hle). cbn [app].
    by destruct (whole (length l) l).
Qed.
End Loop.

(** [convert] calls a handler that takes everything with the whole
    conversion of its input, however long, in order; it returns 0, or how many
    bytes come before a character that the end of the input cuts. The mark for
    an illegal byte is handed over before the text it follows. *)
Theorem convert_delivers `{Iconv} {S} (h : convert_handler_t S) (observe : S -> list Z) internal l rest s :
  (forall bs s, 0 <= (h bs s).1 /\ observe (h bs s).2 = observe s ++ bs) ->
  blen internal = 1024 -> blen l < 2 ^ 64 - 1 ->
  exists ret buffer' s', convert iconv (Some h) internal (Some (l ++ rest)) (blen l) None 0 s =
      Done (ret, buffer', s') /\
    let '(o, k) := delivered 1023 (length l) [] l in
    observe s' = observe s ++ o /\ ret = (if Nat.eqb k 0 then 0 else blen l - Z.of_nat k) /\
    (legal (length l) l = true -> (o, k) = whole (length l) l).
Proof.
  intros Hh. apply (convert_observed h observe app); [apply app_nil_r|apply app_assoc|done].
Qed.

(** * Witnesses *)

(** An encoding with bytes and pairs of bytes, the byte 255 in no character. *)
Definition pairs_char (l : list Z) : next_char :=
  match l with
  | c :: d :: _ => if c <? 128 then Char 1 [c] else if c =? 255 then Illegal else Char 2 [c; d]
  | [c] => if c <? 128 then Char 1 [c] else if c =? 255 then Illegal else Incomplete
  | [] => Incomplete
  end.

Definition pairs : Iconv.
Proof.
  refine {| iconv l room := greedy pairs_char (length l) l room; char_of := pairs_char |}; [done|].
  intros l n out Hl E. unfold pairs_char in E. destruct l as [|c [|d l]]; [done|..];
    repeat case_match; simplify_eq; unfold blen; cbn; lia.
Defined.

(** The handler that keeps what it is given. *)
Definition keep : convert_handler_t (list Z) := fun bs s => (0, s ++ bs).

Lemma keep_ok bs s : 0 <= (keep bs s).1 /\ id (keep bs s).2 = id s ++ bs.
Proof. done. Qed.

Lemma convert_delivers_witness :
  exists ret buffer' s', convert (@iconv pairs) (Some keep) (replicate 1024 0) (Some [97; 200; 201; 202]) 4 None 0 [] =
      Done (ret, buffer', s') /\ s' = [97; 200; 201] /\ ret = 3.
Proof.
  destruct (@convert_delivers pairs _ keep id (replicate 1024 0) [97; 200; 201; 202] [] []
    keep_ok eq_refl eq_refl) as (ret & buffer' & s' & Hr & Ho & Hk & _).
  exists ret, buffer', s'. split; [exact Hr|]. split; [exact Ho|exact Hk].
Defined.

(** ["ab"], an illegal byte, ["cd"]. *)
Example mark_before_text :
  (fun '(_, _, s) => s) <$> convert (@iconv pairs) (Some keep) (replicate 1024 0)
    (Some [97; 98; 255; 99; 100]) 5 None 0 [] = Done [63; 97; 98; 99; 100].
Proof. by vm_compute. Qed.

(** With no handler an illegal byte leaves no mark, and what does not fit is
    dropped although the result is 0. *)
Example buffer_too_small :
  convert (S := unit) (@iconv pairs) None [] (Some [97; 255; 98; 99]) 4 (Some [0; 0; 0]) 3 tt =
    Done (0, [97; 98; 0], tt).
Proof. by vm_compute. Qed.
