(* ===== verification/Screen.v ===== *)
(** The screen: [src/screen.c]. *)
From S2P Require Import Prelude CString Utf8 Terminal Convert.

Definition SCREEN_LINE_LEN : Z := 1019.
Definition MIN_SCREEN_LINES : Z := 24.
Definition MAX_SCREEN_LINES : Z := 100.
Definition WRAPMARGIN : Z := 255.

(** The escape sequences sent to the terminal. *)
Definition ANSI_CMD_CL : list Z := [27; 91; 72; 27; 91; 74].
Definition ANSI_CMD_CE : list Z := [27; 91; 75].
Definition ANSI_CMD_SR : list Z := [27; 77].

Record screen_line_t := Line { old_len : Z; len : Z; modified : bool; data : list Z }.

Record screen_t := Screen {
  buf : option (list screen_line_t);
  columns : Z;
  lines : Z;
  cur_ln : Z;
  cur_col : Z;
  tc_line : Z;
  tc_col : Z;
  roll : Z;
  scrollcnt : Z;
  redraw : bool;
  utf8 : bool;
}.

(** [static screen_t screen] before [screen_init]. *)
Definition screen0 : screen_t := Screen None 255 24 0 0 0 0 0 0 false false.

(** The screen, the terminal it writes to, the pending byte of
    [screen_put_gbk] and the buffers of [screen_save_line] and [saveline_buf]. *)
Record state := State {
  scr : screen_t;
  inp : input;
  outp : output;
  left : Z;
  saved : list Z;
  temp : list (list Z);
}.

Definition on_screen (f : screen_t -> screen_t) (s : state) : state :=
  State (f (scr s)) (inp s) (outp s) (left s) (saved s) (temp s).
Definition set_out (o : output) (s : state) : state :=
  State (scr s) (inp s) o (left s) (saved s) (temp s).
Definition set_left (c : Z) (s : state) : state :=
  State (scr s) (inp s) (outp s) c (saved s) (temp s).
Definition set_saved (m : list Z) (s : state) : state :=
  State (scr s) (inp s) (outp s) (left s) m (temp s).
Definition set_temp (t : list (list Z)) (s : state) : state :=
  State (scr s) (inp s) (outp s) (left s) (saved s) t.

Definition set_buf (b : list screen_line_t) (c : screen_t) : screen_t :=
  Screen (Some b) (columns c) (lines c) (cur_ln c) (cur_col c) (tc_line c) (tc_col c) (roll c)
    (scrollcnt c) (redraw c) (utf8 c).
Definition set_size (columns lines : Z) (c : screen_t) : screen_t :=
  Screen (buf c) columns lines (cur_ln c) (cur_col c) (tc_line c) (tc_col c) (roll c)
    (scrollcnt c) (redraw c) (utf8 c).
Definition set_cursor (ln col : Z) (c : screen_t) : screen_t :=
  Screen (buf c) (columns c) (lines c) ln col (tc_line c) (tc_col c) (roll c) (scrollcnt c) (redraw c) (utf8 c).
Definition set_tc (ln col : Z) (c : screen_t) : screen_t :=
  Screen (buf c) (columns c) (lines c) (cur_ln c) (cur_col c) ln col (roll c) (scrollcnt c) (redraw c) (utf8 c).
Definition set_roll (r : Z) (c : screen_t) : screen_t :=
  Screen (buf c) (columns c) (lines c) (cur_ln c) (cur_col c) (tc_line c) (tc_col c) r (scrollcnt c) (redraw c) (utf8 c).
Definition set_scrollcnt (n : Z) (c : screen_t) : screen_t :=
  Screen (buf c) (columns c) (lines c) (cur_ln c) (cur_col c) (tc_line c) (tc_col c) (roll c) n (redraw c) (utf8 c).
Definition set_redraw (b : bool) (c : screen_t) : screen_t :=
  Screen (buf c) (columns c) (lines c) (cur_ln c) (cur_col c) (tc_line c) (tc_col c) (roll c) (scrollcnt c) b (utf8 c).

Definition screen_lines (s : state) : Z := lines (scr s).

Fixpoint num_ans_loop (str : list Z) (ansi : bool) (ansinum : Z) : Z :=
  match str with
  | [] => ansinum
  | c :: str =>
      if c =? KEY_ESC then num_ans_loop str true (ansinum + 1)
      else if ansi then
        (* strchr also finds the NUL, which is not in [str] *)
        num_ans_loop str (existsb (Z.eqb c) [91; 48; 49; 50; 51; 52; 53; 54; 55; 56; 57; 59; 32]) (ansinum + 1)
      else num_ans_loop str ansi ansinum
  end.

Definition num_ans_chr (m : list Z) (str : Z) : outcome Z :=
  s ← cstring m str; Done (num_ans_loop s false 0).

(** [write_ok]: the client can be written to. [u2g], [g2u]: the two descriptors.
    [stack]: the buffer of [convert] on the stack. [fresh]: what allocated lines
    hold. [showansi]: the global variable. *)
Section Screen.
Context (write_ok : bool) (u2g g2u : list Z -> Z -> Z * list Z * iconv_stop) (stack : list Z).
Context (fresh : nat -> screen_line_t) (showansi : bool).

(** * Calls into the terminal *)

Definition putchar (ch : Z) (s : state) : outcome state :=
  o ← terminal_putchar write_ok (outp s) ch; Done (set_out o s).

Definition write_cached (str : list Z) (s : state) : outcome state :=
  o ← terminal_write_cached write_ok (outp s) str (blen str); Done (set_out o s).

Definition flush (s : state) : outcome state :=
  '(_, o) ← terminal_flush write_ok (outp s); Done (set_out o s).

(** [convert] with a handler that changes the state and may fail. *)
Definition convert_with (cd : list Z -> Z -> Z * list Z * iconv_stop)
    (handler : list Z -> state -> outcome state) (m : list Z) (len : Z) (s : state) : outcome state :=
  '(_, _, r) ← convert cd (Some (fun bs (r : outcome state) => (0, s ← r; handler bs s))) stack
                 (Some m) len None 0 (Done s);
  r.

(** * Initialisation *)

Definition screen_negotiate_size (s : state) : state :=
  let o := outp s in
  if write_ok then set_out (Output (optr o) (osize o) (sent o ++ [IAC; 253; TELOPT_NAWS])) s else s.

Definition screen_init (lns : Z) (s : state) : state :=
  let c := scr s in
  let cols := match buf c with None => WRAPMARGIN | Some _ => columns c end in
  let cols := if SCREEN_LINE_LEN <? cols then SCREEN_LINE_LEN else cols in
  let lns := if lns <? MIN_SCREEN_LINES then MIN_SCREEN_LINES else lns in
  let lns := if MAX_SCREEN_LINES <? lns then MAX_SCREEN_LINES else lns in
  let c := set_size cols (lines c) c in
  match buf c with
  | None =>
      let blank i := Line 0 0 false (data (fresh i)) in
      let c := set_buf (blank <$> seq 0 (Z.to_nat (lines c))) c in
      on_screen (fun _ => set_roll 0 (set_redraw true c)) s
  | Some b =>
      if lines c <? lns then
        let added := fresh <$> seq (length b) (Z.to_nat lns - length b) in
        on_screen (fun _ => set_size (columns c) lns (set_buf (b ++ added) c)) s
      else on_screen (fun _ => c) s
  end.

(** * The cursor of the terminal *)

Fixpoint putchars (l : list Z) (s : state) : outcome state :=
  match l with
  | [] => Done s
  | c :: l => s ← putchar (schar c) s; putchars l s
  end.

(** [snprintf] keeps 15 bytes. *)
Definition move_terminal_cursor_to (col line : Z) (s : state) : outcome state :=
  putchars (take 15 ([27; 91] ++ decimal (line + 1) ++ [59] ++ decimal (col + 1) ++ [72])) s.

Definition move_terminal_cursor (col line : Z) (s : state) : outcome state :=
  let c := scr s in
  if (lines c <=? line) || (columns c <=? col) then Done s
  else
    s ← (if (col =? 0) && (line =? tc_line c + 1) then
           s ← putchar 10 s;
           if negb (tc_col c =? 0) then putchar 13 s else Done s
         else if (col =? 0) && (line =? tc_line c) then
           if negb (tc_col c =? 0) then putchar 13 s else Done s
         else if (col =? tc_col c - 1) && (line =? tc_line c) then putchar (Ctrl 72) s
         else if negb (col =? tc_col c) || negb (line =? tc_line c) then move_terminal_cursor_to col line s
         else Done s);
    Done (on_screen (set_tc line col) s).

(** * Lines *)

(** The index in the array of lines; [%] truncates. *)
Definition line_index (c : screen_t) (line : Z) : Z := Z.rem (line + roll c) (lines c).

Definition line_at (s : state) (i : Z) : outcome screen_line_t :=
  match buf (scr s) with
  | None => Fault
  | Some b => if i <? 0 then Fault else match b !! Z.to_nat i with Some sl => Done sl | None => Fault end
  end.

Definition set_line (i : Z) (sl : screen_line_t) (s : state) : state :=
  match buf (scr s) with
  | None => s
  | Some b => on_screen (set_buf (<[Z.to_nat i := sl]> b)) s
  end.

Definition set_len (n : Z) (sl : screen_line_t) : screen_line_t := Line (old_len sl) (u16 n) (modified sl) (data sl).
Definition set_old_len (n : Z) (sl : screen_line_t) : screen_line_t := Line (u16 n) (len sl) (modified sl) (data sl).
Definition set_modified (b : bool) (sl : screen_line_t) : screen_line_t := Line (old_len sl) (len sl) b (data sl).
Definition set_data (d : list Z) (sl : screen_line_t) : screen_line_t := Line (old_len sl) (len sl) (modified sl) d.

(** [memset] of [n] spaces. *)
Definition pad (d : list Z) (p n : Z) : outcome (list Z) := wrn d p (replicate (Z.to_nat n) 32).

(** * Sending *)

Fixpoint write_raw (l : list Z) (s : state) : outcome state :=
  match l with
  | [] => Done s
  | c :: l =>
      s ← (if c =? 10 then putchar 13 s else Done s);
      s ← putchar (schar c) s;
      write_raw l s
  end.

Definition _write_helper (bs : list Z) (s : state) : outcome state :=
  match buf (scr s) with None => write_raw bs s | Some _ => write_cached bs s end.

Definition screen_write_cached (m : list Z) (len : Z) (u : bool) (s : state) : outcome state :=
  if u then bs ← rdn m 0 len; _write_helper bs s
  else convert_with u2g _write_helper m len s.

(** The line [i] of the loop of [screen_redraw]. *)
Definition redraw_line (i : Z) (s : state) : outcome state :=
  let j := line_index (scr s) i in
  sl ← line_at s j;
  if len sl =? 0 then Done s
  else
    s ← move_terminal_cursor 0 i s;
    s ← screen_write_cached (data sl) (len sl) (utf8 (scr s)) s;
    let c := scr s in
    let col := tc_col c + len sl in
    let col := if columns c <=? col then columns c - 1 else col in
    let s := on_screen (set_tc (tc_line c) col) s in
    Done (set_line j (set_old_len (len sl) (set_modified false sl)) s).

Fixpoint each_line (f : Z -> state -> outcome state) (idx : list Z) (s : state) : outcome state :=
  match idx with
  | [] => Done s
  | i :: idx => s ← f i s; each_line f idx s
  end.

Definition screen_redraw (s : state) : outcome state :=
  match buf (scr s) with
  | None => Done s
  | Some _ =>
      s ← write_cached ANSI_CMD_CL s;
      let s := on_screen (set_tc 0 0) s in
      s ← each_line redraw_line (seqZ 0 (lines (scr s))) s;
      s ← move_terminal_cursor (cur_col (scr s)) (cur_ln (scr s)) s;
      flush (on_screen (fun c => set_scrollcnt 0 (set_redraw false c)) s)
  end.

(** The line [i] of the loop of [screen_flush]. *)
Definition flush_line (i : Z) (s : state) : outcome state :=
  let j := line_index (scr s) i in
  sl ← line_at s j;
  '(sl, s) ← (if modified sl then
      let sl := set_modified false sl in
      s ← move_terminal_cursor 0 i s;
      s ← screen_write_cached (data sl) (len sl) (utf8 (scr s)) s;
      let c := scr s in
      Done (sl, on_screen (fun c =>
        if columns c <=? len sl then
          let ln := tc_line c + 1 in
          set_tc (if lines c <=? ln then lines c - 1 else ln) (len sl - columns c) c
        else set_tc (tc_line c) (len sl) c) s)
    else Done (sl, s));
  s ← (if len sl <? old_len sl then
         s ← move_terminal_cursor (len sl) i s; write_cached ANSI_CMD_CE s
       else Done s);
  Done (set_line j (set_old_len (len sl) sl) s).

(** [n] times. *)
Fixpoint repeat_op (n : nat) (f : state -> outcome state) (s : state) : outcome state :=
  match n with
  | O => Done s
  | S n => s ← f s; repeat_op n f s
  end.

Definition screen_flush (s : state) : outcome state :=
  match buf (scr s) with
  | None => flush s
  | Some _ =>
      empty ← terminal_input_buffer_empty (inp s);
      if negb empty then Done s
      else
        let c := scr s in
        if redraw c || (lines c - 3 <=? Z.abs (scrollcnt c)) then screen_redraw s
        else
          s ← (if scrollcnt c <? 0 then
                 s ← move_terminal_cursor 0 0 s;
                 s ← repeat_op (Z.to_nat (- scrollcnt c)) (write_cached ANSI_CMD_SR) s;
                 Done (on_screen (set_scrollcnt 0) s)
               else Done s);
          s ← (if 0 <? scrollcnt (scr s) then
                 s ← move_terminal_cursor 0 (lines (scr s) - 1) s;
                 s ← repeat_op (Z.to_nat (scrollcnt c)) (putchar 10) s;
                 Done (on_screen (set_scrollcnt 0) s)
               else Done s);
          s ← each_line flush_line (seqZ 0 (lines (scr s))) s;
          s ← move_terminal_cursor (cur_col (scr s)) (cur_ln (scr s)) s;
          flush s
  end.

(** * Changing the screen *)

Definition move (line col : Z) (s : state) : state :=
  on_screen (fun c => set_cursor (if line <? 0 then line + lines c else line) col c) s.

Definition screen_coordinates (s : state) : Z * Z := (cur_ln (scr s), cur_col (scr s)).

Definition screen_clear_line (line : Z) (s : state) : outcome state :=
  sl ← line_at s line;
  Done (set_line line (set_len 0 (set_modified false sl)) s).

Definition screen_clear (s : state) : outcome state :=
  match buf (scr s) with
  | None => Done s
  | Some _ =>
      let s := on_screen (fun c => set_redraw true (set_roll 0 c)) s in
      s ← each_line screen_clear_line (seqZ 0 (lines (scr s))) s;
      Done (move 0 0 s)
  end.

Definition clrtoeol (s : state) : outcome state :=
  let c := scr s in
  match buf c with
  | None =>
      s ← (if cur_col c =? 0 then putchar 13 s else Done s);
      write_cached ANSI_CMD_CE s
  | Some _ =>
      let j := line_index c (cur_ln c) in
      sl ← line_at s j;
      d ← (if len sl <? cur_col c then pad (data sl) (len sl) (cur_col c - len sl + 1) else Done (data sl));
      Done (set_line j (set_len (cur_col c) (set_data d sl)) s)
  end.

Definition screen_move_clear (line : Z) (s : state) : outcome state := clrtoeol (move line 0 s).

Definition clrtobot_line (i : Z) (s : state) : outcome state :=
  let j := line_index (scr s) i in
  sl ← line_at s j;
  Done (set_line j (set_old_len SCREEN_LINE_LEN (set_len 0 (set_modified false sl))) s).

Definition screen_clrtobot (s : state) : outcome state :=
  match buf (scr s) with
  | None => Done s
  | Some _ => each_line clrtobot_line (seqZ (cur_ln (scr s)) (lines (scr s) - cur_ln (scr s))) s
  end.

(** The line end written by [screen_puts] and [outc]. *)
Definition newline (j : Z) (s : state) : outcome state :=
  let c := scr s in
  sl ← line_at s j;
  d ← (if len sl <? cur_col c then pad (data sl) (len sl) (cur_col c - len sl + 1) else Done (data sl));
  let s := set_line j (set_len (cur_col c) (set_data d sl)) s in
  Done (on_screen (set_cursor (if cur_ln c <? lines c then cur_ln c + 1 else cur_ln c) 0) s).

(** One byte of [screen_puts], on the line at [j]. *)
Definition puts_byte (j ch : Z) (s : state) : outcome state :=
  if (ch =? 10) || (ch =? 13) then newline j s
  else
    let c := scr s in
    sl ← line_at s j;
    d ← (if len sl <? cur_col c then pad (data sl) (len sl) (cur_col c - len sl) else Done (data sl));
    d ← wr d (cur_col c) ch;
    let col := cur_col c + 1 in
    let sl := set_modified true (set_data d sl) in
    let sl := if len sl <? col then set_len col sl else sl in
    Done (on_screen (set_cursor (cur_ln c) col) (set_line j sl s)).

Fixpoint puts_loop (j : Z) (l : list Z) (s : state) : outcome state :=
  match l with
  | [] => Done s
  | ch :: l => s ← puts_byte j ch s; puts_loop j l s
  end.

Definition screen_puts (m : list Z) (size : Z) (s : state) : outcome state :=
  size ← (if size =? 0 then strlen m 0 else Done size);
  match buf (scr s) with
  | None => screen_write_cached m size (utf8 (scr s)) s
  | Some _ =>
      let j := line_index (scr s) (cur_ln (scr s)) in
      _ ← line_at s j;
      bs ← rdn m 0 size;
      puts_loop j bs s
  end.

Definition screen_putc (c : Z) (s : state) : outcome state := screen_puts [u8 c] 1 s.

Definition screen_put_gbk_helper (bs : list Z) (s : state) : outcome state := screen_puts bs (blen bs) s.

Definition screen_put_gbk (c : Z) (s : state) : outcome state :=
  if negb (left s =? 0) then
    s ← convert_with g2u screen_put_gbk_helper [u8 (left s); u8 c; 0] 3 s;
    Done (set_left 0 s)
  else if negb (Z.land c 128 =? 0) then Done (set_left c s)
  else screen_putc c s.

(** [outc] always returns 1. *)
Definition outc (c : Z) (s : state) : outcome state :=
  match buf (scr s) with
  | None =>
      '(c, s) ← (if isprint2 c then Done (c, s)
                 else if c =? 10 then s ← putchar 13 s; Done (c, s)
                 else Done (if negb (c =? KEY_ESC) || negb showansi then 42 else c, s));
      putchar c s
  | Some _ =>
      let j := line_index (scr s) (cur_ln (scr s)) in
      if negb (isprint2 c) && ((c =? 10) || (c =? 13)) then newline j s
      else
        let c := if negb (isprint2 c) && (negb (c =? KEY_ESC) || negb showansi) then 42 else c in
        s ← screen_put_gbk c s;
        let r := scr s in
        if columns r <=? cur_col r then
          Done (on_screen (set_cursor (if cur_ln r <? lines r then cur_ln r + 1 else cur_ln r) 0) s)
        else Done s
  end.

Fixpoint outs_loop (l : list Z) (s : state) : outcome state :=
  match l with
  | [] => Done s
  | c :: l => s ← outc (schar c) s; outs_loop l s
  end.

Definition outs (m : list Z) (s : state) : outcome state := str ← cstring m 0; outs_loop str s.

(** * Formatted output *)

Fixpoint display_width_loop (fuel : nat) (m : list Z) (ptr : Z) (utf8 ansi : bool) (width : Z) : outcome Z :=
  match fuel with
  | O => NoFuel
  | S fuel =>
      c ← rd m ptr;
      if c =? 0 then Done width
      else if ansi then display_width_loop fuel m (ptr + 1) utf8 (negb (isalpha (schar c))) width
      else if c =? 27 then display_width_loop fuel m (ptr + 1) utf8 true width
      else if utf8 then
        '(wc, ptr, _) ← next_wchar m ptr None;
        if wc =? WEOF then Done width
        else w ← fb_wcwidth wc; display_width_loop fuel m ptr utf8 ansi (u64 (width + w))
      else display_width_loop fuel m (ptr + 1) utf8 ansi (u64 (width + 1))
  end.

Definition screen_display_width (m : list Z) (utf8 : bool) : outcome Z :=
  display_width_loop (length m + 1) m 0 utf8 false 0.

(** [src/tui.c] *)
Definition tui_repeat_char (c repeat : Z) (s : state) : outcome state :=
  repeat_op (Z.to_nat repeat) (outc c) s.

Definition nullstr : list Z := [40; 110; 117; 108; 108; 41; 0].

Definition _print_string (ptr : option (list Z)) (width : Z) (utf8 left_adjust : bool) (s : state)
    : outcome state :=
  let m := default nullstr ptr in
  padding ← (if width =? 0 then Done 0
             else w ← screen_display_width m utf8; Done (if w <? width then width - w else 0));
  s ← (if negb (padding =? 0) && negb left_adjust then tui_repeat_char 32 (i32 padding) s else Done s);
  s ← (if utf8 then screen_puts m 0 s else convert_with g2u screen_put_gbk_helper m CONVERT_ALL s);
  if negb (padding =? 0) && left_adjust then tui_repeat_char 32 (i32 padding) s else Done s.

(** The part of [m] from [ptr] to [end]. *)
Definition _put_string (m : list Z) (ptr end_ : Z) (utf8 : bool) (s : state) : outcome state :=
  if ptr <? end_ then
    bs ← rdn m ptr (end_ - ptr);
    if utf8 then screen_puts bs (end_ - ptr) s
    else convert_with g2u screen_put_gbk_helper bs (end_ - ptr) s
  else Done s.

(** The variable arguments. *)
Inductive va := VaInt (n : Z) | VaLong (n : Z) | VaStr (p : option (list Z)).

Fixpoint width_loop (fuel : nat) (m : list Z) (fmt width : Z) : outcome (Z * Z) :=
  match fuel with
  | O => NoFuel
  | S fuel =>
      c ← rd m fmt;
      if isdigit c then width_loop fuel m (fmt + 1) (u64 (u64 (width * 10) + (c - 48)))
      else Done (fmt, width)
  end.

Fixpoint vprintf_loop (fuel : nat) (m : list Z) (ptr fmt : Z) (utf8 : bool) (ap : list va) (s : state)
    : outcome state :=
  match fuel with
  | O => NoFuel
  | S fuel =>
      c ← rd m fmt;
      if c =? 0 then _put_string m ptr fmt utf8 s
      else if c =? 37 then
        s ← _put_string m ptr fmt utf8 s;
        let fmt := fmt + 1 in
        c ← rd m fmt;
        let left_adjust := c =? 45 in
        let long_ := c =? 108 in
        let fmt := if left_adjust || long_ then fmt + 1 else fmt in
        '(fmt, width) ← width_loop (length m + 1) m fmt 0;
        c ← rd m fmt;
        let continue := vprintf_loop fuel m (fmt + 1) (fmt + 1) utf8 in
        if c =? 115 then
          match ap with
          | VaStr p :: ap => s ← _print_string p width utf8 left_adjust s; continue ap s
          | _ => Fault
          end
        else if c =? 100 then
          match ap, long_ with
          | VaLong n :: ap, true | VaInt n :: ap, false =>
              s ← _print_string (Some (decimal n ++ [0])) width true left_adjust s; continue ap s
          | _, _ => Fault
          end
        else if c =? 99 then
          match ap with
          | VaInt n :: ap => s ← screen_putc n s; continue ap s
          | _ => Fault
          end
        else if c =? 0 then Done s
        else s ← (if utf8 then screen_putc (schar c) s else screen_put_gbk (schar c) s); continue ap s
      else vprintf_loop fuel m ptr (fmt + 1) utf8 ap s
  end.

Definition screen_vprintf (m : list Z) (utf8 : bool) (ap : list va) (s : state) : outcome state :=
  vprintf_loop (length m + 1) m 0 0 utf8 ap s.

Definition screen_printf (m : list Z) (ap : list va) (s : state) : outcome state := screen_vprintf m true ap s.
Definition prints (m : list Z) (ap : list va) (s : state) : outcome state := screen_vprintf m false ap s.

(** * Scrolling and saving *)

Definition screen_scroll (s : state) : outcome state :=
  let c := scr s in
  let r := roll c + 1 in
  let r := if lines c <=? r then r - lines c else r in
  screen_move_clear (-1) (on_screen (fun c => set_roll r (set_scrollcnt (scrollcnt c + 1) c)) s).

Definition percent_s : list Z := [37; 115; 0].

Definition screen_save_line (line : Z) (save : bool) (s : state) : outcome state :=
  let line := if line <? 0 then line + lines (scr s) else line in
  if save then
    sl ← line_at s line;
    '(_, m) ← strlcpy (saved s) 0 (data sl) 0 (blen (saved s));
    Done (set_saved m s)
  else
    let '(x, y) := screen_coordinates s in
    s ← screen_move_clear line s;
    s ← prints percent_s [VaStr (Some (saved s))] s;
    screen_flush (move x y s).

(** [strncpy] into a whole row of [temp], which it fills with NULs. *)
Definition strncpy_line (src : list Z) : list Z :=
  match until_nul src with
  | Done str => str ++ replicate (Z.to_nat SCREEN_LINE_LEN - length str) 0
  | _ => src
  end.

Definition saveline_buf (line mode : Z) (s : state) : outcome state :=
  if mode =? 0 then
    sl ← line_at s line;
    row ← wr (strncpy_line (data sl)) (len sl) 0;
    if (0 <=? line) && (line <? Z.of_nat (length (temp s)))
    then Done (set_temp (<[Z.to_nat line := row]> (temp s)) s) else Fault
  else if mode =? 1 then
    let '(x, y) := screen_coordinates s in
    s ← screen_clear_line line (move line 0 s);
    row ← (if line <? 0 then Fault else match temp s !! Z.to_nat line with Some r => Done r | None => Fault end);
    s ← prints percent_s [VaStr (Some row)] s;
    Done (move x y s)
  else Done s.

End Screen.
