(* ===== verification/Xml.v ===== *)
(** Documents printed as XML or JSON: [fcgi/xml.c].

    The nodes are in a heap and refer to each other by address; what is printed
    is the list of its bytes. *)
From S2P Require Import Prelude Convert.

Definition XML_ATTR_TYPE_STRING : Z := 0.
Definition XML_ATTR_TYPE_INTEGER : Z := 1.
Definition XML_ATTR_TYPE_BIGINT : Z := 2.
Definition XML_ATTR_TYPE_BOOLEAN : Z := 3.
Definition XML_ATTR_AS_NODE : Z := 0x80.

Definition XML_NODE_CHILD_ARRAY : Z := 0x1.
Definition XML_NODE_ANONYMOUS : Z := 0x2.
Definition XML_NODE_ANONYMOUS_JSON : Z := 0x4.
Definition XML_NODE_PLAIN_JSON : Z := 0x8.

Definition XML_AS_XML : Z := 1.

Definition XML_ENCODING_UTF8 : Z := 0.
Definition XML_ENCODING_GBK : Z := 1.

(** The member of the union that was set; strings are the bytes before their
    NUL, [None] a null pointer. *)
Inductive value_t :=
| VStr (str : option (list Z))
| VInt (integer : Z)
| VBig (bigint : Z)
| VBool (boolean : bool).

Record xml_attr_t := Attr { attr_type : Z; attr_name : option (list Z); value : value_t }.

Record xml_node_t := Node {
  node_type : Z;
  node_name : option (list Z);
  attr : list xml_attr_t;
  child : list nat;
}.

Record xml_document_t := Doc { encoding : Z; root : option nat }.

Definition heap := list xml_node_t.

(** * Building *)

Definition xml_new_doc : xml_document_t := Doc XML_ENCODING_UTF8 None.

Definition xml_set_encoding (doc : xml_document_t) (enc : Z) : xml_document_t := Doc enc (root doc).

Definition xml_set_doc_root (doc : xml_document_t) (r : nat) : xml_document_t := Doc (encoding doc) (Some r).

Definition xml_new_node (h : heap) (name : option (list Z)) (type : Z) : nat * heap :=
  (length h, h ++ [Node type name [] []]).

Definition xml_add_child (h : heap) (parent c : nat) : outcome (nat * heap) :=
  match h !! parent with
  | Some n => Done (c, <[parent := Node (node_type n) (node_name n) (attr n) (child n ++ [c])]> h)
  | None => Fault
  end.

Definition xml_new_child (h : heap) (parent : nat) (name : option (list Z)) (type : Z) : outcome (nat * heap) :=
  let '(c, h) := xml_new_node h name type in xml_add_child h parent c.

Definition xml_add_attr (h : heap) (node : nat) (a : xml_attr_t) : outcome heap :=
  match h !! node with
  | Some n => Done (<[node := Node (node_type n) (node_name n) (attr n ++ [a]) (child n)]> h)
  | None => Fault
  end.

Definition XML_ATTR_HELPER (h : heap) (node : nat) (name : option (list Z)) (type : Z) (as_node : bool)
    (v : value_t) : outcome heap :=
  xml_add_attr h node (Attr (Z.lor type (if as_node then XML_ATTR_AS_NODE else 0)) name v).

(** [pstrdup] copies the string, which must be one. *)
Definition xml_attr_string (h : heap) (node : nat) (name : option (list Z)) (m : list Z) (p : Z)
    (as_node : bool) : outcome heap :=
  s ← cstring m p;
  XML_ATTR_HELPER h node name XML_ATTR_TYPE_STRING as_node (VStr (Some s)).

Definition xml_attr_integer (h : heap) (node : nat) (name : option (list Z)) (n : Z) : outcome heap :=
  XML_ATTR_HELPER h node name XML_ATTR_TYPE_INTEGER false (VInt n).

Definition xml_attr_bigint (h : heap) (node : nat) (name : option (list Z)) (n : Z) : outcome heap :=
  XML_ATTR_HELPER h node name XML_ATTR_TYPE_BIGINT false (VBig n).

Definition xml_attr_boolean (h : heap) (node : nat) (name : option (list Z)) (b : bool) : outcome heap :=
  XML_ATTR_HELPER h node name XML_ATTR_TYPE_BOOLEAN false (VBool b).

Definition real_type (a : xml_attr_t) : Z := Z.land (attr_type a) 0x7f.

(** * Printing *)

(** [printf] of a name with [%s]. *)
Definition print_name (n : option (list Z)) : outcome (list Z) :=
  match n with Some s => Done s | None => Fault end.

Section Print.
Context (u2g : list Z -> Z -> Z * list Z * iconv_stop) (stack : list Z).

Definition print_xml_string (s : list Z) : list Z :=
  filter (fun c =>
    negb ((0 <=? schar c) && (schar c <? 32) && negb (c =? 9) && negb (c =? 13) && negb (c =? 10))) s.

(** [convert] of a whole string, printing with the handler. *)
Definition convert_string (handler : convert_handler_t (list Z)) (s : list Z) : outcome (list Z) :=
  '(_, _, out) ← convert u2g (Some handler) stack (Some (s ++ [0])) CONVERT_ALL None 0 [];
  Done out.

(** The number of bytes written is never negative. *)
Definition xml_string_helper : convert_handler_t (list Z) := fun bs out => (blen bs, out ++ bs).

Definition _xml_attr_print (a : xml_attr_t) (enc : Z) : outcome (list Z) :=
  let t := real_type a in
  if t =? XML_ATTR_TYPE_INTEGER then
    match value a with VInt n => Done (decimal n) | _ => Fault end
  else if t =? XML_ATTR_TYPE_BIGINT then
    match value a with VBig n => Done (decimal n) | _ => Fault end
  else if t =? XML_ATTR_TYPE_BOOLEAN then
    match value a with VBool b => Done (if b then bytes "1" else []) | _ => Fault end
  else
    match value a with
    | VStr (Some s) =>
        if enc =? XML_ENCODING_UTF8 then Done (print_xml_string s) else convert_string xml_string_helper s
    | _ => Fault
    end.

Definition xml_attr_print (a : xml_attr_t) (enc : Z) : outcome (list Z) :=
  shown ← (if negb (real_type a =? XML_ATTR_TYPE_BOOLEAN) then Done true
           else match value a with VBool b => Done b | _ => Fault end);
  if (shown : bool) then
    name ← print_name (attr_name a);
    v ← _xml_attr_print a enc;
    Done (bytes " " ++ name ++ bytes "='" ++ v ++ bytes "'")
  else Done [].

Definition anonymous (n : xml_node_t) : bool := negb (Z.land (node_type n) XML_NODE_ANONYMOUS =? 0).

(** What a loop over a list prints. *)
Fixpoint print_each {A} (f : A -> outcome (list Z)) (l : list A) : outcome (list Z) :=
  match l with
  | [] => Done []
  | a :: l => x ← f a; y ← print_each f l; Done (x ++ y)
  end.

Definition as_node (a : xml_attr_t) : bool := negb (Z.land (attr_type a) XML_ATTR_AS_NODE =? 0).

Definition print_attr_node (enc : Z) (a : xml_attr_t) : outcome (list Z) :=
  if as_node a then
    v ← _xml_attr_print a enc;
    Done (match attr_name a with Some s => bytes "<" ++ s ++ bytes ">" | None => [] end ++ v ++
          match attr_name a with Some s => bytes "</" ++ s ++ bytes ">" | None => [] end)
  else Done [].

(** Nodes do not contain themselves, so their number bounds the depth. *)
Fixpoint _print_as_xml (fuel : nat) (h : heap) (enc : Z) (id : nat) : outcome (list Z) :=
  match fuel with
  | O => NoFuel
  | S fuel =>
      match h !! id with
      | None => Fault
      | Some n =>
          if anonymous n then print_each (_print_as_xml fuel h enc) (child n)
          else
            name ← print_name (node_name n);
            let attr_as_node := existsb as_node (attr n) in
            attrs ← print_each (fun a => if as_node a then Done [] else xml_attr_print a enc) (attr n);
            if negb attr_as_node && match child n with [] => true | _ => false end
            then Done (bytes "<" ++ name ++ attrs ++ bytes "/>")
            else
              nodes ← (if attr_as_node then print_each (print_attr_node enc) (attr n) else Done []);
              children ← print_each (_print_as_xml fuel h enc) (child n);
              Done (bytes "<" ++ name ++ attrs ++ bytes ">" ++ nodes ++ children ++
                    bytes "</" ++ name ++ bytes ">")
      end
  end.

Definition quote : Z := 34.
Definition backslash : Z := 92.

(** [printf("%02x")] of a number below 32. *)
Definition hex_digit (d : Z) : Z := if d <? 10 then 48 + d else 87 + d.
Definition hex2 (c : Z) : list Z := [hex_digit (c / 16); hex_digit (c mod 16)].

Definition json_char (c : Z) : list Z :=
  if c =? quote then [backslash; quote]
  else if c =? backslash then [backslash; backslash]
  else if (0 <=? schar c) && (schar c <=? 31) then [backslash] ++ bytes "u00" ++ hex2 c
  else [c].

Definition _json_string (s : list Z) : list Z := mjoin (json_char <$> s).

(** The buffer is read up to its first NUL. *)
Definition json_string_helper : convert_handler_t (list Z) := fun bs out =>
  (0, out ++ _json_string (match until_nul (bs ++ [0]) with Done s => s | _ => [] end)).

Definition json_string (s : option (list Z)) (enc : Z) : outcome (list Z) :=
  match s with
  | None => Done (bytes "null")
  | Some s =>
      body ← (if enc =? XML_ENCODING_UTF8 then Done (_json_string s) else convert_string json_string_helper s);
      Done ([quote] ++ body ++ [quote])
  end.

Definition json_print_attr (a : xml_attr_t) (enc : Z) : outcome (list Z) :=
  name ← match attr_name a with
         | Some s => n ← json_string (Some s) enc; Done (n ++ bytes ":")
         | None => Done []
         end;
  let t := real_type a in
  v ← (if t =? XML_ATTR_TYPE_INTEGER then match value a with VInt n => Done (decimal n) | _ => Fault end
       else if t =? XML_ATTR_TYPE_BIGINT then match value a with VBig n => Done (decimal n) | _ => Fault end
       else if t =? XML_ATTR_TYPE_BOOLEAN then
         match value a with VBool b => Done (if b then bytes "true" else bytes "false") | _ => Fault end
       else match value a with VStr s => json_string s enc | _ => Fault end);
  Done (name ++ v).

(** The attributes, a comma after each that something follows. *)
Fixpoint json_attrs (enc : Z) (more : bool) (l : list xml_attr_t) : outcome (list Z) :=
  match l with
  | [] => Done []
  | a :: l =>
      x ← json_print_attr a enc;
      y ← json_attrs enc more l;
      Done (x ++ (if match l with [] => more | _ => true end then bytes "," else []) ++ y)
  end.

Fixpoint json_children (f : nat -> outcome (list Z)) (l : list nat) : outcome (list Z) :=
  match l with
  | [] => Done []
  | c :: l =>
      x ← f c;
      y ← json_children f l;
      Done (x ++ match l with [] => [] | _ => bytes "," end ++ y)
  end.

Definition has (n : xml_node_t) (flag : Z) : bool := negb (Z.land (node_type n) flag =? 0).

Fixpoint _print_as_json (fuel : nat) (h : heap) (enc : Z) (id : nat) : outcome (list Z) :=
  match fuel with
  | O => NoFuel
  | S fuel =>
      match h !! id with
      | None => Fault
      | Some n =>
          name ← (if negb (has n XML_NODE_ANONYMOUS_JSON)
                  then s ← json_string (node_name n) enc; Done (s ++ bytes ":")
                  else Done []);
          let array := has n XML_NODE_CHILD_ARRAY in
          let plain := has n XML_NODE_PLAIN_JSON in
          attrs ← json_attrs enc (match child n with [] => false | _ => true end) (attr n);
          children ← json_children (_print_as_json fuel h enc) (child n);
          Done (name ++ (if plain then [] else if array then bytes "[" else bytes "{") ++ attrs ++ children ++
                (if plain then [] else if array then bytes "]" else bytes "}"))
      end
  end.

Definition xml_declaration : list Z :=
  bytes "<?xml version=" ++ [quote] ++ bytes "1.0" ++ [quote] ++ bytes " encoding=" ++ [quote] ++
  bytes "utf-8" ++ [quote] ++ bytes "?>" ++ [10].

Definition print_as_xml (h : heap) (doc : xml_document_t) : outcome (list Z) :=
  match root doc with
  | None => Fault
  | Some r => x ← _print_as_xml (length h + 1) h (encoding doc) r; Done (xml_declaration ++ x)
  end.

Definition print_as_json (h : heap) (doc : xml_document_t) : outcome (list Z) :=
  match root doc with
  | None => Fault
  | Some r => _print_as_json (length h + 1) h (encoding doc) r
  end.

Definition xml_dump (h : heap) (doc : xml_document_t) (type : Z) : outcome (list Z) :=
  if type =? XML_AS_XML then print_as_xml h doc else print_as_json h doc.

End Print.
