(* ===== verification/Web.v ===== *)
(** Requests and responses of the web front end: [fcgi/web.c]. *)
From S2P Require Import Prelude CString Xml.

Definition MAX_PARAMETERS : Z := 32.
Definition MAX_CONTENT_LENGTH : Z := 1024 * 1024.

Definition WEB_REQUEST_API : Z := 1.
Definition WEB_REQUEST_PARSED : Z := Z.shiftl 1 1.
Definition WEB_REQUEST_MOBILE : Z := Z.shiftl 1 2.
Definition WEB_REQUEST_UTF8 : Z := Z.shiftl 1 3.
Definition WEB_REQUEST_XML : Z := Z.shiftl 1 4.
Definition WEB_REQUEST_JSON : Z := Z.shiftl 1 5.
Definition WEB_REQUEST_XHR : Z := Z.shiftl 1 6.

Inductive web_request_method_e :=
| WEB_REQUEST_METHOD_GET | WEB_REQUEST_METHOD_POST | WEB_REQUEST_METHOD_PUT | WEB_REQUEST_METHOD_DELETE.

Definition RESPONSE_DEFAULT : Z := 0.
Definition RESPONSE_HTML : Z := 1.
Definition RESPONSE_XML : Z := 2.
Definition RESPONSE_JSON : Z := 3.

(** [pair_t]: a memory, where the key is in it and where the value is, or [None]
    for the literal empty string. *)
Record pair_t := Pair { memory : list Z; key : option Z; val : option Z }.

(** [http_req_t]; [count] is the number of [params]. *)
Record http_req_t := Req { params : list pair_t; from : list Z; flag : Z; method : web_request_method_e }.

Definition count (r : http_req_t) : Z := Z.of_nat (length (params r)).

Definition set_params (p : list pair_t) (r : http_req_t) : http_req_t := Req p (from r) (flag r) (method r).

(** * Decoding *)

Definition _hex2dec (c : Z) : Z :=
  let c := toupper c in
  if (48 <=? c) && (c <=? 57) then c - 48
  else if (65 <=? c) && (c <=? 70) then c - 55
  else 0.

Fixpoint url_loop (fuel : nat) (m : list Z) (f t : Z) : outcome (list Z) :=
  match fuel with
  | O => NoFuel
  | S fuel =>
      c ← rd m f;
      if c =? 0 then wr m t 0
      else if c =? 43 then m ← wr m t 32; url_loop fuel m (f + 1) (t + 1)
      else if c =? 37 then
        a ← rd m (f + 1);
        if a =? 0 then wr m t 0
        else
          b ← rd m (f + 2);
          if b =? 0 then wr m t 0
          else m ← wr m t (_hex2dec (schar a) * 16 + _hex2dec (schar b)); url_loop fuel m (f + 3) (t + 1)
      else m ← wr m t c; url_loop fuel m (f + 1) (t + 1)
  end.

Definition _url_decode (m : list Z) (s : Z) : outcome (list Z) := url_loop (length m + 1) m s s.

(** * Parameters *)

(** [alloc]: what [palloc] returns. [getenv]: the environment. *)
Section Web.
Context (alloc : Z -> option (list Z)) (getenv : list Z -> option (list Z)).

Definition _get_server_env (k : list Z) : list Z := default [0] (getenv k).

(** [str] is an offset in [ms]. *)
Definition _parse_param (req : http_req_t) (ms : list Z) (str len : Z) : outcome (Z * http_req_t) :=
  if len =? 0 then Done (0, req)
  else
    match alloc (u64 (len + 1)) with
    | None => Done (-1, req)
    | Some m =>
        '(_, m) ← strlcpy m 0 ms str (u64 (len + 1));
        v ← strchr m 0 61;
        '(m, val) ← match v with
                    | Some v => m ← wr m v 0; m ← _url_decode m (v + 1); Done (m, Some (v + 1))
                    | None => Done (m, None)
                    end;
        '(key, m) ← trim m (Some 0);
        if count req <? MAX_PARAMETERS then Done (0, set_params (params req ++ [Pair m key val]) req)
        else Fault
    end.

Fixpoint params_loop (fuel : nat) (req : http_req_t) (m : list Z) (last : Z) (ptr : option Z) (delim : Z)
    : outcome (Z * http_req_t) :=
  match fuel with
  | O => NoFuel
  | S fuel =>
      match ptr with
      | Some ptr =>
          '(r, req) ← _parse_param req m last (ptr - last);
          if negb (r =? 0) then Done (-1, req)
          else
            let last := ptr + 1 in
            ptr ← strchr m last delim;
            params_loop fuel req m last ptr delim
      | None =>
          n ← strlen m last;
          '(r, req) ← _parse_param req m last n;
          Done (if r <? 0 then -1 else 0, req)
      end
  end.

Definition _parse_params (req : http_req_t) (m : list Z) (str delim : Z) : outcome (Z * http_req_t) :=
  ptr ← strchr m str delim;
  params_loop (length m + 1) req m str ptr delim.

Definition _parse_http_req (req : http_req_t) : outcome (Z * http_req_t) :=
  '(r, req) ← _parse_params req (_get_server_env (bytes "QUERY_STRING")) 0 38;
  if r <? 0 then Done (-1, req)
  else
    '(r, req) ← _parse_params req (_get_server_env (bytes "HTTP_COOKIE")) 0 59;
    Done (if r <? 0 then -1 else 0, req).

(** The value found: a string and where it starts, the empty one if none is. *)
Fixpoint get_param_loop (ps : list pair_t) (mk : list Z) (k : Z) : outcome (list Z * Z) :=
  match ps with
  | [] => Done ([0], 0)
  | p :: ps =>
      match key p with
      | None => Fault
      | Some pk =>
          eq ← streq (memory p) pk mk k;
          if (eq : bool) then Done (match val p with Some v => (memory p, v) | None => ([0], 0) end)
          else get_param_loop ps mk k
      end
  end.

Definition web_get_param (r : http_req_t) (mk : list Z) (k : Z) : outcome (list Z * Z) :=
  get_param_loop (params r) mk k.

Definition web_get_param_pair (r : http_req_t) (idx : Z) : option pair_t :=
  if (0 <=? idx) && (idx <? count r) then params r !! Z.to_nat idx else None.

Definition ends_with (m : list Z) (s : Z) (mp : list Z) (pattern : Z) : outcome bool :=
  len_s ← strlen m s;
  len_p ← strlen mp pattern;
  if len_p <=? len_s then
    a ← rdn m (s + len_s - len_p) len_p;
    b ← rdn mp pattern len_p;
    Done (bool_decide (a = b))
  else Done false.

Definition option_pairs : list (list Z * Z) := [
  (bytes "api" ++ [0], WEB_REQUEST_API);
  (bytes "new" ++ [0], WEB_REQUEST_PARSED);
  (bytes "mob" ++ [0], WEB_REQUEST_MOBILE);
  (bytes "utf8" ++ [0], WEB_REQUEST_UTF8)].

Fixpoint options_loop (r : http_req_t) (pairs : list (list Z * Z)) (fl : Z) : outcome Z :=
  match pairs with
  | [] => Done fl
  | (param, f) :: pairs =>
      '(m, p) ← web_get_param r param 0;
      c ← rd m p;
      options_loop r pairs (if c =? 49 then Z.lor fl f else fl)
  end.

Definition get_global_options (r : http_req_t) : outcome http_req_t :=
  fl ← options_loop r option_pairs 0;
  fl ← match getenv (bytes "SCRIPT_NAME") with
       | None => Done fl
       | Some name =>
           x ← ends_with name 0 (bytes ".xml" ++ [0]) 0;
           let fl := if (x : bool) then Z.lor fl (Z.lor WEB_REQUEST_XML WEB_REQUEST_API) else fl in
           j ← ends_with name 0 (bytes ".json" ++ [0]) 0;
           Done (if (j : bool) then Z.lor fl (Z.lor WEB_REQUEST_JSON WEB_REQUEST_API) else fl)
       end;
  let fl := if negb (Z.land fl WEB_REQUEST_API =? 0) then Z.lor fl WEB_REQUEST_UTF8 else fl in
  fl ← match getenv (bytes "HTTP_X_REQUESTED_WITH") with
       | None => Done fl
       | Some h =>
           x ← streq h 0 (bytes "XMLHttpRequest" ++ [0]) 0;
           Done (if (x : bool) then Z.lor fl WEB_REQUEST_XHR else fl)
       end;
  Done (Req (params r) (from r) fl (method r)).

Definition _web_request_type (r : http_req_t) (type : Z) : bool := negb (Z.land (flag r) type =? 0).

Definition parse_request_method : outcome web_request_method_e :=
  let m := _get_server_env (bytes "REQUEST_METHOD") in
  get ← streq m 0 (bytes "GET" ++ [0]) 0;
  if (get : bool) then Done WEB_REQUEST_METHOD_GET
  else post ← streq m 0 (bytes "POST" ++ [0]) 0;
  if (post : bool) then Done WEB_REQUEST_METHOD_POST
  else put ← streq m 0 (bytes "PUT" ++ [0]) 0;
  if (put : bool) then Done WEB_REQUEST_METHOD_PUT
  else delete ← streq m 0 (bytes "DELETE" ++ [0]) 0;
  if (delete : bool) then Done WEB_REQUEST_METHOD_DELETE
  else Done WEB_REQUEST_METHOD_GET.

Definition parse_web_request (r : http_req_t) : outcome (bool * http_req_t) :=
  '(res, r) ← _parse_http_req (set_params [] r);
  if negb (res =? 0) then Done (false, r)
  else
    m ← parse_request_method;
    r ← get_global_options (Req (params r) (_get_server_env (bytes "REMOTE_ADDR")) (flag r) m);
    Done (true, r).

Definition _web_request_method (r : http_req_t) (m : web_request_method_e) : bool :=
  match method r, m with
  | WEB_REQUEST_METHOD_GET, WEB_REQUEST_METHOD_GET | WEB_REQUEST_METHOD_POST, WEB_REQUEST_METHOD_POST
  | WEB_REQUEST_METHOD_PUT, WEB_REQUEST_METHOD_PUT | WEB_REQUEST_METHOD_DELETE, WEB_REQUEST_METHOD_DELETE => true
  | _, _ => false
  end.

(** [strtoul(s, NULL, 10)]: blanks, a sign, digits; the value saturates. *)
Fixpoint strtoul_digits (l : list Z) (acc : Z) : Z :=
  match l with
  | c :: l => if isdigit c then strtoul_digits l (acc * 10 + (c - 48)) else acc
  | [] => acc
  end.

Fixpoint skip_space (l : list Z) : list Z :=
  match l with c :: l' => if isspace c then skip_space l' else l | [] => [] end.

Definition strtoul (s : list Z) : Z :=
  let '(neg, l) := match skip_space s with
                   | 45 :: l => (true, l)
                   | 43 :: l => (false, l)
                   | l => (false, l)
                   end in
  let v := strtoul_digits l 0 in
  if 2 ^ 64 <=? v then 2 ^ 64 - 1 else if neg then u64 (- v) else v.

(** [input]: what the server sends; [fread] of one item of [size] bytes. *)
Definition parse_post_data (r : http_req_t) (input : list Z) : outcome (Z * http_req_t) :=
  s ← cstring (_get_server_env (bytes "CONTENT_LENGTH")) 0;
  let size := strtoul s in
  if size =? 0 then Done (0, r)
  else
    let size := if MAX_CONTENT_LENGTH <? size then MAX_CONTENT_LENGTH else size in
    match alloc (size + 1) with
    | None => Done (-1, r)
    | Some buf =>
        if blen input <? size then Done (-1, r)
        else
          buf ← wrn buf 0 (take (Z.to_nat size) input);
          buf ← wr buf size 0;
          '(_, r) ← _parse_params r buf 0 38;
          Done (0, r)
    end.

(** * Responses *)

(** The text [xml_print] writes instead of a character. *)
Definition xml_subst (c : Z) : option (list Z) :=
  if c =? 60 then Some (bytes "&lt;")
  else if c =? 62 then Some (bytes "&gt;")
  else if c =? 38 then Some (bytes "&amp;")
  else if (c =? 27) || (c =? 13) then Some []
  else None.

(** [last] and [c] are offsets; the text written is the result. *)
Fixpoint xml_print_loop (fuel : nat) (m : list Z) (c last : Z) : outcome (list Z) :=
  match fuel with
  | O => NoFuel
  | S fuel =>
      x ← rd m c;
      if x =? 0 then rdn m last (c - last)
      else
        match xml_subst x with
        | Some subst =>
            a ← rdn m last (c - last);
            b ← xml_print_loop fuel m (c + 1) (c + 1);
            Done (a ++ subst ++ b)
        | None => xml_print_loop fuel m (c + 1) last
        end
  end.

Definition xml_print (m : list Z) (s : Z) : outcome (list Z) := xml_print_loop (length m + 1) m s s.

(** [ctx.resp] and the nodes of its document. *)
Record http_response_t := Resp { type : Z; doc : xml_document_t; nodes : heap }.

Definition set_response_type (r : http_response_t) (t : Z) : http_response_t := Resp t (doc r) (nodes r).

Definition set_response_root (r : http_response_t) (name : option (list Z)) (t enc : Z) : nat * http_response_t :=
  let '(n, h) := xml_new_node (nodes r) name t in
  (n, Resp (type r) (xml_set_encoding (xml_set_doc_root (doc r) n) enc) h).

Definition response_type (req : http_req_t) (r : http_response_t) : Z :=
  if type r =? RESPONSE_DEFAULT
  then if _web_request_type req WEB_REQUEST_JSON then RESPONSE_JSON else RESPONSE_XML
  else type r.

Definition content_type (t : Z) : list Z :=
  if t =? RESPONSE_HTML then bytes "text/html"
  else if t =? RESPONSE_JSON then bytes "application/json"
  else bytes "text/xml".

Definition WEB_OK : Z := 1.
Definition WEB_ERROR_METHOD_NOT_ALLOWED : Z := 9.

Record error_msg_t := Err { code : Z; status : Z; msg : list Z }.

Definition error_msgs : list error_msg_t := [
  Err 2 200 (bytes "success");
  Err 3 403 (bytes "incorrect username or password");
  Err 4 403 (bytes "permission denied");
  Err 5 400 (bytes "bad request");
  Err 6 500 (bytes "internal error");
  Err 7 403 (bytes "login required");
  Err 8 404 (bytes "board not found");
  Err 9 405 (bytes "method not allowed")].

Definition error_msg (r : http_response_t) (c : Z) : outcome (Z * http_response_t) :=
  let '(node, r) := set_response_root r (Some (bytes "bbs_error")) XML_NODE_ANONYMOUS_JSON XML_ENCODING_UTF8 in
  let i := if (0 <? c) && (c <=? Z.of_nat (length error_msgs)) then c - 2 else 0 in
  if i <? 0 then Fault
  else
    match error_msgs !! Z.to_nat i with
    | None => Fault
    | Some e =>
        h ← xml_attr_string (nodes r) node (Some (bytes "msg")) (msg e ++ [0]) 0 false;
        h ← xml_attr_integer h node (Some (bytes "code")) (code e + 10000);
        Done (status e, Resp (type r) (doc r) h)
    end.

(** The bytes of the response. *)
Definition web_respond (u2g : list Z -> Z -> Z * list Z * Convert.iconv_stop) (stack : list Z)
    (req : http_req_t) (r : http_response_t) (c : Z) : outcome (list Z) :=
  '(st, r) ← (if negb (c =? WEB_OK) then error_msg r c else Done (200, r));
  let t := response_type req r in
  body ← xml_dump u2g stack (nodes r) (doc r) (if t =? RESPONSE_JSON then 0 else XML_AS_XML);
  Done (bytes "Content-type: " ++ content_type t ++ bytes ";  charset=utf-8" ++ [10] ++
        bytes "Status: " ++ decimal st ++ [10; 10] ++ body).

End Web.

(** * URL encoding *)

Lemma hex2dec_value c v : hex_value c = Some v -> _hex2dec (schar c) = v /\ 0 < c < 128 /\ 0 <= v < 16.
Proof.
  unfold hex_value, isdigit. intros Hc.
  assert (0 < c < 128 /\ 0 <= v < 16) as [Hr Hv] by (repeat case_match; simplify_eq; zprop H; lia).
  split; [|done]. rewrite schar_ascii by lia. unfold _hex2dec, toupper, islower.
  repeat case_match; simplify_eq;
    repeat match goal with H : _ = true |- _ => zprop H | H : _ = false |- _ => zprop H end; lia.
Qed.

(** [spelled special v e]: the text [e] is a way to write the value [v], which
    has none of the [special] characters: a blank as [+], a byte as itself or as
    a percent sign and two digits of either case. *)
Inductive spelled (special : Z -> Prop) : list Z -> list Z -> Prop :=
| spelled_nil : spelled special [] []
| spelled_char c v e : 0 < c < 256 -> c <> 43 -> c <> 37 -> ~ special c ->
    spelled special v e -> spelled special (c :: v) (c :: e)
| spelled_blank v e : ~ special 43 -> spelled special v e -> spelled special (32 :: v) (43 :: e)
| spelled_hex a b x y v e : hex_value a = Some x -> hex_value b = Some y -> 0 < x * 16 + y ->
    ~ special 37 -> ~ special a -> ~ special b ->
    spelled special v e -> spelled special (x * 16 + y :: v) (37 :: a :: b :: e).

Lemma spelled_nul_free sp v e : spelled sp v e -> nul_free v /\ nul_free e /\ Forall (fun c => ~ sp c) e.
Proof.
  induction 1 as [|c v e Hc _ _ Hs _ (IH1 & IH2 & IH3)|v e Hs _ (IH1 & IH2 & IH3)|
    a b x y v e Ha Hb Hp H1 H2 H3 _ (IH1 & IH2 & IH3)]; [by split_and!; apply Forall_nil|..].
  - split_and!; by constructor.
  - split_and!; constructor; done || lia.
  - apply hex2dec_value in Ha as (_ & ? & ?). apply hex2dec_value in Hb as (_ & ? & ?).
    split_and!; repeat constructor; done || lia.
Qed.

(** Writing over the gap. *)
Lemma wr_gap d g c x post p : is_u8 x -> p = blen d ->
  exists g', wr (d ++ g ++ c :: post) p x = Done (d ++ x :: g' ++ post) /\ blen g' = blen g.
Proof.
  intros Hx ->. destruct g as [|y g]; cbn [app].
  - exists []. rewrite (wr_at _ d c post) by done. by rewrite u8_id.
  - exists (g ++ [c]). rewrite (wr_at _ d y (g ++ c :: post)) by done.
    rewrite u8_id, <- app_assoc by done. split; [done|]. blen.
Qed.

Lemma url_loop_spec sp v e : spelled sp v e -> forall fuel d g post f,
  (length e < fuel)%nat -> f = blen d + blen g ->
  exists g', url_loop fuel (d ++ g ++ e ++ 0 :: post) f (blen d) = Done (d ++ v ++ 0 :: g' ++ post) /\
    blen g' + blen v = blen g + blen e.
Proof.
  induction 1 as [|c v e Hc Hp Hq _ _ IH|v e _ _ IH|a b x y v e Ha Hb Hv _ _ _ _ IH];
    intros fuel d g post f Hf ->; (destruct fuel as [|fuel]; [cbn in Hf; lia|]); cbn [url_loop app].
  - rewrite (rd_at _ (d ++ g) 0 post (blen d + blen g)) by (app_eq || blen). cbn [mbind outcome_bind Z.eqb].
    destruct (wr_gap d g 0 0 post (blen d)) as (g' & -> & Hg); [by width|done|].
    exists g'. split; [done|]. blen.
  - cbn in Hf. rewrite (rd_at _ (d ++ g) c (e ++ 0 :: post) (blen d + blen g)) by (app_eq || blen). cbn [mbind outcome_bind].
    rewrite (proj2 (Z.eqb_neq c 0)), (proj2 (Z.eqb_neq c 43)), (proj2 (Z.eqb_neq c 37)) by lia.
    destruct (wr_gap d g c c (e ++ 0 :: post) (blen d)) as (g1 & -> & Hg); [width; lia|done|].
    cbn [mbind outcome_bind].
    destruct (IH fuel (d ++ [c]) g1 post (blen d + blen g + 1)) as (g' & Hr & Hl); [lia|blen|].
    exists g'. split; [|blen]. rewrite <- !app_assoc in Hr. cbn [app] in Hr. rewrite <- Hr. f_equal. blen.
  - cbn in Hf. rewrite (rd_at _ (d ++ g) 43 (e ++ 0 :: post) (blen d + blen g)) by (app_eq || blen). cbn [mbind outcome_bind Z.eqb].
    destruct (wr_gap d g 43 32 (e ++ 0 :: post) (blen d)) as (g1 & Hw & Hg); [width; lia|done|].
    cbn. rewrite Hw. cbn [mbind outcome_bind].
    destruct (IH fuel (d ++ [32]) g1 post (blen d + blen g + 1)) as (g' & Hr & Hl); [lia|blen|].
    exists g'. split; [|blen]. rewrite <- !app_assoc in Hr. cbn [app] in Hr. rewrite <- Hr. f_equal. blen.
  - apply hex2dec_value in Ha as (Ha & ? & ?). apply hex2dec_value in Hb as (Hb & ? & ?). cbn in Hf.
    rewrite (rd_at _ (d ++ g) 37 (a :: b :: e ++ 0 :: post) (blen d + blen g)) by (app_eq || blen). cbn [mbind outcome_bind].
    change (37 =? 0) with false. change (37 =? 43) with false. change (37 =? 37) with true. cbv iota.
    rewrite (rd_at _ (d ++ g ++ [37]) a (b :: e ++ 0 :: post) (blen d + blen g + 1)) by (app_eq || blen). cbn [mbind outcome_bind].
    rewrite (proj2 (Z.eqb_neq a 0)) by lia.
    rewrite (rd_at _ (d ++ g ++ [37; a]) b (e ++ 0 :: post) (blen d + blen g + 2)) by (app_eq || blen). cbn [mbind outcome_bind].
    rewrite (proj2 (Z.eqb_neq b 0)), Ha, Hb by lia.
    destruct (wr_gap d g 37 (x * 16 + y) (a :: b :: e ++ 0 :: post) (blen d)) as (g1 & -> & Hg); [width; lia|done|].
    cbn [mbind outcome_bind].
    destruct (IH fuel (d ++ [x * 16 + y]) (g1 ++ [a; b]) post (blen d + blen g + 3)) as (g' & Hr & Hl); [lia|blen|].
    exists g'. split; [|blen]. rewrite <- !app_assoc in Hr. cbn [app] in Hr. rewrite <- Hr. f_equal. blen.
Qed.

(** * Forms *)

(** A field of a form: a name with blanks around it, a value and its spelling. *)
Record field := Field { left_blanks : list Z; name : list Z; right_blanks : list Z; content : list Z; spelling : list Z }.

Definition label (f : field) : list Z := left_blanks f ++ name f ++ right_blanks f.
Definition text (f : field) : list Z := label f ++ 61 :: spelling f.

Definition field_ok (delim : Z) (f : field) : Prop :=
  nul_free (label f) /\ Forall (fun c => c <> 61 /\ c <> delim) (label f) /\
  Forall (fun c => c <= 32) (left_blanks f) /\ Forall (fun c => c <= 32) (right_blanks f) /\
  solid (name f) /\ spelled (fun c => c = delim) (content f) (spelling f).

Fixpoint form (delim : Z) (l : list field) : list Z :=
  match l with
  | [] => []
  | [f] => text f
  | f :: l => text f ++ delim :: form delim l
  end.

(** What a stored parameter holds. *)
Definition holds (p : pair_t) (f : field) : Prop :=
  exists k v, key p = Some k /\ val p = Some v /\
    cstring (memory p) k = Done (name f) /\ cstring (memory p) v = Done (content f).

(** The value of the first field of a name, or nothing. *)
Fixpoint lookup_field (l : list field) (k : list Z) : list Z :=
  match l with
  | [] => []
  | f :: l => if bool_decide (name f = k) then content f else lookup_field l k
  end.

Lemma field_nul_free d f : field_ok d f -> d <> 61 -> nul_free (text f) /\ Forall (fun c => c <> d) (text f).
Proof.
  intros (H1 & H2 & _ & _ & _ & H3) Hd. apply spelled_nul_free in H3 as (_ & H3 & H4). unfold text. split.
  - apply Forall_app. split; [done|]. by constructor.
  - apply Forall_app. split; [|constructor; done || lia].
    eapply Forall_impl; [|exact H2]. by intros c [_ Hc].
Qed.

Section Forms.
Context (alloc : Z -> option (list Z)).
Context (alloc_ok : forall n, 0 < n -> exists m, alloc n = Some m /\ blen m = n).

Lemma parse_param_text d f req pre post : field_ok d f -> blen (text f) < 2 ^ 64 - 1 -> count req < MAX_PARAMETERS ->
  nul_free post -> blen (text f ++ post) < 2 ^ 64 -> forall post0,
  exists p, _parse_param alloc req (pre ++ text f ++ post ++ 0 :: post0) (blen pre) (blen (text f)) =
      Done (0, set_params (params req ++ [p]) req) /\ holds p f.
Proof.
  intros Hf Hlen Hcount Hpost Hall post0.
  assert (nul_free (text f)) as Htn.
  { destruct Hf as (H1 & _ & _ & _ & _ & H3). apply spelled_nul_free in H3 as (_ & H3 & _).
    apply Forall_app. split; [done|]. by constructor. }
  pose proof (blen_nonneg (text f)) as Hnn. destruct Hf as (H1 & H2 & Hl & Hr & Hs & Hv).
  assert (0 < blen (text f)) as Hpos.
  { unfold text. rewrite blen_app, blen_cons. pose proof (blen_nonneg (label f)). pose proof (blen_nonneg (spelling f)). lia. }
  unfold _parse_param. rewrite (proj2 (Z.eqb_neq _ 0)) by lia.
  rewrite u64_id by (width; lia). destruct (alloc_ok (blen (text f) + 1)) as (m & -> & Hm); [lia|].
  pose proof (strlcpy_eq [] m [] pre (text f ++ post) post0 (blen (text f) + 1)) as Hcpy.
  cbv zeta in Hcpy. cbn [app] in Hcpy. change (blen []) with 0 in Hcpy. rewrite app_nil_r in Hcpy.
  rewrite <- (app_assoc (text f) post) in Hcpy.
  rewrite Hcpy; [|by apply Forall_app|done|lia|rewrite blen_app; pose proof (blen_nonneg post); lia].
  clear Hcpy. cbn [mbind outcome_bind]. rewrite (proj2 (Z.eqb_neq (blen (text f) + 1) 0)) by lia.
  replace (Z.to_nat (Z.min (blen (text f) + 1 - 1) (blen (text f ++ post)))) with (length (text f))
    by (rewrite blen_app; unfold blen; lia).
  rewrite take_app_length, (drop_ge m) by (unfold blen in Hm; lia). rewrite app_nil_r.
  destruct (spelled_nul_free _ _ _ Hv) as (Hvn & Hen & _).
  rewrite (strchr_at _ [] (label f) 61 (spelling f ++ [0])); [|unfold text; app_eq|done|done|].
  2: { eapply Forall_impl; [|exact H2]. by intros c [Hc _]. }
  cbn [mbind outcome_bind Z.add].
  rewrite (wr_at _ (label f) 61 (spelling f ++ [0])) by ((unfold text; app_eq) || done). cbn [mbind outcome_bind].
  unfold _url_decode. change (u8 0) with 0.
  destruct (url_loop_spec _ _ _ Hv (length (label f ++ 0 :: spelling f ++ [0]) + 1) (label f ++ [0]) [] []
    (blen (label f) + 1)) as (g & Hg & Hgl); [rewrite !length_app; cbn; rewrite length_app; lia|blen|].
  rewrite !app_nil_r, <- app_assoc in Hg. cbn [app] in Hg.
  replace (blen (label f ++ [0])) with (blen (label f) + 1) in Hg by blen.
  rewrite !Z.add_0_l, Hg. cbn [mbind outcome_bind]. rewrite <- app_assoc. cbn [app].
  pose proof (trim_eq [] (left_blanks f) (name f) (right_blanks f) (content f ++ 0 :: g) H1 Hl Hr Hs) as (rest & Ht & Hrest).
  cbn [app] in Ht. change (blen []) with 0 in Ht.
  replace (label f ++ 0 :: content f ++ 0 :: g) with
    (left_blanks f ++ name f ++ right_blanks f ++ 0 :: content f ++ 0 :: g) by (unfold label; app_eq).
  rewrite Ht. cbn [mbind outcome_bind]. rewrite (proj2 (Z.ltb_lt _ _)) by done.
  eexists. split; [done|]. exists 0, (blen (label f) + 1). cbn [key val memory]. split_and!; [done..| |].
  - apply (cstring_at _ [] (name f) (rest ++ content f ++ 0 :: g)); [done|done|].
    unfold label in H1. apply Forall_app in H1 as [_ H1]. by apply Forall_app in H1 as [H1 _].
  - apply (cstring_at _ (name f ++ 0 :: rest) (content f) g); [app_eq| |done].
    unfold label. blen.
Qed.
Lemma form_facts d l : Forall (field_ok d) l -> 0 < d < 256 -> d <> 61 ->
  nul_free (form d l) /\ (length l <= length (form d l))%nat.
Proof.
  intros Hl Hd Hd'. induction Hl as [|f l Hf Hl IH]; [by split; [apply Forall_nil|]|].
  destruct (field_nul_free d f Hf Hd') as [Ht _]. destruct IH as [IH1 IH2].
  assert (0 < length (text f))%nat by (unfold text; rewrite length_app; cbn; lia).
  destruct l as [|f' l]; [cbn [form length] in *; split; [done|lia]|].
  change (form d (f :: f' :: l)) with (text f ++ d :: form d (f' :: l)). split.
  - apply Forall_app. split; [done|]. by constructor.
  - rewrite length_app. cbn [length] in *. lia.
Qed.

Lemma params_loop_form d l : 0 < d < 256 -> d <> 61 -> Forall (field_ok d) l -> l <> [] ->
  forall fuel req pre post, (length l <= fuel)%nat -> count req + Z.of_nat (length l) <= MAX_PARAMETERS ->
  blen (form d l) < 2 ^ 64 - 1 ->
  exists ps, (ptr ← strchr (pre ++ form d l ++ 0 :: post) (blen pre) d;
      params_loop alloc fuel req (pre ++ form d l ++ 0 :: post) (blen pre) ptr d) =
    Done (0, set_params (params req ++ ps) req) /\ Forall2 holds ps l.
Proof.
  intros Hd Hd' Hl. induction Hl as [|f l Hf Hl IH]; intros Hne fuel req pre post Hfuel Hc Hlen; [done|].
  destruct fuel as [|fuel]; [cbn in Hfuel; lia|]. destruct (field_nul_free d f Hf Hd') as [Ht Htd].
  destruct l as [|f' l].
  - cbn [form length] in *. rewrite (strchr_none _ pre (text f) d post) by (done || lia).
    cbn [mbind outcome_bind params_loop]. rewrite (strlen_at _ pre (text f) post) by done.
    cbn [mbind outcome_bind].
    destruct (parse_param_text d f req pre [] Hf ltac:(lia) ltac:(unfold MAX_PARAMETERS in *; lia)
      ltac:(apply Forall_nil; done) ltac:(rewrite app_nil_r; lia) post) as (p & Hp & Hh).
    cbn [app] in Hp. rewrite Hp. exists [p]. split; [done|by repeat constructor].
  - change (form d (f :: f' :: l)) with (text f ++ d :: form d (f' :: l)) in *.
    destruct (form_facts d (f' :: l) Hl Hd Hd') as [Hn _]. rewrite blen_app, blen_cons in Hlen.
    pose proof (blen_nonneg (text f)). pose proof (blen_nonneg (form d (f' :: l))).
    rewrite <- (app_assoc (text f)). cbn [app].
    rewrite (strchr_at _ pre (text f) d (form d (f' :: l) ++ 0 :: post)) by done.
    cbn [mbind outcome_bind params_loop]. replace (blen pre + blen (text f) - blen pre) with (blen (text f)) by lia.
    cbn [length] in Hc.
    destruct (parse_param_text d f req pre (d :: form d (f' :: l)) Hf ltac:(lia)
      ltac:(unfold MAX_PARAMETERS in *; lia) ltac:(by constructor) ltac:(rewrite blen_app, blen_cons; lia) post)
      as (p & Hp & Hh).
    cbn [app] in Hp. rewrite Hp. cbn [mbind outcome_bind negb Z.eqb].
    destruct (IH ltac:(done) fuel (set_params (params req ++ [p]) req) (pre ++ text f ++ [d]) post) as (ps & Hps & Hall);
      [cbn in Hfuel |- *; lia| |lia|].
    { unfold count in *. cbn [params set_params length] in *. rewrite length_app. cbn [length]. lia. }
    replace ((pre ++ text f ++ [d]) ++ form d (f' :: l) ++ 0 :: post) with
      (pre ++ text f ++ d :: form d (f' :: l) ++ 0 :: post) in Hps by app_eq.
    replace (blen (pre ++ text f ++ [d])) with (blen pre + blen (text f) + 1) in Hps by blen.
    rewrite Hps. exists (p :: ps). split; [|by constructor]. unfold set_params. cbn [params from flag method].
    by rewrite <- app_assoc.
Qed.

Lemma get_param_spec mk k kname ps l : cstring mk k = Done kname -> Forall2 holds ps l ->
  exists m p, get_param_loop ps mk k = Done (m, p) /\ cstring m p = Done (lookup_field l kname).
Proof.
  intros Hk. induction 1 as [|p f ps l (pk & pv & H1 & H2 & H3 & H4) _ IH]; cbn [get_param_loop lookup_field].
  - by exists [0], 0.
  - rewrite H1. unfold streq. rewrite H3, Hk. cbn [mbind outcome_bind]. rewrite H2.
    destruct (bool_decide (name f = kname)); [by exists (memory p), pv|done].
Qed.

(** C9. A query, a cookie or a form is parsed into its fields: the names without
    the blanks around them and the values decoded, whatever the spelling; a
    parameter is then the value of the first field of its name, or empty. *)
Theorem form_parsed d l req pre post mk k kname : 0 < d < 256 -> d <> 61 -> Forall (field_ok d) l ->
  params req = [] -> Z.of_nat (length l) <= MAX_PARAMETERS -> blen (form d l) < 2 ^ 64 - 1 ->
  cstring mk k = Done kname ->
  exists req', _parse_params alloc req (pre ++ form d l ++ 0 :: post) (blen pre) d = Done (0, req') /\
    Forall2 holds (params req') l /\
    exists m p, web_get_param req' mk k = Done (m, p) /\ cstring m p = Done (lookup_field l kname).
Proof.
  intros Hd Hd' Hl Hreq Hc Hlen Hk.
  assert (exists ps, _parse_params alloc req (pre ++ form d l ++ 0 :: post) (blen pre) d =
    Done (0, set_params ps req) /\ Forall2 holds ps l) as (ps & Hps & Hall).
  { unfold _parse_params. destruct l as [|f l].
    - cbn [form app]. rewrite (strchr_none _ pre [] d post) by (done || lia || apply Forall_nil; done).
      cbn [mbind outcome_bind]. rewrite Nat.add_1_r. cbn [params_loop].
      rewrite (strlen_at _ pre [] post) by (done || apply Forall_nil; done). exists []. split; [|constructor].
      cbn. unfold set_params. destruct req; cbn in *; by subst.
    - destruct (params_loop_form d (f :: l) Hd Hd' Hl ltac:(done)
        (length (pre ++ form d (f :: l) ++ 0 :: post) + 1) req pre post) as (ps & Hps & Hall); [| |done|].
      + rewrite !length_app. pose proof (proj2 (form_facts d (f :: l) Hl Hd Hd')). lia.
      + unfold count. rewrite Hreq. cbn [length] in *. lia.
      + exists ps. rewrite Hreq in Hps. split; [exact Hps|done]. }
  eexists. split; [exact Hps|]. split; [exact Hall|]. by apply get_param_spec.
Qed.
End Forms.

(** * Witness *)

Definition zeros (n : Z) : option (list Z) := Some (replicate (Z.to_nat n) 0).

Lemma zeros_alloc n : 0 < n -> exists m, zeros n = Some m /\ blen m = n.
Proof. intros. eexists. split; [done|]. unfold blen. rewrite length_replicate. lia. Qed.

(** [board=a b] and, after a blank, [t=+]: ["board=a+b; t=%2b"]. *)
Definition cookie : list field :=
  [Field [] (bytes "board") [] (bytes "a b") (bytes "a+b"); Field [32] (bytes "t") [] (bytes "+") (bytes "%2b")].

Lemma cookie_ok : Forall (field_ok 59) cookie.
Proof.
  repeat constructor; try lia; try (cbn; lia); try done.
  - exists 98, 100, (bytes "oard"), (bytes "boar"). done.
  - by exists 116, 116, [], [].
  - apply (spelled_hex _ 50 98 2 11 [] []); try done; constructor.
Defined.

Lemma form_parsed_witness : exists req',
  _parse_params zeros (Req [] [0] 0 WEB_REQUEST_METHOD_GET) ([] ++ form 59 cookie ++ 0 :: []) 0 59 = Done (0, req') /\
  Forall2 holds (params req') cookie /\
  exists m p, web_get_param req' (bytes "board" ++ [0]) 0 = Done (m, p) /\ cstring m p = Done (bytes "a b").
Proof.
  apply (form_parsed zeros zeros_alloc 59 cookie (Req [] [0] 0 WEB_REQUEST_METHOD_GET) [] [] (bytes "board" ++ [0]) 0
    (bytes "board")); [lia|lia|apply cookie_ok|done|by vm_compute|by vm_compute|by vm_compute].
Defined.
