(* ===== verification/Time.v ===== *)
(** Dates as text: [lib/time.c]. *)
From S2P Require Import Prelude.

(** [struct tm], with the offset from UTC in seconds. *)
Record tm := Tm {
  tm_year : Z; tm_mon : Z; tm_mday : Z; tm_hour : Z; tm_min : Z; tm_sec : Z; tm_wday : Z; tm_gmtoff : Z;
}.

Inductive time_format_e :=
| TIME_FORMAT_ZH | TIME_FORMAT_UTF8_ZH | TIME_FORMAT_EN | TIME_FORMAT_SHORT | TIME_FORMAT_XML | TIME_FORMAT_RSS.

(** [%4d] and [%02d]. *)
Definition pad_left (c : Z) (n : nat) (s : list Z) : list Z := replicate (n - length s) c ++ s.
Definition d4 (n : Z) : list Z := pad_left 32 4 (decimal n).
Definition d2 (n : Z) : list Z := if n <? 0 then decimal n else pad_left 48 2 (decimal n).

Definition weeknum : list (list Z) :=
  [[0xcc; 0xec]; [0xd2; 0xbb]; [0xb6; 0xfe]; [0xc8; 0xfd]; [0xcb; 0xc4]; [0xce; 0xe5]; [0xc1; 0xf9]].

Definition utf8_weeknum : list (list Z) :=
  [[0xe5; 0xa4; 0xa9]; [0xe4; 0xb8; 0x80]; [0xe4; 0xba; 0x8c]; [0xe4; 0xb8; 0x89]; [0xe5; 0x9b; 0x9b];
   [0xe4; 0xba; 0x94]; [0xe5; 0x85; 0xad]].

Definition week_name (names : list (list Z)) (t : tm) : outcome (list Z) :=
  if tm_wday t <? 0 then Fault
  else match names !! Z.to_nat (tm_wday t) with Some n => Done n | None => Fault end.

Definition clock (t : tm) : list Z :=
  d2 (tm_hour t) ++ bytes ":" ++ d2 (tm_min t) ++ bytes ":" ++ d2 (tm_sec t).

(** The names [strftime] uses in the C locale. *)
Definition day_names : list (list Z) :=
  [bytes "Sun"; bytes "Mon"; bytes "Tue"; bytes "Wed"; bytes "Thu"; bytes "Fri"; bytes "Sat"].
Definition month_names : list (list Z) :=
  [bytes "Jan"; bytes "Feb"; bytes "Mar"; bytes "Apr"; bytes "May"; bytes "Jun"; bytes "Jul"; bytes "Aug";
   bytes "Sep"; bytes "Oct"; bytes "Nov"; bytes "Dec"].

(** [%z]. *)
Definition zone (t : tm) : list Z :=
  let m := Z.abs (tm_gmtoff t) / 60 in
  (if tm_gmtoff t <? 0 then bytes "-" else bytes "+") ++ d2 (m / 60) ++ d2 (m mod 60).

Section Time.
Context (localtime : Z -> tm).

(** [snprintf] keeps 35 bytes. *)
Definition format_time (time : Z) (fmt : time_format_e) : outcome (list Z) :=
  let t := localtime time in
  match fmt with
  | TIME_FORMAT_ZH =>
      w ← week_name weeknum t;
      Done (take 35 (d4 (tm_year t + 1900) ++ [0xc4; 0xea] ++ d2 (tm_mon t + 1) ++ [0xd4; 0xc2] ++
        d2 (tm_mday t) ++ [0xc8; 0xd5] ++ clock t ++ [32; 0xd0; 0xc7; 0xc6; 0xda] ++ pad_left 32 2 w))
  | TIME_FORMAT_UTF8_ZH =>
      w ← week_name utf8_weeknum t;
      Done (take 35 (d4 (tm_year t + 1900) ++ [0xe5; 0xb9; 0xb4] ++ d2 (tm_mon t + 1) ++ [0xe6; 0x9c; 0x88] ++
        d2 (tm_mday t) ++ [0xe6; 0x97; 0xa5] ++ clock t ++ [32; 0xe6; 0x98; 0x9f; 0xe6; 0x9c; 0x9f] ++ w))
  | TIME_FORMAT_EN =>
      Done (d2 (tm_mon t + 1) ++ bytes "/" ++ d2 (tm_mday t) ++ bytes "/" ++ decimal (tm_year t + 1900) ++
            bytes " " ++ clock t)
  | TIME_FORMAT_SHORT =>
      Done (d2 (tm_mon t + 1) ++ bytes "." ++ d2 (tm_mday t) ++ bytes " " ++ d2 (tm_hour t) ++ bytes ":" ++
            d2 (tm_min t))
  | TIME_FORMAT_RSS =>
      match day_names !! Z.to_nat (tm_wday t), month_names !! Z.to_nat (tm_mon t) with
      | Some d, Some m =>
          Done (d ++ bytes "," ++ d2 (tm_mday t) ++ bytes " " ++ m ++ bytes " " ++
                decimal (tm_year t + 1900) ++ bytes " " ++ clock t ++ bytes " " ++ zone t)
      | _, _ => Fault
      end
  | TIME_FORMAT_XML =>
      Done (decimal (tm_year t + 1900) ++ bytes "-" ++ d2 (tm_mon t + 1) ++ bytes "-" ++ d2 (tm_mday t) ++
            bytes "T" ++ clock t)
  end.

End Time.

Definition valid_date (year month day : Z) : bool :=
  if (month <? 1) || (12 <? month) then false
  else
    let days :=
      if month =? 2 then
        if (Z.rem year 4 =? 0) && negb ((Z.rem year 100 =? 0) && negb (Z.rem year 400 =? 0)) then 29 else 28
      else if (month =? 4) || (month =? 6) || (month =? 9) || (month =? 11) then 30
      else 31 in
    negb ((day <? 1) || (days <? day)).

(** A date whose text in the Chinese formats is the one in the header. *)
Example format_zh :
  format_time (fun _ => Tm 101 1 3 4 5 6 6 28800) 0 TIME_FORMAT_ZH =
    Done (bytes "2001" ++ [0xc4; 0xea] ++ bytes "02" ++ [0xd4; 0xc2] ++ bytes "03" ++ [0xc8; 0xd5] ++
          bytes "04:05:06 " ++ [0xd0; 0xc7; 0xc6; 0xda; 0xc1; 0xf9]).
Proof. by vm_compute. Qed.

Example format_en_year :
  format_time (fun _ => Tm 101 1 3 4 5 6 6 28800) 0 TIME_FORMAT_EN = Done (bytes "02/03/2001 04:05:06").
Proof. by vm_compute. Qed.
