(* ===== verification/PostParse.v ===== *)
(** Posts as XML: [fcgi/parse.c]. *)
From S2P Require Import Prelude CString Convert Xml Web Time.

Definition PARSE_NOSIG : Z := 1.
Definition PARSE_NOQUOTEIMG : Z := 2.
Definition PARSE_NOSIGIMG : Z := 4.

(** Offsets in the memory of the post. *)
Record string_t := Str { begin_ : Z; end_ : Z }.

Record ansi_color_t := Color { hl : Z; fg : Z; bg : Z }.

Definition YEAR_STRING : list Z := [0xe5; 0xb9; 0xb4].
Definition MONTH_STRING : list Z := [0xe6; 0x9c; 0x88].
Definition DAY_STRING : list Z := [0xe6; 0x97; 0xa5].
Definition DATETIME_STRING : list Z :=
  bytes "1996" ++ YEAR_STRING ++ bytes "04" ++ MONTH_STRING ++ bytes "19" ++ DAY_STRING ++ bytes "11:11:11".
Definition SENDER_STRING : list Z :=
  [0xe5; 0x8f; 0x91; 0xe4; 0xbf; 0xa1; 0xe4; 0xba; 0xba; 0x3a; 0x20].
Definition TOPIC_STRING : list Z := [0xe6; 0xa0; 0x87; 0x20; 0x20; 0xe9; 0xa2; 0x98; 0x3a; 0x20].
Definition QUOTE_STRING : list Z := [0xe3; 0x80; 0x90; 0x20; 0xe5; 0x9c; 0xa8; 0x20].

(** [sizeof] counts the NUL. *)
Definition sizeof (s : list Z) : Z := blen s + 1.

(** * Library functions on memory

    The loops below read a byte of the memory in every iteration, so its length
    bounds them; one that passes its end faults. *)

Fixpoint memchr_from (l : list Z) (p c n : Z) : outcome (option Z) :=
  if n <=? 0 then Done None
  else
    match l with
    | [] => Fault
    | x :: l => if x =? c then Done (Some p) else memchr_from l (p + 1) c (n - 1)
    end.

(** The length is unsigned. *)
Definition memchr (m : list Z) (p c n : Z) : outcome (option Z) :=
  if p <? 0 then Fault else memchr_from (drop (Z.to_nat p) m) p c (u64 n).

(** [strncasecmp] of [n] bytes, in the C locale. *)
Fixpoint strncaseeq (m : list Z) (p : Z) (s : list Z) : outcome bool :=
  match s with
  | [] => Done true
  | c :: s => x ← rd m p; if tolower x =? tolower c then strncaseeq m (p + 1) s else Done false
  end.

Definition BEGIN_WITH (m : list Z) (b e : Z) (s : list Z) : outcome bool :=
  if blen s <=? e - b then strncaseeq m b s else Done false.
Definition END_WITH (m : list Z) (b e : Z) (s : list Z) : outcome bool :=
  if blen s <=? e - b then strncaseeq m (e - blen s) s else Done false.

(** [strtol(s, NULL, 10)]: blanks, a sign and digits, converted to [int]. *)
Fixpoint strtol_digits (fuel : nat) (m : list Z) (p acc : Z) : outcome Z :=
  match fuel with
  | O => NoFuel
  | S fuel =>
      c ← rd m p;
      if isdigit c then strtol_digits fuel m (p + 1) (acc * 10 + (c - 48)) else Done acc
  end.

Fixpoint strtol_loop (fuel : nat) (m : list Z) (p : Z) : outcome Z :=
  match fuel with
  | O => NoFuel
  | S fuel =>
      c ← rd m p;
      if isspace c then strtol_loop fuel m (p + 1)
      else if c =? 45 then v ← strtol_digits fuel m (p + 1) 0; Done (Z.max (- v) (- 2 ^ 63))
      else v ← strtol_digits fuel m (if c =? 43 then p + 1 else p) 0; Done (Z.min v (2 ^ 63 - 1))
  end.

Definition strtol (m : list Z) (p : Z) : outcome Z := v ← strtol_loop (length m + 1) m p; Done (i32 v).

Lemma strtol_digits_string t : forall fuel pre acc, (length t < fuel)%nat -> exists v, strtol_digits fuel (pre ++ t ++ [0]) (blen pre) acc = Done v.
Proof.
  induction t as [|c t IH]; intros [|fuel] pre acc Hf; cbn [length] in Hf; try lia; cbn [strtol_digits].
  - rewrite (rd_at _ pre 0 []) by done. by eexists.
  - rewrite (rd_at _ pre c (t ++ [0])) by done. cbn [mbind outcome_bind]. destruct (isdigit c); [|by eexists].
    destruct (IH fuel (pre ++ [c]) (acc * 10 + (c - 48)) ltac:(lia)) as [v Hv]. exists v. rewrite <- Hv, <- app_assoc. f_equal. rewrite blen_app. done.
Qed.

Lemma strtol_loop_string t : forall fuel pre, (length t + 1 < fuel)%nat -> exists v, strtol_loop fuel (pre ++ t ++ [0]) (blen pre) = Done v.
Proof.
  assert (forall t fuel pre, (length t < fuel)%nat -> exists v, strtol_digits fuel (pre ++ t ++ [0]) (blen pre) 0 = Done v) as Hd
    by (intros; by apply strtol_digits_string).
  assert (forall c t fuel pre, (length t < fuel)%nat -> exists v, strtol_digits fuel (pre ++ (c :: t) ++ [0]) (blen pre + 1) 0 = Done v) as Hd1.
  { intros c t0 fuel pre Hf. destruct (Hd t0 fuel (pre ++ [c]) Hf) as [v Hv]. exists v. rewrite <- Hv, <- app_assoc. f_equal. by rewrite blen_app. }
  induction t as [|c t IH]; intros [|fuel] pre Hf; cbn [length] in Hf; try lia; cbn [strtol_loop].
  - rewrite (rd_at _ pre 0 []) by done. cbn [mbind outcome_bind]. change (isspace 0) with false. cbn [Z.eqb].
    destruct (Hd [] fuel pre) as [v Hv]; [cbn; lia|]. rewrite Hv. by eexists.
  - rewrite (rd_at _ pre c (t ++ [0])) by done. cbn [mbind outcome_bind]. destruct (isspace c).
    { destruct (IH fuel (pre ++ [c]) ltac:(lia)) as [v Hv]. exists v. rewrite <- Hv, <- app_assoc. f_equal. by rewrite blen_app. }
    destruct (c =? 45); [destruct (Hd1 c t fuel pre) as [v ->]; [lia|by eexists]|].
    destruct (c =? 43); [destruct (Hd1 c t fuel pre) as [v ->]; [lia|by eexists]|].
    destruct (Hd (c :: t) fuel pre) as [v Hv]; [cbn; lia|]. rewrite Hv. by eexists.
Qed.

(** A string has a number, whatever it is. *)
Lemma strtol_string w : exists v, strtol (w ++ [0]) 0 = Done v.
Proof.
  unfold strtol. destruct (strtol_loop_string w (length (w ++ [0%Z]) + 1) []) as [v Hv]; [rewrite length_app; cbn; lia|].
  change (blen []) with 0 in Hv. rewrite app_nil_l in Hv. rewrite Hv. by eexists.
Qed.

(** [mktime], [localtime]: the time zone. [u2g]: the descriptor from UTF-8 to
    GBK. [utf8]: whether the request has the flag for UTF-8. *)
Section Parse.
Context (mktime : tm -> Z) (localtime : Z -> tm).
Context (u2g : list Z -> Z -> Z * list Z * iconv_stop) (stack : list Z) (utf8 : bool).

(** * The header *)

Definition _parse_header_date (m : list Z) (line : string_t) : outcome Z :=
  b ← memchr m (begin_ line) 40 (end_ line - begin_ line);
  match b with
  | None => Done 0
  | Some b =>
      if end_ line <? b + sizeof DATETIME_STRING then Done 0
      else
        let s := b + 1 in
        year ← strtol m s;
        let s := s + (sizeof YEAR_STRING + 3) in
        mon ← strtol m s;
        let s := s + (sizeof MONTH_STRING + 1) in
        mday ← strtol m s;
        let s := s + (sizeof DAY_STRING + 1) in
        hour ← strtol m s;
        min ← strtol m (s + 3);
        sec ← strtol m (s + 6);
        let time := mktime (Tm (i32 (year - 1900)) (i32 (mon - 1)) mday hour min sec 0 0) in
        Done (if time =? -1 then 0 else time)
  end.

Fixpoint memrchr_loop (fuel : nat) (m : list Z) (b p c : Z) : outcome (option Z) :=
  match fuel with
  | O => NoFuel
  | S fuel =>
      let p := p - 1 in
      if b <=? p then
        x ← rd m p;
        if x =? c then Done (Some p) else memrchr_loop fuel m b p c
      else Done None
  end.

Definition _memrchr (m : list Z) (s c n : Z) : outcome (option Z) :=
  memrchr_loop (Z.to_nat n + 1) m s (s + n) c.

(** [memchr] finds the places where [s] may start; [s] is not empty. *)
Fixpoint memstr_loop (fuel : nat) (m : list Z) (p e : Z) (s : list Z) : outcome (option Z) :=
  match fuel with
  | O => NoFuel
  | S fuel =>
      if p =? e then Done None
      else
        q ← memchr m p (default 0 (head s)) (e - p);
        match q with
        | None => Done None
        | Some p =>
            found ← (if blen s <=? e - p then x ← rdn m p (blen s); Done (bool_decide (x = s)) else Done false);
            if (found : bool) then Done (Some p) else memstr_loop fuel m (p + 1) e s
        end
  end.

Definition _memstr (m : list Z) (p : Z) (s : list Z) (size : Z) : outcome (option Z) :=
  memstr_loop (length m + 1) m p (p + size) s.

(** * Text *)

(** What is written for one character. *)
Definition escape_char (c : Z) : list Z :=
  if c =? 60 then bytes "&lt;"
  else if c =? 62 then bytes "&gt;"
  else if c =? 38 then bytes "&amp;"
  else if c =? 32 then bytes "&#160;"
  else if ((1 <=? c) && (c <=? 8)) || (c =? 11) || (c =? 12) || ((14 <=? c) && (c <=? 31)) ||
          (c =? 13) || (c =? 10) then []
  else [c].

Definition _xml_escape_internal (s : list Z) : list Z := mjoin (escape_char <$> s).

Definition xml_escape_helper : convert_handler_t (list Z) := fun s out => (0, out ++ _xml_escape_internal s).

Definition _xml_escape (m : list Z) (b e : Z) : outcome (list Z) :=
  if utf8 then s ← rdn m b (e - b); Done (_xml_escape_internal s)
  else
    '(_, _, out) ← convert u2g (Some xml_escape_helper) stack (Some (drop (Z.to_nat b) m)) (u64 (e - b)) None 0 [];
    Done out.

Definition _print_node (m name : list Z) (v : string_t) : outcome (list Z) :=
  x ← _xml_escape m (begin_ v) (end_ v);
  Done (bytes "<" ++ name ++ bytes ">" ++ x ++ bytes "</" ++ name ++ bytes ">").

(** The loop of [_parse_ansi_code] from [s]; [b] is [begin], [a] the colours
    found. *)
Fixpoint ansi_code_loop (fuel : nat) (m : list Z) (b s e last : Z) (a ansi : ansi_color_t)
    : outcome (Z * ansi_color_t) :=
  match fuel with
  | O => NoFuel
  | S fuel =>
      if s =? e then Done (e, ansi)
      else
        c ← rd m s;
        if (c =? 59) || (c =? 109) then
          num ← strtol m last;
          let a :=
            if (num =? 0) || (num =? 1) then Color num (fg a) (bg a)
            else if (30 <=? num) && (num <=? 37) then Color (hl a) num (bg a)
            else if (40 <=? num) && (num <=? 47) then Color (hl a) (fg a) num
            else a in
          if c =? 109 then
            Done (s + 1,
              if s =? b + 2 then Color 0 37 40
              else Color (if hl a =? -1 then hl ansi else hl a) (if fg a =? -1 then fg ansi else fg a)
                         (if bg a =? -1 then bg ansi else bg a))
          else ansi_code_loop fuel m b (s + 1) e (s + 1) a ansi
        else if negb (isdigit c) then Done (s, ansi)
        else ansi_code_loop fuel m b (s + 1) e last a ansi
  end.

Definition _parse_ansi_code (m : list Z) (b e : Z) (ansi : ansi_color_t) : outcome (Z * ansi_color_t) :=
  let s := b + 1 in
  bracket ← (if s =? e then Done false else c ← rd m s; Done (c =? 91));
  if negb (bracket : bool) then Done (s, ansi)
  else ansi_code_loop (length m + 1) m b (s + 1) e (s + 1) (Color (-1) (-1) (-1)) ansi.

Definition color_tag (a : ansi_color_t) : list Z :=
  bytes "<c h='" ++ decimal (hl a) ++ bytes "' f='" ++ decimal (fg a) ++ bytes "' b='" ++ decimal (bg a) ++ bytes "'>".

(** The text and the colours at its end. *)
Fixpoint ansi_text_loop (fuel : nat) (m : list Z) (s e last : Z) (open : bool) (ansi : ansi_color_t)
    : outcome (list Z * ansi_color_t) :=
  match fuel with
  | O => NoFuel
  | S fuel =>
      if s =? e then
        x ← _xml_escape m last e;
        Done (x ++ (if open then bytes "</c>" else []), ansi)
      else
        c ← rd m s;
        if c =? 27 then
          x ← _xml_escape m last s;
          '(s, ansi) ← _parse_ansi_code m s e ansi;
          '(rest, ansi') ← ansi_text_loop fuel m s e s true ansi;
          Done (x ++ (if open then bytes "</c>" else []) ++ color_tag ansi ++ rest, ansi')
        else ansi_text_loop fuel m (s + 1) e last open ansi
  end.

Definition _print_ansi_text (m : list Z) (b e : Z) (ansi : ansi_color_t) : outcome (list Z * ansi_color_t) :=
  ansi_text_loop (length m + 1) m b e b false ansi.

Definition default_color : ansi_color_t := Color 0 37 40.

(** Where the body starts, and what is printed; a missing part gives [begin]. *)
Definition _print_header (m : list Z) (b size : Z) : outcome (Z * list Z) :=
  let e := b + size in
  let missing := Done (b, []) in
  line_end ← get_line_end m b e;
  o ← _memstr m b SENDER_STRING (line_end - b);
  match o with
  | None => missing
  | Some o =>
      let owner_begin := o + blen SENDER_STRING in
      o ← memchr m owner_begin 32 (line_end - owner_begin);
      match o with
      | None => missing
      | Some owner_end =>
          let nick_begin := owner_end + 2 in
          if e <=? nick_begin then missing
          else
            n ← _memrchr m nick_begin 41 (line_end - nick_begin);
            match n with
            | None => missing
            | Some nick_end =>
                c ← memchr m nick_end 58 (line_end - nick_end);
                match c with
                | None => Fault
                | Some c =>
                    let board_begin := c + 2 in
                    if e <=? board_begin then missing
                    else
                      x ← memchr m board_begin 27 (line_end - board_begin);
                      let board_end := default (line_end - 1) x in
                      let line_begin := line_end in
                      line_end ← get_line_end m line_begin e;
                      let title_begin := line_begin + blen TOPIC_STRING in
                      if e <=? title_begin then missing
                      else
                        let title_end := line_end - 1 in
                        let line_begin := line_end in
                        line_end ← get_line_end m line_begin e;
                        date ← _parse_header_date m (Str line_begin line_end);
                        if date =? 0 then missing
                        else
                          owner ← _print_node m (bytes "owner") (Str owner_begin owner_end);
                          nick ← _print_node m (bytes "nick") (Str nick_begin nick_end);
                          board ← _print_node m (bytes "board") (Str board_begin board_end);
                          '(title, _) ← _print_ansi_text m title_begin title_end default_color;
                          d ← format_time localtime date (if utf8 then TIME_FORMAT_UTF8_ZH else TIME_FORMAT_ZH);
                          Done (line_end, owner ++ nick ++ board ++ bytes "<title>" ++ title ++ bytes "</title>" ++
                                          bytes "<date>" ++ d ++ bytes "</date>")
                end
            end
      end
  end.

(** * The body *)

(** [strchr] also finds the NUL that ends the list. *)
Definition url_chars : list Z :=
  bytes "0123456789abcdefghijklmnopqrstuvwxyzABCDEFGHIJKLMNOPQRSTUVWXYZ~$-_.+!*)(,/:;=?@%#[]&" ++ [0].

Fixpoint url_end_loop (fuel : nat) (m : list Z) (s e : Z) : outcome Z :=
  match fuel with
  | O => NoFuel
  | S fuel =>
      if s =? e then Done e
      else c ← rd m s; if existsb (Z.eqb c) url_chars then url_end_loop fuel m (s + 1) e else Done s
  end.

Definition _get_url (m : list Z) (b e : Z) : outcome Z := url_end_loop (length m + 1) m b e.

Fixpoint any_end_with (m : list Z) (b e : Z) (l : list (list Z)) : outcome bool :=
  match l with
  | [] => Done false
  | s :: l => x ← END_WITH m b e s; if (x : bool) then Done true else any_end_with m b e l
  end.

Definition _print_url (m : list Z) (b e option : Z) : outcome (Z * list Z) :=
  e ← _get_url m b e;
  if e <? b + 11 then x ← rdn m b (e - b); Done (e, x)
  else
    image ← (if Z.land option (Z.lor PARSE_NOQUOTEIMG PARSE_NOSIGIMG) =? 0
             then any_end_with m b e [bytes ".jpg"; bytes ".gif"; bytes ".png"; bytes "jpeg"]
             else Done false);
    x ← _xml_escape m b e;
    Done (e, bytes "<a " ++ (if image : bool then bytes "i='i' " else []) ++ bytes "href='" ++ x ++ bytes "'/>").

Fixpoint paragraph_loop (fuel : nat) (m : list Z) (s e option : Z) (ansi : ansi_color_t) : outcome (list Z) :=
  match fuel with
  | O => NoFuel
  | S fuel =>
      if s =? e then Done []
      else
        u ← _memstr m s (bytes "http://") (e - s);
        u ← match u with None => _memstr m s (bytes "https://") (e - s) | Some u => Done (Some u) end;
        match u with
        | Some url =>
            '(x, ansi) ← _print_ansi_text m s url ansi;
            '(s, y) ← _print_url m url e option;
            z ← paragraph_loop fuel m s e option ansi;
            Done (x ++ y ++ z)
        | None => '(x, _) ← _print_ansi_text m s e ansi; Done x
        end
  end.

Definition _print_paragraph (m : list Z) (b e option : Z) : outcome (list Z) :=
  paragraph_loop (length m + 1) m b e option default_color.

Definition _is_quote (m : list Z) (b e : Z) : outcome bool :=
  q ← BEGIN_WITH m b e (bytes ": ");
  if (q : bool) then Done true else BEGIN_WITH m b e QUOTE_STRING.

(** [break] ends the loop. *)
Fixpoint body_loop (fuel : nat) (m : list Z) (s e option : Z) (in_signature in_quote : bool) : outcome (list Z) :=
  match fuel with
  | O => NoFuel
  | S fuel =>
      if s =? e then Done []
      else
        le ← get_line_end m s e;
        dashes ← (if negb in_signature && (le - s =? 3)
                  then x ← rdn m s 3; Done (bool_decide (x = [45; 45; 10])) else Done false);
        if (dashes : bool) then
          if negb (Z.land option PARSE_NOSIG =? 0) then Done []
          else rest ← body_loop fuel m le e option true false; Done (bytes "</pa><pa m='s'><p>--</p>" ++ rest)
        else
          q ← (if negb in_signature then _is_quote m s le else Done in_quote);
          let sep := if Bool.eqb q in_quote then []
                     else if in_quote then bytes "</pa><pa m='t'>" else bytes "</pa><pa m='q'>" in
          let in_quote := q in
          blank ← (if le =? s + 1 then Done true
                   else if le =? s + 2 then c ← rd m s; Done (c =? 13) else Done false);
          text ← (if (blank : bool) then Done (bytes "<br/>")
                  else
                    let opt := if in_quote then option else Z.land option (Z.lnot PARSE_NOQUOTEIMG) in
                    let opt := if in_signature then opt else Z.land opt (Z.lnot PARSE_NOSIGIMG) in
                    _print_paragraph m s le opt);
          rest ← body_loop fuel m le e option in_signature in_quote;
          Done (sep ++ bytes "<p>" ++ text ++ bytes "</p>" ++ rest)
  end.

Definition _print_body (m : list Z) (b e option : Z) : outcome (list Z) :=
  x ← body_loop (length m + 1) m b e option false false;
  Done (bytes "<pa m='t'>" ++ x ++ bytes "</pa>").

(** The result 0 and the bytes printed, or -1. *)
Definition xml_print_post (m : option (list Z)) (size option : Z) : outcome (Z * list Z) :=
  match m with
  | None => Done (-1, [])
  | Some m =>
      '(b, h) ← _print_header m 0 size;
      let b := if b =? 0 then b else b + 1 in
      x ← _print_body m b size option;
      Done (0, h ++ x)
  end.

End Parse.

(** * Balanced text *)

(** A character of a text, and the text of XML: characters and balanced
    elements. *)
Definition plain (c : Z) : Prop := c <> 60 /\ c <> 62.

Inductive content : list Z -> Prop :=
| content_nil : content []
| content_char c l : plain c -> content l -> content (c :: l)
| content_element name attrs inner l : Forall plain name -> Forall plain attrs -> content inner -> content l ->
    content (bytes "<" ++ name ++ attrs ++ bytes ">" ++ inner ++ bytes "</" ++ name ++ bytes ">" ++ l)
| content_empty name attrs l : Forall plain name -> Forall plain attrs -> content l ->
    content (bytes "<" ++ name ++ attrs ++ bytes "/>" ++ l).

Lemma content_text l : Forall plain l -> content l.
Proof. induction 1; by constructor. Qed.

Lemma content_app l k : content l -> content k -> content (l ++ k).
Proof.
  intros Hl Hk. induction Hl as [|c l Hc _ IH|name attrs inner l Hn Ha Hi _ _ IH|name attrs l Hn Ha _ IH]; [done|..].
  - by constructor.
  - repeat (rewrite <- app_assoc). by apply content_element.
  - repeat (rewrite <- app_assoc). by apply content_empty.
Qed.

Lemma content_tag name attrs inner : Forall plain name -> Forall plain attrs -> content inner ->
  content (bytes "<" ++ name ++ attrs ++ bytes ">" ++ inner ++ bytes "</" ++ name ++ bytes ">").
Proof.
  intros Hn Ha Hi. pose proof (content_element name attrs inner [] Hn Ha Hi content_nil) as H.
  by rewrite app_nil_r in H.
Qed.

Lemma plain_decimal n : Forall plain (decimal n).
Proof. eapply Forall_impl; [|apply decimal_chars]. unfold plain. cbn. lia. Qed.

(** Literals are checked by computation. *)
Definition plainb (c : Z) : bool := negb (c =? 60) && negb (c =? 62).
Lemma plain_bytes l : forallb plainb l = true -> Forall plain l.
Proof.
  intros H. rewrite forallb_forall in H. apply list.Forall_forall. intros c Hc.
  apply list_elem_of_In, H in Hc. unfold plainb, plain in *. zprop Hc. lia.
Qed.

Create HintDb content.
#[export] Hint Resolve content_nil content_text content_app content_tag plain_decimal Forall_app_2 : content.
#[export] Hint Extern 1 (Forall plain _) => apply plain_bytes; reflexivity : content.

Lemma escape_plain s : Forall plain (_xml_escape_internal s).
Proof.
  unfold _xml_escape_internal. induction s as [|c s IH]; [by apply Forall_nil|].
  change (mjoin (escape_char <$> c :: s)) with (escape_char c ++ mjoin (escape_char <$> s)).
  apply Forall_app. split; [|done]. unfold escape_char. repeat case_match; auto with content.
  repeat constructor; lia.
Qed.

Lemma escape_app a b : _xml_escape_internal (a ++ b) = _xml_escape_internal a ++ _xml_escape_internal b.
Proof. unfold _xml_escape_internal. by rewrite fmap_app, join_app. Qed.

Section Body.
Context `{Iconv} (stack : list Z) (stack_ok : blen stack = 1024) (utf8 : bool).

(** Memories that fit the address space. *)
Context (m : list Z) (m_ok : blen m < 2 ^ 64 - 1).

Local Abbreviation xml_escape := (_xml_escape iconv stack utf8 m).
Local Abbreviation ansi_loop := (ansi_text_loop iconv stack utf8).

Lemma split_at b e : 0 <= b <= e -> e <= blen m -> exists s rest,
  drop (Z.to_nat b) m = s ++ rest /\ blen s = e - b /\ rdn m b (e - b) = Done s.
Proof.
  intros Hb He. exists (take (Z.to_nat (e - b)) (drop (Z.to_nat b) m)), (drop (Z.to_nat (e - b)) (drop (Z.to_nat b) m)).
  rewrite take_drop. split; [done|]. split.
  - unfold blen in *. rewrite length_take, length_drop. lia.
  - unfold rdn. by rewrite (proj2 (Z.leb_le 0 b)), (proj2 (Z.leb_le 0 (e - b))), (proj2 (Z.leb_le (b + (e - b)) _)) by lia.
Qed.

Lemma escape_ok b e : 0 <= b <= e -> e <= blen m -> exists x, xml_escape b e = Done x /\ Forall plain x.
Proof.
  intros Hb He. destruct (split_at b e Hb He) as (s & rest & Hs & Hl & Hr). unfold _xml_escape. destruct utf8.
  - rewrite Hr. eexists. split; [done|apply escape_plain].
  - rewrite u64_id by (width; lia). rewrite <- Hl, Hs.
    destruct (convert_observed xml_escape_helper (fun out : list Z => out)
      (fun out bs => out ++ _xml_escape_internal bs)) with (internal := stack) (l := s) (rest := rest) (s := @nil Z)
      as (ret & buffer & out & -> & Ho); [intros; apply app_nil_r|intros; by rewrite escape_app, app_assoc|done|done|lia|].
    exists out. split; [done|]. destruct (delivered _ _ _ _) as [o k]. destruct Ho as [-> _]. apply escape_plain.
Qed.

Lemma strtol_digits_ok fuel : forall p s c acc, 0 <= p <= s -> rd m s = Done c -> isdigit c = false ->
  (forall q, p <= q < s -> exists d, rd m q = Done d /\ isdigit d = true) -> s - p < Z.of_nat fuel ->
  exists v, strtol_digits fuel m p acc = Done v.
Proof.
  induction fuel as [|fuel IH]; intros p s c acc Hp Hc Hd Hq Hf; [lia|]. cbn [strtol_digits].
  destruct (decide (p = s)) as [->|Hne].
  - rewrite Hc. cbn. rewrite Hd. eauto.
  - destruct (Hq p) as (d & -> & Hdd); [lia|]. cbn [mbind outcome_bind]. rewrite Hdd.
    apply (IH (p + 1) s c); try lia; [done|done|]. intros q Hq'. apply Hq. lia.
Qed.

(** A number that ends before the end of the memory. *)
Lemma strtol_ok p s c : 0 <= p <= s -> rd m s = Done c -> isdigit c = false -> isspace c = false -> c <> 45 -> c <> 43 ->
  (forall q, p <= q < s -> exists d, rd m q = Done d /\ isdigit d = true) -> exists v, strtol m p = Done v.
Proof.
  intros Hp Hc Hd Hs Hm Hplus Hq. unfold strtol. rewrite Nat.add_1_r. cbn [strtol_loop].
  assert (s < blen m) as Hlt.
  { destruct (Z.lt_ge_cases s (blen m)); [done|]. by rewrite rd_end in Hc. }
  assert (exists d, rd m p = Done d /\ isspace d = false /\ d <> 45 /\ d <> 43) as (d & -> & Hds & H1 & H2).
  { destruct (decide (p = s)) as [->|]; [eauto 6|]. destruct (Hq p) as (d & Hr & Hdd); [lia|]. exists d.
    unfold isdigit, isspace in *. zprop Hdd. split; [done|]. split; [|lia].
    rewrite orb_false_iff, andb_false_iff, Z.eqb_neq, !Z.leb_gt. lia. }
  cbn [mbind outcome_bind]. rewrite Hds, (proj2 (Z.eqb_neq d 45)), (proj2 (Z.eqb_neq d 43)) by done.
  destruct (strtol_digits_ok (length m) p s c 0) as [v ->]; [done|done|done|done|unfold blen in *; lia|]. eauto.
Qed.

Lemma ansi_code_loop_ok fuel : forall b s e last a ansi, 0 <= last <= s -> s <= e -> e <= blen m ->
  (forall q, last <= q < s -> exists d, rd m q = Done d /\ isdigit d = true) -> e - s < Z.of_nat fuel ->
  exists s' ansi', ansi_code_loop fuel m b s e last a ansi = Done (s', ansi') /\ s <= s' <= e.
Proof.
  induction fuel as [|fuel IH]; intros b s e last a ansi Hl Hs He Hq Hf; [lia|]. cbn [ansi_code_loop].
  destruct (Z.eqb_spec s e) as [->|Hne]; [eexists _, _; split; [done|lia]|].
  destruct (rd_in m s) as [c Hc]; [lia|]. rewrite Hc. cbn [mbind outcome_bind].
  destruct ((c =? 59) || (c =? 109)) eqn:Ec.
  - assert (c = 59 \/ c = 109) as Hcc by (zprop Ec; lia).
    destruct (strtol_ok last s c) as [num ->]; [done|done|by destruct Hcc as [-> | ->]..| |].
    { done. }
    cbn [mbind outcome_bind]. destruct (c =? 109); [eexists _, _; split; [done|lia]|].
    match goal with |- context [ansi_code_loop fuel m b (s + 1) e (s + 1) ?x ansi] =>
      destruct (IH b (s + 1) e (s + 1) x ansi) as (s' & ansi' & -> & Hs') end; [lia..| |lia|].
    { intros q Hq'. lia. }
    eexists _, _. split; [done|lia].
  - destruct (isdigit c) eqn:Ed; cbn [negb]; [|eexists _, _; split; [done|lia]].
    destruct (IH b (s + 1) e last a ansi) as (s' & ansi' & -> & Hs'); [lia..| |lia|].
    { intros q Hq'. destruct (decide (q = s)) as [->|]; [eauto|]. apply Hq. lia. }
    eexists _, _. split; [done|lia].
Qed.

Lemma ansi_code_ok b e ansi : 0 <= b < e -> e <= blen m ->
  exists s ansi', _parse_ansi_code m b e ansi = Done (s, ansi') /\ b < s <= e.
Proof.
  intros Hb He. unfold _parse_ansi_code. destruct (Z.eqb_spec (b + 1) e) as [<-|Hne].
  - cbn. eexists _, _. split; [done|lia].
  - destruct (rd_in m (b + 1)) as [c ->]; [lia|]. cbn [mbind outcome_bind]. destruct (c =? 91); cbn [negb].
    + destruct (ansi_code_loop_ok (length m + 1) b (b + 1 + 1) e (b + 1 + 1) (Color (-1) (-1) (-1)) ansi)
        as (s & ansi' & -> & Hs); [lia..| |unfold blen in *; lia|].
      { intros q Hq. lia. }
      eexists _, _. split; [done|lia].
    + eexists _, _. split; [done|lia].
Qed.

(** Text after a colour is opened closes it. *)
Definition closes (open : bool) (x : list Z) : Prop :=
  if open then exists y z, x = y ++ bytes "</c>" ++ z /\ content y /\ content z else content x.

Lemma closes_colour ansi x : closes true x -> content (color_tag ansi ++ x).
Proof.
  intros (y & z & -> & Hy & Hz).
  replace (color_tag ansi ++ y ++ bytes "</c>" ++ z) with
    (bytes "<" ++ bytes "c" ++ (bytes " h='" ++ decimal (hl ansi) ++ bytes "' f='" ++ decimal (fg ansi) ++
       bytes "' b='" ++ decimal (bg ansi) ++ bytes "'") ++ bytes ">" ++ y ++ bytes "</" ++ bytes "c" ++ bytes ">" ++ z)
    by (unfold color_tag; app_eq).
  apply content_element; auto 20 with content.
Qed.

Lemma ansi_text_loop_ok fuel : forall s e last open ansi, 0 <= last <= s -> s <= e -> e <= blen m ->
  e - s < Z.of_nat fuel ->
  exists x ansi', ansi_loop fuel m s e last open ansi = Done (x, ansi') /\ closes open x.
Proof.
  induction fuel as [|fuel IH]; intros s e last open ansi Hl Hs He Hf; [lia|]. cbn [ansi_text_loop].
  destruct (Z.eqb_spec s e) as [->|Hne].
  - destruct (escape_ok last e) as (x & -> & Hx); [lia|done|]. eexists _, _. split; [done|]. destruct open.
    + exists x, []. rewrite app_nil_r. auto with content.
    + cbn [closes]. rewrite app_nil_r. auto with content.
  - destruct (rd_in m s) as [c ->]; [lia|]. cbn [mbind outcome_bind]. destruct (c =? 27).
    + destruct (escape_ok last s) as (x & -> & Hx); [lia|lia|]. cbn [mbind outcome_bind].
      destruct (ansi_code_ok s e ansi) as (s' & a1 & -> & Hs'); [lia|done|]. cbn [mbind outcome_bind].
      destruct (IH s' e s' true a1) as (rest & a2 & -> & Hrest); [lia..|]. cbn [mbind outcome_bind].
      eexists _, _. split; [done|]. pose proof (closes_colour a1 rest Hrest) as Hc. destruct open.
      * exists x, (color_tag a1 ++ rest). auto with content.
      * cbn [closes app]. auto with content.
    + apply IH; lia.
Qed.

Lemma ansi_text_ok b e ansi : 0 <= b <= e -> e <= blen m ->
  exists x ansi', _print_ansi_text iconv stack utf8 m b e ansi = Done (x, ansi') /\ content x.
Proof. intros. apply (ansi_text_loop_ok _ b e b false ansi); unfold blen in *; lia. Qed.

Lemma memchr_from_ok l : forall p c n, n <= blen l -> exists r, memchr_from l p c n = Done r /\
  match r with Some q => p <= q < p + n | None => True end.
Proof.
  induction l as [|x l IH]; intros p c n Hn; cbn [memchr_from];
    (destruct (Z.leb_spec n 0); [by exists None|]); [change (blen []) with 0 in Hn; lia|].
  destruct (x =? c); [exists (Some p); split; [done|lia]|]. rewrite blen_cons in Hn.
  destruct (IH (p + 1) c (n - 1)) as (r & -> & Hr); [lia|]. exists r. split; [done|]. destruct r; [lia|done].
Qed.

Lemma memchr_ok p c n : 0 <= p -> 0 <= n -> p + n <= blen m -> exists r, memchr m p c n = Done r /\
  match r with Some q => p <= q < p + n | None => True end.
Proof.
  intros Hp Hn Hb. unfold memchr. rewrite (proj2 (Z.ltb_ge p 0)), u64_id by (width; lia).
  apply memchr_from_ok. unfold blen in *. rewrite length_drop. lia.
Qed.

Lemma memstr_loop_ok str fuel : forall p e, 0 <= p <= e -> e <= blen m -> e - p < Z.of_nat fuel ->
  exists r, memstr_loop fuel m p e str = Done r /\
    match r with Some q => p <= q /\ q + blen str <= e /\ rdn m q (blen str) = Done str | None => True end.
Proof.
  induction fuel as [|fuel IH]; intros p e Hp He Hf; [lia|]. cbn [memstr_loop].
  destruct (Z.eqb_spec p e); [by exists None|].
  destruct (memchr_ok p (default 0 (head str)) (e - p)) as (r & -> & Hr); [lia..|]. cbn [mbind outcome_bind].
  destruct r as [q|]; [|by exists None]. pose proof (blen_nonneg str).
  assert (exists r, memstr_loop fuel m (q + 1) e str = Done r /\
    match r with Some q => p <= q /\ q + blen str <= e /\ rdn m q (blen str) = Done str | None => True end) as Hnext.
  { destruct (IH (q + 1) e) as (r & Hr' & Hq); [lia..|]. exists r. split; [done|]. destruct r; [|done].
    destruct Hq as (? & ? & ?). split_and!; [lia|done|done]. }
  destruct (Z.leb_spec (blen str) (e - q)); cbn [mbind outcome_bind]; [|done].
  destruct (rdn_in m q (blen str)) as [x Hx]; [lia..|]. rewrite Hx. cbn [mbind outcome_bind].
  case_bool_decide as Hxs; [|done]. exists (Some q). subst x. split_and!; [done|lia|lia|done].
Qed.

Lemma memstr_ok p e str : 0 <= p <= e -> e <= blen m -> exists r, _memstr m p str (e - p) = Done r /\
  match r with Some q => p <= q /\ q + blen str <= e /\ rdn m q (blen str) = Done str | None => True end.
Proof.
  intros Hp He. unfold _memstr. replace (p + (e - p)) with e by lia.
  apply memstr_loop_ok; unfold blen in *; lia.
Qed.

Lemma url_end_loop_ok fuel : forall s e, 0 <= s <= e -> e <= blen m -> e - s < Z.of_nat fuel ->
  exists s', url_end_loop fuel m s e = Done s' /\ s <= s' <= e /\
    (forall q, s <= q < s' -> exists c, rd m q = Done c /\ existsb (Z.eqb c) url_chars = true) /\
    (s' = s -> s = e \/ exists c, rd m s = Done c /\ existsb (Z.eqb c) url_chars = false).
Proof.
  induction fuel as [|fuel IH]; intros s e Hs He Hf; [lia|]. cbn [url_end_loop].
  destruct (Z.eqb_spec s e) as [->|Hne]; [exists e; split_and!; try done; try lia; by left|].
  destruct (rd_in m s) as [c Hc]; [lia|]. rewrite Hc. cbn [mbind outcome_bind].
  destruct (existsb (Z.eqb c) url_chars) eqn:Ec.
  - destruct (IH (s + 1) e) as (s' & Hs' & Hr & Hq & _); [lia..|]. exists s'. split_and!; [done|lia..| |lia].
    intros q Hq'. destruct (decide (q = s)) as [->|]; [eauto|]. apply Hq. lia.
  - exists s. split_and!; [done|lia..| |eauto].
    intros q Hq. lia.
Qed.

(** What is read of a memory whose bytes are all plain there. *)
Lemma rdn_plain b e : 0 <= b <= e -> e <= blen m -> (forall q, b <= q < e -> exists c, rd m q = Done c /\ plain c) ->
  exists x, rdn m b (e - b) = Done x /\ Forall plain x.
Proof.
  intros Hb He Hq. destruct (rdn_in m b (e - b)) as [x Hx]; [lia..|]. exists x. split; [done|].
  unfold rdn in Hx. rewrite (proj2 (Z.leb_le 0 b)), (proj2 (Z.leb_le 0 (e - b))), (proj2 (Z.leb_le (b + (e - b)) _)) in Hx by lia.
  injection Hx as <-. apply Forall_lookup. intros i c Hi. apply lookup_take_Some in Hi as [Hi Hlt].
  rewrite lookup_drop in Hi. destruct (Hq (b + Z.of_nat i)) as (d & Hd & Hp); [lia|].
  unfold rd in Hd. rewrite (proj2 (Z.ltb_ge _ 0)) in Hd by lia.
  replace (Z.to_nat (b + Z.of_nat i)) with (Z.to_nat b + i)%nat in Hd by lia. rewrite Hi in Hd. by injection Hd as <-.
Qed.

Lemma url_char_plain c : existsb (Z.eqb c) url_chars = true -> plain c.
Proof.
  intros Hc. apply existsb_exists in Hc as (d & Hd & Heq). apply Z.eqb_eq in Heq as ->.
  assert (Forall plain url_chars) as Hall by auto with content.
  rewrite list.Forall_forall in Hall. apply Hall, list_elem_of_In, Hd.
Qed.

Lemma strncaseeq_ok s : forall p, 0 <= p -> p + blen s <= blen m -> exists b, strncaseeq m p s = Done b.
Proof.
  induction s as [|c s IH]; intros p Hp Hl; [by exists true|]. rewrite blen_cons in Hl.
  pose proof (blen_nonneg s). cbn [strncaseeq]. destruct (rd_in m p) as [x ->]; [lia|]. cbn [mbind outcome_bind].
  destruct (_ =? _); [apply IH; lia|by exists false].
Qed.

Lemma begin_with_ok b e s : 0 <= b -> e <= blen m -> exists r, BEGIN_WITH m b e s = Done r.
Proof.
  intros. unfold BEGIN_WITH. destruct (Z.leb_spec (blen s) (e - b)); [|by exists false]. apply strncaseeq_ok; lia.
Qed.

Lemma any_end_with_ok b e l : 0 <= b -> e <= blen m -> exists r, any_end_with m b e l = Done r.
Proof.
  intros Hb He. induction l as [|s l IH]; [by exists false|]. cbn [any_end_with].
  assert (exists r, END_WITH m b e s = Done r) as [r ->].
  { unfold END_WITH. destruct (Z.leb_spec (blen s) (e - b)); [|by exists false]. apply strncaseeq_ok; lia. }
  cbn [mbind outcome_bind]. destruct r; [by exists true|done].
Qed.

Lemma print_url_ok b e opt : 0 <= b < e -> e <= blen m ->
  (exists c, rd m b = Done c /\ existsb (Z.eqb c) url_chars = true) ->
  exists s x, _print_url iconv stack utf8 m b e opt = Done (s, x) /\ b < s <= e /\ content x.
Proof.
  intros Hb He (c & Hc & Huc). unfold _print_url, _get_url.
  destruct (url_end_loop_ok (length m + 1) b e) as (s & -> & Hs & Hq & Hstop); [lia|done|unfold blen in *; lia|].
  cbn [mbind outcome_bind].
  assert (b < s) as Hlt.
  { destruct (decide (s = b)) as [Heq|]; [|lia]. destruct (Hstop Heq) as [|(d & Hd & Hn)]; [lia|].
    rewrite Hc in Hd. injection Hd as <-. congruence. }
  destruct (Z.ltb_spec s (b + 11)).
  - destruct (rdn_plain b s) as (x & -> & Hx); [lia|lia| |].
    { intros q Hq'. destruct (Hq q Hq') as (d & Hd & Hdu). exists d. split; [done|by apply url_char_plain]. }
    eexists _, _. split; [done|]. split; [lia|auto with content].
  - assert (exists i : bool, (if Z.land opt (Z.lor PARSE_NOQUOTEIMG PARSE_NOSIGIMG) =? 0
      then any_end_with m b s [bytes ".jpg"; bytes ".gif"; bytes ".png"; bytes "jpeg"] else Done false) = Done i) as [i ->].
    { destruct (_ =? 0); [|by exists false]. apply any_end_with_ok; lia. }
    cbn [mbind outcome_bind]. destruct (escape_ok b s) as (x & -> & Hx); [lia|lia|]. cbn [mbind outcome_bind].
    eexists _, _. split; [done|]. split; [lia|].
    set (image := if i then bytes "i='i' " else []). assert (Forall plain image) by (by destruct i; auto with content).
    replace (bytes "<a " ++ image ++ bytes "href='" ++ x ++ bytes "'/>") with
      (bytes "<" ++ bytes "a" ++ (bytes " " ++ image ++ bytes "href='" ++ x ++ bytes "'") ++ bytes "/>" ++ []) by app_eq.
    apply content_empty; auto 10 with content.
Qed.

Local Abbreviation paragraph := (paragraph_loop iconv stack utf8).
Local Abbreviation lines := (body_loop iconv stack utf8).

Lemma paragraph_loop_ok fuel : forall s e opt ansi, 0 <= s <= e -> e <= blen m -> e - s < Z.of_nat fuel ->
  exists x, paragraph fuel m s e opt ansi = Done x /\ content x.
Proof.
  induction fuel as [|fuel IH]; intros s e opt ansi Hs He Hf; [lia|]. cbn [paragraph_loop].
  destruct (Z.eqb_spec s e); [exists []; auto with content|].
  assert (exists u, (u ← _memstr m s (bytes "http://") (e - s);
      match u with None => _memstr m s (bytes "https://") (e - s) | Some u => Done (Some u) end) = Done u /\
    match u with Some q => s <= q < e /\ rd m q = Done 104 | None => True end) as (u & Hu & Hq).
  { destruct (memstr_ok s e (bytes "http://")) as (u & -> & Hu); [lia|done|]. cbn [mbind outcome_bind].
    destruct u as [q|].
    - exists (Some q). destruct Hu as (? & Hb & Hr). change (blen (bytes "http://")) with 7 in *.
      split_and!; [done|lia..|exact (rdn_head _ _ 7 104 (bytes "ttp://") Hr)].
    - destruct (memstr_ok s e (bytes "https://")) as (u & -> & Hu'); [lia|done|]. exists u. split; [done|].
      destruct u as [q|]; [|done]. destruct Hu' as (? & Hb & Hr). change (blen (bytes "https://")) with 8 in *.
      split_and!; [lia..|exact (rdn_head _ _ 8 104 (bytes "ttps://") Hr)]. }
  destruct (_memstr m s (bytes "http://") (e - s)) as [u0| |] eqn:E0; [|done..].
  cbn [mbind outcome_bind] in Hu |- *. rewrite Hu. cbn [mbind outcome_bind]. destruct u as [url|].
  - destruct Hq as [Hq Hh]. destruct (ansi_text_ok s url ansi) as (x & a1 & -> & Hx); [lia|lia|].
    cbn [mbind outcome_bind].
    destruct (print_url_ok url e opt) as (s' & y & -> & Hs' & Hy); [lia|done|exists 104; by split|].
    cbn [mbind outcome_bind]. destruct (IH s' e opt a1) as (z & -> & Hz); [lia..|]. cbn [mbind outcome_bind].
    eexists. split; [done|auto with content].
  - destruct (ansi_text_ok s e ansi) as (x & a1 & -> & Hx); [lia|done|]. cbn [mbind outcome_bind]. eauto.
Qed.

Lemma line_end_ok fuel : forall s e, 0 <= s <= e -> e <= blen m -> e - s < Z.of_nat fuel ->
  exists le, line_end_loop fuel m s e = Done le /\ s <= le <= e /\ (s < e -> s < le).
Proof.
  induction fuel as [|fuel IH]; intros s e Hs He Hf; [lia|]. cbn [line_end_loop].
  destruct (Z.eqb_spec s e); [exists s; split_and!; (done || lia)|].
  destruct (rd_in m s) as [c ->]; [lia|]. cbn [mbind outcome_bind]. destruct (c =? 10).
  - exists (s + 1). split_and!; (done || lia).
  - destruct (IH (s + 1) e) as (le & -> & Hle & _); [lia..|]. exists le. split_and!; (done || lia).
Qed.

(** Parts of the body: texts in the elements that follow one another. *)
Inductive parts : list Z -> Prop :=
| parts_one x : content x -> parts x
| parts_next k x y : Forall plain k -> content x -> parts y ->
    parts (x ++ bytes "</pa><pa m='" ++ k ++ bytes "'>" ++ y).

Lemma parts_app x y : content x -> parts y -> parts (x ++ y).
Proof.
  intros Hx Hy. destruct Hy as [y Hy|k z y Hk Hz Hy].
  - constructor. by apply content_app.
  - rewrite (app_assoc x z). constructor; [done|by apply content_app|done].
Qed.

Lemma parts_content k x : Forall plain k -> parts x ->
  content (bytes "<pa m='" ++ k ++ bytes "'>" ++ x ++ bytes "</pa>").
Proof.
  intros Hk Hx. revert k Hk. induction Hx as [x Hx|k' x y Hk' Hx Hy IH]; intros k Hk.
  - replace (bytes "<pa m='" ++ k ++ bytes "'>" ++ x ++ bytes "</pa>") with
      (bytes "<" ++ bytes "pa" ++ (bytes " m='" ++ k ++ bytes "'") ++ bytes ">" ++ x ++
       bytes "</" ++ bytes "pa" ++ bytes ">") by app_eq.
    apply content_tag; auto 10 with content.
  - replace (bytes "<pa m='" ++ k ++ bytes "'>" ++ (x ++ bytes "</pa><pa m='" ++ k' ++ bytes "'>" ++ y) ++ bytes "</pa>")
      with (bytes "<" ++ bytes "pa" ++ (bytes " m='" ++ k ++ bytes "'") ++ bytes ">" ++ x ++
            bytes "</" ++ bytes "pa" ++ bytes ">" ++ (bytes "<pa m='" ++ k' ++ bytes "'>" ++ y ++ bytes "</pa>")) by app_eq.
    apply content_element; auto 10 with content.
Qed.

Lemma paragraph_tag x : content x -> content (bytes "<p>" ++ x ++ bytes "</p>").
Proof. intros. apply (content_tag (bytes "p") []); auto with content. Qed.

Lemma body_loop_ok fuel : forall s e opt sig quote, 0 <= s <= e -> e <= blen m -> e - s < Z.of_nat fuel ->
  exists x, lines fuel m s e opt sig quote = Done x /\ parts x.
Proof.
  induction fuel as [|fuel IH]; intros s e opt sig quote Hs He Hf; [lia|]. cbn [body_loop].
  destruct (Z.eqb_spec s e); [exists []; split; [done|constructor; constructor]|].
  unfold get_line_end. destruct (line_end_ok (length m + 1) s e) as (le & -> & Hle & Hlt);
    [lia|done|unfold blen in *; lia|]. cbn [mbind outcome_bind]. specialize (Hlt ltac:(lia)).
  assert (exists d : bool, (if negb sig && (le - s =? 3) then x ← rdn m s 3; Done (bool_decide (x = [45; 45; 10]))
    else Done false) = Done d) as [d ->].
  { destruct (negb sig && (le - s =? 3)) eqn:E; [|by exists false]. zprop E.
    destruct (rdn_in m s 3) as [x ->]; [lia..|]. by eexists. }
  cbn [mbind outcome_bind]. destruct d.
  - destruct (negb _); [exists []; split; [done|constructor; constructor]|].
    destruct (IH le e opt true false) as (x & -> & Hx); [lia..|]. cbn [mbind outcome_bind].
    eexists. split; [done|]. change (bytes "</pa><pa m='s'><p>--</p>") with
      ([] ++ bytes "</pa><pa m='" ++ bytes "s" ++ bytes "'>" ++ bytes "<p>--</p>").
    repeat rewrite <- app_assoc. constructor; [auto with content|constructor|]. apply parts_app; [|done].
    apply (paragraph_tag (bytes "--")). auto with content.
  - assert (exists q : bool, (if negb sig then _is_quote m s le else Done quote) = Done q) as [q ->].
    { destruct sig; [by exists quote|]. cbn [negb]. unfold _is_quote.
      destruct (begin_with_ok s le (bytes ": ")) as [r ->]; [lia..|]. cbn [mbind outcome_bind].
      destruct r; [by exists true|]. apply begin_with_ok; lia. }
    cbn [mbind outcome_bind].
    assert (exists b : bool, (if le =? s + 1 then Done true
      else if le =? s + 2 then c ← rd m s; Done (c =? 13) else Done false) = Done b) as [b ->].
    { destruct (le =? s + 1); [by exists true|]. destruct (le =? s + 2); [|by exists false].
      destruct (rd_in m s) as [c ->]; [lia|]. by eexists. }
    cbn [mbind outcome_bind].
    match goal with |- context [if b then Done (bytes "<br/>") else ?p] =>
      assert (exists t, (if b then Done (bytes "<br/>") else p) = Done t /\ content t) as (t & -> & Ht) end.
    { destruct b.
      - eexists. split; [done|]. apply (content_empty (bytes "br") []); auto with content.
      - unfold _print_paragraph. apply paragraph_loop_ok; unfold blen in *; lia. }
    cbn [mbind outcome_bind]. destruct (IH le e opt sig q) as (x & -> & Hx); [lia..|]. cbn [mbind outcome_bind].
    eexists. split; [done|].
    assert (parts (bytes "<p>" ++ t ++ bytes "</p>" ++ x)) as Hp.
    { replace (bytes "<p>" ++ t ++ bytes "</p>" ++ x) with ((bytes "<p>" ++ t ++ bytes "</p>") ++ x) by app_eq.
      apply parts_app; [by apply paragraph_tag|done]. }
    destruct (Bool.eqb q quote); [done|].
    destruct quote.
    + apply (parts_next (bytes "t") []); auto with content.
    + apply (parts_next (bytes "q") []); auto with content.
Qed.
End Body.


(** A quoted line, colours, an address and a signature. *)
Definition sample_post : list Z :=
  bytes ": <b>&" ++ [10] ++ bytes "a " ++ [27] ++ bytes "[1;31mb http://host/a.jpg" ++ [27] ++ bytes "[m" ++ [10] ++
  bytes "--" ++ [10] ++ bytes "me" ++ [200; 10].

