(* ===== verification/Quote.v ===== *)
(** Quotations: [get_truncated_line] to [quote_file_] of [lib/post.c]. *)
From S2P Require Import Prelude CString Utf8 PostParse.

Inductive post_quote_e :=
| QUOTE_NOTHING | QUOTE_AUTO | QUOTE_LONG | QUOTE_SOURCE | QUOTE_ALL | QUOTE_PACK | QUOTE_PACK_COMPACT.

#[export] Instance post_quote_eq_dec : EqDecision post_quote_e.
Proof. solve_decision. Defined.

Definition MAX_QUOTED_LINES : Z := 5.
Definition TRUNCATE_WIDTH : Z := 76.

(** What is looked for in an escape sequence: the length is that of a pointer
    less one, so that not all of the string is. *)
Definition code : list Z := take 7 (bytes "[0123456789;").

Section Memory.
(** The text is in [m]. *)
Context (m : list Z).

Fixpoint truncated_loop (fuel : nat) (s end_ width : Z) (ansi utf8 : bool) : outcome Z :=
  match fuel with
  | O => NoFuel
  | S fuel =>
      if s <? end_ then
        c ← rd m s;
        if c =? 10 then Done (s + 1)
        else if c =? 27 then truncated_loop fuel (s + 1) end_ width true utf8
        else if ansi then truncated_loop fuel (s + 1) end_ width (existsb (Z.eqb c) code) utf8
        else if negb (Z.land c 128 =? 0) then
          '(stop, s, width) ←
            (if (utf8 : bool) then
               '(wc, ptr, _) ← next_wchar m s (Some (end_ - s));
               if (wc =? WEOF) || (wc =? 0) then Done (false, s + 1, width)
               else
                 w ← fb_wcwidth wc;
                 if width - w <? 0 then Done (true, s, width - w) else Done (false, ptr - 1, width - w)
             else if width - 2 <? 0 then Done (true, s, width - 2) else Done (false, s + 1, width - 2));
          if (stop : bool) then Done s
          else if width =? 0 then Done (if end_ <? s + 1 then end_ else s + 1)
          else truncated_loop fuel (s + 1) end_ width ansi utf8
        else if width - 1 =? 0 then Done (s + 1)
        else truncated_loop fuel (s + 1) end_ (width - 1) ansi utf8
      else Done end_
  end.

Definition get_truncated_line (begin end_ : Z) (utf8 : bool) : outcome Z :=
  quoted ← (if 2 <=? end_ - begin then
              c ← rd m begin; if c =? 58 then d ← rd m (begin + 1); Done (d =? 32) else Done false
            else Done false);
  truncated_loop (Z.to_nat (end_ - begin) + 1) begin end_ (if (quoted : bool) then TRUNCATE_WIDTH + 2 else TRUNCATE_WIDTH) false utf8.

(** [*s] and the next byte are a quotation mark and a space. *)
Definition quote_mark (s end_ : Z) : outcome bool :=
  if 2 <? end_ - s then
    c ← rd m s;
    if (c =? 58) || (c =? 62) then d ← rd m (s + 1); Done (d =? 32) else Done false
  else Done false.

Fixpoint skip_blank (fuel : nat) (s end_ : Z) : outcome Z :=
  match fuel with
  | O => NoFuel
  | S fuel =>
      if s <? end_ then
        c ← rd m s;
        if (c =? 32) || (c =? 9) || (c =? 13) then skip_blank fuel (s + 1) end_ else Done s
      else Done s
  end.

Definition qualify_quotation (begin end_ : Z) : outcome bool :=
  q ← quote_mark begin end_;
  twice ← (if (q : bool) then quote_mark (begin + 2) end_ else Done false);
  if (twice : bool) then Done false
  else
    s ← skip_blank (Z.to_nat (end_ - begin) + 1) (if (q : bool) then begin + 2 else begin) end_;
    if s <? end_ then c ← rd m s; Done (negb (c =? 10)) else Done false.

Fixpoint newline_loop (fuel : nat) (begin end_ : Z) : outcome Z :=
  match fuel with
  | O => NoFuel
  | S fuel =>
      if begin <? end_ then c ← rd m begin; if c =? 10 then Done (begin + 1) else newline_loop fuel (begin + 1) end_
      else Done begin
  end.
Definition get_newline (begin end_ : Z) : outcome Z := newline_loop (Z.to_nat (end_ - begin) + 1) begin end_.

Fixpoint find_loop (fuel : nat) (p end_ c : Z) : outcome (option Z) :=
  match fuel with
  | O => NoFuel
  | S fuel =>
      if p <? end_ then x ← rd m p; if x =? c then Done (Some p) else find_loop fuel (p + 1) end_ c
      else Done None
  end.
Definition find_char (begin end_ c : Z) : outcome (option Z) := find_loop (Z.to_nat (end_ - begin) + 1) begin end_ c.

Fixpoint reverse_loop (fuel : nat) (begin p c : Z) : outcome (option Z) :=
  match fuel with
  | O => NoFuel
  | S fuel =>
      if begin <=? p then x ← rd m p; if x =? c then Done (Some p) else reverse_loop fuel begin (p - 1) c
      else Done None
  end.
Definition reverse_find_char (begin end_ c : Z) : outcome (option Z) :=
  reverse_loop (Z.to_nat (end_ - begin) + 1) begin (end_ - 1) c.

(** * Output *)

(** What [filter] writes for a text. *)
Context (filter : list Z -> list Z).

Definition write_range (b e : Z) : outcome (list Z) := s ← rdn m b (e - b); Done (filter s).

(** After the first space, or the end; after the last parenthesis, or the start. *)
Definition quote_author (begin lend : Z) (mail utf8 : bool) : outcome (list Z) :=
  sp ← find_char begin lend 32;
  let quser := match sp with Some p => p + 1 | None => lend end in
  par ← reverse_find_char begin lend 41;
  let ptr := match par with Some p => p + 1 | None => begin end in
  name ← (if quser <? ptr then write_range quser ptr else Done []);
  Done (filter (if utf8 then 10 :: bytes "【 在 " else [10; 0xa1; 0xbe; 32; 0xd4; 0xda; 32]) ++ name ++
        filter (if utf8 then bytes " 的" else [32; 0xb5; 0xc4]) ++
        filter (if mail then if utf8 then bytes "来信" else [0xc0; 0xb4; 0xd0; 0xc5]
                else if utf8 then bytes "大作" else [0xb4; 0xf3; 0xd7; 0xf7]) ++
        filter (if utf8 then bytes "中提到: 】" ++ [10]
                else [0xd6; 0xd0; 0xcc; 0xe1; 0xb5; 0xbd; 0x3a; 0x20; 0xa1; 0xbf; 10])).

Definition quote_author_pack (begin end_ : Z) : outcome (list Z) :=
  let user_begin := begin + blen (bytes "发信人: ") in
  lend ← get_newline begin end_;
  user_end ← reverse_find_char begin lend 44;
  begin ← get_newline lend end_;
  lend ← get_newline begin end_;
  date_begin ← find_char begin lend 40;
  date_end ← find_char begin lend 41;
  user ← (match user_end with Some e => if user_begin <? e then write_range user_begin e else Done [] | None => Done [] end);
  date ← (match date_begin with
          | Some b => let b := b + 1 in
                      match date_end with Some e => if b <? e then write_range b e else Done [] | None => Done [] end
          | None => Done []
          end);
  Done (filter (bytes "    " ++ [27] ++ bytes "[0;1;32m") ++ user ++
        filter (bytes " 于 " ++ [27] ++ bytes "[1;36m") ++ date ++
        filter ([27] ++ bytes "[0;1m 提到：" ++ [27] ++ bytes "[0m" ++ [10; 10])).

(** The marks of the line that says where a post is from, with the NUL that
    [sizeof] counts. *)
Definition SOURCE (utf8 : bool) : list Z :=
  (if utf8 then bytes "※ 来源:·" else [0xa1; 0xf9; 0x20; 0xc0; 0xb4; 0xd4; 0xb4; 0x3a; 0xa1; 0xa4]) ++ [0].

Definition OMITTED (utf8 : bool) : list Z :=
  bytes ": ................." ++
  (if utf8 then bytes "（以下省略）" else [0xa3; 0xa8; 0xd2; 0xd4; 0xcf; 0xc2; 0xca; 0xa1; 0xc2; 0xd4; 0xa3; 0xa9]).

Definition is_pack (mode : post_quote_e) : bool :=
  match mode with QUOTE_PACK | QUOTE_PACK_COMPACT => true | _ => false end.
Definition stops_at_signature (mode : post_quote_e) : bool :=
  match mode with QUOTE_LONG | QUOTE_AUTO | QUOTE_PACK | QUOTE_PACK_COMPACT => true | _ => false end.
Definition drops_lines (mode : post_quote_e) : bool := match mode with QUOTE_LONG | QUOTE_AUTO => true | _ => false end.
Definition has_mark (mode : post_quote_e) : bool :=
  match mode with QUOTE_SOURCE | QUOTE_PACK | QUOTE_PACK_COMPACT => false | _ => true end.

Definition ends_line (lend : Z) : outcome bool := c ← rd m (lend - 1); Done (c =? 10).

Fixpoint quote_loop (fuel : nat) (lend end_ : Z) (mode : post_quote_e) (utf8 header : bool) (lines : Z) : outcome (list Z) :=
  match fuel with
  | O => NoFuel
  | S fuel =>
      let ptr := lend in
      if end_ <=? ptr then Done []
      else
        lend ← (if is_pack mode then get_newline ptr end_ else get_truncated_line ptr end_ utf8);
        c ← rd m ptr;
        if (header : bool) && (c =? 10) then quote_loop fuel lend end_ mode utf8 false lines
        else
          sig ← (if lend - ptr =? 3 then s ← rdn m ptr 3; Done (bool_decide (s = bytes "--" ++ [10])) else Done false);
          if (sig : bool) && stops_at_signature mode then Done []
          else if negb header || bool_decide (mode = QUOTE_ALL) then
            q ← (if drops_lines mode then qualify_quotation ptr lend else Done true);
            if negb q then
              whole ← ends_line lend;
              lend ← (if (whole : bool) then Done lend else get_newline lend end_);
              quote_loop fuel lend end_ mode utf8 header lines
            else
              source ← (if bool_decide (mode = QUOTE_SOURCE) && (10 + blen (SOURCE utf8) <? lend - ptr)
                        then s ← rdn m (ptr + 10) (blen (SOURCE utf8)); Done (bool_decide (s = SOURCE utf8)) else Done false);
              if (source : bool) then Done []
              else
                let lines := if bool_decide (mode = QUOTE_AUTO) then lines + 1 else lines in
                if bool_decide (mode = QUOTE_AUTO) && (MAX_QUOTED_LINES <? lines) then Done (filter (OMITTED utf8))
                else
                  s ← write_range ptr lend;
                  whole ← ends_line lend;
                  rest ← quote_loop fuel lend end_ mode utf8 header lines;
                  Done ((if has_mark mode then filter (bytes ": ") else []) ++ s ++
                        (if (whole : bool) then [] else filter [10]) ++ rest)
          else quote_loop fuel lend end_ mode utf8 header lines
  end.

Definition quote_string (str size : Z) (mode : post_quote_e) (mail utf8 : bool) : outcome (list Z) :=
  let begin := str in
  let end_ := str + size in
  lend ← get_newline begin end_;
  author ← (if is_pack mode then quote_author_pack begin end_ else quote_author begin lend mail utf8);
  rest ← quote_loop (Z.to_nat size + 1) lend end_ mode utf8 true 0;
  Done (author ++ rest).
End Memory.

(** What the output file holds; [None]: it is not opened. [orig]: the file that
    is quoted, when it can be opened. *)
Definition quote_file_ (filter : list Z -> list Z) (orig : option (list Z)) (mode : post_quote_e) (mail utf8 : bool)
    : outcome (option (list Z)) :=
  match mode with
  | QUOTE_NOTHING => Done None
  | _ =>
      match orig with
      | Some m => out ← quote_string m filter 0 (blen m) mode mail utf8; Done (Some out)
      | None => Done (Some [])
      end
  end.
