(* ===== verification/QuoteSpec.v ===== *)
(** What a quotation is, by lines, and that [Quote] computes it. *)
From S2P Require Import Prelude CString Utf8 PostParse Quote.

(** * Lines of a text *)

(** The character at the start of [text] and its bytes. *)
Definition first_char (text : list Z) : option (Z * nat) :=
  match next_wchar text 0 (Some (blen text)) with
  | Done (wc, n, _) => if (wc =? WEOF) || (wc =? 0) then None else Some (wc, Z.to_nat n)
  | _ => None
  end.

(** How many bytes are in the first line, cut at [width] columns. *)
Fixpoint cut_len (fuel : nat) (utf8 ansi : bool) (width : Z) (text : list Z) : nat :=
  match fuel, text with
  | S fuel, c :: t =>
      if c =? 10 then 1
      else if c =? 27 then S (cut_len fuel utf8 true width t)
      else if ansi then S (cut_len fuel utf8 (existsb (Z.eqb c) code) width t)
      else if negb (Z.land c 128 =? 0) then
        let '(n, w) := if utf8 then match first_char text with Some (wc, n) => (n, wcwidth wc) | None => (2%nat, 0) end else (2%nat, 2) in
        if width - w <? 0 then 0
        else if width - w =? 0 then n
        else n + cut_len fuel utf8 ansi (width - w) (drop n text)
      else if width - 1 =? 0 then 1 else S (cut_len fuel utf8 ansi (width - 1) t)
  | _, _ => 0
  end.

Definition marked (s : list Z) : bool :=
  match s with c :: d :: _ :: _ => ((c =? 58) || (c =? 62)) && (d =? 32) | _ => false end.

Definition line_width (text : list Z) : Z :=
  match text with c :: d :: _ => if (c =? 58) && (d =? 32) then TRUNCATE_WIDTH + 2 else TRUNCATE_WIDTH | _ => TRUNCATE_WIDTH end.

(** Up to the first newline. *)
Definition cut (mode : post_quote_e) (utf8 : bool) (text : list Z) : list Z * list Z :=
  let n := if is_pack mode then newline_len text else cut_len (length text) utf8 false (line_width text) text in
  (take n text, drop n text).

Fixpoint drop_blank (s : list Z) : list Z :=
  match s with [] => [] | c :: t => if (c =? 32) || (c =? 9) || (c =? 13) then drop_blank t else s end.

(** A line that is worth quoting: not quoted twice, not blank. *)
Definition qualifies (s : list Z) : bool :=
  negb (marked s && marked (drop 2 s)) &&
  match drop_blank (if marked s then drop 2 s else s) with [] => false | c :: _ => negb (c =? 10) end.

Definition line_end (s : list Z) : bool := match list.last s with Some c => c =? 10 | None => false end.
Definition signature : list Z := bytes "--" ++ [10].

(** The lines before the first empty one, the text after it, and whether there
    is one. *)
Fixpoint heads (fuel : nat) (mode : post_quote_e) (utf8 : bool) (text : list Z) : list (list Z) * option (list Z) :=
  match fuel, text with
  | S fuel, c :: _ =>
      let '(l, rest) := cut mode utf8 text in
      if c =? 10 then ([], Some rest)
      else if bool_decide (l = signature) && stops_at_signature mode then ([], None)
      else let '(ls, body) := heads fuel mode utf8 rest in (l :: ls, body)
  | _, _ => ([], None)
  end.

(** The lines of the body; what is left of a line that is not worth quoting goes
    with its start. *)
Fixpoint body_lines (fuel : nat) (mode : post_quote_e) (utf8 : bool) (text : list Z) : list (list Z) :=
  match fuel, text with
  | S fuel, _ :: _ =>
      let '(l, rest) := cut mode utf8 text in
      let rest := if drops_lines mode && negb (qualifies l) && negb (line_end l) then drop (newline_len rest) rest else rest in
      l :: body_lines fuel mode utf8 rest
  | _, _ => []
  end.

Fixpoint upto (stop : list Z -> bool) (ls : list (list Z)) : list (list Z) :=
  match ls with [] => [] | l :: ls => if stop l then [] else l :: upto stop ls end.

Definition is_source (utf8 : bool) (l : list Z) : bool :=
  (10 + blen (SOURCE utf8) <? blen l) && bool_decide (take (length (SOURCE utf8)) (drop 10 l) = SOURCE utf8).

Section Out.
Context (out : list Z -> list Z).

Definition quoted (mode : post_quote_e) (l : list Z) : list Z :=
  (if has_mark mode then out (bytes ": ") else []) ++ out l ++ (if line_end l then [] else out [10]).

(** The lines of the text after its first one that are quoted. *)
Definition kept (mode : post_quote_e) (utf8 : bool) (text : list Z) : list (list Z) :=
  let '(hs, body) := heads (length text) mode utf8 text in
  let ls := body_lines (length text) mode utf8 (default [] body) in
  match mode with
  | QUOTE_NOTHING => ls
  | QUOTE_ALL => hs ++ ls
  | QUOTE_SOURCE => upto (is_source utf8) ls
  | QUOTE_PACK | QUOTE_PACK_COMPACT => upto (fun l => bool_decide (l = signature)) ls
  | QUOTE_LONG | QUOTE_AUTO => base.filter (fun l => qualifies l = true) (upto (fun l => bool_decide (l = signature)) ls)
  end.

Definition quotation (mode : post_quote_e) (utf8 : bool) (text : list Z) : list Z :=
  let ls := kept mode utf8 text in
  match mode with
  | QUOTE_AUTO => mjoin (quoted mode <$> take 5 ls) ++ if (5 <? length ls)%nat then out (OMITTED utf8) else []
  | _ => mjoin (quoted mode <$> ls)
  end.
End Out.

(** * Characters *)

Lemma rd_shift pre text post p : 0 <= p < blen text -> rd (pre ++ text ++ post) (blen pre + p) = rd text p.
Proof.
  intros Hp. unfold rd. pose proof (blen_nonneg pre). rewrite (proj2 (Z.ltb_ge (blen pre + p) 0)), (proj2 (Z.ltb_ge p 0)) by lia.
  rewrite lookup_app_r by (unfold blen in *; lia). rewrite lookup_app_l by (unfold blen in *; lia).
  replace (Z.to_nat (blen pre + p) - length pre)%nat with (Z.to_nat p) by (unfold blen in *; lia). done.
Qed.

Lemma conts_shift pre text post n : forall p, 0 <= p -> p + Z.of_nat n <= blen text ->
  conts_at (pre ++ text ++ post) (blen pre + p) n = conts_at text p n.
Proof.
  induction n as [|n IH]; intros p Hp Hn; [done|]. cbn [conts_at]. rewrite rd_shift by lia.
  destruct (rd text p); cbn [mbind outcome_bind]; try done. destruct (is_cont a); [|done].
  rewrite <- IH by lia. f_equal. lia.
Qed.

(** What is decoded at the start of a text does not depend on what is around. *)
Lemma wchar_shift pre c t post : let text := c :: t in
  next_wchar (pre ++ text ++ post) (blen pre) (Some (blen text)) =
    match next_wchar text 0 (Some (blen text)) with
    | Done (wc, n, rest) => Done (wc, blen pre + n, rest)
    | Fault => Fault
    | NoFuel => NoFuel
    end.
Proof.
  intros text. pose proof (blen_nonneg t). assert (blen text = 1 + blen t) as Hl by (subst text; by rewrite blen_cons).
  unfold next_wchar. cbn [from_option id]. rewrite (proj2 (Z.eqb_neq (blen text) 0)) by lia.
  assert (forall p, 0 <= p < blen text -> rd (pre ++ text ++ post) (blen pre + p) = rd text p) as Hr by (intros; by apply rd_shift).
  assert (forall p n, 0 <= p -> p + Z.of_nat n <= blen text -> conts_at (pre ++ text ++ post) (blen pre + p) n = conts_at text p n) as Hc
    by (intros; by apply conts_shift).
  pose proof (Hr 0 ltac:(lia)) as Hr0. rewrite Z.add_0_r in Hr0. rewrite Hr0.
  destruct (rd text 0) as [s0| |]; cbn [mbind outcome_bind]; try done. change (0 + 1) with 1; change (0 + 2) with 2; change (0 + 3) with 3.
  destruct (s0 =? 0); [do 3 f_equal; lia|]. destruct (s0 <? 128); [done|].
  destruct (Z.land s0 224 =? 192); cbn [andb]; [destruct (Z.ltb_spec 1 (blen text))|].
  1: { rewrite Hc by lia. destruct (conts_at text 1 1) as [[]| |]; cbn [mbind outcome_bind]; try done; [|do 3 f_equal; lia].
       rewrite Hr by lia. by destruct (rd text 1). }
  all: (destruct (Z.land s0 240 =? 224); cbn [andb]; [destruct (Z.ltb_spec 2 (blen text))|]).
  all: try (rewrite Hc by lia; destruct (conts_at text 1 2) as [[]| |]; cbn [mbind outcome_bind]; try done; [|do 3 f_equal; lia];
       rewrite !Hr by lia; destruct (rd text 1); cbn [mbind outcome_bind]; try done; by destruct (rd text 2)).
  all: (destruct (Z.land s0 248 =? 240); cbn [andb]; [destruct (Z.ltb_spec 3 (blen text))|]).
  all: try (rewrite Hc by lia; destruct (conts_at text 1 3) as [[]| |]; cbn [mbind outcome_bind]; try done; [|do 3 f_equal; lia];
       rewrite !Hr by lia; destruct (rd text 1); cbn [mbind outcome_bind]; try done; destruct (rd text 2); cbn [mbind outcome_bind]; try done;
       by destruct (rd text 3)).
  all: do 3 f_equal; lia.
Qed.

Lemma conts_total text n : forall p, 0 <= p -> p + Z.of_nat n <= blen text -> exists b, conts_at text p n = Done b.
Proof.
  induction n as [|n IH]; intros p Hp Hn; [by eexists|]. cbn [conts_at]. destruct (rd_in text p) as [c ->]; [lia|].
  cbn [mbind outcome_bind]. destruct (is_cont c); [apply IH; lia|by eexists].
Qed.

(** Decoding never faults, and stays within the text. *)
Lemma wchar_total c t : let text := c :: t in exists wc n rest, next_wchar text 0 (Some (blen text)) = Done (wc, n, rest) /\
  0 <= n <= blen text /\ (wc = WEOF \/ wc = 0 \/ 1 <= n).
Proof.
  intros text. pose proof (blen_nonneg t). assert (blen text = 1 + blen t) as Hl by (subst text; by rewrite blen_cons).
  unfold next_wchar. cbn [from_option id]. rewrite (proj2 (Z.eqb_neq (blen text) 0)) by lia.
  destruct (rd_in text 0) as [s0 ->]; [lia|]. cbn [mbind outcome_bind]. change (0 + 1) with 1; change (0 + 2) with 2; change (0 + 3) with 3.
  destruct (s0 =? 0); [do 3 eexists; split; [done|lia]|]. destruct (s0 <? 128); [do 3 eexists; split; [done|lia]|].
  destruct (Z.land s0 224 =? 192); cbn [andb]; [destruct (Z.ltb_spec 1 (blen text))|].
  1: { destruct (conts_total text 1 1) as [b ->]; [lia..|]. cbn [mbind outcome_bind]. destruct b; [|do 3 eexists; split; [done|lia]].
       destruct (rd_in text 1) as [? ->]; [lia|]. do 3 eexists; split; [done|lia]. }
  all: (destruct (Z.land s0 240 =? 224); cbn [andb]; [destruct (Z.ltb_spec 2 (blen text))|]).
  all: try (destruct (conts_total text 2 1) as [b ->]; [lia..|]; cbn [mbind outcome_bind]; (destruct b; [|do 3 eexists; split; [done|lia]]);
       destruct (rd_in text 1) as [? ->]; [lia|]; destruct (rd_in text 2) as [? ->]; [lia|]; do 3 eexists; split; [done|lia]).
  all: (destruct (Z.land s0 248 =? 240); cbn [andb]; [destruct (Z.ltb_spec 3 (blen text))|]).
  all: try (destruct (conts_total text 3 1) as [b ->]; [lia..|]; cbn [mbind outcome_bind]; (destruct b; [|do 3 eexists; split; [done|lia]]);
       destruct (rd_in text 1) as [? ->]; [lia|]; destruct (rd_in text 2) as [? ->]; [lia|]; destruct (rd_in text 3) as [? ->]; [lia|];
       do 3 eexists; split; [done|lia]).
  all: do 3 eexists; split; [done|lia].
Qed.

(** * Cutting lines *)

(** The pointer program finds the cut. *)
Lemma truncated_ok fuel' text : forall fuel pre post width ansi utf8, 0 < width -> (length text < fuel)%nat -> (length text <= fuel')%nat ->
  truncated_loop (pre ++ text ++ post) fuel (blen pre) (blen pre + blen text) width ansi utf8 =
    Done (blen pre + Z.of_nat (Nat.min (cut_len fuel' utf8 ansi width text) (length text))).
Proof.
  revert text. induction fuel' as [fuel' IH] using (well_founded_induction lt_wf). intros text fuel pre post width ansi utf8 Hw0 Hf Hf'.
  destruct fuel as [|fuel]; [lia|]. destruct text as [|c t].
  { cbn [truncated_loop]. rewrite (proj2 (Z.ltb_ge _ _)) by (change (blen []) with 0; lia). destruct fuel'; cbn; f_equal; change (blen []) with 0; lia. }
  destruct fuel' as [|fuel']; [cbn in Hf'; lia|]. cbn [length] in *. pose proof (blen_nonneg t).
  cbn [truncated_loop cut_len]. rewrite (proj2 (Z.ltb_lt (blen pre) _)) by (rewrite blen_cons; lia). rewrite rd_head. cbn [mbind outcome_bind].
  assert (forall s r width ansi, 0 < width -> c :: t = s ++ r -> s <> [] ->
    truncated_loop (pre ++ (c :: t) ++ post) fuel (blen pre + blen s) (blen pre + blen (c :: t)) width ansi utf8 =
    Done (blen pre + blen s + Z.of_nat (Nat.min (cut_len fuel' utf8 ansi width r) (length r)))) as Hstep.
  { intros s r w a Hpos Hs Hne. rewrite Hs, move_on. replace (blen pre + blen (s ++ r)) with (blen (pre ++ s) + blen r) by (rewrite !blen_app; lia).
    rewrite <- blen_app. assert (S (length t) = (length s + length r)%nat) as Hlen by (rewrite <- length_app, <- Hs; done).
    destruct s as [|x s]; [done|]. cbn [length] in Hlen. by apply IH; lia. }
  assert (forall width ansi, 0 < width -> truncated_loop (pre ++ (c :: t) ++ post) fuel (blen pre + 1) (blen pre + blen (c :: t)) width ansi utf8 =
    Done (blen pre + Z.of_nat (Nat.min (S (cut_len fuel' utf8 ansi width t)) (S (length t))))) as Hone.
  { intros w a Hpos. pose proof (Hstep [c] t w a Hpos eq_refl ltac:(done)) as E. change (blen [c]) with 1 in E. rewrite E. f_equal. lia. }
  destruct (c =? 10); [f_equal; lia|]. destruct (c =? 27); [by apply Hone|]. destruct ansi; [by apply Hone|].
  destruct (negb (Z.land c 128 =? 0)) eqn:Ehigh; [|destruct (Z.eqb_spec (width - 1) 0); [f_equal; lia|apply Hone; lia]].
  assert (forall n w, 0 < w -> (1 <= n)%nat -> (n <= S (length t))%nat \/ n = 2%nat ->
    truncated_loop (pre ++ (c :: t) ++ post) fuel (blen pre + Z.of_nat n - 1 + 1) (blen pre + blen (c :: t)) w false utf8 =
    Done (blen pre + Z.of_nat (Nat.min (n + cut_len fuel' utf8 false w (drop n (c :: t))) (S (length t))))) as Hmany.
  { intros n w Hpos Hn Hor. destruct (decide (n <= S (length t))%nat) as [Hle|Hgt].
    - pose proof (Hstep (take n (c :: t)) (drop n (c :: t)) w false Hpos) as E. rewrite take_drop in E. specialize (E eq_refl).
      assert (length (take n (c :: t)) = n) as Hlt by (rewrite length_take; cbn; lia).
      replace (blen pre + Z.of_nat n - 1 + 1) with (blen pre + blen (take n (c :: t))) by (unfold blen; lia).
      rewrite E by (intros Hnil; rewrite Hnil in Hlt; cbn in Hlt; lia). f_equal. unfold blen at 2. rewrite Hlt, length_drop. cbn [length]. lia.
    - destruct Hor as [?| ->]; [lia|]. destruct t; [|cbn in Hgt; lia]. destruct fuel as [|fuel]; [cbn in Hf; lia|]. cbn [truncated_loop].
      rewrite (proj2 (Z.ltb_ge _ _)) by (change (blen [c]) with 1; lia). f_equal; change (blen [c]) with 1; cbn [length]; lia. }
  destruct utf8.
  - destruct (wchar_total c t) as (wc & n & rest & Hw & Hn & Hor). replace (blen pre + blen (c :: t) - blen pre) with (blen (c :: t)) by lia.
    rewrite wchar_shift, Hw. cbn [mbind outcome_bind]. unfold first_char. rewrite Hw.
    destruct ((wc =? WEOF) || (wc =? 0)) eqn:Ew; cbn [mbind outcome_bind].
    + rewrite Z.sub_0_r. rewrite (proj2 (Z.ltb_ge width 0)), (proj2 (Z.eqb_neq width 0)) by lia.
      rewrite <- (Hmany 2%nat width) by lia. do 2 f_equal. lia.
    + apply orb_false_iff in Ew as [Ew1 Ew2]. apply Z.eqb_neq in Ew1, Ew2. assert (1 <= n) as Hn1 by lia.
      rewrite fb_wcwidth_eq. cbn [mbind outcome_bind]. destruct (Z.ltb_spec (width - wcwidth wc) 0); cbn [mbind outcome_bind]; [f_equal; lia|].
      rewrite blen_cons in Hn. assert (Z.to_nat n <= S (length t))%nat by (unfold blen in *; lia).
      destruct (Z.eqb_spec (width - wcwidth wc) 0).
      * rewrite (proj2 (Z.ltb_ge _ _)) by (rewrite blen_cons; lia). f_equal. lia.
      * rewrite <- (Hmany (Z.to_nat n) (width - wcwidth wc)) by lia. do 2 f_equal. lia.
  - destruct (Z.ltb_spec (width - 2) 0); cbn [mbind outcome_bind]; [f_equal; lia|].
    destruct (Z.eqb_spec (width - 2) 0).
    + rewrite blen_cons. destruct (Z.ltb_spec (blen pre + (1 + blen t)) (blen pre + 1 + 1)); f_equal; unfold blen in *; lia.
    + rewrite <- (Hmany 2%nat (width - 2)) by lia. do 2 f_equal. lia.
Qed.

Lemma newline_loop_ok text : forall fuel pre post, (length text < fuel)%nat ->
  newline_loop (pre ++ text ++ post) fuel (blen pre) (blen pre + blen text) = Done (blen pre + Z.of_nat (newline_len text)).
Proof.
  induction text as [|c t IH]; intros [|fuel] pre post Hf; cbn [length] in Hf; try lia; cbn [newline_loop newline_len].
  - rewrite (proj2 (Z.ltb_ge _ _)) by (change (blen []) with 0; lia). f_equal. lia.
  - rewrite (proj2 (Z.ltb_lt _ _)) by (rewrite blen_cons; pose proof (blen_nonneg t); lia). rewrite rd_head. cbn [mbind outcome_bind].
    destruct (c =? 10); [f_equal; lia|]. change (c :: t) with ([c] ++ t). rewrite move_on.
    replace (blen pre + 1) with (blen (pre ++ [c])) by (by rewrite blen_app).
    replace (blen pre + blen ([c] ++ t)) with (blen (pre ++ [c]) + blen t) by (rewrite !blen_app; lia).
    rewrite IH by lia. f_equal. rewrite blen_app. change (blen [c]) with 1. lia.
Qed.

Lemma get_newline_ok pre text post :
  get_newline (pre ++ text ++ post) (blen pre) (blen pre + blen text) = Done (blen pre + Z.of_nat (newline_len text)).
Proof. unfold get_newline. apply newline_loop_ok. unfold blen. lia. Qed.

Lemma cut_app mode utf8 text : text = (cut mode utf8 text).1 ++ (cut mode utf8 text).2.
Proof. unfold cut. cbn. by rewrite take_drop. Qed.

Lemma wcwidth_le ch : wcwidth ch <= 2.
Proof. unfold wcwidth. repeat case_match; lia. Qed.

Lemma cut_len_pos fuel utf8 ansi width c t : 2 < width -> (length (c :: t) <= fuel)%nat ->
  (1 <= cut_len fuel utf8 ansi width (c :: t))%nat.
Proof.
  intros Hw Hf. destruct fuel as [|fuel]; [cbn in Hf; lia|]. cbn [cut_len].
  destruct (c =? 10); [lia|]. destruct (c =? 27); [lia|]. destruct ansi; [lia|]. destruct (negb _); [|destruct (width - 1 =? 0); lia].
  assert (forall n w, (1 <= n)%nat -> w <= 2 -> (1 <= if (width - w <? 0)%Z then 0 else if (width - w =? 0)%Z then n else n + cut_len fuel utf8 false (width - w)%Z (drop n (c :: t)))%nat) as H.
  { intros n w Hn Hle. rewrite (proj2 (Z.ltb_ge _ _)) by lia. destruct (_ =? 0); lia. }
  destruct utf8; [|apply H; lia]. unfold first_char. destruct (wchar_total c t) as (wc & n & rest & Hwc & Hn & Hor). rewrite Hwc.
  destruct ((wc =? WEOF) || (wc =? 0)) eqn:E; [apply H; lia|].
  apply orb_false_iff in E as [E1 E2]. apply Z.eqb_neq in E1, E2. apply H; [lia|apply wcwidth_le].
Qed.

Lemma line_width_pos text : 2 < line_width text.
Proof. unfold line_width. destruct text as [|? [|? ?]]; try (by vm_compute). by destruct (_ && _). Qed.

Lemma cut_pos mode utf8 c t : (cut mode utf8 (c :: t)).1 <> [].
Proof.
  unfold cut. cbn [fst]. set (n := if is_pack mode then _ else _).
  assert (1 <= n)%nat as Hn.
  { subst n. destruct (is_pack mode); [cbn; destruct (c =? 10); lia|]. apply cut_len_pos; [apply line_width_pos|done]. }
  destruct n; [lia|]. done.
Qed.

(** Where a line ends. *)
Lemma line_ok pre c t post mode utf8 : let text := c :: t in
  (if is_pack mode then get_newline (pre ++ text ++ post) (blen pre) (blen pre + blen text)
   else get_truncated_line (pre ++ text ++ post) (blen pre) (blen pre + blen text) utf8) =
    Done (blen pre + blen (cut mode utf8 text).1).
Proof.
  intros text. unfold cut. destruct (is_pack mode).
  - rewrite get_newline_ok. f_equal. cbn [fst]. pose proof (newline_len_le text). unfold blen. rewrite length_take. lia.
  - unfold get_truncated_line. replace (blen pre + blen text - blen pre) with (blen text) by lia.
    assert ((if 2 <=? blen text
      then c ← rd (pre ++ text ++ post) (blen pre); if c =? 58 then d ← rd (pre ++ text ++ post) (blen pre + 1); Done (d =? 32) else Done false
      else Done false) = Done (match text with c :: d :: _ => (c =? 58) && (d =? 32) | _ => false end)) as ->.
    { subst text. destruct t as [|d t]; [done|]. rewrite (proj2 (Z.leb_le _ _)) by (rewrite !blen_cons; pose proof (blen_nonneg t); lia).
      rewrite rd_head. cbn [mbind outcome_bind]. destruct (c =? 58); [|done]. by rewrite (rd_at _ (pre ++ [c]) d (t ++ post)) by (app_eq || by rewrite blen_app). }
    cbn [mbind outcome_bind]. rewrite (truncated_ok (length text)); [|by destruct (match _ with [] => _ | _ => _ end)|unfold blen; lia|lia].
    f_equal. cbn [fst]. unfold blen. rewrite length_take. unfold line_width. subst text. destruct t as [|d t]; [done|]. destruct (_ && _); done.
Qed.

(** * The tests of a line *)

Lemma quote_mark_ok pre s post : quote_mark (pre ++ s ++ post) (blen pre) (blen pre + blen s) = Done (marked s).
Proof.
  unfold quote_mark. replace (blen pre + blen s - blen pre) with (blen s) by lia.
  destruct s as [|c [|d [|e t]]]; try done. rewrite (proj2 (Z.ltb_lt _ _)) by (rewrite !blen_cons; pose proof (blen_nonneg t); lia).
  rewrite rd_head. cbn [mbind outcome_bind marked]. destruct ((c =? 58) || (c =? 62)); [|done].
  by rewrite (rd_at _ (pre ++ [c]) d (e :: t ++ post)) by (app_eq || by rewrite blen_app).
Qed.

Lemma skip_blank_ok s : forall fuel pre post, (length s < fuel)%nat ->
  skip_blank (pre ++ s ++ post) fuel (blen pre) (blen pre + blen s) = Done (blen pre + blen s - blen (drop_blank s)).
Proof.
  induction s as [|c t IH]; intros [|fuel] pre post Hf; cbn [length] in Hf; try lia; cbn [skip_blank drop_blank].
  - rewrite (proj2 (Z.ltb_ge _ _)) by (change (blen []) with 0; lia). f_equal. change (blen []) with 0. lia.
  - rewrite (proj2 (Z.ltb_lt _ _)) by (rewrite blen_cons; pose proof (blen_nonneg t); lia). rewrite rd_head. cbn [mbind outcome_bind].
    destruct (_ || _); [|f_equal; lia]. change (c :: t) with ([c] ++ t). rewrite move_on.
    replace (blen pre + 1) with (blen (pre ++ [c])) by (by rewrite blen_app).
    replace (blen pre + blen ([c] ++ t)) with (blen (pre ++ [c]) + blen t) by (rewrite !blen_app; lia). rewrite IH by lia. done.
Qed.

Lemma drop_blank_split s : exists b, s = b ++ drop_blank s.
Proof. induction s as [|c s [b IH]]; [by exists []|]. cbn. destruct (_ || _); [exists (c :: b); by rewrite IH at 1|by exists []]. Qed.

(** The head of what follows the blanks. *)
Lemma not_blank_ok pre s post : (s0 ← skip_blank (pre ++ s ++ post) (Z.to_nat (blen s) + 1) (blen pre) (blen pre + blen s);
   if s0 <? blen pre + blen s then c ← rd (pre ++ s ++ post) s0; Done (negb (c =? 10)) else Done false) =
  Done (match drop_blank s with [] => false | c :: _ => negb (c =? 10) end).
Proof.
  rewrite skip_blank_ok by (unfold blen; lia). cbn [mbind outcome_bind]. destruct (drop_blank_split s) as [b Hb].
  destruct (drop_blank s) as [|c r].
  - rewrite (proj2 (Z.ltb_ge _ _)) by (change (blen []) with 0; lia). done.
  - rewrite (proj2 (Z.ltb_lt _ _)) by (rewrite blen_cons; pose proof (blen_nonneg r); lia).
    rewrite (rd_at _ (pre ++ b) c (r ++ post)); [done|rewrite Hb; app_eq|rewrite Hb, !blen_app; lia].
Qed.

Lemma qualify_ok pre s post : qualify_quotation (pre ++ s ++ post) (blen pre) (blen pre + blen s) = Done (qualifies s).
Proof.
  unfold qualify_quotation, qualifies. rewrite quote_mark_ok. cbn [mbind outcome_bind]. destruct (marked s) eqn:E.
  - destruct s as [|c [|d s']]; try done. pose proof (blen_nonneg s').
    replace (blen pre + 2) with (blen (pre ++ [c; d])) by (by rewrite blen_app).
    replace (pre ++ (c :: d :: s') ++ post) with ((pre ++ [c; d]) ++ s' ++ post) by app_eq.
    replace (blen pre + blen (c :: d :: s')) with (blen (pre ++ [c; d]) + blen s') by (rewrite blen_app, !blen_cons; change (blen []) with 0; lia).
    rewrite quote_mark_ok. change (drop 2 (c :: d :: s')) with s'. cbn [drop mbind outcome_bind andb]. destruct (marked s'); [done|]. cbn [negb andb].
    assert (forall n, (length s' < n)%nat -> skip_blank ((pre ++ [c; d]) ++ s' ++ post) n (blen (pre ++ [c; d])) (blen (pre ++ [c; d]) + blen s')
      = skip_blank ((pre ++ [c; d]) ++ s' ++ post) (Z.to_nat (blen s') + 1) (blen (pre ++ [c; d])) (blen (pre ++ [c; d]) + blen s')) as Hfuel
      by (intros n Hn; rewrite !skip_blank_ok by (done || (unfold blen; lia)); done).
    rewrite Hfuel by (rewrite blen_app; change (blen [c; d]) with 2; unfold blen; lia). apply not_blank_ok.
  - cbn [mbind outcome_bind andb negb]. replace (blen pre + blen s - blen pre) with (blen s) by lia. apply not_blank_ok.
Qed.

Lemma ends_line_ok pre s post : s <> [] -> ends_line (pre ++ s ++ post) (blen pre + blen s) = Done (line_end s).
Proof.
  intros Hs. destruct (exists_last Hs) as (r & c & ->). unfold ends_line, line_end. rewrite last_snoc.
  rewrite (rd_at _ (pre ++ r) c post); [done|app_eq|rewrite !blen_app; change (blen [c]) with 1; lia].
Qed.

Lemma write_range_ok out pre s post : write_range (pre ++ s ++ post) out (blen pre) (blen pre + blen s) = Done (out s).
Proof. unfold write_range. by rewrite (rdn_at _ pre s post) by (done || lia). Qed.

Lemma sig_ok pre l post : (if blen pre + blen l - blen pre =? 3 then s ← rdn (pre ++ l ++ post) (blen pre) 3; Done (bool_decide (s = bytes "--" ++ [10]))
  else Done false) = Done (bool_decide (l = signature)).
Proof.
  replace (blen pre + blen l - blen pre) with (blen l) by lia. destruct (Z.eqb_spec (blen l) 3) as [E|E].
  - by rewrite (rdn_at _ pre l post).
  - rewrite bool_decide_eq_false_2; [done|]. intros ->. by apply E.
Qed.

Lemma source_ok pre l post utf8 (b : bool) :
  (if b && (10 + blen (SOURCE utf8) <? blen pre + blen l - blen pre)
   then s ← rdn (pre ++ l ++ post) (blen pre + 10) (blen (SOURCE utf8)); Done (bool_decide (s = SOURCE utf8)) else Done false) =
  Done (b && is_source utf8 l).
Proof.
  replace (blen pre + blen l - blen pre) with (blen l) by lia. unfold is_source. destruct b; [|done]. cbn [andb].
  destruct (Z.ltb_spec (10 + blen (SOURCE utf8)) (blen l)) as [Hl|]; [|done]. cbn [andb].
  rewrite (rdn_at _ (pre ++ take 10 l) (take (length (SOURCE utf8)) (drop 10 l)) (drop (length (SOURCE utf8)) (drop 10 l) ++ post)); [done|..].
  - rewrite <- (take_drop 10 l) at 1. rewrite <- (take_drop (length (SOURCE utf8)) (drop 10 l)) at 1. app_eq.
  - rewrite blen_app. unfold blen in *. rewrite length_take. lia.
  - unfold blen in *. rewrite length_take, length_drop. lia.
Qed.

(** * The body *)

Section Loop.
Context (out : list Z -> list Z).

(** What is quoted of lines of the body when [k] lines are quoted already. *)
Definition body_out (mode : post_quote_e) (utf8 : bool) (k : nat) (ls : list (list Z)) : list Z :=
  match mode with
  | QUOTE_AUTO =>
      let qs := base.filter (fun l => qualifies l = true) (upto (fun l => bool_decide (l = signature)) ls) in
      mjoin (quoted out mode <$> take (5 - k) qs) ++ if (5 - k <? length qs)%nat then out (OMITTED utf8) else []
  | QUOTE_LONG => mjoin (quoted out mode <$> base.filter (fun l => qualifies l = true) (upto (fun l => bool_decide (l = signature)) ls))
  | QUOTE_SOURCE => mjoin (quoted out mode <$> upto (is_source utf8) ls)
  | QUOTE_PACK | QUOTE_PACK_COMPACT => mjoin (quoted out mode <$> upto (fun l => bool_decide (l = signature)) ls)
  | QUOTE_ALL | QUOTE_NOTHING => mjoin (quoted out mode <$> ls)
  end.

(** One line of the body. *)
Lemma body_out_cons mode utf8 k l ls : (k <= 5)%nat ->
  body_out mode utf8 k (l :: ls) =
    if bool_decide (l = signature) && stops_at_signature mode then []
    else if drops_lines mode && negb (qualifies l) then body_out mode utf8 k ls
    else if bool_decide (mode = QUOTE_SOURCE) && is_source utf8 l then []
    else if bool_decide (mode = QUOTE_AUTO) && (k =? 5)%nat then out (OMITTED utf8)
    else quoted out mode l ++ body_out mode utf8 (if bool_decide (mode = QUOTE_AUTO) then S k else k) ls.
Proof.
  intros Hk. destruct mode; cbn [body_out stops_at_signature drops_lines andb upto]; rewrite ?andb_false_r, ?andb_true_r; try done.
  - destruct (bool_decide (l = signature)); [rewrite filter_nil, take_nil; by destruct (5 - k)%nat|]. rewrite filter_cons. destruct (qualifies l); cbn [negb]; [|done].
    rewrite decide_True by done. change (bool_decide (QUOTE_AUTO = QUOTE_SOURCE)) with false. change (bool_decide (QUOTE_AUTO = QUOTE_AUTO)) with true. cbn [andb].
    destruct (Nat.eqb_spec k 5) as [->|Hne]; [done|]. replace (5 - k)%nat with (S (5 - S k)) by lia. cbn [take length].
    rewrite fmap_cons. cbn [mjoin list_join]. rewrite <- app_assoc. done.
  - destruct (bool_decide (l = signature)); [done|]. rewrite filter_cons. by destruct (qualifies l).
  - change (bool_decide (QUOTE_SOURCE = QUOTE_SOURCE)) with true. cbn [andb]. by destruct (is_source utf8 l).
  - by destruct (bool_decide (l = signature)).
  - by destruct (bool_decide (l = signature)).
Qed.

Lemma quote_body_ok fuel' mode utf8 : forall text fuel pre post k, (length text < fuel)%nat -> (length text <= fuel')%nat -> (k <= 5)%nat ->
  quote_loop (pre ++ text ++ post) out fuel (blen pre) (blen pre + blen text) mode utf8 false (Z.of_nat k) =
    Done (body_out mode utf8 k (body_lines fuel' mode utf8 text)).
Proof.
  induction fuel' as [|fuel' IH]; intros text fuel pre post k Hf Hf' Hk; (destruct fuel as [|fuel]; [lia|]); destruct text as [|c t]; try (cbn in Hf'; lia).
  1, 2: cbn [quote_loop]; rewrite (proj2 (Z.leb_le _ _)) by (change (blen []) with 0; lia); cbn [body_lines]; f_equal; destruct mode; cbn; try done; by destruct (5 - k)%nat.
  cbn [quote_loop body_lines]. rewrite (proj2 (Z.leb_gt _ _)) by (rewrite blen_cons; pose proof (blen_nonneg t); lia).
  pose proof (line_ok pre c t post mode utf8) as Hline. cbn zeta in Hline. rewrite Hline. cbn [mbind outcome_bind]. rewrite rd_head. cbn [mbind outcome_bind andb negb orb].
  pose proof (cut_app mode utf8 (c :: t)) as Hcut. pose proof (cut_pos mode utf8 c t) as Hne.
  destruct (cut mode utf8 (c :: t)) as [l rest] eqn:Ecut. cbn [fst snd] in *. rewrite Hcut.
  assert (length l + length rest = S (length t))%nat as Hlen by (rewrite <- length_app, <- Hcut; done).
  assert (1 <= length l)%nat as Hl1 by (destruct l; [done|cbn; lia]). cbn [length] in Hf, Hf'.
  rewrite (blen_app l), <- (app_assoc l).
  rewrite (sig_ok pre l (rest ++ post)). cbn [mbind outcome_bind]. rewrite body_out_cons by done.
  destruct (bool_decide (l = signature) && stops_at_signature mode); [done|].
  rewrite (source_ok pre l (rest ++ post)).
  assert (forall s r k, rest = s ++ r -> (k <= 5)%nat -> quote_loop (pre ++ l ++ rest ++ post) out fuel (blen pre + blen l + blen s) (blen pre + (blen l + blen rest)) mode utf8 false (Z.of_nat k)
    = Done (body_out mode utf8 k (body_lines fuel' mode utf8 r))) as Hgo.
  { intros s r k' Hs Hk'. rewrite Hs. replace (pre ++ l ++ (s ++ r) ++ post) with ((pre ++ l ++ s) ++ r ++ post) by app_eq.
    replace (blen pre + blen l + blen s) with (blen (pre ++ l ++ s)) by (rewrite !blen_app; lia).
    replace (blen pre + (blen l + blen (s ++ r))) with (blen (pre ++ l ++ s) + blen r) by (rewrite !blen_app; lia).
    assert (length rest = length s + length r)%nat by (rewrite Hs, length_app; done). apply IH; lia. }
  assert ((if drops_lines mode then qualify_quotation (pre ++ l ++ rest ++ post) (blen pre) (blen pre + blen l) else Done true)
    = Done (negb (drops_lines mode) || qualifies l)) as -> by (destruct (drops_lines mode); [by rewrite qualify_ok|done]).
  cbn [mbind outcome_bind]. destruct (drops_lines mode && negb (qualifies l)) eqn:Edrop.
  - apply andb_true_iff in Edrop as [-> ->%negb_true_iff]. cbn [negb orb andb]. rewrite (ends_line_ok pre l (rest ++ post)) by done. cbn [mbind outcome_bind].
    destruct (line_end l); cbn [negb mbind outcome_bind].
    + rewrite <- (Z.add_0_r (blen pre + blen l)). apply (Hgo [] rest k); done.
    + assert (get_newline (pre ++ l ++ rest ++ post) (blen pre + blen l) (blen pre + (blen l + blen rest)) = Done (blen pre + blen l + blen (take (newline_len rest) rest))) as ->.
      { replace (pre ++ l ++ rest ++ post) with ((pre ++ l) ++ rest ++ post) by app_eq. rewrite <- blen_app.
        replace (blen pre + (blen l + blen rest)) with (blen (pre ++ l) + blen rest) by (rewrite blen_app; lia).
        rewrite get_newline_ok. f_equal. pose proof (newline_len_le rest). unfold blen at 3. rewrite length_take. lia. }
      cbn [mbind outcome_bind]. apply Hgo; [by rewrite take_drop|done].
  - assert (negb (drops_lines mode) || qualifies l = true) as -> by (destruct (drops_lines mode), (qualifies l); done). cbn [negb].
    cbn [andb].
    destruct (bool_decide (mode = QUOTE_SOURCE) && is_source utf8 l); [done|].
    rewrite (write_range_ok out pre l (rest ++ post)), (ends_line_ok pre l (rest ++ post)) by done. cbn [mbind outcome_bind].
    assert (bool_decide (mode = QUOTE_AUTO) && (MAX_QUOTED_LINES <? (if bool_decide (mode = QUOTE_AUTO) then Z.of_nat k + 1 else Z.of_nat k))
      = bool_decide (mode = QUOTE_AUTO) && (k =? 5)%nat) as ->.
    { destruct (bool_decide (mode = QUOTE_AUTO)); [|done]. cbn [andb]. unfold MAX_QUOTED_LINES.
      destruct (Nat.eqb_spec k 5) as [->|]; [done|]. apply Z.ltb_ge. lia. }
    destruct (bool_decide (mode = QUOTE_AUTO) && (k =? 5)%nat) eqn:E5; [done|].
    replace (if bool_decide (mode = QUOTE_AUTO) then Z.of_nat k + 1 else Z.of_nat k) with (Z.of_nat (if bool_decide (mode = QUOTE_AUTO) then S k else k))
      by (destruct (bool_decide _); lia).
    rewrite <- (Z.add_0_r (blen pre + blen l)). rewrite (Hgo [] rest) by (done || (destruct (bool_decide (mode = QUOTE_AUTO)); [cbn in E5; apply Nat.eqb_neq in E5; lia|done])).
    cbn [mbind outcome_bind]. unfold quoted. f_equal. app_eq.
Qed.

Lemma quote_heads_ok fuel' mode utf8 : forall text fuel pre post n, (length text < fuel)%nat -> (length text <= fuel')%nat -> (length text <= n)%nat ->
  quote_loop (pre ++ text ++ post) out fuel (blen pre) (blen pre + blen text) mode utf8 true 0 =
    Done ((if bool_decide (mode = QUOTE_ALL) then mjoin (quoted out mode <$> (heads fuel' mode utf8 text).1) else []) ++
      match (heads fuel' mode utf8 text).2 with Some b => body_out mode utf8 0 (body_lines n mode utf8 b) | None => [] end).
Proof.
  induction fuel' as [|fuel' IH]; intros text fuel pre post n Hf Hf' Hn; (destruct fuel as [|fuel]; [lia|]); destruct text as [|c t]; try (cbn in Hf'; lia).
  1, 2: cbn [quote_loop]; rewrite (proj2 (Z.leb_le _ _)) by (change (blen []) with 0; lia); cbn [heads fst snd]; by destruct (bool_decide _).
  cbn [quote_loop heads]. rewrite (proj2 (Z.leb_gt _ _)) by (rewrite blen_cons; pose proof (blen_nonneg t); lia).
  pose proof (line_ok pre c t post mode utf8) as Hline. cbn zeta in Hline. rewrite Hline. cbn [mbind outcome_bind]. rewrite rd_head. cbn [mbind outcome_bind andb].
  pose proof (cut_app mode utf8 (c :: t)) as Hcut. pose proof (cut_pos mode utf8 c t) as Hne.
  destruct (cut mode utf8 (c :: t)) as [l rest] eqn:Ecut. cbn [fst snd] in *. rewrite Hcut.
  assert (length l + length rest = S (length t))%nat as Hlen by (rewrite <- length_app, <- Hcut; done).
  assert (1 <= length l)%nat as Hl1 by (destruct l; [done|cbn; lia]). cbn [length] in Hf, Hf', Hn.
  rewrite (blen_app l), <- (app_assoc l).
  replace (pre ++ l ++ rest ++ post) with ((pre ++ l) ++ rest ++ post) by app_eq.
  assert (blen pre + (blen l + blen rest) = blen (pre ++ l) + blen rest) as Hend by (rewrite blen_app; lia).
  destruct (c =? 10).
  { rewrite Hend, <- blen_app. change 0 with (Z.of_nat 0) at 1. rewrite (quote_body_ok n) by lia. cbn [fst snd]. by destruct (bool_decide _). }
  replace ((pre ++ l) ++ rest ++ post) with (pre ++ l ++ rest ++ post) by app_eq.
  rewrite (sig_ok pre l (rest ++ post)). cbn [mbind outcome_bind].
  destruct (bool_decide (l = signature) && stops_at_signature mode); [cbn [fst snd]; by destruct (bool_decide _)|].
  destruct (heads fuel' mode utf8 rest) as [hs body] eqn:Eh. cbn [fst snd].
  assert (quote_loop (pre ++ l ++ rest ++ post) out fuel (blen pre + blen l) (blen pre + (blen l + blen rest)) mode utf8 true 0 =
    Done ((if bool_decide (mode = QUOTE_ALL) then mjoin (quoted out mode <$> hs) else []) ++
      match body with Some b => body_out mode utf8 0 (body_lines n mode utf8 b) | None => [] end)) as Hgo.
  { replace (pre ++ l ++ rest ++ post) with ((pre ++ l) ++ rest ++ post) by app_eq. rewrite Hend, <- blen_app.
    rewrite (IH rest fuel (pre ++ l) post n) by lia. by rewrite Eh. }
  rewrite (source_ok pre l (rest ++ post)). rewrite (write_range_ok out pre l (rest ++ post)), (ends_line_ok pre l (rest ++ post)) by done.
  cbn [negb orb]. destruct (decide (mode = QUOTE_ALL)) as [->|Hm].
  - rewrite bool_decide_eq_true_2 by done. cbn [drops_lines mbind outcome_bind negb]. change (bool_decide (QUOTE_ALL = QUOTE_SOURCE)) with false.
    change (bool_decide (QUOTE_ALL = QUOTE_AUTO)) with false. cbn [andb mbind outcome_bind]. rewrite Hgo. cbn [mbind outcome_bind].
    rewrite bool_decide_eq_true_2 by done. rewrite fmap_cons. cbn [mjoin list_join]. unfold quoted. f_equal. app_eq.
  - rewrite bool_decide_eq_false_2 by done. rewrite bool_decide_eq_false_2 in Hgo by done. by rewrite Hgo.
Qed.

(** The lines of [text] that are quoted. *)
Lemma quotation_body mode utf8 text : let r := heads (length text) mode utf8 text in
  (if bool_decide (mode = QUOTE_ALL) then mjoin (quoted out mode <$> r.1) else []) ++
    match r.2 with Some b => body_out mode utf8 0 (body_lines (length text) mode utf8 b) | None => [] end =
  quotation out mode utf8 text.
Proof.
  unfold quotation, kept. destruct (heads (length text) mode utf8 text) as [hs body]. cbn [fst snd].
  assert (forall mode, body_lines (length text) mode utf8 [] = []) as Hnil by (intros; by destruct (length text)).
  destruct mode; (change (bool_decide (_ = QUOTE_ALL)) with false || change (bool_decide (_ = QUOTE_ALL)) with true); cbn [app]; destruct body as [b|]; cbn [from_option id body_out]; rewrite ?Hnil; try done.
  - by rewrite fmap_app, join_app.
  - by rewrite !app_nil_r.
Qed.

(** * The author *)

Fixpoint index_of (c : Z) (s : list Z) : option nat :=
  match s with [] => None | x :: s => if x =? c then Some 0%nat else S <$> index_of c s end.
Definition last_index (c : Z) (s : list Z) : option nat := (fun i => (length s - 1 - i)%nat) <$> index_of c (reverse s).

(** From after the first space to the last parenthesis. *)
Definition author_name (line : list Z) : list Z :=
  let a := match index_of 32 line with Some i => S i | None => length line end in
  let b := match last_index 41 line with Some i => S i | None => 0%nat end in
  take (b - a) (drop a line).

Definition author_text (mail utf8 : bool) (line : list Z) : list Z :=
  let name := author_name line in
  out (if utf8 then 10 :: bytes "【 在 " else [10; 0xa1; 0xbe; 32; 0xd4; 0xda; 32]) ++ (match name with [] => [] | _ => out name end) ++
  out (if utf8 then bytes " 的" else [32; 0xb5; 0xc4]) ++
  out (if mail then if utf8 then bytes "来信" else [0xc0; 0xb4; 0xd0; 0xc5]
       else if utf8 then bytes "大作" else [0xb4; 0xf3; 0xd7; 0xf7]) ++
  out (if utf8 then bytes "中提到: 】" ++ [10] else [0xd6; 0xd0; 0xcc; 0xe1; 0xb5; 0xbd; 0x3a; 0x20; 0xa1; 0xbf; 10]).

Lemma find_ok c s : forall fuel pre post, (length s < fuel)%nat ->
  find_loop (pre ++ s ++ post) fuel (blen pre) (blen pre + blen s) c = Done ((fun i => blen pre + Z.of_nat i) <$> index_of c s).
Proof.
  induction s as [|x s IH]; intros [|fuel] pre post Hf; cbn [length] in Hf; try lia; cbn [find_loop index_of].
  - rewrite (proj2 (Z.ltb_ge _ _)) by (change (blen []) with 0; lia). done.
  - rewrite (proj2 (Z.ltb_lt _ _)) by (rewrite blen_cons; pose proof (blen_nonneg s); lia). rewrite rd_head. cbn [mbind outcome_bind].
    destruct (x =? c); [cbn; do 2 f_equal; lia|]. change (x :: s) with ([x] ++ s). rewrite move_on.
    replace (blen pre + 1) with (blen (pre ++ [x])) by (by rewrite blen_app).
    replace (blen pre + blen ([x] ++ s)) with (blen (pre ++ [x]) + blen s) by (rewrite !blen_app; lia). rewrite IH by lia.
    rewrite blen_app. change (blen [x]) with 1. destruct (index_of c s); cbn; do 2 f_equal. lia.
Qed.

Lemma find_char_ok c s pre post : find_char (pre ++ s ++ post) (blen pre) (blen pre + blen s) c = Done ((fun i => blen pre + Z.of_nat i) <$> index_of c s).
Proof. apply find_ok. unfold blen. lia. Qed.

Lemma index_of_lt c s i : index_of c s = Some i -> (i < length s)%nat.
Proof. revert i. induction s as [|x s IH]; intros i; cbn; [done|]. destruct (x =? c); [intros [= <-]; lia|]. destruct (index_of c s) as [j|]; [|done]. intros [= <-]. specialize (IH j eq_refl). lia. Qed.

Lemma reverse_ok c s : forall fuel pre post, (length s < fuel)%nat ->
  reverse_loop (pre ++ s ++ post) fuel (blen pre) (blen pre + blen s - 1) c = Done ((fun i => blen pre + Z.of_nat i) <$> last_index c s).
Proof.
  induction s as [|x s IH] using rev_ind; intros [|fuel] pre post Hf; [lia| |lia|]; cbn [reverse_loop].
  - rewrite (proj2 (Z.leb_gt _ _)) by (change (blen []) with 0; lia). done.
  - rewrite length_app in Hf. cbn in Hf. rewrite (proj2 (Z.leb_le _ _)) by (rewrite blen_app; change (blen [x]) with 1; pose proof (blen_nonneg s); lia).
    rewrite (rd_at _ (pre ++ s) x post) by (app_eq || (rewrite !blen_app; change (blen [x]) with 1; lia)). cbn [mbind outcome_bind].
    unfold last_index. rewrite reverse_snoc. cbn [index_of]. destruct (x =? c).
    + cbn. rewrite length_app, blen_app. cbn. change (blen [x]) with 1. do 2 f_equal. unfold blen. lia.
    + rewrite <- app_assoc. replace (blen pre + blen (s ++ [x]) - 1 - 1) with (blen pre + blen s - 1) by (rewrite blen_app; change (blen [x]) with 1; lia).
      rewrite IH by lia. unfold last_index. destruct (index_of c (reverse s)) as [i|] eqn:E; cbn; [|done]. rewrite length_app. cbn. do 3 f_equal. lia.
Qed.

Lemma reverse_find_ok c s pre post : reverse_find_char (pre ++ s ++ post) (blen pre) (blen pre + blen s) c = Done ((fun i => blen pre + Z.of_nat i) <$> last_index c s).
Proof. apply reverse_ok. unfold blen. lia. Qed.

(** A part of the text. *)
Lemma write_part pre s post a b : (a <= b)%nat -> (b <= length s)%nat ->
  write_range (pre ++ s ++ post) out (blen pre + Z.of_nat a) (blen pre + Z.of_nat b) = Done (out (take (b - a) (drop a s))).
Proof.
  intros Ha Hb. unfold write_range.
  rewrite (rdn_at _ (pre ++ take a s) (take (b - a) (drop a s)) (drop (b - a) (drop a s) ++ post)); [done|..].
  - rewrite <- (take_drop a s) at 1. rewrite <- (take_drop (b - a) (drop a s)) at 1. app_eq.
  - rewrite blen_app. unfold blen. rewrite length_take. lia.
  - unfold blen. rewrite length_take, length_drop. lia.
Qed.

Lemma quote_author_ok pre line post mail utf8 :
  quote_author (pre ++ line ++ post) out (blen pre) (blen pre + blen line) mail utf8 = Done (author_text mail utf8 line).
Proof.
  unfold quote_author, author_text, author_name. rewrite find_char_ok. cbn [mbind outcome_bind]. rewrite reverse_find_ok. cbn [mbind outcome_bind].
  set (a := match index_of 32 line with Some i => S i | None => length line end).
  set (b := match last_index 41 line with Some i => S i | None => 0%nat end).
  assert (a <= length line)%nat as Ha by (subst a; destruct (index_of 32 line) eqn:E; [apply index_of_lt in E|]; lia).
  assert (b <= length line)%nat as Hb.
  { subst b. unfold last_index. destruct (index_of 41 (reverse line)) eqn:E; cbn; [apply index_of_lt in E; rewrite length_reverse in E|]; lia. }
  assert (match (fun i => blen pre + Z.of_nat i) <$> index_of 32 line with Some p => p + 1 | None => blen pre + blen line end = blen pre + Z.of_nat a) as ->
    by (subst a; destruct (index_of 32 line); cbn; unfold blen; lia).
  assert (match (fun i => blen pre + Z.of_nat i) <$> last_index 41 line with Some p => p + 1 | None => blen pre end = blen pre + Z.of_nat b) as ->
    by (subst b; destruct (last_index 41 line); cbn; lia).
  assert ((if blen pre + Z.of_nat a <? blen pre + Z.of_nat b then write_range (pre ++ line ++ post) out (blen pre + Z.of_nat a) (blen pre + Z.of_nat b) else Done [])
    = Done (match take (b - a) (drop a line) with [] => [] | _ => out (take (b - a) (drop a line)) end)) as ->.
  { destruct (Z.ltb_spec (blen pre + Z.of_nat a) (blen pre + Z.of_nat b)).
    - rewrite write_part by lia. destruct (take (b - a) (drop a line)) eqn:E; [|done].
      apply (f_equal length) in E. rewrite length_take, length_drop in E. cbn in E. lia.
    - replace (b - a)%nat with 0%nat by lia. done. }
  done.
Qed.
End Loop.

(** C34. A reply quotes the author of the post, from the first space of its first
    line to the last parenthesis, and then the lines of the post that the mode
    asks for: for any bytes at all, every line of the header and the body
    (QUOTE_ALL), the lines of the body that are not quoted twice or blank up to
    the signature (QUOTE_LONG), no more than five of these and a notice when
    there are more (QUOTE_AUTO), each with a mark and its line end, lines cut at
    the columns of the screen. *)
Theorem quote_selects out pre text post mode mail utf8 : is_pack mode = false ->
  quote_string (pre ++ text ++ post) out (blen pre) (blen text) mode mail utf8 =
    Done (author_text out mail utf8 (take (newline_len text) text) ++ quotation out mode utf8 (drop (newline_len text) text)).
Proof.
  intros Hm. unfold quote_string. rewrite Hm, get_newline_ok. cbn [mbind outcome_bind].
  set (l := take (newline_len text) text). set (r := drop (newline_len text) text).
  assert (text = l ++ r) as Ht by (subst l r; by rewrite take_drop). pose proof (newline_len_le text).
  assert (Z.of_nat (newline_len text) = blen l) as -> by (unfold blen, l; rewrite length_take; lia).
  clearbody l r. subst text. rewrite <- (app_assoc l). rewrite quote_author_ok. cbn [mbind outcome_bind].
  rewrite (app_assoc pre l). rewrite <- blen_app.
  replace (blen pre + blen (l ++ r)) with (blen (pre ++ l) + blen r) by (rewrite !blen_app; lia).
  rewrite (quote_heads_ok out (length r) mode utf8 r _ (pre ++ l) post (length r)) by (rewrite ?blen_app; unfold blen; lia).
  cbn [mbind outcome_bind]. by rewrite quotation_body.
Qed.

Lemma quote_selects_witness :
  let nl := [10] in
  let text := bytes "From: ann (Ann), Test" ++ nl ++ bytes "Title: x" ++ nl ++ nl ++ bytes ": : twice" ++ nl ++ bytes "hello" ++ nl ++ bytes "  " ++ nl ++
    bytes ": 1" ++ nl ++ bytes "2" ++ nl ++ bytes "3" ++ nl ++ bytes "4" ++ nl ++ bytes "5" ++ nl ++ bytes "--" ++ nl ++ bytes "me" ++ nl in
  quote_string ([7] ++ text ++ [9]) (fun s => s) (blen [7]) (blen text) QUOTE_AUTO false true =
    Done (nl ++ bytes "【 在 ann (Ann) 的大作中提到: 】" ++ nl ++ bytes ": hello" ++ nl ++ bytes ": : 1" ++ nl ++ bytes ": 2" ++ nl ++
      bytes ": 3" ++ nl ++ bytes ": 4" ++ nl ++ bytes ": .................（以下省略）").
Proof. intros nl text. rewrite (quote_selects (fun s => s) [7] text [9] QUOTE_AUTO false true eq_refl). by vm_compute. Defined.
