(* ===== verification/File.v ===== *)
(** Files addressed by name: [lib/fileio.c]. *)
From S2P Require Import Prelude Helper.
From stdpp Require Export gmap.
#[local] Open Scope Z_scope.

(** The regular files, by path. *)
Definition files := gmap (list Z) (list Z).

Inductive copy_mode := O_APPEND | O_EXCL | O_TRUNC | O_NONE.
#[export] Instance copy_mode_eq : EqDecision copy_mode.
Proof. solve_decision. Defined.

(** What the system answers: whether a file can be opened to be written, whether
    a lock is taken, and how many bytes a write takes, or -1. *)
Record answers := Answers { can_open : list Z -> bool; locks : bool; takes : list Z -> Z }.

(** Everything is granted. *)
Definition granted : answers := Answers (fun _ => true) true blen.

Section Files.
Context (sys : answers).

(** The bytes that [file_write] leaves in the file, and its result. *)
Definition file_write (bs : list Z) : Z * list Z := let n := takes sys bs in (n, take (Z.to_nat n) bs).

Definition file_append (fs : files) (file msg : list Z) : Z * files :=
  if can_open sys file then
    let old := default [] (fs !! file) in
    if locks sys then let '(n, s) := file_write msg in (n, <[file := old ++ s]> fs) else (-1, <[file := old]> fs)
  else (-1, fs).

(** Files are read whole, and the string ends with the file or at a NUL in it. *)
Definition file_read_all (fs : files) (file : list Z) : option (list Z) := fs !! file.

Definition dashf (fs : files) (file : list Z) : bool := bool_decide (is_Some (fs !! file)).

Definition unlink (fs : files) (file : list Z) : files := delete file fs.

(** [rename]: fails when there is nothing to rename. *)
Definition rename (fs : files) (old new_ : list Z) : option files :=
  match fs !! old with Some s => Some (<[new_ := s]> (delete old fs)) | None => None end.

(** * Copies *)

Definition BUFSIZ : Z := 8192.

(** What is left of the file is read in blocks; the result is that of the last
    read, and the bytes are those that were written. *)
Fixpoint cp_loop (fuel : nat) (src dst : list Z) : outcome (Z * list Z) :=
  match fuel with
  | O => NoFuel
  | S fuel =>
      let buf := take (Z.to_nat BUFSIZ) src in
      let ret := blen buf in
      if ret <=? 0 then Done (ret, dst)
      else
        let '(n, s) := file_write buf in
        if 0 <? n then cp_loop fuel (drop (Z.to_nat BUFSIZ) src) (dst ++ s) else Done (ret, dst ++ s)
  end.

(** The destination is opened for appending, or must not exist, or is emptied;
    with none of these it is written over from its start. *)
Definition open_dst (fs : files) (dst : list Z) (mode : copy_mode) : option (list Z * list Z) :=
  if can_open sys dst then
    match mode, fs !! dst with
    | O_EXCL, Some _ => None
    | O_APPEND, Some s => Some (s, [])
    | O_NONE, Some s => Some ([], s)
    | _, _ => Some ([], [])
    end
  else None.

Definition f_cp (fs : files) (src dst : list Z) (mode : copy_mode) : outcome (Z * files) :=
  match fs !! src with
  | None => Done (-1, fs)
  | Some s =>
      match open_dst fs dst mode with
      | None => Done (0, fs)
      | Some (kept, over) =>
          '(ret, out) ← cp_loop (length s + 1) s [];
          Done (ret, <[dst := kept ++ out ++ drop (length out) over]> fs)
      end
  end.

(** [linked]: what [link] does, [None] for an error other than that the file
    exists, which is no error. *)
Definition f_ln (fs : files) (src dst : list Z) (linked : option files) : outcome (Z * files) :=
  match linked with
  | Some fs => Done (0, fs)
  | None => match fs !! dst with Some _ => Done (0, fs) | None => f_cp fs src dst O_EXCL end
  end.

(** [part_cp]: the author and the text of a post, up to its signature. *)
Definition AUTHOR : list Z := [0xd0; 0xc5; 0xc8; 0xcb; 0x3a; 0x20].
Definition AUTHOR_COLOURED : list Z :=
  [27] ++ bytes "[1;41;33m" ++ [0xb7; 0xa2; 0xd0; 0xc5; 0xc8; 0xcb; 0x3a; 0x20].
Definition SUBJECT : list Z := [0xb1; 0xea; 0x20; 0x20; 0xcc; 0xe2; 0x3a; 0x20].
Definition SITE : list Z := [0xb7; 0xa2; 0xd0; 0xc5; 0xd5; 0xbe; 0x3a; 0x20].

Fixpoint part_loop (fuel : nat) (buf s : list Z) (flag : bool) (out : list Z) : outcome (list Z) :=
  match fuel with
  | O => NoFuel
  | S fuel =>
      r ← fgets buf 256 s;
      match r with
      | None => Done out
      | Some (buf, s) =>
          line ← cstring buf 0;
          sig ← (if (flag : bool) then Done (bool_decide (line = bytes "--" ++ [10])) else Done false);
          if (sig : bool) then Done (out ++ line)
          else
            author ← (if negb flag then a ← strncmp_eq buf 2 (AUTHOR ++ [0]) 0 6; if (a : bool) then Done true else strncmp_eq buf 0 (AUTHOR_COLOURED ++ [0]) 0 18
                      else Done false);
            if (author : bool) then part_loop fuel buf s flag (out ++ line)
            else
              skip ← (if negb flag then
                        c ← rd buf 0;
                        if (c =? 0) || (c =? 10) then Done true
                        else a ← strncmp_eq buf 0 (SUBJECT ++ [0]) 0 8; if (a : bool) then Done true else strncmp_eq buf 0 (SITE ++ [0]) 0 8
                      else Done false);
              if (skip : bool) then part_loop fuel buf s flag out
              else part_loop fuel buf s true (out ++ line)
      end
  end.

Definition part_cp (fs : files) (buf src dst : list Z) (append : bool) : outcome (Z * files) :=
  match fs !! src with
  | None => Done (0, fs)
  | Some s =>
      if can_open sys dst then
        out ← part_loop (length s + 1) buf s false [];
        Done (1, <[dst := (if append then default [] (fs !! dst) else []) ++ out]> fs)
      else Done (0, fs)
  end.
End Files.

(** Characters of a file name. *)
Definition fname_char (c : Z) : bool := isupper c || islower c || isdigit c || (c =? 45) || (c =? 95).

Fixpoint fname_loop (fuel : nat) (m : list Z) (str : Z) : outcome Z :=
  match fuel with
  | O => NoFuel
  | S fuel => ch ← rd m str; if ch =? 0 then Done 1 else if fname_char ch then fname_loop fuel m (str + 1) else Done 0
  end.
Definition valid_fname (m : list Z) (str : Z) : outcome Z := fname_loop (length m + 1) m str.

Definition file_temporary_name (pid : Z) (size : Z) (prefix : list Z) (num : Z) : Z * list Z :=
  let s := bytes "temp/" ++ decimal pid ++ bytes "-" ++ prefix ++ bytes "-" ++ decimal num in
  (blen s, take (Z.to_nat (size - 1)) s).

(** * Properties *)

Section Spec.
Context (sys : answers).

(** A write that takes all it is given. *)
Definition writes_all : Prop := forall bs, takes sys bs = blen bs.

Lemma cp_ok (W : writes_all) fuel : forall src dst, (length src < fuel)%nat -> cp_loop sys fuel src dst = Done (0, dst ++ src).
Proof.
  induction fuel as [|fuel IH]; intros src dst Hf; [lia|]. cbn [cp_loop].
  destruct src as [|c t]; [rewrite take_nil; cbn; by rewrite app_nil_r|]. set (src := c :: t) in *.
  assert (0 < blen (take (Z.to_nat BUFSIZ) src)) as Hpos by (unfold blen; rewrite length_take; subst src; cbn [length]; unfold BUFSIZ; lia).
  rewrite (proj2 (Z.leb_gt _ _)) by lia. unfold file_write. rewrite W, (proj2 (Z.ltb_lt _ _)) by lia. cbn [fst snd].
  rewrite to_nat_blen, take_ge by lia. rewrite IH by (rewrite length_drop; subst src; cbn [length] in *; unfold BUFSIZ; lia).
  by rewrite <- app_assoc, take_drop.
Qed.

Lemma f_cp_copies (W : writes_all) fs src dst s mode : fs !! src = Some s -> can_open sys dst = true -> fs !! dst = None ->
  f_cp sys fs src dst mode = Done (0, <[dst := s]> fs).
Proof.
  intros Hs Hd Hn. unfold f_cp, open_dst. rewrite Hs, Hd, Hn, cp_ok by (done || lia).
  by destruct mode; cbn; rewrite drop_nil, app_nil_r.
Qed.

Lemma file_append_appends (W : writes_all) (L : locks sys = true) fs file msg : can_open sys file = true ->
  file_append sys fs file msg = (blen msg, <[file := default [] (fs !! file) ++ msg]> fs).
Proof. intros Ho. unfold file_append, file_write. rewrite Ho, L, W, to_nat_blen, take_ge by lia. done. Qed.
End Spec.

Lemma fname_ok s : forall fuel pre post, nul_free s -> (length s < fuel)%nat ->
  fname_loop fuel (pre ++ s ++ 0 :: post) (blen pre) = Done (if forallb fname_char s then 1 else 0).
Proof.
  induction s as [|c s IH]; intros [|fuel] pre post Hs Hf; cbn [length] in Hf; try lia; cbn [fname_loop forallb].
  - rewrite (rd_at _ pre 0 post) by done. done.
  - apply Forall_cons_1 in Hs as [Hc Hs]. rewrite rd_head. cbn [mbind outcome_bind]. rewrite (proj2 (Z.eqb_neq c 0)) by lia.
    destruct (fname_char c); [|done]. cbn [andb].
    replace (blen pre + 1) with (blen (pre ++ [c])) by (by rewrite blen_app).
    replace (pre ++ (c :: s) ++ 0 :: post) with ((pre ++ [c]) ++ s ++ 0 :: post) by app_eq. apply IH; [done|lia].
Qed.

Lemma valid_fname_ok pre s post : nul_free s ->
  valid_fname (pre ++ s ++ 0 :: post) (blen pre) = Done (if forallb fname_char s then 1 else 0).
Proof. intros Hs. apply fname_ok; [done|]. rewrite !length_app. cbn. lia. Qed.
