(* ===== verification/Mention.v ===== *)
(** Users mentioned in a post: [post_scan_for_mentions] of [lib/post.c]. *)
From S2P Require Import Prelude CString Helper.

Definition IDLEN : Z := 12.
Definition POST_MENTION_LIMIT : Z := 10.

(** * Scanning *)

(** Offset of the first place where [pat] is found in a string. *)
Fixpoint find_sub (pat s : list Z) : option nat :=
  if bool_decide (take (length pat) s = pat) then Some O
  else match s with [] => None | _ :: t => S <$> find_sub pat t end.

Definition strstr (m : list Z) (p : Z) (pat : list Z) : outcome (option Z) :=
  s ← cstring m p; Done ((fun i => p + Z.of_nat i) <$> find_sub pat s).

Section Scan.
(** The memory of the content. *)
Context (m : list Z).

(** The name is what [strlcpy] leaves in [user_name]. *)
Fixpoint next_loop (fuel : nat) (ptr end_ at_ : Z) (mention : bool) (size : Z) : outcome (Z * list Z) :=
  match fuel with
  | O => NoFuel
  | S fuel =>
      if end_ <=? ptr then Done (ptr, [])
      else
        c ← rd m ptr;
        if mention && negb (isalpha c) && (negb (c =? 46) && (2 <=? ptr - at_) && (ptr - at_ <? size)) then
          name ← rdn m at_ (ptr - at_); Done (ptr, name)
        else
          let mention := mention && isalpha c in
          if negb mention && (c =? 64) then next_loop fuel (ptr + 1) end_ (ptr + 1) true size
          else next_loop fuel (ptr + 1) end_ at_ mention size
  end.

Definition next_mention (begin end_ size : Z) : outcome (Z * list Z) :=
  next_loop (Z.to_nat (end_ - begin) + 1) begin end_ 0 false size.

Section Handler.
Context {A : Type} (handler : list Z -> Z -> A -> A) (post_id : Z).

Definition name_at (user_names : list (list Z)) (i : Z) : outcome (list Z) :=
  if i <? 0 then Fault else match user_names !! Z.to_nat i with Some n => Done n | None => Fault end.

Fixpoint known_loop (fuel : nat) (i count : Z) (user_names : list (list Z)) (user_name : list Z) : outcome bool :=
  match fuel with
  | O => NoFuel
  | S fuel =>
      if count <=? i then Done false
      else n ← name_at user_names i;
           if strcaseeq user_name n then Done true else known_loop fuel (i + 1) count user_names user_name
  end.

Definition process_mention (user_name : list Z) (user_names : list (list Z)) (size count : Z) (args : A)
    : outcome (Z * list (list Z) * A) :=
  known ← known_loop (Z.to_nat count + 1) 0 count user_names user_name;
  if (known : bool) then Done (0, user_names, args)
  else if count <? size then
    Done (1, <[Z.to_nat count := take (Z.to_nat IDLEN) user_name]> user_names, handler user_name post_id args)
  else Done (1, user_names, args).

(** The mentions of a line. *)
Fixpoint line_loop (fuel : nat) (ptr line_end count : Z) (user_names : list (list Z)) (args : A)
    : outcome (Z * list (list Z) * A) :=
  match fuel with
  | O => NoFuel
  | S fuel =>
      if line_end <=? ptr then Done (count, user_names, args)
      else
        r ← next_mention ptr line_end (IDLEN + 1);
        match r.2 with
        | [] => line_loop fuel r.1 line_end count user_names args
        | name =>
            '(n, user_names, args) ← process_mention name user_names POST_MENTION_LIMIT count args;
            line_loop fuel r.1 line_end (count + n) user_names args
        end
  end.

Definition starts_quoted (begin line_end : Z) : outcome bool :=
  if 2 <=? line_end - begin then
    c ← rd m begin; if c =? 58 then d ← rd m (begin + 1); Done (d =? 32) else Done false
  else Done false.

Fixpoint lines_loop (fuel : nat) (begin end_ count : Z) (user_names : list (list Z)) (args : A) : outcome (Z * A) :=
  match fuel with
  | O => NoFuel
  | S fuel =>
      if end_ <=? begin then Done (count, args)
      else
        line_end ← get_line_end m begin end_;
        if end_ <? line_end then Done (count, args)
        else
          quoted ← starts_quoted begin line_end;
          if (quoted : bool) then lines_loop fuel line_end end_ count user_names args
          else
            '(count, user_names, args) ← line_loop (Z.to_nat (line_end - begin) + 1) begin line_end count user_names args;
            lines_loop fuel line_end end_ count user_names args
  end.

Definition post_scan_for_mentions (title : list Z) (content : Z) (args : A) : outcome (Z * A) :=
  begin ← (if bool_decide (take 4 title = bytes "Re: ") then strstr m content [10; 10] else Done (Some content));
  match begin with
  | None => Done (0, args)
  | Some begin =>
      e ← strstr m begin ([10] ++ bytes "--" ++ [10]);
      end_ ← (match e with Some e => Done (e + 1) | None => n ← strlen m content; Done (content + n) end);
      lines_loop (Z.to_nat (end_ - begin) + 1) begin end_ 0 (replicate (Z.to_nat POST_MENTION_LIMIT) []) args
  end.
End Handler.
End Scan.

(** * The names that are mentioned *)

(** The names of a line: letters after an at sign, two to twelve of them, and
    neither a dot nor the end of the line behind them. [word] holds the letters
    since the last at sign. *)
Fixpoint line_names (word : option (list Z)) (l : list Z) : list (list Z) :=
  match l with
  | [] => []
  | c :: t =>
      match word with
      | Some w => if isalpha c then line_names (Some (w ++ [c])) t
                  else (if negb (c =? 46) && (2 <=? blen w) && (blen w <=? IDLEN) then [w] else []) ++
                       line_names (if c =? 64 then Some [] else None) t
      | None => line_names (if c =? 64 then Some [] else None) t
      end
  end.

Definition quoted_line (l : list Z) : bool := bool_decide (take 2 l = bytes ": ").

Fixpoint names_of (fuel : nat) (text : list Z) : list (list Z) :=
  match fuel, text with
  | O, _ | _, [] => []
  | S fuel, _ =>
      let l := take (newline_len text) text in
      (if quoted_line l then [] else line_names None l) ++ names_of fuel (drop (newline_len text) text)
  end.

(** The part of a post where mentions count: a reply has a header, and nothing
    from the signature on counts. *)
Definition own_text (title content : list Z) : list Z :=
  let text := if bool_decide (take 4 title = bytes "Re: ")
              then match find_sub [10; 10] content with Some i => drop i content | None => [] end else content in
  match find_sub ([10] ++ bytes "--" ++ [10]) text with Some i => take (S i) text | None => text end.

(** Each name once, whatever its case. *)
Fixpoint once (seen ns : list (list Z)) : list (list Z) :=
  match ns with
  | [] => seen
  | n :: ns => once (if existsb (strcaseeq n) seen then seen else seen ++ [n]) ns
  end.

Definition mentioned (title content : list Z) : list (list Z) :=
  let text := own_text title content in once [] (names_of (length text) text).

(** * The functions compute the names *)

Lemma move_over (pre t post : list Z) (c : Z) : pre ++ (c :: t) ++ post = (pre ++ [c]) ++ t ++ post.
Proof. by rewrite <- app_assoc. Qed.

Lemma blen_snoc (pre : list Z) (c : Z) : blen pre + 1 = blen (pre ++ [c]).
Proof. by rewrite blen_app. Qed.

Lemma next_step c l pre (w : list Z) word (k : nat) (name : list Z) r :
  r = Done (blen (pre ++ w ++ [c]) + blen [] + Z.of_nat k, name) ->
  (k <= length l)%nat /\ (name = [] -> k = length l) /\ (length name <= k + length (@nil Z))%nat /\
    line_names word l = match name with [] => [] | _ => [name] end ++ line_names None (drop k l) ->
  r = Done (blen pre + blen w + Z.of_nat (S k), name) /\ (S k <= S (length l))%nat /\ (name = [] -> S k = S (length l)) /\
    (length name <= S k + length w)%nat /\
    line_names word l = match name with [] => [] | _ => [name] end ++ line_names None (drop (S k) (c :: l)).
Proof.
  intros -> (Hk & Hn & Hl & Hs). split; [rewrite !blen_app; change (blen [c]) with 1; change (blen []) with 0; do 2 f_equal; lia|].
  split; [lia|]. split; [intros E; rewrite (Hn E); lia|]. split; [cbn in Hl; lia|done].
Qed.

Lemma next_ok l : forall fuel pre (word : option (list Z)) post at_, (length l < fuel)%nat ->
  (match word with Some w => at_ = blen pre /\ Forall (fun c => isalpha c = true) w | None => True end) ->
  let w := default [] word in
  exists k name, next_loop (pre ++ w ++ l ++ post) fuel (blen pre + blen w) (blen pre + blen w + blen l) at_
      (if word then true else false) (IDLEN + 1) = Done (blen pre + blen w + Z.of_nat k, name) /\
    (k <= length l)%nat /\ (name = [] -> k = length l) /\ (length name <= k + length w)%nat /\
    line_names word l = match name with [] => [] | _ => [name] end ++ line_names None (drop k l).
Proof.
  induction l as [|c l IH]; intros [|fuel] pre word post at_ Hf Hw w; cbn [length] in Hf; try lia; cbn [next_loop].
  - rewrite (proj2 (Z.leb_le _ _)) by (change (blen []) with 0; lia). exists 0%nat, [].
    split; [f_equal; f_equal; lia|]. destruct word; cbn; split_and!; done || lia.
  - rewrite (proj2 (Z.leb_gt _ _)) by (rewrite blen_cons; pose proof (blen_nonneg l); lia).
    rewrite (rd_at (pre ++ w ++ (c :: l) ++ post) (pre ++ w) c (l ++ post)) by (app_eq || by rewrite blen_app).
    cbn [mbind outcome_bind]. rewrite blen_cons.
    assert (forall b : bool, exists (k : nat) (name : list Z), (if b then next_loop (pre ++ w ++ (c :: l) ++ post) fuel (blen pre + blen w + 1) (blen pre + blen w + (1 + blen l)) (blen pre + blen w + 1) true (IDLEN + 1)
        else next_loop (pre ++ w ++ (c :: l) ++ post) fuel (blen pre + blen w + 1) (blen pre + blen w + (1 + blen l)) at_ false (IDLEN + 1)) =
        Done (blen pre + blen w + Z.of_nat k, name) /\ (k <= S (length l))%nat /\ (name = [] -> k = S (length l)) /\ (length name <= k + length w)%nat /\
        line_names (if b then Some [] else None) l = match name with [] => [] | _ => [name] end ++ line_names None (drop k (c :: l))) as Hnew.
    { assert (pre ++ w ++ (c :: l) ++ post = (pre ++ w ++ [c]) ++ [] ++ l ++ post) as -> by app_eq.
      assert (blen pre + blen w + 1 = blen (pre ++ w ++ [c]) + blen []) as -> by (rewrite !blen_app; change (blen [c]) with 1; change (blen []) with 0; lia).
      assert (blen pre + blen w + (1 + blen l) = blen (pre ++ w ++ [c]) + blen [] + blen l) as -> by (rewrite !blen_app; change (blen [c]) with 1; change (blen []) with 0; lia).
      intros [|].
      - destruct (IH fuel (pre ++ w ++ [c]) (Some []) post (blen (pre ++ w ++ [c]) + blen []) ltac:(lia) (conj (Z.add_0_r _) (Forall_nil_2 _))) as (k & name & Hrun & Hrest).
        exists (S k), name. exact (next_step _ _ _ _ _ _ _ _ Hrun Hrest).
      - destruct (IH fuel (pre ++ w ++ [c]) None post at_ ltac:(lia) I) as (k & name & Hrun & Hrest).
        exists (S k), name. exact (next_step _ _ _ _ _ _ _ _ Hrun Hrest). }
    destruct word as [u|]; cbn [default from_option id] in w; subst w.
    + destruct Hw as [-> Hu]. cbn [line_names andb]. destruct (isalpha c) eqn:Ha; cbn [negb andb].
      * destruct (IH fuel pre (Some (u ++ [c])) post (blen pre)) as (k & name & Hrun & Hk & Hn & Hl & Hs); [lia| |].
        { split; [done|]. apply Forall_app. split; [done|by repeat constructor]. }
        cbn [default from_option id] in Hrun, Hl. rewrite !blen_app in Hrun. change (blen [c]) with 1 in Hrun.
        rewrite length_app in Hl. cbn [length] in Hl |- *.
        exists (S k), name. split; [|split; [lia|split; [intros E; rewrite (Hn E); lia|split; [lia|by rewrite Hs]]]].
        replace (pre ++ u ++ (c :: l) ++ post) with (pre ++ (u ++ [c]) ++ l ++ post) by app_eq.
        etrans; [|etrans; [exact Hrun|]]; [f_equal; lia|do 2 f_equal; lia].
      * replace (blen pre + blen u - blen pre) with (blen u) by lia.
        replace (blen u <? IDLEN + 1) with (blen u <=? IDLEN) by (destruct (Z.leb_spec (blen u) IDLEN), (Z.ltb_spec (blen u) (IDLEN + 1)); lia).
        destruct (negb (c =? 46) && (2 <=? blen u) && (blen u <=? IDLEN)) eqn:Hname.
        -- rewrite (rdn_at _ pre u ((c :: l) ++ post)) by (done || lia). cbn [mbind outcome_bind]. zprop Hname.
           exists 0%nat, u. split; [f_equal; f_equal; lia|]. split; [lia|]. split; [intros ->; change (blen []) with 0 in *; lia|]. split; [lia|].
           cbn [drop app line_names]. destruct u; [change (blen []) with 0 in *; lia|done].
        -- cbn [app]. exact (Hnew (c =? 64)).
    + cbn [andb negb line_names]. exact (Hnew (c =? 64)).
Qed.

Section Names.
Context {A : Type} (handler : list Z -> Z -> A -> A) (post_id : Z).

Definition notify (args : A) (names : list (list Z)) : A := foldl (fun a n => handler n post_id a) args names.

Definition room (seen : list (list Z)) : list (list Z) := seen ++ replicate (10 - length seen) [].

Lemma known_ok name r seen' : forall fuel seen, (length seen' < fuel)%nat ->
  known_loop fuel (Z.of_nat (length seen)) (Z.of_nat (length (seen ++ seen'))) ((seen ++ seen') ++ r) name = Done (existsb (strcaseeq name) seen').
Proof.
  induction seen' as [|n seen' IH]; intros [|fuel] seen Hf; cbn [length] in Hf; try lia; cbn [known_loop existsb].
  - rewrite (proj2 (Z.leb_le _ _)) by (rewrite length_app; cbn; lia). done.
  - rewrite (proj2 (Z.leb_gt _ _)) by (rewrite length_app; cbn; lia).
    unfold name_at. rewrite (proj2 (Z.ltb_ge _ _)), Nat2Z.id, <- app_assoc by lia. cbn [app]. rewrite list_lookup_middle by done. cbn [mbind outcome_bind].
    destruct (strcaseeq name n); [done|]. cbn [orb]. replace (Z.of_nat (length seen) + 1) with (Z.of_nat (length (seen ++ [n]))) by (rewrite length_app; cbn; lia).
    specialize (IH fuel (seen ++ [n]) ltac:(lia)). rewrite <- !app_assoc in IH. cbn [app] in IH. exact IH.
Qed.

Lemma once_extends ns : forall seen, (length seen <= length (once seen ns))%nat.
Proof. induction ns as [|n ns IH]; intros seen; cbn; [lia|]. etrans; [|apply IH]. case_match; [lia|]. rewrite length_app. lia. Qed.

Lemma once_app ms ns : forall seen, once seen (ms ++ ns) = once (once seen ms) ns.
Proof. induction ms as [|n ms IH]; intros seen; cbn; [done|]. apply IH. Qed.

Lemma process_ok args name seen : (length (once seen [name]) <= 10)%nat -> blen name <= IDLEN ->
  process_mention handler post_id name (room seen) POST_MENTION_LIMIT (Z.of_nat (length seen)) (notify args seen) =
    Done (Z.of_nat (length (once seen [name])) - Z.of_nat (length seen), room (once seen [name]), notify args (once seen [name])).
Proof.
  intros Hl Hn. unfold process_mention, room. rewrite Nat2Z.id.
  pose proof (known_ok name (replicate (10 - length seen) []) seen (length seen + 1) [] ltac:(lia)) as Hk. cbn [app length] in Hk.
  change (Z.of_nat 0) with 0 in Hk. rewrite Hk.
  cbn [mbind outcome_bind once] in *. destruct (existsb (strcaseeq name) seen); [do 3 f_equal; lia|].
  rewrite length_app in Hl. cbn [length] in Hl. unfold POST_MENTION_LIMIT. rewrite (proj2 (Z.ltb_lt _ _)) by lia.
  rewrite insert_app_r_alt, Nat.sub_diag by lia. destruct (10 - length seen)%nat as [|k] eqn:Ek; [lia|]. cbn [replicate].
  change (<[0%nat:=take (Z.to_nat IDLEN) name]> ([] :: replicate k [])) with (take (Z.to_nat IDLEN) name :: replicate k []).
  rewrite (take_ge name) by (unfold blen in Hn; lia). rewrite length_app. cbn [length].
  f_equal. f_equal; [f_equal; [lia|]|].
  - rewrite <- app_assoc. cbn [app]. do 3 f_equal. lia.
  - unfold notify. by rewrite foldl_app.
Qed.

Lemma names_short l : forall word, Forall (fun n => blen n <= IDLEN) (line_names word l).
Proof.
  induction l as [|c l IH]; intros [w|]; cbn [line_names]; [done|done| |by destruct (c =? 64)].
  destruct (isalpha c); [done|]. apply Forall_app. split; [|by destruct (c =? 64)].
  destruct (negb (c =? 46) && (2 <=? blen w) && (blen w <=? IDLEN)) eqn:E; [|done]. zprop E. constructor; [lia|done].
Qed.

Lemma mention_line args l : forall fuel pre post seen, (length l < fuel)%nat -> (length (once seen (line_names None l)) <= 10)%nat ->
  line_loop (pre ++ l ++ post) handler post_id fuel (blen pre) (blen pre + blen l) (Z.of_nat (length seen)) (room seen) (notify args seen) =
    Done (Z.of_nat (length (once seen (line_names None l))), room (once seen (line_names None l)), notify args (once seen (line_names None l))).
Proof.
  intros fuel. revert l. induction fuel as [|fuel IH]; intros l pre post seen Hf Hl; [lia|]. cbn [line_loop].
  destruct l as [|c t]; [rewrite (proj2 (Z.leb_le _ _)) by (change (blen []) with 0; lia); done|]. set (l := c :: t) in *.
  rewrite (proj2 (Z.leb_gt _ _)) by (subst l; rewrite blen_cons; pose proof (blen_nonneg t); lia).
  unfold next_mention. destruct (next_ok l (Z.to_nat (blen pre + blen l - blen pre) + 1) pre None post 0) as (k & name & Hrun & Hk & Hn & Hp & Hs);
    [unfold blen; lia|done|].
  cbn [default from_option id app] in Hrun. change (blen []) with 0 in Hrun. rewrite Z.add_0_r in Hrun. rewrite Hrun. cbn [mbind outcome_bind fst snd].
  pose proof (names_short l None) as Hshort. rewrite Hs in *. cbn [default from_option id length] in Hp.
  assert (pre ++ l ++ post = (pre ++ take k l) ++ drop k l ++ post) as -> by (rewrite <- (take_drop k l) at 1; app_eq).
  assert (blen pre + Z.of_nat k = blen (pre ++ take k l)) as -> by (rewrite blen_app; unfold blen; rewrite length_take; lia).
  assert (blen pre + blen l = blen (pre ++ take k l) + blen (drop k l)) as -> by (rewrite blen_app; unfold blen; rewrite length_take, length_drop; lia).
  assert (length (drop k l) < fuel)%nat as Hf'.
  { rewrite length_drop. subst l. cbn [length] in *. destruct name; [rewrite (Hn eq_refl); lia|cbn in Hp; lia]. }
  destruct name as [|x name]; [cbn [app] in *; by apply IH|]. set (nm := x :: name) in *.
  rewrite once_app in Hl |- *. apply Forall_app in Hshort as [Hshort _]. apply Forall_cons_1 in Hshort as [Hshort _].
  rewrite process_ok; [|etrans; [|exact Hl]; apply once_extends|done]. cbn [mbind outcome_bind].
  replace (Z.of_nat (length seen) + (Z.of_nat (length (once seen [nm])) - Z.of_nat (length seen))) with (Z.of_nat (length (once seen [nm]))) by lia.
  by apply IH.
Qed.

Lemma mention_line_end text : forall fuel pre post, (length text < fuel)%nat ->
  line_end_loop fuel (pre ++ text ++ post) (blen pre) (blen pre + blen text) = Done (blen pre + Z.of_nat (newline_len text)).
Proof.
  induction text as [|c t IH]; intros [|fuel] pre post Hf; cbn [length] in Hf; try lia; cbn [line_end_loop newline_len].
  - rewrite (proj2 (Z.eqb_eq _ _)) by (change (blen []) with 0; lia). f_equal. lia.
  - rewrite (proj2 (Z.eqb_neq _ _)) by (rewrite blen_cons; pose proof (blen_nonneg t); lia). rewrite rd_head. cbn [mbind outcome_bind].
    destruct (c =? 10); [f_equal; lia|]. rewrite move_over, (blen_snoc pre c).
    replace (blen pre + blen (c :: t)) with (blen (pre ++ [c]) + blen t) by (rewrite <- blen_snoc, blen_cons; lia).
    rewrite IH by lia. f_equal. rewrite <- blen_snoc. lia.
Qed.

Lemma quoted_ok pre l post : starts_quoted (pre ++ l ++ post) (blen pre) (blen pre + blen l) = Done (quoted_line l).
Proof.
  unfold starts_quoted, quoted_line. replace (blen pre + blen l - blen pre) with (blen l) by lia.
  destruct l as [|c [|d t]]; [done|by rewrite bool_decide_eq_false_2|]. rewrite !blen_cons.
  rewrite (proj2 (Z.leb_le _ _)) by (pose proof (blen_nonneg t); lia). rewrite rd_head. cbn [mbind outcome_bind take firstn].
  rewrite move_over, (blen_snoc pre c). change (bytes ": ") with [58; 32]. destruct (Z.eqb_spec c 58) as [->|Hne].
  - rewrite rd_head. cbn [mbind outcome_bind]. f_equal. destruct (Z.eqb_spec d 32) as [->|Hd]; [by rewrite bool_decide_eq_true_2|].
    rewrite bool_decide_eq_false_2; [done|]. by intros [= ->].
  - rewrite bool_decide_eq_false_2; [done|]. by intros [= -> ->].
Qed.

Lemma newline_len_pos c t : (0 < newline_len (c :: t))%nat.
Proof. cbn. destruct (c =? 10); lia. Qed.

Lemma lines_ok args text : forall n fuel pre post seen, (length text < fuel)%nat -> (length text <= n)%nat ->
  (length (once seen (names_of n text)) <= 10)%nat ->
  lines_loop (pre ++ text ++ post) handler post_id fuel (blen pre) (blen pre + blen text) (Z.of_nat (length seen)) (room seen) (notify args seen) =
    Done (Z.of_nat (length (once seen (names_of n text))), notify args (once seen (names_of n text))).
Proof.
  intros n fuel. revert n text. induction fuel as [|fuel IH]; intros n text pre post seen Hf Hn Hl; [lia|]. cbn [lines_loop].
  destruct text as [|c t]; [rewrite (proj2 (Z.leb_le _ _)) by (change (blen []) with 0; lia); by destruct n|].
  destruct n as [|n]; [cbn in Hn; lia|]. set (text := c :: t) in *.
  rewrite (proj2 (Z.leb_gt _ _)) by (subst text; rewrite blen_cons; pose proof (blen_nonneg t); lia).
  unfold get_line_end. rewrite mention_line_end by (rewrite !length_app; lia). cbn [mbind outcome_bind].
  pose proof (newline_len_le text) as Hle. assert (0 < newline_len text)%nat as Hpos by exact (newline_len_pos c t).
  rewrite (proj2 (Z.ltb_ge _ _)) by (unfold blen; lia).
  change (names_of (S n) text) with ((if quoted_line (take (newline_len text) text) then [] else line_names None (take (newline_len text) text)) ++
    names_of n (drop (newline_len text) text)) in *. rewrite once_app in *.
  set (l := take (newline_len text) text) in *. set (r := drop (newline_len text) text) in *.
  assert (text = l ++ r) as Ht by (subst l r; by rewrite take_drop).
  assert (Z.of_nat (newline_len text) = blen l) as -> by (unfold blen, l; rewrite length_take; lia).
  assert (length text = length l + length r)%nat as Hlen by (rewrite Ht, length_app; done).
  assert (0 < length l)%nat as Hl0 by (unfold l; rewrite length_take; lia).
  clearbody l r. rewrite Ht. rewrite <- (app_assoc l). rewrite quoted_ok. cbn [mbind outcome_bind].
  assert (pre ++ l ++ r ++ post = (pre ++ l) ++ r ++ post) as Hm by app_eq.
  assert (blen pre + blen (l ++ r) = blen (pre ++ l) + blen r) as He by (rewrite !blen_app; lia).
  assert (blen pre + blen l = blen (pre ++ l)) as Hb by (by rewrite blen_app).
  destruct (quoted_line l).
  - rewrite Hm, He, Hb. apply IH; [lia|lia|done].
  - rewrite mention_line; [|unfold blen; lia|etrans; [|exact Hl]; apply once_extends]. cbn [mbind outcome_bind].
    rewrite Hm, He, Hb. apply IH; [lia|lia|done].
Qed.

Lemma find_sub_le pat s : forall i, find_sub pat s = Some i -> (i <= length s)%nat.
Proof.
  induction s as [|c s IH]; intros i; cbn [find_sub]; case_bool_decide; [intros [= <-]; lia|done|intros [= <-]; lia|].
  destruct (find_sub pat s) as [j|]; [|done]. intros [= <-]. specialize (IH j eq_refl). cbn. lia.
Qed.

Lemma find_sub_lt pat s i : pat <> [] -> find_sub pat s = Some i -> (i < length s)%nat.
Proof.
  revert i. induction s as [|c s IH]; intros i Hp; cbn [find_sub]; case_bool_decide as E.
  - by rewrite take_nil in E.
  - done.
  - intros [= <-]. cbn. lia.
  - destruct (find_sub pat s) as [j|]; [|done]. intros [= <-]. specialize (IH j Hp eq_refl). cbn. lia.
Qed.

Lemma strstr_ok m pre s post pat : m = pre ++ s ++ 0 :: post -> nul_free s ->
  strstr m (blen pre) pat = Done ((fun i => blen pre + Z.of_nat i) <$> find_sub pat s).
Proof. intros -> Hs. unfold strstr. by rewrite (cstring_at _ pre s post). Qed.

(** What is scanned, in its place. *)
Lemma scan_ok args m content n pre s post : m = pre ++ s ++ 0 :: post -> nul_free s ->
  strlen m content = Done n -> content + n = blen pre + blen s ->
  let body := match find_sub ([10] ++ bytes "--" ++ [10]) s with Some i => take (S i) s | None => s end in
  (length (once [] (names_of (length body) body)) <= 10)%nat ->
  (e ← strstr m (blen pre) ([10] ++ bytes "--" ++ [10]);
   end_ ← (match e with Some e => Done (e + 1) | None => n ← strlen m content; Done (content + n) end);
   lines_loop m handler post_id (Z.to_nat (end_ - blen pre) + 1) (blen pre) end_ 0 (replicate (Z.to_nat POST_MENTION_LIMIT) []) args) =
  Done (Z.of_nat (length (once [] (names_of (length body) body))), notify args (once [] (names_of (length body) body))).
Proof.
  intros Hm Hs Hlen Hend body Hl. rewrite (strstr_ok m pre s post) by done. cbn [mbind outcome_bind].
  assert (exists rest, s = body ++ rest) as [rest Hrest].
  { subst body. destruct (find_sub _ s) as [i|]; [exists (drop (S i) s); by rewrite take_drop|exists []; by rewrite app_nil_r]. }
  assert ((match (fun i => blen pre + Z.of_nat i) <$> find_sub ([10] ++ bytes "--" ++ [10]) s with
           | Some e => Done (e + 1) | None => n ← strlen m content; Done (content + n) end) = Done (blen pre + blen body)) as ->.
  { subst body. destruct (find_sub _ s) as [i|] eqn:E; cbn [fmap option_fmap option_map].
    - apply find_sub_lt in E; [|done]. unfold blen. rewrite length_take. f_equal. lia.
    - rewrite Hlen. cbn [mbind outcome_bind]. by rewrite Hend. }
  cbn [mbind outcome_bind]. clearbody body. subst s. rewrite <- app_assoc in Hm. subst m.
  pose proof (lines_ok args body (length body) (Z.to_nat (blen pre + blen body - blen pre) + 1) pre (rest ++ 0 :: post) []) as H.
  cbn [length room app notify foldl] in H. apply H; [unfold blen; lia|lia|done].
Qed.
End Names.



(** The table holds ten names, and the count of names goes on: with eleven names
    counted the next name is compared with one that is not in the table. *)
Definition twelve_names : list Z :=
  mjoin ((fun k => bytes "@a" ++ [97 + k; 32]) <$> seqZ 0 12).

Example twelve_names_overrun : post_scan_for_mentions (twelve_names ++ [0]) (fun n id l => n :: l) 7 [] 0 [] = Fault.
Proof. by vm_compute. Qed.
