(* ===== verification/Post.v ===== *)
(** Posts and their records: [lib/post.c] and [include/fbbs/post.h]. *)
From S2P Require Import Prelude CString Helper Record Brc Time Query Mention.
From stdpp Require Import sorting.
#[local] Open Scope Z_scope.

(** * Data *)

Definition BOARD_NAME_LEN : Z := 17.
Definition POST_TITLE_CCHARS : Z := 23.
Definition HOMELEN : Z := 80.

Definition POST_FLAG_DIGEST : Z := 1.
Definition POST_FLAG_MARKED : Z := 2.
Definition POST_FLAG_LOCKED : Z := 4.
Definition POST_FLAG_IMPORT : Z := 8.
Definition POST_FLAG_STICKY : Z := 16.
Definition POST_FLAG_WATER : Z := 32.
Definition POST_FLAG_DELETED : Z := 64.
Definition POST_FLAG_JUNK : Z := 128.
Definition POST_FLAG_ATTACHMENT : Z := 256.
Definition POST_FLAG_ARCHIVE : Z := 512.
Definition POST_FLAG_READ : Z := 1024.

(** [x & flag] as a condition. *)
Definition has (x flag : Z) : bool := negb (Z.land x flag =? 0).

Inductive post_list_type_e :=
| POST_LIST_UNSET | POST_LIST_NORMAL | POST_LIST_THREAD | POST_LIST_MARKED | POST_LIST_DIGEST | POST_LIST_TOPIC
| POST_LIST_AUTHOR | POST_LIST_KEYWORD | POST_LIST_TRASH | POST_LIST_JUNK | POST_LIST_FORUM | POST_LIST_REPLY.
#[export] Instance post_list_type_eq : EqDecision post_list_type_e.
Proof. solve_decision. Defined.

(** Strings are held without their NUL; [fit n] is what [strlcpy] leaves of one
    in [n] bytes. *)
Definition fit (n : Z) (s : list Z) : list Z := take (Z.to_nat (n - 1)) s.

Record post_record_t := PostRecord {
  r_id : Z; r_reply_id : Z; r_thread_id : Z; r_user_id : Z; r_user_id_replied : Z; r_board_id : Z; r_flag : Z;
  r_user_name : list Z; r_board_name : list Z; r_utf8_title : list Z }.

Record post_record_extended_t := PostRecordExtended {
  basic : post_record_t; junk : bool; bm_visible : bool; eraser_id : Z; stamp : Z; r_eraser_name : list Z }.

Record post_info_t := PostInfo {
  i_id : Z; i_reply_id : Z; i_thread_id : Z; i_delete_stamp : Z; i_flag : Z; i_user_id : Z; i_user_id_replied : Z;
  i_board_id : Z; i_user_name : list Z; i_eraser_name : list Z; i_board_name : list Z; i_utf8_title : list Z }.

Record post_filter_t := PostFilter {
  f_type : post_list_type_e; f_bid : Z; f_flag : Z; f_uid : Z; f_min : Z; f_max : Z; f_tid : Z;
  f_offset_min : Z; f_offset_max : Z; f_archive : bool; f_utf8_keyword : list Z }.

Definition TITLE_SIZE : Z := POST_TITLE_CCHARS * 4 + 1.

(** * Records of the cache *)

Definition post_record_cmp (r1 r2 : post_record_t) : Z :=
  if r_id r2 <? r_id r1 then 1 else if r_id r1 =? r_id r2 then 0 else -1.
Definition post_sticky_compare (r1 r2 : post_record_t) : Z := - post_record_cmp r1 r2.

Definition post_record_to_info (pr : post_record_t) : post_info_t :=
  PostInfo (r_id pr) (r_reply_id pr) (r_thread_id pr) 0 (r_flag pr) (r_user_id pr) (r_user_id_replied pr) (r_board_id pr)
    (fit (IDLEN + 1) (r_user_name pr)) [] (fit BOARD_NAME_LEN (r_board_name pr)) (fit TITLE_SIZE (r_utf8_title pr)).

Definition set_deleted (pi : post_info_t) (stamp : Z) (eraser_name : list Z) : post_info_t :=
  PostInfo (i_id pi) (i_reply_id pi) (i_thread_id pi) stamp (i_flag pi) (i_user_id pi) (i_user_id_replied pi) (i_board_id pi)
    (i_user_name pi) eraser_name (i_board_name pi) (i_utf8_title pi).

(** The name of who deleted is taken from the first record for all of them. *)
Definition post_record_extended_to_info (pre : list post_record_extended_t) : list post_info_t :=
  match pre with
  | [] => []
  | first :: _ => (fun p => set_deleted (post_record_to_info (basic p)) (stamp p) (fit (IDLEN + 1) (r_eraser_name first))) <$> pre
  end.

Definition is_deleted (type : post_list_type_e) : bool :=
  match type with POST_LIST_TRASH | POST_LIST_JUNK => true | _ => false end.

Definition POST_BOARD_BUF_SIZE : Z := 50.
Definition POST_TRASH_BUF_SIZE : Z := 50.

(** The records that a call of [post_record_read] puts in the buffer [buf]: each
    part is converted to its start. *)
Section Read.
Context {R : Type} (sys : system) (bufsize : Z) (converter : list R -> list post_info_t).

Definition store (buf infos : list post_info_t) : outcome (list post_info_t) :=
  if (length infos <=? length buf)%nat then Done (infos ++ drop (length infos) buf) else Fault.

Fixpoint read_helper (fuel : nat) (rec : record_t R) (buf : list post_info_t) (size records : Z) : outcome (Z * list post_info_t * record_t R) :=
  match fuel with
  | O => NoFuel
  | S fuel =>
      if size <=? 0 then Done (records, buf, rec)
      else
        let max := if bufsize <? size then bufsize else size in
        let '(count, read_buf, rec) := record_read sys rec max in
        if count <=? 0 then Done (records, buf, rec)
        else
          buf ← store buf (converter read_buf);
          read_helper fuel rec buf (size - max) (records + count)
  end.

Definition post_record_read (rec : record_t R) (base : Z) (buf : list post_info_t) (size : Z) : outcome (Z * list post_info_t * record_t R) :=
  let '(off, rec) := record_seek rec base RECORD_SET in
  if off <? 0 then Done (0, buf, rec) else read_helper (Z.to_nat size + 1) rec buf size 0.
End Read.

(** * Filters *)

(** [strcasestr] of the C library, in the C locale. *)
Definition strcasestr (haystack needle : list Z) : bool := bool_decide (is_Some (first_nocase needle haystack 0)).

Definition post_match_filter (pr : post_record_t) (filter : post_filter_t) (offset : Z) : bool :=
  (if f_uid filter =? 0 then true else r_user_id pr =? f_uid filter) &&
  (if f_min filter =? 0 then true else f_min filter <=? r_id pr) &&
  (if f_max filter =? 0 then true else r_id pr <=? f_max filter) &&
  (if f_tid filter =? 0 then true else r_thread_id pr =? f_tid filter) &&
  (if f_flag filter =? 0 then true else Z.land (r_flag pr) (f_flag filter) =? f_flag filter) &&
  (if f_offset_min filter =? 0 then true else f_offset_min filter - 1 <=? offset) &&
  (if f_offset_max filter =? 0 then true else offset <? f_offset_max filter) &&
  (if bool_decide (f_type filter = POST_LIST_TOPIC) then r_id pr =? r_thread_id pr else true) &&
  (match f_utf8_keyword filter with [] => true | k => strcasestr (r_utf8_title pr) k end).

(** * Marks and stamps *)

Definition post_mark_raw (brc : brc_t) (not_n_mask : bool) (stamp flag : Z) : outcome Z :=
  let mark := if has flag POST_FLAG_DIGEST then if has flag POST_FLAG_MARKED then 98 else 103
              else if has flag POST_FLAG_MARKED then 109 else 32 in
  let mark := if (mark =? 32) && has flag POST_FLAG_WATER then 119 else mark in
  unread ← brc_unread brc stamp;
  Done (if (unread : bool) then if mark =? 32 then if not_n_mask then 43 else 78 else toupper mark else mark).

(** An identifier holds the milliseconds of its time above 21 bits; the shift of
    a negative one is arithmetic and the division rounds to zero. *)
Definition post_stamp (id : Z) : Z := u32 (Z.quot (Z.shiftr id 21) 1000).
(** The product is of 32-bit numbers. *)
Definition post_id_from_stamp (stamp : Z) : Z := i64 (Z.shiftl (u32 (stamp * 1000)) 21).

Definition post_mark (brc : brc_t) (not_n_mask : bool) (p : post_info_t) : outcome Z :=
  post_mark_raw brc not_n_mask (post_stamp (i_id p)) (i_flag p).

(** * File and table names *)

Definition POST_CONTENT_CACHE_DIRECTORIES : Z := 1000.

(** [%03ld] *)
Definition d03 (n : Z) : list Z :=
  if n <? 0 then 45 :: pad_left 48 2 (decimal (- n)) else pad_left 48 3 (decimal n).

Definition post_content_cache_filename (post_id size : Z) : list Z :=
  fit size (bytes "post/" ++ d03 (Z.rem post_id POST_CONTENT_CACHE_DIRECTORIES) ++ bytes "/" ++
            decimal (Z.quot post_id POST_CONTENT_CACHE_DIRECTORIES)).
Definition post_content_deleted_filename (post_id size : Z) : list Z :=
  fit size (bytes "post/" ++ d03 (Z.rem post_id POST_CONTENT_CACHE_DIRECTORIES) ++ bytes "/" ++
            decimal (Z.quot post_id POST_CONTENT_CACHE_DIRECTORIES) ++ bytes "~").

(** [partitions] is the number that is configured. *)
Definition partition_of (user_id partitions : Z) : Z := Z.rem user_id (if partitions <? 1 then 1 else partitions).
Definition post_reply_table_name (partitions user_id size : Z) : list Z :=
  fit size (bytes "post.reply_" ++ decimal (partition_of user_id partitions)).
Definition post_mention_table_name (partitions user_id size : Z) : list Z :=
  fit size (bytes "post.mention_" ++ decimal (partition_of user_id partitions)).

(** * Rows of the database *)

(** A row of [post.recent] or [post.deleted], with the columns that the queries
    of the program name; a text may be null. *)
Record row := Row {
  id : Z; reply_id : Z; thread_id : Z; user_id : Z; user_id_replied : Z; real_user_id : Z; user_name : option (list Z);
  board_id : Z; board_name : option (list Z); digest : bool; marked : bool; locked : bool; imported : bool; water : bool;
  attachment : bool; title : option (list Z) }.

Definition flag_if (b : bool) (flag : Z) : Z := if b then flag else 0.

(** [string_copy_allow_null]: nothing is copied of a null. *)
Definition copied (n : Z) (s : option (list Z)) : list Z := match s with Some s => fit n s | None => [] end.

Definition convert_post_record (r : row) (sticky : bool) : post_record_t :=
  PostRecord (id r) (reply_id r) (thread_id r) (user_id r) (user_id_replied r) (board_id r)
    (Z.lor (Z.lor (Z.lor (Z.lor (Z.lor (flag_if (digest r) POST_FLAG_DIGEST) (flag_if (marked r) POST_FLAG_MARKED))
      (flag_if (locked r) POST_FLAG_LOCKED)) (flag_if (imported r) POST_FLAG_IMPORT)) (flag_if (water r) POST_FLAG_WATER))
      (flag_if sticky POST_FLAG_STICKY))
    (copied (IDLEN + 1) (user_name r)) [] (copied TITLE_SIZE (title r)).

(** The columns of [post.deleted] behind these. *)
Record deletion := Deletion { delete_stamp : Z; d_eraser_id : Z; eraser_name : option (list Z); d_junk : bool; d_bm_visible : bool }.

Definition add_flag (r : post_record_t) (flag : Z) : post_record_t :=
  PostRecord (r_id r) (r_reply_id r) (r_thread_id r) (r_user_id r) (r_user_id_replied r) (r_board_id r) (Z.lor (r_flag r) flag)
    (r_user_name r) (r_board_name r) (r_utf8_title r).

Definition convert_post_record_extended (post : post_record_t) (d : deletion) : post_record_extended_t :=
  PostRecordExtended (add_flag post (flag_if (d_junk d) POST_FLAG_JUNK)) (d_junk d) (d_bm_visible d) (d_eraser_id d) (delete_stamp d)
    (copied (IDLEN + 1) (eraser_name d)).
