(* ===== verification/Content.v ===== *)
(** The contents of posts, in the database and in files: the cache of
    [lib/post.c] and its upkeep in [backend/post.c]. *)
From S2P Require Import Prelude Helper File Time Post.
#[local] Open Scope Z_scope.

Section Cache.
Context (sys : answers).

(** A new file, or one that is written over from its start. *)
Definition post_content_update_cache (fs : files) (file str : list Z) (force : bool) : bool * files :=
  if can_open sys file && (force || negb (dashf fs file)) then
    let old := default [] (fs !! file) in
    if locks sys then
      let '(n, s) := file_write sys str in (n =? blen str, <[file := s ++ drop (length s) old]> fs)
    else (false, <[file := old]> fs)
  else (false, fs).

(** [content]: what the query finds for a post. *)
Definition post_content_get (content : Z -> option (list Z)) (fs : files) (post_id : Z) (read_deleted : bool)
    : option (list Z) * files :=
  let file := post_content_cache_filename post_id HOMELEN in
  match file_read_all fs file with
  | Some str => (Some str, fs)
  | None =>
      let deleted := dashf fs (post_content_deleted_filename post_id HOMELEN) in
      if negb read_deleted && deleted then (None, fs)
      else
        match content post_id with
        | Some str => (Some str, if deleted then fs else (post_content_update_cache fs file str false).2)
        | None => (None, fs)
        end
  end.

(** [updated]: whether the query updates a row. *)
Definition post_content_set (updated : bool) (fs : files) (post_id : Z) : bool * files :=
  (updated, if updated then unlink fs (post_content_cache_filename post_id HOMELEN) else fs).

(** In [backend/post.c]; the name of the marker is appended nothing to, to
    create it. *)
Definition remove_cached_content (fs : files) (post_id : Z) : bool * files :=
  if post_id <=? 0 then (false, fs)
  else
    let new_ := post_content_deleted_filename post_id HOMELEN in
    match rename fs (post_content_cache_filename post_id HOMELEN) new_ with
    | Some fs => (true, fs)
    | None => let '(n, fs) := file_append sys fs new_ [] in (0 <? n, fs)
    end.

(** In [_backend_post_undelete]. *)
Definition remove_deleted_mark (fs : files) (post_id : Z) : files :=
  if 0 <? post_id then unlink fs (post_content_deleted_filename post_id HOMELEN) else fs.
End Cache.

(** * The names of the files *)

Lemma decimal_value n : 0 <= n < 10 ^ 20 -> digits_value 0 (decimal n) = n.
Proof.
  intros Hn. unfold decimal. rewrite (proj2 (Z.ltb_ge _ _)) by lia.
  destruct (digits_spec 20 n [] Hn ltac:(lia)) as (ds & -> & _ & _ & Hv). by rewrite app_nil_r.
Qed.

Lemma d03_table : forallb (fun r => (digits_value 0 (d03 r) =? r) && (length (d03 r) =? 3)%nat) (seqZ 0 1000) = true.
Proof. by vm_compute. Qed.

Lemma d03_ok r : 0 <= r < 1000 -> digits_value 0 (d03 r) = r /\ length (d03 r) = 3%nat.
Proof.
  intros Hr. pose proof d03_table as H. rewrite forallb_forall in H. specialize (H r).
  destruct (digits_value 0 (d03 r) =? r) eqn:E1, (length (d03 r) =? 3)%nat eqn:E2; cbn [andb] in H;
    try (exfalso; assert (false = true) as F by (apply H, list_elem_of_In, elem_of_seqZ; lia); done).
  split; [by apply Z.eqb_eq|by apply Nat.eqb_eq].
Qed.

Definition is_id (i : Z) : Prop := 0 < i < 2 ^ 63.

Definition folder (i : Z) : list Z := d03 (Z.rem i 1000) ++ bytes "/" ++ decimal (Z.quot i 1000).

Lemma id_parts i : is_id i -> 0 <= Z.rem i 1000 < 1000 /\ 0 <= Z.quot i 1000 < 10 ^ 20.
Proof. intros [H1 H2]. rewrite Z.rem_mod_nonneg, Z.quot_div_nonneg by lia. split; [apply Z.mod_pos_bound; lia|]. split; [apply Z.div_pos; lia|]. apply Z.div_lt_upper_bound; lia. Qed.

Lemma names_whole i : is_id i -> post_content_cache_filename i HOMELEN = bytes "post/" ++ folder i /\
  post_content_deleted_filename i HOMELEN = bytes "post/" ++ folder i ++ bytes "~".
Proof.
  intros Hi. destruct (id_parts i Hi) as [Hr Hq]. pose proof (decimal_bound (Z.quot i 1000) ltac:(lia)) as Hd. destruct (d03_ok _ Hr) as [_ Hl].
  unfold post_content_cache_filename, post_content_deleted_filename, fit, POST_CONTENT_CACHE_DIRECTORIES, folder.
  change (Z.to_nat (HOMELEN - 1)) with 79%nat. split; rewrite take_ge; try (by rewrite <- ?app_assoc);
    rewrite !length_app, Hl; change (length (bytes "post/")) with 5%nat; change (length (bytes "/")) with 1%nat; change (length (bytes "~")) with 1%nat; lia.
Qed.

Lemma folder_inj i j t u : is_id i -> is_id j -> folder i ++ t = folder j ++ u ->
  Z.rem i 1000 = Z.rem j 1000 /\ decimal (Z.quot i 1000) ++ t = decimal (Z.quot j 1000) ++ u.
Proof.
  intros Hi Hj. destruct (id_parts i Hi) as [Hri _], (id_parts j Hj) as [Hrj _]. destruct (d03_ok _ Hri) as [Vi Li], (d03_ok _ Hrj) as [Vj Lj].
  unfold folder. rewrite <- !app_assoc. intros E. apply app_inj_1 in E as [E1 E2]; [|by rewrite Li, Lj].
  split; [by rewrite <- Vi, <- Vj, E1|]. cbn [app] in E2. by injection E2.
Qed.

Lemma same_id i j : is_id i -> is_id j -> Z.rem i 1000 = Z.rem j 1000 -> decimal (Z.quot i 1000) = decimal (Z.quot j 1000) -> i = j.
Proof.
  intros Hi Hj Hr E. destruct (id_parts i Hi) as [_ Hqi], (id_parts j Hj) as [_ Hqj].
  assert (Z.quot i 1000 = Z.quot j 1000) as Hq by (rewrite <- (decimal_value _ Hqi), <- (decimal_value _ Hqj); by rewrite E).
  rewrite (Z.quot_rem' i 1000), (Z.quot_rem' j 1000). lia.
Qed.

Lemma cache_name_inj i j : is_id i -> is_id j ->
  post_content_cache_filename i HOMELEN = post_content_cache_filename j HOMELEN -> i = j.
Proof.
  intros Hi Hj. rewrite (proj1 (names_whole i Hi)), (proj1 (names_whole j Hj)). intros E%app_inv_head.
  destruct (folder_inj i j [] [] Hi Hj) as [Hr E2]; [by rewrite !app_nil_r|]. rewrite !app_nil_r in E2. by apply same_id.
Qed.

Lemma deleted_name_inj i j : is_id i -> is_id j ->
  post_content_deleted_filename i HOMELEN = post_content_deleted_filename j HOMELEN -> i = j.
Proof.
  intros Hi Hj. rewrite (proj2 (names_whole i Hi)), (proj2 (names_whole j Hj)). intros E%app_inv_head.
  destruct (folder_inj _ _ _ _ Hi Hj E) as [Hr E2]. apply app_inj_2 in E2 as [E2 _]; [|done]. by apply same_id.
Qed.

Lemma names_differ i j : is_id i -> is_id j ->
  post_content_cache_filename i HOMELEN <> post_content_deleted_filename j HOMELEN.
Proof.
  intros Hi Hj. rewrite (proj1 (names_whole i Hi)), (proj2 (names_whole j Hj)). intros E%app_inv_head.
  destruct (folder_inj i j [] (bytes "~") Hi Hj) as [_ E2]; [by rewrite app_nil_r|]. rewrite app_nil_r in E2.
  pose proof (decimal_chars (Z.quot i 1000)) as Hc. rewrite E2 in Hc. apply Forall_app in Hc as [_ Hc]. inversion Hc. cbn in *. lia.
Qed.

(** * Contents as a map *)

(** What the site does with contents: a post is new, is read, is edited, is
    deleted and is taken back. *)
Inductive op :=
| New (post_id : Z) (str : list Z)
| Get (post_id : Z) (read_deleted : bool)
| Edit (post_id : Z) (str : list Z)
| Delete (post_id : Z)
| Undelete (post_id : Z).

Definition op_id (o : op) : Z :=
  match o with New i _ | Get i _ | Edit i _ | Delete i | Undelete i => i end.

Record store := Store { table : gmap Z (list Z); cached : files }.

(** The program, on the table of contents and the files; the answer of a read. *)
Definition run (sys : answers) (s : store) (o : op) : option (list Z) * store :=
  match o with
  | New i str => (None, Store (<[i := str]> (table s)) (cached s))
  | Get i rd => let '(r, fs) := post_content_get sys (fun j => table s !! j) (cached s) i rd in (r, Store (table s) fs)
  | Edit i str =>
      let updated := bool_decide (is_Some (table s !! i)) in
      let '(_, fs) := post_content_set updated (cached s) i in
      (None, Store (if updated then <[i := str]> (table s) else table s) fs)
  | Delete i => let '(_, fs) := remove_cached_content sys (cached s) i in (None, Store (table s) fs)
  | Undelete i => (None, Store (table s) (remove_deleted_mark (cached s) i))
  end.

Fixpoint run_all (sys : answers) (s : store) (os : list op) : list (option (list Z)) * store :=
  match os with
  | [] => ([], s)
  | o :: os => let '(r, s) := run sys s o in let '(rs, s) := run_all sys s os in (r :: rs, s)
  end.

(** What is promised: the texts, and which of the posts are deleted. *)
Record promise := Promise { texts : gmap Z (list Z); gone : gset Z }.

Definition step (p : promise) (o : op) : option (list Z) * promise :=
  match o with
  | New i str => (None, Promise (<[i := str]> (texts p)) (gone p))
  | Get i rd => (if negb rd && bool_decide (i ∈ gone p) then None else texts p !! i, p)
  | Edit i str => (None, Promise (if bool_decide (is_Some (texts p !! i)) then <[i := str]> (texts p) else texts p) (gone p))
  | Delete i => (None, Promise (texts p) ({[i]} ∪ gone p))
  | Undelete i => (None, Promise (texts p) (gone p ∖ {[i]}))
  end.

Fixpoint step_all (p : promise) (os : list op) : list (option (list Z)) * promise :=
  match os with
  | [] => ([], p)
  | o :: os => let '(r, p) := step p o in let '(rs, p) := step_all p os in (r :: rs, p)
  end.

(** A new post has an identifier that was not used. *)
Definition allowed (p : promise) (o : op) : Prop :=
  is_id (op_id o) /\ match o with New i _ => texts p !! i = None /\ i ∉ gone p | _ => True end.

Fixpoint all_allowed (p : promise) (os : list op) : Prop :=
  match os with [] => True | o :: os => allowed p o /\ all_allowed (step p o).2 os end.

Notation cache i := (post_content_cache_filename i HOMELEN).
Notation mark i := (post_content_deleted_filename i HOMELEN).

(** The table is what is promised, a cached text is that of the table and is not
    of a deleted post, and the marks are those of the deleted posts. *)
Definition keeps (s : store) (p : promise) : Prop :=
  table s = texts p /\
  (forall i, is_id i -> forall str, cached s !! cache i = Some str -> texts p !! i = Some str /\ i ∉ gone p) /\
  (forall i, is_id i -> is_Some (cached s !! mark i) <-> i ∈ gone p).

Lemma lookup_cache (fs : files) i j s : is_id i -> is_id j -> <[cache i := s]> fs !! cache j = (if decide (i = j) then Some s else fs !! cache j).
Proof.
  intros Hi Hj. destruct (decide (i = j)) as [->|Hne]; [apply lookup_insert_eq|].
  apply lookup_insert_ne. intros E. by apply Hne, cache_name_inj.
Qed.

Lemma lookup_mark (fs : files) i j s : is_id i -> is_id j -> <[mark i := s]> fs !! mark j = (if decide (i = j) then Some s else fs !! mark j).
Proof.
  intros Hi Hj. destruct (decide (i = j)) as [->|Hne]; [apply lookup_insert_eq|].
  apply lookup_insert_ne. intros E. by apply Hne, deleted_name_inj.
Qed.

Lemma delete_cache (fs : files) i j : is_id i -> is_id j -> delete (cache i) fs !! cache j = (if decide (i = j) then None else fs !! cache j).
Proof.
  intros Hi Hj. destruct (decide (i = j)) as [->|Hne]; [apply lookup_delete_eq|].
  apply lookup_delete_ne. intros E. by apply Hne, cache_name_inj.
Qed.

Lemma delete_mark (fs : files) i j : is_id i -> is_id j -> delete (mark i) fs !! mark j = (if decide (i = j) then None else fs !! mark j).
Proof.
  intros Hi Hj. destruct (decide (i = j)) as [->|Hne]; [apply lookup_delete_eq|].
  apply lookup_delete_ne. intros E. by apply Hne, deleted_name_inj.
Qed.

Lemma apart_cache (fs : files) i j s : is_id i -> is_id j -> <[mark i := s]> fs !! cache j = fs !! cache j /\ delete (mark i) fs !! cache j = fs !! cache j.
Proof. intros Hi Hj. split; [apply lookup_insert_ne|apply lookup_delete_ne]; intros E; by apply (names_differ j i Hj Hi). Qed.

Lemma apart_mark (fs : files) i j s : is_id i -> is_id j -> <[cache i := s]> fs !! mark j = fs !! mark j /\ delete (cache i) fs !! mark j = fs !! mark j.
Proof. intros Hi Hj. split; [apply lookup_insert_ne|apply lookup_delete_ne]; intros E; by apply (names_differ i j Hi Hj). Qed.

Section Refines.
Context (sys : answers) (W : writes_all sys) (L : locks sys = true) (O : forall f, can_open sys f = true).

Lemma get_kept s p i rd : is_id i -> keeps s p -> let '(r, s') := run sys s (Get i rd) in r = (step p (Get i rd)).1 /\ keeps s' p.
Proof.
  intros Hi (Ht & Hc & Hm). cbn [run step]. unfold post_content_get, file_read_all. destruct (cached s !! cache i) as [str|] eqn:Ec.
  - destruct (Hc i Hi str Ec) as [Hs Hg]. cbn [fst]. rewrite bool_decide_eq_false_2, andb_false_r, Hs by done. done.
  - unfold dashf. rewrite (bool_decide_ext _ _ (Hm i Hi)). destruct (negb rd && bool_decide (i ∈ gone p)) eqn:Ed; [done|].
    rewrite Ht. destruct (texts p !! i) as [str|] eqn:Es; [|done]. split; [done|].
    case_bool_decide as Hg; [done|]. unfold post_content_update_cache, dashf. rewrite O, Ec. cbn [orb].
    rewrite bool_decide_eq_false_2 by (by intros [? ?]). cbn [negb andb default]. rewrite L. unfold file_write. rewrite W, to_nat_blen, take_ge, drop_nil, app_nil_r by lia.
    cbn [snd]. split; [done|]. cbn [cached table]. split.
    + intros j Hj u. rewrite lookup_cache by done. destruct (decide (i = j)) as [<-|]; [by intros [= <-]|by apply Hc].
    + intros j Hj. rewrite (proj1 (apart_mark (cached s) i j str Hi Hj)). by apply Hm.
Qed.

Lemma new_kept s p i str : allowed p (New i str) -> keeps s p -> keeps (run sys s (New i str)).2 (step p (New i str)).2.
Proof.
  intros [Hi [Hn Hg]] (Ht & Hc & Hm). cbn in *. split; [cbn; by rewrite Ht|]. split; [|done]. cbn [texts cached].
  intros j Hj u Hu. destruct (Hc j Hj u Hu) as [Hs Hj']. split; [|done]. rewrite lookup_insert_ne; [done|]. intros ->. by rewrite Hn in Hs.
Qed.

Lemma edit_kept s p i str : is_id i -> keeps s p -> keeps (run sys s (Edit i str)).2 (step p (Edit i str)).2.
Proof.
  intros Hi (Ht & Hc & Hm). cbn [run step post_content_set snd]. rewrite Ht. case_bool_decide as Hs; [|done].
  unfold unlink. split; [done|]. cbn [texts cached]. split.
  - intros j Hj u. rewrite delete_cache by done. destruct (decide (i = j)) as [<-|Hne]; [done|]. rewrite lookup_insert_ne by done. by apply Hc.
  - intros j Hj. rewrite (proj2 (apart_mark (cached s) i j [] Hi Hj)). by apply Hm.
Qed.

Lemma delete_kept s p i : is_id i -> keeps s p -> keeps (run sys s (Delete i)).2 (step p (Delete i)).2.
Proof.
  intros Hi (Ht & Hc & Hm). cbn [run step]. unfold remove_cached_content. rewrite (proj2 (Z.leb_gt i 0)) by (destruct Hi; lia).
  assert (forall (fs : files) str, (forall j, is_id j -> forall u, fs !! cache j = Some u -> j <> i /\ texts p !! j = Some u /\ j ∉ gone p) ->
    (forall j, is_id j -> is_Some (fs !! mark j) <-> j ∈ gone p) -> keeps (Store (table s) (<[mark i := str]> fs)) (Promise (texts p) ({[i]} ∪ gone p))) as Hset.
  { intros fs str Hc' Hm'. split; [done|]. cbn [texts gone cached]. split.
    - intros j Hj u. rewrite (proj1 (apart_cache fs i j str Hi Hj)). intros Hu. destruct (Hc' j Hj u Hu) as (Hne & Hs & Hg). set_solver.
    - intros j Hj. rewrite lookup_mark by done. destruct (decide (i = j)) as [<-|Hne]; [split; [set_solver|by eexists]|]. rewrite Hm' by done. set_solver. }
  unfold rename. destruct (cached s !! cache i) as [str|] eqn:Ec.
  - apply Hset.
    + intros j Hj u. rewrite delete_cache by done. destruct (decide (i = j)) as [<-|Hne]; [done|]. intros Hu. split; [done|by apply Hc].
    + intros j Hj. rewrite (proj2 (apart_mark (cached s) i j [] Hi Hj)). by apply Hm.
  - rewrite file_append_appends by done. apply Hset; [|done].
    intros j Hj u Hu. split; [|by apply Hc]. intros ->. by rewrite Ec in Hu.
Qed.

Lemma undelete_kept s p i : is_id i -> keeps s p -> keeps (run sys s (Undelete i)).2 (step p (Undelete i)).2.
Proof.
  intros Hi (Ht & Hc & Hm). cbn [run step snd]. unfold remove_deleted_mark, unlink. rewrite (proj2 (Z.ltb_lt 0 i)) by (destruct Hi; lia).
  split; [done|]. cbn [texts gone cached]. split.
  - intros j Hj u. rewrite (proj2 (apart_cache (cached s) i j [] Hi Hj)). intros Hu. destruct (Hc j Hj u Hu). set_solver.
  - intros j Hj. rewrite delete_mark by done. destruct (decide (i = j)) as [<-|Hne]; [split; [by intros []|set_solver]|]. rewrite Hm by done. set_solver.
Qed.

Lemma op_kept s p o : allowed p o -> keeps s p -> (run sys s o).1 = (step p o).1 /\ keeps (run sys s o).2 (step p o).2.
Proof.
  intros Ha Hk. pose proof (proj1 Ha) as Hi. destruct o as [i str|i rd|i str|i|i]; cbn [op_id] in Hi.
  - split; [done|by apply new_kept].
  - pose proof (get_kept s p i rd Hi Hk) as H. destruct (run sys s (Get i rd)). exact H.
  - split; [|by apply edit_kept]. cbn [run step post_content_set fst]. done.
  - split; [|by apply delete_kept]. cbn [run step]. by destruct (remove_cached_content sys (cached s) i).
  - split; [done|by apply undelete_kept].
Qed.

(** C29. The files that keep the contents of posts never show: whatever is
    posted, read, edited, deleted and taken back, in any order, every read gets
    the text that was last stored for the post, or nothing for a deleted post
    that is not asked for as such, as if there were only the table. *)
Theorem contents_refine s p os : keeps s p -> all_allowed p os ->
  (run_all sys s os).1 = (step_all p os).1 /\ keeps (run_all sys s os).2 (step_all p os).2.
Proof.
  revert s p. induction os as [|o os IH]; intros s p Hk Ha; [done|]. destruct Ha as [Ho Ha].
  destruct (op_kept s p o Ho Hk) as [Hr Hk']. cbn [run_all step_all].
  destruct (run sys s o) as [r s'], (step p o) as [r' p']. cbn [fst snd] in *. subst r'. destruct (IH s' p' Hk' Ha) as [Hr Hk''].
  destruct (run_all sys s' os), (step_all p' os). cbn in *. by subst.
Qed.
End Refines.

Lemma contents_refine_witness :
  let text := bytes "text" in
  let os := [New 5000001 text; Get 5000001 false; Edit 5000001 (bytes "new"); Get 5000001 false; Delete 5000001; Get 5000001 false;
             Get 5000001 true; Undelete 5000001; Get 5000001 false] in
  (run_all granted (Store ∅ ∅) os).1 = [None; Some text; None; Some (bytes "new"); None; None; Some (bytes "new"); None; Some (bytes "new")].
Proof.
  intros text os. assert (keeps (Store ∅ ∅) (Promise ∅ ∅)) as Hk.
  { split; [done|]. cbn [cached texts gone]. split; [intros i _ str E; discriminate E|]. intros i _. split; [intros [x E]; discriminate E|set_solver]. }
  destruct (contents_refine granted (fun _ => eq_refl) eq_refl (fun _ => eq_refl) (Store ∅ ∅) (Promise ∅ ∅) os Hk) as [Hr _].
  { assert (is_id 5000001) as Hi by (unfold is_id; lia). subst os. cbn [all_allowed]. repeat split; try apply Hi; cbn; set_solver. }
  rewrite Hr. by vm_compute.
Defined.
