(* ===== verification/UserCache.v ===== *)
(** The table of users in shared memory: [lib/ucache.c]. *)
From S2P Require Import Prelude Helper Mention.
From stdpp Require Import gmap.
#[local] Open Scope Z_scope.

Definition MAXUSERS : Z := 100000.

(** The fields of an account that are used here; [rest] stands for the others. *)
Record userec := Userec { u_userid : list Z; userlevel : Z; numposts : Z; rest : list Z }.
Definition zero_user : userec := Userec [] 0 0 [].

(** Arrays that start out as zeros, of [MAXUSERS] cells. *)
Section Arrays.
Context {A : Type} (zero : A).
Definition cell (m : gmap Z A) (i : Z) : A := default zero (m !! i).
Definition aget (m : gmap Z A) (i : Z) : outcome A :=
  if (0 <=? i) && (i <? MAXUSERS) then Done (cell m i) else Fault.
Definition aset (m : gmap Z A) (i : Z) (x : A) : outcome (gmap Z A) :=
  if (0 <=? i) && (i <? MAXUSERS) then Done (<[i := x]> m) else Fault.
End Arrays.

Notation bucket := (Z * Z * Z)%type.

Record ucache := UCache {
  userid : gmap Z (list Z); number : Z; next : gmap Z Z; prev : gmap Z Z; hash : gmap bucket Z; passwd : gmap Z userec }.

Definition set_userid (v : gmap Z (list Z)) (s : ucache) := UCache v (number s) (next s) (prev s) (hash s) (passwd s).
Definition set_number (v : Z) (s : ucache) := UCache (userid s) v (next s) (prev s) (hash s) (passwd s).
Definition set_next (v : gmap Z Z) (s : ucache) := UCache (userid s) (number s) v (prev s) (hash s) (passwd s).
Definition set_prev (v : gmap Z Z) (s : ucache) := UCache (userid s) (number s) (next s) v (hash s) (passwd s).
Definition set_hash (v : gmap bucket Z) (s : ucache) := UCache (userid s) (number s) (next s) (prev s) v (passwd s).
Definition set_passwd (v : gmap Z userec) (s : ucache) := UCache (userid s) (number s) (next s) (prev s) (hash s) v.

(** * The key of a name *)

Definition letter (c : Z) : Z := if islower c then c - 97 else if isupper c then c - 65 else 0.

(** [toupper] of a character, which may be negative. *)
Definition char_upper (c : Z) : Z := if c <? 128 then toupper c else schar c.

Fixpoint key_loop (fuel : nat) (m : list Z) (c key : Z) : outcome Z :=
  match fuel with
  | O => NoFuel
  | S fuel => x ← rd m c; if x =? 0 then Done key else key_loop fuel m (c + 1) (key + char_upper x)
  end.

Definition uhashkey (m : list Z) (p : Z) : outcome bucket :=
  c1 ← rd m p;
  c2 ← rd m (p + 1);
  key ← key_loop (length m + 1) m (p + 2) 0;
  Done (letter c1, letter c2, Z.rem key 256).

Definition in_hash (b : bucket) : bool :=
  let '(a1, a2, key) := b in (0 <=? a1) && (a1 <? 26) && (0 <=? a2) && (a2 <? 26) && (0 <=? key) && (key <? 256).
Definition hget (h : gmap bucket Z) (b : bucket) : outcome Z := if in_hash b then Done (default 0 (h !! b)) else Fault.
Definition hset (h : gmap bucket Z) (b : bucket) (i : Z) : outcome (gmap bucket Z) := if in_hash b then Done (<[b := i]> h) else Fault.

(** * Chains *)

(** The last entry of the chain that [i] is in. *)
Fixpoint last_loop (fuel : nat) (next : gmap Z Z) (i : Z) : outcome Z :=
  match fuel with
  | O => NoFuel
  | S fuel => n ← aget 0 next (i - 1); if n =? 0 then Done i else last_loop fuel next n
  end.
Definition chain_fuel : nat := S (Z.to_nat MAXUSERS).

Definition fillucache (uentp : userec) (count : Z) (s : ucache) : outcome (Z * ucache) :=
  if count <? MAXUSERS then
    ids ← aset (userid s) count (take (Z.to_nat IDLEN) (u_userid uentp));
    let s := set_userid ids s in
    let count := count + 1 in
    match u_userid uentp with
    | [] => Done (0, s)
    | name =>
        b ← uhashkey (name ++ [0]) 0;
        i ← hget (hash s) b;
        if i =? 0 then h ← hset (hash s) b count; Done (1, set_hash h s)
        else
          i ← last_loop chain_fuel (next s) i;
          n ← aset (next s) (i - 1) count;
          p ← aset (prev s) (count - 1) i;
          Done (1, set_prev p (set_next n s))
    end
  else Done (0, s).

(** The entry [num] in the chain of [i], or what the chain ends with. *)
Fixpoint seek_loop (fuel : nat) (next : gmap Z Z) (num i : Z) : outcome Z :=
  match fuel with
  | O => NoFuel
  | S fuel =>
      if negb (i =? num) && (0 <? i) then n ← aget 0 next (i - 1); seek_loop fuel next num n
      else Done i
  end.

Definition del_uidshm (num : Z) (name : list Z) (s : ucache) : outcome (Z * ucache) :=
  if (num <=? 0) || (MAXUSERS <? num) then Done (0, s)
  else
    b ← uhashkey (name ++ [0]) 0;
    i ← hget (hash s) b;
    if i <=? 0 then Done (0, s)
    else
      i ← seek_loop chain_fuel (next s) num i;
      if negb (i =? num) || (i <=? 0) then Done (0, s)
      else
        n ← aget 0 (next s) (i - 1);
        p ← aget 0 (prev s) (i - 1);
        s ← (if negb (n =? 0) then
               if negb (p =? 0) then
                 nx ← aset (next s) (p - 1) n; pv ← aset (prev s) (n - 1) p; Done (set_prev pv (set_next nx s))
               else
                 h ← hset (hash s) b n; pv ← aset (prev s) (n - 1) 0; Done (set_prev pv (set_hash h s))
             else
               if negb (p =? 0) then nx ← aset (next s) (p - 1) 0; Done (set_next nx s)
               else h ← hset (hash s) b 0; Done (set_hash h s));
        nx ← aset (next s) (i - 1) 0;
        pv ← aset (prev s) (i - 1) 0;
        ids ← aset (userid s) (i - 1) [];
        Done (1, set_userid ids (set_prev pv (set_next nx s))).

(** The loading of the file of accounts, into an empty table. *)
Fixpoint load_loop (us : list userec) (i last : Z) (s : ucache) : outcome (Z * ucache) :=
  match us with
  | [] => Done (last, s)
  | u :: us => '(r, s) ← fillucache u i s; load_loop us (i + 1) (if r =? 0 then last else i) s
  end.

Definition load_ucache (us : list userec) (s : ucache) : outcome ucache :=
  let pw := list_to_map (zip (seqZ 0 (Z.of_nat (length us))) us) in
  '(last, s) ← load_loop us 0 0 (UCache ∅ (number s) ∅ ∅ ∅ pw);
  Done (set_number (last + 1) s).

Definition substitut_record (rec : userec) (id : Z) (s : ucache) : outcome ucache :=
  pw ← aset (passwd s) (id - 1) rec; Done (set_passwd pw s).

Definition setuserid (num : Z) (name : list Z) (s : ucache) : outcome ucache :=
  if (0 <? num) && (num <=? MAXUSERS) then
    let s := if number s <? num then set_number num s else s in
    ids ← aset (userid s) (num - 1) (take (Z.to_nat IDLEN) name);
    let s := set_userid ids s in
    if bool_decide (name = bytes "new") then Done s
    else
      b ← uhashkey (name ++ [0]) 0;
      i ← hget (hash s) b;
      if i =? 0 then
        h ← hset (hash s) b num; nx ← aset (next s) (num - 1) 0; pv ← aset (prev s) (num - 1) 0;
        Done (set_prev pv (set_next nx (set_hash h s)))
      else
        i ← last_loop chain_fuel (next s) i;
        nx ← aset (next s) (i - 1) num; pv ← aset (prev s) (num - 1) i; nx ← aset nx (num - 1) 0;
        Done (set_prev pv (set_next nx s))
  else Done s.

Fixpoint free_loop (fuel : nat) (ids : gmap Z (list Z)) (i num : Z) : outcome Z :=
  match fuel with
  | O => NoFuel
  | S fuel =>
      if i <? num then u ← aget [] ids i; match u with [] => Done (i + 1) | _ => free_loop fuel ids (i + 1) num end
      else Done (if num <? MAXUSERS then num + 1 else 0)
  end.
Definition searchnewuser (s : ucache) : outcome Z := free_loop (S (Z.to_nat (number s))) (userid s) 0 (number s).

Definition getuserid (uid len : Z) (s : ucache) : outcome (list Z) :=
  u ← aget [] (userid s) (uid - 1); Done (take (Z.to_nat (len - 1)) u).

(** [strncasecmp] of the size of a name finds no difference. *)
Definition same_name (s t : list Z) : bool :=
  strcaseeq (take (Z.to_nat (IDLEN + 1)) s) (take (Z.to_nat (IDLEN + 1)) t).

Fixpoint search_loop (fuel : nat) (s : ucache) (name : list Z) (i : Z) : outcome Z :=
  match fuel with
  | O => NoFuel
  | S fuel =>
      if i =? 0 then Done 0
      else
        u ← aget [] (userid s) (i - 1);
        if same_name name u then Done i else n ← aget 0 (next s) (i - 1); search_loop fuel s name n
  end.

Definition searchuser (name : list Z) (s : ucache) : outcome Z :=
  b ← uhashkey (name ++ [0]) 0;
  i ← hget (hash s) b;
  search_loop chain_fuel s name i.

Definition getuserec (name : list Z) (s : ucache) : outcome (Z * option userec) :=
  uid ← searchuser name s;
  if uid =? 0 then Done (0, None) else u ← aget zero_user (passwd s) (uid - 1); Done (uid, Some u).

Definition getuserbyuid (uid : Z) (s : ucache) : outcome userec := aget zero_user (passwd s) (uid - 1).

(** [cmpuids]: the sizes are those of the field of the account. *)
Definition EXT_IDLEN : Z := 16.
Definition cmpuids (uid : list Z) (up : userec) : bool :=
  strcaseeq (take (Z.to_nat EXT_IDLEN) uid) (take (Z.to_nat EXT_IDLEN) (u_userid up)).

Definition dosearchuser (name : list Z) (s : ucache) : outcome (Z * userec) :=
  '(id, lookupuser) ← getuserec name s;
  match lookupuser with
  | Some u => Done (if cmpuids name u then (id, u) else (0, zero_user))
  | None => Done (0, zero_user)
  end.

Definition UCACHE_EINTNL : Z := -1.
Definition UCACHE_EEXIST : Z := -2.
Definition UCACHE_EFULL : Z := -3.

(** [home] tells whether there is a directory of the name, [inserted] and
    [locked] what the database and the lock answer. *)
Definition create_user (home inserted locked : bool) (user : userec) (s : ucache) : outcome (Z * ucache) :=
  if home || negb inserted then Done (UCACHE_EEXIST, s)
  else if negb locked then Done (UCACHE_EINTNL, s)
  else
    i ← searchnewuser s;
    if i =? 0 then Done (UCACHE_EFULL, s)
    else
      s ← setuserid i (u_userid user) s;
      s ← substitut_record user i s;
      Done (0, s).

(** * Names and their keys *)

Definition alnum (c : Z) : bool := isalpha c || isdigit c.

(** The name of an account; the name [new] is kept for the one that is used to
    register. *)
Definition valid_name (name : list Z) : Prop :=
  2 <= blen name <= IDLEN /\ Forall (fun c => alnum c = true) name /\ name <> bytes "new".

Definition bucket_of (name : list Z) : bucket :=
  match name with
  | c1 :: c2 :: t => (letter c1, letter c2, foldl (fun k c => k + toupper c) 0 t mod 256)
  | _ => (0, 0, 0)
  end.

Lemma alnum_range c : alnum c = true -> 48 <= c <= 122.
Proof. unfold alnum, isalpha, isupper, islower, isdigit. intros E. zprop E. lia. Qed.

Lemma key_loop_ok t : forall fuel pre key, (length t < fuel)%nat -> Forall (fun c => alnum c = true) t ->
  key_loop fuel (pre ++ t ++ [0]) (blen pre) key = Done (foldl (fun k c => k + toupper c) key t).
Proof.
  induction t as [|c t IH]; intros [|fuel] pre key Hf Ht; cbn [length] in Hf; try lia; cbn [key_loop foldl].
  - by rewrite (rd_at _ pre 0 []).
  - apply Forall_cons_1 in Ht as [Hc Ht]. pose proof (alnum_range c Hc). rewrite rd_head. cbn [mbind outcome_bind].
    rewrite (proj2 (Z.eqb_neq c 0)) by lia. unfold char_upper at 1. rewrite (proj2 (Z.ltb_lt c 128)) by lia.
    replace (pre ++ (c :: t) ++ [0]) with ((pre ++ [c]) ++ t ++ [0]) by app_eq.
    replace (blen pre + 1) with (blen (pre ++ [c])) by (by rewrite blen_app). apply IH; [lia|done].
Qed.

Lemma sum_nonneg t : forall key, 0 <= key -> Forall (fun c => alnum c = true) t -> 0 <= foldl (fun k c => k + toupper c) key t.
Proof.
  induction t as [|c t IH]; intros key Hk Ht; cbn; [done|]. apply Forall_cons_1 in Ht as [Hc Ht]. apply IH; [|done].
  pose proof (alnum_range c Hc). unfold toupper. destruct (islower c); lia.
Qed.

Lemma letter_range c : 0 <= letter c < 26.
Proof. unfold letter, islower, isupper. repeat zcase; zprop E; try zprop E0; lia. Qed.

Lemma uhash_ok name : valid_name name -> uhashkey (name ++ [0]) 0 = Done (bucket_of name) /\ in_hash (bucket_of name) = true.
Proof.
  intros (Hl & Ha & _). destruct name as [|c1 [|c2 t]]; [autorewrite with blen in Hl; lia|autorewrite with blen in Hl; lia|].
  apply Forall_cons_1 in Ha as [H1 Ha]. apply Forall_cons_1 in Ha as [H2 Ha]. unfold uhashkey. split.
  - cbn [app]. rewrite (rd_at (c1 :: c2 :: t ++ [0]) [] c1 (c2 :: t ++ [0]) 0) by done. cbn [mbind outcome_bind].
    rewrite (rd_at (c1 :: c2 :: t ++ [0]) [c1] c2 (t ++ [0]) (0 + 1)) by done. cbn [mbind outcome_bind].
    pose proof (key_loop_ok t (length (c1 :: c2 :: t ++ [0%Z]) + 1) [c1; c2] 0) as Hk. cbn [app] in Hk. change (blen [c1; c2]) with (0 + 2) in Hk.
    rewrite Hk by (cbn; rewrite ?length_app; lia || done). cbn [mbind outcome_bind]. rewrite Z.rem_mod_nonneg by (lia || by apply sum_nonneg). done.
  - unfold in_hash, bucket_of. pose proof (letter_range c1). pose proof (letter_range c2).
    pose proof (Z.mod_pos_bound (foldl (fun k c => k + toupper c) 0 t) 256 ltac:(lia)). rewrite !andb_true_iff, !Z.leb_le, !Z.ltb_lt. lia.
Qed.

Lemma case_table : forallb (fun c => (letter (tolower c) =? letter c) && (toupper (tolower c) =? toupper c)) (seqZ 0 256) = true.
Proof. by vm_compute. Qed.

Lemma case_letter c d : alnum c = true -> alnum d = true -> tolower c = tolower d -> letter c = letter d /\ toupper c = toupper d.
Proof.
  intros Hc%alnum_range Hd%alnum_range E.
  pose proof (byte_table _ case_table c ltac:(width; lia)) as E1. pose proof (byte_table _ case_table d ltac:(width; lia)) as E2.
  rewrite andb_true_iff, !Z.eqb_eq in E1, E2. rewrite <- (proj1 E1), <- (proj2 E1), <- (proj1 E2), <- (proj2 E2), E. done.
Qed.

Lemma same_bucket s t : valid_name s -> valid_name t -> strcaseeq s t = true -> bucket_of s = bucket_of t.
Proof.
  unfold strcaseeq. intros (Hls & Has & _) (Hlt & Hat & _) E. apply bool_decide_eq_true in E.
  destruct s as [|c1 [|c2 s]]; [autorewrite with blen in Hls; lia|autorewrite with blen in Hls; lia|]. destruct t as [|d1 [|d2 t]]; [done|done|].
  cbn [map] in E. injection E as E1 E2 E. apply Forall_cons_1 in Has as [Hc1 Has]. apply Forall_cons_1 in Has as [Hc2 Has].
  apply Forall_cons_1 in Hat as [Hd1 Hat]. apply Forall_cons_1 in Hat as [Hd2 Hat]. cbn [bucket_of].
  rewrite (proj1 (case_letter c1 d1 Hc1 Hd1 E1)), (proj1 (case_letter c2 d2 Hc2 Hd2 E2)). do 2 f_equal. clear - Has Hat E.
  revert t E Hat. generalize 0. induction s as [|c s IH]; intros k [|d t] E Hat; cbn [map] in E; try done. injection E as Ec E. cbn [foldl].
  apply Forall_cons_1 in Has as [Hc Has]. apply Forall_cons_1 in Hat as [Hd Hat]. rewrite (proj2 (case_letter c d Hc Hd Ec)). by apply IH.
Qed.

Lemma same_name_short s t : blen s <= IDLEN -> blen t <= IDLEN -> same_name s t = strcaseeq s t.
Proof. intros Hs Ht. unfold same_name. unfold blen, IDLEN in *. by rewrite !take_ge by lia. Qed.

(** * Linked chains *)

Definition in_range (x : Z) : Prop := 0 < x <= MAXUSERS.

Lemma aget_in {A} (zero : A) m x : in_range x -> aget zero m (x - 1) = Done (cell zero m (x - 1)).
Proof. intros [H1 H2]. unfold aget. by rewrite (proj2 (Z.leb_le 0 _)), (proj2 (Z.ltb_lt _ _)) by lia. Qed.
Lemma aset_in {A} (m : gmap Z A) x v : in_range x -> aset m (x - 1) v = Done (<[x - 1 := v]> m).
Proof. intros [H1 H2]. unfold aset. by rewrite (proj2 (Z.leb_le 0 _)), (proj2 (Z.ltb_lt _ _)) by lia. Qed.

Lemma cell_eq {A} (zero : A) m x v : cell zero (<[x := v]> m) x = v.
Proof. unfold cell. by rewrite lookup_insert_eq. Qed.
Lemma cell_ne {A} (zero : A) m x y v : x <> y -> cell zero (<[x := v]> m) y = cell zero m y.
Proof. intros H. unfold cell. by rewrite lookup_insert_ne. Qed.

Definition first (l : list Z) : Z := default 0 (head l).

(** [l] is linked forwards and backwards, and [p] is before its first entry. *)
Fixpoint linked (nx pv : gmap Z Z) (p : Z) (l : list Z) : Prop :=
  match l with
  | [] => True
  | x :: t => in_range x /\ cell 0 pv (x - 1) = p /\ cell 0 nx (x - 1) = first t /\ linked nx pv x t
  end.

Lemma linked_range nx pv l : forall p, linked nx pv p l -> Forall in_range l.
Proof. induction l as [|x t IH]; intros p H; [done|]. destruct H as (Hx & _ & _ & H). constructor; [done|by eapply IH]. Qed.

Lemma linked_next nx pv y v l : forall p, y ∉ l -> linked nx pv p l -> linked (<[y - 1 := v]> nx) pv p l.
Proof.
  induction l as [|x t IH]; intros p Hy H; [done|]. apply not_elem_of_cons in Hy as [Hne Hy]. destruct H as (Hx & Hp & Hn & H).
  split; [done|]. split; [done|]. split; [rewrite cell_ne by lia; done|by apply IH].
Qed.

Lemma linked_prev nx pv y v l : forall p, y ∉ l -> linked nx pv p l -> linked nx (<[y - 1 := v]> pv) p l.
Proof.
  induction l as [|x t IH]; intros p Hy H; [done|]. apply not_elem_of_cons in Hy as [Hne Hy]. destruct H as (Hx & Hp & Hn & H).
  split; [done|]. split; [rewrite cell_ne by lia; done|]. split; [done|by apply IH].
Qed.

Lemma last_default (p : Z) x t : default p (list.last (x :: t)) = default x (list.last t).
Proof. rewrite list.last_cons. by destruct (list.last t). Qed.

Lemma linked_at nx pv x l2 l1 : forall p, linked nx pv p (l1 ++ x :: l2) ->
  cell 0 pv (x - 1) = default p (list.last l1) /\ cell 0 nx (x - 1) = first l2.
Proof.
  induction l1 as [|y t IH]; intros p H; [by destruct H as (_ & Hp & Hn & _)|].
  destruct H as (_ & _ & _ & H). rewrite last_default. by apply IH.
Qed.

Lemma chain_short l : NoDup l -> Forall in_range l -> (length l <= Z.to_nat MAXUSERS)%nat.
Proof.
  intros Hnd Hr. rewrite <- (length_seqZ 1 MAXUSERS). apply submseteq_length, NoDup_submseteq; [done|].
  intros x Hx. rewrite list.Forall_forall in Hr. apply elem_of_seqZ. specialize (Hr x Hx). unfold in_range in Hr. lia.
Qed.

Lemma first_pos l : Forall in_range l -> l <> [] -> 0 < first l.
Proof. intros H Hl. destruct H as [|x t [Hx _] _]; done. Qed.

(** A chain with an entry behind its last one. *)
Lemma linked_snoc nx pv num l : forall p, NoDup l -> num ∉ l -> in_range num -> linked nx pv p l ->
  linked (<[num - 1 := 0]> (match list.last l with Some y => <[y - 1 := num]> nx | None => nx end))
    (<[num - 1 := default p (list.last l)]> pv) p (l ++ [num]).
Proof.
  induction l as [|x t IH]; intros p Hnd Hn Hr H; cbn [app].
  - split; [done|]. rewrite !cell_eq. done.
  - apply NoDup_cons in Hnd as [Hx Hnd]. apply not_elem_of_cons in Hn as [Hne Hn]. destruct H as (Hxr & Hp & Hnx & H).
    rewrite last_default. destruct t as [|y t].
    + cbn. split; [done|]. rewrite !(cell_ne _ _ (num - 1) (x - 1)) by lia. rewrite !cell_eq. done.
    + rewrite list.last_cons_cons. split; [done|]. split; [rewrite cell_ne by lia; done|]. split.
      * rewrite cell_ne by lia. destruct (list.last (y :: t)) as [z|] eqn:Ez; [|done]. rewrite cell_ne; [done|].
        apply last_Some_elem_of in Ez. intros E. apply Hx. by replace x with z by lia.
      * by apply IH.
Qed.

(** A chain without one of its entries. *)
Lemma linked_cut nx pv num l2 l1 : forall p, NoDup (l1 ++ num :: l2) -> linked nx pv p (l1 ++ num :: l2) ->
  linked (match list.last l1 with Some y => <[y - 1 := first l2]> nx | None => nx end)
    (match l2 with z :: _ => <[z - 1 := default p (list.last l1)]> pv | [] => pv end) p (l1 ++ l2).
Proof.
  induction l1 as [|x t IH]; intros p Hnd H; cbn [app] in *.
  - destruct H as (_ & _ & _ & H). destruct l2 as [|z t]; [done|]. apply NoDup_cons in Hnd as [_ Hnd]. apply NoDup_cons in Hnd as [Hz _].
    destruct H as (Hzr & _ & Hn & H). split; [done|]. split; [apply cell_eq|]. split; [done|by apply linked_prev].
  - apply NoDup_cons in Hnd as [Hx Hnd]. destruct H as (Hxr & Hp & Hn & H).
    assert (forall z, z ∈ l2 -> x <> z) as Hxz by (intros z Hz ->; apply Hx; set_solver).
    specialize (IH x Hnd H). rewrite last_default. destruct t as [|y t].
    + cbn [app list.last default from_option id] in *. split; [done|]. split.
      { destruct l2 as [|z l2]; [done|]. rewrite cell_ne; [done|]. specialize (Hxz z ltac:(set_solver)). lia. }
      split; [apply cell_eq|]. apply linked_next; [|done]. intros E. by apply (Hxz x).
    + rewrite list.last_cons_cons. split; [done|]. split.
      { destruct l2 as [|z l2]; [done|]. rewrite cell_ne; [done|]. specialize (Hxz z ltac:(set_solver)). lia. }
      split; [|done]. destruct (list.last (y :: t)) as [z|] eqn:Ez; [|done]. rewrite cell_ne; [done|].
      apply last_Some_elem_of in Ez. intros E. apply Hx. replace x with z by lia. set_solver.
Qed.

(** * Loops over a chain *)

Lemma last_loop_ok nx pv x l : forall fuel p, (length l < fuel)%nat -> linked nx pv p (l ++ [x]) ->
  last_loop fuel nx (first (l ++ [x])) = Done x.
Proof.
  induction l as [|y t IH]; intros [|fuel] p Hf H; cbn [length] in Hf; try lia; cbn [last_loop app first head default from_option id].
  - destruct H as (Hx & _ & Hn & _). rewrite aget_in by done. cbn [mbind outcome_bind]. by rewrite Hn.
  - destruct H as (Hy & _ & Hn & H). change (first (y :: t ++ [x])) with y. rewrite aget_in by done. cbn [mbind outcome_bind].
    rewrite Hn. pose proof (linked_range _ _ _ _ H) as Hr. rewrite (proj2 (Z.eqb_neq _ 0)).
    + eapply IH; [lia|done].
    + pose proof (first_pos (t ++ [x]) Hr ltac:(by destruct t)). lia.
Qed.

Lemma seek_loop_ok nx pv num l2 l1 : forall fuel p, (length l1 < fuel)%nat -> linked nx pv p (l1 ++ num :: l2) ->
  seek_loop fuel nx num (first (l1 ++ num :: l2)) = Done num.
Proof.
  induction l1 as [|y t IH]; intros [|fuel] p Hf H; cbn [length] in Hf; try lia; cbn [seek_loop app].
  - change (first (num :: l2)) with num. by rewrite Z.eqb_refl.
  - destruct H as (Hy & _ & Hn & H). change (first (y :: t ++ num :: l2)) with y.
    destruct (Z.eqb_spec y num) as [->|Hne]; [done|]. rewrite (proj2 (Z.ltb_lt 0 y)) by (destruct Hy; lia). cbn [negb andb].
    rewrite aget_in by done. cbn [mbind outcome_bind]. rewrite Hn. eapply IH; [lia|done].
Qed.

(** The first entry of a chain whose name is looked for. *)
Fixpoint match_in (names : Z -> list Z) (name : list Z) (l : list Z) : Z :=
  match l with [] => 0 | x :: t => if strcaseeq name (names x) then x else match_in names name t end.

Lemma search_loop_ok s name l : blen name <= IDLEN -> forall fuel p, (length l < fuel)%nat -> linked (next s) (prev s) p l ->
  Forall (fun x => blen (cell [] (userid s) (x - 1)) <= IDLEN) l ->
  search_loop fuel s name (first l) = Done (match_in (fun x => cell [] (userid s) (x - 1)) name l).
Proof.
  intros Hname. induction l as [|y t IH]; intros [|fuel] p Hf H Hl; cbn [length] in Hf; try lia; cbn [search_loop match_in]; [done|].
  destruct H as (Hy & _ & Hn & H). apply Forall_cons_1 in Hl as [Hyl Hl]. change (first (y :: t)) with y. destruct Hy as [Hy0 Hy1].
  rewrite (proj2 (Z.eqb_neq y 0)) by lia. rewrite !aget_in by done. cbn [mbind outcome_bind]. rewrite same_name_short by done.
  destruct (strcaseeq name _); [done|]. rewrite Hn. by eapply IH; [lia|..].
Qed.

(** * The table as a map *)

(** The names by the places of the users. *)
Notation users := (gmap Z (list Z)).

Record chained (s : ucache) (names : users) (ch : bucket -> list Z) : Prop := {
  ch_hash b : in_hash b = true -> default 0 (hash s !! b) = first (ch b);
  ch_link b : in_hash b = true -> linked (next s) (prev s) 0 (ch b);
  ch_nodup b : in_hash b = true -> NoDup (ch b);
  ch_mem b x : in_hash b = true -> x ∈ ch b <-> exists n, names !! x = Some n /\ bucket_of n = b }.

(** Every name is stored at its place and in one chain, and no two are the same
    but for case. *)
Record represents (s : ucache) (names : users) : Prop := {
  rep_chains : exists ch, chained s names ch;
  rep_ids x : in_range x -> cell [] (userid s) (x - 1) = default [] (names !! x);
  rep_valid x n : names !! x = Some n -> in_range x /\ valid_name n;
  rep_once x y n m : names !! x = Some n -> names !! y = Some m -> strcaseeq n m = true -> x = y }.

Lemma in_bucket n : valid_name n -> in_hash (bucket_of n) = true.
Proof. apply uhash_ok. Qed.

Lemma hash_first s names ch b : chained s names ch -> in_hash b = true -> hget (hash s) b = Done (first (ch b)).
Proof. intros C Hb. unfold hget. by rewrite Hb, (ch_hash _ _ _ C b Hb). Qed.

Lemma chain_fits s names ch b : chained s names ch -> in_hash b = true -> (length (ch b) < chain_fuel)%nat.
Proof.
  intros C Hb. unfold chain_fuel. pose proof (chain_short _ (ch_nodup _ _ _ C b Hb) (linked_range _ _ _ _ (ch_link _ _ _ C b Hb))). lia.
Qed.

Lemma match_found names name l x : match_in names name l = x -> x <> 0 -> x ∈ l /\ strcaseeq name (names x) = true.
Proof. induction l as [|y t IH]; cbn; [done|]. destruct (strcaseeq name (names y)) eqn:E; [intros <- _; set_solver|]. intros Hx Hne. destruct (IH Hx Hne). set_solver. Qed.

Lemma match_none names name l : match_in names name l = 0 -> Forall in_range l -> forall y, y ∈ l -> strcaseeq name (names y) = false.
Proof.
  induction l as [|y t IH]; cbn; [set_solver|]. intros E H. apply Forall_cons_1 in H as [Hy H].
  destruct (strcaseeq name (names y)) eqn:En; [subst y; by destruct Hy|]. intros z [->|Hz]%elem_of_cons; [done|by apply IH].
Qed.

(** What a search may answer. *)
Definition found_at (names : users) (name : list Z) (r : Z) : Prop :=
  (exists n, names !! r = Some n /\ strcaseeq name n = true) \/ (r = 0 /\ forall x n, names !! x = Some n -> strcaseeq name n = false).

Lemma search_ok s names name : represents s names -> valid_name name -> exists r, searchuser name s = Done r /\ found_at names name r.
Proof.
  intros [[ch C] Hids Hval Honce] Hn. destruct (uhash_ok name Hn) as [Hk Hb]. set (b := bucket_of name) in *.
  pose proof (ch_link _ _ _ C b Hb) as Hl. pose proof (linked_range _ _ _ _ Hl) as Hr.
  assert (forall x, x ∈ ch b -> exists n, names !! x = Some n /\ bucket_of n = b /\ cell [] (userid s) (x - 1) = n /\ valid_name n) as Hmem.
  { intros x Hx. destruct (proj1 (ch_mem _ _ _ C b x Hb) Hx) as (n & Hxn & Hbn). destruct (Hval x n Hxn) as [Hxr Hv]. exists n. rewrite Hids, Hxn by done. done. }
  unfold searchuser. rewrite Hk. cbn [mbind outcome_bind]. rewrite (hash_first s names ch b C Hb). cbn [mbind outcome_bind].
  rewrite (search_loop_ok s name (ch b)) with (p := 0); [|apply Hn|by apply (chain_fits s names)|done|].
  2: { apply list.Forall_forall. intros x Hx. destruct (Hmem x Hx) as (n & _ & _ & -> & Hv). apply Hv. }
  eexists. split; [done|]. set (r := match_in _ _ _). destruct (decide (r = 0)) as [Hr0|Hr0].
  - right. split; [done|]. intros x n Hxn. destruct (strcaseeq name n) eqn:E; [|done]. exfalso.
    assert (x ∈ ch b) as Hx. { apply (ch_mem _ _ _ C b x Hb). exists n. split; [done|]. symmetry. apply same_bucket; [done|by apply (Hval x n)|done]. }
    pose proof (match_none _ _ _ Hr0 Hr x Hx) as Hf. destruct (Hmem x Hx) as (n' & Hxn' & _ & Hc & _). cbn in Hf. rewrite Hc in Hf. congruence.
  - left. destruct (match_found _ _ _ r eq_refl Hr0) as [Hx He]. destruct (Hmem r Hx) as (n & Hrn & _ & Hc & _). exists n. split; [done|]. cbn in He. by rewrite Hc in He.
Qed.

Definition put (ch : bucket -> list Z) (b : bucket) (l : list Z) : bucket -> list Z := fun b' => if decide (b' = b) then l else ch b'.

Lemma others_apart s names ch b b' x n : chained s names ch -> in_hash b' = true -> names !! x = Some n -> bucket_of n = b -> b' <> b -> x ∉ ch b'.
Proof. intros C Hb' Hx Hn Hne Hin. apply (ch_mem _ _ _ C b' x Hb') in Hin as (m & Hm & Hmb). congruence. Qed.

Lemma not_chained s names ch b x : chained s names ch -> in_hash b = true -> names !! x = None -> x ∉ ch b.
Proof. intros C Hb Hx Hin. apply (ch_mem _ _ _ C b x Hb) in Hin as (m & Hm & _). congruence. Qed.

Lemma last_ex (l : list Z) : l <> [] -> exists l' y, l = l' ++ [y] /\ list.last l = Some y.
Proof. destruct (snoc_case l) as [->|(k & y & ->)]; [done|]. intros _. exists k, y. by rewrite last_snoc. Qed.

Lemma last_case (l : list Z) : l = [] \/ exists y, list.last l = Some y /\ y ∈ l.
Proof. destruct (list.last l) as [y|] eqn:E; [right; exists y; split; [done|by apply last_Some_elem_of]|left; by apply last_None]. Qed.

(** A user in a free place. *)
Lemma set_ok s names num name : represents s names -> in_range num -> names !! num = None -> valid_name name ->
  (forall x n, names !! x = Some n -> strcaseeq name n = false) ->
  exists s', setuserid num name s = Done s' /\ represents s' (<[num := name]> names) /\ number s' = Z.max (number s) num.
Proof.
  intros [[ch C] Hids Hval Honce] Hnum Hfree Hn Hnew. destruct (uhash_ok name Hn) as [Hk Hb]. set (b := bucket_of name) in *.
  pose proof (ch_link _ _ _ C b Hb) as Hl. pose proof (linked_range _ _ _ _ Hl) as Hr. pose proof (ch_nodup _ _ _ C b Hb) as Hnd.
  pose proof (not_chained _ _ _ b num C Hb Hfree) as Hout.
  assert (forall nx pv h ids k pw, ids = <[num - 1 := name]> (userid s) ->
    (forall b', in_hash b' = true -> default 0 (h !! b') = first (put ch b (ch b ++ [num]) b')) ->
    nx = <[num - 1 := 0]> (match list.last (ch b) with Some y => <[y - 1 := num]> (next s) | None => next s end) ->
    pv = <[num - 1 := default 0 (list.last (ch b))]> (prev s) ->
    represents (UCache ids k nx pv h pw) (<[num := name]> names)) as Hrep.
  { intros nx pv h ids k pw -> Hh -> ->. split.
    - exists (put ch b (ch b ++ [num])). split; [exact Hh| | |]; intros b'; unfold put; cbn [next prev].
      + intros Hb'. destruct (decide (b' = b)) as [->|Hne]; [by apply linked_snoc|].
        pose proof (not_chained _ _ _ b' num C Hb' Hfree) as Hout'. apply linked_prev; [done|]. apply linked_next; [done|].
        destruct (list.last (ch b)) as [y|] eqn:Ey; [|by apply (ch_link _ _ _ C)]. apply linked_next; [|by apply (ch_link _ _ _ C)].
        apply last_Some_elem_of in Ey. apply (ch_mem _ _ _ C b y Hb) in Ey as (m & Hm & Hmb). by eapply others_apart.
      + intros Hb'. destruct (decide (b' = b)) as [->|Hne]; [|by apply (ch_nodup _ _ _ C)]. apply NoDup_app. split; [done|]. split; [set_solver|apply NoDup_singleton].
      + intros x Hb'. destruct (decide (x = num)) as [->|Hx].
        * setoid_rewrite lookup_insert_eq. destruct (decide (b' = b)) as [->|Hne]; [split; [by exists name|set_solver]|].
          split; [intros Hin; by apply (not_chained _ _ _ b' num C Hb' Hfree) in Hin|]. intros (m & [= <-] & E). by subst.
        * setoid_rewrite (lookup_insert_ne names num x name); [|done]. destruct (decide (b' = b)) as [->|Hne]; [|by apply (ch_mem _ _ _ C)].
          rewrite elem_of_app, list_elem_of_singleton. rewrite (ch_mem _ _ _ C b x Hb). naive_solver.
    - intros x Hx. cbn [userid]. destruct (decide (x = num)) as [->|Hne]; [by rewrite cell_eq, lookup_insert_eq|]. rewrite cell_ne, lookup_insert_ne by lia. by apply Hids.
    - intros x n. destruct (decide (x = num)) as [->|Hne]; [rewrite lookup_insert_eq; by intros [= <-]|]. rewrite lookup_insert_ne by done. apply Hval.
    - intros x y n m. destruct (decide (x = num)) as [->|Hx], (decide (y = num)) as [->|Hy]; rewrite ?lookup_insert_eq, ?lookup_insert_ne by done; [done| | |apply Honce].
      + intros [= <-] Hm E. by rewrite (Hnew y m Hm) in E.
      + intros Hm [= <-] E. unfold strcaseeq in *. specialize (Hnew x n Hm). case_bool_decide; [|done]. case_bool_decide; congruence. }
  unfold setuserid. rewrite (proj2 (Z.ltb_lt 0 num)), (proj2 (Z.leb_le num _)) by apply Hnum. cbn [andb].
  set (s0 := if number s <? num then set_number num s else s).
  assert (userid s0 = userid s /\ next s0 = next s /\ prev s0 = prev s /\ hash s0 = hash s) as (Eu & En & Ep & Eh) by (subst s0; by destruct (number s <? num)).
  assert (number s0 = Z.max (number s) num) as Enum by (subst s0; destruct (Z.ltb_spec (number s) num); cbn; lia).
  clearbody s0. rewrite aset_in by done. cbn [mbind outcome_bind]. rewrite bool_decide_eq_false_2 by apply Hn. rewrite Hk. cbn [mbind outcome_bind set_userid hash next prev].
  rewrite Eh, (hash_first s names ch b C Hb). cbn [mbind outcome_bind].
  assert (take (Z.to_nat IDLEN) name = name) as Ename by (apply take_ge; destruct Hn as [[_ Hn] _]; unfold blen in Hn; lia). rewrite Ename, Eu, En, Ep.
  destruct (decide (ch b = [])) as [Ech|Ech].
  - rewrite Ech in *. cbn [first head default from_option id]. rewrite Z.eqb_refl. unfold hset. rewrite Hb, !aset_in by done. cbn [mbind outcome_bind set_hash set_next set_prev userid next prev hash passwd number].
    eexists. split; [done|]. split; [|done]. apply Hrep; try done. intros b' Hb'. unfold put. cbn [hash set_hash set_next]. destruct (decide (b' = b)) as [->|Hne]; [by rewrite lookup_insert_eq|].
    rewrite lookup_insert_ne by done. by apply (ch_hash _ _ _ C).
  - pose proof (first_pos (ch b) Hr Ech) as Hpos. rewrite (proj2 (Z.eqb_neq _ 0)) by lia.
    destruct (last_ex (ch b) Ech) as (l' & y & El & Ely). pose proof (chain_fits _ _ _ b C Hb) as Hfit. rewrite El, length_app in Hfit.
    rewrite El in Hl at 1. pose proof (last_loop_ok _ _ _ l' chain_fuel 0 ltac:(lia) Hl) as Hlast. rewrite <- El in Hlast. rewrite Hlast. cbn [mbind outcome_bind].
    assert (in_range y) as Hy by (rewrite list.Forall_forall in Hr; apply Hr; by apply last_Some_elem_of).
    rewrite !aset_in by done. cbn [mbind outcome_bind]. rewrite aset_in by done. cbn [mbind outcome_bind set_hash set_next set_prev userid next prev hash passwd number].
    eexists. split; [done|]. split; [|done]. apply Hrep; [done| |by rewrite Ely|by rewrite Ely].
    intros b' Hb'. cbn. rewrite Eh. unfold put. destruct (decide (b' = b)) as [->|Hne]; [|by apply (ch_hash _ _ _ C)]. rewrite (ch_hash _ _ _ C b Hb). by destruct (ch b).
Qed.

(** A user who is removed. *)
Lemma del_ok s names num name : represents s names -> names !! num = Some name ->
  exists s', del_uidshm num name s = Done (1, s') /\ represents s' (delete num names) /\ number s' = number s.
Proof.
  intros [[ch C] Hids Hval Honce] Hname. destruct (Hval num name Hname) as [Hnum Hn]. destruct (uhash_ok name Hn) as [Hk Hb]. set (b := bucket_of name) in *.
  pose proof (ch_link _ _ _ C b Hb) as Hl. pose proof (linked_range _ _ _ _ Hl) as Hr. pose proof (ch_nodup _ _ _ C b Hb) as Hnd.
  assert (num ∈ ch b) as Hin by (apply (ch_mem _ _ _ C b num Hb); by exists name).
  destruct (list_elem_of_split (ch b) num Hin) as (l1 & l2 & El). rewrite El in Hl, Hr, Hnd.
  destruct (linked_at _ _ _ _ _ _ Hl) as [Hp Hnx]. pose proof (linked_cut _ _ _ _ _ _ Hnd Hl) as Hcut.
  apply NoDup_app in Hnd as (Hnd1 & Hnd12 & Hnd2). apply NoDup_cons in Hnd2 as [Hnum2 Hnd2].
  assert (num ∉ l1) as Hnum1 by (intros E; by apply (Hnd12 num E); left).
  apply Forall_app in Hr as [Hr1 Hr2]. apply Forall_cons_1 in Hr2 as [_ Hr2].
  assert (forall b' x, in_hash b' = true -> b' <> b -> x ∈ l1 ++ num :: l2 -> x ∉ ch b') as Hapart.
  { intros b' x Hb' Hne Hx. rewrite <- El in Hx. apply (ch_mem _ _ _ C b x Hb) in Hx as (m & Hm & Hmb). by eapply others_apart. }
  assert (forall nx pv h ids k pw, ids = <[num - 1 := []]> (userid s) ->
    (forall b', in_hash b' = true -> default 0 (h !! b') = first (put ch b (l1 ++ l2) b')) ->
    nx = <[num - 1 := 0]> (match list.last l1 with Some y => <[y - 1 := first l2]> (next s) | None => next s end) ->
    pv = <[num - 1 := 0]> (match l2 with z :: _ => <[z - 1 := default 0 (list.last l1)]> (prev s) | [] => prev s end) ->
    represents (UCache ids k nx pv h pw) (delete num names)) as Hrep.
  { intros nx pv h ids k pw -> Hh -> ->. split.
    - exists (put ch b (l1 ++ l2)). split; [exact Hh| | |]; intros b'; unfold put; cbn [next prev].
      + intros Hb'. destruct (decide (b' = b)) as [->|Hne].
        * apply linked_next; [set_solver|]. apply linked_prev; [set_solver|done].
        * apply linked_next; [apply Hapart; set_solver|]. apply linked_prev; [apply Hapart; set_solver|].
          assert (linked (match list.last l1 with Some y => <[y - 1 := first l2]> (next s) | None => next s end) (prev s) 0 (ch b')) as H.
          { destruct (list.last l1) as [y|] eqn:Ey; [|by apply (ch_link _ _ _ C)]. apply last_Some_elem_of in Ey.
            apply linked_next; [apply Hapart; set_solver|by apply (ch_link _ _ _ C)]. }
          destruct l2 as [|z t]; [done|]. apply linked_prev; [apply Hapart; set_solver|done].
      + intros Hb'. destruct (decide (b' = b)) as [->|Hne]; [|by apply (ch_nodup _ _ _ C)]. apply NoDup_app. split; [done|]. split; [|done].
        intros x Hx Hx2. apply (Hnd12 x Hx). by right.
      + intros x Hb'. destruct (decide (x = num)) as [->|Hx].
        * setoid_rewrite lookup_delete_eq. split; [|naive_solver]. destruct (decide (b' = b)) as [->|Hne]; [set_solver|].
          intros Hx. exfalso. by apply (Hapart b' num Hb' Hne); [set_solver|].
        * setoid_rewrite (lookup_delete_ne names num x); [|done]. destruct (decide (b' = b)) as [->|Hne]; [|by apply (ch_mem _ _ _ C)].
          rewrite <- (ch_mem _ _ _ C b x Hb), El. set_solver.
    - intros x Hx. cbn [userid]. destruct (decide (x = num)) as [->|Hne]; [by rewrite cell_eq, lookup_delete_eq|]. rewrite cell_ne, lookup_delete_ne by lia. by apply Hids.
    - intros x n. destruct (decide (x = num)) as [->|Hne]; [by rewrite lookup_delete_eq|]. rewrite lookup_delete_ne by done. apply Hval.
    - intros x y n m. destruct (decide (x = num)) as [->|Hx]; [by rewrite lookup_delete_eq|]. destruct (decide (y = num)) as [->|Hy]; [by rewrite lookup_delete_eq|].
      rewrite !lookup_delete_ne by done. apply Honce. }
  unfold del_uidshm. rewrite (proj2 (Z.leb_gt num 0)), (proj2 (Z.ltb_ge MAXUSERS num)) by apply Hnum. cbn [orb].
  rewrite Hk. cbn [mbind outcome_bind]. rewrite (hash_first s names ch b C Hb). cbn [mbind outcome_bind].
  pose proof (first_pos (ch b) (linked_range _ _ _ _ (ch_link _ _ _ C b Hb)) ltac:(rewrite El; by destruct l1)) as Hpos.
  rewrite (proj2 (Z.leb_gt _ 0)) by lia. pose proof (chain_fits _ _ _ b C Hb) as Hfit. rewrite El, length_app in Hfit.
  rewrite El, (seek_loop_ok _ _ num l2 l1 chain_fuel 0) by (done || lia). cbn [mbind outcome_bind]. rewrite Z.eqb_refl.
  rewrite (proj2 (Z.leb_gt num 0)) by apply Hnum. cbn [negb orb]. rewrite !aget_in by done. cbn [mbind outcome_bind]. rewrite Hp, Hnx.
  assert (forall b', in_hash b' = true -> l1 <> [] -> default 0 (hash s !! b') = first (put ch b (l1 ++ l2) b')) as Hsame.
  { intros b' Hb' Hl1. unfold put. rewrite (ch_hash _ _ _ C b' Hb'). destruct (decide (b' = b)) as [->|]; [|done]. rewrite El. by destruct l1. }
  assert (forall b', in_hash b' = true -> l1 = [] -> default 0 (<[b := first l2]> (hash s) !! b') = first (put ch b (l1 ++ l2) b')) as Hhead.
  { intros b' Hb' ->. unfold put. destruct (decide (b' = b)) as [->|]; [by rewrite lookup_insert_eq|]. rewrite lookup_insert_ne by done. by apply (ch_hash _ _ _ C). }
  destruct (last_case l1) as [->|(y & Ely & Hy)]; cbn [default from_option id list.last] in *; destruct l2 as [|z t]; unfold hset; rewrite ?Hb.
  - change (first []) with 0. cbn [negb Z.eqb mbind outcome_bind set_hash set_next set_prev userid next prev hash passwd number]. rewrite !aset_in by done.
    eexists. split; [done|]. split; [|done]. by apply Hrep; [|intros; apply Hhead| |].
  - change (first (z :: t)) with z in *. apply Forall_cons_1 in Hr2 as [Hz Hr2]. rewrite (proj2 (Z.eqb_neq z 0)) by (destruct Hz; lia).
    cbn [negb Z.eqb]. rewrite aset_in by done. cbn [mbind outcome_bind set_hash set_next set_prev userid next prev hash passwd number]. rewrite !aset_in by done.
    eexists. split; [done|]. split; [|done]. by apply Hrep; [|intros; apply Hhead| |].
  - change (first []) with 0 in *. assert (in_range y) as Hyr by (rewrite list.Forall_forall in Hr1; auto).
    rewrite Ely in *. cbn [negb Z.eqb default from_option id]. rewrite (proj2 (Z.eqb_neq y 0)) by (destruct Hyr; lia). cbn [negb]. rewrite aset_in by done.
    cbn [mbind outcome_bind set_hash set_next set_prev userid next prev hash passwd number]. rewrite !aset_in by done.
    eexists. split; [done|]. split; [|done]. apply Hrep; try done. intros. apply Hsame; [done|]. by intros ->.
  - change (first (z :: t)) with z in *. apply Forall_cons_1 in Hr2 as [Hz Hr2]. assert (in_range y) as Hyr by (rewrite list.Forall_forall in Hr1; auto).
    rewrite Ely in *. cbn [default from_option id]. rewrite (proj2 (Z.eqb_neq z 0)), (proj2 (Z.eqb_neq y 0)) by (destruct Hz, Hyr; lia).
    cbn [negb]. rewrite !aset_in by done. cbn [mbind outcome_bind set_hash set_next set_prev userid next prev hash passwd number]. rewrite !aset_in by done.
    eexists. split; [done|]. split; [|done]. apply Hrep; try done. intros. apply Hsame; [done|]. by intros ->.
Qed.

(** * The operations refine a map *)

(** The places in use are counted. *)
Definition counted (s : ucache) (names : users) : Prop :=
  0 <= number s <= MAXUSERS /\ forall x n, names !! x = Some n -> x <= number s.

Lemma free_place_ok s names : represents s names -> counted s names -> exists r, searchnewuser s = Done r /\
  ((in_range r /\ names !! r = None) \/ (r = 0 /\ forall x, in_range x -> names !! x <> None)).
Proof.
  intros R [Hnum Hle]. unfold searchnewuser.
  assert (forall k i, 0 <= i -> Z.of_nat k = number s - i -> (forall x, 0 < x <= i -> names !! x <> None) ->
    exists r, free_loop (S k) (userid s) i (number s) = Done r /\ ((in_range r /\ names !! r = None) \/ (r = 0 /\ forall x, in_range x -> names !! x <> None))) as H.
  { induction k as [|k IH]; intros i Hi Hk Hused; cbn [free_loop].
    - rewrite (proj2 (Z.ltb_ge i _)) by lia. eexists. split; [done|]. destruct (Z.ltb_spec (number s) MAXUSERS).
      + left. split; [unfold in_range; lia|]. destruct (names !! (number s + 1)) as [n|] eqn:E; [|done]. specialize (Hle _ _ E). lia.
      + right. split; [done|]. intros x Hx. apply Hused. unfold in_range in Hx. lia.
    - rewrite (proj2 (Z.ltb_lt i _)) by lia. assert (in_range (i + 1)) as Hi1 by (unfold in_range; lia).
      pose proof (aget_in [] (userid s) _ Hi1) as Hget. rewrite (rep_ids _ _ R) in Hget by done. replace (i + 1 - 1) with i in Hget by lia. rewrite Hget. cbn [mbind outcome_bind]. destruct (names !! (i + 1)) as [n|] eqn:E; cbn [default from_option id].
      + destruct (rep_valid _ _ R _ _ E) as [_ [Hl _]]. destruct n as [|c n]; [autorewrite with blen in Hl; lia|]. apply IH; [lia|lia|].
        intros x Hx. destruct (decide (x = i + 1)) as [->|]; [by rewrite E|]. apply Hused. lia.
      + eexists. split; [done|]. left. split; [unfold in_range; lia|done]. }
  apply H; lia.
Qed.

(** What is done with the table: an account is made, looked for, deleted. *)
Inductive request := Create (user : userec) | Find (name : list Z) | Remove (num : Z) (name : list Z).

Definition serve (o : request) (s : ucache) : outcome (Z * ucache) :=
  match o with
  | Create user => create_user false true true user s
  | Find name => r ← searchuser name s; Done (r, s)
  | Remove num name => del_uidshm num name s
  end.

Inductive does (names : users) : request -> Z -> users -> Prop :=
| does_create user num : in_range num -> names !! num = None -> does names (Create user) 0 (<[num := u_userid user]> names)
| does_full user : (forall x, in_range x -> names !! x <> None) -> does names (Create user) UCACHE_EFULL names
| does_find name r : found_at names name r -> does names (Find name) r names
| does_remove num name : does names (Remove num name) 1 (delete num names).

Definition fair (names : users) (o : request) : Prop :=
  match o with
  | Create user => valid_name (u_userid user) /\ forall x n, names !! x = Some n -> strcaseeq (u_userid user) n = false
  | Find name => valid_name name
  | Remove num name => names !! num = Some name
  end.

Lemma represents_passwd s names pw : represents s names -> represents (set_passwd pw s) names.
Proof. intros [[ch []] ? ? ?]. split; [|done..]. by exists ch. Qed.

(** C30. The table of users, with its hash of linked lists in arrays, is a map
    from the places to the names: an account is made in a free place or there is
    none, a name is found, in any case of its letters, at the place where it is
    and nowhere if there is no such account, and a user is removed without a
    trace; no array is accessed outside its bounds, no chain is ever circular and
    the table stays well-formed. *)
Theorem users_refine s names o : represents s names -> counted s names -> fair names o ->
  exists r s' names', serve o s = Done (r, s') /\ does names o r names' /\ represents s' names' /\ counted s' names'.
Proof.
  intros R C Ha. destruct o as [user|name|num name]; cbn [serve fair] in *.
  - destruct Ha as [Hv Hnew]. unfold create_user. cbn [orb negb]. destruct (free_place_ok s names R C) as (num & -> & [[Hr Hf]|[-> Hfull]]); cbn [mbind outcome_bind].
    + rewrite (proj2 (Z.eqb_neq num 0)) by (destruct Hr; lia). destruct (set_ok s names num (u_userid user) R Hr Hf Hv Hnew) as (s1 & -> & R1 & Hn).
      cbn [mbind outcome_bind]. unfold substitut_record. rewrite aset_in by done. cbn [mbind outcome_bind]. eexists _, _, _. split; [done|].
      split; [by constructor|]. split; [by apply represents_passwd|]. destruct C as [Hnum Hle]. destruct Hr. split; cbn [set_passwd number]; [lia|].
      intros x n. rewrite lookup_insert. case_decide; [lia|]. intros Hx. specialize (Hle x n Hx). lia.
    + eexists _, _, _. split; [done|]. by split; [constructor|].
  - destruct (search_ok s names name R Ha) as (r & -> & Hans). eexists _, _, _. split; [done|]. by split; [constructor|].
  - destruct (del_ok s names num name R Ha) as (s1 & -> & R1 & Hn). eexists _, _, _. split; [done|]. split; [constructor|]. split; [done|].
    destruct C as [Hnum Hle]. split; [lia|]. intros x n Hx. rewrite Hn. apply lookup_delete_Some in Hx as [_ Hx]. by eapply Hle.
Qed.

Definition empty_cache : ucache := UCache ∅ 0 ∅ ∅ ∅ ∅.
Lemma represents_empty : represents empty_cache ∅ /\ counted empty_cache ∅.
Proof.
  split; [split; try done; exists (fun _ => []); split; try done|split; [done|done]].
  - intros b _. constructor.
  - intros b x _. split; [intros E; by apply not_elem_of_nil in E|by intros (n & E & _)].
Qed.

Lemma users_refine_witness :
  let ann := Userec (bytes "ann") 0 0 [] in
  exists r s' names', serve (Create ann) empty_cache = Done (r, s') /\ does ∅ (Create ann) r names' /\ represents s' names' /\ counted s' names' /\
    searchuser (bytes "ANN") s' = Done 1.
Proof.
  intros ann. destruct represents_empty as [R C].
  destruct (users_refine empty_cache ∅ (Create ann) R C) as (r & s' & names' & Hrun & H).
  { split; [|done]. split; [by vm_compute|]. split; [by repeat constructor|done]. }
  exists r, s', names'. split; [exact Hrun|]. destruct H as (Hd & R' & C'). split; [exact Hd|]. split; [exact R'|]. split; [exact C'|].
  assert ((x ← serve (Create ann) empty_cache; searchuser (bytes "ANN") x.2) = Done 1) as Hf by (by vm_compute).
  by rewrite Hrun in Hf.
Defined.

(** * Loading the accounts *)

(** The same numbers in the cells; zeros may be stored or not. *)
Definition same_cells (s t : ucache) : Prop :=
  (forall i, cell [] (userid s) i = cell [] (userid t) i) /\ (forall i, cell 0 (next s) i = cell 0 (next t) i) /\
  (forall i, cell 0 (prev s) i = cell 0 (prev t) i) /\ (forall b, default 0 (hash s !! b) = default 0 (hash t !! b)).

#[export] Instance same_cells_equivalence : Equivalence same_cells.
Proof.
  split.
  - by split.
  - intros s t (H1 & H2 & H3 & H4). by split_and!.
  - intros s t u (H1 & H2 & H3 & H4) (K1 & K2 & K3 & K4). split_and!; intros x; [by rewrite H1|by rewrite H2|by rewrite H3|by rewrite H4].
Qed.

Lemma linked_cells nx pv nx' pv' l : (forall i, cell 0 nx i = cell 0 nx' i) -> (forall i, cell 0 pv i = cell 0 pv' i) ->
  forall p, linked nx pv p l -> linked nx' pv' p l.
Proof. intros Hn Hp. induction l as [|x t IH]; intros p H; [done|]. destruct H as (Hx & Hpx & Hnx & H). split; [done|]. rewrite <- Hp, <- Hn. auto. Qed.

#[export] Instance represents_proper : Proper (same_cells ==> eq ==> iff) represents.
Proof.
  assert (forall s t names, same_cells s t -> represents s names -> represents t names) as H.
  { intros s t names (H1 & H2 & H3 & H4) [[ch [Ch Cl Cn Cm]] Hi Hv Ho]. split; [|by intros x Hx; rewrite <- H1; apply Hi|done..].
    exists ch. split; [intros b Hb; rewrite <- H4; by apply Ch| |done..]. intros b Hb. eapply linked_cells; [exact H2|exact H3|by apply Cl]. }
  intros s t Hst names ? <-. split; apply H; [done|by symmetry].
Qed.

(** No entry is linked that is not in use. *)
Definition clean (s : ucache) (names : users) : Prop :=
  forall x, names !! x = None -> cell 0 (next s) (x - 1) = 0 /\ cell 0 (prev s) (x - 1) = 0.

Lemma fill_as_set s names num u : represents s names -> clean s names -> in_range num -> names !! num = None -> valid_name (u_userid u) ->
  exists t t', setuserid num (u_userid u) s = Done t /\ fillucache u (num - 1) s = Done (1, t') /\ same_cells t t' /\
    clean t' (<[num := u_userid u]> names).
Proof.
  intros [[ch C] Hids Hval Honce] Hclean Hnum Hfree Hn. destruct (Hclean num Hfree) as [Hnx Hpv].
  destruct (uhash_ok _ Hn) as [Hk Hb]. set (name := u_userid u) in *. set (b := bucket_of name) in *.
  unfold setuserid, fillucache. rewrite (proj2 (Z.ltb_lt 0 num)), (proj2 (Z.leb_le num _)), (proj2 (Z.ltb_lt (num - 1) _)) by (destruct Hnum; lia).
  cbn [andb]. set (s0 := if number s <? num then set_number num s else s).
  assert (userid s0 = userid s /\ next s0 = next s /\ prev s0 = prev s /\ hash s0 = hash s) as (Eu & En & Ep & Eh) by (subst s0; by destruct (number s <? num)).
  clearbody s0. rewrite !aset_in by done. cbn [mbind outcome_bind]. fold name. rewrite bool_decide_eq_false_2 by apply Hn.
  destruct name as [|c0 t0] eqn:Ename; [destruct Hn as [[Hl _] _]; autorewrite with blen in Hl; lia|]. rewrite <- Ename in *. rewrite Hk. cbn [mbind outcome_bind set_userid hash next prev].
  rewrite Eh, (hash_first s names ch b C Hb). cbn [mbind outcome_bind]. replace (num - 1 + 1) with num by lia.
  destruct (Z.eqb_spec (first (ch b)) 0) as [Hz|Hz].
  - unfold hset. rewrite Hb, !aset_in by done. cbn [mbind outcome_bind set_hash set_next set_prev userid next prev hash passwd number].
    eexists _, _. split; [done|]. split; [done|]. split.
    + split; [intros i; cbn; by rewrite ?Eu|]. cbn. rewrite En, Ep. split_and!; [| |intros b'; by rewrite ?Eh]; intros i;
        (destruct (decide (i = num - 1)) as [->|]; [by rewrite cell_eq|by rewrite cell_ne by done]).
    + intros x Hx. cbn. apply Hclean. by apply lookup_insert_None in Hx as [Hx _].
  - pose proof (ch_link _ _ _ C b Hb) as Hl. pose proof (linked_range _ _ _ _ Hl) as Hr.
    destruct (last_ex (ch b)) as (l' & y & El & Ely); [by intros E; rewrite E in Hz|]. pose proof (chain_fits _ _ _ b C Hb) as Hfit. rewrite El, length_app in Hfit.
    rewrite El in Hl at 1. pose proof (last_loop_ok _ _ _ l' chain_fuel 0 ltac:(lia) Hl) as Hlast. rewrite <- El in Hlast. rewrite En, Ep, !Hlast. cbn [mbind outcome_bind].
    assert (y ∈ ch b) as Hyin by by apply last_Some_elem_of. assert (in_range y) as Hy by (rewrite list.Forall_forall in Hr; by apply Hr).
    assert (y <> num) as Hyn by (intros ->; by apply (not_chained _ _ _ b num C Hb Hfree)).
    rewrite !aset_in by done. cbn [mbind outcome_bind]. rewrite aset_in by done. cbn [mbind outcome_bind set_hash set_next set_prev userid next prev hash passwd number].
    eexists _, _. split; [done|]. split; [done|]. split.
    + split; [intros i; cbn; by rewrite ?Eu|]. cbn. split_and!; [|done|intros b'; by rewrite ?Eh]. intros i.
      destruct (decide (i = num - 1)) as [->|]; [rewrite cell_eq, cell_ne by lia; done|by rewrite (cell_ne _ _ (num - 1)) by done].
    + intros x Hx. cbn. apply lookup_insert_None in Hx as [Hx Hne]. rewrite !cell_ne; [by apply Hclean|lia|].
      intros E. apply (not_chained _ _ _ b x C Hb Hx). by replace x with y by lia.
Qed.

(** The names of a list of accounts, from place [i] on. *)
Fixpoint names_of (us : list userec) (i : Z) : users :=
  match us with
  | [] => ∅
  | u :: us => match u_userid u with [] => names_of us (i + 1) | n => <[i := n]> (names_of us (i + 1)) end
  end.

Fixpoint good_accounts (us : list userec) : Prop :=
  match us with
  | [] => True
  | u :: us => (u_userid u = [] \/ valid_name (u_userid u)) /\ good_accounts us /\
      Forall (fun v => u_userid u <> [] -> strcaseeq (u_userid u) (u_userid v) = false) us
  end.

Lemma fill_empty s u i : u_userid u = [] -> in_range (i + 1) -> fillucache u i s = Done (0, set_userid (<[i := []]> (userid s)) s).
Proof.
  intros Hu [H1 H2]. unfold fillucache. rewrite (proj2 (Z.ltb_lt i _)) by lia. unfold aset.
  rewrite (proj2 (Z.leb_le 0 i)), (proj2 (Z.ltb_lt i _)), Hu by lia. done.
Qed.

Lemma keep_empty s names i : represents s names -> in_range (i + 1) -> names !! (i + 1) = None -> same_cells s (set_userid (<[i := []]> (userid s)) s).
Proof.
  intros R Hi Hn. split; [|done]. intros j. cbn. destruct (decide (j = i)) as [->|]; [|by rewrite cell_ne by done]. rewrite cell_eq.
  pose proof (rep_ids _ _ R _ Hi) as H. rewrite Hn in H. by replace (i + 1 - 1) with i in H by lia.
Qed.

Lemma load_loop_ok us : forall i last s names, represents s names -> clean s names -> good_accounts us ->
  0 <= i -> i + Z.of_nat (length us) <= MAXUSERS -> 0 <= last <= i -> (last < MAXUSERS) ->
  (forall x n, names !! x = Some n -> x <= i /\ x <= last + 1) ->
  Forall (fun u => u_userid u <> [] -> forall x n, names !! x = Some n -> strcaseeq (u_userid u) n = false) us ->
  exists last' s', load_loop us i last s = Done (last', s') /\ represents s' (names_of us (i + 1) ∪ names) /\
    0 <= last' < MAXUSERS /\ (forall x n, (names_of us (i + 1) ∪ names) !! x = Some n -> x <= last' + 1).
Proof.
  induction us as [|u us IH]; intros i last s names R C G Hi Hlen Hlast Hmax Hle Hnew; cbn [load_loop names_of].
  - eexists _, _. split; [done|]. rewrite map_empty_union. split; [done|]. split; [lia|]. intros x n Hx. rewrite map_empty_union in Hx. destruct (Hle x n Hx). lia.
  - cbn [length] in Hlen. destruct G as (Hu & G & Hothers). apply Forall_cons_1 in Hnew as [Hnu Hnew].
    assert (in_range (i + 1)) as Hin by (unfold in_range; lia).
    assert (names !! (i + 1) = None) as Hfree.
    { destruct (names !! (i + 1)) as [n|] eqn:E; [|done]. destruct (Hle _ _ E). lia. }
    destruct (decide (u_userid u = [])) as [He|He].
    + rewrite (fill_empty s u i He Hin), He. cbn [mbind outcome_bind]. rewrite Z.eqb_refl.
      assert (represents (set_userid (<[i := []]> (userid s)) s) names) as R' by by (apply (represents_proper _ _ (keep_empty s names i R Hin Hfree) _ _ eq_refl); exact R).
      apply IH; [done|done|done|lia|lia|lia|done| |done]. intros x n Hx. destruct (Hle x n Hx). lia.
    + destruct Hu as [Hu|Hv]; [done|]. destruct (fill_as_set s names (i + 1) u R C Hin Hfree Hv) as (t & t' & Ht & Hf & Hsame & C').
      replace (i + 1 - 1) with i in Hf by lia. destruct (set_ok s names (i + 1) (u_userid u) R Hin Hfree Hv (Hnu He)) as (t0 & Ht0 & R' & _).
      rewrite Ht in Ht0. injection Ht0 as <-. rewrite Hsame in R'. rewrite Hf. cbn [mbind outcome_bind Z.eqb].
      destruct (IH (i + 1) i t' (<[i + 1 := u_userid u]> names) R' C' G ltac:(lia) ltac:(lia) ltac:(lia) ltac:(lia)) as (last' & s' & Hl & R'' & Hlast' & Hle').
      * intros x n. rewrite lookup_insert. case_decide; [lia|]. intros Hx. destruct (Hle x n Hx). lia.
      * clear - Hothers Hnew He. induction us as [|v us IHs]; [done|]. apply Forall_cons_1 in Hothers as [Hv Hothers]. apply Forall_cons_1 in Hnew as [Hnv Hnew].
        constructor; [|by apply IHs]. intros Hne x n. rewrite lookup_insert. case_decide; [|exact (Hnv Hne x n)]. intros [= <-].
        specialize (Hv He). destruct (strcaseeq (u_userid v) (u_userid u)) eqn:E; [|done]. unfold strcaseeq in *. apply bool_decide_eq_true in E.
        by rewrite bool_decide_eq_true_2 in Hv by done.
      * exists last', s'. split; [done|].
        assert (match u_userid u with [] => names_of us (i + 1 + 1) | n => <[i + 1 := n]> (names_of us (i + 1 + 1)) end ∪ names =
          names_of us (i + 1 + 1) ∪ <[i + 1 := u_userid u]> names) as ->; [|done].
        destruct (u_userid u) as [|c t1]; [done|]. rewrite <- insert_union_l. apply insert_union_r.
        assert (forall vs k, i + 1 < k -> names_of vs k !! (i + 1) = None) as Hno; [|by apply Hno; lia].
        induction vs as [|v vs IHv]; intros k Hk; cbn; [done|]. destruct (u_userid v); [by apply IHv; lia|]. rewrite lookup_insert_ne by lia. apply IHv. lia.
Qed.

(** After the accounts are loaded the table is the map of their names. *)
Lemma load_represents us s : good_accounts us -> Z.of_nat (length us) <= MAXUSERS ->
  exists s', load_ucache us s = Done s' /\ represents s' (names_of us 1) /\ counted s' (names_of us 1).
Proof.
  intros G Hlen. unfold load_ucache.
  destruct (load_loop_ok us 0 0 (UCache ∅ (number s) ∅ ∅ ∅ (list_to_map (zip (seqZ 0 (Z.of_nat (length us))) us))) ∅) as (last & s' & -> & R & Hlast & Hle); try done.
  - eapply (represents_proper empty_cache); [by split_and!|done|apply represents_empty].
  - apply list.Forall_forall. intros u _ _ x n. by rewrite lookup_empty.
  - cbn [mbind outcome_bind]. eexists. split; [done|]. rewrite map_union_empty in *. split; [|split; [cbn; lia|done]].
    destruct R as [[ch []] ? ? ?]. split; [by exists ch|done..].
Qed.

(** A user whose name is changed, as [setuserid] is called for it, stays in the
    chain of the old name and no longer leads to the users behind. *)
Example renamed_hides :
  (s ← setuserid 1 (bytes "aabc") empty_cache; s ← setuserid 2 (bytes "aacb") s; a ← searchuser (bytes "aacb") s;
   s ← setuserid 1 (bytes "other") s; b ← searchuser (bytes "aacb") s; Done (a, b)) = Done (2, 0).
Proof. by vm_compute. Qed.

(** The key of a name of one character is computed from what follows its end. *)
Example short_name_overread : uhashkey (bytes "a" ++ [0]) 0 = Fault.
Proof. by vm_compute. Qed.

#[global] Opaque chain_fuel.
