(* ===== verification/Board.v ===== *)
(** Boards and who may read and post there, and the identifiers of users:
    [lib/board.c] and [lib/user.c]. *)
From S2P Require Import Prelude CString Helper Mention Post UserCache.
From stdpp Require Import gmap.
#[local] Open Scope Z_scope.

Definition BOARD_FLAG_VOTE : Z := 1.
Definition BOARD_FLAG_NOZAP : Z := 2.
Definition BOARD_FLAG_ANONY : Z := 8.
Definition BOARD_FLAG_JUNK : Z := 32.
Definition BOARD_FLAG_CLUB : Z := 64.
Definition BOARD_FLAG_READ : Z := 128.
Definition BOARD_FLAG_POST : Z := 256.
Definition BOARD_FLAG_DIR : Z := 512.

Definition PERM_POST : Z := 0x8.
Definition PERM_BOARDS : Z := 0x40.
Definition PERM_OBOARDS : Z := 0x80.
Definition PERM_OCLUB : Z := 0x100.
Definition PERM_SYSOPS : Z := 0x2000.
Definition PERM_BLEVELS : Z := Z.lor PERM_SYSOPS PERM_OBOARDS.

Definition BOARD_BM_LEN : Z := 55.

Record board_t := Board { bo_id : Z; parent : Z; flag : Z; perm : Z; name : list Z; bms : list Z; descr : list Z; categ : list Z }.

Definition res_to_board (id parent flag perm : Z) (name bms descr categ : list Z) : board_t :=
  Board id parent (u32 flag) (u32 perm) (fit (BOARD_NAME_LEN + 1) name) (fit (BOARD_BM_LEN + 1) bms) (fit 97 descr) (fit 9 categ).

(** [HAS_PERM2] *)
Definition HAS_PERM2 (x : Z) (up : userec) : bool := if x =? 0 then true else has (userlevel up) x.

Definition board_is_junk (bp : board_t) : bool := has (flag bp) BOARD_FLAG_JUNK.
Definition is_board_dir (bp : board_t) : bool := has (flag bp) BOARD_FLAG_DIR.

(** * Members of clubs *)

(** What a string holds after [strtok] has cut its first word off: what is
    skipped, and the word. *)
Fixpoint cut_word (delims s : list Z) : list Z :=
  match s with
  | [] => []
  | c :: t => if existsb (Z.eqb c) delims then c :: cut_word delims t else (take_out delims s).1
  end.

Fixpoint member_loop (fuel : nat) (buf s member : list Z) : outcome Z :=
  match fuel with
  | O => NoFuel
  | S fuel =>
      r ← fgets buf 256 s;
      match r with
      | None => Done 0
      | Some (buf, s) =>
          l ← cstring buf 0;
          let uident := cut_word (bytes " " ++ [13; 10; 9]) (take (Z.to_nat IDLEN) l) in
          if strcaseeq member uident then Done 1 else member_loop fuel buf s member
      end
  end.

Definition isclubmember (buf : list Z) (file : option (list Z)) (member : list Z) : outcome Z :=
  match file with None => Done 0 | Some s => member_loop (length s + 1) buf s member end.

(** * Managers *)

(** The words of a list, as [strtok] finds them one after the other. *)
Fixpoint words (fuel : nat) (delims s : list Z) : list (list Z) :=
  match fuel with
  | O => []
  | S fuel => match strtok delims s with Some (w, s) => w :: words fuel delims s | None => [] end
  end.

(** The literal of the delimiters ends at its first NUL. *)
Definition BM_DELIMS : list Z := bytes ",: ;|&()".

Definition is_bm (up : userec) (bp : board_t) : bool :=
  if (if has (flag bp) BOARD_FLAG_CLUB then has (userlevel up) PERM_OCLUB else has (userlevel up) PERM_BLEVELS) then true
  else if negb (has (userlevel up) PERM_BOARDS) then false
  else
    let buf := fit (BOARD_BM_LEN + 1) (bms bp) in
    existsb (fun w => bool_decide (w = u_userid up)) (words (length buf + 1) BM_DELIMS buf).

(** * Permissions; [club_users] and [deny_users] are the files of the board *)

Section Access.
Context (buf : list Z) (club_users deny_users : option (list Z)).

Definition user_has_read_perm (up : userec) (bp : board_t) : outcome bool :=
  barred ← (if has (flag bp) BOARD_FLAG_CLUB && has (flag bp) BOARD_FLAG_READ && negb (is_bm up bp)
            then m ← isclubmember buf club_users (u_userid up); Done (m =? 0) else Done false);
  Done (if (barred : bool) then false
        else if perm bp =? 0 then true
        else if has (flag bp) (Z.lor BOARD_FLAG_POST BOARD_FLAG_NOZAP) then true
        else has (userlevel up) (perm bp)).

Definition user_has_post_perm (line : list Z) (up : userec) (bp : board_t) : outcome bool :=
  if negb (HAS_PERM2 PERM_POST up) || negb (HAS_PERM2 (perm bp) up) then Done false
  else
    outsider ← (if has (flag bp) BOARD_FLAG_CLUB && negb (is_bm up bp)
                then m ← isclubmember buf club_users (u_userid up); Done (m =? 0) else Done false);
    if (outsider : bool) then Done false
    else denied ← seek_in_file line deny_users (u_userid up); Done (negb denied).
End Access.

(** * Identifiers of users *)

(** The cache of identifiers by name, in the memory of Redis. *)
Definition lower_name (uname : list Z) : list Z := map tolower (fit (IDLEN + 1) uname).
Definition set_user_id_cache (uname : list Z) (uid : Z) (c : gmap (list Z) Z) : gmap (list Z) Z := <[lower_name uname := uid]> c.
Definition get_user_id_cache (uname : list Z) (c : gmap (list Z) Z) : Z := default (-1) (c !! lower_name uname).
Definition remove_user_id_cache (uname : list Z) (c : gmap (list Z) Z) : gmap (list Z) Z := delete (lower_name uname) c.

(** [alive]: the identifiers that the query for a name returns, or [None] for an
    error. *)
Definition get_user_id (alive : list Z -> option (list Z)) (name : list Z) (c : gmap (list Z) Z) : Z * gmap (list Z) Z :=
  let uid := get_user_id_cache name c in
  if negb (uid =? -1) then (uid, c)
  else
    match alive name with
    | None => (-1, c)
    | Some rows =>
        let uid := match rows with [] => 0 | u :: _ => u end in
        (uid, if 0 <? uid then set_user_id_cache name uid c else c)
    end.

(** * Members read their clubs *)

(** A line that names a member. *)
Definition names_member (w row : list Z) : bool :=
  strcaseeq w (cut_word (bytes " " ++ [13; 10; 9]) (take (Z.to_nat IDLEN) (row ++ [10]))).

Lemma member_rows w rows : Forall (row_ok 256) rows -> forall fuel buf, blen buf = 256 -> (length (text_of rows) < fuel)%nat ->
  member_loop fuel buf (text_of rows) w = Done (if existsb (names_member w) rows then 1 else 0).
Proof.
  induction 1 as [|row rows Hr _ IH]; intros fuel buf Hb Hf; (destruct fuel as [|fuel]; [lia|]); [done|]. cbn [member_loop].
  pose proof (rows_length row rows). rewrite text_of_cons in *. destruct (fgets_row buf 256 row (text_of rows) Hr Hb) as (tl & -> & Hb').
  cbn [mbind outcome_bind]. rewrite (row_line 256 row tl Hr). cbn [mbind outcome_bind existsb]. unfold names_member at 1.
  destruct (strcaseeq w _); [done|]. by rewrite IH by (done || lia).
Qed.

Lemma members_of rows buf w : Forall (row_ok 256) rows -> blen buf = 256 ->
  isclubmember buf (listed rows) w = Done (if existsb (names_member w) rows then 1 else 0).
Proof.
  intros Hr Hb. destruct rows as [|r rows]; [done|]. unfold isclubmember, listed. rewrite member_rows; [done|done|done|lia].
Qed.

Lemma cut_user w d r : Helper.user_name w -> existsb (Z.eqb d) (bytes " " ++ [13; 10; 9]) = true ->
  cut_word (bytes " " ++ [13; 10; 9]) (take 12 (w ++ d :: r)) = w.
Proof.
  intros (Hw & Hne & Hl) Hd. assert (Forall (fun c => existsb (Z.eqb c) (bytes " " ++ [13; 10; 9]) = false) w) as Hout.
  { eapply list.Forall_impl; [exact Hw|]. intros c Hc%alnum_char. cbn. lia. }
  assert (forall t, (take_out (bytes " " ++ [13; 10; 9]) (take t (w ++ d :: r))).1 = take t w) as Hto.
  { clear - Hout Hd. induction Hout as [|c w Hc _ IH]; intros [|t]; try done; cbn [app take firstn take_out]; [by rewrite Hd|]. rewrite Hc.
    specialize (IH t). destruct (take_out _ (take t (w ++ d :: r))). cbn in *. by rewrite IH. }
  specialize (Hto 12%nat). rewrite (take_ge w) in Hto by (unfold blen in Hl; lia). rewrite <- Hto at 2.
  destruct w as [|c w]; [done|]. apply Forall_cons_1 in Hout as [Hc _]. cbn [app take firstn cut_word]. by rewrite Hc.
Qed.

Lemma names_new user r : Helper.user_name user -> names_member user (user ++ 32 :: r) = true.
Proof.
  intros Hu. unfold names_member. change (Z.to_nat IDLEN) with 12%nat. rewrite <- app_assoc. cbn [app].
  rewrite cut_user by done. by apply bool_decide_eq_true_2.
Qed.

(** A board that only its members read. *)
Definition closed_club (bp : board_t) : Prop :=
  has (flag bp) BOARD_FLAG_CLUB = true /\ has (flag bp) BOARD_FLAG_READ = true /\ perm bp = 0.


