(* ===== verification/Filter.v ===== *)
(** The conditions of the statements on posts, and the records they choose:
    [build_post_filter] of [backend/post.c], [filter_post] of [src/admintool.c]
    and [post_match_filter] of [lib/post.c]. *)
From S2P Require Import Prelude CString PString Query Post.
From Stdlib Require Import Btauto.
#[local] Open Scope Z_scope.

(** * The text of the conditions *)

Definition where_ (cmd : list Z) (args : list arg) : part := Part (bytes "WHERE") cmd args.
Definition and_ (cmd : list Z) (args : list arg) : part := Part (bytes "AND") cmd args.
Definition when (b : bool) (p : part) : list part := if b then [p] else [].

Definition build_post_filter (f : post_filter_t) : list part :=
  [where_ (bytes "TRUE") []] ++
  when (negb (f_bid f =? 0) && is_deleted (f_type f)) (and_ (bytes "board_id = %d") [Int (f_bid f)]) ++
  when (has (f_flag f) POST_FLAG_DIGEST) (and_ (bytes "digest") []) ++
  when (has (f_flag f) POST_FLAG_MARKED) (and_ (bytes "marked") []) ++
  when (has (f_flag f) POST_FLAG_WATER) (and_ (bytes "water") []) ++
  when (negb (f_uid f =? 0)) (and_ (bytes "user_id = %d") [Int (f_uid f)]) ++
  when (negb (bool_decide (f_utf8_keyword f = []))) (and_ (bytes "title ILIKE '%%' || %s || '%%'") [Str (f_utf8_keyword f)]) ++
  when (bool_decide (f_type f = POST_LIST_TOPIC)) (and_ (bytes "id = thread_id") []) ++
  (if bool_decide (f_type f = POST_LIST_THREAD) then
     when (negb (f_min f =? 0) && negb (f_tid f =? 0))
       (and_ (bytes "(thread_id = %l AND id >= %l OR thread_id > %l)") [Int (f_tid f); Int (f_min f); Int (f_tid f)]) ++
     when (negb (f_max f =? 0) && negb (f_tid f =? 0))
       (and_ (bytes "(thread_id = %l AND id <= %l OR thread_id < %l)") [Int (f_tid f); Int (f_max f); Int (f_tid f)])
   else
     when (negb (f_min f =? 0)) (and_ (bytes "id >= %l") [Int (f_min f)]) ++
     when (negb (f_max f =? 0)) (and_ (bytes "id <= %l") [Int (f_max f)]) ++
     when (negb (f_tid f =? 0)) (and_ (bytes "thread_id = %l") [Int (f_tid f)])) ++
  when (bool_decide (f_type f = POST_LIST_TRASH)) (and_ (bytes "bm_visible") []) ++
  when (bool_decide (f_type f = POST_LIST_JUNK)) (and_ (bytes "NOT bm_visible") []).

(** Of the search of all boards. *)
Definition filter_post (f : post_filter_t) : list part :=
  [where_ (bytes "TRUE") []] ++
  when (negb (f_uid f =? 0)) (and_ (bytes "user_id = %d") [Int (f_uid f)]) ++
  when (negb (bool_decide (f_utf8_keyword f = []))) (and_ (bytes "title ILIKE '%%' || %s || '%%'") [Str (f_utf8_keyword f)]) ++
  when (negb (f_min f =? 0)) (and_ (bytes "id >= %l") [Int (f_min f)]).

Definition table_name (f : post_filter_t) : list Z := if is_deleted (f_type f) then bytes "post.deleted" else bytes "post.recent".

(** [flag_field] *)
Definition flag_field (flag : Z) : list Z :=
  if flag =? POST_FLAG_DIGEST then bytes "digest" else if flag =? POST_FLAG_MARKED then bytes "marked"
  else if flag =? POST_FLAG_LOCKED then bytes "locked" else if flag =? POST_FLAG_IMPORT then bytes "imported"
  else if flag =? POST_FLAG_WATER then bytes "water" else if flag =? POST_FLAG_STICKY then bytes "sticky"
  else bytes "attachment".

(** * What a condition says of a row *)

(** A row of the two tables; [d] is present in [post.deleted]. *)
Record stored := Stored { r : row; sticky : bool; d : option deletion }.

Section Meaning.
(** The operator of the database: the pattern and the text. *)
Context (ilike : list Z -> list Z -> bool).

Definition bm_visible_of (s : stored) : bool := match d s with Some d => d_bm_visible d | None => false end.

(** The conditions that the program writes; [None] is any other text. A null is
    like nothing. *)
Definition meaning (p : part) (s : stored) : option bool :=
  let says (t : list Z) := bool_decide (cmd p = t) in
  match args p with
  | [] =>
      if says (bytes "TRUE") then Some true
      else if says (bytes "digest") then Some (digest (r s))
      else if says (bytes "marked") then Some (marked (r s))
      else if says (bytes "water") then Some (water (r s))
      else if says (bytes "NOT marked") then Some (negb (marked (r s)))
      else if says (bytes "sticky") then Some (sticky s)
      else if says (bytes "NOT sticky") then Some (negb (sticky s))
      else if says (bytes "id = thread_id") then Some (id (r s) =? thread_id (r s))
      else if says (bytes "bm_visible") then Some (bm_visible_of s)
      else if says (bytes "NOT bm_visible") then Some (negb (bm_visible_of s))
      else None
  | [Int x] =>
      if says (bytes "board_id = %d") then Some (board_id (r s) =? i32 x)
      else if says (bytes "user_id = %d") then Some (user_id (r s) =? i32 x)
      else if says (bytes "id >= %l") then Some (i64 x <=? id (r s))
      else if says (bytes "id <= %l") then Some (id (r s) <=? i64 x)
      else if says (bytes "thread_id = %l") then Some (thread_id (r s) =? i64 x)
      else None
  | [Int x; Int y; Int z] =>
      if says (bytes "(thread_id = %l AND id >= %l OR thread_id > %l)")
      then Some ((thread_id (r s) =? i64 x) && (i64 y <=? id (r s)) || (i64 z <? thread_id (r s)))
      else if says (bytes "(thread_id = %l AND id <= %l OR thread_id < %l)")
      then Some ((thread_id (r s) =? i64 x) && (id (r s) <=? i64 y) || (thread_id (r s) <? i64 z))
      else None
  | [Str k] =>
      if says (bytes "title ILIKE '%%' || %s || '%%'")
      then Some (match title (r s) with Some t => ilike (bytes "%" ++ k ++ bytes "%") t | None => false end)
      else None
  | _ => None
  end.

(** The rows of a statement: those that every condition is true of. *)
Fixpoint selects (ps : list part) (s : stored) : option bool :=
  match ps with
  | [] => Some true
  | p :: ps => match meaning p s, selects ps s with Some a, Some b => Some (a && b) | _, _ => None end
  end.

Lemma selects_app ps qs s : selects (ps ++ qs) s =
  match selects ps s, selects qs s with Some a, Some b => Some (a && b) | _, _ => None end.
Proof.
  induction ps as [|p ps IH]; cbn [app selects]; [by destruct (selects qs s)|]. rewrite IH.
  destruct (meaning p s) as [a|], (selects ps s) as [b|], (selects qs s) as [c|]; try done. by rewrite andb_assoc.
Qed.

Lemma selects_when b p s v : meaning p s = Some v -> selects (when b p) s = Some (if b then v else true).
Proof. intros Hm. destruct b; cbn; [|done]. rewrite Hm. by rewrite andb_true_r. Qed.
End Meaning.

(** * The table and the records choose alike *)

(** What is documented of the operator, for a pattern without wildcards: a text
    is like one between two percent signs if it holds it, in any case. *)
Definition plain (k : list Z) : Prop := ascii k /\ Forall (fun c => c <> 37 /\ c <> 95 /\ c <> 92) k.
Class Ilike (ilike : list Z -> list Z -> bool) : Prop :=
  ilike_plain k t : plain k -> ascii t -> ilike (bytes "%" ++ k ++ bytes "%") t = strcasestr t k.

(** A filter of a list of a board: no list of threads or of what is deleted, no
    offsets, and flags that have a column here. *)
Record ordinary (f : post_filter_t) : Prop := {
  ord_type : f_type f <> POST_LIST_THREAD /\ is_deleted (f_type f) = false;
  ord_flag : f_flag f ∈ [0; 1; 2; 3; 32; 33; 34; 35];
  ord_offsets : f_offset_min f = 0 /\ f_offset_max f = 0;
  ord_keyword : plain (f_utf8_keyword f);
  ord_range : is_i32 (f_uid f) /\ is_i64 (f_min f) /\ is_i64 (f_max f) /\ is_i64 (f_tid f) }.

(** A row whose title is text that fits its record. *)
Definition short_title (x : row) : Prop := exists t, title x = Some t /\ ascii t /\ blen t < TITLE_SIZE.

Lemma flags_agree f (dg mk lk im wt st : bool) : f ∈ [0; 1; 2; 3; 32; 33; 34; 35] ->
  (if f =? 0 then true else
    Z.land (Z.lor (Z.lor (Z.lor (Z.lor (Z.lor (flag_if dg POST_FLAG_DIGEST) (flag_if mk POST_FLAG_MARKED)) (flag_if lk POST_FLAG_LOCKED))
      (flag_if im POST_FLAG_IMPORT)) (flag_if wt POST_FLAG_WATER)) (flag_if st POST_FLAG_STICKY)) f =? f) =
  (if has f POST_FLAG_DIGEST then dg else true) && ((if has f POST_FLAG_MARKED then mk else true) && (if has f POST_FLAG_WATER then wt else true)).
Proof. rewrite !elem_of_cons, elem_of_nil. intros Hf. destruct_or! Hf; try done; subst f; by destruct dg, mk, lk, im, wt, st. Qed.

Section Agree.
Context (ilike : list Z -> list Z -> bool) `{!Ilike ilike}.

Lemma true_selects ps s v : selects ilike ps s = Some v -> selects ilike (where_ (bytes "TRUE") [] :: ps) s = Some v.
Proof. intros H. cbn [selects]. rewrite H. done. Qed.

Lemma if_swap (b : bool) (x y : bool) : (if negb b then x else y) = if b then y else x.
Proof. by destruct b. Qed.


(** The board of a filter is not in the conditions on the posts of boards:
    a statement for one board chooses the posts of every board. *)
Theorem board_not_in_conditions f s bid : is_deleted (f_type f) = false ->
  selects ilike (build_post_filter f) s =
  selects ilike (build_post_filter (PostFilter (f_type f) bid (f_flag f) (f_uid f) (f_min f) (f_max f) (f_tid f)
    (f_offset_min f) (f_offset_max f) (f_archive f) (f_utf8_keyword f))) s.
Proof. intros Hd. unfold build_post_filter. cbn [f_type f_bid f_flag f_uid f_min f_max f_tid f_utf8_keyword]. by rewrite Hd, !andb_false_r. Qed.
End Agree.

(** An operator as it is documented. *)
Definition ilike_plainly (p t : list Z) : bool := strcasestr t (take (length p - 2) (drop 1 p)).

#[export] Instance ilike_plainly_ok : Ilike ilike_plainly.
Proof.
  intros k t _ _. unfold ilike_plainly. change (bytes "%") with [37]. cbn [app drop].
  rewrite drop_0. rewrite take_app_length'; [done|]. cbn [length]. rewrite length_app. cbn. lia.
Qed.

Definition sample_row (pid bid : Z) (name t : list Z) : row :=
  Row pid pid pid 7 0 7 (Some name) bid (Some (bytes "Test")) true false false false true false (Some t).


Lemma board_not_in_conditions_witness :
  let f := PostFilter POST_LIST_NORMAL 3 0 0 1000 2000 0 0 0 false [] in
  selects ilike_plainly (build_post_filter f) (Stored (sample_row 1500 4 (bytes "ann") (bytes "x")) false None) = Some true.
Proof. intros f. rewrite (board_not_in_conditions ilike_plainly f _ 4 eq_refl). by vm_compute. Defined.

(** * Conditions and rows *)

Section Rows.
Context (ilike : list Z -> list Z -> bool).

Lemma selects_same ps s s' : Forall (fun p => meaning ilike p s = meaning ilike p s') ps -> selects ilike ps s = selects ilike ps s'.
Proof. induction 1 as [|p ps Hp _ IH]; [done|]. cbn [selects]. by rewrite Hp, IH. Qed.

Lemma selects_some ps s : Forall (fun p => is_Some (meaning ilike p s)) ps -> is_Some (selects ilike ps s).
Proof. induction 1 as [|p ps [v Hp] _ [u IH]]; [by eexists|]. cbn [selects]. rewrite Hp, IH. by eexists. Qed.

Lemma when_false p : when false p = [].
Proof. done. Qed.

Lemma Forall_when (P : part -> Prop) b p : P p -> Forall P (when b p).
Proof. destruct b; [by constructor|done]. Qed.

(** Split a statement about every condition of a filter into one for each. *)
Ltac each_condition :=
  repeat first [apply Forall_app; split | apply Forall_when | apply Forall_cons_2 | apply Forall_nil_2 | case_match].

(** The conditions on posts of boards are on the columns of [post.base]. *)
Lemma filter_on_row f s s' : is_deleted (f_type f) = false -> r s = r s' ->
  selects ilike (build_post_filter f) s = selects ilike (build_post_filter f) s'.
Proof.
  intros Hd Hr. apply selects_same. unfold build_post_filter.
  assert (bool_decide (f_type f = POST_LIST_TRASH) = false /\ bool_decide (f_type f = POST_LIST_JUNK) = false) as [-> ->] by (by destruct (f_type f)).
  rewrite !when_false. each_condition; cbn; by rewrite ?Hr.
Qed.

Lemma filter_some f s : is_Some (selects ilike (build_post_filter f) s).
Proof. apply selects_some. unfold build_post_filter. each_condition; by eexists. Qed.
End Rows.
