(* ===== verification/BackendPost.v ===== *)
(** The server of posts: [backend/post.c] on the tables of [pg/post.sql]. *)
From S2P Require Import Prelude Helper CString PString Query File Post Mention Filter UserCache Board Content.
From stdpp Require Import gmap.
#[local] Open Scope Z_scope.

(** * The state *)

(** A row of a table of replies or of mentions. *)
Record notice := Notice {
  n_post_id : Z; n_reply_id : Z; n_thread_id : Z; n_user_id_replied : Z; n_user_id : Z; n_user_name : list Z; n_board_id : Z;
  n_board_name : list Z; n_title : list Z; n_is_read : bool }.

(** The tables, the hashes of Redis, the shared table of users and the files. *)
Record world := World {
  recent : list stored; deleted : list stored; contents : gmap Z (list Z); notices : gmap (list Z) (list notice);
  last_post : gmap Z Z; invalidity : gmap Z Z; reply_count : gmap Z Z; mention_count : gmap Z Z; user_ids : gmap (list Z) Z;
  ucache_ : ucache; fs : files }.

Definition set_recent v w := World v (deleted w) (contents w) (notices w) (last_post w) (invalidity w) (reply_count w) (mention_count w) (user_ids w) (ucache_ w) (fs w).
Definition set_deleted_ v w := World (recent w) v (contents w) (notices w) (last_post w) (invalidity w) (reply_count w) (mention_count w) (user_ids w) (ucache_ w) (fs w).
Definition set_contents v w := World (recent w) (deleted w) v (notices w) (last_post w) (invalidity w) (reply_count w) (mention_count w) (user_ids w) (ucache_ w) (fs w).
Definition set_notices v w := World (recent w) (deleted w) (contents w) v (last_post w) (invalidity w) (reply_count w) (mention_count w) (user_ids w) (ucache_ w) (fs w).
Definition set_last_post v w := World (recent w) (deleted w) (contents w) (notices w) v (invalidity w) (reply_count w) (mention_count w) (user_ids w) (ucache_ w) (fs w).
Definition set_invalidity v w := World (recent w) (deleted w) (contents w) (notices w) (last_post w) v (reply_count w) (mention_count w) (user_ids w) (ucache_ w) (fs w).
Definition set_reply_count v w := World (recent w) (deleted w) (contents w) (notices w) (last_post w) (invalidity w) v (mention_count w) (user_ids w) (ucache_ w) (fs w).
Definition set_mention_count v w := World (recent w) (deleted w) (contents w) (notices w) (last_post w) (invalidity w) (reply_count w) v (user_ids w) (ucache_ w) (fs w).
Definition set_user_ids v w := World (recent w) (deleted w) (contents w) (notices w) (last_post w) (invalidity w) (reply_count w) (mention_count w) v (ucache_ w) (fs w).
Definition set_ucache v w := World (recent w) (deleted w) (contents w) (notices w) (last_post w) (invalidity w) (reply_count w) (mention_count w) (user_ids w) v (fs w).
Definition set_fs v w := World (recent w) (deleted w) (contents w) (notices w) (last_post w) (invalidity w) (reply_count w) (mention_count w) (user_ids w) (ucache_ w) v.

(** [HINCRBY] *)
Definition hincrby (k d : Z) (m : gmap Z Z) : gmap Z Z := <[k := default 0 (m !! k) + d]> m.

Definition post_record_invalidity_change (board_id delta : Z) (w : world) : world :=
  if 0 <? board_id then set_invalidity (hincrby board_id delta (invalidity w)) w else w.

(** * Statements *)

Section Statements.
Context (ilike : list Z -> list Z -> bool).

(** The rows that the conditions choose, and the others; [None] when the
    database does not take the statement. *)
Fixpoint choose (ps : list part) (t : list stored) : option (list stored * list stored) :=
  match t with
  | [] => Some ([], [])
  | s :: t =>
      match selects ilike ps s, choose ps t with
      | Some true, Some (a, b) => Some (s :: a, b)
      | Some false, Some (a, b) => Some (a, s :: b)
      | _, _ => None
      end
  end.

Fixpoint update_where (ps : list part) (f : stored -> stored) (t : list stored) : option (Z * list stored) :=
  match t with
  | [] => Some (0, [])
  | s :: t =>
      match selects ilike ps s, update_where ps f t with
      | Some true, Some (n, t) => Some (n + 1, f s :: t)
      | Some false, Some (n, t) => Some (n, s :: t)
      | _, _ => None
      end
  end.
End Statements.

(** The columns that change. *)
Definition with_title (t : list Z) (s : stored) : stored :=
  let x := r s in
  Stored (Row (id x) (reply_id x) (thread_id x) (user_id x) (user_id_replied x) (real_user_id x) (user_name x) (board_id x) (board_name x)
    (digest x) (marked x) (locked x) (imported x) (water x) (attachment x) (Some t)) (sticky s) (d s).

Definition with_flag (field : list Z) (v : bool -> bool) (s : stored) : stored :=
  let x := r s in
  let at_ (f : list Z) (b : bool) := if bool_decide (field = f) then v b else b in
  Stored (Row (id x) (reply_id x) (thread_id x) (user_id x) (user_id_replied x) (real_user_id x) (user_name x) (board_id x) (board_name x)
    (at_ (bytes "digest") (digest x)) (at_ (bytes "marked") (marked x)) (at_ (bytes "locked") (locked x)) (at_ (bytes "imported") (imported x))
    (at_ (bytes "water") (water x)) (at_ (bytes "attachment") (attachment x)) (title x))
    (at_ (bytes "sticky") (sticky s)) (d s).

(** * Posting *)

Record backend_request_post_new_t := PostNew {
  q_reply_id : Z; q_thread_id : Z; q_title : list Z; q_user_name : list Z; q_board_name : list Z; q_content : list Z; q_user_id : Z;
  q_user_id_replied : Z; q_board_id : Z; q_marked : bool; q_locked : bool; q_hide_user_id : bool; q_anonymous : bool }.

Record environment := Environment {
  e_ilike : list Z -> list Z -> bool;
  e_now : Z;
  (** The identifier that the next insertion is given, if it is made. *)
  e_new_id : option Z;
  e_boards : Z -> option board_t;
  e_club_users : list Z -> option (list Z);
  e_line : list Z;
  e_alive : list Z -> option (list Z);
  e_files : answers;
  e_reply_partitions : Z; e_mention_partitions : Z }.

Section Server.
Context (e : environment).

Definition shown_id (req : backend_request_post_new_t) : Z := if q_hide_user_id req || q_anonymous req then 0 else q_user_id req.

(** The row, after the trigger that makes a new thread of a post that is no
    reply. *)
Definition new_row (req : backend_request_post_new_t) (i : Z) : row :=
  let '(reply, thread) := if q_reply_id req =? 0 then (i, i) else (q_reply_id req, q_thread_id req) in
  Row i reply thread (shown_id req) (q_user_id_replied req) (q_user_id req) (Some (q_user_name req)) (q_board_id req)
    (Some (q_board_name req)) false (q_marked req) (q_locked req) false false false (Some (q_title req)).

Definition insert_post (req : backend_request_post_new_t) (w : world) : Z * world :=
  match e_new_id e with
  | None => (0, w)
  | Some i =>
      let w := set_recent (recent w ++ [Stored (new_row req i) false None]) w in
      (i, if i =? 0 then w else set_contents (<[i := q_content req]> (contents w)) w)
  end.

(** The account is looked for and written back. *)
Definition with_posts (n : Z) (u : userec) : userec := Userec (u_userid u) (userlevel u) n (rest u).

Definition adjust_user_post_count (uname : list Z) (delta : Z) (w : world) : outcome world :=
  unum ← searchuser uname (ucache_ w);
  urec ← getuserbyuid unum (ucache_ w);
  u ← substitut_record (with_posts (u32 (numposts urec + delta)) urec) unum (ucache_ w);
  Done (set_ucache u w).

Definition _insert_reply_record (table : list Z) (req : backend_request_post_new_t) (post_id user_id : Z) (w : world) : Z * world :=
  let n := Notice post_id (if q_reply_id req =? 0 then post_id else q_reply_id req) (if q_thread_id req =? 0 then post_id else q_thread_id req)
             user_id (shown_id req) (q_user_name req) (q_board_id req) (q_board_name req) (q_title req) false in
  (1, set_notices (<[table := default [] (notices w !! table) ++ [n]]> (notices w)) w).

Definition insert_reply_record (req : backend_request_post_new_t) (post_id user_id : Z) (w : world) : world :=
  let '(n, w) := _insert_reply_record (post_reply_table_name (e_reply_partitions e) user_id 64) req post_id user_id w in
  if 0 <? n then set_reply_count (hincrby user_id 1 (reply_count w)) w else w.

Definition readable (up : userec) (board : board_t) : outcome bool :=
  user_has_read_perm (e_line e) (e_club_users e (name board)) up board.

(** The account that is tested is that of who replies. *)
Definition notify_new_reply (req : backend_request_post_new_t) (board : board_t) (post_id : Z) (w : world) : outcome world :=
  '(_, urec) ← getuserec (q_user_name req) (ucache_ w);
  match urec with
  | None => Done w
  | Some urec =>
      ok ← readable urec board;
      Done (if (ok : bool) then insert_reply_record req post_id (q_user_id_replied req) w else w)
  end.

Definition insert_mention_record (req : backend_request_post_new_t) (post_id user_id : Z) (w : world) : Z * world :=
  _insert_reply_record (post_mention_table_name (e_mention_partitions e) user_id 64) req post_id user_id w.

Definition handle_mention (req : backend_request_post_new_t) (board : board_t) (user_name : list Z) (post_id : Z) (w : outcome world) : outcome world :=
  w ← w;
  '(_, urec) ← getuserec user_name (ucache_ w);
  match urec with
  | None => Done w
  | Some urec =>
      ok ← readable urec board;
      if (ok : bool) then
        let '(user_id, ids) := get_user_id (e_alive e) user_name (user_ids w) in
        let w := set_user_ids ids w in
        if (0 <? user_id) && negb (user_id =? q_user_id req) then
          let '(n, w) := insert_mention_record req post_id user_id w in
          Done (if 0 <? n then set_mention_count (hincrby user_id 1 (mention_count w)) w else w)
        else Done w
      else Done w
  end.

(** The response, if there is one, and what is done after it is sent. *)
Definition backend_post_new (req : backend_request_post_new_t) (w : world) : outcome (option Z * world) :=
  let '(post_id, w) := insert_post req w in
  if post_id =? 0 then Done (None, w)
  else
    let w := set_last_post (<[q_board_id req := post_stamp post_id]> (last_post w)) w in
    let w := post_record_invalidity_change (q_board_id req) 1 w in
    match e_boards e (q_board_id req) with
    | None => Done (Some post_id, w)
    | Some board =>
        w ← (if board_is_junk board || q_hide_user_id req || q_anonymous req then Done w
             else adjust_user_post_count (q_user_name req) 1 w);
        w ← (if (0 <? q_user_id_replied req) && negb (q_user_id req =? q_user_id_replied req)
             then notify_new_reply req board post_id w else Done w);
        w ← (if q_anonymous req then Done w
             else '(_, w) ← post_scan_for_mentions (q_content req ++ [0]) (handle_mention req board) post_id (q_title req) 0 (Done w); w);
        Done (Some post_id, w)
    end.

(** * Deleting and taking back *)

Record backend_request_post_delete_t := PostDelete {
  dl_filter : post_filter_t; dl_junk : bool; dl_bm_visible : bool; dl_force : bool; dl_user_id : Z; dl_user_name : list Z }.

(** A row of [post.deleted]; the posts of junk boards count for nothing. *)
Definition deleted_row (req : backend_request_post_delete_t) (decrease : bool) (s : stored) : stored :=
  Stored (r s) false (Some (Deletion (e_now e) (dl_user_id req) (Some (dl_user_name req)) (decrease && (water (r s) || dl_junk req)) (dl_bm_visible req))).

Definition text_or_empty (s : option (list Z)) : list Z := default [] s.

Definition counted_post (s : stored) : bool :=
  negb (user_id (r s) =? 0) && match d s with Some x => d_junk x | None => false end.

Fixpoint after_delete (rows : list stored) (w : world) : outcome world :=
  match rows with
  | [] => Done w
  | s :: rows =>
      w ← (if counted_post s then adjust_user_post_count (text_or_empty (user_name (r s))) (-1) w else Done w);
      after_delete rows (set_fs (remove_cached_content (e_files e) (fs w) (id (r s))).2 w)
  end.

Definition delete_conditions (req : backend_request_post_delete_t) : list part :=
  build_post_filter (dl_filter req) ++ when (negb (dl_force req)) (and_ (bytes "NOT marked") []) ++ [and_ (bytes "NOT sticky") []].

Definition _backend_post_delete (req : backend_request_post_delete_t) (w : world) : outcome (Z * world) :=
  let bid := f_bid (dl_filter req) in
  let board := e_boards e bid in
  if negb (bid =? 0) && match board with None => true | Some _ => false end then Done (0, w)
  else
    let decrease := negb (negb (bid =? 0) && match board with Some b => board_is_junk b | None => false end) in
    match choose (e_ilike e) (delete_conditions req) (recent w) with
    | None => Done (0, w)
    | Some (chosen, others) =>
        let moved := deleted_row req decrease <$> chosen in
        let w := set_deleted_ (deleted w ++ moved) (set_recent others w) in
        w ← after_delete moved w;
        let rows := Z.of_nat (length moved) in
        Done (rows, if 0 <? rows then post_record_invalidity_change bid 1 w else w)
    end.

(** The loop goes through the rows from the last one. *)
Fixpoint before_undelete (rows : list stored) (w : world) : outcome world :=
  match rows with
  | [] => Done w
  | s :: rows =>
      w ← before_undelete rows w;
      w ← (if counted_post s then adjust_user_post_count (text_or_empty (user_name (r s))) 1 w else Done w);
      Done (set_fs (remove_deleted_mark (fs w) (id (r s))) w)
  end.

Definition _backend_post_undelete (filter : post_filter_t) (w : world) : outcome (Z * world) :=
  let ps := build_post_filter filter in
  w ← (match choose (e_ilike e) ps (deleted w) with Some (chosen, _) => before_undelete chosen w | None => Done w end);
  match choose (e_ilike e) ps (deleted w) with
  | None => Done (0, w)
  | Some (chosen, others) =>
      let w := set_recent (recent w ++ ((fun s => Stored (r s) false None) <$> chosen)) (set_deleted_ others w) in
      let rows := Z.of_nat (length chosen) in
      Done (rows, if 0 <? rows then post_record_invalidity_change (f_bid filter) 1 w else w)
  end.

(** * Flags and titles *)

Record backend_request_post_set_flag_t := PostSetFlag { sf_filter : post_filter_t; sf_flag : Z; sf_set : bool; sf_toggle : bool }.

Definition _backend_post_set_flag (req : backend_request_post_set_flag_t) (w : world) : Z * world :=
  let f := sf_filter req in
  let change := with_flag (flag_field (sf_flag req)) (fun b => if sf_toggle req then negb b else sf_set req) in
  let dead := bool_decide (table_name f = bytes "post.deleted") in
  match update_where (e_ilike e) (build_post_filter f) change (if dead then deleted w else recent w) with
  | None => (0, w)
  | Some (rows, t) =>
      let w := if dead then set_deleted_ t w else set_recent t w in
      (rows, if 0 <? rows then post_record_invalidity_change (f_bid f) 1 w else w)
  end.

Definition backend_post_set_flag (req : backend_request_post_set_flag_t) (w : world) : Z * world :=
  let '(affected, w) := _backend_post_set_flag req w in
  (affected, if affected =? 0 then w else post_record_invalidity_change (f_bid (sf_filter req)) 1 w).

(** [content] is a string of its own, read from 0 to its end. *)
Definition replace_content_title (content title : list Z) : outcome (option (list Z)) :=
  let end_ := blen content in
  let m := content ++ [0] in
  l1_end ← get_line_end m 0 end_;
  l2_end ← get_line_end m l1_end end_;
  let begin := l1_end + 10 in
  let orig_title_len := l2_end - begin - 1 in
  if orig_title_len <? 0 then Done None
  else
    a ← rdn m 0 begin;
    b ← rdn m l2_end (end_ - l2_end);
    Done (Some (a ++ title ++ [10] ++ b)).

Record backend_request_post_alter_title_t := PostAlterTitle { at_board_id : Z; at_post_id : Z; at_title : list Z }.

Definition _backend_post_alter_title (req : backend_request_post_alter_title_t) (w : world) : outcome (bool * world) :=
  let i := at_post_id req in
  let filter := PostFilter POST_LIST_UNSET (at_board_id req) 0 0 i i 0 0 0 false [] in
  match update_where (e_ilike e) (build_post_filter filter) (with_title (at_title req)) (recent w) with
  | None => Done (false, w)
  | Some (n, t) =>
      if n <=? 0 then Done (false, set_recent t w)
      else
        let w := post_record_invalidity_change (at_board_id req) 1 (set_recent t w) in
        let '(content, fs') := post_content_get (e_files e) (fun j => contents w !! j) (fs w) i true in
        let w := set_fs fs' w in
        match content with
        | None => Done (false, w)
        | Some content =>
            new ← replace_content_title content (at_title req);
            match new with
            | None => Done (true, w)
            | Some new =>
                let updated := bool_decide (is_Some (contents w !! i)) in
                let '(ok, fs') := post_content_set updated (fs w) i in
                Done (ok, set_fs fs' (if updated then set_contents (<[i := new]> (contents w)) w else w))
            end
        end
  end.
End Server.

(** * Rows that are chosen *)

Lemma choose_spec ilike ps (b : stored -> bool) t : Forall (fun s => selects ilike ps s = Some (b s)) t ->
  choose ilike ps t = Some (List.filter b t, List.filter (fun s => negb (b s)) t).
Proof. induction 1 as [|s t Hs _ IH]; [done|]. cbn [choose List.filter]. rewrite Hs, IH. by destruct (b s). Qed.

Lemma filter_split {A} (b : A -> bool) l : List.filter (fun x => negb (b x)) l ++ List.filter b l ≡ₚ l.
Proof.
  induction l as [|x l IH]; [done|]. cbn [List.filter]. destruct (b x); cbn [negb app]; [|by rewrite IH]. rewrite <- Permutation_middle. by rewrite IH.
Qed.

Lemma filter_all {A} (b : A -> bool) l : Forall (fun x => b x = true) l -> List.filter b l = l /\ List.filter (fun x => negb (b x)) l = [].
Proof. induction 1 as [|x l Hx _ [IH1 IH2]]; [done|]. cbn. by rewrite Hx, IH1, IH2. Qed.

Lemma filter_none {A} (b : A -> bool) l : Forall (fun x => b x = false) l -> List.filter b l = [] /\ List.filter (fun x => negb (b x)) l = l.
Proof. induction 1 as [|x l Hx _ [IH1 IH2]]; [done|]. cbn. by rewrite Hx, IH1, IH2. Qed.

(** * Accounts that are counted up and down *)

Lemma search_loop_passwd p s name fuel : forall i, search_loop fuel (set_passwd p s) name i = search_loop fuel s name i.
Proof.
  induction fuel as [|fuel IH]; intros i; [done|]. cbn [search_loop set_passwd userid next].
  destruct (i =? 0); [done|]. destruct (aget [] (userid s) (i - 1)) as [u| |]; cbn [mbind outcome_bind]; [|done..]. destruct (same_name name u); [done|].
  destruct (aget 0 (next s) (i - 1)); cbn [mbind outcome_bind]; [|done..]. apply IH.
Qed.

Lemma search_passwd p s name : searchuser name (set_passwd p s) = searchuser name s.
Proof.
  unfold searchuser. destruct (uhashkey (name ++ [0]) 0) as [b| |]; cbn [mbind outcome_bind set_passwd hash]; [|done..].
  destruct (hget (hash s) b); cbn [mbind outcome_bind]; [|done..]. apply search_loop_passwd.
Qed.

(** There is an account of the name. *)
Definition has_account (s : ucache) (name : list Z) : Prop :=
  exists n a, searchuser name s = Done n /\ in_range n /\ passwd s !! (n - 1) = Some a /\ is_u32 (numposts a).

Lemma adjust_ok w name delta : has_account (ucache_ w) name -> exists u,
  adjust_user_post_count name delta w = Done (set_ucache u w) /\
  (forall name', has_account (ucache_ w) name' -> has_account u name') /\
  (forall w', ucache_ w' = u -> adjust_user_post_count name (- delta) w' = Done (set_ucache (ucache_ w) w')).
Proof.
  intros (n & a & Hs & Hn & Ha & Hu). exists (set_passwd (<[n - 1 := with_posts (u32 (numposts a + delta)) a]> (passwd (ucache_ w))) (ucache_ w)).
  unfold adjust_user_post_count, getuserbyuid, substitut_record. split; [|split].
  - rewrite Hs. cbn [mbind outcome_bind]. rewrite aget_in by done. cbn [mbind outcome_bind]. rewrite aset_in by done. unfold cell. by rewrite Ha.
  - intros name' (n' & a' & Hs' & Hn' & Ha' & Hu'). destruct (decide (n = n')) as [<-|Hne].
    + eexists n, _. rewrite search_passwd. split; [done|]. split; [done|]. cbn [set_passwd passwd]. rewrite lookup_insert_eq. split; [done|]. apply u32_range.
    + exists n', a'. rewrite search_passwd. split; [done|]. split; [done|]. cbn [set_passwd passwd]. rewrite lookup_insert_ne by lia. done.
  - intros w' ->. rewrite search_passwd, Hs. cbn [mbind outcome_bind]. rewrite aget_in by done. cbn [mbind outcome_bind]. rewrite aset_in by done.
    cbn [mbind outcome_bind set_passwd passwd userid number next prev hash]. unfold cell. rewrite lookup_insert_eq. cbn [default from_option Datatypes.id with_posts u_userid userlevel rest numposts].
    do 2 f_equal. rewrite insert_insert_eq. unfold set_passwd. cbn [userid number next prev hash].
    assert (u32 (u32 (numposts a + delta) + - delta) = numposts a) as ->.
    { unfold u32, is_u32 in *. rewrite Zplus_mod_idemp_l. rewrite Z.mod_small by lia. lia. }
    rewrite insert_id; [by destruct (ucache_ w)|]. by destruct a.
Qed.

(** Everything but the accounts and the files. *)
Definition same_tables (w w' : world) : Prop :=
  recent w = recent w' /\ deleted w = deleted w' /\ contents w = contents w' /\ notices w = notices w' /\ last_post w = last_post w' /\
  invalidity w = invalidity w' /\ reply_count w = reply_count w' /\ mention_count w = mention_count w' /\ user_ids w = user_ids w'.

Lemma same_ucache u w : same_tables w (set_ucache u w).
Proof. by split_and!. Qed.
Lemma same_fs v w : same_tables w (set_fs v w).
Proof. by split_and!. Qed.
#[export] Instance same_tables_equivalence : Equivalence same_tables.
Proof. split; [done| |]; unfold same_tables; [intros w w' H|intros w w' w'' H1 H2]; naive_solver congruence. Qed.

Definition accounts_of (s : ucache) (rows : list stored) : Prop :=
  Forall (fun x => counted_post x = true -> has_account s (text_or_empty (user_name (r x)))) rows.

Lemma loops_undo e rows : forall w, accounts_of (ucache_ w) rows -> exists w1, after_delete e rows w = Done w1 /\ same_tables w w1 /\
  forall w2, ucache_ w2 = ucache_ w1 -> exists w3, before_undelete rows w2 = Done w3 /\ same_tables w2 w3 /\ ucache_ w3 = ucache_ w.
Proof.
  induction rows as [|s rows IH]; intros w Ha; cbn [after_delete before_undelete].
  - exists w. split; [done|]. split; [done|]. intros w2 H2. by exists w2.
  - apply Forall_cons_1 in Ha as [Hs Ha]. destruct (counted_post s).
    + destruct (adjust_ok w (text_or_empty (user_name (r s))) (-1) (Hs eq_refl)) as (u & -> & Hkeep & Hback). cbn [mbind outcome_bind].
      set (w0 := set_fs _ (set_ucache u w)). destruct (IH w0) as (w1 & Hrun & Hsame & Hundo).
      { eapply list.Forall_impl; [exact Ha|]. intros x Hx Hc. by apply Hkeep, Hx. }
      exists w1. split; [exact Hrun|]. split; [by etrans; [|exact Hsame]|]. intros w2 H2. destruct (Hundo w2 H2) as (w3 & -> & Hsame3 & H3). cbn [mbind outcome_bind].
      change (- -1) with 1 in Hback. rewrite (Hback w3) by done. cbn [mbind outcome_bind]. eexists. split; [done|]. split; [|done]. by etrans; [exact Hsame3|].
    + cbn [mbind outcome_bind]. set (w0 := set_fs _ w). destruct (IH w0 Ha) as (w1 & Hrun & Hsame & Hundo).
      exists w1. split; [exact Hrun|]. split; [by etrans; [|exact Hsame]|]. intros w2 H2. destruct (Hundo w2 H2) as (w3 & -> & Hsame3 & H3). cbn [mbind outcome_bind].
      eexists. split; [done|]. split; [|done]. by etrans; [exact Hsame3|].
Qed.

(** * What is deleted comes back *)

Lemma selected_flag ilike f s b : selects ilike (build_post_filter f) s = Some b -> forall force,
  selects ilike (build_post_filter f ++ when (negb force) (and_ (bytes "NOT marked") []) ++ [and_ (bytes "NOT sticky") []]) s =
    Some (b && ((force || negb (marked (r s))) && negb (sticky s))).
Proof.
  intros Hf force. rewrite !selects_app, Hf. rewrite (selects_when ilike (negb force) _ s (negb (marked (r s)))) by done.
  cbn. by destruct force, b, (marked (r s)), (sticky s).
Qed.

(** The posts of a filter that may be deleted: marked ones only by force, sticky
    ones never. *)
Definition deletable (e : environment) (req : backend_request_post_delete_t) (s : stored) : bool :=
  bool_decide (selects (e_ilike e) (build_post_filter (dl_filter req)) s = Some true) &&
  ((dl_force req || negb (marked (r s))) && negb (sticky s)).


(** * A site with a board, a user and two posts *)

Definition sample_env : environment :=
  Environment ilike_plainly 1000 (Some 3000) (fun b => if b =? 3 then Some (Board 3 0 0 0 (bytes "Test") [] [] []) else None) (fun _ => None)
    (replicate 256 7) (fun n => Some (if bool_decide (n = bytes "ann") then [7] else [])) granted 1 1.

Definition sample_world : outcome world :=
  '(_, u) ← create_user false true true (Userec (bytes "ann") 0x1f 2 []) empty_cache;
  Done (World [Stored (sample_row 1500 3 (bytes "ann") (bytes "one")) false None; Stored (sample_row 2500 3 (bytes "ann") (bytes "two")) false None]
    [] ∅ ∅ ∅ ∅ ∅ ∅ ∅ u ∅).


(** The author of a post that is deleted may have no account any more: the count
    is then read before the start of the table. *)
Example unknown_author_faults :
  (w ← sample_world; adjust_user_post_count (bytes "nobody") (-1) w) = Fault.
Proof. by vm_compute. Qed.

(** * Titles *)

(** Changing the title of a post changes the second line of its text, behind
    the ten bytes of its label, and nothing else. *)
Theorem title_replaced l1 label old rest_ title :
  Forall (fun c => c <> 10) l1 -> Forall (fun c => c <> 10) label -> Forall (fun c => c <> 10) old -> blen label = 10 ->
  replace_content_title (l1 ++ [10] ++ label ++ old ++ [10] ++ rest_) title = Done (Some (l1 ++ [10] ++ label ++ title ++ [10] ++ rest_)).
Proof.
  intros H1 H2 H3 Hl. unfold replace_content_title, get_line_end. set (content := l1 ++ [10] ++ label ++ old ++ [10] ++ rest_).
  assert (forall (l t : list Z), Forall (fun c => c <> 10) l -> newline_len (l ++ [10] ++ t) = (length l + 1)%nat) as Hnl.
  { induction 1 as [|c l Hc _ IH]; [done|]. change ((c :: l) ++ [10] ++ t) with (c :: (l ++ [10] ++ t)). cbn [newline_len length]. rewrite (proj2 (Z.eqb_neq c 10)), IH by done. lia. }
  pose proof (mention_line_end content (length (content ++ [0%Z]) + 1) [] [0] ltac:(rewrite length_app; lia)) as E1.
  cbn [app] in E1. change (blen []) with 0 in E1. rewrite Z.add_0_l in E1. rewrite E1. cbn [mbind outcome_bind].
  assert (newline_len content = length l1 + 1)%nat as -> by (unfold content; by apply Hnl).
  set (r2 := label ++ old ++ [10] ++ rest_).
  assert (content ++ [0] = (l1 ++ [10]) ++ r2 ++ [0]) as Em by (unfold content, r2; app_eq).
  assert (blen content = blen (l1 ++ [10]) + blen r2) as Eb by (unfold content, r2; rewrite !blen_app; lia).
  replace (0 + Z.of_nat (length l1 + 1)) with (blen (l1 ++ [10])) by (unfold blen; rewrite length_app; cbn; lia).
  rewrite Em, Eb, (mention_line_end r2) by (rewrite !length_app; lia). cbn [mbind outcome_bind].
  assert (newline_len r2 = length (label ++ old) + 1)%nat as -> by (unfold r2; rewrite app_assoc; apply Hnl; by apply Forall_app).
  assert (blen (l1 ++ [10]) + Z.of_nat (length (label ++ old) + 1) = blen ((l1 ++ [10]) ++ label ++ old ++ [10])) as ->
    by (rewrite !blen_app; unfold blen; rewrite ?length_app; cbn; lia).
  replace (blen (l1 ++ [10]) + 10) with (blen (l1 ++ [10]) + blen label) by lia. rewrite (proj2 (Z.ltb_ge _ 0)) by (rewrite !blen_app; change (blen [10]) with 1; blen).
  rewrite (rdn_at ((l1 ++ [10]) ++ r2 ++ [0]) [] ((l1 ++ [10]) ++ label) (old ++ [10] ++ rest_ ++ [0]) 0 (blen (l1 ++ [10]) + blen label)) by ((unfold r2; app_eq) || done || (rewrite !blen_app; lia)).
  cbn [mbind outcome_bind].
  rewrite (rdn_at ((l1 ++ [10]) ++ r2 ++ [0]) ((l1 ++ [10]) ++ label ++ old ++ [10]) rest_ [0]) by ((unfold r2; app_eq) || done || (unfold r2; rewrite !blen_app; lia)).
  cbn [mbind outcome_bind]. f_equal. f_equal. app_eq.
Qed.

Lemma title_replaced_witness :
  let nl := [10] in
  replace_content_title (bytes "From: ann" ++ nl ++ bytes "Subject : " ++ bytes "old" ++ nl ++ bytes "text") (bytes "a new one") =
    Done (Some (bytes "From: ann" ++ nl ++ bytes "Subject : " ++ bytes "a new one" ++ nl ++ bytes "text")).
Proof. intros nl. apply (title_replaced (bytes "From: ann") (bytes "Subject : ") (bytes "old") (bytes "text")); [by repeat constructor..|done]. Defined.
