(* ===== verification/RecordCache.v ===== *)
(** The files of post records: how [lib/post.c] rebuilds them from the table of
    posts, and the counter that tells when. *)
From S2P Require Import Prelude Record Post.
From stdpp Require Import sorting.
#[local] Open Scope Z_scope.

(** * Rebuilding a file *)

Section Update.
Context (sys : system).

(** [RECORD_RLEN] bytes of zeros, where a file has a gap. *)
Definition hole : post_record_t := PostRecord 0 0 0 0 0 0 0 [] [] [].

(** The records of the rows of a board, in the order of the file. *)
Definition rendered (sticky : bool) (rows : list row) : list post_record_t :=
  qsort (if sticky then post_sticky_compare else post_record_cmp) ((fun r => convert_post_record r sticky) <$> rows).

(** [rows]: what the query returns; [allocated]: whether there is memory. The
    last result is the number of posts of the board that is stored. *)
Definition update_record (rows : option (list row)) (allocated : bool) (rec : record_t post_record_t) (sticky : bool)
    : bool * record_t post_record_t * option Z :=
  match rows with
  | None => (false, rec, None)
  | Some rows =>
      let n := Z.of_nat (length rows) in
      let rec := if allocated then
                   let '(_, rec) := record_write sys hole rec (rendered sticky rows) n 0 in
                   (record_truncate sys hole rec n).2
                 else rec in
      (true, rec, if sticky then None else Some n)
  end.

(** [opened], [locked]: whether the file can be opened and locked at once. The
    number is what the counter is changed by. *)
Definition post_update_record (invalidity : Z) (force opened locked : bool) (rows : option (list row)) (allocated : bool)
    (rec : record_t post_record_t) : bool * record_t post_record_t * option Z * Z :=
  let invalid := if force then 0 else invalidity in
  if force || negb (invalidity =? 0) then
    if opened && locked then
      let '(updated, rec, count) := update_record rows allocated rec false in (updated, rec, count, if invalid =? 0 then 0 else - invalid)
    else (false, rec, None, 0)
  else (false, rec, None, 0).

Definition post_update_sticky_record (opened locked : bool) (rows : option (list row)) (allocated : bool)
    (rec : record_t post_record_t) : bool * record_t post_record_t :=
  if opened && locked then let '(updated, rec, _) := update_record rows allocated rec true in (updated, rec) else (false, rec).

(** [post_record_compare] of records of the trash looks at their first part. *)
Definition trash_compare (p1 p2 : post_record_extended_t) : Z := post_record_cmp (basic p1) (basic p2).

Definition rendered_trash (rows : list (row * deletion)) : list post_record_extended_t :=
  qsort trash_compare ((fun rd => convert_post_record_extended (convert_post_record rd.1 false) rd.2) <$> rows).

Definition hole_extended : post_record_extended_t := PostRecordExtended hole false false 0 0 [].

Definition post_update_trash_record (rows : option (list (row * deletion))) (allocated : bool) (rec : record_t post_record_extended_t)
    : bool * record_t post_record_extended_t :=
  match rows with
  | None => (false, rec)
  | Some rows =>
      let n := Z.of_nat (length rows) in
      (true, if allocated then
               let '(_, rec) := record_write sys hole_extended rec (rendered_trash rows) n 0 in (record_truncate sys hole_extended rec n).2
             else rec)
  end.
End Update.

(** * Readers, updaters and the server, step by step *)

(** Where a process is in [post_update_record]: what it has read of the counter,
    and what it has got of the table. *)
Inductive updater :=
| Idle
| HasRead (invalid : Z)
| Locked (invalid : Z)
| HasRows (invalid : Z) (rows : list row)
| Written (invalid : Z).

(** The table of posts of a board, the counter, the file, whether the server has
    changed the table and not yet the counter, and the processes. *)
Record shared := Shared {
  table : list row; counter : Z; file_ : list post_record_t; changing : bool; lock : bool; procs : list updater }.

Inductive step : shared -> shared -> Prop :=
| server_changes s rows : changing s = false ->
    step s (Shared rows (counter s) (file_ s) true (lock s) (procs s))
| server_counts s : changing s = true ->
    step s (Shared (table s) (counter s + 1) (file_ s) false (lock s) (procs s))
| reads s i : procs s !! i = Some Idle -> counter s <> 0 ->
    step s (Shared (table s) (counter s) (file_ s) (changing s) (lock s) (<[i := HasRead (counter s)]> (procs s)))
| locks_file s i n : procs s !! i = Some (HasRead n) -> lock s = false ->
    step s (Shared (table s) (counter s) (file_ s) (changing s) true (<[i := Locked n]> (procs s)))
| gives_up s i n : procs s !! i = Some (HasRead n) -> lock s = true ->
    step s (Shared (table s) (counter s) (file_ s) (changing s) (lock s) (<[i := Idle]> (procs s)))
| queries s i n : procs s !! i = Some (Locked n) ->
    step s (Shared (table s) (counter s) (file_ s) (changing s) (lock s) (<[i := HasRows n (table s)]> (procs s)))
| writes s i n rows : procs s !! i = Some (HasRows n rows) ->
    step s (Shared (table s) (counter s) (rendered false rows) (changing s) (lock s) (<[i := Written n]> (procs s)))
| counts_down s i n : procs s !! i = Some (Written n) ->
    step s (Shared (table s) (counter s - n) (file_ s) (changing s) false (<[i := Idle]> (procs s))).

Inductive steps : shared -> shared -> Prop :=
| no_step s : steps s s
| more s t u : steps s t -> step t u -> steps s u.

(** Nothing is going on: the server is done and so are all processes. *)
Definition quiet (s : shared) : Prop := changing s = false /\ Forall (fun p => p = Idle) (procs s).

Definition fresh (s : shared) : Prop := file_ s = rendered false (table s).

(** A board whose file is up to date, with [n] processes. *)
Definition started (rows : list row) (n : nat) : shared :=
  Shared rows 0 (rendered false rows) false false (replicate n Idle).

(** * One updater at a time *)

(** What has been counted and not been taken off makes up for the changes that
    the rows [r] do not show: [k] of them, but for one that is not yet counted. *)
Definition behind (s : shared) (r : list post_record_t) (n : Z) : Prop :=
  exists k, 0 <= k /\ (k = 0 -> r = rendered false (table s)) /\ k - (if changing s then 1 else 0) <= counter s - n.

Definition sound (s : shared) (p : updater) : Prop :=
  match p with
  | Idle => behind s (file_ s) 0
  | HasRead n => behind s (file_ s) 0 /\ - (if changing s then 1 else 0) <= counter s - n
  | Locked n => - (if changing s then 1 else 0) <= counter s - n
  | HasRows n rows => behind s (rendered false rows) n
  | Written n => behind s (file_ s) n
  end.

Definition sound1 (s : shared) : Prop := exists p, procs s = [p] /\ sound s p /\ (lock s = true -> exists n, p = Locked n \/ (exists rows, p = HasRows n rows) \/ p = Written n).

Lemma behind_change s rows r n : changing s = false -> behind s r n ->
  behind (Shared rows (counter s) (file_ s) true (lock s) (procs s)) r n.
Proof. intros Hc (k & Hk & Hr & Hle). rewrite Hc in Hle. exists (k + 1). cbn. split; [lia|]. split; [lia|lia]. Qed.

Lemma behind_count s r n : changing s = true -> behind s r n ->
  behind (Shared (table s) (counter s + 1) (file_ s) false (lock s) (procs s)) r n.
Proof. intros Hc (k & Hk & Hr & Hle). rewrite Hc in Hle. exists k. cbn. split; [lia|]. split; [done|lia]. Qed.

Lemma only_one {A} (l : list A) p i q : l = [p] -> l !! i = Some q -> i = 0%nat /\ q = p.
Proof. intros ->. destruct i as [|i]; cbn; [by intros [= ->]|by destruct i]. Qed.

Lemma sound_step s t : step s t -> sound1 s -> sound1 t.
Proof.
  intros Hst (p & Hp & Hs & Hl).
  destruct Hst as [s rows Hc|s Hc|s i Hi Hz|s i n Hi Hlk|s i n Hi Hlk|s i n Hi|s i n rows Hi|s i n Hi]; cbn [procs lock] in *.
  - exists p. split; [done|]. split; [|done]. destruct p; cbn in *; try (by apply behind_change); rewrite Hc in Hs.
    + destruct Hs as [Hs Hle]. split; [by apply behind_change|lia].
    + lia.
  - exists p. split; [done|]. split; [|done]. destruct p; cbn in *; try (by apply behind_count); rewrite Hc in Hs.
    + destruct Hs as [Hs Hle]. split; [by apply behind_count|lia].
    + lia.
  - destruct (only_one _ _ _ _ Hp Hi) as [-> <-]. rewrite Hp. exists (HasRead (counter s)). split; [done|]. split; [|naive_solver].
    cbn in *. split; [done|]. destruct (changing s); lia.
  - destruct (only_one _ _ _ _ Hp Hi) as [-> <-]. rewrite Hp. exists (Locked n). split; [done|]. split; [by destruct Hs|by exists n; left].
  - destruct (only_one _ _ _ _ Hp Hi) as [-> <-]. rewrite Hlk in Hl. destruct (Hl eq_refl) as (m & [|[[]|]]); done.
  - destruct (only_one _ _ _ _ Hp Hi) as [-> <-]. rewrite Hp. exists (HasRows n (table s)). split; [done|]. split; [|by exists n; right; left; eexists].
    cbn in *. exists 0. split; [done|]. split; [done|]. cbn. lia.
  - destruct (only_one _ _ _ _ Hp Hi) as [-> <-]. rewrite Hp. exists (Written n). split; [done|]. split; [exact Hs|by exists n; right; right].
  - destruct (only_one _ _ _ _ Hp Hi) as [-> <-]. rewrite Hp. exists Idle. split; [done|]. split; [|done].
    destruct Hs as (k & Hk & Hr & Hle). exists k. cbn in *. split; [done|]. split; [done|lia].
Qed.


(** * The function and its steps *)

(** A system that writes and truncates what it is asked to. *)
Definition obliging (sys : system) : Prop := write_ok sys = true /\ truncate_ok sys = true.

Lemma update_rebuilds sys rows rec sticky : obliging sys ->
  (update_record sys (Some rows) true rec sticky).1 = (true, set_file (rendered sticky rows) (set_pos (Z.of_nat (length rows)) rec)).
Proof.
  intros [Hw Ht]. assert (length (rendered sticky rows) = length rows) as Hlen.
  { unfold rendered, qsort. by rewrite merge_sort_Permutation, length_fmap. }
  unfold update_record, record_write, record_truncate. destruct (Z.ltb_spec (Z.of_nat (length rows)) 0); [lia|]. cbn -[rendered]. rewrite Hw, Ht.
  rewrite (take_ge (rendered sticky rows)) by lia. destruct (Z.leb_spec 0 (Z.of_nat (length rows))); [|lia].
  unfold set_file, set_pos, write_at, zlen. cbn -[rendered]. rewrite Nat2Z.id, Hlen. do 2 f_equal.
  rewrite <- !Hlen. cbn -[rendered]. rewrite <- app_assoc. change (Z.to_nat (0 + 0)) with 0%nat. rewrite take_0. cbn [app]. rewrite <- ?app_assoc. apply take_app_length.
Qed.

(** A process that is not disturbed goes through the steps to what the call of
    [post_update_record] leaves, in the file and in the counter. *)
Lemma steps_of_call sys rows n rec : obliging sys -> n <> 0 ->
  let '(updated, rec', count, change) := post_update_record sys n false true true (Some rows) true rec in
  updated = true /\ count = Some (Z.of_nat (length rows)) /\
  steps (Shared rows n (file rec) false false [Idle]) (Shared rows (n + change) (file rec') false false [Idle]).
Proof.
  intros Hsys Hn. pose proof (update_rebuilds sys rows rec false Hsys) as Hu. unfold post_update_record.
  destruct (Z.eqb_spec n 0); [done|]. cbn [orb negb andb].
  destruct (update_record sys (Some rows) true rec false) as [[updated rec'] count] eqn:E. cbn in Hu. injection Hu as -> ->.
  split; [done|]. split; [unfold update_record in E; by repeat case_match; simplify_eq|].
  replace (n + - n) with (n - n) by lia.
  eapply more; [|exact (counts_down (Shared rows n (rendered false rows) false true [Written n]) 0 n eq_refl)].
  eapply more; [|exact (writes (Shared rows n (file rec) false true [HasRows n rows]) 0 n rows eq_refl)].
  eapply more; [|exact (queries (Shared rows n _ _ _ [Locked n]) 0 n eq_refl)].
  eapply more; [|exact (locks_file (Shared _ _ _ _ false [HasRead n]) 0 n eq_refl eq_refl)].
  eapply more; [apply no_step|by refine (reads (Shared _ n _ _ _ [Idle]) 0 eq_refl _)].
Qed.

(** * Runs *)

Definition sample (i : Z) : row :=
  Row i 0 i 1 0 1 (Some (bytes "a")) 2 (Some (bytes "b")) false false false false false false (Some (bytes "t")).


(** Two processes that have both read the counter before one of them has the
    lock take it off twice; the change that comes next makes it zero, and the
    file stays behind the table. *)
Example two_updaters_stale : exists s, steps (started [sample 1] 2) s /\ quiet s /\ counter s = 0 /\ ~ fresh s.
Proof.
  exists (Shared [sample 3] 0 (rendered false [sample 2]) false false [Idle; Idle]).
  split; [|split; [by repeat constructor|split; [done|vm_compute; discriminate]]].
  eapply more; [|exact (server_counts (Shared _ (-1) _ true _ _) eq_refl)].
  eapply more; [|exact (server_changes (Shared [sample 2] _ _ false _ _) _ eq_refl)].
  eapply more; [|exact (counts_down (Shared _ 0 _ _ true [Idle; Written 1]) 1 1 eq_refl)].
  eapply more; [|exact (writes (Shared _ _ (rendered false [sample 2]) _ _ [Idle; HasRows 1 [sample 2]]) 1 1 _ eq_refl)].
  eapply more; [|exact (queries (Shared _ _ _ _ _ [Idle; Locked 1]) 1 1 eq_refl)].
  eapply more; [|exact (locks_file (Shared _ _ _ _ false [Idle; HasRead 1]) 1 1 eq_refl eq_refl)].
  eapply more; [|exact (counts_down (Shared _ 1 _ _ true [Written 1; HasRead 1]) 0 1 eq_refl)].
  eapply more; [|exact (writes (Shared _ _ (rendered false [sample 1]) _ _ [HasRows 1 [sample 2]; HasRead 1]) 0 1 _ eq_refl)].
  eapply more; [|exact (queries (Shared _ _ _ _ _ [Locked 1; HasRead 1]) 0 1 eq_refl)].
  eapply more; [|exact (locks_file (Shared _ _ _ _ false [HasRead 1; HasRead 1]) 0 1 eq_refl eq_refl)].
  eapply more; [|by refine (reads (Shared _ 1 _ _ _ [HasRead 1; Idle]) 1 eq_refl _)].
  eapply more; [|by refine (reads (Shared _ 1 _ _ _ [Idle; Idle]) 0 eq_refl _)].
  eapply more; [|exact (server_counts (Shared _ 0 _ true _ _) eq_refl)].
  eapply more; [|exact (server_changes (Shared [sample 1] _ _ false _ _) _ eq_refl)].
  apply no_step.
Qed.

(** A query that fails is counted as done: nothing is rebuilt and the counter is
    taken down. *)
Example failed_query_counts_down sys rec :
  post_update_record sys 1 false true true None true rec = (false, rec, None, -1).
Proof. reflexivity. Qed.
