(* ===== verification/Wire.v ===== *)
(** The layout of requests and responses in a message: the fields of the
    structures of [include/fbbs/post.h] that are marked for it, one after the
    other, as [util/serialization_codegen] writes them out. *)
From S2P Require Import Prelude Parcel Post BackendPost.
#[local] Open Scope Z_scope.

(** * Fields *)

(** A value that is stored as another one. *)
Definition map_codec {A B} (f : A -> B) (g : B -> A) (c : codec A) : codec B :=
  Codec (fun mo p b => c_put c mo p (g b)) (fun p => '(a, p) ← c_get c p; Done (f a, p)) (fun b => c_ok c (g b)) (fun b => c_enc c (g b)).

Lemma map_laws {A B} (f : A -> B) (g : B -> A) (c : codec A) : CodecLaws c -> (forall b, f (g b) = b) -> CodecLaws (map_codec f g c).
Proof.
  intros Hc Hfg. split; cbn [c_put c_get c_ok c_enc map_codec].
  - intros mo p s b. apply (put_law (c := c)).
  - intros pre post n b Hok Hn. rewrite (get_law (c := c)) by done. cbn [mbind outcome_bind]. by rewrite Hfg.
Qed.

(** A string that is not null, and one in an array of [n] bytes. *)
Definition text_codec : codec (list Z) := map_codec (default []) Some string_codec.
Definition char_array_codec (n : Z) : codec (list Z) :=
  Codec (c_put text_codec) (fun p => '(s, p) ← c_get text_codec p; Done (fit n s, p)) (fun s => c_ok text_codec s /\ blen s < n) (c_enc text_codec).

#[export] Instance text_laws : CodecLaws text_codec.
Proof. by apply map_laws; [apply _|]. Qed.

#[export] Instance char_array_laws n : CodecLaws (char_array_codec n).
Proof.
  split; cbn [c_put c_get c_ok c_enc char_array_codec].
  - intros mo p s a Hmo Hp [Ha _]. by apply (put_law (c := text_codec)).
  - intros pre post m a [Ha Hl] Hm. rewrite (get_law (c := text_codec)) by done. cbn [mbind outcome_bind]. unfold fit. rewrite take_ge; [done|].
    unfold blen in Hl. lia.
Qed.

(** [post_list_type_e] as an [int]. *)
Definition type_number (t : post_list_type_e) : Z :=
  match t with
  | POST_LIST_UNSET => 0 | POST_LIST_NORMAL => 1 | POST_LIST_THREAD => 2 | POST_LIST_MARKED => 3 | POST_LIST_DIGEST => 4 | POST_LIST_TOPIC => 5
  | POST_LIST_AUTHOR => 6 | POST_LIST_KEYWORD => 7 | POST_LIST_TRASH => 8 | POST_LIST_JUNK => 9 | POST_LIST_FORUM => 10 | POST_LIST_REPLY => 11
  end.
Definition type_at (n : Z) : post_list_type_e :=
  if n =? 1 then POST_LIST_NORMAL else if n =? 2 then POST_LIST_THREAD else if n =? 3 then POST_LIST_MARKED else if n =? 4 then POST_LIST_DIGEST
  else if n =? 5 then POST_LIST_TOPIC else if n =? 6 then POST_LIST_AUTHOR else if n =? 7 then POST_LIST_KEYWORD else if n =? 8 then POST_LIST_TRASH
  else if n =? 9 then POST_LIST_JUNK else if n =? 10 then POST_LIST_FORUM else if n =? 11 then POST_LIST_REPLY else POST_LIST_UNSET.
Definition type_codec : codec post_list_type_e := map_codec type_at type_number int_codec.

#[export] Instance type_laws : CodecLaws type_codec.
Proof. apply map_laws; [apply _|by intros []]. Qed.

(** * Structures *)

Notation "c +++ d" := (pair_codec c d) (at level 60, right associativity).

Definition filter_codec : codec post_filter_t :=
  map_codec (fun '(t, (b, (f, (u, (mi, (ma, (ti, (omi, (oma, (a, k)))))))))) => PostFilter t b f u mi ma ti omi oma a k)
    (fun x => (f_type x, (f_bid x, (f_flag x, (f_uid x, (f_min x, (f_max x, (f_tid x, (f_offset_min x, (f_offset_max x, (f_archive x, f_utf8_keyword x)))))))))))
    (type_codec +++ int_codec +++ int_codec +++ varint_codec +++ varint64_codec +++ varint64_codec +++ varint64_codec +++ int_codec +++ int_codec +++
     bool_codec +++ char_array_codec 77).

Definition post_new_codec : codec backend_request_post_new_t :=
  map_codec (fun '(r, (t, (ti, (un, (bn, (co, (u, (ur, (b, (m, (l, (h, a)))))))))))) => PostNew r t ti un bn co u ur b m l h a)
    (fun x => (q_reply_id x, (q_thread_id x, (q_title x, (q_user_name x, (q_board_name x, (q_content x, (q_user_id x, (q_user_id_replied x, (q_board_id x,
      (q_marked x, (q_locked x, (q_hide_user_id x, q_anonymous x)))))))))))))
    (varint64_codec +++ varint64_codec +++ text_codec +++ text_codec +++ text_codec +++ text_codec +++ varint_codec +++ varint_codec +++ int_codec +++
     bool_codec +++ bool_codec +++ bool_codec +++ bool_codec).

Definition post_delete_codec : codec backend_request_post_delete_t :=
  map_codec (fun '(f, (j, (b, (fo, (u, n))))) => PostDelete f j b fo u n)
    (fun x => (dl_filter x, (dl_junk x, (dl_bm_visible x, (dl_force x, (dl_user_id x, dl_user_name x))))))
    (filter_codec +++ bool_codec +++ bool_codec +++ bool_codec +++ varint_codec +++ text_codec).

Record backend_request_post_undelete_t := PostUndelete { ud_filter : post_filter_t; ud_bm_visible : bool }.
Definition post_undelete_codec : codec backend_request_post_undelete_t :=
  map_codec (fun '(f, b) => PostUndelete f b) (fun x => (ud_filter x, ud_bm_visible x)) (filter_codec +++ bool_codec).

Definition post_set_flag_codec : codec backend_request_post_set_flag_t :=
  map_codec (fun '(f, (fl, (s, t))) => PostSetFlag f fl s t) (fun x => (sf_filter x, (sf_flag x, (sf_set x, sf_toggle x))))
    (filter_codec +++ int_codec +++ bool_codec +++ bool_codec).

Definition post_alter_title_codec : codec backend_request_post_alter_title_t :=
  map_codec (fun '(b, (p, t)) => PostAlterTitle b p t) (fun x => (at_board_id x, (at_post_id x, at_title x))) (int_codec +++ varint64_codec +++ text_codec).

#[export] Instance filter_laws : CodecLaws filter_codec.
Proof. apply map_laws; [apply _|by intros []]. Qed.
#[export] Instance post_new_laws : CodecLaws post_new_codec.
Proof. apply map_laws; [apply _|by intros []]. Qed.
#[export] Instance post_delete_laws : CodecLaws post_delete_codec.
Proof. apply map_laws; [apply _|by intros []]. Qed.
#[export] Instance post_undelete_laws : CodecLaws post_undelete_codec.
Proof. apply map_laws; [apply _|by intros []]. Qed.
#[export] Instance post_set_flag_laws : CodecLaws post_set_flag_codec.
Proof. apply map_laws; [apply _|by intros []]. Qed.
#[export] Instance post_alter_title_laws : CodecLaws post_alter_title_codec.
Proof. apply map_laws; [apply _|by intros []]. Qed.
