(* ===== verification/Backend.v ===== *)
(** Requests to the server of posts and its responses: [backend_request] of
    [lib/helper.c] and [backend/main.c], over two kinds of lists that the
    processes share. *)
From S2P Require Import Prelude Parcel Post Filter Board UserCache File BackendPost Wire.
From stdpp Require Import gmap.
#[local] Open Scope Z_scope.

(** * Requests *)

(** [backend_request_e] *)
Inductive kind := post_new | post_delete | post_undelete | post_set_flag | post_alter_title.
#[export] Instance kind_eq : EqDecision kind.
Proof. solve_decision. Defined.

Definition number_of (k : kind) : Z :=
  match k with post_new => 1 | post_delete => 2 | post_undelete => 3 | post_set_flag => 4 | post_alter_title => 5 end.

(** [handlers]: the entry 0 is null. *)
Definition handlers : list (option kind) := [None; Some post_new; Some post_delete; Some post_undelete; Some post_set_flag; Some post_alter_title].

Definition request (k : kind) : Type :=
  match k with
  | post_new => backend_request_post_new_t
  | post_delete => backend_request_post_delete_t
  | post_undelete => backend_request_post_undelete_t
  | post_set_flag => backend_request_post_set_flag_t
  | post_alter_title => backend_request_post_alter_title_t
  end.
Definition response (k : kind) : Type := match k with post_alter_title => bool | _ => Z end.

(** What a handler does with its request; no response is an insertion that is
    not made. The numbers of rows are of type [int], identifiers of 64 bits. *)
Definition work (e : environment) (k : kind) : request k -> world -> outcome (option (response k) * world) :=
  match k with
  | post_new => fun req w => '(i, w) ← backend_post_new e req w; Done (i64 <$> i, w)
  | post_delete => fun req w => '(n, w) ← _backend_post_delete e req w; Done (Some (i32 n), w)
  | post_undelete => fun req w => '(n, w) ← _backend_post_undelete e (ud_filter req) w; Done (Some (i32 n), w)
  | post_set_flag => fun req w => let '(n, w) := backend_post_set_flag e req w in Done (Some (i32 n), w)
  | post_alter_title => fun req w => '(ok, w) ← _backend_post_alter_title e req w; Done (Some ok, w)
  end.

Section Messages.
Context (malloc_ok : Z -> bool).
(** The serializers are generated; both sides of a request use the same. *)
Context (request_codec : forall k, codec (request k)) (response_codec : forall k, codec (response k)).

(** The bytes of a parcel that are sent. *)
Definition message_of (p : parcel) : outcome (list Z) := m ← deref p; rdn m 0 (parcel_size p).

(** A string in the answer of the store of lists ends with a NUL. *)
Definition parcel_of (msg : list Z) : parcel := parcel_read_new (msg ++ [0]) (blen msg).

(** [backend_request] up to the sending: nothing is sent when the parcel has an
    error. *)
Definition request_message (pid : Z) (k : kind) (req : request k) : outcome (option (list Z)) :=
  p ← parcel_write_varint malloc_ok (parcel_new malloc_ok) (number_of k);
  p ← parcel_write_varint malloc_ok p pid;
  p ← c_put (request_codec k) malloc_ok p req;
  if parcel_ok p then m ← message_of p; Done (Some m) else Done None.

(** [backend_request] from the answer on. *)
Definition receive (k : kind) (msg : list Z) : outcome (option (response k)) :=
  '(ok, p) ← parcel_read_varint (parcel_of msg);
  '(type, p) ← parcel_read_varint p;
  if parcel_ok p && negb (ok =? 0) && (type =? number_of k) then
    '(resp, p) ← c_get (response_codec k) p;
    Done (if parcel_ok p then Some resp else None)
  else Done None.

(** * The server *)

(** What is put in front of the list of a channel. *)
Definition backend_respond (p : parcel) (channel : Z) : outcome (list (Z * list Z)) :=
  if channel <=? 0 then Done [] else m ← message_of p; Done [(channel, m)].

Definition backend_respond_error (p : parcel) (channel : Z) : outcome (list (Z * list Z)) :=
  p ← parcel_write_bool malloc_ok (parcel_clear p) false; backend_respond p channel.

(** A handler: whether it made a response, and what it sent. The server is one
    step of the system for each message, so that it does not matter that a new
    post is answered before its notices are made. *)
Definition backend_handler (e : environment) (k : kind) (parcel_in parcel_out : parcel) (channel : Z) (w : world)
    : outcome (bool * parcel * list (Z * list Z) * world) :=
  '(req, p) ← c_get (request_codec k) parcel_in;
  if negb (parcel_ok p) then Done (false, parcel_out, [], w)
  else
    '(resp, w) ← work e k req w;
    match resp with
    | None => Done (false, parcel_out, [], w)
    | Some resp =>
        parcel_out ← c_put (response_codec k) malloc_ok parcel_out resp;
        sent ← backend_respond parcel_out channel;
        Done (true, parcel_out, sent, w)
    end.

Definition handler_at (type : Z) : option kind :=
  if (0 <? type) && (type <? 6) then default None (handlers !! Z.to_nat type) else None.

(** A round of the loop of [main], for the message that was taken. *)
Definition serve_message (e : environment) (msg : list Z) (w : world) : outcome (list (Z * list Z) * world) :=
  let parcel_out := parcel_new malloc_ok in
  '(type, parcel_in) ← parcel_read_varint (parcel_of msg);
  '(channel, parcel_in) ← parcel_read_varint parcel_in;
  '(ok, parcel_out, sent, w) ←
    (match (if parcel_ok parcel_in then handler_at type else None) with
     | Some k =>
         parcel_out ← parcel_write_bool malloc_ok parcel_out true;
         parcel_out ← parcel_write_varint malloc_ok parcel_out type;
         backend_handler e k parcel_in parcel_out channel w
     | None => Done (false, parcel_out, [], w)
     end);
  if (ok : bool) then Done (sent, w)
  else more ← backend_respond_error parcel_out channel; Done (more ++ sent, w).

(** * Processes, step by step *)

(** The server is waiting for a message, has been given one, or is working on
    it; only then a signal to end is not obeyed at once. *)
Inductive phase := Accepting | Popped (msg : list Z) | Serving (msg : list Z) | Down.

Record state := State {
  world_ : world; requests : list (list Z); responses : gmap Z (list (list Z)); clients : gmap Z kind; server : phase; shutdown : bool }.

Inductive event := Call (pid : Z) (k : kind) (req : request k) | Return (pid : Z) (k : kind) (resp : option (response k)).

Definition push (cm : Z * list Z) (rs : gmap Z (list (list Z))) : gmap Z (list (list Z)) :=
  <[cm.1 := cm.2 :: default [] (rs !! cm.1)]> rs.

(** Values that the types of the program hold, in a message that fits memory. *)
Definition sendable (k : kind) (req : request k) : Prop := c_ok (request_codec k) req /\ blen (c_enc (request_codec k) req) < 2 ^ 61.
Definition is_pid (pid : Z) : Prop := 0 < pid < 2 ^ 31.

Inductive inner (s : state) : state -> Prop :=
| pops msg q : server s = Accepting -> requests s = msg :: q ->
    inner s (State (world_ s) q (responses s) (clients s) (Popped msg) (shutdown s))
| marks msg : server s = Popped msg ->
    inner s (State (world_ s) (requests s) (responses s) (clients s) (Serving msg) (shutdown s))
| serves e msg sent w : server s = Serving msg -> serve_message e msg (world_ s) = Done (sent, w) ->
    inner s (State w (requests s) (foldr push (responses s) sent) (clients s) (if shutdown s then Down else Accepting) (shutdown s)).

Inductive step (s : state) : option event -> state -> Prop :=
| calls pid k req msg : clients s !! pid = None -> is_pid pid -> sendable k req -> request_message pid k req = Done (Some msg) ->
    step s (Some (Call pid k req)) (State (world_ s) (msg :: requests s) (responses s) (<[pid := k]> (clients s)) (server s) (shutdown s))
| works t : inner s t -> step s None t
| returns pid k msg q resp : clients s !! pid = Some k -> responses s !! pid = Some (msg :: q) -> receive k msg = Done resp ->
    step s (Some (Return pid k resp)) (State (world_ s) (requests s) (<[pid := q]> (responses s)) (delete pid (clients s)) (server s) (shutdown s))
| ends : (server s = Accepting \/ exists msg, server s = Popped msg) ->
    step s None (State (world_ s) (requests s) (responses s) (clients s) Down (shutdown s))
| will_end msg : server s = Serving msg ->
    step s None (State (world_ s) (requests s) (responses s) (clients s) (Serving msg) true).

(** What the clients see. *)
Inductive run : state -> list event -> state -> Prop :=
| run_nil s : run s [] s
| run_cons s ev t tr u : step s ev t -> run t tr u -> run s (option_list ev ++ tr) u.

(** * The service: calls that are carried out one at a time *)

Inductive call := Asked (k : kind) (req : request k) | Answered (k : kind) (resp : option (response k)).

Record service := Service { s_world : world; s_calls : gmap Z call }.

Inductive astep (a : service) : option event -> service -> Prop :=
| asks pid k req : s_calls a !! pid = None -> astep a (Some (Call pid k req)) (Service (s_world a) (<[pid := Asked k req]> (s_calls a)))
| executes e pid k req resp w : s_calls a !! pid = Some (Asked k req) -> work e k req (s_world a) = Done (resp, w) ->
    astep a None (Service w (<[pid := Answered k resp]> (s_calls a)))
| answers pid k resp : s_calls a !! pid = Some (Answered k resp) ->
    astep a (Some (Return pid k resp)) (Service (s_world a) (delete pid (s_calls a))).

Inductive arun : service -> list event -> service -> Prop :=
| arun_nil a : arun a [] a
| arun_cons a ev b tr c : astep a ev b -> arun b tr c -> arun a (option_list ev ++ tr) c.

(** * Messages are understood *)

Hypothesis mem_available : forall n, malloc_ok n = true.
Context {request_laws : forall k, CodecLaws (request_codec k)} {response_laws : forall k, CodecLaws (response_codec k)}.
(** What a handler answers is a value of its type. *)
Hypothesis answer_ok : forall e k req w resp w', work e k req w = Done (Some resp, w') ->
  c_ok (response_codec k) resp /\ blen (c_enc (response_codec k) resp) < 2 ^ 61.

Definition enc_int (n : Z) : list Z := enc_varuint (zigzag n).
Definition asked (pid : Z) (k : kind) (req : request k) : list Z := enc_int (number_of k) ++ enc_int pid ++ c_enc (request_codec k) req.
Definition answer (k : kind) (resp : option (response k)) : list Z :=
  match resp with Some r => [1] ++ enc_int (number_of k) ++ c_enc (response_codec k) r | None => [0] end.

Lemma message_of_wrote p s : wrote p s -> message_of p = Done s.
Proof.
  intros (_ & Hs & _ & rest & Hp & _). unfold message_of, deref, parcel_size. rewrite Hp. cbn [mbind outcome_bind].
  rewrite Hs. by rewrite (rdn_at _ [] s rest).
Qed.

Lemma number_i32 k : is_i32 (number_of k).
Proof. destruct k; width; cbn; lia. Qed.
Lemma pid_i32 pid : is_pid pid -> is_i32 pid.
Proof. unfold is_pid. width. lia. Qed.
Lemma blen_enc_int n : is_i32 n -> 1 <= blen (enc_int n) <= 10.
Proof. intros Hn. unfold enc_int. apply enc_varuint_spec, zigzag_u64. revert Hn. width. lia. Qed.

Lemma put_int p s n : wrote p s -> is_i32 n -> blen s < 2 ^ 61 ->
  exists p', parcel_write_varint malloc_ok p n = Done p' /\ wrote p' (s ++ enc_int n).
Proof.
  intros Hp Hn Hs. pose proof (blen_enc_int n Hn).
  apply (put_law (c := varint_codec)); [done..|cbn [c_enc varint_codec]; fold (enc_int n); lia].
Qed.

Lemma get_int pre n post m : is_i32 n -> blen pre + blen (enc_int n) <= m < 2 ^ 64 - 1 ->
  parcel_read_varint (reader pre (pre ++ enc_int n ++ post) m) = Done (n, reader (pre ++ enc_int n) (pre ++ enc_int n ++ post) m).
Proof. apply (get_law (c := varint_codec)). Qed.

Lemma asked_ok pid k req : is_pid pid -> sendable k req -> request_message pid k req = Done (Some (asked pid k req)).
Proof.
  intros Hpid [Hok Hlen]. unfold request_message. pose proof (number_i32 k) as Hk. pose proof (pid_i32 pid Hpid) as Hi.
  pose proof (blen_enc_int _ Hk). pose proof (blen_enc_int _ Hi).
  destruct (put_int _ [] (number_of k) (wrote_new _ mem_available) Hk) as (p1 & -> & W1); [done|]. cbn [mbind outcome_bind app] in *.
  destruct (put_int _ _ pid W1 Hi) as (p2 & -> & W2); [lia|]. cbn [mbind outcome_bind].
  destruct (put_law (c := request_codec k) malloc_ok p2 _ req mem_available W2 Hok) as (p3 & -> & W3); [rewrite blen_app; lia|]. cbn [mbind outcome_bind].
  unfold parcel_ok. rewrite (proj1 W3). cbn [negb]. rewrite (message_of_wrote _ _ W3). cbn [mbind outcome_bind]. unfold asked. by rewrite app_assoc.
Qed.

Lemma asked_tail pid k req : asked pid k req ++ [0] = enc_int (number_of k) ++ enc_int pid ++ c_enc (request_codec k) req ++ [0].
Proof. unfold asked. by rewrite <- !app_assoc. Qed.

(** What is sent in answer. *)
Lemma served_ok e pid k req w : is_pid pid -> sendable k req ->
  serve_message e (asked pid k req) w = ('(resp, w') ← work e k req w; Done ([(pid, answer k resp)], w')).
Proof.
  intros Hpid [Hok Hlen]. unfold serve_message, parcel_of. pose proof (number_i32 k) as Hk. pose proof (pid_i32 pid Hpid) as Hi.
  pose proof (blen_enc_int _ Hk). pose proof (blen_enc_int _ Hi). pose proof (blen_nonneg (c_enc (request_codec k) req)).
  set (m := blen (asked pid k req)). assert (m = blen (enc_int (number_of k)) + blen (enc_int pid) + blen (c_enc (request_codec k) req)) as Hm
    by (unfold m, asked; rewrite !blen_app; lia).
  rewrite asked_tail.
  pose proof (get_int [] (number_of k) (enc_int pid ++ c_enc (request_codec k) req ++ [0]) m Hk ltac:(change (blen []) with 0; lia)) as G1.
  unfold parcel_read_new. unfold reader in G1 at 1. cbn [app] in G1. change (blen []) with 0 in G1. rewrite G1. cbn [mbind outcome_bind]. clear G1.
  rewrite get_int by (try done; lia). cbn [mbind outcome_bind parcel_ok reader error negb].
  unfold backend_handler.
  assert (handler_at (number_of k) = Some k) as -> by by destruct k.
  destruct (parcel_write_ok malloc_ok mem_available _ [] [1] (wrote_new _ mem_available)) as (p1 & Hp1 & W1); [done|].
  unfold parcel_write_bool at 1. rewrite Hp1. cbn [mbind outcome_bind app] in *.
  destruct (put_int _ _ (number_of k) W1 Hk) as (p2 & -> & W2); [done|]. cbn [mbind outcome_bind].
  pose proof (get_law (c := request_codec k) (enc_int (number_of k) ++ enc_int pid) [0] m req Hok ltac:(rewrite blen_app; lia)) as G3.
  rewrite <- !app_assoc in G3. unfold reader in *. rewrite G3. cbn [mbind outcome_bind parcel_ok error negb].
  destruct (work e k req w) as [[resp w']| |] eqn:Hw; [|done..]. cbn [mbind outcome_bind].
  assert (0 < pid) as Hpos by apply Hpid. destruct resp as [r|].
  - destruct (answer_ok _ _ _ _ _ _ Hw) as [Hr Hrl].
    destruct (put_law (c := response_codec k) malloc_ok p2 _ r mem_available W2 Hr) as (p3 & -> & W3); [rewrite blen_app; change (blen [1]) with 1; lia|]. cbn [mbind outcome_bind].
    unfold backend_respond. destruct (Z.leb_spec pid 0); [lia|]. rewrite (message_of_wrote _ _ W3). reflexivity.
  - unfold backend_respond_error. assert (wrote (parcel_clear p2) []) as Hc.
    { destruct W2 as (? & ? & ? & rest & Hp & ?). split; [done|]. split; [done|]. split; [done|]. eexists. split; [exact Hp|done]. }
    destruct (parcel_write_ok malloc_ok mem_available _ [] [0] Hc) as (p3 & Hp3 & W3); [done|].
    cbn [mbind outcome_bind]. change (parcel_write_bool malloc_ok (parcel_clear p2) false) with (parcel_write malloc_ok (parcel_clear p2) [0]). rewrite Hp3. cbn [mbind outcome_bind]. unfold backend_respond. destruct (Z.leb_spec pid 0); [lia|].
    by rewrite (message_of_wrote _ _ W3).
Qed.

Lemma received_ok e k req w resp w' : work e k req w = Done (resp, w') -> receive k (answer k resp) = Done resp.
Proof.
  intros Hw. unfold receive, parcel_of. destruct resp as [r|]; [|reflexivity].
  destruct (answer_ok _ _ _ _ _ _ Hw) as [Hr Hrl]. cbn [answer]. set (m := blen _).
  pose proof (number_i32 k) as Hk. pose proof (blen_enc_int _ Hk). pose proof (blen_nonneg (c_enc (response_codec k) r)).
  assert (m = 1 + blen (enc_int (number_of k)) + blen (c_enc (response_codec k) r)) as Hm by (unfold m; rewrite !blen_app; change (blen [1]) with 1; lia).
  set (rest := enc_int (number_of k) ++ c_enc (response_codec k) r).
  assert (parcel_read_varint (parcel_read_new (([1] ++ rest) ++ [0]) m) = Done (-1, reader [1] ([1] ++ rest ++ [0]) m)) as ->.
  { pose proof (get_int [] (-1) (rest ++ [0]) m ltac:(width; lia) ltac:(change (blen (enc_int (-1))) with 1; change (blen []) with 0; lia)) as G. exact G. }
  cbn [mbind outcome_bind]. unfold rest. rewrite <- (app_assoc _ _ [0]).
  rewrite get_int by (try done; change (blen [1]) with 1; lia). cbn [mbind outcome_bind parcel_ok reader error negb andb].
  change (-1 =? 0) with false. rewrite Z.eqb_refl. cbn [negb andb].
  pose proof (get_law (c := response_codec k) ([1] ++ enc_int (number_of k)) [0] m r Hr ltac:(rewrite blen_app; change (blen [1]) with 1; lia)) as G3.
  rewrite <- !app_assoc in G3. unfold reader in *. cbn [app] in *. by rewrite G3.
Qed.
(** * The processes implement the service *)

Definition kind_of (c : call) : kind := match c with Asked k _ | Answered k _ => k end.
Definition held (s : state) : list (list Z) := match server s with Popped m | Serving m => [m] | _ => [] end.

(** The message of a call that is waiting to be carried out. *)
Definition message_for (a : service) (m : list Z) (pid : Z) : Prop :=
  exists k req, s_calls a !! pid = Some (Asked k req) /\ sendable k req /\ m = asked pid k req.

Record represents (s : state) (a : service) : Prop := {
  rep_world : world_ s = s_world a;
  rep_clients : forall pid, clients s !! pid = kind_of <$> s_calls a !! pid;
  rep_pids : forall pid c, s_calls a !! pid = Some c -> is_pid pid;
  rep_queue : exists pids, NoDup pids /\ Forall2 (message_for a) (held s ++ requests s) pids /\
    (server s <> Down -> forall pid k req, s_calls a !! pid = Some (Asked k req) -> pid ∈ pids);
  rep_answers : forall pid, default [] (responses s !! pid) = match s_calls a !! pid with Some (Answered k r) => [answer k r] | _ => [] end;
  rep_received : forall pid k r, s_calls a !! pid = Some (Answered k r) -> receive k (answer k r) = Done r }.

Lemma message_for_other a pid c m p w : p <> pid -> message_for a m p -> message_for (Service w (<[pid := c]> (s_calls a))) m p.
Proof. intros Hne (k & req & Ha & Hs & Hm). exists k, req. cbn [s_calls]. by rewrite lookup_insert_ne. Qed.

Lemma messages_other a pid c w ms pids : pid ∉ pids -> Forall2 (message_for a) ms pids ->
  Forall2 (message_for (Service w (<[pid := c]> (s_calls a)))) ms pids.
Proof.
  intros Hni H. induction H as [|m p ms pids Hm _ IH]; constructor; [apply message_for_other; [set_solver|done]|apply IH; set_solver].
Qed.

Lemma messages_deleted a pid w ms pids : pid ∉ pids -> Forall2 (message_for a) ms pids ->
  Forall2 (message_for (Service w (delete pid (s_calls a)))) ms pids.
Proof.
  intros Hni H. induction H as [|m p ms pids (k & req & Ha & Hm) _ IH]; constructor; [|apply IH; set_solver].
  exists k, req. cbn [s_calls]. rewrite lookup_delete_ne; [done|set_solver].
Qed.

Lemma message_asked a m p : message_for a m p -> exists k req, s_calls a !! p = Some (Asked k req).
Proof. intros (k & req & Ha & _). eauto. Qed.

Lemma asked_pid a ms pids pid : Forall2 (message_for a) ms pids -> pid ∈ pids -> exists k req, s_calls a !! pid = Some (Asked k req).
Proof. intros H Hin. apply list_elem_of_lookup in Hin as [i Hi]. destruct (Forall2_lookup_r _ _ _ _ _ H Hi) as (m & _ & Hm). by eapply message_asked. Qed.

Lemma sim_call s a pid k req msg : represents s a -> clients s !! pid = None -> is_pid pid -> sendable k req ->
  request_message pid k req = Done (Some msg) ->
  astep a (Some (Call pid k req)) (Service (s_world a) (<[pid := Asked k req]> (s_calls a))) /\
  represents (State (world_ s) (msg :: requests s) (responses s) (<[pid := k]> (clients s)) (server s) (shutdown s))
    (Service (s_world a) (<[pid := Asked k req]> (s_calls a))).
Proof.
  intros [Hw Hc Hp (pids & Hnd & Hq & Hall) Ha Hr] Hnone Hpid Hs Hm. rewrite asked_ok in Hm by done. injection Hm as <-.
  assert (s_calls a !! pid = None) as Hn by (specialize (Hc pid); rewrite Hnone in Hc; by destruct (s_calls a !! pid)).
  split; [by constructor|]. assert (pid ∉ pids) as Hni by (intros Hin; destruct (asked_pid _ _ _ _ Hq Hin) as (? & ? & ?); congruence).
  split; cbn [world_ s_world clients s_calls responses requests server shutdown].
  - done.
  - intros p. destruct (decide (p = pid)) as [->|Hne]; [by rewrite !lookup_insert_eq|by rewrite !lookup_insert_ne].
  - intros p c. destruct (decide (p = pid)) as [->|Hne]; [done|]. rewrite lookup_insert_ne by done. apply Hp.
  - apply Forall2_app_inv_l in Hq as (p1 & p2 & Hq1 & Hq2 & ->). exists (p1 ++ pid :: p2). split; [|split].
    + rewrite <- Permutation_middle. by constructor.
    + apply Forall2_app; [apply messages_other; [set_solver|done]|]. constructor; [|apply messages_other; [set_solver|done]].
      exists k, req. cbn [s_calls]. by rewrite lookup_insert_eq.
    + intros Hd p k' req'. destruct (decide (p = pid)) as [->|Hne]; [set_solver|]. rewrite lookup_insert_ne by done. intros Hp'.
      specialize (Hall Hd _ _ _ Hp'). set_solver.
  - intros p. rewrite Ha. destruct (decide (p = pid)) as [->|Hne]; [by rewrite Hn, lookup_insert_eq|by rewrite lookup_insert_ne].
  - intros p k' r'. destruct (decide (p = pid)) as [->|Hne]; [by rewrite lookup_insert_eq|]. rewrite lookup_insert_ne by done. apply Hr.
Qed.
(** The queue only moves on. *)
Lemma represents_moved s t a : represents s a -> world_ t = world_ s -> clients t = clients s -> responses t = responses s ->
  held t ++ requests t = held s ++ requests s -> (server t <> Down -> server s <> Down) -> represents t a.
Proof.
  intros [Hw Hc Hp (pids & Hnd & Hq & Hall) Ha Hr] E1 E2 E3 E4 Hd. split; rewrite ?E1, ?E2, ?E3; try done.
  exists pids. rewrite E4. split; [done|]. split; [done|]. intros Ht. by apply Hall, Hd.
Qed.

Lemma sim_served s a e msg sent w : represents s a -> server s = Serving msg -> serve_message e msg (world_ s) = Done (sent, w) ->
  exists b, astep a None b /\
    represents (State w (requests s) (foldr push (responses s) sent) (clients s) (if shutdown s then Down else Accepting) (shutdown s)) b.
Proof.
  intros [Hw Hc Hp (pids & Hnd & Hq & Hall) Ha Hr] Hser Hm. unfold held in Hq. rewrite Hser in Hq. cbn [app] in Hq.
  apply Forall2_cons_inv_l in Hq as (pid & pids' & (k & req & Hk & Hs & ->) & Hq & ->). apply NoDup_cons in Hnd as [Hni Hnd].
  assert (is_pid pid) as Hpid by by eapply Hp. rewrite served_ok in Hm by done.
  destruct (work e k req (world_ s)) as [[resp w']| |] eqn:Hwk; [|done..]. cbn [mbind outcome_bind] in Hm. injection Hm as <- <-.
  rewrite Hw in Hwk. exists (Service w' (<[pid := Answered k resp]> (s_calls a))). split; [by econstructor|].
  split; cbn [world_ s_world clients s_calls responses requests server shutdown foldr].
  - done.
  - intros p. rewrite Hc. destruct (decide (p = pid)) as [->|Hne]; [by rewrite lookup_insert_eq, Hk|by rewrite lookup_insert_ne].
  - intros p c. destruct (decide (p = pid)) as [->|Hne]; [done|]. rewrite lookup_insert_ne by done. apply Hp.
  - exists pids'. assert (held (State w' (requests s) (push (pid, answer k resp) (responses s)) (clients s) (if shutdown s then Down else Accepting) (shutdown s)) = []) as ->
      by (unfold held; cbn [server]; by destruct (shutdown s)).
    split; [done|]. split; [by apply messages_other|]. intros _ p k' req'. destruct (decide (p = pid)) as [->|Hne]; [by rewrite lookup_insert_eq|].
    rewrite lookup_insert_ne by done. intros Hp'. rewrite Hser in Hall. specialize (Hall ltac:(done) _ _ _ Hp'). set_solver.
  - intros p. unfold push. cbn [fst snd]. destruct (decide (p = pid)) as [->|Hne]; [|by rewrite !lookup_insert_ne].
    rewrite !lookup_insert_eq. cbn [default]. specialize (Ha pid). rewrite Hk in Ha. by rewrite Ha.
  - intros p k' r'. destruct (decide (p = pid)) as [->|Hne]; [|rewrite lookup_insert_ne by done; apply Hr].
    rewrite lookup_insert_eq. intros [= Hkk Hrr]. subst k'. apply (Eqdep_dec.inj_pair2_eq_dec _ kind_eq) in Hrr as ->. by eapply received_ok.
Qed.

Lemma sim_return s a pid k msg q resp : represents s a -> clients s !! pid = Some k -> responses s !! pid = Some (msg :: q) ->
  receive k msg = Done resp ->
  astep a (Some (Return pid k resp)) (Service (s_world a) (delete pid (s_calls a))) /\
  represents (State (world_ s) (requests s) (<[pid := q]> (responses s)) (delete pid (clients s)) (server s) (shutdown s))
    (Service (s_world a) (delete pid (s_calls a))).
Proof.
  intros [Hw Hc Hp (pids & Hnd & Hq & Hall) Ha Hr] Hcl Hre Hm.
  pose proof (Hc pid) as Hcp. pose proof (Ha pid) as Hap. rewrite Hcl in Hcp. rewrite Hre in Hap. cbn [default] in Hap.
  destruct (s_calls a !! pid) as [[k' req|k' r]|] eqn:Hs; [done| |done]. cbn in Hcp. injection Hcp as ->. injection Hap as -> ->.
  rewrite (Hr _ _ _ Hs) in Hm. injection Hm as ->. split; [by constructor|].
  assert (pid ∉ pids) as Hni by (intros Hin; destruct (asked_pid _ _ _ _ Hq Hin) as (? & ? & ?); congruence).
  split; cbn [world_ s_world clients s_calls responses requests server shutdown].
  - done.
  - intros p. destruct (decide (p = pid)) as [->|Hne]; [by rewrite !lookup_delete_eq|by rewrite !lookup_delete_ne].
  - intros p c. destruct (decide (p = pid)) as [->|Hne]; [by rewrite lookup_delete_eq|]. rewrite lookup_delete_ne by done. apply Hp.
  - exists pids. split; [done|]. split.
    + by apply messages_deleted.
    + intros Hd p k2 req2. destruct (decide (p = pid)) as [->|Hne]; [by rewrite lookup_delete_eq|]. rewrite lookup_delete_ne by done. by apply Hall.
  - intros p. destruct (decide (p = pid)) as [->|Hne]; [by rewrite lookup_insert_eq, lookup_delete_eq|by rewrite lookup_insert_ne, lookup_delete_ne].
  - intros p k2 r2. destruct (decide (p = pid)) as [->|Hne]; [by rewrite lookup_delete_eq|]. rewrite lookup_delete_ne by done. apply Hr.
Qed.

(** Every step is one of the service, or none. *)
Lemma sim_step s ev t a : represents s a -> step s ev t -> exists b, (astep a ev b \/ ev = None /\ b = a) /\ represents t b.
Proof.
  intros HR [pid k req msg Hn Hpid Hs Hm|u Hin|pid k msg q resp Hcl Hre Hm|Hsv|msg Hsv].
  - edestruct sim_call as [H1 H2]; [done..|]. eexists. split; [by left|exact H2].
  - destruct Hin as [msg q Hsv Hrq|msg Hsv|e msg sent w Hsv Hm].
    + exists a. split; [by right|]. eapply represents_moved; [exact HR|try done..]; unfold held; cbn; rewrite Hsv; [by rewrite Hrq|done].
    + exists a. split; [by right|]. eapply represents_moved; [exact HR|try done..]; unfold held; cbn; by rewrite Hsv.
    + edestruct sim_served as (b & H1 & H2); [done..|]. exists b. split; [by left|exact H2].
  - edestruct sim_return as [H1 H2]; [done..|]. eexists. split; [by left|exact H2].
  - exists a. split; [by right|]. destruct HR as [Hw Hc Hp (pids & Hnd & Hq & Hall) Ha Hr]. split; try done. cbn [server requests].
    apply Forall2_app_inv_l in Hq as (p1 & p2 & _ & Hq & ->). apply NoDup_app in Hnd as (_ & _ & Hnd). by exists p2.
  - exists a. split; [by right|]. eapply represents_moved; [exact HR|try done..]; unfold held; cbn; by rewrite Hsv.
Qed.
(** Nobody has asked for anything yet. *)
Definition opened (w : world) : state := State w [] ∅ ∅ Accepting false.

Lemma opened_represents w : represents (opened w) (Service w ∅).
Proof. split; cbn; try done. exists []. split; [constructor|]. split; [constructor|]. intros _ pid k req H. done. Qed.

Lemma sim_run s tr t a : represents s a -> run s tr t -> exists b, arun a tr b /\ represents t b.
Proof.
  intros HR Hrun. revert a HR. induction Hrun as [s|s ev t tr u Hst _ IH]; intros a HR; [exists a; by split; [constructor|]|].
  destruct (sim_step _ _ _ _ HR Hst) as (b & Hab & HRb). destruct (IH b HRb) as (c & Hbc & HRc). exists c. split; [|done].
  destruct Hab as [Hab|[-> ->]]; [by econstructor|done].
Qed.

(** C5. Whatever clients there are and however their steps and those of the
    server are ordered, what the clients send and get back is what they would
    from a service that carries out their calls one at a time, each at most once
    and none after its client has its answer. *)
Theorem requests_atomic w tr t : run (opened w) tr t -> exists b, arun (Service w ∅) tr b /\ world_ t = s_world b.
Proof. intros Hrun. destruct (sim_run _ _ _ _ (opened_represents w) Hrun) as (b & Hb & HR). exists b. split; [done|apply HR]. Qed.

(** * Every call returns *)

(** Steps of the server and returns, with no new calls and no signals. *)
Definition progress (s t : state) : Prop := inner s t \/ exists pid k resp, step s (Some (Return pid k resp)) t.

Definition bound (s : state) : nat :=
  3 * length (requests s) + match server s with Popped _ => 2 | Serving _ => 1 | _ => 0 end + size (clients s).

Lemma progress_bound s t : progress s t -> bound s = S (bound t).
Proof.
  unfold bound. intros [[msg q Hsv Hrq|msg Hsv|e msg sent w Hsv Hm]|(pid & k & resp & Hst)]; cbn [requests server clients].
  - rewrite Hsv, Hrq. cbn [length]. lia.
  - rewrite Hsv. lia.
  - rewrite Hsv. destruct (shutdown s); lia.
  - inversion Hst as [| |pid' k' msg q resp' Hcl Hre Hm| |]; subst. cbn [requests server clients].
    rewrite map_size_delete, Hcl. cbn. assert (size (clients s) <> 0%nat) by (intros Hz%map_size_empty_inv; rewrite Hz in Hcl; done). lia.
Qed.

(** The requests that wait can be carried out, whatever the state of the tables. *)
Definition answerable (a : service) : Prop :=
  forall pid k req w, s_calls a !! pid = Some (Asked k req) -> exists e resp w', work e k req w = Done (resp, w').

Definition serving (s : state) (a : service) : Prop := represents s a /\ server s <> Down /\ shutdown s = false /\ answerable a.

Lemma progress_serving s t a : serving s a -> progress s t -> exists b, serving t b.
Proof.
  intros (HR & Hup & Hsh & Hans) Hpr.
  assert (server t <> Down /\ shutdown t = false) as [Hup' Hsh'].
  { destruct Hpr as [[]|(pid & k & resp & Hst)]; cbn; [done..| |]; [by rewrite Hsh|]. inversion Hst; subst. by cbn. }
  assert (exists ev, step s ev t /\ forall pid k req, ev <> Some (Call pid k req)) as (ev & Hst & Hev).
  { destruct Hpr as [Hin|(pid & k & resp & Hst)]; [exists None; split; [by constructor|done]|by eexists]. }
  destruct (sim_step _ _ _ _ HR Hst) as (b & Hab & HRb). exists b. split; [done|]. split; [done|]. split; [done|].
  revert Hev. clear Hst. destruct Hab as [[pid k req Hn|e pid k req resp w Hk Hw|pid k resp Hk]|[_ ->]]; [intros Hev; by destruct (Hev pid k req)| | |by intros _]; intros Hev p k2 req2 w2; cbn [s_calls].
  - destruct (decide (p = pid)) as [->|Hne]; [by rewrite lookup_insert_eq|rewrite lookup_insert_ne by done; apply Hans].
  - destruct (decide (p = pid)) as [->|Hne]; [by rewrite lookup_delete_eq|rewrite lookup_delete_ne by done; apply Hans].
Qed.

Lemma serving_progress s a : serving s a -> clients s <> ∅ -> exists t, progress s t.
Proof.
  intros ([Hw Hc Hp (pids & Hnd & Hq & Hall) Ha Hr] & Hup & Hsh & Hans) Hcl. unfold held in Hq. destruct (server s) as [|msg|msg|] eqn:Hsv; [| | |done].
  - destruct (requests s) as [|msg q] eqn:Hrq; [|eexists; left; by eapply pops].
    apply map_choose in Hcl as (pid & k & Hk). pose proof (Hc pid) as Hcp. rewrite Hk in Hcp. pose proof (Ha pid) as Hap.
    destruct (s_calls a !! pid) as [[k' req|k' r]|] eqn:Hs; [| |done].
    + apply Forall2_nil_inv_l in Hq as ->. specialize (Hall ltac:(done) _ _ _ Hs). set_solver.
    + cbn in Hcp. injection Hcp as <-. destruct (responses s !! pid) as [l|] eqn:Hre; [|done]. cbn in Hap. subst l.
      eexists. right. exists pid, k, r. eapply returns; [done|exact Hre|by eapply Hr].
  - eexists. left. by eapply marks.
  - apply Forall2_cons_inv_l in Hq as (pid & pids' & (k & req & Hk & Hs & ->) & Hq & ->).
    destruct (Hans pid k req (world_ s) Hk) as (e & resp & w' & Hwk). eexists. left. eapply (serves _ e); [exact Hsv|].
    rewrite served_ok by (try done; by eapply Hp). by rewrite Hwk.
Qed.

End Messages.

(** * Two clients *)

Definition requests_as (k : kind) : codec (request k) :=
  match k with
  | post_new => post_new_codec | post_delete => post_delete_codec | post_undelete => post_undelete_codec
  | post_set_flag => post_set_flag_codec | post_alter_title => post_alter_title_codec
  end.
Definition responses_as (k : kind) : codec (response k) :=
  match k with post_new => varint64_codec | post_alter_title => bool_codec | post_delete | post_undelete | post_set_flag => int_codec end.

#[export] Instance requests_as_laws k : CodecLaws (requests_as k).
Proof. destruct k; apply _. Qed.
#[export] Instance responses_as_laws k : CodecLaws (responses_as k).
Proof. destruct k; apply _. Qed.

Lemma i64_is x : is_i64 (i64 x).
Proof. unfold is_i64, i64. pose proof (Z.mod_pos_bound (x + 2 ^ 63) (2 ^ 64) eq_refl). lia. Qed.

Lemma blen_varint64 x : is_i64 x -> blen (c_enc varint64_codec x) < 2 ^ 61.
Proof. intros Hx. cbn [c_enc varint64_codec]. pose proof (enc_varuint_spec (zigzag x) (zigzag_u64 x Hx)). lia. Qed.

Lemma answers_as_ok e k req w resp w' : work e k req w = Done (Some resp, w') ->
  c_ok (responses_as k) resp /\ blen (c_enc (responses_as k) resp) < 2 ^ 61.
Proof.
  destruct k; cbn [work responses_as].
  - destruct (backend_post_new e req w) as [[[i|] w1]| |]; cbn; [|done..]. intros [= <- <-]. split; [apply i64_is|apply blen_varint64, i64_is].
  - destruct (_backend_post_delete e req w) as [[n w1]| |]; cbn [mbind outcome_bind]; [|done..]. intros [= <- <-]. split; [apply i32_range|done].
  - destruct (_backend_post_undelete e (ud_filter req) w) as [[n w1]| |]; cbn [mbind outcome_bind]; [|done..]. intros [= <- <-]. split; [apply i32_range|done].
  - destruct (backend_post_set_flag e req w) as [n w1]. intros [= <- <-]. split; [apply i32_range|done].
  - destruct (_backend_post_alter_title e req w) as [[ok w1]| |]; cbn [mbind outcome_bind]; [|done..]. intros [= <- <-]. by split.
Qed.

Definition mark_it (i : Z) : backend_request_post_set_flag_t :=
  PostSetFlag (PostFilter POST_LIST_NORMAL 3 0 0 i i 0 0 0 false []) POST_FLAG_MARKED true false.

Lemma mark_it_sendable i : i = 1500 \/ i = 2500 -> sendable requests_as post_set_flag (mark_it i).
Proof. intros [-> | ->]; (split; [cbn; split_and!; first [done|by vm_compute|width; lia]|by vm_compute]). Qed.

Definition two_posts : world :=
  World [Stored (sample_row 1500 3 (bytes "ann") (bytes "one")) false None; Stored (sample_row 2500 3 (bytes "bob") (bytes "two")) false None]
    [] ∅ ∅ ∅ ∅ ∅ ∅ ∅ empty_cache ∅.

Lemma marked e i w : work e post_set_flag (mark_it i) w = Done (Some (i32 (backend_post_set_flag e (mark_it i) w).1), (backend_post_set_flag e (mark_it i) w).2).
Proof. cbn [work]. by destruct (backend_post_set_flag e (mark_it i) w). Qed.

Definition mo : Z -> bool := fun _ => true.
Definition message pid i : list Z := asked requests_as pid post_set_flag (mark_it i).
Definition reply n : list Z := answer responses_as post_set_flag (Some n).
Definition marked_by i w : world := (backend_post_set_flag sample_env (mark_it i) w).2.

(** The two clients have asked. *)
Definition both_asked : state :=
  State two_posts [message 8 2500; message 7 1500] ∅ (<[8 := post_set_flag]> {[7 := post_set_flag]}) Accepting false.

Lemma asked7 : sendable requests_as post_set_flag (mark_it 1500).
Proof. by apply mark_it_sendable; left. Qed.
Lemma asked8 : sendable requests_as post_set_flag (mark_it 2500).
Proof. by apply mark_it_sendable; right. Qed.

Lemma both_ask : run mo requests_as responses_as (opened two_posts) [Call 7 post_set_flag (mark_it 1500); Call 8 post_set_flag (mark_it 2500)] both_asked.
Proof.
  eapply (run_cons _ _ _ _ (Some _) _ [_]); [apply calls; [done|done|exact asked7|exact (asked_ok mo requests_as (fun _ => eq_refl) 7 post_set_flag (mark_it 1500) ltac:(done) asked7)]|].
  eapply (run_cons _ _ _ _ (Some _) _ []); [apply calls; [done|done|exact asked8|exact (asked_ok mo requests_as (fun _ => eq_refl) 8 post_set_flag (mark_it 2500) ltac:(done) asked8)]|apply run_nil].
Qed.

(** The server takes a request and answers it, and its client goes on. *)
Lemma one_round w pid i q rs cs : is_pid pid -> sendable requests_as post_set_flag (mark_it i) -> rs !! pid = None -> cs !! pid = Some post_set_flag ->
  let n := i32 (backend_post_set_flag sample_env (mark_it i) w).1 in
  run mo requests_as responses_as (State w (message pid i :: q) rs cs Accepting false) [Return pid post_set_flag (Some n)]
    (State (marked_by i w) q (<[pid := []]> (<[pid := [reply n]]> rs)) (delete pid cs) Accepting false).
Proof.
  intros Hpid Hs Hrs Hcs n. eapply (run_cons _ _ _ _ None _ [_]); [apply works; by eapply pops|].
  eapply (run_cons _ _ _ _ None _ [_]); [apply works; by eapply marks|]. cbn [world_ requests responses clients shutdown].
  eapply (run_cons _ _ _ _ None _ [_]); [apply works; eapply (serves _ _ _ _ sample_env); [done|]|].
  { cbn [world_]. unfold message. rewrite (served_ok mo requests_as responses_as (fun _ => eq_refl) answers_as_ok) by done. rewrite marked. reflexivity. }
  cbn [world_ requests responses clients shutdown foldr]. unfold push. cbn [fst snd]. rewrite Hrs. cbn [default].
  eapply (run_cons _ _ _ _ (Some _) _ []); [eapply (returns _ _ _ _ pid); [exact Hcs|apply lookup_insert_eq|]|apply run_nil].
  exact (received_ok responses_as answers_as_ok sample_env post_set_flag (mark_it i) w _ _ (marked sample_env i w)).
Qed.

Lemma run_app s tr t tr' u : run mo requests_as responses_as s tr t -> run mo requests_as responses_as t tr' u -> run mo requests_as responses_as s (tr ++ tr') u.
Proof. induction 1 as [|s ev t' tr t Hst _ IH]; intros Hu; [done|]. rewrite <- app_assoc. econstructor; [exact Hst|by apply IH]. Qed.

(** The request that is sent last is served first. *)
Lemma both_served : exists t, run mo requests_as responses_as (opened two_posts)
  [Call 7 post_set_flag (mark_it 1500); Call 8 post_set_flag (mark_it 2500); Return 8 post_set_flag (Some 1); Return 7 post_set_flag (Some 1)] t.
Proof.
  eexists. eapply (run_app _ [_; _] _ [_; _]); [apply both_ask|]. eapply (run_app _ [_] _ [_]).
  - assert (i32 (backend_post_set_flag sample_env (mark_it 2500) two_posts).1 = 1) as E by by vm_compute.
    pose proof (one_round two_posts 8 2500 [message 7 1500] ∅ (<[8 := post_set_flag]> {[7 := post_set_flag]}) ltac:(done) asked8 eq_refl eq_refl) as H.
    cbn zeta in H. rewrite E in H. exact H.
  - assert (i32 (backend_post_set_flag sample_env (mark_it 1500) (marked_by 2500 two_posts)).1 = 1) as E by by vm_compute.
    match goal with |- run _ _ _ (State ?w _ ?rs ?cs _ _) _ _ =>
      pose proof (one_round w 7 1500 [] rs cs ltac:(done) asked7 eq_refl eq_refl) as H end.
    cbn zeta in H. rewrite E in H. exact H.
Qed.

Lemma requests_atomic_witness : exists t b,
  run mo requests_as responses_as (opened two_posts)
    [Call 7 post_set_flag (mark_it 1500); Call 8 post_set_flag (mark_it 2500); Return 8 post_set_flag (Some 1); Return 7 post_set_flag (Some 1)] t /\
  arun (Service two_posts ∅)
    [Call 7 post_set_flag (mark_it 1500); Call 8 post_set_flag (mark_it 2500); Return 8 post_set_flag (Some 1); Return 7 post_set_flag (Some 1)] b /\
  world_ t = s_world b.
Proof.
  destruct both_served as [t Ht].
  destruct (requests_atomic mo requests_as responses_as (fun _ => eq_refl) answers_as_ok two_posts _ t Ht) as (b & Hb & Hw).
  exists t, b. split; [exact Ht|]. split; [exact Hb|exact Hw].
Defined.

Lemma both_serving : exists a, serving requests_as responses_as both_asked a.
Proof.
  destruct (sim_call mo requests_as responses_as (fun _ => eq_refl) answers_as_ok (opened two_posts) _ 7 post_set_flag (mark_it 1500) _
    (opened_represents requests_as responses_as two_posts) eq_refl ltac:(done) asked7
    (asked_ok mo requests_as (fun _ => eq_refl) 7 post_set_flag (mark_it 1500) ltac:(done) asked7)) as [_ H7].
  destruct (sim_call mo requests_as responses_as (fun _ => eq_refl) answers_as_ok _ _ 8 post_set_flag (mark_it 2500) _ H7 eq_refl ltac:(done) asked8
    (asked_ok mo requests_as (fun _ => eq_refl) 8 post_set_flag (mark_it 2500) ltac:(done) asked8)) as [_ H8].
  eexists. split; [exact H8|]. split; [done|]. split; [done|]. intros pid k req w. cbn [s_calls]. intros Hin.
  assert (k = post_set_flag) as ->.
  { revert Hin. rewrite !lookup_insert. repeat case_decide; [by intros Heq; inversion Heq..|done]. }
  exists sample_env. cbn [work]. destruct (backend_post_set_flag sample_env req w) as [n w']. by eexists _, _.
Qed.


(** * What is outside the theorems *)

Lemma call7 s : clients s !! 7 = None ->
  step mo requests_as responses_as s (Some (Call 7 post_set_flag (mark_it 1500)))
    (State (world_ s) (message 7 1500 :: requests s) (responses s) (<[7 := post_set_flag]> (clients s)) (server s) (shutdown s)).
Proof.
  intros Hn. apply calls; [exact Hn|done|exact asked7|]. exact (asked_ok mo requests_as (fun _ => eq_refl) 7 post_set_flag (mark_it 1500) ltac:(done) asked7).
Qed.

(** A process that ends while it waits leaves its answer behind: the next one
    with its number takes it for the answer to its own request, before this is
    even looked at. *)
Example stale_answer : exists t,
  run mo requests_as responses_as (State two_posts [] {[7 := [reply 1]]} ∅ Accepting false)
    [Call 7 post_set_flag (mark_it 1500); Return 7 post_set_flag (Some 1)] t /\
  requests t = [message 7 1500] /\ world_ t = two_posts.
Proof.
  eexists. split; [|split].
  - eapply (run_cons _ _ _ _ (Some _) _ [_]); [by apply call7|].
    eapply (run_cons _ _ _ _ (Some _) _ []); [|apply run_nil]. eapply (returns _ _ _ _ 7 post_set_flag (reply 1) []); [done|done|by vm_compute].
  - done.
  - done.
Qed.

(** A signal that comes after a message is taken and before this is noted ends
    the server, and nobody will answer. *)
Example lost_request : exists t,
  run mo requests_as responses_as (opened two_posts) [Call 7 post_set_flag (mark_it 1500)] t /\
  server t = Down /\ requests t = [] /\ responses t = ∅ /\ clients t = {[7 := post_set_flag]}.
Proof.
  eexists. split; [|split; [|split; [|split]]].
  - eapply (run_cons _ _ _ _ (Some _) _ []); [by apply call7|].
    eapply (run_cons _ _ _ _ None _ []); [apply works; by eapply pops|]. cbn [world_ requests responses clients shutdown].
    eapply (run_cons _ _ _ _ None _ []); [apply ends; right; by eexists|apply run_nil].
  - done.
  - done.
  - done.
  - done.
Qed.
