(* ===== verification/Winmine.v ===== *)
(** The game of mines: [game/winmine.c]. Drawing is left out, what is drawn is a
    function of the fields here. *)
From S2P Require Import Prelude Helper.
From stdpp Require Import gmap sorting.
#[local] Open Scope Z_scope.

(** * The fields *)

Notation place := (Z * Z)%type.

(** The arrays [a], [m] and [o]: the places where they are not zero. *)
Record game := Game { mines : gset place; marks : gset place; opened : gset place; gameover : bool }.

Definition set_marks (v : gset place) (g : game) : game := Game (mines g) v (opened g) (gameover g).
Definition set_opened (v : gset place) (g : game) : game := Game (mines g) (marks g) v (gameover g).
Definition set_mines (v : gset place) (g : game) : game := Game v (marks g) (opened g) (gameover g).
Definition set_gameover (v : bool) (g : game) : game := Game (mines g) (marks g) (opened g) v.

(** [winmine] before each game; the last game has reset its end. *)
Definition new_game : game := Game ∅ ∅ ∅ false.

(** The arrays have 32 rows of 18 cells. *)
Definition cell (s : gset place) (x y : Z) : outcome bool :=
  if (0 <=? x) && (x <? 32) && (0 <=? y) && (y <? 18) then Done (bool_decide ((x, y) ∈ s)) else Fault.

Definition inside (x y : Z) : bool := negb ((x <? 1) || (30 <? x) || (y <? 1) || (16 <? y)).

(** The places of the two loops, in their order. *)
Definition around (x y : Z) : list place :=
  [(x-1, y-1); (x-1, y); (x-1, y+1); (x, y-1); (x, y); (x, y+1); (x+1, y-1); (x+1, y); (x+1, y+1)].

(** [num_mine_beside] and [num_mark_beside]. *)
Fixpoint count_in (s : gset place) (x1 y1 : Z) (ps : list place) : outcome Z :=
  match ps with
  | [] => Done 0
  | (dx, dy) :: ps =>
      c ← (if negb ((dx =? x1) && (dy =? y1)) then cell s dx dy else Done false);
      n ← count_in s x1 y1 ps;
      Done (if (c : bool) then n + 1 else n)
  end.
Definition num_beside (s : gset place) (x y : Z) : outcome Z := count_in s x y (around x y).

(** * Moves *)

Fixpoint each (f : Z -> Z -> game -> outcome game) (ps : list place) (g : game) : outcome game :=
  match ps with [] => Done g | (x, y) :: ps => g ← f x y g; each f ps g end.

(** The calls nest at most as deep as there are closed places. *)
Fixpoint windig (fuel : nat) (x y : Z) (g : game) : outcome game :=
  match fuel with
  | O => NoFuel
  | S fuel =>
      if negb (inside x y) then Done g
      else
        op ← cell (opened g) x y;
        mk ← cell (marks g) x y;
        if op || mk then Done g
        else
          let g := set_opened ({[(x, y)]} ∪ opened g) g in
          mine ← cell (mines g) x y;
          if (mine : bool) then Done (set_gameover true g)
          else
            n ← num_beside (mines g) x y;
            if n =? 0 then each (windig fuel) (around x y) g else Done g
  end.
Definition dig_fuel : nat := 482.

Definition dblclick (x y : Z) (g : game) : outcome game :=
  if negb (inside x y) then Done g
  else
    op ← cell (opened g) x y;
    if negb op then Done g
    else
      n ← num_beside (mines g) x y;
      k ← num_beside (marks g) x y;
      if negb (n =? k) then Done g else each (windig dig_fuel) (around x y) g.

Definition dig (x y : Z) (g : game) : outcome game :=
  op ← cell (opened g) x y; if negb op then windig dig_fuel x y g else dblclick x y g.

(** Every place that can be dug, row by row. *)
Definition places : list place := x ← seqZ 1 30; y ← seqZ 1 16; mret (x, y).

Definition checkwin (g : game) : bool :=
  Z.of_nat (length (List.filter (fun p => negb (bool_decide (p ∈ opened g))) places)) =? 99.

(** [rand] gives the numbers of the list; [NoFuel] is that there are no more. *)
Fixpoint place_mine (rands : list (Z * Z)) (x1 y1 : Z) (s : gset place) : outcome (list (Z * Z) * gset place) :=
  match rands with
  | [] => NoFuel
  | (r1, r2) :: rands =>
      let x := Z.rem r1 30 + 1 in
      let y := Z.rem r2 16 + 1 in
      there ← cell s x y;
      if there || ((Z.abs (x - x1) <? 2) && (Z.abs (y - y1) <? 2)) then place_mine rands x1 y1 s
      else Done (rands, {[(x, y)]} ∪ s)
  end.

Fixpoint place_mines (n : nat) (rands : list (Z * Z)) (x1 y1 : Z) (s : gset place) : outcome (gset place) :=
  match n with O => Done s | S n => '(rands, s) ← place_mine rands x1 y1 s; place_mines n rands x1 y1 s end.

Definition wininit (rands : list (Z * Z)) (x1 y1 : Z) (g : game) : outcome game :=
  s ← place_mines 99 rands x1 y1 (mines g); Done (set_mines s g).

(** * What digging opens *)

Lemma inside_spec x y : inside x y = true <-> 1 <= x <= 30 /\ 1 <= y <= 16.
Proof. unfold inside. rewrite negb_true_iff, !orb_false_iff, !Z.ltb_ge. lia. Qed.

Lemma cell_ok s x y : 0 <= x <= 31 -> 0 <= y <= 17 -> cell s x y = Done (bool_decide ((x, y) ∈ s)).
Proof.
  intros. unfold cell. rewrite (proj2 (Z.leb_le 0 x)), (proj2 (Z.ltb_lt x 32)), (proj2 (Z.leb_le 0 y)), (proj2 (Z.ltb_lt y 18)) by lia. done.
Qed.

Lemma around_spec x y a b : (a, b) ∈ around x y <-> Z.abs (a - x) <= 1 /\ Z.abs (b - y) <= 1.
Proof.
  unfold around. rewrite !elem_of_cons, elem_of_nil. split; [intros H; decompose sum H; simplify_eq; lia|].
  intros [Ha Hb]. assert (a = x - 1 \/ a = x \/ a = x + 1) as [-> | [-> | ->]] by lia;
    assert (b = y - 1 \/ b = y \/ b = y + 1) as [-> | [-> | ->]] by lia; tauto.
Qed.

(** No place beside is in the set. *)
Definition clear (s : gset place) (p : place) : Prop := forall q, q ∈ around p.1 p.2 -> q <> p -> q ∉ s.

Lemma count_in_spec s x y ps : Forall (fun p => 0 <= p.1 <= 31 /\ 0 <= p.2 <= 17) ps ->
  exists n, count_in s x y ps = Done n /\ 0 <= n /\ (n = 0 <-> forall q, q ∈ ps -> q <> (x, y) -> q ∉ s).
Proof.
  induction 1 as [|[a b] ps [Ha Hb] _ IH]; [exists 0; split; [done|]; split; [done|]; split; [set_solver|done]|].
  destruct IH as (n & Hn & Hpos & Hz). cbn [count_in fst snd] in *.
  destruct (decide ((a, b) = (x, y))) as [[= -> ->]|Hne].
  - rewrite !Z.eqb_refl. cbn [negb andb mbind outcome_bind]. rewrite Hn. cbn [mbind outcome_bind]. exists n. split; [done|]. split; [done|]. rewrite Hz. set_solver.
  - assert ((a =? x) && (b =? y) = false) as -> by (rewrite andb_false_iff, !Z.eqb_neq; destruct (decide (a = x)) as [->|]; [right; congruence|by left]).
    cbn [negb]. rewrite cell_ok by done. cbn [mbind outcome_bind]. rewrite Hn. cbn [mbind outcome_bind]. case_bool_decide as Hin.
    + exists (n + 1). split; [done|]. split; [lia|]. split; [lia|]. intros Hall. exfalso. apply (Hall (a, b)); [set_solver|done..].
    + exists n. split; [done|]. split; [done|]. rewrite Hz. split; intros Hall q Hq Hqn; [|apply Hall; [set_solver|done]].
      apply elem_of_cons in Hq as [->|Hq]; [done|by apply Hall].
Qed.

Lemma num_beside_spec s x y : inside x y = true -> exists n, num_beside s x y = Done n /\ 0 <= n /\ (n = 0 <-> clear s (x, y)).
Proof.
  intros Hin%inside_spec. apply (count_in_spec s x y (around x y)). apply list.Forall_forall. intros [a b] Hab%around_spec. cbn. lia.
Qed.

Definition diggable (g : game) (p : place) : Prop := inside p.1 p.2 = true /\ p ∉ opened g /\ p ∉ marks g.

(** The places that a dig at [p] gets to: from one that is no mine and has none
    beside it, to all that are beside it. *)
Inductive reach (g : game) (p : place) : place -> Prop :=
| reach_start : diggable g p -> reach g p p
| reach_next q r : reach g p q -> q ∉ mines g -> clear (mines g) q -> r ∈ around q.1 q.2 -> diggable g r -> reach g p r.

(** What digging at some places makes of the fields. *)
Record dug (g : game) (ps : list place) (g' : game) : Prop := {
  dug_mines : mines g' = mines g;
  dug_marks : marks g' = marks g;
  dug_more : opened g ⊆ opened g';
  dug_over : gameover g' = true <-> gameover g = true \/ exists c, c ∈ opened g' /\ c ∉ opened g /\ c ∈ mines g;
  dug_closed c r : c ∈ opened g' -> c ∉ opened g -> c ∉ mines g -> clear (mines g) c -> r ∈ around c.1 c.2 -> inside r.1 r.2 = true ->
    r ∉ marks g -> r ∈ opened g';
  dug_reach c : c ∈ opened g' -> c ∉ opened g -> exists p, p ∈ ps /\ reach g p c;
  dug_start p : p ∈ ps -> diggable g p -> p ∈ opened g' }.

Lemma reach_mono g g1 p c : mines g1 = mines g -> marks g1 = marks g -> opened g ⊆ opened g1 -> reach g1 p c -> reach g p c.
Proof.
  intros Hm Hk Ho. assert (forall r, diggable g1 r -> diggable g r) as Hd by (intros r (? & ? & ?); split; [done|]; rewrite <- Hk; set_solver).
  induction 1 as [Hs|q r _ IH Hq Hc Hr Hdr]; [by apply reach_start, Hd|]. rewrite Hm in *. eapply reach_next; eauto.
Qed.

Lemma dug_nothing g ps : Forall (fun p => ~ diggable g p) ps -> dug g ps g.
Proof.
  intros Hn. split; try done.
  - split; [by left|]. intros [H|(c & H1 & H2 & _)]; [done|by destruct H2].
  - intros p Hp Hd. by destruct (proj1 (list.Forall_forall _ _) Hn p Hp).
Qed.

Lemma dug_app g ps g1 qs g2 : dug g ps g1 -> dug g1 qs g2 -> dug g (ps ++ qs) g2.
Proof.
  intros [M1 K1 O1 V1 C1 R1 S1] [M2 K2 O2 V2 C2 R2 S2]. split.
  - congruence.
  - congruence.
  - set_solver.
  - rewrite V2, V1. rewrite M1. split.
    + intros [[H|(c & ? & ? & ?)]|(c & ? & ? & ?)]; [by left|right; exists c; set_solver..].
    + intros [H|(c & ? & ? & ?)]; [by left; left|]. destruct (decide (c ∈ opened g1)); [left; right; by exists c|right; by exists c].
  - rewrite M1, K1 in C2. intros c r Hc Hn Hmn Hcl Hr Hi Hk. destruct (decide (c ∈ opened g1)); [apply O2; eauto|eauto].
  - intros c Hc Hn. destruct (decide (c ∈ opened g1)) as [H1|H1].
    + destruct (R1 c H1 Hn) as (p & Hp & Hr). exists p. split; [set_solver|done].
    + destruct (R2 c Hc H1) as (p & Hp & Hr). exists p. split; [set_solver|by eapply reach_mono].
  - intros p Hp Hd. destruct (decide (p ∈ opened g1)) as [H1|H1]; [by apply O2|].
    apply elem_of_app in Hp as [Hp|Hp]; [by apply O2, S1|]. apply S2; [done|]. destruct Hd as (Hi & _ & Hk). split; [done|]. by rewrite K1.
Qed.

(** The places that are closed are fewer after each step down. *)
Definition closed (g : game) : gset place := list_to_set places ∖ opened g.

Lemma left_mono (X A B : gset place) : A ⊆ B -> (size (X ∖ B) <= size (X ∖ A))%nat.
Proof. intros H. apply subseteq_size. set_solver. Qed.

Lemma left_less (X A : gset place) p : p ∈ X -> p ∉ A -> (size (X ∖ ({[p]} ∪ A)) < size (X ∖ A))%nat.
Proof. intros. apply subset_size. set_solver. Qed.

Lemma elem_of_places p : p ∈ places <-> inside p.1 p.2 = true.
Proof.
  destruct p as [x y]. rewrite inside_spec. unfold places. cbn [fst snd]. rewrite list_elem_of_bind. split.
  - intros (a & Ha & Hin%elem_of_seqZ). apply list_elem_of_bind in Ha as (b & Hb & Hin2%elem_of_seqZ). apply list_elem_of_ret in Hb. simplify_eq. lia.
  - intros [Hx Hy]. exists x. split; [|apply elem_of_seqZ; lia]. apply list_elem_of_bind. exists y. split; [by apply list_elem_of_ret|apply elem_of_seqZ; lia].
Qed.

Lemma each_dug (n : nat) (f : Z -> Z -> game -> outcome game) :
  (forall x y g, (size (closed g) < n)%nat -> exists g', f x y g = Done g' /\ dug g [(x, y)] g') ->
  forall ps g, (size (closed g) < n)%nat -> exists g', each f ps g = Done g' /\ dug g ps g'.
Proof.
  intros Hf ps. induction ps as [|[x y] ps IH]; intros g Hg; [exists g; split; [done|by apply dug_nothing]|]. cbn [each].
  destruct (Hf x y g Hg) as (g1 & -> & H1). cbn [mbind outcome_bind].
  assert (size (closed g1) <= size (closed g))%nat as Hle by (apply left_mono, H1).
  destruct (IH g1 ltac:(lia)) as (g2 & -> & H2). exists g2. split; [done|]. exact (dug_app _ [_] _ _ _ H1 H2).
Qed.

Lemma dug_mine g p : diggable g p -> p ∈ mines g -> dug g [p] (set_gameover true (set_opened ({[p]} ∪ opened g) g)).
Proof.
  intros Hd Hm. split; cbn [mines marks opened gameover set_gameover set_opened]; try done.
  - set_solver.
  - split; [|done]. intros _. right. exists p. destruct Hd as (_ & Ho & _). set_solver.
  - intros c r Hc Hn Hcm. set_solver.
  - intros c Hc Hn. exists p. assert (c = p) as -> by set_solver. split; [set_solver|by apply reach_start].
  - set_solver.
Qed.

Lemma dug_beside g p : diggable g p -> p ∉ mines g -> ~ clear (mines g) p -> dug g [p] (set_opened ({[p]} ∪ opened g) g).
Proof.
  intros Hd Hm Hc. split; cbn [mines marks opened gameover set_opened]; try done.
  - set_solver.
  - split; [by left|]. intros [H|(c & Hc1 & Hc2 & Hc3)]; [done|]. assert (c = p) as -> by set_solver. done.
  - intros c r Hcp Hn _ Hcl. assert (c = p) as -> by set_solver. done.
  - intros c Hcp Hn. exists p. assert (c = p) as -> by set_solver. split; [set_solver|by apply reach_start].
  - set_solver.
Qed.

Lemma dug_on g p g' : diggable g p -> p ∉ mines g -> clear (mines g) p -> dug (set_opened ({[p]} ∪ opened g) g) (around p.1 p.2) g' -> dug g [p] g'.
Proof.
  intros Hd Hm Hcl [M K O V C R S]. cbn [mines marks opened gameover set_opened] in *.
  assert (p ∈ opened g') as Hp by set_solver. split; try done.
  - set_solver.
  - rewrite V. split; (intros [H|(c & H1 & H2 & H3)]; [by left|]; right; exists c); (split; [done|]; split; [|done]).
    + intros Hc. apply H2, elem_of_union. by right.
    + intros [->%elem_of_singleton|Hc]%elem_of_union; [by apply Hm|by apply H2].
  - intros c r Hc Hn Hcm Hcc Hr Hi Hk. destruct (decide (c = p)) as [->|Hne]; [|eapply C; eauto; set_solver].
    destruct (decide (r ∈ {[p]} ∪ opened g)) as [Ho|Ho]; [set_solver|]. apply S; [done|]. by split.
  - intros c Hc Hn. exists p. split; [set_solver|]. destruct (decide (c = p)) as [->|Hne]; [by apply reach_start|].
    destruct (R c Hc ltac:(set_solver)) as (q & Hq & Hre). clear -Hd Hm Hcl Hq Hre.
    assert (forall r, diggable (set_opened ({[p]} ∪ opened g) g) r -> diggable g r) as Hdd by (intros r (? & ? & ?); split; [done|]; cbn in *; set_solver).
    induction Hre as [Hs|s r Hs IH Hsm Hsc Hsr Hsd]; [eapply (reach_next g p p); [by apply reach_start|done..|by apply Hdd]|].
    eapply reach_next; [apply IH|done..|by apply Hdd].
  - intros q ->%list_elem_of_singleton _. done.
Qed.

Lemma windig_dug fuel : forall x y g, (size (closed g) < fuel)%nat -> exists g', windig fuel x y g = Done g' /\ dug g [(x, y)] g'.
Proof.
  induction fuel as [|fuel IH]; intros x y g Hf; [lia|]. cbn [windig].
  destruct (inside x y) eqn:Hin; cbn [negb].
  2: { exists g. split; [done|]. apply dug_nothing. constructor; [|constructor]. intros (Hi & _). cbn in Hi. congruence. }
  pose proof (proj1 (inside_spec x y) Hin) as [Hx Hy]. rewrite !cell_ok by lia. cbn [mbind outcome_bind].
  destruct (decide (diggable g (x, y))) as [Hd|Hd].
  2: { assert (bool_decide ((x, y) ∈ opened g) || bool_decide ((x, y) ∈ marks g) = true) as ->.
       { apply orb_true_iff. rewrite !bool_decide_eq_true. destruct (decide ((x, y) ∈ opened g)); [by left|]. destruct (decide ((x, y) ∈ marks g)); [by right|]. by destruct Hd. }
       exists g. split; [done|]. apply dug_nothing. by repeat constructor. }
  destruct Hd as (Hi & Ho & Hk). rewrite !bool_decide_eq_false_2 by done. cbn [orb mines set_opened].
  assert (diggable g (x, y)) as Hd by done.
  case_bool_decide as Hm; [eexists; split; [done|by apply dug_mine]|].
  destruct (num_beside_spec (mines g) x y Hin) as (n & -> & Hn & Hz). cbn [mbind outcome_bind].
  destruct (Z.eqb_spec n 0) as [Hn0|Hn0].
  - destruct (each_dug fuel (windig fuel) IH (around x y) (set_opened ({[(x, y)]} ∪ opened g) g)) as (g' & Hg & Hdug).
    { pose proof (left_less (list_to_set places) (opened g) (x, y)) as Hlt. unfold closed in *. cbn [opened set_opened].
      apply Nat.lt_le_trans with (size (list_to_set places ∖ opened g)); [|lia]. apply Hlt; [by apply elem_of_list_to_set, elem_of_places|done]. }
    exists g'. split; [done|]. apply dug_on; [done..|by apply Hz|done].
  - eexists. split; [done|]. apply dug_beside; [done..|]. by rewrite <- Hz.
Qed.

Lemma closed_size g : (size (closed g) < dig_fuel)%nat.
Proof.
  assert (size (closed g) <= size (list_to_set places : gset place))%nat as Hle by (apply subseteq_size, subseteq_difference_l; done).
  assert (size (list_to_set places : gset place) <= 480)%nat as H480; [by vm_compute|unfold dig_fuel; lia].
Qed.

#[global] Opaque dig_fuel.

(** What is reached and was not dug itself is no mine. *)
Lemma reach_no_mine g p c : reach g p c -> c = p \/ c ∉ mines g.
Proof.
  induction 1 as [Hs|q r Hq _ Hm Hc Hr Hd]; [by left|right]. destruct (decide (r = q)) as [->|Hne]; [done|by apply Hc].
Qed.

Lemma reach_diggable g p c : reach g p c -> diggable g c.
Proof. by induction 1. Qed.

Lemma reach_first g p c : reach g p c -> diggable g p.
Proof. by induction 1. Qed.

(** Everything that is reached is opened, and nothing else. *)
Lemma dug_opens g p g' : dug g [p] g' -> forall c, c ∈ opened g' <-> c ∈ opened g \/ reach g p c.
Proof.
  intros [M K O V C R S] c. split.
  - intros Hc. destruct (decide (c ∈ opened g)) as [|Hn]; [by left|right]. destruct (R c Hc Hn) as (q & ->%list_elem_of_singleton & Hr). done.
  - intros [Hc|Hr]; [by apply O|]. induction Hr as [Hs|q r Hq IH Hm Hcl Hr (Hi & _ & Hk)]; [apply S; [set_solver|done]|].
    eapply C; [exact IH| |done..]. by destruct (reach_diggable _ _ _ Hq) as (_ & ? & _).
Qed.

(** C37. Digging always comes to an end, within the fuel; it opens the place, and
    from places with no mine beside them everything around, on and on, and
    nothing else; it is the end of the game exactly when the place is a mine. *)
Theorem windig_opens x y g : exists g', windig dig_fuel x y g = Done g' /\ mines g' = mines g /\ marks g' = marks g /\
  (forall c, c ∈ opened g' <-> c ∈ opened g \/ reach g (x, y) c) /\
  (gameover g' = true <-> gameover g = true \/ (diggable g (x, y) /\ (x, y) ∈ mines g)).
Proof.
  destruct (windig_dug dig_fuel x y g (closed_size g)) as (g' & Hw & Hd). exists g'. split; [done|]. split; [apply Hd|]. split; [apply Hd|].
  split; [by apply dug_opens|]. rewrite (dug_over _ _ _ Hd). split; (intros [H|H]; [by left|right]).
  - destruct H as (c & Hc & Hn & Hm). destruct (dug_reach _ _ _ Hd c Hc Hn) as (p & ->%list_elem_of_singleton & Hr).
    destruct (reach_no_mine _ _ _ Hr) as [->|]; [|done]. split; [by eapply reach_first|done].
  - destruct H as [Hg Hm]. exists (x, y). split; [|split; [apply Hg|done]]. by apply (dug_start _ _ _ Hd); [apply list_elem_of_singleton|].
Qed.

(** * The first dig *)

(** [rand] gives no negative number. *)
Definition random (rands : list (Z * Z)) : Prop := Forall (fun r => 0 <= r.1 /\ 0 <= r.2) rands.

Lemma place_mine_spec rands x1 y1 : random rands -> forall s rands' s', place_mine rands x1 y1 s = Done (rands', s') ->
  random rands' /\ exists p, s' = {[p]} ∪ s /\ p ∉ s /\ inside p.1 p.2 = true /\ p ∉ around x1 y1.
Proof.
  induction 1 as [|[r1 r2] rands [H1 H2] Hr IH]; intros s rands' s'; [done|]. cbn [place_mine fst snd] in *.
  pose proof (Z.rem_bound_pos r1 30 H1 eq_refl). pose proof (Z.rem_bound_pos r2 16 H2 eq_refl).
  rewrite cell_ok by lia. cbn [mbind outcome_bind]. case_bool_decide as Hin; cbn [orb]; [apply IH|].
  destruct ((Z.abs _ <? 2) && _) eqn:Hnear; [apply IH|]. intros [= <- <-]. split; [done|]. eexists. split; [done|]. split; [done|].
  split; [apply inside_spec; cbn; lia|]. rewrite around_spec. rewrite andb_false_iff, !Z.ltb_ge in Hnear. lia.
Qed.

Lemma place_mines_spec x1 y1 n : forall rands s s', random rands -> place_mines n rands x1 y1 s = Done s' ->
  (forall p, p ∈ s -> inside p.1 p.2 = true /\ p ∉ around x1 y1) ->
  size s' = (size s + n)%nat /\ forall p, p ∈ s' -> inside p.1 p.2 = true /\ p ∉ around x1 y1.
Proof.
  induction n as [|n IH]; intros rands s s' Hr; cbn [place_mines]; [intros [= <-] Hs; split; [lia|done]|].
  destruct (place_mine rands x1 y1 s) as [[rands1 s1]| |] eqn:E; cbn [mbind outcome_bind]; [|done..]. intros Hp Hs.
  destruct (place_mine_spec _ _ _ Hr _ _ _ E) as (Hr1 & p & -> & Hn & Hi & Ha).
  destruct (IH _ _ _ Hr1 Hp) as [Hz Hall]; [intros q [->%elem_of_singleton|Hq]%elem_of_union; [done|by apply Hs]|].
  split; [|done]. rewrite Hz, size_union by set_solver. rewrite size_singleton. lia.
Qed.

(** The first dig is never a mine and, unless the place is marked, opens
    everything around it but the marks: the mines are 99, all of them inside, and
    none of them is there. *)
Theorem first_dig_opens rands x y g g1 : random rands -> mines g = ∅ -> opened g = ∅ -> gameover g = false ->
  inside x y = true -> (x, y) ∉ marks g -> wininit rands x y g = Done g1 ->
  size (mines g1) = 99%nat /\ (forall p, p ∈ mines g1 -> inside p.1 p.2 = true) /\
  exists g2, dig x y g1 = Done g2 /\ gameover g2 = false /\
    forall p, p ∈ around x y -> inside p.1 p.2 = true -> p ∉ marks g -> p ∈ opened g2.
Proof.
  intros Hr Hm Ho Hg Hin Hmark. unfold wininit. rewrite Hm. destruct (place_mines 99 rands x y ∅) as [s| |] eqn:E; cbn [mbind outcome_bind]; [|done..].
  intros [= <-]. destruct (place_mines_spec x y 99 _ _ _ Hr E) as [Hz Hall]; [intros p Hp; by apply not_elem_of_empty in Hp|]. clear E.
  split; [exact Hz|]. split; [intros p Hp; by apply Hall|]. pose proof (proj1 (inside_spec x y) Hin) as [Hx Hy].
  unfold dig. rewrite cell_ok by lia. cbn [mbind outcome_bind opened set_mines]. rewrite bool_decide_eq_false_2 by (rewrite Ho; apply not_elem_of_empty). cbn [negb].
  destruct (windig_opens x y (set_mines s g)) as (g2 & -> & Hm2 & Hk2 & Ho2 & Hv2). exists g2. split; [done|].
  assert (diggable (set_mines s g) (x, y)) as Hd by (split; [done|]; split; [cbn; rewrite Ho; apply not_elem_of_empty|done]).
  assert ((x, y) ∉ s) as Hxy by (intros Hs; apply (Hall _ Hs), around_spec; lia). split.
  - destruct (gameover g2); [|done]. destruct Hv2 as [Hv _]. destruct (Hv eq_refl) as [Hv3|[_ Hv3]]; [cbn in Hv3; congruence|done].
  - intros p Hp Hi Hpm. apply Ho2. right. eapply (reach_next _ _ (x, y)); [by apply reach_start|done| |done|].
    + intros q Hq _ Hs. by apply (Hall _ Hs).
    + split; [done|]. split; [cbn; rewrite Ho; apply not_elem_of_empty|done].
Qed.

Definition spread : list (Z * Z) := (fun i => (i, i / 30)) <$> seqZ 150 330.

Lemma first_dig_opens_witness : exists g1 g2, random spread /\ wininit spread 2 3 new_game = Done g1 /\ size (mines g1) = 99%nat /\
  dig 2 3 g1 = Done g2 /\ gameover g2 = false /\ (1, 2) ∈ opened g2.
Proof.
  assert (random spread) as Hr by (apply list.Forall_fmap, list.Forall_forall; intros i Hi%elem_of_seqZ; cbn; split; [lia|apply Z.div_pos; lia]).
  assert (exists g1, wininit spread 2 3 new_game = Done g1) as [g1 Hg1] by (eexists; vm_compute; reflexivity).
  destruct (first_dig_opens spread 2 3 new_game g1 Hr eq_refl eq_refl eq_refl eq_refl (not_elem_of_empty _) Hg1) as (Hz & _ & g2 & Hd & Hv & Ho).
  exists g1, g2. split; [exact Hr|]. split; [exact Hg1|]. split; [exact Hz|]. split; [exact Hd|]. split; [exact Hv|].
  apply Ho; [apply around_spec; lia|done|apply not_elem_of_empty].
Defined.

(** * A game *)

Record play := Play { px : Z; py : Z; inited : bool; marked : Z; fields : game }.
Inductive verdict := Goes_on | Won | Lost.

(** The cursor, in the order of the four tests. *)
Definition move_cursor (c x y : Z) : Z * Z :=
  let y := if ((c =? 257) || (c =? 107)) && (1 <? y) then y - 1 else y in
  let y := if ((c =? 258) || (c =? 106)) && (y <? 16) then y + 1 else y in
  let x := if ((c =? 260) || (c =? 104)) && (1 <? x) then x - 1 else x in
  let x := if ((c =? 259) || (c =? 108)) && (x <? 30) then x + 1 else x in
  (x, y).

(** A round of [winloop] for the key [c]. *)
Definition winloop_key (c : Z) (rands : list (Z * Z)) (p : play) : outcome (play * verdict) :=
  let '(x, y) := move_cursor c (px p) (py p) in
  '(init, g) ← (if (c =? 102) || (c =? 70) then
                  g ← (if inited p then Done (fields p) else wininit rands x y (fields p));
                  g ← dig x y g; Done (true, g)
                else Done (inited p, fields p));
  op ← cell (opened g) x y;
  '(n, g) ← (if ((c =? 83) || (c =? 115)) && negb op then
               mk ← cell (marks g) x y;
               Done (if (mk : bool) then (marked p - 1, set_marks (marks g ∖ {[(x, y)]}) g) else (marked p + 1, set_marks ({[(x, y)]} ∪ marks g) g))
             else Done (marked p, g));
  if checkwin g then Done (Play x y init n (set_gameover false g), Won)
  else if gameover g then Done (Play x y init n (set_gameover false g), Lost)
  else Done (Play x y init n g, Goes_on).

Definition start_play : play := Play 10 8 false 0 new_game.

Record play_ok (p : play) : Prop := {
  at_place : inside (px p) (py p) = true;
  marked_count : marked p = Z.of_nat (size (marks (fields p)));
  marks_closed : forall c, c ∈ marks (fields p) -> c ∉ opened (fields p);
  opened_inside : forall c, c ∈ opened (fields p) -> inside c.1 c.2 = true;
  not_inited : inited p = false -> mines (fields p) = ∅ /\ opened (fields p) = ∅;
  all_mines : inited p = true -> size (mines (fields p)) = 99%nat /\ forall c, c ∈ mines (fields p) -> inside c.1 c.2 = true }.

Lemma start_play_ok : play_ok start_play.
Proof. split; cbn; try done; intros c Hc; by apply not_elem_of_empty in Hc. Qed.

Lemma each_windig ps g : exists g', each (windig dig_fuel) ps g = Done g' /\ dug g ps g'.
Proof. apply (each_dug dig_fuel); [intros; by apply windig_dug|apply closed_size]. Qed.

(** However a place is dug, only places that can be dug are opened. *)
Lemma dig_dug x y g : inside x y = true -> exists ps g', dig x y g = Done g' /\ dug g ps g'.
Proof.
  intros Hin. pose proof (proj1 (inside_spec x y) Hin) as [Hx Hy]. unfold dig. rewrite cell_ok by lia. cbn [mbind outcome_bind]. case_bool_decide as Ho; cbn [negb].
  - unfold dblclick. rewrite Hin, cell_ok by lia. cbn [mbind outcome_bind negb]. rewrite bool_decide_eq_true_2 by done. cbn [negb].
    destruct (num_beside_spec (mines g) x y Hin) as (n & -> & _). destruct (num_beside_spec (marks g) x y Hin) as (k & -> & _). cbn [mbind outcome_bind].
    destruct (n =? k); cbn [negb]; [|exists [], g; split; [done|by apply dug_nothing]].
    destruct (each_windig (around x y) g) as (g' & Hg & Hd). eauto.
  - destruct (windig_dug dig_fuel x y g (closed_size g)) as (g' & Hg & Hd). eauto.
Qed.

Lemma dug_opened g ps g' c : dug g ps g' -> c ∈ opened g' -> c ∈ opened g \/ diggable g c.
Proof.
  intros Hd Hc. destruct (decide (c ∈ opened g)) as [|Hn]; [by left|right]. destruct (dug_reach _ _ _ Hd c Hc Hn) as (p & _ & Hr). by eapply reach_diggable.
Qed.

Lemma wininit_ok rands x y g : random rands -> mines g = ∅ -> exists o, wininit rands x y g = o /\
  match o with
  | Done g1 => opened g1 = opened g /\ marks g1 = marks g /\ gameover g1 = gameover g /\ size (mines g1) = 99%nat /\
      forall c, c ∈ mines g1 -> inside c.1 c.2 = true
  | Fault => False
  | NoFuel => True
  end.
Proof.
  intros Hr Hm. eexists. split; [done|]. unfold wininit. rewrite Hm.
  assert (forall n rands s, random rands -> place_mines n rands x y s <> Fault) as Hnf.
  { clear. induction n as [|n IH]; intros rands s Hr; cbn [place_mines]; [done|]. destruct (place_mine rands x y s) as [[rands1 s1]| |] eqn:E; cbn [mbind outcome_bind]; [|exfalso|done].
    - apply IH. by destruct (place_mine_spec _ _ _ Hr _ _ _ E).
    - revert E. clear IH. induction Hr as [|[r1 r2] rands [H1 H2] _ IH]; cbn [place_mine]; [done|].
      pose proof (Z.rem_bound_pos r1 30 H1 eq_refl). pose proof (Z.rem_bound_pos r2 16 H2 eq_refl). rewrite cell_ok by lia. cbn [mbind outcome_bind].
      by destruct (_ || _). }
  specialize (Hnf 99%nat rands ∅ Hr). destruct (place_mines 99 rands x y ∅) as [s| |] eqn:E; cbn [mbind outcome_bind]; [|done..].
  destruct (place_mines_spec x y 99 _ _ _ Hr E) as [Hz Hall]; [intros p Hp; by apply not_elem_of_empty in Hp|].
  cbn. split; [done|]. split; [done|]. split; [done|]. split; [by rewrite Hz, size_empty|]. intros c Hc. by apply Hall.
Qed.

Lemma move_cursor_inside c x y : inside x y = true -> inside (move_cursor c x y).1 (move_cursor c x y).2 = true.
Proof.
  rewrite !inside_spec. unfold move_cursor. intros [Hx Hy]. cbn [fst snd].
  destruct (((c =? 257) || (c =? 107)) && (1 <? y)) eqn:E1; [apply andb_true_iff in E1 as [_ E1%Z.ltb_lt]|];
  (destruct (((c =? 258) || (c =? 106)) && _) eqn:E2; [apply andb_true_iff in E2 as [_ E2%Z.ltb_lt]|]);
  (destruct (((c =? 260) || (c =? 104)) && (1 <? x)) eqn:E3; [apply andb_true_iff in E3 as [_ E3%Z.ltb_lt]|]);
  (destruct (((c =? 259) || (c =? 108)) && _) eqn:E4; [apply andb_true_iff in E4 as [_ E4%Z.ltb_lt]|]); cbn [fst snd]; lia.
Qed.

Lemma places_nodup : NoDup places.
Proof. apply (bool_decide_unpack _). by vm_compute. Qed.

Lemma closed_count g : Z.of_nat (size (closed g)) = Z.of_nat (length (List.filter (fun p => negb (bool_decide (p ∈ opened g))) places)).
Proof.
  assert (closed g = list_to_set (List.filter (fun p => negb (bool_decide (p ∈ opened g))) places)) as ->.
  { apply set_eq. intros c. unfold closed. rewrite elem_of_difference, !elem_of_list_to_set, !list_elem_of_In, filter_In, negb_true_iff, bool_decide_eq_false. done. }
  rewrite size_list_to_set; [done|]. apply NoDup_ListNoDup, List.NoDup_filter, NoDup_ListNoDup, places_nodup.
Qed.

Lemma closed_all g : opened g = ∅ -> size (closed g) = 480%nat.
Proof. intros Ho. unfold closed. rewrite Ho, difference_empty_L. by vm_compute. Qed.

Lemma elem_of_closed g c : c ∈ closed g <-> inside c.1 c.2 = true /\ c ∉ opened g.
Proof. unfold closed. by rewrite elem_of_difference, elem_of_list_to_set, elem_of_places. Qed.

(** When 99 places are closed and no mine is open, the closed places are the
    mines. *)
Lemma checkwin_spec p : play_ok p -> checkwin (fields p) = true -> (exists c, c ∈ mines (fields p) /\ c ∈ opened (fields p)) \/
  forall c, inside c.1 c.2 = true -> c ∈ opened (fields p) <-> c ∉ mines (fields p).
Proof.
  intros [_ _ _ _ Hni Hall] Hw. unfold checkwin in Hw. rewrite <- closed_count in Hw. apply Z.eqb_eq in Hw.
  destruct (inited p); [|rewrite closed_all in Hw by (by apply Hni); done]. destruct (Hall eq_refl) as [Hz Hi].
  destruct (decide (set_Exists (fun c => c ∈ opened (fields p)) (mines (fields p)))) as [(c & Hc & Ho)|Hno]; [left; by exists c|right].
  assert (mines (fields p) = closed (fields p)) as Heq.
  { apply set_subseteq_size_eq; [|lia]. intros c Hc. apply elem_of_closed. split; [by apply Hi|]. intros Ho. apply Hno. by exists c. }
  intros c Hc. rewrite Heq, elem_of_closed. destruct (decide (c ∈ opened (fields p))); naive_solver.
Qed.

Lemma dig_stage rands p x y c : play_ok p -> random rands -> inside x y = true ->
  match (if (c =? 102) || (c =? 70) then
           g ← (if inited p then Done (fields p) else wininit rands x y (fields p));
           g ← dig x y g; Done (true, g)
         else Done (inited p, fields p)) with
  | Done (init, g) => play_ok (Play x y init (marked p) g)
  | Fault => False
  | NoFuel => True
  end.
Proof.
  intros [Hpl Hmc Hcl Hoi Hni Hall] Hr Hin. destruct (_ || _); [|by split].
  assert (forall g, marks g = marks (fields p) -> opened g = opened (fields p) -> size (mines g) = 99%nat ->
    (forall c, c ∈ mines g -> inside c.1 c.2 = true) -> exists g', dig x y g = Done g' /\ play_ok (Play x y true (marked p) g')) as Hdig.
  { intros g Hk Ho Hz Hi. destruct (dig_dug x y g Hin) as (ps & g' & Hg & Hd). exists g'. split; [done|]. split; cbn [px py marked fields inited].
    - done.
    - by rewrite (dug_marks _ _ _ Hd), Hk.
    - rewrite (dug_marks _ _ _ Hd). intros q Hq Hq2. destruct (dug_opened _ _ _ _ Hd Hq2) as [Hq3|(_ & _ & Hq3)]; [|done]. rewrite Ho in Hq3. rewrite Hk in Hq. by apply (Hcl q).
    - intros q Hq. destruct (dug_opened _ _ _ _ Hd Hq) as [Hq3|(Hq3 & _)]; [|done]. rewrite Ho in Hq3. by apply Hoi.
    - done.
    - by rewrite (dug_mines _ _ _ Hd). }
  destruct (inited p) eqn:Hip; cbn [mbind outcome_bind].
  - destruct (Hall eq_refl) as [Hz Hi]. destruct (Hdig (fields p)) as (g' & -> & Hok); done.
  - destruct (Hni eq_refl) as [Hm Ho]. destruct (wininit_ok rands x y (fields p) Hr Hm) as (o & -> & Hok). destruct o as [g1| |]; cbn [mbind outcome_bind]; [|done..].
    destruct Hok as (Ho1 & Hk1 & _ & Hz & Hi). destruct (Hdig g1) as (g' & -> & Hok'); done.
Qed.

Lemma mark_stage p op x y c : play_ok p -> px p = x -> py p = y -> cell (opened (fields p)) x y = Done op ->
  exists n g, (if ((c =? 83) || (c =? 115)) && negb op then
     mk ← cell (marks (fields p)) x y;
     Done (if (mk : bool) then (marked p - 1, set_marks (marks (fields p) ∖ {[(x, y)]}) (fields p))
           else (marked p + 1, set_marks ({[(x, y)]} ∪ marks (fields p)) (fields p)))
   else Done (marked p, fields p)) = Done (n, g) /\ play_ok (Play x y (inited p) n g).
Proof.
  intros [Hpl Hmc Hcl Hoi Hni Hall] <- <- Hop. pose proof (proj1 (inside_spec _ _) Hpl) as [Hx Hy].
  destruct (((c =? 83) || (c =? 115)) && negb op) eqn:Ec; [|by exists (marked p), (fields p)].
  rewrite cell_ok in Hop by lia. injection Hop as <-. apply andb_true_iff in Ec as [_ Hno%negb_true_iff%bool_decide_eq_false].
  rewrite cell_ok by lia. cbn [mbind outcome_bind]. case_bool_decide as Hin; eexists _, _; (split; [done|]); split; cbn [px py marked fields inited marks opened mines set_marks]; try done.
  - rewrite Hmc, size_difference by set_solver. rewrite size_singleton.
    assert (size (marks (fields p)) <> 0%nat) by (intros Hz%size_empty_inv; set_solver). lia.
  - set_solver.
  - rewrite Hmc, size_union by set_solver. rewrite size_singleton. lia.
  - intros q [->%elem_of_singleton|Hq]%elem_of_union; [done|by apply Hcl].
Qed.



(** The test for a win comes before the test for the end: with one place left
    that is no mine, opening a mine wins. *)
Definition one_left : game :=
  let m := list_to_set (take 99 places) in Game m ∅ (list_to_set (drop 100 places)) false.

Example a_mine_wins :
  match winloop_key 102 [] (Play 1 1 true 0 one_left) with
  | Done (p', Won) => bool_decide ((1, 1) ∈ mines (fields p') ∩ opened (fields p')) && bool_decide ((7, 4) ∉ mines (fields p') ∪ opened (fields p'))
  | _ => false
  end = true.
Proof. vm_compute. reflexivity. Qed.

(** * The list of the best *)

(** An entry of [topID], [topT] and [topFROM], all of them arrays of 20. *)
Record entry := Entry { top_id : list Z; top_t : Z; top_from : list Z }.

(** [strcpy] into an array of [size] bytes. *)
Definition copy_into (size : Z) (s : list Z) : outcome (list Z) := if blen s <? size then Done s else Fault.

(** The names of two entries go through an array of 20 bytes, and so do the
    places, which may be longer. *)
Definition swap_entries (n n2 : nat) (a b : entry) (es : list entry) : outcome (list entry) :=
  tmp ← copy_into 20 (top_id a);
  tmpfrom ← copy_into 20 (top_from a);
  Done (<[n2 := Entry tmp (top_t a) tmpfrom]> (<[n := b]> es)).

Fixpoint inner_loop (fuel : nat) (n n2 : nat) (es : list entry) : outcome (list entry) :=
  match fuel with
  | O => NoFuel
  | S fuel =>
      if (20 <=? n2)%nat then Done es
      else
        match es !! n, es !! n2 with
        | Some a, Some b => es ← (if top_t b <? top_t a then swap_entries n n2 a b es else Done es); inner_loop fuel n (S n2) es
        | _, _ => Fault
        end
  end.
Fixpoint outer_loop (fuel : nat) (n : nat) (es : list entry) : outcome (list entry) :=
  match fuel with
  | O => NoFuel
  | S fuel => if (19 <=? n)%nat then Done es else es ← inner_loop 21 n (S n) es; outer_loop fuel (S n) es
  end.
Definition win_sort (es : list entry) : outcome (list entry) := outer_loop 20 0 es.

Fixpoint find_id (id : list Z) (es : list entry) (n : nat) : option nat :=
  match es with [] => None | e :: es => if bool_decide (top_id e = id) then Some n else find_id id es (S n) end.

(** [id] is an array of 20 bytes too, and [topFROM] one of 32. *)
Definition win_checkrec (userid fromhost : list Z) (dt : Z) (es : list entry) : outcome (list entry) :=
  id ← copy_into 20 userid;
  match find_id id es 0 with
  | Some n =>
      match es !! n with
      | Some e => if dt <? top_t e then from ← copy_into 32 fromhost; win_sort (<[n := Entry (top_id e) dt from]> es) else Done es
      | None => Fault
      end
  | None =>
      match es !! 19%nat with
      | Some e => if dt <? top_t e then from ← copy_into 32 fromhost; win_sort (<[19%nat := Entry id dt from]> es) else Done es
      | None => Fault
      end
  end.

(** After the inner loop no entry behind [n] is better than that at [n]. *)
Definition best_at (n k : nat) (es : list entry) : Prop :=
  forall a b i, es !! n = Some a -> (n < i < k)%nat -> es !! i = Some b -> top_t a <= top_t b.

Lemma swap_perm {A} (l : list A) i j a b : i <> j -> l !! i = Some a -> l !! j = Some b -> <[j := a]> (<[i := b]> l) ≡ₚ l.
Proof.
  intros Hij Ha Hb. apply Permutation_inj. split; [by rewrite !length_insert|].
  exists (fun k => if decide (k = i) then j else if decide (k = j) then i else k). split.
  - intros x y. repeat case_decide; congruence.
  - intros k. pose proof (lookup_lt_Some _ _ _ Ha). pose proof (lookup_lt_Some _ _ _ Hb). case_decide as H1; [subst k|case_decide as H2; [subst k|]].
    + rewrite list_lookup_insert_ne, list_lookup_insert_eq by lia. done.
    + rewrite list_lookup_insert_eq by (rewrite length_insert; lia). done.
    + by rewrite !list_lookup_insert_ne by done.
Qed.

(** What a pass leaves in place, and where the rest comes from. *)
Definition passed (n : nat) (es es' : list entry) : Prop :=
  es' ≡ₚ es /\ (forall i, (i < n)%nat -> es' !! i = es !! i) /\ forall i, (n <= i)%nat -> exists j, (n <= j)%nat /\ es' !! i = es !! j.

Lemma passed_refl n es : passed n es es.
Proof. split; [done|]. split; [done|]. intros i Hi. by exists i. Qed.

Lemma passed_trans n es es1 es2 : passed n es es1 -> passed n es1 es2 -> passed n es es2.
Proof.
  intros (P1 & L1 & R1) (P2 & L2 & R2). split; [by rewrite P2|]. split; [intros i Hi; by rewrite L2, L1|].
  intros i Hi. destruct (R2 i Hi) as (j & Hj & ->). by apply R1.
Qed.

Lemma passed_swap n n2 es a b : (n < n2)%nat -> es !! n = Some a -> es !! n2 = Some b -> passed n es (<[n2 := a]> (<[n := b]> es)).
Proof.
  intros Hn Ha Hb. pose proof (lookup_lt_Some _ _ _ Ha). pose proof (lookup_lt_Some _ _ _ Hb). split; [apply swap_perm; [lia|done..]|]. split.
  - intros i Hi. by rewrite !list_lookup_insert_ne by lia.
  - intros i Hi. destruct (decide (i = n2)) as [->|H2]; [exists n; split; [done|]; by rewrite list_lookup_insert_eq by (rewrite length_insert; lia)|].
    rewrite list_lookup_insert_ne by done. destruct (decide (i = n)) as [->|H1]; [exists n2; split; [lia|]; by rewrite list_lookup_insert_eq by lia|].
    exists i. split; [done|]. by rewrite list_lookup_insert_ne by done.
Qed.

Definition short (e : entry) : Prop := blen (top_id e) < 20 /\ blen (top_from e) < 20.

Lemma swap_entries_short n n2 a b es : short a -> swap_entries n n2 a b es = Done (<[n2 := a]> (<[n := b]> es)).
Proof.
  intros [Hi Hf]. unfold swap_entries, copy_into. destruct (Z.ltb_spec (blen (top_id a)) 20); [|lia]. destruct (Z.ltb_spec (blen (top_from a)) 20); [|lia]. by destruct a.
Qed.

Lemma inner_spec n fuel : forall n2 es, (20 - n2 < fuel)%nat -> (n < n2 <= 20)%nat -> length es = 20%nat -> Forall short es -> best_at n n2 es ->
  exists es', inner_loop fuel n n2 es = Done es' /\ passed n es es' /\ best_at n 20 es'.
Proof.
  induction fuel as [|fuel IH]; intros n2 es Hf Hn Hl Hsh Hb; [lia|]. cbn [inner_loop]. destruct (Nat.leb_spec 20 n2).
  { assert (n2 = 20%nat) as -> by lia. exists es. split; [done|]. by split; [apply passed_refl|]. }
  destruct (lookup_lt_is_Some_2 es n) as [a Ha]; [lia|]. destruct (lookup_lt_is_Some_2 es n2) as [b Hb2]; [lia|]. rewrite Ha, Hb2.
  assert (exists es1, (if top_t b <? top_t a then swap_entries n n2 a b es else Done es) = Done es1 /\ passed n es es1 /\ length es1 = 20%nat /\ best_at n (S n2) es1)
    as (es1 & -> & Hp1 & Hl1 & Hb1).
  { rewrite swap_entries_short by (eapply list.Forall_lookup_1; eauto). destruct (Z.ltb_spec (top_t b) (top_t a)) as [Hlt|Hge]; (eexists; split; [done|]).
    - split; [by apply passed_swap; [lia|..]|]. split; [by rewrite !length_insert|]. intros x y i Hx Hi Hy.
      rewrite list_lookup_insert_ne, list_lookup_insert_eq in Hx by lia. injection Hx as <-. destruct (decide (i = n2)) as [->|Hne].
      + rewrite list_lookup_insert_eq in Hy by (rewrite length_insert; lia). injection Hy as <-. lia.
      + rewrite !list_lookup_insert_ne in Hy by lia. specialize (Hb a y i Ha ltac:(lia) Hy). lia.
    - split; [apply passed_refl|]. split; [done|]. intros x y i Hx Hi Hy. rewrite Ha in Hx. injection Hx as <-. destruct (decide (i = n2)) as [->|Hne].
      + rewrite Hb2 in Hy. injection Hy as <-. lia.
      + apply (Hb a y i Ha ltac:(lia) Hy). }
  cbn [mbind outcome_bind]. destruct (IH (S n2) es1) as (es2 & -> & Hp2 & Hb2'); [lia|lia|done|by rewrite (proj1 Hp1)|done|]. exists es2. split; [done|]. split; [by eapply passed_trans|done].
Qed.

(** The first [n] entries are in order, and no other is better. *)
Definition ordered (n : nat) (es : list entry) : Prop := forall i, (i < n)%nat -> best_at i 20 es.

Lemma ordered_pass n es es' : length es = 20%nat -> passed n es es' -> ordered n es -> ordered n es'.
Proof.
  intros Hl (_ & L & R) Ho i Hi a b j Ha Hj Hb. rewrite L in Ha by done. destruct (decide (j < n)%nat) as [Hjn|Hjn].
  - rewrite L in Hb by done. by apply (Ho i Hi a b j).
  - destruct (R j ltac:(lia)) as (k & Hk & Hjk). rewrite Hjk in Hb. pose proof (lookup_lt_Some _ _ _ Hb). apply (Ho i Hi a b k); [done|lia|done].
Qed.

Lemma outer_spec fuel : forall n es, (20 <= n + fuel)%nat -> (n <= 19)%nat -> length es = 20%nat -> Forall short es -> ordered n es ->
  exists es', outer_loop fuel n es = Done es' /\ es' ≡ₚ es /\ ordered 19 es'.
Proof.
  induction fuel as [|fuel IH]; intros n es Hf Hn Hl Hsh Ho; [lia|]. cbn [outer_loop]. destruct (Nat.leb_spec 19 n).
  { assert (n = 19%nat) as -> by lia. by exists es. }
  destruct (inner_spec n 21 (S n) es) as (es1 & -> & Hp & Hb); [lia|lia|done|done|intros a b i Ha Hi Hb; lia|]. cbn [mbind outcome_bind].
  destruct (IH (S n) es1) as (es2 & -> & Hp2 & Ho2); [lia|lia|by rewrite (proj1 Hp)|by rewrite (proj1 Hp)| |exists es2; split; [done|]; split; [by rewrite Hp2, (proj1 Hp)|done]].
  intros i Hi. destruct (decide (i = n)) as [->|Hne]; [done|]. apply (ordered_pass n es); [done..|lia].
Qed.

Lemma find_id_spec id l : forall k n, find_id id l k = Some n -> (k <= n)%nat /\ exists e, l !! (n - k)%nat = Some e /\ top_id e = id.
Proof.
  induction l as [|e l IH]; intros k n; [done|]. cbn [find_id]. case_bool_decide as Hid.
  - intros [= <-]. split; [lia|]. rewrite Nat.sub_diag. by exists e.
  - intros Hf. destruct (IH _ _ Hf) as (Hk & x & Hx & Hi). split; [lia|]. exists x. replace (n - k)%nat with (S (n - S k)) by lia. done.
Qed.

(** A time that is better than the one of its name, or than the last one when
    the name is not in the list, takes its place and the list is then in order;
    another time changes nothing. *)
Theorem win_checkrec_records userid fromhost dt es : length es = 20%nat -> Forall short es -> blen userid < 20 -> blen fromhost < 20 ->
  exists es' n e, win_checkrec userid fromhost dt es = Done es' /\
    n = default 19%nat (find_id userid es 0) /\ es !! n = Some e /\
    if dt <? top_t e then ordered 19 es' /\ es' ≡ₚ <[n := Entry userid dt fromhost]> es else es' = es.
Proof.
  intros Hl Hsh Hu Hh. unfold win_checkrec, copy_into. destruct (Z.ltb_spec (blen userid) 20); [|lia]. destruct (Z.ltb_spec (blen fromhost) 32); [|lia]. cbn [mbind outcome_bind].
  assert (forall n, (n < 20)%nat -> exists es', win_sort (<[n := Entry userid dt fromhost]> es) = Done es' /\ es' ≡ₚ <[n := Entry userid dt fromhost]> es /\ ordered 19 es') as Hsort.
  { intros n Hn. apply outer_spec; [lia|lia|by rewrite length_insert|by apply list.Forall_insert|intros i Hi; lia]. }
  destruct (find_id userid es 0) as [n|] eqn:Hf; cbn [default].
  - destruct (find_id_spec _ _ _ _ Hf) as (_ & e & He & Hid). rewrite Nat.sub_0_r in He. rewrite He, Hid.
    pose proof (lookup_lt_Some _ _ _ He). destruct (dt <? top_t e) eqn:Hd; [|exists es, n, e; by rewrite Hd].
    destruct (Hsort n) as (es' & -> & Hp & Ho); [lia|]. exists es', n, e. by rewrite Hd.
  - destruct (lookup_lt_is_Some_2 es 19) as [e He]; [lia|]. rewrite He. destruct (dt <? top_t e) eqn:Hd; [|exists es, 19%nat, e; by rewrite Hd].
    destruct (Hsort 19%nat) as (es' & -> & Hp & Ho); [lia|]. exists es', 19%nat, e. by rewrite Hd.
Qed.

Lemma win_checkrec_records_witness : let es := replicate 19 (Entry (bytes "null.") 999 (bytes "unknown.")) ++ [Entry (bytes "ann") 500 (bytes "x")] in
  length es = 20%nat /\ Forall short es /\ exists es' n e, win_checkrec (bytes "ann") (bytes "y") 77 es = Done es' /\ n = 19%nat /\ es !! n = Some e /\
    es' !! 0%nat = Some (Entry (bytes "ann") 77 (bytes "y")) /\
    if 77 <? top_t e then ordered 19 es' /\ es' ≡ₚ <[n := Entry (bytes "ann") 77 (bytes "y")]> es else es' = es.
Proof.
  intros es. assert (length es = 20%nat) as Hl by done. split; [exact Hl|].
  assert (Forall short es) as Hs by (repeat constructor). split; [exact Hs|].
  destruct (win_checkrec_records (bytes "ann") (bytes "y") 77 es Hl Hs eq_refl eq_refl) as (es' & n & e & H1 & H2 & H3 & H4).
  exists es', n, e. split; [exact H1|]. split; [rewrite H2; by vm_compute|]. split; [exact H3|]. split; [|exact H4].
  assert (win_checkrec (bytes "ann") (bytes "y") 77 es = Done (Entry (bytes "ann") 77 (bytes "y") :: replicate 19 (Entry (bytes "null.") 999 (bytes "unknown.")))) as E by (vm_compute; reflexivity).
  rewrite E in H1. by injection H1 as <-.
Defined.
