(* ===== verification/Pop3.v ===== *)
(** The server of mail: [util/bbspop3d.c], from the greeting to the end of a
    connection. The log is left out, and what the daemon does before it answers
    (sockets, processes, the query of RFC 931). *)
From S2P Require Import Prelude Helper Mention PostParse File.
From stdpp Require Import gmap.
#[local] Open Scope Z_scope.

(** * Data *)

(** The fields of [struct userec] that the server looks at. *)
Record user := User_ { userid : list Z; passwd : list Z; numlogins : Z }.

(** A [struct fileheader]: what [fcache] has of it. *)
Record mail := Mail { filename : list Z; owner : list Z; title : list Z; accessed : Z }.

Definition set_accessed (v : Z) (m : mail) : mail := Mail (filename m) (owner m) (title m) v.

(** [struct fileheader] on disk: where its fields are. *)
Definition sizeof_fileheader : Z := 256.
Definition owner_offset : Z := 80.
Definition sizeof_owner : Z := 80.
Definition title_offset : Z := 160.

Inductive state := CONNECT | LOGIN.
#[export] Instance state_eq : EqDecision state.
Proof. solve_decision. Defined.

(** The server, and the files it sees: those of the accounts and of mail. *)
Record server := Server {
  state_of : state; LowUserid : list Z; currentuser : user; fcache : list mail; postlen : list Z;
  totalnum : Z; totalbyte : Z; markdel : Z; idletime : Z;
  sent : list Z; gone : bool; passwds : option (list user); fs : files }.

Definition set_LowUserid (v : list Z) (s : server) : server :=
  Server (state_of s) v (currentuser s) (fcache s) (postlen s) (totalnum s) (totalbyte s) (markdel s) (idletime s) (sent s) (gone s) (passwds s) (fs s).
Definition set_currentuser (v : user) (s : server) : server :=
  Server (state_of s) (LowUserid s) v (fcache s) (postlen s) (totalnum s) (totalbyte s) (markdel s) (idletime s) (sent s) (gone s) (passwds s) (fs s).
Definition set_mails (c : list mail) (l : list Z) (n b : Z) (s : server) : server :=
  Server (state_of s) (LowUserid s) (currentuser s) c l n b (markdel s) (idletime s) (sent s) (gone s) (passwds s) (fs s).
Definition set_marks (c : list mail) (n : Z) (s : server) : server :=
  Server (state_of s) (LowUserid s) (currentuser s) c (postlen s) (totalnum s) (totalbyte s) n (idletime s) (sent s) (gone s) (passwds s) (fs s).
Definition set_idletime (v : Z) (s : server) : server :=
  Server (state_of s) (LowUserid s) (currentuser s) (fcache s) (postlen s) (totalnum s) (totalbyte s) (markdel s) v (sent s) (gone s) (passwds s) (fs s).
Definition set_sent (v : list Z) (s : server) : server :=
  Server (state_of s) (LowUserid s) (currentuser s) (fcache s) (postlen s) (totalnum s) (totalbyte s) (markdel s) (idletime s) v (gone s) (passwds s) (fs s).
Definition set_gone (s : server) : server :=
  Server (state_of s) (LowUserid s) (currentuser s) (fcache s) (postlen s) (totalnum s) (totalbyte s) (markdel s) (idletime s) (sent s) true (passwds s) (fs s).
Definition set_state (v : state) (s : server) : server :=
  Server v (LowUserid s) (currentuser s) (fcache s) (postlen s) (totalnum s) (totalbyte s) (markdel s) (idletime s) (sent s) (gone s) (passwds s) (fs s).
Definition set_files (p : option (list user)) (v : files) (s : server) : server :=
  Server (state_of s) (LowUserid s) (currentuser s) (fcache s) (postlen s) (totalnum s) (totalbyte s) (markdel s) (idletime s) (sent s) (gone s) p v.

(** Before the first command; what was in [currentuser] is zero. *)
Definition Init (p : option (list user)) (v : files) : server :=
  Server CONNECT [] (User_ [] [] 0) [] [] 0 0 0 0 [] false p v.

Definition BUFSIZE : Z := 1024.

(** * Output *)

(** [sendbuf] has [BUFSIZE] bytes, two for the end of the line and one for NUL. *)
Definition outs (str : list Z) (s : server) : outcome server :=
  if blen str + 3 <=? BUFSIZE then Done (set_sent (sent s ++ str ++ [13; 10]) s) else Fault.

(** The last byte of each line that [fgets] reads is cut off. *)
Fixpoint outfile_loop (fuel : nat) (linebuf text : list Z) (linenum : Z) (s : server) : outcome server :=
  match fuel with
  | O => NoFuel
  | S fuel =>
      r ← fgets linebuf 256 text;
      match r with
      | None => Done s
      | Some (linebuf, text) =>
          if linenum <=? 0 then Done s
          else
            n ← strlen linebuf 0;
            linebuf ← wr linebuf (n - 1) 0;
            line ← cstring linebuf 0;
            s ← outs (if bool_decide (line = bytes ".") then bytes ".." else line) s;
            outfile_loop fuel linebuf text (linenum - 1) s
      end
  end.

Definition outfile (name : list Z) (linenum : Z) (s : server) : outcome server :=
  s ← (match fs s !! name with
       | Some text => if negb (linenum =? 0) then outfile_loop (length text + 1) (replicate 256 0) text linenum s else Done s
       | None => Done s
       end);
  outs (bytes ".") s.

(** * Words *)

Definition Isspace (ch : Z) : bool := (ch =? 32) || (ch =? 9) || (ch =? 10) || (ch =? 13).

Fixpoint skip_space (str : list Z) : list Z :=
  match str with c :: str' => if Isspace c then skip_space str' else str | [] => [] end.
Fixpoint take_word (str : list Z) : list Z * list Z :=
  match str with
  | [] => ([], [])
  | c :: str => if Isspace c then ([], str) else let '(w, r) := take_word str in (c :: w, r)
  end.

(** The word, and what is behind the blank after it. *)
Definition nextword (str : list Z) : list Z * list Z := take_word (skip_space str).
Definition nextwordlower (str : list Z) : list Z * list Z := let '(w, r) := nextword str in (map tolower w, r).

Definition atoi (w : list Z) : outcome Z := strtol (w ++ [0]) 0.

Definition quoted (w : list Z) : list Z := [34] ++ w ++ [34].

(** * Mailboxes *)

Definition maildir (low : list Z) : list Z := bytes "mail/" ++ [toupper (default 0 (head low))] ++ bytes "/" ++ low ++ bytes "/".
Definition mail_path (low name : list Z) : list Z := maildir low ++ name.

(** What is before the first [c]; all of it when there is none. *)
Fixpoint before (c : Z) (s : list Z) : list Z :=
  match s with [] => [] | x :: s => if x =? c then [] else x :: before c s end.

Definition SITE : list Z := bytes ".bbs@MSIA.pine.ncu.edu.tw".

(** The loop of [Login_init] for a record as it is on disk. *)
Definition init_mail (fs : files) (low raw : list Z) : outcome (mail * Z) :=
  name ← cstring raw 0;
  own ← cstring raw owner_offset;
  ttl ← cstring raw title_offset;
  own ← (if existsb (Z.eqb 64) own then Done own
         else let own := before 32 own ++ SITE in if blen own <? sizeof_owner then Done own else Fault);
  let size := match fs !! mail_path low name with Some text => blen text | None => 0 end in
  Done (Mail name own ttl 32, i32 (size + blen own + 10 + blen ttl + 10 + 40)).

Fixpoint init_loop (n : nat) (fs : files) (low dir : list Z) (bytes_ : Z) : outcome (list mail * list Z * Z) :=
  match n with
  | O => Done ([], [], bytes_)
  | S n =>
      raw ← rdn dir 0 sizeof_fileheader;
      '(m, len) ← init_mail fs low raw;
      '(ms, lens, bytes_) ← init_loop n fs low (drop (Z.to_nat sizeof_fileheader) dir) (i32 (bytes_ + len));
      Done (m :: ms, len :: lens, bytes_)
  end.

(** Memory is there for the table, and the file is read in one piece. *)
Definition Login_init (s : server) : outcome server :=
  match fs s !! mail_path (LowUserid s) (bytes ".DIR") with
  | None | Some [] => Done (set_mails (fcache s) (postlen s) 0 0 s)
  | Some dir =>
      let total := i32 (Z.quot (blen dir) sizeof_fileheader) in
      '(ms, lens, b) ← init_loop (Z.to_nat total) (fs s) (LowUserid s) dir 0;
      Done (set_mails ms lens total b s)
  end.

(** What is read into [currentmail] is a record, or the rest of the file over the
    last one; [new_] is what is written to the new file so far. *)
Fixpoint delete_loop (fuel : nat) (currentmail dir : list Z) (i : Z) (cache : list mail) (total : Z) (low new_ : list Z) (count : Z) (fs : files)
    : outcome (list Z * Z * files) :=
  match fuel with
  | O => NoFuel
  | S fuel =>
      match dir with
      | [] => Done (new_, count, fs)
      | _ =>
          let got := take (Z.to_nat sizeof_fileheader) dir in
          let currentmail := got ++ drop (length got) currentmail in
          let rest := drop (Z.to_nat sizeof_fileheader) dir in
          keep ← (if total <=? i then Done true
                  else match cache !! Z.to_nat i with Some m => Done (accessed m =? 32) | None => Fault end);
          if (keep : bool) then delete_loop fuel currentmail rest (i + 1) cache total low (new_ ++ currentmail) (count + 1) fs
          else
            name ← cstring currentmail 0;
            delete_loop fuel currentmail rest (i + 1) cache total low new_ count (unlink fs (mail_path low name))
      end
  end.

(** The new file is not emptied when it is opened. *)
Definition do_delete (s : server) : outcome server :=
  let fpath := mail_path (LowUserid s) (bytes ".DIR") in
  let fnew := mail_path (LowUserid s) (bytes "pop3.DIR") in
  match fs s !! fpath with
  | None => Done s
  | Some dir =>
      let old := default [] (fs s !! fnew) in
      '(new_, count, fs1) ← delete_loop (length dir + 1) (replicate (Z.to_nat sizeof_fileheader) 0) dir 0 (fcache s) (totalnum s) (LowUserid s) [] 0
                              (<[fnew := old]> (fs s));
      let fs1 := <[fnew := new_ ++ drop (length new_) old]> fs1 in
      let fs1 := unlink fs1 fpath in
      let fs1 := if negb (count =? 0) then default fs1 (rename fs1 fnew fpath) else unlink fs1 fnew in
      Done (set_files (passwds s) fs1 s)
  end.

(** * Accounts *)

(** [currentuser] is left with the account that was read last. *)
Fixpoint find_user (name : list Z) (recs : list user) (current : user) : option (list Z) * user :=
  match recs with
  | [] => (None, current)
  | u :: recs =>
      if numlogins u <=? 0 then find_user name recs u
      else if strcaseeq name (userid u) then (Some (userid u), u) else find_user name recs u
  end.

Definition get_userdata (name : list Z) (s : server) : option (list Z) * server :=
  match passwds s with
  | None => (None, s)
  | Some recs => let '(found, u) := find_user name recs (currentuser s) in (found, set_currentuser u s)
  end.

(** [crypt] of the system reads no more of the password than [pwbuf] holds, and
    may fail. [hostname]: the name of the machine. *)
Section Commands.
Context (crypt : list Z -> list Z -> option (list Z)) (hostname : list Z).

Definition checkpasswd (passwd test : list Z) : outcome bool :=
  match crypt (take 14 test) passwd with Some pw => Done (bool_decide (pw = passwd)) | None => Fault end.

Definition unknown (w : list Z) (s : server) : outcome server := outs (bytes "-ERR Unknown command: " ++ quoted w ++ bytes ".") s.
Definition unknown_user (w : list Z) (s : server) : outcome server := outs (bytes "-ERR Unknown user: " ++ quoted w ++ bytes ".") s.
Definition too_few (w : list Z) (s : server) : outcome server := outs (bytes "-ERR Too few arguments for the " ++ w ++ bytes " command.") s.

Definition User (msg : list Z) (s : server) : outcome server :=
  if bool_decide (state_of s = LOGIN) then unknown (bytes "user") s
  else
    let '(cmd, msg) := nextwordlower msg in
    if bool_decide (cmd = []) then too_few (bytes "user") s
    else
      (** [strstr]. *)
      match find_sub (bytes ".bbs") cmd with
      | None => unknown_user cmd s
      | Some _ =>
          let cmd := before 46 cmd in
          let '(r, s) := get_userdata cmd s in
          match r with
          | Some cmd =>
              if blen cmd <? 20 then outs (bytes "+OK Password required for " ++ cmd ++ bytes ".bbs.") (set_LowUserid cmd s) else Fault
          | None => unknown_user cmd s
          end
      end.

Definition Pass (msg : list Z) (s : server) : outcome server :=
  if bool_decide (state_of s = LOGIN) then unknown (bytes "pass") s
  else
    let '(cmd, msg) := nextword msg in
    if bool_decide (cmd = []) then too_few (bytes "pass") s
    else if bool_decide (LowUserid s = []) then outs (bytes "-ERR need a USER") s
    else
      ok ← checkpasswd (passwd (currentuser s)) cmd;
      if negb ok then
        s ← outs (bytes "-ERR Password supplied for " ++ quoted (LowUserid s ++ bytes ".bbs") ++ bytes " is incorrect.") s;
        Done (set_LowUserid [] s)
      else
        s ← Login_init (set_state LOGIN s);
        outs (bytes "+OK " ++ LowUserid s ++ bytes " has " ++ decimal (totalnum s) ++ bytes " message(s) (" ++ decimal (totalbyte s) ++ bytes " octets).") s.

(** The message of a number, or the reply that there is none. *)
Definition chosen (num : Z) (again : list Z) (s : server) : outcome (mail * Z + list Z) :=
  if (num <=? 0) || (totalnum s <? num) then Done (inr (bytes "-ERR Message " ++ decimal num ++ bytes " does not exist."))
  else
    match fcache s !! Z.to_nat (num - 1), postlen s !! Z.to_nat (num - 1) with
    | Some m, Some len =>
        if accessed m =? 88 then Done (inr (bytes "-ERR Message " ++ decimal num ++ again)) else Done (inl (m, len))
    | _, _ => Fault
    end.

Definition been_deleted : list Z := bytes " has been deleted.".
Definition already_deleted : list Z := bytes " has already been deleted.".

Definition Retr (msg : list Z) (s : server) : outcome server :=
  if negb (bool_decide (state_of s = LOGIN)) then unknown (bytes "retr") s
  else
    let '(cmd, msg) := nextword msg in
    if bool_decide (cmd = []) then too_few (bytes "retr") s
    else
      num ← atoi cmd;
      c ← chosen num been_deleted s;
      match c with
      | inr e => outs e s
      | inl (m, len) =>
          s ← outs (bytes "+OK " ++ decimal len ++ bytes " octets") s;
          s ← outs (bytes "From: " ++ owner m) s;
          s ← outs (bytes "To: " ++ userid (currentuser s) ++ SITE) s;
          s ← outs (bytes "Subject: " ++ title m) s;
          s ← outs [] s;
          outfile (mail_path (LowUserid s) (filename m)) 99999 s
      end.

Definition Dele (msg : list Z) (s : server) : outcome server :=
  if negb (bool_decide (state_of s = LOGIN)) then unknown (bytes "dele") s
  else
    let '(cmd, msg) := nextword msg in
    if bool_decide (cmd = []) then too_few (bytes "dele") s
    else
      num ← atoi cmd;
      c ← chosen num already_deleted s;
      match c with
      | inr e => outs e s
      | inl (m, _) =>
          let num := num - 1 in
          outs (bytes "+OK Message " ++ decimal num ++ been_deleted)
            (set_marks (<[Z.to_nat num := set_accessed 88 m]> (fcache s)) (i32 (markdel s + 1)) s)
      end.

Definition Stat (s : server) : outcome server :=
  if negb (bool_decide (state_of s = LOGIN)) then unknown (bytes "stat") s
  else outs (bytes "+OK " ++ decimal (totalnum s) ++ bytes " " ++ decimal (totalbyte s)) s.

(** The loop over the first [totalnum] places of [fcache]. *)
Definition Rset (s : server) : outcome server :=
  if negb (bool_decide (state_of s = LOGIN)) then unknown (bytes "rset") s
  else
    let n := Z.to_nat (totalnum s) in
    if (length (fcache s) <? n)%nat then Fault
    else outs (bytes "+OK Maildrop has " ++ decimal (totalnum s) ++ bytes " messages (" ++ decimal (totalbyte s) ++ bytes " octets)")
      (set_marks ((set_accessed 32 <$> take n (fcache s)) ++ drop n (fcache s)) 0 s).

(** The loop of [List] and [Uidl] over the messages that are not deleted. *)
Fixpoint each_left (line : Z -> mail -> Z -> list Z) (i : Z) (ms : list mail) (lens : list Z) (s : server) : outcome server :=
  match ms, lens with
  | m :: ms, len :: lens => s ← (if accessed m =? 32 then outs (line (i + 1) m len) s else Done s); each_left line (i + 1) ms lens s
  | [], [] => Done s
  | _, _ => Fault
  end.

Definition listing (line : Z -> mail -> Z -> list Z) (s : server) : outcome server :=
  let n := Z.to_nat (totalnum s) in
  if (length (fcache s) <? n)%nat then Fault
  else s ← each_left line 0 (take n (fcache s)) (take n (postlen s)) s; outs (bytes ".") s.

Definition list_line (i : Z) (m : mail) (len : Z) : list Z := decimal i ++ bytes " " ++ decimal len.
Definition uidl_line (i : Z) (m : mail) (len : Z) : list Z := decimal i ++ bytes " " ++ filename m.

Definition List (msg : list Z) (s : server) : outcome server :=
  if negb (bool_decide (state_of s = LOGIN)) then unknown (bytes "list") s
  else
    let '(cmd, msg) := nextword msg in
    if bool_decide (cmd = []) then
      s ← outs (bytes "+OK " ++ decimal (totalnum s) ++ bytes " messages (" ++ decimal (totalbyte s) ++ bytes " octets)") s;
      listing list_line s
    else
      i ← atoi cmd;
      c ← chosen i been_deleted s;
      outs (match c with inr e => e | inl (m, len) => bytes "+OK " ++ list_line i m len end) s.

Definition Uidl (msg : list Z) (s : server) : outcome server :=
  if negb (bool_decide (state_of s = LOGIN)) then unknown (bytes "uidl") s
  else
    let '(cmd, msg) := nextword msg in
    if bool_decide (cmd = []) then s ← outs (bytes "+OK") s; listing uidl_line s
    else
      i ← atoi cmd;
      c ← chosen i been_deleted s;
      outs (match c with inr e => e | inl (m, len) => bytes "+OK " ++ uidl_line i m len end) s.

Definition Last (s : server) : outcome server :=
  if negb (bool_decide (state_of s = LOGIN)) then unknown (bytes "last") s
  else outs (bytes "+OK " ++ decimal (totalnum s) ++ bytes " is the last message seen.") s.

Definition Noop (s : server) : outcome server := outs (bytes "+OK") s.

Definition Quit (s : server) : outcome server :=
  s ← (if bool_decide (state_of s = LOGIN) && negb (markdel s =? 0) then do_delete s else Done s);
  s ← outs (bytes "+OK InternetBBS Pop server at " ++ hostname ++ bytes " signing off.") s;
  Done (set_gone s).

(** * The connection *)

Definition cmdlists : list (list Z * (list Z -> server -> outcome server)) :=
  [(bytes "retr", Retr); (bytes "dele", Dele); (bytes "user", User); (bytes "pass", Pass); (bytes "stat", fun _ => Stat);
   (bytes "list", List); (bytes "uidl", Uidl); (bytes "quit", fun _ => Quit); (bytes "rset", fun _ => Rset); (bytes "last", fun _ => Last);
   (bytes "noop", fun _ => Noop)].

Fixpoint find_command (cmd : list Z) (cs : list (list Z * (list Z -> server -> outcome server))) : option (list Z -> server -> outcome server) :=
  match cs with [] => None | (n, f) :: cs => if bool_decide (cmd = n) then Some f else find_command cmd cs end.

(** The end of the line is cut off in [inbuf]: what [fgets] left as the last byte,
    and a carriage return before it. *)
Definition cut_line (inbuf : list Z) : outcome (list Z) :=
  n ← strlen inbuf 0;
  inbuf ← wr inbuf (n - 1) 0;
  n ← strlen inbuf 0;
  c ← rd inbuf (n - 1);
  inbuf ← (if c =? 13 then wr inbuf (n - 1) 0 else Done inbuf);
  cstring inbuf 0.

Definition serve_line (inbuf : list Z) (s : server) : outcome server :=
  let s := set_idletime 0 s in
  line ← cut_line inbuf;
  let '(cmd, msg) := nextwordlower line in
  if bool_decide (cmd = []) then Done s
  else
    match find_command cmd cmdlists with
    | None => unknown cmd s
    | Some f => f msg s
    end.

(** An alarm of [POP3_TIMEOUT] seconds without a line. *)
Definition pop3_timeout (s : server) : server :=
  let s := set_idletime (idletime s + 1) s in if 5 <? idletime s then set_gone s else s.

(** What happens to a connection: a line that [fgets] has read, the end of the
    input, an alarm, and what others do to the files. *)
Inductive event := Typed (inbuf : list Z) | End_of_input | Alarm | Others (p : option (list user)) (v : files).

Definition serve_event (e : event) (s : server) : outcome server :=
  if gone s then Done (match e with Others p v => set_files p v s | _ => s end)
  else
    match e with
    | Typed inbuf => serve_line inbuf s
    | End_of_input => Done (set_gone s)
    | Alarm => Done (pop3_timeout s)
    | Others p v => Done (set_files p v s)
    end.

Fixpoint serve (es : list event) (s : server) : outcome server :=
  match es with [] => Done s | e :: es => s ← serve_event e s; serve es s end.

(** The child process of a connection. *)
Definition connection (p : option (list user)) (v : files) (es : list event) : outcome server :=
  s ← outs (bytes "+OK InternetBBS Pop server at " ++ hostname ++ bytes " starting.") (Init p v); serve es s.

End Commands.

(** * What is sent *)

Definition wire (lines : list (list Z)) : list Z := mjoin ((fun l => l ++ [13; 10]) <$> lines).

Definition say (lines : list (list Z)) (s : server) : server := set_sent (sent s ++ wire lines) s.

Lemma wire_app a b : wire (a ++ b) = wire a ++ wire b.
Proof. unfold wire. by rewrite fmap_app, join_app. Qed.

Lemma say_say a b s : say b (say a s) = say (a ++ b) s.
Proof. unfold say. destruct s. cbn. by rewrite wire_app, app_assoc. Qed.

Lemma say_nil s : say [] s = s.
Proof. unfold say. destruct s. cbn. by rewrite app_nil_r. Qed.

Lemma outs_ok str s : blen str <= 1021 -> outs str s = Done (say [str] s).
Proof. intros. unfold outs, say, BUFSIZE, wire. destruct (Z.leb_spec (blen str + 3) 1024); [|lia]. cbn. by rewrite app_nil_r. Qed.

Lemma outs_say pre str s : blen str <= 1021 -> outs str (say pre s) = Done (say (pre ++ [str]) s).
Proof. intros. by rewrite outs_ok, say_say. Qed.

(** What [fgets] reads of a text. *)
Fixpoint pieces (fuel : nat) (text : list Z) : list (list Z) :=
  match fuel, text with
  | S fuel, _ :: _ => let '(l, r) := fgets_line 255 text in l :: pieces fuel r
  | _, _ => []
  end.

Definition stuffed (line : list Z) : list Z := if bool_decide (line = bytes ".") then bytes ".." else line.

(** The lines that are sent of a text, its first [n]. *)
Definition body (n : nat) (text : list Z) : list (list Z) := (fun l => stuffed (removelast l)) <$> take n (pieces (length text) text).

Lemma fgets_line_split n : forall s l r, fgets_line n s = (l, r) -> s = l ++ r /\ (length l <= n)%nat /\ ((0 < n)%nat -> s <> [] -> l <> []).
Proof.
  induction n as [|n IH]; intros [|c s] l r; cbn [fgets_line]; [intros [= <- <-]; cbn; (split; [done|]); split; [lia|]; intros; lia || done..|].
  destruct (c =? 10); [intros [= <- <-]; cbn; split; [done|]; split; [lia|done]|].
  destruct (fgets_line n s) as [l1 r1] eqn:E. intros [= <- <-]. destruct (IH _ _ _ E) as (-> & Hl & _). cbn. split; [done|]. split; [lia|done].
Qed.

Lemma fgets_some buf size s : blen buf = size -> 1 < size -> s <> [] -> exists l rest tl,
  fgets_line (Z.to_nat (size - 1)) s = (l, rest) /\ s = l ++ rest /\ l <> [] /\ blen l < size /\
  fgets buf size s = Done (Some (l ++ 0 :: tl, rest)) /\ blen (l ++ 0 :: tl) = size.
Proof.
  intros Hb Hs Hne. destruct (fgets_line (Z.to_nat (size - 1)) s) as [l rest] eqn:E. destruct (fgets_line_split _ _ _ _ E) as (Hsp & Hl & Hne').
  assert (blen l < size) as Hlt by (unfold blen; lia). exists l, rest, (drop (length l + 1) buf). split; [done|]. split; [done|]. split; [apply Hne'; [lia|done]|]. split; [done|].
  unfold fgets. destruct s as [|c s]; [done|]. rewrite E. rewrite (wrn_at buf [] (take (length l + 1) buf) (drop (length l + 1) buf)).
  - cbn [mbind outcome_bind app]. rewrite <- app_assoc. split; [done|]. rewrite blen_app, blen_cons. unfold blen in *. rewrite length_drop. lia.
  - by rewrite app_nil_l, take_drop.
  - done.
  - unfold blen in *. rewrite length_take, length_app. cbn. lia.
Qed.

Lemma removelast_snoc {A} (l : list A) x : removelast (l ++ [x]) = l.
Proof. induction l as [|y l IH]; [done|]. cbn [app removelast]. rewrite IH. by destruct l. Qed.

(** The last byte of the string in a buffer is cut off. *)
Lemma cut_last l tl : l <> [] -> nul_free l -> strlen (l ++ 0 :: tl) 0 = Done (blen l) /\
  wr (l ++ 0 :: tl) (blen l - 1) 0 = Done (removelast l ++ 0 :: 0 :: tl) /\ nul_free (removelast l).
Proof.
  intros Hne Hl. destruct (snoc_case l) as [->|(k & x & ->)]; [done|]. rewrite removelast_snoc. split; [by apply (strlen_at _ [] _ tl)|].
  split; [|by apply Forall_app in Hl as [? _]]. rewrite <- app_assoc. cbn [app].
  rewrite (wr_at _ k x (0 :: tl)) by (done || (rewrite blen_app; unfold blen; cbn; lia)). done.
Qed.

Lemma outfile_loop_ok fuel : forall linebuf text linenum s, blen linebuf = 256 -> nul_free text -> (length text < fuel)%nat -> 0 <= linenum ->
  outfile_loop fuel linebuf text linenum s = Done (say (body (Z.to_nat linenum) text) s).
Proof.
  unfold body. induction fuel as [|fuel IH]; intros buf text k s Hb Ht Hf Hk; [lia|]. cbn [outfile_loop].
  destruct (decide (text = [])) as [->|Hne]; [cbn; rewrite firstn_nil; by rewrite say_nil|].
  destruct (fgets_some buf 256 text Hb ltac:(lia) Hne) as (l & rest & tl & Hg & Hsp & Hl & Hlen & -> & Hb'). cbn [mbind outcome_bind].
  destruct (Z.leb_spec k 0) as [Hk0|Hk0]; [assert (k = 0) as -> by lia; cbn [Z.to_nat take fmap list_fmap]; by rewrite say_nil|].
  assert (nul_free l) as Hnl by (rewrite Hsp in Ht; by apply Forall_app in Ht as [? _]).
  destruct (cut_last l tl Hl Hnl) as (-> & Hw & Hr). cbn [mbind outcome_bind]. rewrite Hw. cbn [mbind outcome_bind].
  rewrite (cstring_at _ [] (removelast l) (0 :: tl)) by done. cbn [mbind outcome_bind].
  assert (blen (removelast l) + 1 = blen l) as Hrl.
  { destruct (snoc_case l) as [->|(k' & x & ->)]; [done|]. rewrite removelast_snoc. unfold blen. rewrite length_app. cbn. lia. }
  assert (outs (stuffed (removelast l)) s = Done (say [stuffed (removelast l)] s)) as Ho.
  { apply outs_ok. unfold stuffed. case_bool_decide; [by vm_compute|lia]. }
  unfold stuffed in Ho. rewrite Ho. cbn [mbind outcome_bind].
  assert (length rest < length text)%nat as Hlt by (rewrite Hsp, length_app; destruct l; [done|]; cbn; lia).
  rewrite IH; [|rewrite <- Hb', !blen_app, !blen_cons; lia|rewrite Hsp in Ht; by apply Forall_app in Ht as [_ ?]|lia|lia].
  rewrite say_say. destruct text as [|c text]; [done|]. cbn [length pieces]. change (Z.to_nat (256 - 1)) with 255%nat in Hg. rewrite Hg. replace (Z.to_nat k) with (S (Z.to_nat (k - 1))) by lia.
  assert (forall n m r, (length r <= n)%nat -> (length r <= m)%nat -> pieces n r = pieces m r) as Hfuel.
  { clear. induction n as [|n IHn]; intros [|m] [|c r] Hn Hm; cbn [length] in *; try lia; [done..|]. cbn [pieces].
    destruct (fgets_line 255 (c :: r)) as [l r'] eqn:E. destruct (fgets_line_split _ _ _ _ E) as (Hs & _ & Hne).
    assert (length l + length r' = S (length r))%nat as Hlen by (by rewrite <- length_app, <- Hs). destruct l; [by destruct Hne; [lia|..]|]. cbn in Hlen.
    f_equal. apply IHn; lia. }
  rewrite (Hfuel (length text) (length rest)) by (cbn in Hlt; lia). done.
Qed.

Lemma outfile_ok name text s : fs s !! name = Some text -> nul_free text -> outfile name 99999 s = Done (say (body (Z.to_nat 99999) text ++ [bytes "."]) s).
Proof.
  intros Hf Ht. unfold outfile. rewrite Hf. cbn [negb Z.eqb]. rewrite outfile_loop_ok; [|done|done|lia|lia]. cbn [mbind outcome_bind].
  rewrite outs_ok by done. by rewrite say_say.
Qed.

Lemma outfile_none name s : fs s !! name = None -> outfile name 99999 s = Done (say [bytes "."] s).
Proof. intros Hf. unfold outfile. rewrite Hf. cbn [mbind outcome_bind]. by rewrite outs_ok. Qed.

(** The number that a word is taken for. *)
Definition number_of (w : list Z) : Z := match atoi w with Done n => n | _ => 0 end.

Lemma atoi_total w : atoi w = Done (number_of w).
Proof.
  unfold number_of, atoi. by destruct (strtol_string w) as [v ->].
Qed.

(** * What a session is *)

(** A mailbox as it is when the user enters; messages are numbered from one. *)
Record letter := Letter { l_name : list Z; l_from : list Z; l_subject : list Z; l_size : Z }.
Record maildrop := Maildrop { letters : list letter; octets : Z; deleted : gset Z }.

Inductive request := RETR (n : option Z) | DELE (n : option Z) | LIST (n : option Z) | UIDL (n : option Z) | STAT | RSET | LAST | NOOP | QUIT
  | ENTERED (w : list Z) | OTHER (w : list Z) | BLANK.

Definition argument (msg : list Z) : option Z := let w := (nextword msg).1 in if bool_decide (w = []) then None else Some (number_of w).

Definition request_of (line : list Z) : request :=
  let '(cmd, msg) := nextwordlower line in
  if bool_decide (cmd = []) then BLANK
  else if bool_decide (cmd = bytes "retr") then RETR (argument msg)
  else if bool_decide (cmd = bytes "dele") then DELE (argument msg)
  else if bool_decide (cmd = bytes "list") then LIST (argument msg)
  else if bool_decide (cmd = bytes "uidl") then UIDL (argument msg)
  else if bool_decide (cmd = bytes "stat") then STAT
  else if bool_decide (cmd = bytes "rset") then RSET
  else if bool_decide (cmd = bytes "last") then LAST
  else if bool_decide (cmd = bytes "noop") then NOOP
  else if bool_decide (cmd = bytes "quit") then QUIT
  else if bool_decide (cmd = bytes "user") || bool_decide (cmd = bytes "pass") then ENTERED cmd
  else OTHER cmd.

Definition letter_at (d : maildrop) (n : Z) : option letter := if (1 <=? n) && (n <=? Z.of_nat (length (letters d))) then letters d !! Z.to_nat (n - 1) else None.

(** The letters that are left, with their numbers. *)
Fixpoint left_of (n : Z) (ls : list letter) (del : gset Z) : list (Z * letter) :=
  match ls with [] => [] | l :: ls => (if bool_decide (n ∈ del) then [] else [(n, l)]) ++ left_of (n + 1) ls del end.

Definition no_such (n : Z) : list Z := bytes "-ERR Message " ++ decimal n ++ bytes " does not exist.".
Definition gone_already (n : Z) (again : list Z) : list Z := bytes "-ERR Message " ++ decimal n ++ again.
Definition unknown_line (w : list Z) : list Z := bytes "-ERR Unknown command: " ++ quoted w ++ bytes ".".
Definition too_few_line (w : list Z) : list Z := bytes "-ERR Too few arguments for the " ++ w ++ bytes " command.".

(** The reply to a request for one message. *)
Definition one (d : maildrop) (n : Z) (again : list Z) (reply : letter -> list (list Z)) : list (list Z) :=
  match letter_at d n with
  | None => [no_such n]
  | Some l => if bool_decide (n ∈ deleted d) then [gone_already n again] else reply l
  end.

Definition list_entry (e : Z * letter) : list Z := decimal e.1 ++ bytes " " ++ decimal (l_size e.2).
Definition uidl_entry (e : Z * letter) : list Z := decimal e.1 ++ bytes " " ++ l_name e.2.

(** The lines of the reply; [who] is the name of the account, [texts] the texts
    of the messages by their names. *)
Definition answer (who : list Z) (texts : list Z -> option (list Z)) (d : maildrop) (r : request) : list (list Z) :=
  let count := decimal (Z.of_nat (length (letters d))) in
  match r with
  | STAT => [bytes "+OK " ++ count ++ bytes " " ++ decimal (octets d)]
  | LAST => [bytes "+OK " ++ count ++ bytes " is the last message seen."]
  | RSET => [bytes "+OK Maildrop has " ++ count ++ bytes " messages (" ++ decimal (octets d) ++ bytes " octets)"]
  | NOOP => [bytes "+OK"]
  | LIST None => [bytes "+OK " ++ count ++ bytes " messages (" ++ decimal (octets d) ++ bytes " octets)"] ++
      (list_entry <$> left_of 1 (letters d) (deleted d)) ++ [bytes "."]
  | LIST (Some n) => one d n been_deleted (fun l => [bytes "+OK " ++ list_entry (n, l)])
  | UIDL None => [bytes "+OK"] ++ (uidl_entry <$> left_of 1 (letters d) (deleted d)) ++ [bytes "."]
  | UIDL (Some n) => one d n been_deleted (fun l => [bytes "+OK " ++ uidl_entry (n, l)])
  | RETR None => [too_few_line (bytes "retr")]
  | RETR (Some n) => one d n been_deleted (fun l =>
      [bytes "+OK " ++ decimal (l_size l) ++ bytes " octets"; bytes "From: " ++ l_from l; bytes "To: " ++ who ++ SITE; bytes "Subject: " ++ l_subject l; []] ++
      match texts (l_name l) with Some text => body (Z.to_nat 99999) text | None => [] end ++ [bytes "."])
  | DELE None => [too_few_line (bytes "dele")]
  | DELE (Some n) => one d n already_deleted (fun l => [bytes "+OK Message " ++ decimal (n - 1) ++ been_deleted])
  | ENTERED w | OTHER w => [unknown_line w]
  | BLANK | QUIT => []
  end.

(** What is marked after it. *)
Definition marked_after (d : maildrop) (r : request) : maildrop :=
  match r with
  | RSET => Maildrop (letters d) (octets d) ∅
  | DELE (Some n) => if letter_at d n then Maildrop (letters d) (octets d) ({[n]} ∪ deleted d) else d
  | _ => d
  end.

(** * How the server implements it *)

Fixpoint marked_mails (n : Z) (ls : list letter) (del : gset Z) : list mail :=
  match ls with
  | [] => []
  | l :: ls => Mail (l_name l) (l_from l) (l_subject l) (if bool_decide (n ∈ del) then 88 else 32) :: marked_mails (n + 1) ls del
  end.

Definition short_letter (l : letter) : Prop := blen (l_name l) <= 256 /\ blen (l_from l) <= 256 /\ blen (l_subject l) <= 256.

Record entered (low : list Z) (u : user) (d : maildrop) (s : server) : Prop := {
  is_login : state_of s = LOGIN;
  not_gone : gone s = false;
  the_low : LowUserid s = low;
  the_user : currentuser s = u;
  the_cache : fcache s = marked_mails 1 (letters d) (deleted d);
  the_lengths : postlen s = l_size <$> letters d;
  the_total : totalnum s = Z.of_nat (length (letters d));
  the_bytes : totalbyte s = octets d;
  the_marks : markdel s = Z.of_nat (size (deleted d));
  marks_are : forall n, n ∈ deleted d -> 1 <= n <= Z.of_nat (length (letters d));
  not_many : Z.of_nat (length (letters d)) < 2 ^ 31;
  short_letters : Forall short_letter (letters d);
  short_user : blen (userid u) <= 256 }.

Lemma marked_mails_length n ls del : length (marked_mails n ls del) = length ls.
Proof. revert n. induction ls as [|l ls IH]; intros n; [done|]. cbn. by rewrite IH. Qed.

Lemma marked_mails_lookup ls del : forall n k, marked_mails n ls del !! k =
  (fun l => Mail (l_name l) (l_from l) (l_subject l) (if bool_decide (n + Z.of_nat k ∈ del) then 88 else 32)) <$> ls !! k.
Proof.
  induction ls as [|l ls IH]; intros n [|k]; cbn [marked_mails]; [done..| |].
  - cbn. by rewrite Z.add_0_r.
  - etrans; [apply (IH (n + 1) k)|]. replace (n + 1 + Z.of_nat k) with (n + Z.of_nat (S k)) by lia. done.
Qed.

Lemma marked_mails_insert n ls del k l : ls !! k = Some l -> n + Z.of_nat k ∉ del ->
  <[k := Mail (l_name l) (l_from l) (l_subject l) 88]> (marked_mails n ls del) = marked_mails n ls ({[n + Z.of_nat k]} ∪ del).
Proof.
  intros Hl Hn. apply list_eq. intros j. rewrite marked_mails_lookup. pose proof (lookup_lt_Some _ _ _ Hl). destruct (decide (j = k)) as [->|Hj].
  - rewrite list_lookup_insert_eq by (by rewrite marked_mails_length). rewrite Hl. cbn. rewrite bool_decide_eq_true_2 by set_solver. done.
  - rewrite list_lookup_insert_ne, marked_mails_lookup by done. destruct (ls !! j); [|done]. cbn. do 3 f_equal.
    erewrite bool_decide_ext; [done|]. rewrite elem_of_union, elem_of_singleton. split; [by right|]. intros [?|?]; [lia|done].
Qed.

Lemma marked_mails_reset n ls del : set_accessed 32 <$> marked_mails n ls del = marked_mails n ls ∅.
Proof.
  apply list_eq. intros j. rewrite list_lookup_fmap, !marked_mails_lookup. destruct (ls !! j); [|done]. cbn [fmap option_fmap option_map set_accessed filename owner title].
  rewrite (bool_decide_eq_false_2 (n + Z.of_nat j ∈ ∅)); [done|apply not_elem_of_empty].
Qed.

Lemma chosen_ok low u d s n again : entered low u d s -> chosen n again s = Done (match letter_at d n with
  | None => inr (no_such n)
  | Some l => if bool_decide (n ∈ deleted d) then inr (gone_already n again)
              else inl (Mail (l_name l) (l_from l) (l_subject l) 32, l_size l)
  end).
Proof.
  intros He. unfold chosen, letter_at. rewrite (the_total _ _ _ _ He), (the_cache _ _ _ _ He), (the_lengths _ _ _ _ He).
  destruct (Z.leb_spec n 0); [destruct (Z.leb_spec 1 n); [lia|done]|]. destruct (Z.leb_spec 1 n); [|lia]. cbn [orb andb].
  destruct (Z.ltb_spec (Z.of_nat (length (letters d))) n); [destruct (Z.leb_spec n (Z.of_nat (length (letters d)))); [lia|done]|].
  destruct (Z.leb_spec n (Z.of_nat (length (letters d)))); [|lia].
  destruct (lookup_lt_is_Some_2 (letters d) (Z.to_nat (n - 1))) as [l Hl]; [lia|]. rewrite marked_mails_lookup, list_lookup_fmap, Hl. cbn.
  replace (1 + Z.of_nat (Z.to_nat (n - 1))) with n by lia. by destruct (bool_decide (n ∈ deleted d)).
Qed.

Lemma letter_at_short d n l : Forall short_letter (letters d) -> letter_at d n = Some l -> short_letter l.
Proof. unfold letter_at. destruct (_ && _); [|done]. intros Hf Hl. by apply (list.Forall_lookup_1 _ _ _ _ Hf Hl). Qed.

Lemma each_left_ok line entry ls : forall n del s, (forall n l, short_letter l -> blen (entry (n, l)) <= 1021) ->
  (forall n l a, line n (Mail (l_name l) (l_from l) (l_subject l) a) (l_size l) = entry (n, l)) -> Forall short_letter ls ->
  each_left line (n - 1) (marked_mails n ls del) (l_size <$> ls) s = Done (say (entry <$> left_of n ls del) s).
Proof.
  intros n del s Hs Hl Hf. revert n s. induction Hf as [|l ls Hl1 _ IH]; intros n s; [cbn; by rewrite say_nil|].
  cbn [marked_mails fmap list_fmap each_left left_of accessed]. rewrite Hl. replace (n - 1 + 1) with n by lia. specialize (IH (n + 1)).
  replace (n + 1 - 1) with n in IH by lia. destruct (bool_decide (n ∈ del)).
  - cbn [Z.eqb app]. apply IH.
  - cbn. rewrite outs_ok by auto. cbn [mbind outcome_bind]. rewrite IH, say_say. done.
Qed.

(** The marks of the server are those of the mailbox. *)
Definition with_marks (d : maildrop) (s : server) : server := set_marks (marked_mails 1 (letters d) (deleted d)) (Z.of_nat (size (deleted d))) s.

Lemma with_marks_same low u d s : entered low u d s -> with_marks d s = s.
Proof. intros He. unfold with_marks. rewrite <- (the_cache _ _ _ _ He), <- (the_marks _ _ _ _ He). by destruct s. Qed.

Lemma line_short (a b c d e : list Z) : blen a + blen b + blen c + blen d + blen e <= 1021 -> blen (a ++ b ++ c ++ d ++ e) <= 1021.
Proof. rewrite !blen_app. lia. Qed.

(** The lengths of the parts of a line. *)
Ltac short := repeat rewrite ?blen_app, ?blen_cons; unfold quoted; repeat rewrite ?blen_app, ?blen_cons;
  repeat match goal with |- context [blen (decimal ?n)] => lazymatch goal with
    | _ : blen (decimal n) <= 21 |- _ => fail | _ => pose proof (decimal_short n) end end;
  repeat match goal with |- context [blen (bytes ?x)] => let v := eval vm_compute in (blen (bytes x)) in change (blen (bytes x)) with v end;
  change (blen []) with 0; change (blen SITE) with 25; change (blen been_deleted) with 18; change (blen already_deleted) with 26; try lia.

Section Requests.
Context (low : list Z) (u : user) (d : maildrop) (s : server) (He : entered low u d s).

Definition text_at (v : files) (l : list Z) (name : list Z) : option (list Z) := v !! mail_path l name.

(** The texts of the messages, where there are any, are strings. *)
Definition readable (v : files) (l : list Z) (ls : list letter) : Prop :=
  Forall (fun x => forall text, text_at v l (l_name x) = Some text -> nul_free text) ls.

Lemma logged_in : negb (bool_decide (state_of s = LOGIN)) = false.
Proof. rewrite (is_login _ _ _ _ He). done. Qed.

Lemma one_short n again reply : blen again <= 100 -> (forall l, letter_at d n = Some l -> short_letter l -> Forall (fun x => blen x <= 1021) (reply l)) ->
  Forall (fun x => blen x <= 1021) (one d n again reply).
Proof.
  intros Ha Hr. unfold one. destruct (letter_at d n) as [l|] eqn:E.
  - pose proof (letter_at_short d n l (short_letters _ _ _ _ He) E). destruct (bool_decide (n ∈ deleted d)); [constructor; [unfold gone_already; short|constructor]|by apply Hr].
  - constructor; [unfold no_such; short|constructor].
Qed.

Lemma listing_ok line entry pre : (forall n l, short_letter l -> blen (entry (n, l)) <= 1021) ->
  (forall n l a, line n (Mail (l_name l) (l_from l) (l_subject l) a) (l_size l) = entry (n, l)) ->
  listing line (say pre s) = Done (say (pre ++ (entry <$> left_of 1 (letters d) (deleted d)) ++ [bytes "."]) s).
Proof.
  intros Hs Hl. unfold listing. cbn [totalnum fcache postlen say set_sent].
  rewrite (the_total _ _ _ _ He), Nat2Z.id, (the_cache _ _ _ _ He), (the_lengths _ _ _ _ He), marked_mails_length, Nat.ltb_irrefl.
  rewrite !firstn_all2 by (rewrite ?marked_mails_length, ?length_fmap; lia). change 0 with (1 - 1).
  rewrite (each_left_ok line entry) by (done || apply He). cbn [mbind outcome_bind]. rewrite outs_ok by done. rewrite !say_say. by rewrite ?app_assoc.
Qed.

Lemma Retr_ok msg : readable (fs s) low (letters d) ->
  Retr msg s = Done (say (answer (userid u) (text_at (fs s) low) d (RETR (argument msg))) s).
Proof.
  intros Ht. unfold Retr, argument. rewrite logged_in. destruct (nextword msg) as [w rest]. cbn [fst].
  case_bool_decide; [by apply outs_ok|]. rewrite atoi_total. cbn [mbind outcome_bind answer]. rewrite (chosen_ok _ _ _ _ _ _ He).
  unfold one. cbn [mbind outcome_bind]. destruct (letter_at d (number_of w)) as [l|] eqn:El; [|apply outs_ok; unfold no_such; short].
  case_bool_decide; [apply outs_ok; unfold gone_already; short|]. cbn [owner filename title].
  destruct (letter_at_short d _ l (short_letters _ _ _ _ He) El) as (H1 & H2 & H3). pose proof (short_user _ _ _ _ He).
  assert (l ∈ letters d) as Hin by (unfold letter_at in El; destruct (_ && _); [|done]; by eapply list_elem_of_lookup_2).
  rewrite (outs_ok _ s) by short. cbn [mbind outcome_bind]. rewrite outs_say by short. cbn [mbind outcome_bind currentuser say set_sent].
  rewrite (the_user _ _ _ _ He). change (set_sent (sent s ++ wire ?a) s) with (say a s). rewrite outs_say by short. cbn [mbind outcome_bind].
  rewrite outs_say by short. cbn [mbind outcome_bind]. rewrite outs_say by short. cbn [mbind outcome_bind LowUserid say set_sent].
  rewrite (the_low _ _ _ _ He). change (set_sent (sent s ++ wire ?a) s) with (say a s). fold (mail_path low (l_name l)). cbn [app].
  unfold text_at. destruct (fs s !! mail_path low (l_name l)) as [text|] eqn:Et.
  - rewrite (outfile_ok _ text) by (done || by apply (proj1 (list.Forall_forall _ _) Ht l Hin)). by rewrite say_say.
  - rewrite outfile_none by done. by rewrite say_say.
Qed.

Lemma Dele_ok msg : Dele msg s = Done (say (answer (userid u) (text_at (fs s) low) d (DELE (argument msg))) (with_marks (marked_after d (DELE (argument msg))) s)).
Proof.
  unfold Dele, argument. rewrite logged_in. destruct (nextword msg) as [w rest]. cbn [fst].
  case_bool_decide; [rewrite (with_marks_same low u) by done; by apply outs_ok|]. rewrite atoi_total. cbn [mbind outcome_bind answer marked_after].
  rewrite (chosen_ok _ _ _ _ _ _ He). unfold one. cbn [mbind outcome_bind].
  destruct (letter_at d (number_of w)) as [l|] eqn:El; [|rewrite (with_marks_same low u) by done; apply outs_ok; unfold no_such; short].
  case_bool_decide as Hdel.
  - replace ({[number_of w]} ∪ deleted d) with (deleted d) by set_solver. replace (Maildrop _ _ _) with d by (by destruct d).
    rewrite (with_marks_same low u) by done. apply outs_ok. unfold gone_already. short.
  - unfold letter_at in El. destruct (Z.leb_spec 1 (number_of w)); [|done]. destruct (Z.leb_spec (number_of w) (Z.of_nat (length (letters d)))); [|done]. cbn [andb] in El.
    rewrite outs_ok by short. f_equal. f_equal. unfold with_marks. cbn [letters deleted]. f_equal.
    + rewrite (the_cache _ _ _ _ He). unfold set_accessed. cbn [filename owner title]. rewrite (marked_mails_insert 1 _ _ _ l) by (done || by replace (1 + Z.of_nat (Z.to_nat (number_of w - 1))) with (number_of w) by lia).
      by replace (1 + Z.of_nat (Z.to_nat (number_of w - 1))) with (number_of w) by lia.
    + rewrite (the_marks _ _ _ _ He), size_union, size_singleton by set_solver. rewrite i32_id; [lia|].
      assert (size ({[number_of w]} ∪ deleted d) <= length (letters d))%nat as Hsz.
      { rewrite <- (Nat2Z.id (length (letters d))), <- (length_seqZ 1), <- (size_list_to_set (C := gset Z) (seqZ 1 _)) by apply NoDup_seqZ.
        apply subseteq_size. intros n [->%elem_of_singleton|Hn%(marks_are _ _ _ _ He)]%elem_of_union; apply elem_of_list_to_set, elem_of_seqZ; lia. }
      rewrite size_union, size_singleton in Hsz by set_solver.
      pose proof (not_many _ _ _ _ He). unfold is_i32. lia.
Qed.

Lemma Rset_ok : Rset s = Done (say (answer (userid u) (text_at (fs s) low) d RSET) (with_marks (marked_after d RSET) s)).
Proof.
  unfold Rset. rewrite logged_in, (the_total _ _ _ _ He), Nat2Z.id, (the_cache _ _ _ _ He), marked_mails_length, Nat.ltb_irrefl, (the_bytes _ _ _ _ He).
  rewrite firstn_all2, drop_ge, app_nil_r, marked_mails_reset by (rewrite marked_mails_length; lia). rewrite outs_ok by short. done.
Qed.

Lemma Stat_ok : Stat s = Done (say (answer (userid u) (text_at (fs s) low) d STAT) s).
Proof. unfold Stat. rewrite logged_in, (the_total _ _ _ _ He), (the_bytes _ _ _ _ He). apply outs_ok. short. Qed.

Lemma Last_ok : Last s = Done (say (answer (userid u) (text_at (fs s) low) d LAST) s).
Proof. unfold Last. rewrite logged_in, (the_total _ _ _ _ He). apply outs_ok. short. Qed.

Lemma list_one w again f g : blen again <= 100 -> (forall l, short_letter l -> blen (bytes "+OK " ++ f l) <= 1021) ->
  (forall l, g (Mail (l_name l) (l_from l) (l_subject l) 32) (l_size l) = f l) ->
  (c ← chosen w again s; outs (match c with inr e => e | inl (m, len) => bytes "+OK " ++ g m len end) s) =
  Done (say (one d w again (fun l => [bytes "+OK " ++ f l])) s).
Proof.
  intros Ha Hf Hg. rewrite (chosen_ok _ _ _ _ _ _ He). unfold one. cbn [mbind outcome_bind].
  destruct (letter_at d w) as [l|] eqn:El; [|apply outs_ok; unfold no_such; short].
  case_bool_decide; [apply outs_ok; unfold gone_already; short|]. rewrite Hg. apply outs_ok, Hf, (letter_at_short d w l); [apply He|done].
Qed.

Lemma List_ok msg : List msg s = Done (say (answer (userid u) (text_at (fs s) low) d (LIST (argument msg))) s).
Proof.
  unfold List, argument. rewrite logged_in. destruct (nextword msg) as [w rest]. cbn [fst]. case_bool_decide.
  - rewrite (the_total _ _ _ _ He), (the_bytes _ _ _ _ He), outs_ok by short. cbn [mbind outcome_bind].
    apply listing_ok; [intros n l _; unfold list_entry; cbn [fst snd]; short|done].
  - rewrite atoi_total. cbn [mbind outcome_bind]. apply list_one; [by vm_compute|intros l _; unfold list_entry; cbn [fst snd]; short|done].
Qed.

Lemma Uidl_ok msg : Uidl msg s = Done (say (answer (userid u) (text_at (fs s) low) d (UIDL (argument msg))) s).
Proof.
  unfold Uidl, argument. rewrite logged_in. destruct (nextword msg) as [w rest]. cbn [fst]. case_bool_decide.
  - rewrite outs_ok by short. cbn [mbind outcome_bind].
    apply listing_ok; [intros n l (Hn & _); unfold uidl_entry; cbn [fst snd]; short|done].
  - rewrite atoi_total. cbn [mbind outcome_bind]. apply list_one; [by vm_compute|intros l (Hn & _); unfold uidl_entry; cbn [fst snd]; short|done].
Qed.

End Requests.

Lemma entered_idle low u d s : entered low u d s -> entered low u d (set_idletime 0 s).
Proof. by intros []. Qed.

Lemma entered_say low u d s x : entered low u d s -> entered low u d (say x s).
Proof. by intros []. Qed.

Lemma entered_files low u d s p v : entered low u d s -> entered low u d (set_files p v s).
Proof. by intros []. Qed.

Lemma entered_marks low u d s r : entered low u d s -> entered low u (marked_after d r) (with_marks (marked_after d r) s).
Proof.
  intros He. assert (entered low u d (with_marks d s)) as Hs by by rewrite (with_marks_same low u).
  destruct r as [n|[n|]|n|n| | | | | |w|w|]; cbn [marked_after]; try exact Hs.
  - destruct (letter_at d n) as [l|] eqn:E; [|exact Hs]. unfold letter_at in E.
    destruct (Z.leb_spec 1 n); [|done]. destruct (Z.leb_spec n (Z.of_nat (length (letters d)))); [|done].
    destruct He. split; try done. cbn [deleted letters]. intros k [->%elem_of_singleton|Hk]%elem_of_union; [done|by apply marks_are0].
  - by destruct He.
Qed.

Lemma take_word_length s : blen (take_word s).1 <= blen s.
Proof. induction s as [|c s IH]; [done|]. cbn [take_word]. destruct (Isspace c); [cbn [fst]; rewrite blen_cons; change (blen []) with 0; pose proof (blen_nonneg s); lia|]. destruct (take_word s). cbn [fst] in *. rewrite !blen_cons. lia. Qed.

Lemma skip_space_length s : blen (skip_space s) <= blen s.
Proof. induction s as [|c s IH]; [done|]. cbn [skip_space]. destruct (Isspace c); [rewrite blen_cons; lia|lia]. Qed.

Lemma nextwordlower_length s : blen (nextwordlower s).1 <= blen s.
Proof.
  unfold nextwordlower, nextword. pose proof (take_word_length (skip_space s)). pose proof (skip_space_length s). destruct (take_word _). cbn [fst] in *.
  unfold blen in *. rewrite length_map. lia.
Qed.

Ltac decide_words := repeat match goal with |- context [bool_decide (bytes ?a = bytes ?b)] =>
    let v := eval vm_compute in (bool_decide (bytes a = bytes b)) in change (bool_decide (bytes a = bytes b)) with v
  | |- context [bool_decide (bytes ?a = [])] => let v := eval vm_compute in (bool_decide (bytes a = [])) in change (bool_decide (bytes a = [])) with v end; cbn [orb answer marked_after].

Section Lines.
Context (crypt : list Z -> list Z -> option (list Z)) (hostname : list Z).

(** A request other than to quit has its reply, and marks what it marks. *)
Lemma serve_request low u d s inbuf line : entered low u d s -> cut_line inbuf = Done line -> blen line <= 900 -> request_of line <> QUIT ->
  readable (fs s) low (letters d) ->
  serve_line crypt hostname inbuf s = Done (say (answer (userid u) (text_at (fs s) low) d (request_of line)) (with_marks (marked_after d (request_of line)) (set_idletime 0 s))).
Proof.
  intros He Hc Hl Hq Ht. unfold serve_line, request_of in *. rewrite Hc. cbn [mbind outcome_bind]. pose proof (nextwordlower_length line) as Hw.
  apply entered_idle in He. set (s0 := set_idletime 0 s) in *. change (fs s) with (fs s0) in *. clearbody s0.
  pose proof (with_marks_same _ _ _ _ He) as Hsame. destruct (nextwordlower line) as [cmd msg]. cbn [fst] in Hw. unfold find_command, cmdlists.
  case_bool_decide; [cbn [answer marked_after]; by rewrite say_nil, Hsame|].
  case_bool_decide; [rewrite (Retr_ok low u d) by done; cbn [marked_after]; by rewrite Hsame|].
  case_bool_decide; [by apply (Dele_ok low u d)|].
  destruct (decide (cmd = bytes "user")) as [->|Hu]; [decide_words; unfold User; rewrite (is_login _ _ _ _ He), Hsame; by apply outs_ok|].
  destruct (decide (cmd = bytes "pass")) as [->|Hp]; [decide_words; unfold Pass; rewrite (is_login _ _ _ _ He), Hsame; by apply outs_ok|].
  rewrite !(bool_decide_eq_false_2 (cmd = bytes "user")), !(bool_decide_eq_false_2 (cmd = bytes "pass")) in * by done.
  destruct (decide (cmd = bytes "stat")) as [->|?]; [decide_words; rewrite Hsame; by apply (Stat_ok low u d)|].
  rewrite !(bool_decide_eq_false_2 (cmd = bytes "stat")) in * by done.
  case_bool_decide; [rewrite (List_ok low u d) by done; cbn [marked_after]; by rewrite Hsame|].
  case_bool_decide; [rewrite (Uidl_ok low u d) by done; cbn [marked_after]; by rewrite Hsame|].
  destruct (decide (cmd = bytes "quit")) as [->|?]; [done|]. rewrite !(bool_decide_eq_false_2 (cmd = bytes "quit")) in * by done.
  case_bool_decide; [by apply (Rset_ok low u d)|].
  case_bool_decide; [rewrite (Last_ok low u d) by done; cbn [marked_after]; by rewrite Hsame|].
  case_bool_decide; cbn [orb marked_after]; rewrite Hsame; apply outs_ok; short.
Qed.

(** * Entering *)

Definition sender (own : list Z) : list Z := if existsb (Z.eqb 64) own then own else before 32 own ++ SITE.

(** The letter that a record on disk and the file it names stand for. *)
Record on_disk (v : files) (low raw : list Z) (l : letter) : Prop := {
  raw_size : blen raw = sizeof_fileheader;
  raw_name : cstring raw 0 = Done (l_name l);
  raw_from : exists own, cstring raw owner_offset = Done own /\ l_from l = sender own /\ (existsb (Z.eqb 64) own = false -> blen (sender own) < sizeof_owner);
  raw_subject : cstring raw title_offset = Done (l_subject l);
  raw_octets : l_size l = i32 (match text_at v low (l_name l) with Some text => blen text | None => 0 end + blen (l_from l) + 10 + blen (l_subject l) + 10 + 40) }.

Definition total_octets (ls : list letter) : Z := foldl (fun b l => i32 (b + l_size l)) 0 ls.

Lemma until_nul_length m s : until_nul m = Done s -> (length s < length m)%nat.
Proof.
  revert s. induction m as [|c m IH]; intros s; [done|]. cbn [until_nul]. destruct (c =? 0); [intros [= <-]; cbn; lia|].
  destruct (until_nul m) as [t| |]; cbn [mbind outcome_bind]; [|done..]. intros [= <-]. specialize (IH t eq_refl). cbn. lia.
Qed.

Lemma cstring_length m p s : cstring m p = Done s -> blen s < blen m.
Proof.
  unfold cstring. destruct (p <? 0); [done|]. intros H%until_nul_length. rewrite length_drop in H. unfold blen. lia.
Qed.

Lemma on_disk_short v low raw l : on_disk v low raw l -> short_letter l.
Proof.
  intros [Hr Hn (own & Ho & Hf & Hs) Ht _]. apply cstring_length in Hn, Ho, Ht. rewrite Hr in *. unfold sizeof_fileheader, sizeof_owner in *. split; [lia|]. split; [|lia].
  rewrite Hf. unfold sender in *. destruct (existsb (Z.eqb 64) own); [lia|]. specialize (Hs eq_refl). lia.
Qed.

Lemma init_mail_ok v low raw l : on_disk v low raw l -> init_mail v low raw = Done (Mail (l_name l) (l_from l) (l_subject l) 32, l_size l).
Proof.
  intros [Hr Hn (own & Ho & Hf & Hs) Ht Hz]. unfold init_mail. rewrite Hn, Ho, Ht. cbn [mbind outcome_bind]. rewrite Hz. unfold text_at. rewrite Hf. unfold sender in *.
  destruct (existsb (Z.eqb 64) own); [done|]. specialize (Hs eq_refl). unfold sizeof_owner in *. destruct (Z.ltb_spec (blen (before 32 own ++ SITE)) 80); [|lia]. done.
Qed.

Lemma init_loop_ok v low recs ls : Forall2 (on_disk v low) recs ls -> forall n b,
  init_loop (length recs) v low (mjoin recs) b = Done (marked_mails n ls ∅, l_size <$> ls, foldl (fun b l => i32 (b + l_size l)) b ls).
Proof.
  induction 1 as [|raw l recs ls Hd _ IH]; intros n b; [done|]. cbn [length init_loop mjoin list_join]. pose proof (raw_size _ _ _ _ Hd) as Hz.
  rewrite (rdn_at (raw ++ mjoin recs) [] raw (mjoin recs) 0 sizeof_fileheader) by done. cbn [mbind outcome_bind]. rewrite (init_mail_ok _ _ _ _ Hd). cbn [mbind outcome_bind].
  replace (Z.to_nat sizeof_fileheader) with (length raw) by (unfold blen, sizeof_fileheader in *; lia). rewrite drop_app_length.
  rewrite (IH (n + 1)). cbn [mbind outcome_bind marked_mails fmap list_fmap foldl]. rewrite (bool_decide_eq_false_2 (n ∈ ∅)) by apply not_elem_of_empty. done.
Qed.

Lemma mjoin_records recs : Forall (fun r => blen r = sizeof_fileheader) recs -> blen (mjoin recs) = sizeof_fileheader * Z.of_nat (length recs).
Proof. induction 1 as [|r recs Hr _ IH]; [done|]. change (mjoin (r :: recs)) with (r ++ mjoin recs). cbn [length]. rewrite blen_app, Hr, IH. lia. Qed.

(** A server that waits for the password of [u], whose mailbox has the letters. *)
Record waiting (low : list Z) (u : user) (recs : list (list Z)) (ls : list letter) (s : server) : Prop := {
  w_state : state_of s = CONNECT;
  w_here : gone s = false;
  w_low : LowUserid s = low;
  w_named : low <> [];
  w_user : currentuser s = u;
  w_short : blen (userid u) <= 256 /\ blen low < 20;
  w_empty : fcache s = [] /\ postlen s = [] /\ markdel s = 0;
  w_dir : fs s !! mail_path low (bytes ".DIR") = Some (mjoin recs);
  w_recs : Forall2 (on_disk (fs s) low) recs ls;
  w_count : Z.of_nat (length ls) < 2 ^ 31;
  w_texts : readable (fs s) low ls }.

Definition welcome (low : list Z) (ls : list letter) : list Z :=
  bytes "+OK " ++ low ++ bytes " has " ++ decimal (Z.of_nat (length ls)) ++ bytes " message(s) (" ++ decimal (total_octets ls) ++ bytes " octets).".

Lemma Login_init_ok low u recs ls s : waiting low u recs ls s ->
  Login_init (set_state LOGIN s) = Done (set_mails (marked_mails 1 ls ∅) (l_size <$> ls) (Z.of_nat (length ls)) (total_octets ls) (set_state LOGIN s)).
Proof.
  intros [Hs Hg Hl Hn Hu Hsh (Hc & Hp & Hm) Hd Hr Hcount Ht]. unfold Login_init. cbn [fs LowUserid set_state fcache postlen]. rewrite Hl, Hd, Hc, Hp.
  assert (Forall (fun r => blen r = sizeof_fileheader) recs) as Hz by (eapply Forall2_Forall_l; [exact Hr|apply list.Forall_true; intros l r; apply raw_size]).
  pose proof (Forall2_length _ _ _ Hr) as Hlen. destruct recs as [|raw recs]; [destruct ls; [done|cbn in Hlen; lia]|].
  destruct (mjoin (raw :: recs)) as [|c t] eqn:E; [pose proof (mjoin_records _ Hz) as Hj; rewrite E in Hj; change (blen []) with 0 in Hj; unfold sizeof_fileheader in Hj; cbn [length] in Hj; lia|].
  rewrite <- E, (mjoin_records _ Hz). rewrite Z.mul_comm, Z.quot_mul by done. rewrite i32_id by (unfold is_i32; lia). rewrite Nat2Z.id.
  rewrite (init_loop_ok _ _ _ _ Hr 1 0). cbn [mbind outcome_bind]. by rewrite Hlen.
Qed.

Lemma Pass_opens low u recs ls s msg pw rest : waiting low u recs ls s -> nextword msg = (pw, rest) -> pw <> [] -> crypt (take 14 pw) (passwd u) = Some (passwd u) ->
  exists s', Pass crypt msg s = Done (say [welcome low ls] s') /\ entered low u (Maildrop ls (total_octets ls) ∅) s' /\ sent s' = sent s /\ fs s' = fs s.
Proof.
  intros Hw Hm Hp Hc. pose proof Hw as [Hs Hg Hl Hn Hu (Hsh & Hsl) (Hfc & Hpl & Hmk) Hd Hr Hcount Ht]. unfold Pass. rewrite Hs, Hm.
  rewrite bool_decide_eq_false_2, (bool_decide_eq_false_2 (pw = [])), Hl, bool_decide_eq_false_2, Hu by done. unfold checkpasswd. rewrite Hc.
  cbn [mbind outcome_bind]. rewrite bool_decide_eq_true_2 by done. cbn [negb]. rewrite (Login_init_ok low u recs ls s Hw). cbn [mbind outcome_bind].
  eexists. split; [rewrite outs_ok; [cbn [LowUserid totalnum totalbyte set_mails set_state]; rewrite Hl; done|cbn [LowUserid totalnum totalbyte set_mails set_state]; rewrite Hl; short]|].
  split; [|done]. split; try done.
  clear -Hr. cbn. induction Hr; constructor; [by eapply on_disk_short|done].
Qed.

(** * Leaving *)

(** The records that stay, and the names in those that do not; records are
    numbered like messages. *)
Fixpoint kept (n : Z) (recs : list (list Z)) (del : gset Z) : list (list Z) :=
  match recs with [] => [] | r :: recs => (if bool_decide (n ∈ del) then [] else [r]) ++ kept (n + 1) recs del end.
Fixpoint dropped (n : Z) (recs : list (list Z)) (del : gset Z) : list (list Z) :=
  match recs with
  | [] => []
  | r :: recs => (if bool_decide (n ∈ del) then match cstring r 0 with Done name => [name] | _ => [] end else []) ++ dropped (n + 1) recs del
  end.

Lemma unlink_lookup v p q : unlink v p !! q = if bool_decide (q = p) then None else v !! q.
Proof. unfold unlink. case_bool_decide as H; [subst; apply lookup_delete_eq|by apply lookup_delete_ne]. Qed.

Lemma write_lookup (v : files) p x q : <[p := x]> v !! q = if bool_decide (q = p) then Some x else v !! q.
Proof. case_bool_decide as H; [subst; apply lookup_insert_eq|by apply lookup_insert_ne]. Qed.

Lemma delete_loop_ok ls del low total : total = Z.of_nat (length ls) -> (forall n, n ∈ del -> n <= total) -> forall recs fuel cm n new_ count v,
  1 <= n -> blen cm = sizeof_fileheader -> (length recs < fuel)%nat -> Forall (fun r => blen r = sizeof_fileheader) recs ->
  (forall k r, recs !! k = Some r -> n + Z.of_nat k ∈ del -> exists name, cstring r 0 = Done name) ->
  exists v', delete_loop fuel cm (mjoin recs) (n - 1) (marked_mails 1 ls del) total low new_ count v =
    Done (new_ ++ mjoin (kept n recs del), count + Z.of_nat (length (kept n recs del)), v') /\
  forall p, v' !! p = if bool_decide (p ∈ mail_path low <$> dropped n recs del) then None else v !! p.
Proof.
  intros Ht Hdel. induction recs as [|r recs IH]; intros [|fuel] cm n new_ count v Hn Hc Hf Hz Hnames; cbn [length] in Hf; try lia.
  { exists v. cbn. rewrite app_nil_r, Z.add_0_r. done. }
  apply Forall_cons_1 in Hz as [Hr Hz]. change (mjoin (r :: recs)) with (r ++ mjoin recs). cbn [delete_loop].
  destruct (r ++ mjoin recs) as [|c t] eqn:E; [destruct r; [done|done]|]. rewrite <- E.
  replace (Z.to_nat sizeof_fileheader) with (length r) by (unfold blen, sizeof_fileheader in *; lia). rewrite take_app_length, drop_app_length.
  replace (drop (length r) cm) with (@nil Z) by (symmetry; apply drop_ge; unfold blen, sizeof_fileheader in *; lia). rewrite app_nil_r.
  assert ((if total <=? n - 1 then Done true else match marked_mails 1 ls del !! Z.to_nat (n - 1) with Some m => Done (accessed m =? 32) | None => Fault end)
    = Done (negb (bool_decide (n ∈ del)))) as ->.
  { destruct (Z.leb_spec total (n - 1)); [rewrite bool_decide_eq_false_2; [done|intros Hin%Hdel; lia]|]. rewrite marked_mails_lookup.
    destruct (lookup_lt_is_Some_2 ls (Z.to_nat (n - 1))) as [l ->]; [lia|]. cbn [fmap option_fmap option_map accessed].
    replace (1 + Z.of_nat (Z.to_nat (n - 1))) with n by lia. by destruct (bool_decide (n ∈ del)). }
  cbn [mbind outcome_bind kept dropped]. replace (n - 1 + 1) with (n + 1 - 1) by lia.
  assert (forall k r0, recs !! k = Some r0 -> n + 1 + Z.of_nat k ∈ del -> exists name, cstring r0 0 = Done name) as Hnames'
    by (intros k r0 Hk Hin; apply (Hnames (S k) r0 Hk); by replace (n + Z.of_nat (S k)) with (n + 1 + Z.of_nat k) by lia).
  case_bool_decide as Hin; cbn [negb app].
  - destruct (Hnames 0%nat r eq_refl) as [name Hname]; [by rewrite Z.add_0_r|]. rewrite Hname. cbn [mbind outcome_bind].
    destruct (IH fuel r (n + 1) new_ count (unlink v (mail_path low name))) as (v' & -> & Hv); [lia|done|lia|done|done|]. exists v'. split; [done|].
    intros p. rewrite Hv, unlink_lookup. cbn [app fmap list_fmap].
    assert (forall a (l : list (list Z)), bool_decide (p ∈ a :: l) = bool_decide (p = a) || bool_decide (p ∈ l)) as ->
      by (intros a l; rewrite <- bool_decide_or; apply bool_decide_ext, elem_of_cons).
    by destruct (bool_decide (p = mail_path low name)), (bool_decide (p ∈ (mail_path low <$> dropped (n + 1) recs del))).
  - destruct (IH fuel r (n + 1) (new_ ++ r) (count + 1) v) as (v' & -> & Hv); [lia|done|lia|done|done|]. exists v'. split; [|done].
    change (mjoin (r :: kept (n + 1) recs del)) with (r ++ mjoin (kept (n + 1) recs del)). rewrite <- app_assoc. cbn [length]. do 3 f_equal. lia.
Qed.

(** The files when a user has left who marked [del]. *)
Definition committed (low : list Z) (recs : list (list Z)) (del : gset Z) (v : files) (p : list Z) : option (list Z) :=
  if bool_decide (p = mail_path low (bytes ".DIR")) then match kept 1 recs del with [] => None | rs => Some (mjoin rs) end
  else if bool_decide (p = mail_path low (bytes "pop3.DIR")) then None
  else if bool_decide (p ∈ mail_path low <$> dropped 1 recs del) then None else v !! p.

(** A directory that can be rewritten: the file for it is not there, and is not
    one of those that are deleted. *)
Record rewritable (low : list Z) (recs : list (list Z)) (del : gset Z) (v : files) : Prop := {
  the_dir : v !! mail_path low (bytes ".DIR") = Some (mjoin recs);
  whole_records : Forall (fun r => blen r = sizeof_fileheader) recs;
  named_records : forall k r, recs !! k = Some r -> 1 + Z.of_nat k ∈ del -> exists name, cstring r 0 = Done name;
  no_leftover : v !! mail_path low (bytes "pop3.DIR") = None;
  not_the_file : mail_path low (bytes "pop3.DIR") ∉ mail_path low <$> dropped 1 recs del }.

Lemma two_files low : mail_path low (bytes ".DIR") <> mail_path low (bytes "pop3.DIR").
Proof. unfold mail_path. intros H%(inj (app _)). by vm_compute in H. Qed.

Lemma do_delete_ok low u d s recs : entered low u d s -> rewritable low recs (deleted d) (fs s) ->
  exists v', do_delete s = Done (set_files (passwds s) v' s) /\ forall p, v' !! p = committed low recs (deleted d) (fs s) p.
Proof.
  intros He [Hd Hz Hn Hno Hnot]. unfold do_delete. rewrite (the_low _ _ _ _ He), Hd, Hno, (the_cache _ _ _ _ He). cbn [default].
  assert (forall k, k ∈ deleted d -> k <= totalnum s) as Hdel by (intros k Hk%(marks_are _ _ _ _ He); rewrite (the_total _ _ _ _ He); lia).
  assert (length recs < length (mjoin recs) + 1)%nat as Hf by (pose proof (mjoin_records _ Hz) as Hj; unfold blen, sizeof_fileheader in Hj; lia).
  destruct (delete_loop_ok (letters d) (deleted d) low (totalnum s) (the_total _ _ _ _ He) Hdel recs (length (mjoin recs) + 1)
    (replicate (Z.to_nat sizeof_fileheader) 0) 1 [] 0 (<[mail_path low (bytes "pop3.DIR") := []]> (fs s)) ltac:(lia) ltac:(done) Hf Hz Hn) as (v' & Hdl & Hv). change (1 - 1) with 0 in Hdl. rewrite Hdl.
  cbn [mbind outcome_bind app]. rewrite drop_nil, app_nil_r. eexists. split; [reflexivity|]. intros p. unfold committed. pose proof (two_files low) as Htwo.
  set (dirp := mail_path low (bytes ".DIR")) in *. set (newp := mail_path low (bytes "pop3.DIR")) in *. clearbody dirp newp.
  assert (forall q, q <> newp -> v' !! q = if bool_decide (q ∈ mail_path low <$> dropped 1 recs (deleted d)) then None else fs s !! q) as Hq
    by (intros q Hq; rewrite Hv, write_lookup; by rewrite (bool_decide_eq_false_2 (q = newp))).
  rewrite Z.add_0_l. destruct (kept 1 recs (deleted d)) as [|r rs] eqn:Ek; cbn [length].
  - change (negb (Z.of_nat 0 =? 0)) with false. cbn match. rewrite !unlink_lookup.
    rewrite write_lookup. destruct (decide (p = newp)) as [->|Hp]; [rewrite (bool_decide_eq_true_2 (newp = newp)), (bool_decide_eq_false_2 (newp = dirp)) by congruence; done|].
    rewrite !(bool_decide_eq_false_2 (p = newp)) by done. case_bool_decide; [done|]. by apply Hq.
  - assert (negb (Z.of_nat (S (length rs)) =? 0) = true) as -> by (destruct (Z.eqb_spec (Z.of_nat (S (length rs))) 0); [lia|done]).
    unfold rename. rewrite unlink_lookup, (bool_decide_eq_false_2 (newp = dirp)), write_lookup, (bool_decide_eq_true_2 (newp = newp)) by congruence. cbn [from_option id].
    rewrite write_lookup. case_bool_decide as Hp; [done|]. change (delete newp ?m) with (unlink m newp). rewrite !unlink_lookup, write_lookup.
    case_bool_decide as Hp2; [done|]. rewrite (bool_decide_eq_false_2 (p = dirp)) by done. by apply Hq.
Qed.

(** * A session *)

Definition line_of (inbuf : list Z) : list Z := match cut_line inbuf with Done line => line | _ => [] end.

(** What the server says to the requests of a user who has entered, and the
    mailbox then; others may change files meanwhile. *)
Fixpoint replies (who low : list Z) (es : list event) (d : maildrop) (v : files) : list (list Z) * maildrop :=
  match es with
  | [] => ([], d)
  | Typed inbuf :: es =>
      let r := request_of (line_of inbuf) in
      let '(ls, d') := replies who low es (marked_after d r) v in (answer who (text_at v low) d r ++ ls, d')
  | Others _ v' :: es => replies who low es d v'
  | _ :: es => replies who low es d v
  end.

(** A line that is not too long and no request to quit, and others that leave
    texts which are strings. *)
Definition in_session (low : list Z) (ls : list letter) (e : event) : Prop :=
  match e with
  | Typed inbuf => exists line, cut_line inbuf = Done line /\ blen line <= 900 /\ request_of line <> QUIT
  | Others _ v => readable v low ls
  | _ => False
  end.

Lemma letters_after d r : letters (marked_after d r) = letters d.
Proof. destruct r as [|[n|]| | | | | | | | | |]; try done. cbn. by destruct (letter_at d n). Qed.

Lemma replies_ok low u es : forall d s, entered low u d s -> readable (fs s) low (letters d) -> Forall (in_session low (letters d)) es ->
  exists s', serve crypt hostname es s = Done s' /\ entered low u (replies (userid u) low es d (fs s)).2 s' /\
    sent s' = sent s ++ wire (replies (userid u) low es d (fs s)).1.
Proof.
  induction es as [|e es IH]; intros d s He Ht Hes; [exists s; cbn; by rewrite app_nil_r|].
  apply Forall_cons_1 in Hes as [He1 Hes]. cbn [serve]. unfold serve_event. rewrite (not_gone _ _ _ _ He).
  destruct e as [inbuf| | |p v]; cbn [in_session] in He1; [|done|done|].
  - destruct He1 as (line & Hc & Hl & Hq). rewrite (serve_request low u d s inbuf line) by done. cbn [mbind outcome_bind replies]. unfold line_of. rewrite Hc.
    set (s1 := say _ _). assert (entered low u (marked_after d (request_of line)) s1) as He2 by (apply entered_say, entered_marks; by apply entered_idle).
    destruct (IH (marked_after d (request_of line)) s1 He2) as (s2 & -> & He3 & Hs); [by rewrite letters_after|by rewrite letters_after|]. change (fs s1) with (fs s) in *.
    exists s2. split; [done|]. destruct (replies _ _ es _ _) as [ls d']. cbn [fst snd] in *. split; [done|]. rewrite Hs. unfold s1. cbn [sent say set_sent with_marks set_marks set_idletime].
    by rewrite wire_app, app_assoc.
  - cbn [mbind outcome_bind replies]. destruct (IH d (set_files p v s)) as (s2 & -> & He3 & Hs); [by apply entered_files|done|done|]. by exists s2.
Qed.

Definition farewell : list Z := bytes "+OK InternetBBS Pop server at " ++ hostname ++ bytes " signing off.".

Lemma request_quit line : request_of line = QUIT -> (nextwordlower line).1 = bytes "quit".
Proof.
  unfold request_of. destruct (nextwordlower line) as [cmd msg]. cbn [fst]. do 9 (case_bool_decide; [done|]). case_bool_decide; [done|].
  by destruct (bool_decide (cmd = bytes "user") || bool_decide (cmd = bytes "pass")).
Qed.

Lemma serve_quit low u d s inbuf line recs : entered low u d s -> cut_line inbuf = Done line -> request_of line = QUIT -> blen hostname <= 900 ->
  (deleted d <> ∅ -> rewritable low recs (deleted d) (fs s)) ->
  exists s', serve_line crypt hostname inbuf s = Done s' /\ gone s' = true /\ sent s' = sent s ++ wire [farewell] /\
    if bool_decide (deleted d = ∅) then fs s' = fs s else forall p, fs s' !! p = committed low recs (deleted d) (fs s) p.
Proof.
  intros He Hc Hq%request_quit Hh Hr. unfold serve_line. rewrite Hc. cbn [mbind outcome_bind]. destruct (nextwordlower line) as [cmd msg]. cbn [fst] in Hq. subst cmd.
  unfold find_command, cmdlists. decide_words. unfold Quit. apply entered_idle in He. change (fs s) with (fs (set_idletime 0 s)) in *.
  change (sent s) with (sent (set_idletime 0 s)). set (s0 := set_idletime 0 s) in *. clearbody s0.
  rewrite (is_login _ _ _ _ He), (the_marks _ _ _ _ He), (bool_decide_eq_true_2 (LOGIN = LOGIN)) by done. cbn [andb]. case_bool_decide as Hdel.
  - rewrite Hdel, size_empty. change (negb (Z.of_nat 0 =? 0)) with false. cbn [andb mbind outcome_bind]. rewrite outs_ok by short. cbn [mbind outcome_bind]. eexists. by split.
  - assert (negb (Z.of_nat (size (deleted d)) =? 0) = true) as ->.
    { destruct (Z.eqb_spec (Z.of_nat (size (deleted d))) 0) as [H|]; [|done]. apply (inj Z.of_nat _ 0%nat), size_empty_inv, leibniz_equiv in H. done. }
    destruct (do_delete_ok low u d s0 recs He (Hr Hdel)) as (v' & -> & Hv). cbn [mbind outcome_bind]. rewrite outs_ok by short. cbn [mbind outcome_bind].
    eexists. by split.
Qed.

Lemma serve_app es1 es2 s : serve crypt hostname (es1 ++ es2) s = (s ← serve crypt hostname es1 s; serve crypt hostname es2 s).
Proof.
  revert s. induction es1 as [|e es1 IH]; intros s; [done|]. cbn [app serve]. destruct (serve_event crypt hostname e s) as [s1| |]; cbn [mbind outcome_bind]; [apply IH|done..].
Qed.

Lemma serve_typed i es s : gone s = false -> serve crypt hostname (Typed i :: es) s = (s ← serve_line crypt hostname i s; serve crypt hostname es s).
Proof. intros Hg. cbn [serve]. unfold serve_event at 1. by rewrite Hg. Qed.

Lemma serve_others p v es s : serve crypt hostname (Others p v :: es) s = serve crypt hostname es (set_files p v s).
Proof. cbn [serve]. unfold serve_event at 1. by destruct (gone s). Qed.

(** C7. A session, from the password to the end: the messages are those of the
    mailbox when the user entered, with the same numbers until the end, whatever
    others do to the mailbox; the replies are those to a mailbox whose messages
    are marked by requests; and when the user quits, exactly the marked messages
    are gone with their texts, and those that came meanwhile are there. *)
Theorem session_refines low u recs ls s inbuf1 line1 msg pw rest es p v more inbuf2 line2 :
  waiting low u recs ls s ->
  cut_line inbuf1 = Done line1 -> nextwordlower line1 = (bytes "pass", msg) -> nextword msg = (pw, rest) -> pw <> [] ->
  crypt (take 14 pw) (passwd u) = Some (passwd u) ->
  Forall (in_session low ls) es ->
  let '(lines, d) := replies (userid u) low es (Maildrop ls (total_octets ls) ∅) (fs s) in
  (deleted d <> ∅ -> rewritable low (recs ++ more) (deleted d) v) ->
  cut_line inbuf2 = Done line2 -> request_of line2 = QUIT -> blen hostname <= 900 ->
  exists s', serve crypt hostname (Typed inbuf1 :: es ++ [Others p v; Typed inbuf2]) s = Done s' /\ gone s' = true /\
    sent s' = sent s ++ wire ([welcome low ls] ++ lines ++ [farewell]) /\
    if bool_decide (deleted d = ∅) then fs s' = v else forall q, fs s' !! q = committed low (recs ++ more) (deleted d) v q.
Proof.
  intros Hw Hc1 Hn1 Hm Hp Hcr Hes. destruct (replies _ low es _ (fs s)) as [lines d] eqn:Er. intros Hr Hc2 Hq2 Hh.
  rewrite serve_typed by apply Hw. unfold serve_line at 1. rewrite Hc1. cbn [mbind outcome_bind]. rewrite Hn1.
  decide_words. unfold find_command, cmdlists. decide_words.
  assert (waiting low u recs ls (set_idletime 0 s)) as Hw0 by by destruct Hw.
  destruct (Pass_opens low u recs ls _ msg pw rest Hw0 Hm Hp Hcr) as (s1 & -> & He1 & Hs1 & Hf1). cbn [mbind outcome_bind]. change (fs (set_idletime 0 s)) with (fs s) in Hf1.
  rewrite serve_app. destruct (replies_ok low u es _ (say [welcome low ls] s1) (entered_say _ _ _ _ _ He1)) as (s2 & -> & He2 & Hs2);
    [cbn [fs say set_sent]; rewrite Hf1; apply Hw|done|]. cbn [mbind outcome_bind]. cbn [fs say set_sent sent] in He2, Hs2. rewrite Hf1, Er in He2, Hs2. cbn [fst snd] in *.
  rewrite serve_others. apply (entered_files _ _ _ _ p v) in He2. rewrite serve_typed by apply He2.
  destruct (serve_quit low u d _ inbuf2 line2 (recs ++ more) He2 Hc2 Hq2 Hh Hr) as (s3 & -> & Hg & Hs3 & Hf3). cbn [mbind outcome_bind].
  exists s3. split; [done|]. split; [done|]. split; [|done]. rewrite Hs3. cbn [sent set_files]. rewrite Hs2, Hs1, !wire_app, <- !app_assoc. done.
Qed.

End Lines.

(** * Before the password *)

(** Two servers that differ in the files of mail at most. *)
Definition swap (v : files) (s : server) : server := set_files (passwds s) v s.

Lemma outs_inv l s s' : outs l s = Done s' -> s' = say [l] s.
Proof. unfold outs, say, wire. destruct (_ <=? _); [|done]. intros [= <-]. cbn. by rewrite app_nil_r. Qed.

Lemma outs_swap l v s s' : outs l s = Done s' -> outs l (swap v s) = Done (swap v s').
Proof. unfold outs. destruct (_ <=? _); [|done]. by intros [= <-]. Qed.

(** What no reply changes. *)
Definition frame (s s' : server) : Prop :=
  state_of s' = state_of s /\ LowUserid s' = LowUserid s /\ currentuser s' = currentuser s /\ passwds s' = passwds s.

Lemma same_trans a b c : frame a b -> frame b c -> frame a c.
Proof. unfold frame. intuition congruence. Qed.

Lemma outs_frame l s s' : outs l s = Done s' -> frame s s'.
Proof. by intros ->%outs_inv. Qed.

Ltac outcomes := repeat first
  [ progress cbn [mbind outcome_bind]
  | match goal with
    | |- Done _ = Done _ -> _ => intros [= <-]
    | |- Fault = Done _ -> _ => done
    | |- NoFuel = Done _ -> _ => done
    | |- context [outs ?l ?s] => lazymatch goal with |- (outs l s = Done _ -> _) => intros ?%outs_frame | _ =>
        let E := fresh in destruct (outs l s) eqn:E; [apply outs_frame in E|..] end
    end ].

Lemma outfile_frame name n s s' : outfile name n s = Done s' -> frame s s'.
Proof.
  assert (forall fuel buf text k s s', outfile_loop fuel buf text k s = Done s' -> frame s s') as Hl.
  { clear. induction fuel as [|fuel IH]; intros buf text k s s'; cbn [outfile_loop]; [done|].
    destruct (fgets buf 256 text) as [[[b t]|]| |]; cbn [mbind outcome_bind]; [|by intros [= <-]|done..]. destruct (k <=? 0); [by intros [= <-]|].
    destruct (strlen b 0) as [x| |]; cbn [mbind outcome_bind]; [|done..]. destruct (wr b (x - 1) 0) as [b1| |]; cbn [mbind outcome_bind]; [|done..].
    destruct (cstring b1 0) as [line| |]; cbn [mbind outcome_bind]; [|done..]. outcomes; [|done..]. intros Hr%IH. by eapply same_trans. }
  unfold outfile. destruct (fs s !! name) as [text|]; [|outcomes; done]. destruct (negb (n =? 0)); [|outcomes; done].
  destruct (outfile_loop _ _ _ _ _) eqn:E; cbn [mbind outcome_bind]; [|done..]. apply Hl in E. outcomes. by eapply same_trans.
Qed.

Lemma listing_frame line s s' : listing line s = Done s' -> frame s s'.
Proof.
  assert (forall ms lens i s s', each_left line i ms lens s = Done s' -> frame s s') as Hl.
  { clear. induction ms as [|m ms IH]; intros [|len lens] i s s'; cbn [each_left]; [by intros [= <-]|done..|]. destruct (accessed m =? 32).
    - outcomes; [|done..]. intros Hr%IH. by eapply same_trans.
    - cbn [mbind outcome_bind]. apply IH. }
  unfold listing. destruct (_ <? _)%nat; [done|]. destruct (each_left _ _ _ _ _) eqn:E; cbn [mbind outcome_bind]; [|done..]. apply Hl in E. outcomes. by eapply same_trans.
Qed.

Lemma Login_init_frame s s' : Login_init s = Done s' -> frame s s'.
Proof.
  unfold Login_init. destruct (fs s !! _) as [[|c t]|]; [by intros [= <-]| |by intros [= <-]].
  destruct (init_loop _ _ _ _ _) as [[[ms lens] b]| |]; cbn [mbind outcome_bind]; [|done..]. by intros [= <-].
Qed.

Lemma do_delete_frame s s' : do_delete s = Done s' -> frame s s'.
Proof.
  unfold do_delete. destruct (fs s !! _) as [dir|]; [|by intros [= <-]].
  destruct (delete_loop _ _ _ _ _ _ _ _ _ _) as [[[a b] c]| |]; cbn [mbind outcome_bind]; [|done..]. by intros [= <-].
Qed.

Section Guarded.
Context (crypt : list Z -> list Z -> option (list Z)) (hostname : list Z).

Lemma serve_line_frame inbuf s s' : serve_line crypt hostname inbuf s = Done s' ->
  state_of s = LOGIN \/ (forall line, cut_line inbuf = Done line -> let w := (nextwordlower line).1 in w <> bytes "user" /\ w <> bytes "pass") -> frame s s'.
Proof.
  unfold serve_line. intros Hr Hx. assert (frame (set_idletime 0 s) s' -> frame s s') as Hi by done. apply Hi. clear Hi. revert Hr.
  change (state_of s) with (state_of (set_idletime 0 s)) in Hx. generalize dependent (set_idletime 0 s). clear s. intros s Hx.
  destruct (cut_line inbuf) as [line| |]; cbn [mbind outcome_bind]; [|done..].
  assert (state_of s = LOGIN \/ ((nextwordlower line).1 <> bytes "user" /\ (nextwordlower line).1 <> bytes "pass")) as Hx' by (destruct Hx as [?|Hx]; [by left|right; by apply Hx]).
  clear Hx. destruct (nextwordlower line) as [cmd msg]. cbn [fst] in Hx'. case_bool_decide; [by intros [= <-]|].
  unfold find_command, cmdlists.
  repeat (case_bool_decide; [subst cmd; cbn beta|]); [..|apply outs_frame].
  - unfold Retr. destruct (negb _); [apply outs_frame|]. destruct (nextword msg) as [w r]. case_bool_decide; [apply outs_frame|].
    rewrite atoi_total. cbn [mbind outcome_bind]. destruct (chosen _ _ _) as [[[m len]|e]| |]; cbn [mbind outcome_bind]; [|apply outs_frame|done..].
    outcomes; try done. intros Hf%outfile_frame. repeat (eapply same_trans; [eassumption|]). done.
  - unfold Dele. destruct (negb _); [apply outs_frame|]. destruct (nextword msg) as [w r]. case_bool_decide; [apply outs_frame|].
    rewrite atoi_total. cbn [mbind outcome_bind]. destruct (chosen _ _ _) as [[[m len]|e]| |]; cbn [mbind outcome_bind]; [|apply outs_frame|done..]. by intros ?%outs_frame.
  - destruct Hx' as [Hl|[Hu _]]; [|done]. unfold User. rewrite Hl. apply outs_frame.
  - destruct Hx' as [Hl|[_ Hu]]; [|done]. unfold Pass. rewrite Hl. apply outs_frame.
  - unfold Stat. destruct (negb _); apply outs_frame.
  - unfold List. destruct (negb _); [apply outs_frame|]. destruct (nextword msg) as [w r]. case_bool_decide.
    + outcomes; try done. intros Hf%listing_frame. by eapply same_trans.
    + rewrite atoi_total. cbn [mbind outcome_bind]. destruct (chosen _ _ _) as [[[m len]|e]| |]; cbn [mbind outcome_bind]; [apply outs_frame..|done|done].
  - unfold Uidl. destruct (negb _); [apply outs_frame|]. destruct (nextword msg) as [w r]. case_bool_decide.
    + outcomes; try done. intros Hf%listing_frame. by eapply same_trans.
    + rewrite atoi_total. cbn [mbind outcome_bind]. destruct (chosen _ _ _) as [[[m len]|e]| |]; cbn [mbind outcome_bind]; [apply outs_frame..|done|done].
  - unfold Quit. destruct (_ && _).
    + destruct (do_delete s) as [s1| |] eqn:E; cbn [mbind outcome_bind]; [|done..]. apply do_delete_frame in E. outcomes; try done. by apply (same_trans _ s1).
    + outcomes; done.
  - unfold Rset. destruct (negb _); [apply outs_frame|]. destruct (_ <? _)%nat; [done|]. by intros ?%outs_frame.
  - unfold Last. destruct (negb _); apply outs_frame.
  - apply outs_frame.
Qed.

(** The account that a line names for its password. *)
Definition asked_for (line : list Z) : option (list Z) :=
  let '(cmd, msg) := nextwordlower line in
  let w := (nextwordlower msg).1 in
  if bool_decide (cmd = bytes "user") && negb (bool_decide (w = [])) && bool_decide (is_Some (find_sub (bytes ".bbs") w)) then Some (before 46 w) else None.

Definition account (recs : list user) (low : list Z) (u : user) : Prop := u ∈ recs /\ 0 < numlogins u /\ userid u = low.

Lemma find_user_some name recs : forall cur r u, find_user name recs cur = (Some r, u) -> account recs r u.
Proof.
  induction recs as [|v recs IH]; intros cur r u; [done|]. cbn [find_user]. destruct (Z.leb_spec (numlogins v) 0).
  - intros (Hi & Hr)%IH. split; [by right|done].
  - destruct (strcaseeq name (userid v)); [intros [= <- <-]; split; [by left|done]|]. intros (Hi & Hr)%IH. split; [by right|done].
Qed.

(** What the server knows: a name in [LowUserid] is that of [currentuser], and a
    user has entered with a password of the account. *)
Record checked (recs : list user) (s : server) : Prop := {
  c_accounts : passwds s = Some recs;
  c_named : LowUserid s <> [] -> account recs (LowUserid s) (currentuser s);
  c_entered : state_of s = LOGIN -> LowUserid s <> [] /\ exists pw, crypt (take 14 pw) (passwd (currentuser s)) = Some (passwd (currentuser s)) }.

Lemma checked_frame recs s s' : frame s s' -> checked recs s -> checked recs s'.
Proof. intros (H1 & H2 & H3 & H4) [A B C]. split; [congruence|rewrite H2, H3; done|rewrite H1, H2, H3; done]. Qed.

Definition accounts_stay (recs : list user) (e : event) : Prop :=
  match e with
  | Others p _ => p = Some recs
  | Typed inbuf => forall line name cur, cut_line inbuf = Done line -> asked_for line = Some name -> (find_user name recs cur).1 <> None
  | _ => True
  end.

Lemma checked_line recs s inbuf s' : checked recs s -> state_of s = CONNECT -> accounts_stay recs (Typed inbuf) -> serve_line crypt hostname inbuf s = Done s' -> checked recs s'.
Proof.
  intros Hc Hs Ha Hr. destruct (cut_line inbuf) as [line| |] eqn:El; [|unfold serve_line in Hr; by rewrite El in Hr..].
  assert (checked recs (set_idletime 0 s)) as Hc0 by (by apply (checked_frame recs s)).
  specialize (Ha line). destruct (decide ((nextwordlower line).1 = bytes "user")) as [Hu|Hu]; [|destruct (decide ((nextwordlower line).1 = bytes "pass")) as [Hp|Hp]].
  - unfold serve_line in Hr. rewrite El in Hr. cbn [mbind outcome_bind] in Hr. unfold asked_for in Ha. destruct (nextwordlower line) as [cmd msg]. cbn [fst] in Hu. subst cmd.
    revert Hr. unfold find_command, cmdlists. decide_words. unfold User. change (state_of (set_idletime 0 s)) with (state_of s). rewrite Hs, bool_decide_eq_false_2 by done.
    rewrite bool_decide_eq_true_2 in Ha by done. destruct (nextwordlower msg) as [w r]. cbn [fst andb] in Ha.
    case_bool_decide; [intros Hf%outs_frame; by eapply checked_frame|]. cbn [negb andb] in Ha. destruct (find_sub (bytes ".bbs") w) as [k|]; [|intros Hf%outs_frame; by eapply checked_frame].
    rewrite bool_decide_eq_true_2 in Ha by eauto. unfold get_userdata. rewrite (c_accounts _ _ Hc0). specialize (Ha (before 46 w) (currentuser (set_idletime 0 s)) El eq_refl).
    destruct (find_user _ _ _) as [[name|] u] eqn:Ef; cbn [fst] in Ha; [|done]. destruct (blen name <? 20); [|done]. intros Hf%outs_frame. apply (checked_frame _ _ _ Hf).
    apply find_user_some in Ef. destruct Hc0 as [A B C]. split; [done|done|]. cbn. congruence.
  - unfold serve_line in Hr. rewrite El in Hr. cbn [mbind outcome_bind] in Hr. destruct (nextwordlower line) as [cmd msg]. cbn [fst] in Hp. subst cmd.
    revert Hr. unfold find_command, cmdlists. decide_words. unfold Pass. change (state_of (set_idletime 0 s)) with (state_of s). rewrite Hs, bool_decide_eq_false_2 by done.
    destruct (nextword msg) as [w r]. case_bool_decide; [intros Hf%outs_frame; by eapply checked_frame|].
    case_bool_decide as Hlow; [intros Hf%outs_frame; by eapply checked_frame|]. unfold checkpasswd.
    destruct (crypt (take 14 w) (passwd (currentuser (set_idletime 0 s)))) as [pw|] eqn:Ecr; cbn [mbind outcome_bind]; [|done]. case_bool_decide as Hpw; cbn [negb].
    + subst pw. destruct (Login_init _) as [s1| |] eqn:E1; cbn [mbind outcome_bind]; [|done..]. apply Login_init_frame in E1.
      intros Hf%outs_frame. apply (checked_frame _ _ _ Hf), (checked_frame _ _ _ E1). destruct Hc0 as [A B C]. split; [done|done|]. intros _. split; [done|by eexists].
    + destruct (outs _ _) as [s1| |] eqn:E1; cbn [mbind outcome_bind]; [|done..]. intros [= <-]. apply outs_frame in E1. apply (checked_frame _ _ _ E1) in Hc0.
      destruct Hc0 as [A B C]. destruct E1 as (Hst & _). cbn in Hst. split; [done|done|]. cbn. congruence.
  - apply (checked_frame recs s); [|done]. apply (serve_line_frame inbuf); [done|]. right. intros l [= <-]%(eq_trans (eq_sym El)). done.
Qed.

Lemma checked_event recs s e s' : checked recs s -> accounts_stay recs e -> serve_event crypt hostname e s = Done s' -> checked recs s'.
Proof.
  intros Hc Ha. unfold serve_event. destruct (gone s).
  - intros [= <-]. destruct e as [i| | |p v]; [done..|]. cbn in Ha. subst p. by destruct Hc.
  - destruct e as [i| | |p v].
    + intros Hr. destruct (state_of s) eqn:Es; [by eapply checked_line|]. apply (checked_frame recs s); [|done]. apply (serve_line_frame i); [done|by left].
    + intros [= <-]. by destruct Hc.
    + intros [= <-]. unfold pop3_timeout. destruct (5 <? _); by destruct Hc.
    + intros [= <-]. cbn in Ha. subst p. by destruct Hc.
Qed.

Lemma checked_run recs es : forall s s', checked recs s -> Forall (accounts_stay recs) es -> serve crypt hostname es s = Done s' -> checked recs s'.
Proof.
  induction es as [|e es IH]; intros s s' Hc Ha; cbn [serve]; [by intros [= <-]|]. apply Forall_cons_1 in Ha as [He Ha].
  destruct (serve_event crypt hostname e s) as [s1| |] eqn:E; cbn [mbind outcome_bind]; [|done..]. apply IH; [by eapply checked_event|done].
Qed.


(** What is done to a server does not depend on the files of mail, nor does it
    change them, as long as no user enters. *)
Definition blind (f : server -> outcome server) (s : server) : Prop := forall w s', f s = Done s' -> state_of s' = CONNECT ->
  f (swap w s) = Done (swap w s') /\ fs s' = fs s.

Lemma outs_blind l s : blind (outs l) s.
Proof. intros w s' H _. split; [by apply outs_swap|]. by apply outs_inv in H as ->. Qed.

Lemma if_blind (b : bool) f g s : blind f s -> blind g s -> blind (fun s => if b then f s else g s) s.
Proof. by destruct b. Qed.

Lemma User_blind msg s : state_of s = CONNECT -> blind (User msg) s.
Proof.
  intros Hs w s' Hr Hs'. revert Hr. unfold User. cbn [state_of swap set_files]. rewrite Hs, (bool_decide_eq_false_2 (CONNECT = LOGIN)) by done.
  destruct (nextwordlower msg) as [c r]. case_bool_decide; [intros Hr; by apply (outs_blind _ s)|]. destruct (find_sub _ _); [|intros Hr; by apply (outs_blind _ s)].
  unfold get_userdata. cbn [passwds currentuser swap set_files]. destruct (passwds s) as [recs|]; [|intros Hr; by apply (outs_blind _ s)].
  destruct (find_user _ _ _) as [[name|] u].
  - destruct (blen name <? 20); [|done]. intros Hr. by apply (outs_blind _ (set_LowUserid name (set_currentuser u s))).
  - intros Hr. by apply (outs_blind _ (set_currentuser u s)).
Qed.

Lemma Pass_blind msg s : state_of s = CONNECT -> blind (Pass crypt msg) s.
Proof.
  intros Hs w s' Hr Hs'. revert Hr. unfold Pass. cbn [state_of LowUserid currentuser swap set_files]. rewrite Hs, (bool_decide_eq_false_2 (CONNECT = LOGIN)) by done.
  destruct (nextword msg) as [c r]. case_bool_decide; [intros Hr; by apply (outs_blind _ s)|]. case_bool_decide; [intros Hr; by apply (outs_blind _ s)|].
  destruct (checkpasswd crypt _ c) as [[]| |]; cbn [mbind outcome_bind negb]; [| |done..].
  - destruct (Login_init _) as [s1| |] eqn:E1; cbn [mbind outcome_bind]; [|done..]. intros Ho%outs_frame. apply Login_init_frame in E1.
    destruct (same_trans _ _ _ E1 Ho) as (Hx & _). cbn in Hx. congruence.
  - destruct (outs _ s) as [s1| |] eqn:E1; cbn [mbind outcome_bind]; [|done..]. intros [= <-]. rewrite (outs_swap _ w _ _ E1). apply outs_inv in E1 as ->. done.
Qed.

Lemma serve_line_blind inbuf s : state_of s = CONNECT -> blind (serve_line crypt hostname inbuf) s.
Proof.
  intros Hs w s' Hr Hs'. revert Hr. unfold serve_line. change (set_idletime 0 (swap w s)) with (swap w (set_idletime 0 s)). change (fs s) with (fs (set_idletime 0 s)).
  change (state_of (set_idletime 0 s) = CONNECT) in Hs. generalize dependent (set_idletime 0 s). clear s. intros s Hs.
  destruct (cut_line inbuf) as [line| |]; cbn [mbind outcome_bind]; [|done..]. destruct (nextwordlower line) as [cmd msg]. case_bool_decide; [by intros [= <-]|].
  assert (forall l, outs l s = Done s' -> outs l (swap w s) = Done (swap w s') /\ fs s' = fs s) as Ho by (intros l Hl; by apply (outs_blind l s)).
  assert (state_of (swap w s) = CONNECT) as Hw by done.
  unfold find_command, cmdlists. repeat (case_bool_decide; [subst cmd; cbn beta|]); [..|apply Ho].
  - unfold Retr. rewrite Hw, Hs. apply Ho.
  - unfold Dele. rewrite Hw, Hs. apply Ho.
  - intros Hr. by apply User_blind.
  - intros Hr. by apply Pass_blind.
  - unfold Stat. rewrite Hw, Hs. apply Ho.
  - unfold List. rewrite Hw, Hs. apply Ho.
  - unfold Uidl. rewrite Hw, Hs. apply Ho.
  - unfold Quit. rewrite Hw, Hs, bool_decide_eq_false_2 by done. cbn [andb mbind outcome_bind]. destruct (outs _ s) as [s1| |] eqn:E1; cbn [mbind outcome_bind]; [|done..].
    intros [= <-]. rewrite (outs_swap _ w _ _ E1). apply outs_inv in E1 as ->. done.
  - unfold Rset. rewrite Hw, Hs. apply Ho.
  - unfold Last. rewrite Hw, Hs. apply Ho.
  - apply Ho.
Qed.

(** The same requests, and the same accounts whatever the files. *)
Inductive same_event : event -> event -> Prop :=
| same_typed i : same_event (Typed i) (Typed i)
| same_end : same_event End_of_input End_of_input
| same_alarm : same_event Alarm Alarm
| same_others p v v' : same_event (Others p v) (Others p v').

Lemma serve_login es : forall s s', serve crypt hostname es s = Done s' -> state_of s = LOGIN -> state_of s' = LOGIN.
Proof.
  induction es as [|e es IH]; intros s s'; cbn [serve]; [by intros [= <-]|]. destruct (serve_event crypt hostname e s) as [s1| |] eqn:E; cbn [mbind outcome_bind]; [|done..].
  intros Hr Hs. apply (IH _ _ Hr). revert E. unfold serve_event. destruct (gone s); [intros [= <-]; by destruct e|]. destruct e as [i| | |p v].
  - intros Hi. destruct (serve_line_frame i s s1 Hi) as (-> & _); [by left|done].
  - by intros [= <-].
  - intros [= <-]. unfold pop3_timeout. by destruct (5 <? _).
  - by intros [= <-].
Qed.

Lemma serve_blind es es' : Forall2 same_event es es' -> forall s s' w, serve crypt hostname es s = Done s' -> state_of s' = CONNECT ->
  (exists w', serve crypt hostname es' (swap w s) = Done (swap w' s')) /\ (Forall (fun e => match e with Others _ _ => False | _ => True end) es -> fs s' = fs s).
Proof.
  induction 1 as [|e e' es es' He Hes IH]; intros s s' w; cbn [serve]; [intros [= <-] _; split; [by exists w|done]|].
  destruct (serve_event crypt hostname e s) as [s1| |] eqn:E; cbn [mbind outcome_bind]; [|done..]. intros Hr Hs'.
  assert (state_of s1 = CONNECT) as Hs1 by (destruct (state_of s1) eqn:Es; [done|apply serve_login in Hr; congruence]).
  assert (exists w1, serve_event crypt hostname e' (swap w s) = Done (swap w1 s1) /\ (match e with Others _ _ => False | _ => True end -> fs s1 = fs s)) as (w1 & He1 & Hf1).
  { revert E. unfold serve_event. cbn [gone swap set_files]. destruct (gone s).
    - intros [= <-]. destruct He as [i| | |p v v']; [by exists w..|by exists v'].
    - destruct He as [i| | |p v v'].
      + intros Hi. destruct (serve_line_blind i s) with (w := w) (s' := s1) as [Hb Hf]; [|done|done|by exists w].
        destruct (state_of s) eqn:Es; [done|]. destruct (serve_line_frame i s s1 Hi) as (Hx & _); [by left|congruence].
      + intros [= <-]. by exists w.
      + intros [= <-]. exists w. unfold pop3_timeout. cbn [idletime set_idletime swap set_files]. by destruct (5 <? _).
      + intros [= <-]. by exists v'. }
  rewrite He1. cbn [mbind outcome_bind]. destruct (IH s1 s' w1 Hr Hs') as [Hw Hf]. split; [done|]. intros Hn. apply Forall_cons_1 in Hn as [Hn1 Hn]. by rewrite Hf, Hf1.
Qed.

(** C8. Until a user has entered nothing of what is sent depends on the mail of
    anybody, and no file of mail is changed: the same requests with other files
    have the same replies. *)
Theorem mail_guarded p v v' es es' s : Forall2 same_event es es' -> connection crypt hostname p v es = Done s -> state_of s = CONNECT ->
  (exists s', connection crypt hostname p v' es' = Done s' /\ sent s' = sent s /\ gone s' = gone s) /\
  (Forall (fun e => match e with Others _ _ => False | _ => True end) es -> fs s = v).
Proof.
  intros He. unfold connection. change (Init p v') with (swap v' (Init p v)). destruct (outs _ (Init p v)) as [s0| |] eqn:E; cbn [mbind outcome_bind]; [|done..].
  rewrite (outs_swap _ v' _ _ E). cbn [mbind outcome_bind]. intros Hr Hs. destruct (serve_blind es es' He s0 s v' Hr Hs) as [[w ->] Hf]. split; [by exists (swap w s)|].
  intros Hn. rewrite (Hf Hn). by apply outs_inv in E as ->.
Qed.

End Guarded.

(** * A client *)

(** A line up to its end, and what is behind it. *)
Fixpoint read_line (s : list Z) : option (list Z * list Z) :=
  match s with
  | [] => None
  | c :: s' =>
      match s' with
      | d :: r => if (c =? 13) && (d =? 10) then Some ([], r) else '(l, r) ← read_line s'; Some (c :: l, r)
      | [] => None
      end
  end.

(** The lines of a reply up to the dot; a dot before a line is taken off. *)
Fixpoint read_lines (fuel : nat) (s : list Z) : option (list (list Z) * list Z) :=
  match fuel with
  | O => None
  | S fuel =>
      '(l, r) ← read_line s;
      if bool_decide (l = bytes ".") then Some ([], r)
      else
        let l := match l with c :: l' => if c =? 46 then l' else l | [] => l end in
        '(ls, r) ← read_lines fuel r; Some (l :: ls, r)
  end.

(** A message: the first line says that it comes, and an empty line ends its
    header. *)
Fixpoint split_header (ls : list (list Z)) : option (list (list Z) * list (list Z)) :=
  match ls with [] => None | l :: ls => if bool_decide (l = []) then Some ([], ls) else '(h, b) ← split_header ls; Some (l :: h, b) end.

Definition read_message (s : list Z) : option (list (list Z) * list (list Z) * list Z) :=
  '(l, r) ← read_line s;
  if bool_decide (take 3 l = bytes "+OK") then '(ls, r) ← read_lines (length r) r; '(h, b) ← split_header ls; Some (h, b, r) else None.

Definition one_line (l : list Z) : Prop := Forall (fun c => c <> 10) l.

Lemma one_line_check l : forallb (fun c => negb (c =? 10)) l = true -> one_line l.
Proof. rewrite forallb_forall. intros H. apply list.Forall_forall. intros c Hc%list_elem_of_In%H. by destruct (Z.eqb_spec c 10). Qed.

Lemma read_line_cons c d r : read_line (c :: d :: r) = if (c =? 13) && (d =? 10) then Some ([], r) else '(l, r) ← read_line (d :: r); Some (c :: l, r).
Proof. done. Qed.

Lemma read_line_ok l rest : one_line l -> read_line (l ++ [13; 10] ++ rest) = Some (l, rest).
Proof.
  induction 1 as [|c l Hc Hl IH]; [done|]. destruct l as [|d l]; cbn [app] in *; rewrite read_line_cons, IH.
  - by rewrite andb_false_r.
  - apply Forall_cons_1 in Hl as [Hd _]. destruct (Z.eqb_spec d 10); [done|]. by rewrite andb_false_r.
Qed.

Lemma wire_cons l ls : wire (l :: ls) = l ++ [13; 10] ++ wire ls.
Proof. unfold wire. cbn. by rewrite <- app_assoc. Qed.

Lemma wire_length ls : (length ls <= length (wire ls))%nat.
Proof. induction ls as [|l ls IH]; [done|]. rewrite wire_cons, !length_app. cbn. lia. Qed.

(** Lines of which only a single dot needs one more. *)
Definition undotted (l : list Z) : Prop := l = bytes "." \/ head l <> Some 46.

Lemma read_lines_ok ls rest : forall fuel, (length ls < fuel)%nat -> Forall one_line ls -> Forall undotted ls ->
  read_lines fuel (wire ((stuffed <$> ls) ++ [bytes "."]) ++ rest) = Some (ls, rest).
Proof.
  induction ls as [|l ls IH]; intros [|fuel] Hf Hl Hu; cbn [length] in Hf; try lia; cbn [fmap list_fmap app read_lines].
  - by rewrite wire_cons, <- app_assoc.
  - apply Forall_cons_1 in Hl as [Hl1 Hl]. apply Forall_cons_1 in Hu as [Hu1 Hu]. rewrite wire_cons, <- !app_assoc.
    rewrite read_line_ok by (unfold stuffed; case_bool_decide; [by apply one_line_check|done]). cbn [mbind option_bind].
    rewrite IH by (done || lia). cbn [mbind option_bind]. unfold stuffed. destruct (decide (l = bytes ".")) as [->|Hd]; [done|].
    rewrite !(bool_decide_eq_false_2 (l = bytes ".")) by done. destruct l as [|c l]; [done|]. destruct Hu1 as [|Hh]; [done|]. cbn in Hh.
    destruct (Z.eqb_spec c 46); [congruence|done].
Qed.

Lemma pieces_rows rows : forall fuel, (length rows <= fuel)%nat -> Forall (row_ok 256) rows -> pieces fuel (text_of rows) = (fun r => r ++ [10]) <$> rows.
Proof.
  induction rows as [|r rows IH]; intros fuel Hf Hr; [by destruct fuel|]. cbn [length] in Hf. destruct fuel as [|fuel]; [lia|]. apply Forall_cons_1 in Hr as [(Hn & H10 & Hlen) Hr].
  rewrite text_of_cons. cbn [pieces]. destruct (r ++ 10 :: text_of rows) as [|c t] eqn:E; [by destruct r|]. rewrite <- E.
  rewrite fgets_line_row by (done || unfold blen in *; lia). cbn [fmap list_fmap]. f_equal. apply IH; [lia|done].
Qed.

Lemma text_rows_length rows : (length rows <= length (text_of rows))%nat.
Proof. induction rows as [|r rows IH]; [done|]. rewrite text_of_cons, length_app. cbn. lia. Qed.

Lemma body_rows n rows : (length rows <= n)%nat -> Forall (row_ok 256) rows -> body n (text_of rows) = stuffed <$> rows.
Proof.
  intros Hn Hr. unfold body. rewrite pieces_rows by (done || apply text_rows_length). rewrite firstn_all2 by (by rewrite length_fmap).
  rewrite <- list_fmap_compose. apply list_fmap_ext. intros i r _. cbn. by rewrite removelast_snoc.
Qed.


(** * Examples *)

(** An account with the password [secret], a mailbox of two messages. *)
Definition plain_crypt (key setting : list Z) : option (list Z) := Some (rev key).

Definition ann : user := User_ (bytes "Ann") (rev (bytes "secret")) 3.
Definition zoe : user := User_ (bytes "zoe") (rev (bytes "xyzzy")) 1.

Definition pad (n : Z) (s : list Z) : list Z := s ++ replicate (Z.to_nat (n - blen s)) 0.
Definition record_of (name own ttl : list Z) : list Z := pad 80 name ++ pad 80 own ++ pad 96 ttl.

Definition two_records : list (list Z) :=
  [record_of (bytes "M.1") (bytes "bob (Bob)") (bytes "hello"); record_of (bytes "M.2") (bytes "carl@elsewhere") (bytes "news")].
Definition third_record : list Z := record_of (bytes "M.3") (bytes "bob") (bytes "late").

Definition two_rows : list (list Z) := [bytes "dear Ann,"; bytes "."; []; bytes "bye"].
Definition ann_files (recs : list (list Z)) : files :=
  <[mail_path (bytes "Ann") (bytes ".DIR") := mjoin recs]> (<[mail_path (bytes "Ann") (bytes "M.1") := text_of two_rows]>
    (<[mail_path (bytes "Ann") (bytes "M.2") := bytes "x"]> (<[mail_path (bytes "Ann") (bytes "M.3") := bytes "y"]> ∅))).

Definition typed (l : list Z) : event := Typed (l ++ [13; 10; 0]).

Definition two_letters : list letter :=
  [Letter (bytes "M.1") (bytes "bob.bbs@MSIA.pine.ncu.edu.tw") (bytes "hello") 110; Letter (bytes "M.2") (bytes "carl@elsewhere") (bytes "news") 79].

Definition here : list Z := bytes "bbs".
Definition after_user : outcome server := connection plain_crypt here (Some [ann; zoe]) (ann_files two_records) [typed (bytes "USER ann.bbs")].

Example a_session :
  match connection plain_crypt here (Some [ann; zoe]) (ann_files two_records)
    [typed (bytes "USER ann.bbs"); typed (bytes "PASS secret"); typed (bytes "LIST"); typed (bytes "DELE 1"); typed (bytes "stat"); typed (bytes "quit")] with
  | Done s => bool_decide (sent s = wire [bytes "+OK InternetBBS Pop server at bbs starting."; bytes "+OK Password required for Ann.bbs.";
      bytes "+OK Ann has 2 message(s) (189 octets)."; bytes "+OK 2 messages (189 octets)"; bytes "1 110"; bytes "2 79"; bytes ".";
      bytes "+OK Message 0 has been deleted."; bytes "+OK 2 189"; bytes "+OK InternetBBS Pop server at bbs signing off."])
      && bool_decide (fs s !! mail_path (bytes "Ann") (bytes ".DIR") = Some (mjoin (drop 1 two_records)))
  | _ => false
  end = true.
Proof. vm_compute. reflexivity. Qed.

(** A name that no account has leaves the last account in [currentuser], and the
    name of the one before in [LowUserid]: its mailbox opens with the password of
    the last account. *)
Example other_password_opens :
  match connection plain_crypt here (Some [ann; zoe]) (ann_files two_records) [typed (bytes "USER ann.bbs"); typed (bytes "USER nobody.bbs"); typed (bytes "PASS xyzzy")] with
  | Done s => bool_decide (state_of s = LOGIN) && bool_decide (LowUserid s = bytes "Ann") && bool_decide (userid (currentuser s) = bytes "zoe")
  | _ => false
  end = true.
Proof. vm_compute. reflexivity. Qed.

(** An empty line is read before its begin. *)
Example empty_line_faults : cut_line [10; 0] = Fault.
Proof. reflexivity. Qed.

(** A long word of a request overflows the reply. *)
Example long_word_faults : unknown (replicate 1000 97) (Init None ∅) = Fault.
Proof. vm_compute. reflexivity. Qed.

(** A line that begins with a dot arrives without it. *)
Example dot_is_lost :
  match outfile [] 99999 (Init None (<[[] := bytes ".x" ++ [10]]> ∅)) with
  | Done s => bool_decide (read_lines 10 (sent s) = Some ([bytes "x"], []))
  | _ => false
  end = true.
Proof. vm_compute. reflexivity. Qed.

(** * Witnesses *)

Definition ann_waits : server := match after_user with Done s => s | _ => Init None ∅ end.

Lemma nul_free_check l : forallb (fun c => (0 <? c) && (c <? 256)) l = true -> nul_free l.
Proof. rewrite forallb_forall. intros H. apply list.Forall_forall. intros c Hc%list_elem_of_In%H. apply andb_true_iff in Hc as [H1%Z.ltb_lt H2%Z.ltb_lt]. done. Qed.

Lemma readable_check v low ls :
  forallb (fun l => match text_at v low (l_name l) with Some t => forallb (fun c => (0 <? c) && (c <? 256)) t | None => true end) ls = true -> readable v low ls.
Proof.
  rewrite forallb_forall. intros H. apply list.Forall_forall. intros l Hl%list_elem_of_In%H text Ht. rewrite Ht in Hl. by apply nul_free_check.
Qed.

Lemma two_on_disk : Forall2 (on_disk (ann_files two_records) (bytes "Ann")) two_records two_letters.
Proof.
  constructor; [|constructor; [|constructor]]; (split; [vm_compute; reflexivity|vm_compute; reflexivity| |vm_compute; reflexivity|vm_compute; reflexivity]).
  - exists (bytes "bob (Bob)"). split; [vm_compute; reflexivity|]. split; [vm_compute; reflexivity|]. intros _. vm_compute. reflexivity.
  - exists (bytes "carl@elsewhere"). split; [vm_compute; reflexivity|]. split; [vm_compute; reflexivity|]. intros H. vm_compute in H. discriminate H.
Qed.

Lemma ann_is_waiting : waiting (bytes "Ann") ann two_records two_letters ann_waits.
Proof.
  assert (fs ann_waits = ann_files two_records) as Hf by (vm_compute; reflexivity).
  split; rewrite ?Hf; try (vm_compute; reflexivity).
  - done.
  - by split; vm_compute.
  - split; [vm_compute; reflexivity|split; vm_compute; reflexivity].
  - exact two_on_disk.
  - apply readable_check. vm_compute. reflexivity.
Qed.

Lemma typed_in_session low ls l line : cut_line (l ++ [13; 10; 0]) = Done line -> (blen line <=? 900) = true -> request_of line <> QUIT -> in_session low ls (typed l).
Proof. intros Hc Hl Hq. exists line. split; [exact Hc|]. split; [by apply Z.leb_le|exact Hq]. Qed.

Lemma session_refines_witness :
  let v := ann_files (two_records ++ [third_record]) in
  let es := [typed (bytes "DELE 1"); Others None v; typed (bytes "retr 1")] in
  exists s', serve plain_crypt here (typed (bytes "PASS secret") :: es ++ [Others None v; typed (bytes "quit")]) ann_waits = Done s' /\ gone s' = true /\
    sent s' = sent ann_waits ++ wire ([welcome (bytes "Ann") two_letters] ++ [bytes "+OK Message 0 has been deleted."; bytes "-ERR Message 1 has been deleted."] ++ [farewell here]) /\
    fs s' !! mail_path (bytes "Ann") (bytes ".DIR") = Some (mjoin (drop 1 two_records ++ [third_record])) /\
    fs s' !! mail_path (bytes "Ann") (bytes "M.1") = None.
Proof.
  intros v es.
  assert (in_session (bytes "Ann") two_letters (Others None v)) as Hv by (apply readable_check; vm_compute; reflexivity).
  assert (Forall (in_session (bytes "Ann") two_letters) es) as Hes.
  { constructor; [eapply typed_in_session; [vm_compute; reflexivity|vm_compute; reflexivity|vm_compute; discriminate]|].
    constructor; [exact Hv|]. constructor; [eapply typed_in_session; [vm_compute; reflexivity|vm_compute; reflexivity|vm_compute; discriminate]|constructor]. }
  pose proof (session_refines plain_crypt here (bytes "Ann") ann two_records two_letters ann_waits (bytes "PASS secret" ++ [13; 10; 0]) (bytes "PASS secret") (bytes "secret") (bytes "secret") []
    es None v [third_record] (bytes "quit" ++ [13; 10; 0]) (bytes "quit") ann_is_waiting) as H.
  specialize (H ltac:(vm_compute; reflexivity) ltac:(vm_compute; reflexivity) ltac:(vm_compute; reflexivity) ltac:(done) ltac:(vm_compute; reflexivity) Hes).
  assert (replies (userid ann) (bytes "Ann") es (Maildrop two_letters (total_octets two_letters) ∅) (fs ann_waits) =
    ([bytes "+OK Message 0 has been deleted."; bytes "-ERR Message 1 has been deleted."], Maildrop two_letters (total_octets two_letters) {[1]})) as Er by (vm_compute; reflexivity).
  rewrite Er in H. cbn [deleted] in H. destruct H as (s' & Hr & Hg & Hs & Hf).
  - intros _. split; [vm_compute; reflexivity|repeat constructor| |vm_compute; reflexivity|].
    + intros [|[|[|k]]] r Hk Hin; [|exfalso; revert Hin; vm_compute; discriminate..|done]. injection Hk as <-. eexists. vm_compute. reflexivity.
    + vm_compute. intros Hin. inversion Hin as [|? ? ? Hin']; inversion Hin'.
  - vm_compute. reflexivity.
  - vm_compute. reflexivity.
  - vm_compute. discriminate.
  - assert (bool_decide (({[1]} : gset Z) = ∅) = false) as Eb by (vm_compute; reflexivity). rewrite Eb in Hf. exists s'. split; [exact Hr|]. split; [exact Hg|]. split; [exact Hs|].
    split; rewrite Hf; vm_compute; reflexivity.
Defined.

Lemma no_user_line recs l line : cut_line (l ++ [13; 10; 0]) = Done line -> asked_for line = None -> accounts_stay recs (typed l).
Proof. intros Hc Ha line' name cur Hc' Ha'. rewrite Hc in Hc'. injection Hc' as <-. congruence. Qed.


Lemma mail_guarded_witness :
  let es := [typed (bytes "USER ann.bbs"); typed (bytes "RETR 1"); typed (bytes "PASS guess")] in
  Forall2 same_event es es /\ exists s, connection plain_crypt here (Some [ann; zoe]) (ann_files two_records) es = Done s /\ state_of s = CONNECT /\
    (exists s', connection plain_crypt here (Some [ann; zoe]) ∅ es = Done s' /\ sent s' = sent s /\ gone s' = gone s) /\ fs s = ann_files two_records.
Proof.
  intros es. assert (Forall2 same_event es es) as He by (repeat constructor). split; [exact He|].
  assert (exists s, connection plain_crypt here (Some [ann; zoe]) (ann_files two_records) es = Done s /\ state_of s = CONNECT) as (s & Hr & Hs)
    by (eexists; split; [vm_compute; reflexivity|reflexivity]).
  destruct (mail_guarded plain_crypt here (Some [ann; zoe]) (ann_files two_records) ∅ es es s He Hr Hs) as [H1 H2].
  exists s. split; [exact Hr|]. split; [exact Hs|]. split; [exact H1|]. apply H2. repeat constructor.
Defined.

