(* ===== verification/More.v ===== *)
(** The pager: [src/more.c]. Lines of a text are found by scanning; where lines
    start is remembered for every block of the text. *)
From S2P Require Import Prelude Helper PostParse.
#[local] Open Scope Z_scope.

Definition LINENUM_BLOCK_SIZE : Z := 4096.
Definition DEFAULT_TERM_WIDTH : Z := 80.
Definition TAB_STOP : Z := 4.
Definition IS_QUOTE : Z := 1.
Definition HAS_TABSTOP : Z := 2.
Definition NO_QUOTE : Z := 1.
Definition NO_EMPHASIZE : Z := 2.

(** Addresses in the text are offsets into it. *)
Record linenum := Linenum { offset : option Z; number : Z; l_prop : Z }.

Record more_file := MoreFile { ln : list linenum; total : Z; width : Z; line : Z; begin : option Z; end_ : option Z; prop : Z; opt : Z }.

Definition set_ln (v : list linenum) (d : more_file) : more_file := MoreFile v (total d) (width d) (line d) (begin d) (end_ d) (prop d) (opt d).
Definition set_total (v : Z) (d : more_file) : more_file := MoreFile (ln d) v (width d) (line d) (begin d) (end_ d) (prop d) (opt d).
Definition set_line (v : Z) (d : more_file) : more_file := MoreFile (ln d) (total d) (width d) v (begin d) (end_ d) (prop d) (opt d).
Definition set_begin (v : option Z) (d : more_file) : more_file := MoreFile (ln d) (total d) (width d) (line d) v (end_ d) (prop d) (opt d).
Definition set_end (v : option Z) (d : more_file) : more_file := MoreFile (ln d) (total d) (width d) (line d) (begin d) v (prop d) (opt d).
Definition set_prop (v : Z) (d : more_file) : more_file := MoreFile (ln d) (total d) (width d) (line d) (begin d) (end_ d) v (opt d).

(** [more_open] of a buffer: memory is there. *)
Definition more_open (buf : list Z) (width opt : Z) : more_file :=
  MoreFile (replicate (Z.to_nat (blen buf / LINENUM_BLOCK_SIZE + 1)) (Linenum None 0 0)) (-1) width 0 None None 0 opt.

(** The text. A read behind it, where the table of the lines is, faults. *)
Section Text.
Context (buf : list Z).
Definition size : Z := blen buf.

Definition code : list Z := bytes "[0123456789;".
Definition in_code (c : Z) : bool := existsb (Z.eqb c) code.

Definition begins_with (p : Z) (s : list Z) : outcome bool := strncmp_eq buf p (s ++ [0]) 0 (blen s).

Definition has (prop flag : Z) : bool := negb (Z.land prop flag =? 0).
Definition without (prop flag : Z) : Z := Z.land prop (Z.lnot flag).

(** The loop of [more_getline]: where it stops, the columns that are left, and
    the properties. *)
Fixpoint scan (fuel : nat) (w ptr len : Z) (in_esc : bool) (prop : Z) : outcome (Z * Z * Z) :=
  match fuel with
  | O => NoFuel
  | S fuel =>
      if size <=? ptr then Done (ptr, len, prop)
      else
        c ← rd buf ptr;
        if c =? 10 then Done (ptr, len, without prop IS_QUOTE)
        else if c =? 27 then scan fuel w (ptr + 1) len true prop
        else if in_esc then scan fuel w (ptr + 1) len (in_code c) prop
        else if c =? 9 then
          let prop := Z.lor prop HAS_TABSTOP in
          let len := len - (TAB_STOP - Z.rem (w - len) TAB_STOP) in
          let ptr := if len <? 0 then ptr - 1 else ptr in
          if len <=? 0 then Done (ptr, len, prop) else scan fuel w (ptr + 1) len in_esc prop
        else if negb (Z.land c 128 =? 0) then
          let len := len - 2 in
          if len <? 0 then Done (ptr - 1, len, prop)
          else if len =? 0 then Done (ptr + 1, len, prop)
          else scan fuel w (ptr + 2) len in_esc prop
        else
          let len := len - 1 in
          if len =? 0 then Done (ptr, len, prop) else scan fuel w (ptr + 1) len in_esc prop
  end.

(** What is behind the bracket and the digits of an escape, from [ptr] on. *)
Fixpoint skip_code (fuel : nat) (ptr : Z) : outcome Z :=
  match fuel with
  | O => NoFuel
  | S fuel => if ptr <? size then c ← rd buf ptr; if in_code c then skip_code fuel (ptr + 1) else Done ptr else Done ptr
  end.

(** The escape and the newline behind a line that fills the width. *)
Definition trailing (ptr prop : Z) : outcome (Z * Z) :=
  c ← rd buf ptr;
  ptr ← (if c =? 27 then p ← skip_code (length buf + 1) (ptr + 1); Done (p + 1) else Done ptr);
  c ← rd buf ptr;
  if c =? 10 then Done (ptr + 1, without prop IS_QUOTE)
  else if c =? 13 then
    c ← rd buf (ptr + 1);
    if c =? 10 then Done (ptr + 2, without prop IS_QUOTE) else Done (ptr, prop)
  else Done (ptr, prop).

(** The end of the line at [p], the properties, and whether it is the last. *)
Definition line_at (w p prop : Z) : outcome (Z * Z * bool) :=
  let prop := without prop HAS_TABSTOP in
  prop ← (if has prop IS_QUOTE then Done prop
          else
            q ← begins_with p (bytes ": ");
            q ← (if (q : bool) then Done true else begins_with p (bytes "> "));
            Done (if (q : bool) then Z.lor prop IS_QUOTE else prop));
  '(ptr, len, prop) ← scan (length buf + 2) w p w false prop;
  let ptr := ptr + 1 in
  if size <=? ptr then Done (size, prop, true)
  else
    '(ptr, prop) ← (if len =? 0 then trailing ptr prop else Done (ptr, prop));
    Done (ptr, prop, size <=? ptr).

(** The entry of a block is set by the first line that is fetched in it. *)
Definition remember (p : Z) (d : more_file) : outcome more_file :=
  let i := Z.to_nat (Z.quot p LINENUM_BLOCK_SIZE) in
  match ln d !! i with
  | Some l => Done (match offset l with None => set_ln (<[i := Linenum (Some p) (line d) (prop d)]> (ln d)) d | Some _ => d end)
  | None => Fault
  end.

Definition more_getline (d : more_file) : outcome (Z * more_file) :=
  if width d <? 2 then Done (-1, d)
  else
    let p := default 0 (end_ d) in
    let d := set_begin (Some p) (set_end (Some p) d) in
    d ← remember p d;
    if p =? size then Done (0, d)
    else
      let d := set_line (line d + 1) d in
      '(ptr, prop, last) ← line_at (width d) p (prop d);
      let d := set_end (Some ptr) (set_prop prop d) in
      Done (ptr - p, if (last : bool) then set_total (line d) d else d).

(** The first entry that is empty or too far. *)
Fixpoint find_entry (ls : list linenum) (n : Z) : nat :=
  match ls with
  | [] => O
  | l :: ls => if (n <? number l) || negb (bool_decide (is_Some (offset l))) then O else S (find_entry ls n)
  end.

Fixpoint seek_loop (fuel : nat) (n : Z) (d : more_file) : outcome more_file :=
  match fuel with
  | O => NoFuel
  | S fuel => if line d <? n then '(r, d) ← more_getline d; if r <=? 0 then Done d else seek_loop fuel n d else Done d
  end.

Definition more_seek (d : more_file) (n : Z) : outcome more_file :=
  let n := if n <? 0 then 0 else n in
  d_l ← (match find_entry (ln d) n with
         | O =>
             match ln d with
             | l :: ls => let l := Linenum (Some 0) 0 (l_prop l) in Done (set_ln (l :: ls) d, l)
             | [] => Fault
             end
         | S i => match ln d !! i with Some l => Done (d, l) | None => Fault end
         end);
  let '(d, l) := d_l in
  let d := if (n <? line d) || (line d <? number l) then set_end (offset l) (set_line (number l) d) else d in
  seek_loop (length buf + 2) n d.

(** The last entry that is set. *)
Fixpoint last_entry (ls : list linenum) : option linenum :=
  match ls with
  | [] => None
  | l :: ls => match last_entry ls with Some x => Some x | None => if offset l then Some l else None end
  end.

Fixpoint count_loop (fuel : nat) (d : more_file) : outcome more_file :=
  match fuel with
  | O => NoFuel
  | S fuel => if total d <? 0 then '(_, d) ← more_getline d; count_loop fuel d else Done d
  end.

(** With no entry set the loop runs out of the table; the text before it is read
    there, and this faults. *)
Definition more_countline (d : more_file) : outcome (Z * more_file) :=
  if 0 <=? total d then Done (total d, d)
  else
    l ← (match last_entry (ln d) with Some l => Done l | None => Fault end);
    d' ← count_loop (length buf + 2) (set_end (offset l) (set_line (number l) d));
    Done (total d', set_begin (begin d) (set_end (end_ d) (set_line (line d) (set_prop (prop d) d')))).

(** * The pager *)

Definition KEY_UP : Z := 0x0101.
Definition KEY_DOWN : Z := 0x0102.
Definition KEY_RIGHT : Z := 0x0103.
Definition KEY_LEFT : Z := 0x0104.
Definition KEY_HOME : Z := 0x0201.
Definition KEY_END : Z := 0x0204.
Definition KEY_PGUP : Z := 0x0205.
Definition KEY_PGDN : Z := 0x0206.
Definition EOF : Z := -1.
Definition Ctrl (c : Z) : Z := Z.land c 31.

Definition is_one_of (ch : Z) (ks : list Z) : bool := existsb (Z.eqb ch) ks.

(** What a key is taken for; others are passed over. *)
Definition key_of (ch : Z) : option Z :=
  if is_one_of ch [113; KEY_LEFT; EOF] then Some KEY_LEFT
  else if is_one_of ch [32; KEY_RIGHT; KEY_PGDN; Ctrl 70] then Some KEY_RIGHT
  else if is_one_of ch [KEY_PGUP; Ctrl 66] then Some KEY_PGUP
  else if is_one_of ch [13; 10; KEY_DOWN; 106] then Some KEY_DOWN
  else if is_one_of ch [107; KEY_UP] then Some KEY_UP
  else if is_one_of ch [104; 72; 63] then Some 72
  else if is_one_of ch [98; 66; KEY_HOME] then Some KEY_HOME
  else if is_one_of ch [101; 69; KEY_END] then Some KEY_END
  else if is_one_of ch [108; 76] then Some 76
  else if is_one_of ch [103; 71] then Some 71
  else if is_one_of ch (bytes "yYnNrRcCmM") then Some (toupper ch)
  else if ch =? 42 then Some ch
  else None.

(** The keys that are pressed, with the text that is typed when a line is asked
    for; there is no end of them but [EOF]. *)
Definition key := (Z * list Z)%type.

Fixpoint morekey (keys : list key) : Z * list Z * list key :=
  match keys with
  | [] => (KEY_LEFT, [], [])
  | (ch, text) :: keys => match key_of ch with Some k => (k, text, keys) | None => morekey keys end
  end.

(** What is done to the screen. *)
Inductive act := Outs (s : list Z) | Put_line (s : list Z) | Scroll | Clear | Clrtobot | Move_clear | Flush
  | Prompt (percent from to : Z) | Press_any_key | Ask_line | Show_help.

(** [strtol] of the six bytes that fit. *)
Definition typed_number (text : list Z) : outcome Z := strtol (take 6 text ++ [0]) 0.

Definition is_emphasize (p : Z) : outcome bool :=
  a ← begins_with p [0xa1; 0xbe; 32; 0xd4; 0xda];
  if (a : bool) then Done true
  else
    b ← begins_with p (bytes "==>");
    if (b : bool) then Done true
    else
      c ← begins_with p [0xa1; 0xf5; 32; 0xd2; 0xfd; 0xd3; 0xc3];
      if (c : bool) then Done true else begins_with p [0xa1; 0xf9; 32; 0xd2; 0xfd; 0xca; 0xf6].

Definition is_quotation (p : Z) : outcome bool :=
  a ← begins_with p (bytes ": "); if (a : bool) then Done true else begins_with p (bytes "> ").

(** The line that was fetched last. *)
Definition more_puts (d : more_file) : outcome act :=
  match begin d, end_ d with
  | Some p, Some e => s ← rdn buf p (e - p); Done (Put_line s)
  | _, _ => Fault
  end.

(** What [more_main] keeps: the stream, the number of lines read, the row, whether
    a quotation goes on and a colour is set. *)
Record view := View { file : more_file; lines_read : Z; pos : Z; is_quote : bool; colored : bool }.

Section Main.
Context (screen_lines : Z) (promptend : bool) (limit : Z).
Context (handler : option (Z -> Z)).

Definition prompt_end : list act := if promptend then [Press_any_key] else [].

(** A line of the inner loop; [None] is that there is no more to show. *)
Definition show_line (v : view) : outcome (list act * option view) :=
  '(r, d) ← more_getline (file v);
  if r <=? 0 then Done (prompt_end, None)
  else
    let read := lines_read v + 1 in
    if (limit =? 0) || (read <=? limit) then
      let p := default 0 (begin d) in
      em ← (if negb (has (opt d) NO_EMPHASIZE) then is_emphasize p else Done false);
      put ← more_puts d;
      '(acts, q, col) ← (if (em : bool) then Done ([Outs (27 :: bytes "[1;33m"); put], is_quote v, true)
        else
          wrapped ← (if negb (p =? 0) then c ← rd buf (p - 1); Done (negb (c =? 10)) else Done false);
          quote ← (if negb (has (opt d) NO_QUOTE) then
                     if is_quote v then Done true else if negb wrapped then is_quotation p else Done false
                   else Done false);
          last ← rd buf (default 0 (end_ d) - 1);
          let q := if (quote : bool) then true else is_quote v in
          Done (if (quote : bool) then [Outs (27 :: bytes "[0;36m"); put] else if colored v then [Outs (27 :: bytes "[m"); put] else [put],
                q && negb (last =? 10), quote));
      let pos1 := pos v + 1 in
      Done (if pos1 =? screen_lines then (acts ++ [Scroll], Some (View d read (pos1 - 1) q col)) else (acts, Some (View d read pos1 q col)))
    else Done (prompt_end ++ [Flush], None).

Fixpoint show_lines (n : nat) (v : view) : outcome (list act * option view) :=
  match n with
  | O => Done ([], Some v)
  | S n =>
      '(acts, v) ← show_line v;
      match v with
      | None => Done (acts, None)
      | Some v => '(more, v) ← show_lines n v; Done (acts ++ more, v)
      end
  end.

Definition set_file (d : more_file) (v : view) : view := View d (lines_read v) (pos v) (is_quote v) (colored v).
Definition set_pos (p : Z) (v : view) : view := View (file v) (lines_read v) p (is_quote v) (colored v).
Definition set_is_quote (q : bool) (v : view) : view := View (file v) (lines_read v) (pos v) q (colored v).

Definition more_prompt_file (d : more_file) : act := Prompt (Z.quot (default 0 (end_ d) * 100) size) (line d - screen_lines + 2) (line d).

(** What a key does: to go on with a number of lines on the screen, or to return. *)
Inductive next := Go_on (i : Z) (ch : Z) (v : view) | Return (ch : Z).

(** To a line, on a screen that is clear. *)
Definition go_to (n ch : Z) (v : view) : outcome next := d ← more_seek (file v) n; Done (Go_on 0 ch (set_pos 0 (set_file d v))).

Definition do_key (i ch : Z) (text : list Z) (v : view) : outcome (list act * next) :=
  let d := file v in
  if ch =? KEY_LEFT then Done ([], Return ch)
  else if ch =? KEY_RIGHT then Done ([], Go_on 1 ch v)
  else if ch =? KEY_DOWN then Done ([], Go_on (screen_lines - 2) ch v)
  else if ch =? KEY_PGUP then
    let new_row := line d - (2 * screen_lines - 3) in
    n ← (if new_row <? 0 then Done (Return ch) else go_to new_row ch v); Done ([Clear], n)
  else if ch =? KEY_UP then
    let new_row := line d - screen_lines in
    n ← (if new_row <? 0 then Done (Return ch) else go_to new_row ch v); Done ([Clear], n)
  else if ch =? KEY_HOME then n ← go_to 0 ch v; Done ([Clear], n)
  else if (ch =? 82) || (ch =? KEY_END) then
    '(_, d) ← more_countline d;
    let i := screen_lines - 1 - (total d - line d) in
    let i := if i <? 0 then 0 else i in
    if i =? screen_lines - 1 then Done ([], Go_on i ch (set_file d v))
    else d ← more_seek d (total d - (screen_lines - 1) + i); Done ([], Go_on i ch (set_file d v))
  else if ch =? 71 then
    n ← typed_number text;
    let new_row := n - 1 in
    let new_row := if new_row <? 0 then 0 else new_row in
    d ← more_seek d new_row;
    d ← (if (0 <=? total d) && (total d <=? new_row) then more_seek d (total d - 1) else Done d);
    Done ([Ask_line; Clear], Go_on 0 ch (set_pos 0 (set_file d v)))
  else if ch =? 72 then
    let new_row := line d - screen_lines + 1 in
    n ← go_to (if new_row <? 0 then 0 else new_row) ch v; Done ([Show_help], n)
  else if ch =? 76 then Done ([], Return KEY_PGUP)
  else
    match handler with
    | Some h => let ch := h ch in Done ([], if negb (ch =? 0) then Return ch else Go_on i ch v)
    | None => Done ([], Go_on i ch v)
    end.

(** A round for every key, and what was done to the screen. *)
Fixpoint more_loop (fuel : nat) (i ch : Z) (v : view) (keys : list key) : outcome (list act * Z) :=
  match fuel with
  | O => NoFuel
  | S fuel =>
      let v := set_is_quote (has (prop (file v)) IS_QUOTE) v in
      '(shown, r) ← show_lines (Z.to_nat (screen_lines - 1 - i)) v;
      let i := Z.max i (screen_lines - 1) + 1 in
      match r with
      | None => Done (shown, ch)
      | Some v =>
          if bool_decide (end_ (file v) = Some size) && negb (ch =? KEY_END) then Done (shown ++ prompt_end, ch)
          else
            let '(ch, text, keys) := morekey keys in
            '(acts, n) ← do_key i ch text v;
            let acts := shown ++ [Move_clear; more_prompt_file (file v); Move_clear; Flush] ++ acts in
            match n with
            | Return ch => Done (acts, ch)
            | Go_on i ch v => '(more, ch) ← more_loop fuel i ch v keys; Done (acts ++ more, ch)
            end
      end
  end.

Definition more_main (d : more_file) (keys : list key) : outcome (list act * Z) :=
  '(acts, ch) ← more_loop (length keys + 2) 0 0 (View d 1 0 false false) keys; Done (Clrtobot :: acts, ch).

End Main.

(** * Lines *)

(** Where the line at [p] ends; no properties bear on it. *)
Definition stop (w p : Z) : Z := match line_at w p 0 with Done (e, _, _) => e | _ => size end.

(** Where the line [n] starts, or the text ends. *)
Fixpoint start (w : Z) (n : nat) : Z :=
  match n with O => 0 | S n => let p := start w n in if p <? size then stop w p else size end.

(** The number of lines: the first whose start is the end of the text. *)
Fixpoint count_from (fuel : nat) (w p : Z) : nat :=
  match fuel with O => O | S fuel => if p <? size then S (count_from fuel w (stop w p)) else O end.
Definition count (w : Z) : nat := count_from (length buf + 1) w 0.

(** Whether a text ends within an escape. *)
Definition open_escape (t : list Z) : bool := foldl (fun e c => (c =? 27) || (e && in_code c)) false t.

(** A text that ends with a newline, which does not end an escape: nothing behind
    it is read. *)
Definition proper : Prop := buf = [] \/ exists t, buf = t ++ [10] /\ open_escape t = false.

Lemma scan_spec fuel : forall w ptr len esc, 4 <= w -> 0 <= ptr <= size + 1 -> 0 < len <= w -> size + 1 - ptr < Z.of_nat fuel ->
  exists e k, (forall q, exists q', scan fuel w ptr len esc q = Done (e, k, q')) /\ ptr - 1 <= e <= size + 1 /\ (len = w -> ptr <= e).
Proof.
  induction fuel as [|fuel IH]; intros w ptr len esc Hw Hp Hl Hf; [lia|]. cbn [scan].
  assert (forall ptr' len' esc', ptr < ptr' <= size + 1 -> 0 < len' <= w -> exists e k,
    (forall q, exists q', scan fuel w ptr' len' esc' q = Done (e, k, q')) /\ ptr - 1 <= e <= size + 1 /\ (len = w -> ptr <= e)) as Hrec.
  { intros ptr' len' esc' H1 H2. destruct (IH w ptr' len' esc' Hw) as (e & k & Hq & He & _); [lia..|]. exists e, k. split; [done|]. lia. }
  assert (forall e k : Z, ptr - 1 <= e <= size + 1 -> (len = w -> ptr <= e) -> exists e' k' : Z, (forall q : Z, exists q', Done (e, k, q) = Done (e', k', q')) /\
    ptr - 1 <= e' <= size + 1 /\ (len = w -> ptr <= e')) as Hhere by (intros e k H1 H2; exists e, k; split; [eauto|done]).
  destruct (Z.leb_spec size ptr); [apply (Hhere ptr len); lia|]. destruct (rd_in buf ptr) as [c ->]; [unfold size in *; lia|]. cbn [mbind outcome_bind].
  destruct (c =? 10); [exists ptr, len; split; [eauto|lia]|]. destruct (c =? 27); [apply Hrec; lia|]. destruct esc; [apply Hrec; lia|].
  destruct (c =? 9).
  - pose proof (Z.rem_bound_pos (w - len) TAB_STOP ltac:(lia) ltac:(done)) as Hr. unfold TAB_STOP in *.
    assert (len = w -> Z.rem (w - len) 4 = 0) as Hr0 by (intros ->; by rewrite Z.sub_diag).
    set (len' := len - (4 - Z.rem (w - len) 4)) in *. destruct (Z.ltb_spec len' 0).
    + destruct (Z.leb_spec len' 0); [|lia]. exists (ptr - 1), len'. split; [eauto|lia].
    + destruct (Z.leb_spec len' 0); [exists ptr, len'; split; [eauto|lia]|].
      destruct (Hrec (ptr + 1) len' false) as (e & k & Hq & He); [lia..|]. exists e, k. split; [intros q; apply Hq|done].
  - destruct (negb (Z.land c 128 =? 0)).
    + destruct (Z.ltb_spec (len - 2) 0); [apply (Hhere (ptr - 1) (len - 2)); lia|]. destruct (Z.eqb_spec (len - 2) 0); [apply (Hhere (ptr + 1) (len - 2)); lia|]. apply Hrec; lia.
    + destruct (Z.eqb_spec (len - 1) 0); [apply (Hhere ptr (len - 1)); lia|]. apply Hrec; lia.
Qed.

Section Proper.
Context (Hproper : proper).

(** The last byte of the text. *)
Lemma last_byte : 0 < size -> exists t, buf = t ++ [10] /\ open_escape t = false.
Proof. intros Hs. destruct Hproper as [H|?]; [unfold size in Hs; by rewrite H in Hs|done]. Qed.

Lemma not_last p c : rd buf p = Done c -> c <> 10 -> 0 <= p < size -> p + 1 < size.
Proof.
  intros Hc Hn Hp. destruct (decide (p + 1 = size)) as [He|]; [|lia]. exfalso. destruct last_byte as (t & Ht & _); [lia|].
  rewrite (rd_at buf t 10 []) in Hc; [congruence|done|]. unfold size in He. rewrite Ht, blen_app in He. change (blen [10]) with 1 in He. lia.
Qed.

Lemma begins_with_total s : forall pre p, Forall (fun c => c <> 10 /\ c <> 0) s -> 0 <= p < size ->
  exists b, strncmp_loop (length s) buf (pre ++ s ++ [0]) p (blen pre) = Done b.
Proof.
  induction s as [|x s IH]; intros pre p Hs Hp; cbn [length strncmp_loop]; [eauto|]. apply Forall_cons_1 in Hs as [[Hx Hx0] Hs].
  destruct (rd_in buf p Hp) as [c Hc]. rewrite Hc, (rd_at _ pre x (s ++ [0])) by done. cbn [mbind outcome_bind].
  destruct (Z.eqb_spec c x) as [->|]; [|eauto]. destruct (Z.eqb_spec x 0); [done|]. pose proof (not_last p x Hc Hx Hp).
  destruct (IH (pre ++ [x]) (p + 1) Hs ltac:(lia)) as [b Hb]. exists b. rewrite <- Hb, <- app_assoc. f_equal. by rewrite blen_app.
Qed.

Lemma begins_with_ok p s : Forall (fun c => c <> 10 /\ c <> 0) s -> 0 <= p < size -> exists b, begins_with p s = Done b.
Proof. intros Hs Hp. unfold begins_with, strncmp_eq. rewrite to_nat_blen. by apply (begins_with_total s [] p). Qed.

(** From the bracket of an escape on there is something that ends it, before the
    end of the text. *)
Lemma rd_take p c : rd buf p = Done c -> 0 <= p < size /\ take (Z.to_nat (p + 1)) buf = take (Z.to_nat p) buf ++ [c].
Proof.
  unfold rd. destruct (Z.ltb_spec p 0); [done|]. destruct (buf !! Z.to_nat p) as [x|] eqn:E; [|done]. intros [= <-]. split.
  - apply lookup_lt_Some in E. unfold size, blen. lia.
  - replace (Z.to_nat (p + 1)) with (S (Z.to_nat p)) by lia. by apply take_S_r.
Qed.

Lemma open_escape_snoc t c : open_escape (t ++ [c]) = (c =? 27) || (open_escape t && in_code c).
Proof. unfold open_escape. by rewrite foldl_app. Qed.

Lemma skip_code_spec fuel : forall p, 0 <= p < size -> size - p < Z.of_nat fuel -> open_escape (take (Z.to_nat p) buf) = true ->
  exists q, skip_code fuel p = Done q /\ p <= q /\ q + 1 < size.
Proof.
  induction fuel as [|fuel IH]; intros p Hp Hf He; [lia|]. cbn [skip_code]. destruct (Z.ltb_spec p size); [|lia].
  destruct (rd_in buf p Hp) as [c Hc]. rewrite Hc. cbn [mbind outcome_bind]. destruct (rd_take p c Hc) as [_ Ht]. destruct (in_code c) eqn:Ec.
  - assert (c <> 10) as Hn by (intros ->; by vm_compute in Ec). pose proof (not_last p c Hc Hn Hp).
    destruct (IH (p + 1)) as (q & -> & Hq); [lia|lia|rewrite Ht, open_escape_snoc, He, Ec; by rewrite orb_true_r|]. exists q. split; [done|lia].
  - exists p. split; [done|]. split; [lia|]. destruct (decide (p + 1 = size)) as [Hl|]; [exfalso|lia]. destruct last_byte as (t & Hb & Ho); [lia|].
    assert (t = take (Z.to_nat p) buf) as ->; [|congruence]. rewrite Hb. symmetry. apply take_app_length'. unfold size in Hl. rewrite Hb, blen_app in Hl.
    change (blen [10]) with 1 in Hl. unfold blen in Hl. lia.
Qed.

(** What is behind a line that fills the width ends before the text, or with it. *)
Lemma trailing_spec p : 0 <= p < size -> exists e, p <= e <= size /\ forall q, exists q', trailing p q = Done (e, q').
Proof.
  intros Hp. unfold trailing. destruct (rd_in buf p Hp) as [c Hc]. rewrite Hc. cbn [mbind outcome_bind].
  assert (exists r, (if c =? 27 then p0 ← skip_code (length buf + 1) (p + 1); Done (p0 + 1) else Done p) = Done r /\ p <= r < size) as (r & -> & Hr).
  { destruct (Z.eqb_spec c 27) as [->|]; [|exists p; split; [done|lia]]. destruct (rd_take p 27 Hc) as [_ Ht]. pose proof (not_last p 27 Hc ltac:(done) Hp).
    destruct (skip_code_spec (length buf + 1) (p + 1)) as (q & -> & Hq); [lia|unfold size, blen; lia|by rewrite Ht, open_escape_snoc|].
    exists (q + 1). split; [done|lia]. }
  cbn [mbind outcome_bind]. destruct (rd_in buf r) as [d Hd]; [unfold size in *; lia|]. rewrite Hd. cbn [mbind outcome_bind].
  destruct (Z.eqb_spec d 10); [exists (r + 1); split; [lia|eauto]|]. destruct (Z.eqb_spec d 13) as [->|]; [|exists r; split; [lia|eauto]].
  pose proof (not_last r 13 Hd ltac:(done) ltac:(lia)). destruct (rd_in buf (r + 1)) as [x ->]; [unfold size in *; lia|]. cbn [mbind outcome_bind].
  destruct (x =? 10); [exists (r + 2)|exists r]; (split; [lia|eauto]).
Qed.

Lemma line_at_spec w p : 4 <= w -> 0 <= p < size -> exists e, p < e <= size /\ forall q, exists q', line_at w p q = Done (e, q', size <=? e).
Proof.
  intros Hw Hp. destruct (scan_spec (length buf + 2) w p w false) as (e & k & Hs & He & Hpe); [done|lia|lia|unfold size, blen in *; lia|]. specialize (Hpe eq_refl).
  assert (exists r, p < r <= size /\ forall q, exists q', (if size <=? e + 1 then Done (size, q, true)
    else '(ptr, prop) ← (if k =? 0 then trailing (e + 1) q else Done (e + 1, q)); Done (ptr, prop, size <=? ptr)) = Done (r, q', size <=? r)) as (r & Hr & Hq).
  { destruct (Z.leb_spec size (e + 1)).
    - exists size. split; [lia|]. intros q. exists q. by rewrite Z.leb_refl.
    - destruct (k =? 0); [|exists (e + 1); split; [lia|eauto]]. destruct (trailing_spec (e + 1)) as (r & Hr & Ht); [lia|]. exists r. split; [lia|].
      intros q. destruct (Ht q) as [q' ->]. cbn [mbind outcome_bind]. eauto. }
  exists r. split; [done|]. intros q. unfold line_at.
  assert (exists q1, (if has (without q HAS_TABSTOP) IS_QUOTE then Done (without q HAS_TABSTOP)
    else q0 ← begins_with p (bytes ": "); q1 ← (if (q0 : bool) then Done true else begins_with p (bytes "> "));
      Done (if (q1 : bool) then Z.lor (without q HAS_TABSTOP) IS_QUOTE else without q HAS_TABSTOP)) = Done q1) as [q1 ->].
  { destruct (has _ _); [eauto|]. destruct (begins_with_ok p (bytes ": ")) as [b1 ->]; [by repeat (constructor; [done|])|done|].
    destruct (begins_with_ok p (bytes "> ")) as [b2 ->]; [by repeat (constructor; [done|])|done|]. destruct b1; cbn [mbind outcome_bind]; eauto. }
  cbn [mbind outcome_bind]. destruct (Hs q1) as [q2 ->]. cbn [mbind outcome_bind]. apply Hq.
Qed.

Lemma line_at_stop w p q : 4 <= w -> 0 <= p < size -> p < stop w p <= size /\ exists q', line_at w p q = Done (stop w p, q', size <=? stop w p).
Proof.
  intros Hw Hp. destruct (line_at_spec w p Hw Hp) as (e & He & Hq). assert (stop w p = e) as -> by (unfold stop; destruct (Hq 0) as [q' ->]; done). split; [done|apply Hq].
Qed.

(** * The stream against the lines *)

Section Lines.
Context (w : Z) (Hw : 4 <= w).

Lemma start_bounds n : 0 <= start w n <= size.
Proof.
  induction n as [|n IH]; [unfold size; cbn; pose proof (blen_nonneg buf); lia|]. cbn [start]. destruct (Z.ltb_spec (start w n) size); [|lia].
  destruct (line_at_stop w (start w n) 0 Hw) as [? _]; lia.
Qed.

Lemma start_less n : start w n < size -> start w n < start w (S n).
Proof. intros Hn. cbn [start]. destruct (Z.ltb_spec (start w n) size); [|lia]. pose proof (start_bounds n). destruct (line_at_stop w (start w n) 0 Hw) as [? _]; lia. Qed.

Lemma count_from_spec fuel : forall n, size - start w n < Z.of_nat fuel -> let k := count_from fuel w (start w n) in
  (forall i, (i < k)%nat -> start w (n + i) < size) /\ start w (n + k) = size.
Proof.
  induction fuel as [|fuel IH]; intros n Hf; [pose proof (start_bounds n); lia|]. cbn [count_from]. pose proof (start_bounds n) as Hb.
  destruct (Z.ltb_spec (start w n) size) as [Hlt|Hge]; [|split; [intros i Hi; lia|rewrite Nat.add_0_r; lia]].
  assert (stop w (start w n) = start w (S n)) as -> by (cbn [start]; destruct (Z.ltb_spec (start w n) size); [done|lia]).
  pose proof (start_less n Hlt). destruct (IH (S n)) as [H1 H2]; [lia|]. split; [|rewrite <- H2; f_equal; lia].
  intros [|i] Hi; [by rewrite Nat.add_0_r|]. replace (n + S i)%nat with (S n + i)%nat by lia. apply H1. lia.
Qed.

Lemma count_spec : (forall i, (i < count w)%nat -> start w i < size) /\ start w (count w) = size.
Proof.
  unfold count. destruct (count_from_spec (length buf + 1) 0) as [H1 H2]; [cbn [start]; unfold size, blen; lia|]. cbn [start Nat.add] in *. by split.
Qed.

Lemma start_mono i j : (i <= j)%nat -> start w i <= start w j.
Proof.
  induction 1 as [|j _ IH]; [done|]. destruct (Z.lt_ge_cases (start w j) size) as [Hl|Hg]; [pose proof (start_less j Hl); lia|].
  pose proof (start_bounds i). cbn [start]. destruct (Z.ltb_spec (start w j) size); [lia|]. lia.
Qed.

Lemma start_end i : start w i = size <-> (count w <= i)%nat.
Proof.
  destruct count_spec as [Hl He]. split; intros H.
  - destruct (Nat.le_gt_cases (count w) i) as [?|Hc]; [done|]. pose proof (Hl i Hc). lia.
  - pose proof (start_mono _ _ H). pose proof (start_bounds i). lia.
Qed.

Lemma count_le_size : Z.of_nat (count w) <= size.
Proof.
  assert (forall i, (i <= count w)%nat -> Z.of_nat i <= start w i) as H; [|specialize (H (count w) ltac:(lia)); by rewrite (proj2 count_spec) in H].
  induction i as [|i IH]; intros Hi; [done|]. pose proof (proj1 count_spec i ltac:(lia)). pose proof (start_less i ltac:(done)). specialize (IH ltac:(lia)). lia.
Qed.

Definition lines : Z := Z.of_nat (count w).
Definition start_of (n : Z) : Z := start w (Z.to_nat n).

(** An entry that is set says where its line starts. *)
Definition entry_ok (l : linenum) : Prop := forall o, offset l = Some o -> 0 <= number l <= lines /\ o = start_of (number l).
Definition entry_before (l : linenum) : Prop := is_Some (offset l) -> number l < lines.

(** What holds of a stream between its operations. *)
Record valid (d : more_file) : Prop := {
  v_width : width d = w;
  v_line : 0 <= line d <= lines;
  v_end : default 0 (end_ d) = start_of (line d);
  v_table : Z.of_nat (length (ln d)) = size / LINENUM_BLOCK_SIZE + 1;
  v_entries : Forall entry_ok (ln d);
  v_total : total d = lines \/ total d = -1 /\ (0 < lines -> line d < lines /\ Forall entry_before (ln d));
  v_set : is_Some (end_ d) -> exists l, l ∈ ln d /\ is_Some (offset l) }.

Lemma valid_open opt : valid (more_open buf w opt).
Proof.
  assert (forall n, Forall entry_ok (replicate n (Linenum None 0 0))) as H1 by (intros n; apply Forall_replicate; by intros o).
  assert (forall n, Forall entry_before (replicate n (Linenum None 0 0))) as H2 by (intros n; apply Forall_replicate; intros [? ?]; done).
  split; cbn; try done.
  - unfold lines. lia.
  - rewrite length_replicate. pose proof (blen_nonneg buf). unfold size, LINENUM_BLOCK_SIZE. pose proof (Z.div_pos (blen buf) 4096). lia.
  - right. split; [done|]. intros. split; [done|apply H2].
Qed.

Lemma remember_ok d : valid d -> exists d', remember (start_of (line d)) (set_begin (Some (start_of (line d))) (set_end (Some (start_of (line d))) d)) = Done d' /\ valid d' /\
  line d' = line d /\ end_ d' = Some (start_of (line d)) /\ begin d' = Some (start_of (line d)) /\ prop d' = prop d /\ total d' = total d /\ opt d' = opt d.
Proof.
  intros [Hwd Hl He Ht Hes Htot Hset]. unfold remember. cbn [ln set_begin set_end]. pose proof (start_bounds (Z.to_nat (line d))) as Hb. fold (start_of (line d)) in Hb.
  set (p := start_of (line d)) in *. rewrite Z.quot_div_nonneg by (unfold LINENUM_BLOCK_SIZE; lia).
  assert (p / LINENUM_BLOCK_SIZE <= size / LINENUM_BLOCK_SIZE) as Hq by (apply Z.div_le_mono; unfold LINENUM_BLOCK_SIZE; lia).
  assert (0 <= p / LINENUM_BLOCK_SIZE) as Hq0 by (apply Z.div_pos; unfold LINENUM_BLOCK_SIZE; lia).
  destruct (lookup_lt_is_Some_2 (ln d) (Z.to_nat (p / LINENUM_BLOCK_SIZE))) as [l Hlk]; [lia|]. rewrite Hlk. eexists. split; [done|].
  destruct (offset l) as [o|] eqn:Eo; cbn [line prop set_begin set_end].
  - split; [|done]. split; cbn; try done. intros _. exists l. split; [by eapply list_elem_of_lookup_2|by rewrite Eo].
  - split; [|done]. split; cbn; try done.
    + by rewrite length_insert.
    + apply list.Forall_insert; [done|]. intros o [= <-]. cbn. split; [done|done].
    + destruct Htot as [?|[Ht1 Ht2]]; [by left|]. right. split; [done|]. intros Hp. destruct (Ht2 Hp) as [Ht3 Ht4]. split; [done|].
      apply list.Forall_insert; [done|]. intros _. cbn. done.
    + intros _. eexists. split; [eapply list_elem_of_lookup_2; apply list_lookup_insert_eq; by eapply lookup_lt_Some|]. by eexists.
Qed.

Lemma line_is_last n : 0 <= n <= lines -> start_of n = size <-> n = lines.
Proof. intros Hn. unfold start_of. rewrite start_end. unfold lines in *. lia. Qed.

(** The next line, when there is one. *)
Lemma getline_ok d : valid d -> exists r d', more_getline d = Done (r, d') /\ valid d' /\ opt d' = opt d /\ begin d' = Some (start_of (line d)) /\
  end_ d' = Some (start_of (line d')) /\ r = start_of (line d') - start_of (line d) /\ (0 <= total d -> total d' = total d) /\
  if line d <? lines then line d' = line d + 1 /\ 0 < r else line d' = line d /\ r = 0.
Proof.
  intros Hd. unfold more_getline. rewrite (v_width _ Hd). destruct (Z.ltb_spec w 2); [lia|]. rewrite (v_end _ Hd).
  destruct (remember_ok d Hd) as (d1 & -> & Hv & Hl1 & He1 & Hb1 & Hp1 & Ht1 & Ho1). cbn [mbind outcome_bind]. pose proof (v_line _ Hd) as Hline.
  pose proof (start_bounds (Z.to_nat (line d))) as Hsb. fold (start_of (line d)) in Hsb.
  destruct (Z.eqb_spec (start_of (line d)) size) as [Heq|Hne].
  - eexists 0, d1. split; [done|]. rewrite Hl1. split; [done|]. split; [done|]. split; [done|]. split; [done|]. split; [lia|]. split; [by rewrite Ht1|].
    apply line_is_last in Heq; [|done]. destruct (Z.ltb_spec (line d) lines); [lia|done].
  - assert (line d < lines) as Hlt by (destruct (Z.lt_ge_cases (line d) lines); [done|]; exfalso; apply Hne, line_is_last; lia).
    rewrite (proj2 (Z.ltb_lt _ _) Hlt). cbn [width prop set_line]. rewrite (v_width _ Hv).
    destruct (line_at_stop w (start_of (line d)) (prop d1) Hw) as [Hst [q Hq]]; [lia|]. rewrite Hq. cbn [mbind outcome_bind].
    assert (stop w (start_of (line d)) = start_of (line d + 1)) as Hnext.
    { unfold start_of. replace (Z.to_nat (line d + 1)) with (S (Z.to_nat (line d))) by lia. cbn [start]. fold (start_of (line d)).
      destruct (Z.ltb_spec (start_of (line d)) size); [done|lia]. }
    rewrite Hnext in *. cbn [line set_end set_prop set_line]. rewrite Hl1.
    destruct Hv as [V1 V2 V3 V4 V5 V6 V7]. destruct (Z.leb_spec size (start_of (line d + 1))) as [Hend|Hend].
    + assert (line d + 1 = lines) as Hlast by (apply line_is_last; [lia|]; pose proof (start_bounds (Z.to_nat (line d + 1))); unfold start_of in *; lia).
      eexists _, _. split; [reflexivity|]. cbn. split; [split; cbn; try done; [lia|left; lia|]|].
      * intros _. apply V7. by rewrite He1.
      * split; [done|]. split; [done|]. split; [done|]. split; [done|]. split; [|split; [done|lia]].
        intros Ht. destruct (v_total _ Hd) as [->|[Hx _]]; lia.
    + assert (line d + 1 < lines) as Hmore by (destruct (Z.lt_ge_cases (line d + 1) lines); [done|]; exfalso;
        assert (start_of (line d + 1) = size) by (apply line_is_last; lia); lia).
      eexists _, _. split; [reflexivity|]. cbn. split; [split; cbn; try done; [lia| |]|].
      * destruct V6 as [?|[Hx Hy]]; [by left|right]. split; [done|]. intros Hp. split; [done|by apply Hy].
      * intros _. apply V7. by rewrite He1.
      * split; [done|]. split; [done|]. split; [done|]. split; [done|]. split; [|split; [done|lia]]. intros Ht. by rewrite Ht1.
Qed.

Lemma seek_lines_ok n fuel : forall d, valid d -> line d <= n -> lines - line d < Z.of_nat fuel ->
  exists d', seek_loop fuel n d = Done d' /\ valid d' /\ opt d' = opt d /\ line d' = Z.min n lines /\ (0 <= total d -> total d' = total d) /\
    (is_Some (end_ d) -> is_Some (end_ d')).
Proof.
  induction fuel as [|fuel IH]; intros d Hd Hn Hf; [pose proof (v_line _ Hd); lia|]. cbn [seek_loop]. pose proof (v_line _ Hd) as Hl.
  destruct (Z.ltb_spec (line d) n) as [Hlt|Hge]; [|exists d; split; [done|]; split; [done|]; split; [done|]; split; [lia|done]].
  destruct (getline_ok d Hd) as (r & d1 & -> & Hv & Ho & _ & He & _ & Ht & Hc). cbn [mbind outcome_bind].
  destruct (Z.ltb_spec (line d) lines) as [Hll|Hll]; destruct Hc as [Hl1 Hr].
  - destruct (Z.leb_spec r 0); [lia|]. destruct (IH d1 Hv) as (d2 & -> & Hv2 & Ho2 & Hl2 & Ht2 & He2); [lia|lia|].
    exists d2. split; [done|]. split; [done|]. split; [congruence|]. split; [done|]. split; [|intros _; apply He2; by rewrite He].
    intros Hp. rewrite Ht2; [by apply Ht|]. by rewrite Ht.
  - subst r. cbn. exists d1. split; [done|]. split; [done|]. split; [done|]. split; [lia|]. split; [done|]. intros _. by rewrite He.
Qed.

Lemma find_entry_spec ls n : forall i, find_entry ls n = S i -> exists l, ls !! i = Some l /\ number l <= n /\ is_Some (offset l).
Proof.
  induction ls as [|l ls IH]; intros i; [done|]. cbn [find_entry]. destruct (Z.ltb_spec n (number l)); [done|]. case_bool_decide as Ho; [|done]. cbn [negb orb].
  intros [= Hf]. destruct i as [|i]; [by exists l|]. by apply IH.
Qed.

(** Whatever line is asked for is found, or the last one. *)
Lemma seek_ok d n : valid d -> exists d', more_seek d n = Done d' /\ valid d' /\ opt d' = opt d /\ line d' = Z.min (Z.max n 0) lines /\ (0 <= total d -> total d' = total d) /\
  (is_Some (end_ d) -> is_Some (end_ d')).
Proof.
  intros Hd. unfold more_seek. cbv zeta. assert ((if n <? 0 then 0 else n) = Z.max n 0) as -> by (destruct (Z.ltb_spec n 0); lia). set (k := Z.max n 0). assert (0 <= k) as Hk by lia. clearbody k.
  assert (exists d1 l, (match find_entry (ln d) k with
    | O => match ln d with l :: ls => Done (set_ln (Linenum (Some 0) 0 (l_prop l) :: ls) d, Linenum (Some 0) 0 (l_prop l)) | [] => Fault end
    | S i => match ln d !! i with Some l => Done (d, l) | None => Fault end end) = Done (d1, l) /\ valid d1 /\ opt d1 = opt d /\ total d1 = total d /\ end_ d1 = end_ d /\
    l ∈ ln d1 /\ is_Some (offset l) /\ number l <= k /\ 0 <= number l) as (d1 & l & -> & Hv & Ho & Ht & Hend & Hin & Hset & Hnum & Hnum0).
  { destruct (find_entry (ln d) k) as [|i] eqn:Ef.
    - destruct Hd as [V1 V2 V3 V4 V5 V6 V7]. destruct (ln d) as [|l ls] eqn:El.
      { pose proof (Z.div_pos size 4096). unfold LINENUM_BLOCK_SIZE in V4. cbn in V4. unfold size in *. pose proof (blen_nonneg buf). lia. }
      apply Forall_cons_1 in V5 as [V5a V5]. eexists _, _. split; [reflexivity|]. split; [|split; [done|split; [done|split; [done|split; [apply elem_of_cons; by left|split; [by eexists|done]]]]]].
      split; cbn; try done.
      + constructor; [|done]. intros o [= <-]. cbn. split; [unfold lines; lia|done].
      + destruct V6 as [?|[Hx Hy]]; [by left|right]. split; [done|]. intros Hp. destruct (Hy Hp) as [H1 H2]. split; [done|]. apply Forall_cons_1 in H2 as [_ H2].
        constructor; [|done]. intros _. done.
      + intros _. eexists. split; [apply elem_of_cons; by left|by eexists].
    - destruct (find_entry_spec _ _ _ Ef) as (l & Hl & Hn & Hs). rewrite Hl. assert (l ∈ ln d) as Hin by (by eapply list_elem_of_lookup_2).
      exists d, l. split; [done|]. split; [done|]. split; [done|]. split; [done|]. split; [done|]. split; [done|]. split; [done|]. split; [done|].
      destruct Hs as [o Ho]. apply (proj1 (list.Forall_forall _ _) (v_entries _ Hd) l Hin) in Ho. lia. }
  cbn [mbind outcome_bind]. destruct Hset as [o Hoff]. pose proof (proj1 (list.Forall_forall _ _) (v_entries _ Hv) l Hin o Hoff) as [Hnr Heq].
  set (d2 := if (k <? line d1) || (line d1 <? number l) then _ else _).
  assert (valid d2 /\ line d2 <= k /\ opt d2 = opt d /\ total d2 = total d /\ (is_Some (end_ d) -> is_Some (end_ d2))) as (Hv2 & Hl2 & Ho2 & Ht2 & He2).
  { unfold d2. destruct ((k <? line d1) || (line d1 <? number l)) eqn:Eb.
    - split; [|split; [done|split; [done|split; [done|]]]; intros _; cbn; rewrite Hoff; by eexists]. destruct Hv as [V1 V2 V3 V4 V5 V6 V7]. split; cbn; try done.
      + rewrite Hoff. cbn. exact Heq.
      + destruct V6 as [?|[Hx Hy]]; [by left|right]. split; [done|]. intros Hp. destruct (Hy Hp) as [H1 H2]. split; [|done].
        apply (proj1 (list.Forall_forall _ _) H2 l Hin). by eexists.
      + intros _. exists l. split; [done|by eexists].
    - apply orb_false_iff in Eb as [Eb%Z.ltb_ge _]. rewrite Hend. done. }
  pose proof (v_line _ Hv2). pose proof count_le_size. destruct (seek_lines_ok k (length buf + 2) d2 Hv2 Hl2) as (d3 & -> & Hv3 & Ho3 & Hl3 & Ht3 & He3); [unfold lines, size, blen in *; lia|].
  exists d3. split; [done|]. split; [done|]. split; [congruence|]. split; [done|]. rewrite Ht2 in Ht3. split; [done|]. intros Hs. by apply He3, He2.
Qed.

Lemma count_loop_ok fuel : forall d, valid d -> 0 < lines -> lines - line d < Z.of_nat fuel ->
  exists d', count_loop fuel d = Done d' /\ valid d' /\ total d' = lines /\ opt d' = opt d /\ (is_Some (end_ d) -> is_Some (end_ d')).
Proof.
  induction fuel as [|fuel IH]; intros d Hd Hp Hf; [pose proof (v_line _ Hd); lia|]. cbn [count_loop]. destruct (Z.ltb_spec (total d) 0) as [Hneg|Hpos].
  - destruct (v_total _ Hd) as [Ht|[Ht Hx]]; [lia|]. destruct (Hx Hp) as [Hl _]. destruct (getline_ok d Hd) as (r & d1 & -> & Hv & Ho & _ & He & _ & _ & Hc). cbn [mbind outcome_bind].
    destruct (Z.ltb_spec (line d) lines); [|lia]. destruct Hc as [Hl1 Hr]. destruct (IH d1 Hv Hp ltac:(lia)) as (d2 & -> & Hv2 & Ht2 & Ho2 & He2).
    exists d2. rewrite Ho2. split; [done|]. split; [done|]. split; [done|]. split; [done|]. intros _. apply He2. by rewrite He.
  - exists d. destruct (v_total _ Hd) as [Ht|[Ht _]]; [done|lia].
Qed.

Lemma last_entry_spec ls : (exists l, l ∈ ls /\ is_Some (offset l)) -> exists l, last_entry ls = Some l /\ l ∈ ls /\ is_Some (offset l).
Proof.
  induction ls as [|x ls IH]; intros (l & Hin & Hs); [by apply not_elem_of_nil in Hin|]. cbn [last_entry]. destruct (last_entry ls) as [y|] eqn:E.
  - destruct IH as (l' & [= <-] & Hin' & Hs'); [|exists y; split; [done|]; split; [apply elem_of_cons; by right|done]].
    clear -E. revert y E. induction ls as [|z ls IH]; intros y; [done|]. cbn [last_entry]. destruct (last_entry ls) as [y'|] eqn:E.
    + intros [= ->]. destruct (IH y eq_refl) as (l & Hl & Hs). exists l. split; [apply elem_of_cons; by right|done].
    + destruct (offset z) eqn:Ez; [|done]. intros [= ->]. exists y. split; [apply elem_of_cons; by left|by rewrite Ez].
  - apply elem_of_cons in Hin as [->|Hin]; [destruct Hs as [o Ho]; rewrite Ho; exists x; split; [done|]; split; [apply elem_of_cons; by left|by eexists]|].
    destruct IH as (l' & Hl' & _); [by exists l|done].
Qed.

(** The lines are counted, and the stream is where it was. *)
Lemma countline_ok d : valid d -> 0 < lines -> is_Some (end_ d) -> exists d', more_countline d = Done (lines, d') /\ valid d' /\
  total d' = lines /\ line d' = line d /\ begin d' = begin d /\ end_ d' = end_ d /\ prop d' = prop d /\ opt d' = opt d.
Proof.
  intros Hd Hp He. unfold more_countline. destruct (Z.leb_spec 0 (total d)) as [Hpos|Hneg].
  { destruct (v_total _ Hd) as [Ht|[Ht _]]; [|lia]. rewrite Ht. by exists d. }
  destruct (last_entry_spec (ln d) (v_set _ Hd He)) as (l & -> & Hin & [o Ho]). cbn [mbind outcome_bind].
  pose proof (proj1 (list.Forall_forall _ _) (v_entries _ Hd) l Hin o Ho) as [Hnr Heq]. destruct (v_total _ Hd) as [Ht|[Ht Hx]]; [lia|]. destruct (Hx Hp) as [Hline Hbefore].
  pose proof count_le_size. destruct (count_loop_ok (length buf + 2) (set_end (offset l) (set_line (number l) d))) as (d1 & -> & Hv1 & Ht1 & Ho1 & He1).
  - destruct Hd as [V1 V2 V3 V4 V5 V6 V7]. split; cbn; try done; [by rewrite Ho| |intros _; exists l; split; [done|by eexists]].
    right. split; [done|]. intros _. split; [apply (proj1 (list.Forall_forall _ _) Hbefore l Hin); by eexists|done].
  - done.
  - cbn. unfold lines, size, blen in *. lia.
  - cbn [mbind outcome_bind]. rewrite Ht1. eexists. split; [done|]. destruct Hv1 as [V1 V2 V3 V4 V5 V6 V7]. split; [|done].
    split; cbn; try done; [apply Hd|apply Hd|by left|]. intros _. apply V7, He1. cbn. by eexists.
Qed.

(** * Sequences of operations *)

Inductive op := Getline | Seek (n : Z) | Countline.

(** The part of the text that a line is. *)
Definition line_text (n : Z) : list Z := take (Z.to_nat (start_of (n + 1) - start_of n)) (drop (Z.to_nat (start_of n)) buf).

(** What an operation answers: the text that was fetched, or the count. *)
Definition perform (o : op) (d : more_file) : outcome (list Z * Z * more_file) :=
  match o with
  | Getline => '(r, d) ← more_getline d; bs ← rdn buf (default 0 (begin d)) r; Done (bs, r, d)
  | Seek n => d ← more_seek d n; Done ([], 0, d)
  | Countline => '(n, d) ← more_countline d; Done ([], n, d)
  end.

(** The same of a list of lines and the place in it. *)
Definition meant (o : op) (n : Z) : list Z * Z * Z :=
  match o with
  | Getline => if n <? lines then (line_text n, blen (line_text n), n + 1) else ([], 0, n)
  | Seek k => ([], 0, Z.min (Z.max k 0) lines)
  | Countline => ([], lines, n)
  end.

Fixpoint performs (os : list op) (d : more_file) : outcome (list (list Z * Z)) :=
  match os with [] => Done [] | o :: os => '(bs, r, d) ← perform o d; rs ← performs os d; Done ((bs, r) :: rs) end.
Fixpoint meanings (os : list op) (n : Z) : list (list Z * Z) :=
  match os with [] => [] | o :: os => let '(bs, r, n) := meant o n in (bs, r) :: meanings os n end.

Lemma line_text_length n : 0 <= n <= lines -> blen (line_text n) = start_of (n + 1) - start_of n.
Proof.
  intros Hn. unfold line_text, blen. rewrite length_take, length_drop. pose proof (start_bounds (Z.to_nat n)). pose proof (start_bounds (Z.to_nat (n + 1))).
  pose proof (start_mono (Z.to_nat n) (Z.to_nat (n + 1)) ltac:(lia)). unfold start_of, size, blen in *. lia.
Qed.

Lemma perform_ok o d : valid d -> (o <> Getline -> is_Some (end_ d)) -> 0 < lines -> exists d', perform o d = Done ((meant o (line d)).1, d') /\ valid d' /\
  line d' = (meant o (line d)).2 /\ is_Some (end_ d').
Proof.
  intros Hd He Hp. destruct o as [|n|]; unfold perform, meant.
  - destruct (getline_ok d Hd) as (r & d1 & -> & Hv & _ & Hb & He1 & Hr & _ & Hc). cbn [mbind outcome_bind]. rewrite Hb. cbn [from_option id default].
    pose proof (v_line _ Hd) as Hl. pose proof (v_line _ Hv) as Hl1. pose proof (start_bounds (Z.to_nat (line d))) as Hs. pose proof (start_bounds (Z.to_nat (line d1))) as Hs1.
    fold (start_of (line d)) (start_of (line d1)) in *.
    assert (r = 0 \/ 0 < r) as Hr0 by (destruct (line d <? lines); lia).
    assert (rdn buf (start_of (line d)) r = Done (take (Z.to_nat r) (drop (Z.to_nat (start_of (line d))) buf))) as ->.
    { unfold rdn. rewrite (proj2 (Z.leb_le 0 (start_of (line d)))), (proj2 (Z.leb_le 0 r)), (proj2 (Z.leb_le (start_of (line d) + r) (blen buf))) by (unfold size in *; lia). done. }
    cbn [mbind outcome_bind]. exists d1. split; [|split; [done|split; [|by rewrite He1]]].
    + destruct (Z.ltb_spec (line d) lines); destruct Hc as [Hc1 Hc2]; cbn [fst]; [|by rewrite Hc2].
      rewrite line_text_length by lia. unfold line_text. rewrite Hr, Hc1. done.
    + destruct (line d <? lines); destruct Hc as [-> _]; done.
  - destruct (seek_ok d n Hd) as (d1 & -> & Hv & _ & Hl & _ & Hend). cbn [mbind outcome_bind fst snd]. exists d1. split; [done|]. split; [done|]. split; [done|]. by apply Hend, He.
  - destruct (countline_ok d Hd Hp) as (d1 & -> & Hv & _ & Hl & _ & Hend & _); [by apply He|]. cbn [mbind outcome_bind fst snd]. exists d1. split; [done|]. split; [done|]. split; [done|].
    rewrite Hend. by apply He.
Qed.

Lemma performs_ok os : forall d, valid d -> is_Some (end_ d) -> 0 < lines -> performs os d = Done (meanings os (line d)).
Proof.
  induction os as [|o os IH]; intros d Hd He Hp; [done|]. cbn [performs meanings]. destruct (perform_ok o d Hd (fun _ => He) Hp) as (d1 & -> & Hv & Hl & He1).
  destruct (meant o (line d)) as [[bs r] n]. cbn [mbind outcome_bind fst snd] in *. by rewrite (IH d1 Hv He1 Hp), Hl.
Qed.

(** The lines together are the text. *)
Lemma lines_join : mjoin (line_text <$> seqZ 0 lines) = buf.
Proof.
  assert (forall n, (n <= count w)%nat -> mjoin (line_text <$> seqZ 0 (Z.of_nat n)) = take (Z.to_nat (start w n)) buf) as H.
  { induction n as [|n IH]; intros Hn; [done|]. rewrite Nat2Z.inj_succ, <- Z.add_1_r, seqZ_app, fmap_app, join_app, IH by lia. cbn [seqZ]. change (seqZ (0 + Z.of_nat n) 1) with [0 + Z.of_nat n].
    cbn [fmap list_fmap mjoin list_join]. rewrite app_nil_r. unfold line_text, start_of. replace (Z.to_nat (0 + Z.of_nat n)) with n by lia. replace (Z.to_nat (0 + Z.of_nat n + 1)) with (S n) by lia.
    pose proof (start_mono n (S n) ltac:(lia)). pose proof (start_bounds n). rewrite <- (take_drop (Z.to_nat (start w n)) (take (Z.to_nat (start w (S n))) buf)).
    rewrite take_take, skipn_firstn_comm. f_equal; f_equal; lia. }
  unfold lines. rewrite H by done. rewrite (proj2 count_spec). apply firstn_all2. unfold size, blen. lia.
Qed.


(** * Pages *)

(** The lines on the screen after some acts. *)
Fixpoint rows (acts : list act) (r : list (list Z)) : list (list Z) :=
  match acts with
  | [] => r
  | Put_line s :: acts => rows acts (r ++ [s])
  | Scroll :: acts => rows acts (tail r)
  | (Clear | Show_help) :: acts => rows acts []
  | _ :: acts => rows acts r
  end.

(** The [k] lines from [n] on. *)
Definition lines_from (n k : Z) : list (list Z) := line_text <$> seqZ n k.

Section Pages.
Context (screen_lines : Z) (Hscreen : 2 <= screen_lines) (promptend : bool) (limit : Z) (handler : option (Z -> Z)) (Hsize : 0 < size).

(** Whenever a key is waited for, the screen has the lines that the prompt says. *)
Fixpoint prompts_ok (acts : list act) (r : list (list Z)) : Prop :=
  match acts with
  | [] => True
  | a :: acts =>
      match a with
      | Prompt _ from to => 0 <= to - (screen_lines - 1) /\ from = to - (screen_lines - 1) + 1 /\ r = lines_from (to - (screen_lines - 1)) (screen_lines - 1)
      | _ => True
      end /\ prompts_ok acts (rows [a] r)
  end.

Lemma rows_app a b r : rows (a ++ b) r = rows b (rows a r).
Proof. revert r. induction a as [|x a IH]; intros r; [done|]. destruct x; apply IH. Qed.

Lemma prompts_app a b r : prompts_ok (a ++ b) r <-> prompts_ok a r /\ prompts_ok b (rows a r).
Proof.
  revert r. induction a as [|x a IH]; intros r; [cbn; tauto|]. cbn [app prompts_ok]. rewrite IH. replace (rows (x :: a) r) with (rows a (rows [x] r)) by by destruct x. tauto.
Qed.

Lemma lines_positive : 0 < lines.
Proof. destruct (decide (lines = 0)) as [H|H]; [|unfold lines in *; lia]. destruct count_spec as [_ He]. unfold lines in H. replace (count w) with O in He by lia. cbn in He. lia. Qed.

Lemma pattern_ok p s : 0 <= p < size -> forallb (fun c => negb (c =? 10) && negb (c =? 0)) s = true -> exists b, begins_with p s = Done b.
Proof.
  intros Hp Hs. apply begins_with_ok; [|done]. apply list.Forall_forall. intros c Hc%list_elem_of_In. rewrite forallb_forall in Hs. apply Hs in Hc.
  apply andb_true_iff in Hc as [H1 H2]. destruct (Z.eqb_spec c 10); [done|]. destruct (Z.eqb_spec c 0); done.
Qed.

Lemma is_emphasize_total p : 0 <= p < size -> exists b, is_emphasize p = Done b.
Proof.
  intros Hp. unfold is_emphasize. destruct (pattern_ok p [0xa1; 0xbe; 32; 0xd4; 0xda] Hp eq_refl) as [a ->]. cbn [mbind outcome_bind]. destruct a; [eauto|].
  destruct (pattern_ok p (bytes "==>") Hp eq_refl) as [b ->]. cbn [mbind outcome_bind]. destruct b; [eauto|].
  destruct (pattern_ok p [0xa1; 0xf5; 32; 0xd2; 0xfd; 0xd3; 0xc3] Hp eq_refl) as [c ->]. cbn [mbind outcome_bind]. destruct c; [eauto|].
  apply pattern_ok; [done|reflexivity].
Qed.

Lemma is_quotation_total p : 0 <= p < size -> exists b, is_quotation p = Done b.
Proof.
  intros Hp. unfold is_quotation. destruct (pattern_ok p (bytes ": ") Hp eq_refl) as [a ->]. cbn [mbind outcome_bind]. destruct a; [eauto|].
  apply pattern_ok; [done|reflexivity].
Qed.

(** One more line on the screen, or the end. *)
Lemma show_line_ok v : valid (file v) -> pos v <= screen_lines - 1 -> exists acts r, show_line screen_lines promptend limit v = Done (acts, r) /\ (forall x, prompts_ok acts x) /\
  match r with
  | None => True
  | Some v' => valid (file v') /\ line (file v') = line (file v) + 1 /\ is_Some (end_ (file v')) /\ line (file v) < lines /\
      pos v' = Z.min (pos v + 1) (screen_lines - 1) /\
      forall x, rows acts x = if pos v + 1 =? screen_lines then tail (x ++ [line_text (line (file v))]) else x ++ [line_text (line (file v))]
  end.
Proof.
  intros Hv Hpos. unfold show_line. destruct (getline_ok (file v) Hv) as (r & d & -> & Hv1 & Ho & Hb & He & Hr & _ & Hc). cbn [mbind outcome_bind].
  assert (forall acts x, (forall a, a ∈ acts -> match a with Prompt _ _ _ => False | _ => True end) -> prompts_ok acts x) as Hnop.
  { induction acts as [|a acts IH]; intros x Hx; [done|]. split; [specialize (Hx a ltac:(apply elem_of_cons; by left)); by destruct a|].
    apply IH. intros b Hb'. apply Hx, elem_of_cons. by right. }
  assert (forall x, prompts_ok (prompt_end promptend) x) as Hpe by (intros x; unfold prompt_end; by destruct promptend).
  destruct (Z.leb_spec r 0); [eexists _, None; split; [done|]; by split|].
  destruct (Z.ltb_spec (line (file v)) lines) as [Hlt|]; [|lia]. destruct Hc as [Hl Hrp].
  destruct ((limit =? 0) || _); [|eexists _, None; split; [done|]; split; [|done]; intros x; apply prompts_app; split; [apply Hpe|done]].
  rewrite Hb. cbn [from_option id default]. pose proof (v_line _ Hv) as Hlv. pose proof (start_bounds (Z.to_nat (line (file v)))) as Hs. pose proof (start_bounds (Z.to_nat (line d))) as Hs1.
  fold (start_of (line (file v))) (start_of (line d)) in *. set (p := start_of (line (file v))) in *.
  assert (0 <= p < size) as Hp by lia.
  assert (exists em, (if negb (has (opt d) NO_EMPHASIZE) then is_emphasize p else Done false) = Done em) as [em ->] by (destruct (negb _); [by apply is_emphasize_total|eauto]).
  cbn [mbind outcome_bind]. unfold more_puts. rewrite Hb, He.
  assert (rdn buf p (start_of (line d) - p) = Done (line_text (line (file v)))) as Hread.
  { unfold rdn. rewrite (proj2 (Z.leb_le 0 p)), (proj2 (Z.leb_le 0 _)), (proj2 (Z.leb_le (p + _) (blen buf))) by (unfold size in *; lia). unfold line_text. fold p. by rewrite Hl. }
  rewrite Hread. cbn [mbind outcome_bind].
  set (put := Put_line (line_text (line (file v)))).
  match goal with |- context [mbind _ ?e] => assert (exists acts q col, e = Done (acts, q, col) /\ (acts = [put] \/ exists o, acts = [Outs o; put])) as (acts & q & col & -> & Hacts) end.
  { destruct em; [eexists _, _, _; split; [reflexivity|right; by eexists]|].
    assert (exists wr, (if negb (p =? 0) then c ← rd buf (p - 1); Done (negb (c =? 10)) else Done false) = Done wr) as [wr ->].
    { destruct (Z.eqb_spec p 0); cbn [negb]; [eauto|]. destruct (rd_in buf (p - 1)) as [c ->]; [unfold size in *; lia|]. cbn [mbind outcome_bind]. eauto. }
    cbn [mbind outcome_bind].
    assert (exists qu, (if negb (has (opt d) NO_QUOTE) then if is_quote v then Done true else if negb wr then is_quotation p else Done false else Done false) = Done qu) as [qu ->].
    { destruct (negb (has (opt d) NO_QUOTE)); [|eauto]. destruct (is_quote v); [eauto|]. destruct (negb wr); [by apply is_quotation_total|eauto]. }
    cbn [mbind outcome_bind from_option id default]. destruct (rd_in buf (start_of (line d) - 1)) as [last ->]; [unfold size in *; lia|]. cbn [mbind outcome_bind].
    eexists _, _, _. split; [reflexivity|]. destruct qu; [right; by eexists|]. destruct (colored v); [right; by eexists|by left]. }
  cbn [mbind outcome_bind]. assert (forall x, rows acts x = x ++ [line_text (line (file v))]) as Hrows by (intros x; by destruct Hacts as [->|[o ->]]).
  destruct (Z.eqb_spec (pos v + 1) screen_lines) as [Hlast|Hlast].
  - eexists _, (Some _). split; [reflexivity|]. split.
    + intros x. apply Hnop. intros a Ha. apply elem_of_app in Ha as [Ha|Ha].
      * destruct Hacts as [->|[o ->]]; repeat apply elem_of_cons in Ha as [->|Ha]; try done; by apply not_elem_of_nil in Ha.
      * by apply list_elem_of_singleton in Ha as ->.
    + cbn [file pos]. split; [done|]. split; [done|]. split; [by rewrite He|]. split; [done|]. split; [lia|]. intros x. by rewrite rows_app, Hrows.
  - eexists _, (Some _). split; [reflexivity|]. split.
    + intros x. apply Hnop. intros a Ha. destruct Hacts as [->|[o ->]]; repeat apply elem_of_cons in Ha as [->|Ha]; try done; by apply not_elem_of_nil in Ha.
    + cbn [file pos]. split; [done|]. split; [done|]. split; [by rewrite He|]. split; [done|]. split; [lia|]. done.
Qed.


(** The last lines that fit. *)
Definition window (x : list (list Z)) : list (list Z) := drop (length x - Z.to_nat (screen_lines - 1)) x.

Lemma window_app x y : window (window x ++ y) = window (x ++ y).
Proof.
  unfold window. rewrite !length_app, length_drop. set (m := Z.to_nat (screen_lines - 1)).
  destruct (Nat.le_gt_cases (length x) m) as [Hx|Hx]; [replace (length x - m)%nat with O by lia; rewrite drop_0; f_equal; lia|].
  rewrite !drop_app, drop_drop, length_drop. f_equal; f_equal; lia.
Qed.

Lemma window_short x : Z.of_nat (length x) <= screen_lines - 1 -> window x = x.
Proof. intros H. unfold window. replace (length x - _)%nat with O by lia. by rewrite drop_0. Qed.

Lemma window_length x : Z.of_nat (length (window x)) = Z.min (Z.of_nat (length x)) (screen_lines - 1).
Proof. unfold window. rewrite length_drop. lia. Qed.

Lemma window_full x y : Z.of_nat (length y) = screen_lines - 1 -> window (x ++ y) = y.
Proof. intros H. unfold window. rewrite length_app, drop_app_length'; [done|lia]. Qed.

Lemma lines_from_cons n k : 0 < k -> lines_from n k = line_text n :: lines_from (n + 1) (k - 1).
Proof. intros H. unfold lines_from. by rewrite seqZ_cons, Z.add_1_r, Z.sub_1_r by done. Qed.

Lemma lines_from_length n k : 0 <= k -> Z.of_nat (length (lines_from n k)) = k.
Proof. intros H. unfold lines_from. rewrite length_fmap, length_seqZ. lia. Qed.

Lemma lines_from_app n j k : 0 <= j -> 0 <= k -> lines_from n j ++ lines_from (n + j) k = lines_from n (j + k).
Proof. intros. unfold lines_from. by rewrite seqZ_app, fmap_app. Qed.

Lemma show_lines_ok k : forall v, valid (file v) -> pos v <= screen_lines - 1 -> exists acts r, show_lines screen_lines promptend limit k v = Done (acts, r) /\ (forall x, prompts_ok acts x) /\
  match r with
  | None => True
  | Some v' => valid (file v') /\ line (file v') = line (file v) + Z.of_nat k /\ ((0 < k)%nat \/ is_Some (end_ (file v)) -> is_Some (end_ (file v'))) /\
      pos v' = Z.min (pos v + Z.of_nat k) (screen_lines - 1) /\
      forall x, Z.of_nat (length x) = pos v -> rows acts x = window (x ++ lines_from (line (file v)) (Z.of_nat k))
  end.
Proof.
  induction k as [|k IH]; intros v Hv Hpos; cbn [show_lines].
  { eexists [], (Some v). split; [done|]. split; [done|]. split; [done|]. split; [lia|]. split; [intros [?|?]; [lia|done]|]. split; [lia|].
    intros x Hx. cbn. unfold lines_from. cbn. rewrite app_nil_r, window_short; [done|lia]. }
  destruct (show_line_ok v Hv Hpos) as (acts & r & -> & Hpr & Hr). cbn [mbind outcome_bind]. destruct r as [v1|]; [|by exists acts, None].
  destruct Hr as (Hv1 & Hl1 & He1 & Hlt & Hp1 & Hrows). destruct (IH v1 Hv1) as (acts2 & r2 & -> & Hpr2 & Hr2); [lia|]. cbn [mbind outcome_bind].
  eexists _, r2. split; [done|]. split; [intros x; by apply prompts_app|]. destruct r2 as [v2|]; [|done]. destruct Hr2 as (Hv2 & Hl2 & He2 & Hp2 & Hrows2).
  split; [done|]. split; [lia|]. split; [intros _; apply He2; by right|]. split; [lia|]. intros x Hx.
  assert (rows acts x = window (x ++ [line_text (line (file v))])) as Hx1.
  { rewrite Hrows. unfold window. rewrite length_app. cbn [length]. destruct (Z.eqb_spec (pos v + 1) screen_lines) as [Hs|Hs].
    - replace (length x + 1 - Z.to_nat (screen_lines - 1))%nat with 1%nat by lia. by destruct (x ++ _).
    - replace (length x + 1 - Z.to_nat (screen_lines - 1))%nat with 0%nat by lia. by rewrite drop_0. }
  rewrite rows_app, Hx1, Hrows2.
  - rewrite window_app, <- app_assoc, Hl1. rewrite (lines_from_cons (line (file v)) (Z.of_nat (S k))) by lia. do 3 f_equal. cbn [app]. do 2 f_equal. lia.
  - rewrite window_length, length_app. cbn [length]. lia.
Qed.

(** Where the loop stands: the screen has consecutive lines up to the one that
    comes next, or is about to be filled. *)
Record stands (i : Z) (v : view) (x : list (list Z)) : Prop := {
  s_valid : valid (file v);
  s_rows : Z.of_nat (length x) = pos v;
  s_pos : pos v <= screen_lines - 1;
  s_fills : screen_lines - 1 <= pos v + Z.max 0 (screen_lines - 1 - i);
  s_end : i < screen_lines - 1 \/ is_Some (end_ (file v));
  s_lines : x = lines_from (line (file v) - pos v) (pos v) /\ 0 <= line (file v) - pos v \/ i = 0 }.

Lemma window_lines n k : screen_lines - 1 <= k -> window (lines_from n k) = lines_from (n + k - (screen_lines - 1)) (screen_lines - 1).
Proof.
  intros Hk. replace k with ((k - (screen_lines - 1)) + (screen_lines - 1)) at 1 by lia. rewrite <- lines_from_app by lia.
  rewrite window_full by (apply lines_from_length; lia). f_equal. lia.
Qed.

(** After the inner loop the screen is full. *)
Lemma shown_full i v x : stands i v x -> exists acts r, show_lines screen_lines promptend limit (Z.to_nat (screen_lines - 1 - i)) v = Done (acts, r) /\ prompts_ok acts x /\
  match r with
  | None => True
  | Some v' => valid (file v') /\ is_Some (end_ (file v')) /\ pos v' = screen_lines - 1 /\ 0 <= line (file v') - (screen_lines - 1) /\
      rows acts x = lines_from (line (file v') - (screen_lines - 1)) (screen_lines - 1)
  end.
Proof.
  intros [Hv Hr Hp Hf He Hl]. set (k := Z.to_nat (screen_lines - 1 - i)). destruct (show_lines_ok k v Hv Hp) as (acts & r & -> & Hpr & Hc).
  exists acts, r. split; [done|]. split; [apply Hpr|]. destruct r as [v1|]; [|done]. destruct Hc as (Hv1 & Hl1 & He1 & Hp1 & Hrows). pose proof (v_line _ Hv) as Hline.
  split; [done|]. split; [apply He1; destruct He; [left; lia|by right]|]. split; [lia|]. rewrite (Hrows x Hr). destruct Hl as [[Hx H0]|Hi].
  - split; [lia|]. assert (x ++ lines_from (line (file v)) (Z.of_nat k) = lines_from (line (file v) - pos v) (pos v + Z.of_nat k)) as ->.
    { rewrite <- lines_from_app by lia. rewrite Hx at 1. do 2 f_equal. lia. }
    rewrite window_lines by lia. f_equal. lia.
  - split; [lia|]. rewrite window_full by (rewrite lines_from_length; lia). f_equal; lia.
Qed.

Lemma go_to_ok n ch v : valid (file v) -> exists v', go_to n ch v = Done (Go_on 0 ch v') /\ stands 0 v' [].
Proof.
  intros Hv. unfold go_to. destruct (seek_ok (file v) n Hv) as (d & -> & Hd & _ & Hl & _). cbn [mbind outcome_bind]. eexists. split; [reflexivity|].
  split; cbn; try done; try lia; by right.
Qed.

(** What a key leaves the loop with. *)
Definition leaves (x : list (list Z)) (an : list act * next) : Prop :=
  (forall y, prompts_ok an.1 y) /\ match an.2 with Go_on i _ v => stands i v (rows an.1 x) | Return _ => True end.

Lemma do_key_ok i ch text v x : valid (file v) -> is_Some (end_ (file v)) -> pos v = screen_lines - 1 -> 0 <= line (file v) - (screen_lines - 1) ->
  x = lines_from (line (file v) - (screen_lines - 1)) (screen_lines - 1) -> screen_lines - 1 <= i ->
  exists an, do_key screen_lines handler i ch text v = Done an /\ leaves x an.
Proof.
  intros Hv He Hp Hn Hx Hi. assert (forall j v', valid (file v') -> line (file v') = line (file v) -> is_Some (end_ (file v')) -> pos v' = pos v -> stands j v' x) as Hsame.
  { intros j v' H1 H2 H3 H4. split; [done| |lia|lia|by right|left].
    - rewrite Hx, lines_from_length; lia.
    - rewrite H2, H4, Hp. by split. }
  assert (forall acts ch', (forall y, prompts_ok acts y) -> exists an, Done (acts, Return ch') = Done an /\ leaves x an) as Hret by (intros acts ch' Ha; eexists; split; [reflexivity|by split]).
  assert (forall n, exists an, (n0 ← go_to n ch v; Done ([Clear], n0)) = Done an /\ leaves x an) as Hgo.
  { intros n. destruct (go_to_ok n ch v Hv) as (v' & -> & Hs). cbn [mbind outcome_bind]. eexists. split; [reflexivity|]. by split. }
  unfold do_key. destruct (ch =? KEY_LEFT); [by apply Hret|].
  destruct (ch =? KEY_RIGHT); [eexists; split; [reflexivity|]; split; [done|]; by apply Hsame|].
  destruct (ch =? KEY_DOWN); [eexists; split; [reflexivity|]; split; [done|]; by apply Hsame|].
  destruct (ch =? KEY_PGUP); [destruct (_ <? 0); [by apply Hret|apply Hgo]|].
  destruct (ch =? KEY_UP); [destruct (_ <? 0); [by apply Hret|apply Hgo]|].
  destruct (ch =? KEY_HOME); [apply Hgo|].
  destruct ((ch =? 82) || (ch =? KEY_END)).
  { destruct (countline_ok (file v) Hv lines_positive He) as (d & -> & Hd & Ht & Hl & _ & Hend & _). cbn [mbind outcome_bind]. rewrite Ht, Hl.
    pose proof (v_line _ Hv) as Hline. set (r := lines - line (file v)). destruct (Z.ltb_spec (screen_lines - 1 - r) 0) as [Hneg|Hpos].
    - destruct (Z.eqb_spec 0 (screen_lines - 1)); [lia|]. destruct (seek_ok d (lines - (screen_lines - 1) + 0) Hd) as (d2 & -> & Hd2 & _ & Hl2 & _ & He2). cbn [mbind outcome_bind].
      eexists. split; [reflexivity|]. split; [done|]. cbn. split; cbn; [done|rewrite Hx, lines_from_length; lia|lia|lia|left; lia|by right].
    - destruct (Z.eqb_spec (screen_lines - 1 - r) (screen_lines - 1)).
      + eexists. split; [reflexivity|]. split; [done|]. cbn. apply Hsame; cbn; [done|done|by rewrite Hend|done].
      + destruct (seek_ok d (lines - (screen_lines - 1) + (screen_lines - 1 - r)) Hd) as (d2 & -> & Hd2 & _ & Hl2 & _ & He2). cbn [mbind outcome_bind].
        eexists. split; [reflexivity|]. split; [done|]. cbn. apply Hsame; cbn; [done|lia|apply He2; by rewrite Hend|done]. }
  destruct (ch =? 71).
  { unfold typed_number. destruct (strtol_string (take 6 text)) as [num ->]. cbn [mbind outcome_bind]. set (nr := if num - 1 <? 0 then 0 else num - 1).
    destruct (seek_ok (file v) nr Hv) as (d & -> & Hd & _ & _ & _). cbn [mbind outcome_bind].
    assert (exists d2, (if (0 <=? total d) && (total d <=? nr) then more_seek d (total d - 1) else Done d) = Done d2 /\ valid d2) as (d2 & -> & Hd2).
    { destruct (_ && _); [|by exists d]. destruct (seek_ok d (total d - 1) Hd) as (d2 & -> & Hd2 & _). by exists d2. }
    cbn [mbind outcome_bind]. eexists. split; [reflexivity|]. split; [done|]. cbn. split; cbn; try done; try lia; by right. }
  destruct (ch =? 72).
  { destruct (go_to_ok (if line (file v) - screen_lines + 1 <? 0 then 0 else line (file v) - screen_lines + 1) ch v Hv) as (v' & -> & Hs). cbn [mbind outcome_bind].
    eexists. split; [reflexivity|]. by split. }
  destruct (ch =? 76); [by apply Hret|]. destruct handler as [h|]; [|eexists; split; [reflexivity|]; split; [done|]; by apply Hsame].
  eexists. split; [reflexivity|]. split; [done|]. cbn. destruct (negb (h ch =? 0)); [done|]. by apply Hsame.
Qed.

Lemma morekey_less keys : (length (morekey keys).2 < length keys)%nat \/ (morekey keys).2 = [] /\ (morekey keys).1.1 = KEY_LEFT \/ (length (morekey keys).2 < length keys)%nat.
Proof.
  induction keys as [|[ch text] keys IH]; [right; left; done|]. cbn [morekey]. destruct (key_of ch); [left; cbn; lia|]. cbn [length]. destruct IH as [?|[[H1 H2]|?]]; [left; lia|right; by left|left; lia].
Qed.

Lemma more_loop_ok fuel : forall i ch v keys x, stands i v x -> (length keys + 1 < fuel)%nat ->
  exists acts ch', more_loop screen_lines promptend limit handler fuel i ch v keys = Done (acts, ch') /\ prompts_ok acts x.
Proof.
  induction fuel as [|fuel IH]; intros i ch v keys x Hs Hf; [lia|]. cbn [more_loop].
  assert (stands i (set_is_quote (has (prop (file v)) IS_QUOTE) v) x) as Hs1 by by destruct Hs.
  destruct (shown_full i _ x Hs1) as (acts & r & -> & Hpr & Hr). cbn [mbind outcome_bind]. destruct r as [v1|]; [|by exists acts, ch].
  destruct Hr as (Hv1 & He1 & Hp1 & Hl1 & Hrows). destruct (bool_decide _ && _).
  { eexists _, ch. split; [reflexivity|]. apply prompts_app. split; [done|]. unfold prompt_end. by destruct promptend. }
  pose proof (morekey_less keys) as Hk. destruct (morekey keys) as [[k text] keys'] eqn:Ek. cbn [fst snd] in Hk.
  destruct (do_key_ok (Z.max i (screen_lines - 1) + 1) k text v1 _ Hv1 He1 Hp1 Hl1 eq_refl ltac:(lia)) as ([acts2 n] & Hd & Hpr2 & Hst). rewrite Hd. cbn [mbind outcome_bind fst snd] in *.
  assert (prompts_ok (acts ++ [Move_clear; more_prompt_file screen_lines (file v1); Move_clear; Flush] ++ acts2) x) as Hall.
  { apply prompts_app. split; [done|]. rewrite Hrows. cbn. split; [done|]. split; [|by split]. split; [lia|]. split; [lia|done]. }
  destruct n as [i2 ch2 v2|ch2]; [|by eexists _, _].
  assert (stands i2 v2 (rows (acts ++ [Move_clear; more_prompt_file screen_lines (file v1); Move_clear; Flush] ++ acts2) x)) as Hst2 by (rewrite rows_app, Hrows; exact Hst).
  assert (length keys' < length keys)%nat as Hless.
  { destruct Hk as [?|[[-> Hleft]|?]]; [done| |done]. destruct keys as [|kk keys]; [|cbn; lia]. cbn in Ek. injection Ek as <- _. by vm_compute in Hd. }
  destruct (IH i2 ch2 v2 keys' _ Hst2) as (acts3 & ch3 & -> & Hpr3); [lia|]. cbn [mbind outcome_bind]. eexists _, ch3. split; [reflexivity|]. by apply prompts_app.
Qed.

End Pages.
End Lines.
End Proper.
End Text.

(** C12. A stream reads the text line by line: each fetch gives the next part of the
    text, whatever was sought or counted before; to seek a line finds it, or the
    last, though only some lines are remembered; counting does not move the
    stream; and the lines, none of them empty, are the text. *)
Theorem more_refines buf w opt os : proper buf -> 4 <= w -> 0 < size buf ->
  performs buf (Getline :: os) (more_open buf w opt) = Done (meanings buf w (Getline :: os) 0) /\
  mjoin (line_text buf w <$> seqZ 0 (lines buf w)) = buf /\ forall n, 0 <= n < lines buf w -> line_text buf w n <> [].
Proof.
  intros Hp Hw Hs. pose proof (valid_open buf w opt) as Hv. pose proof (lines_positive buf Hp w Hw Hs) as Hl. split; [|split].
  - cbn [performs meanings]. destruct (perform_ok buf Hp w Hw Getline (more_open buf w opt) Hv) as (d & -> & Hd & Hld & He); [done|done|].
    change (line (more_open buf w opt)) with 0 in *. destruct (meant buf w Getline 0) as [[bs r] n]. cbn [mbind outcome_bind fst snd] in *.
    by rewrite (performs_ok buf Hp w Hw os d Hd He Hl), Hld.
  - by apply lines_join.
  - intros n Hn He. pose proof (line_text_length buf Hp w Hw n ltac:(lia)) as Hlen. rewrite He in Hlen. change (blen []) with 0 in Hlen.
    pose proof (start_less buf Hp w Hw (Z.to_nat n)) as Hlt. destruct (count_spec buf Hp w Hw) as [Hc _]. specialize (Hc (Z.to_nat n)). unfold start_of, lines in *.
    replace (Z.to_nat (n + 1)) with (S (Z.to_nat n)) in Hlen by lia. lia.
Qed.

(** C13. The pager comes to an end for every sequence of keys, within the text, and
    whenever it waits for a key the screen is filled with consecutive lines of the
    text, the ones that the prompt says. *)
Theorem more_pages buf w opt screen_lines promptend limit handler keys : proper buf -> 4 <= w -> 0 < size buf -> 2 <= screen_lines ->
  exists acts ch, more_main buf screen_lines promptend limit handler (more_open buf w opt) keys = Done (acts, ch) /\ prompts_ok buf w screen_lines acts [].
Proof.
  intros Hp Hw Hs Hsc. unfold more_main.
  destruct (more_loop_ok buf Hp w Hw screen_lines Hsc promptend limit handler Hs (length keys + 2) 0 0 (View (more_open buf w opt) 1 0 false false) keys []) as (acts & ch & -> & Hpr).
  - split; cbn; [apply valid_open|done|lia|lia|left; lia|by right].
  - lia.
  - cbn [mbind outcome_bind]. eexists _, ch. by split.
Qed.

(** * Examples *)

Definition six_lines : list Z := text_of [bytes "one"; bytes "two"; bytes ": three"; bytes "four"; bytes "five"; bytes "six"].

Lemma six_proper : proper six_lines.
Proof. right. exists (removelast six_lines). split; vm_compute; reflexivity. Qed.

Lemma more_refines_witness : performs six_lines [Getline; Seek 4; Getline; Countline; Getline; Getline] (more_open six_lines 80 0) =
    Done [(bytes "one" ++ [10], 4); ([], 0); (bytes "five" ++ [10], 5); ([], 6); (bytes "six" ++ [10], 4); ([], 0)] /\
  mjoin (line_text six_lines 80 <$> seqZ 0 (lines six_lines 80)) = six_lines.
Proof.
  destruct (more_refines six_lines 80 0 [Seek 4; Getline; Countline; Getline; Getline] six_proper ltac:(lia) ltac:(done)) as (H1 & H2 & _).
  split; [|exact H2]. rewrite H1. vm_compute. reflexivity.
Defined.

Lemma more_pages_witness : exists acts ch, more_main six_lines 4 false 0 None (more_open six_lines 80 0) [(KEY_DOWN, []); (KEY_END, []); (107, []); (113, [])] = Done (acts, ch) /\
  ch = KEY_LEFT /\ prompts_ok six_lines 80 4 acts [].
Proof.
  destruct (more_pages six_lines 80 0 4 false 0 None [(KEY_DOWN, []); (KEY_END, []); (107, []); (113, [])] six_proper ltac:(lia) ltac:(done) ltac:(lia)) as (acts & ch & H1 & H2).
  exists acts, ch. split; [exact H1|]. split; [|exact H2].
  assert (match more_main six_lines 4 false 0 None (more_open six_lines 80 0) [(KEY_DOWN, []); (KEY_END, []); (107, []); (113, [])] with Done (_, c) => c = KEY_LEFT | _ => False end) as H
    by (vm_compute; reflexivity).
  by rewrite H1 in H.
Defined.

(** The escape behind a full line takes the newline for its end: what is behind the
    text is read. *)
Example reads_behind : more_getline (replicate 80 97 ++ [27; 91; 10]) (more_open (replicate 80 97 ++ [27; 91; 10]) 80 0) = Fault.
Proof. vm_compute. reflexivity. Qed.

(** A stream that was in a quotation still is, at the begin of the text. *)
Definition long_quote : list Z := bytes "one" ++ [10] ++ bytes ": " ++ replicate 90 97 ++ [10] ++ bytes "two" ++ [10].

Example quote_stays :
  match perform long_quote (Seek 2) (more_open long_quote 80 0) with
  | Done (_, d) =>
      match perform long_quote (Seek 0) d with Done (_, d) => has (prop d) IS_QUOTE && (line d =? 0) | _ => false end
  | _ => false
  end = true.
Proof. vm_compute. reflexivity. Qed.
