(* ===== verification/Getdata.v ===== *)
(** The line that a user types: [getdata] of [src/tui.c], with the buffer it
    edits in place. Keys come one after the other; with each comes whether a
    message was on the screen ([RMSG]) and whether it was the last one
    ([msg_num == 0]) when the key was read. *)
From S2P Require Import Prelude CString More.
#[local] Open Scope Z_scope.

Definition KEY_DEL : Z := 0x0203.

(** The loop over the characters before the cursor, bytes with the high bit
    set and what follows them being one: where the last one starts and its
    length. *)
Fixpoint find_character (fuel : nat) (buf : list Z) (cur clen : Z) (backspace : bool) (i pos dec : Z) : outcome (Z * Z) :=
  match fuel with
  | O => NoFuel
  | S fuel =>
      if i <? clen then
        let pos := i in
        c ← rd buf i;
        let dec := if negb (Z.land c 128 =? 0) then 2 else 1 in
        let i := i + dec in
        if (negb backspace && ((cur <=? pos) || (cur <? i))) || (backspace && (cur <=? i)) then Done (pos, dec)
        else find_character fuel buf cur clen backspace i pos dec
      else Done (pos, dec)
  end.

(** The buffer, the cursor, and by how much the text is shorter. *)
Definition remove_character (buf : list Z) (cur clen : Z) (backspace : bool) : outcome (list Z * Z * Z) :=
  if (cur <=? 0) || (clen <=? 0) then Done (buf, cur, 0)
  else
    '(pos, dec) ← find_character (Z.to_nat clen + 1) buf cur clen backspace 0 0 0;
    let remaining := clen - pos - dec in
    buf ← (if 0 <? remaining then memmove buf pos (pos + dec) remaining else Done buf);
    let cur := pos in
    let clen := clen - dec in
    let '(dec, clen) := if clen <? 0 then (dec + clen, 0) else (dec, clen) in
    buf ← wr buf clen 0;
    Done (buf, cur, dec).

(** What the screen shows while a key is awaited: the text after the prompt,
    and the column of the cursor. *)
Record view := View { v_text : list Z; v_col : Z }.

Record line := Line { buf : list Z; cur : Z; clen : Z; views : list view }.

Section Getdata.
Context (len real_x : Z) (echo : bool).

Definition draw (l : line) : outcome line :=
  s ← (if echo then cstring (buf l) 0 else Done (replicate (Z.to_nat (clen l)) 42));
  Done (Line (buf l) (cur l) (clen l) (View s (real_x + cur l) :: views l)).

(** A count of bytes is a [size_t]. *)
Definition insert_character (ch : Z) (l : line) : outcome line :=
  c ← rd (buf l) (cur l);
  b ← (if negb (c =? 0) then memmove (buf l) (cur l + 1) (cur l) (u64 (clen l - cur l)) else Done (buf l));
  b ← wr b (cur l) ch;
  b ← wr b (cur l + 1) 0;
  Done (Line b (cur l + 1) (clen l + 1) (views l)).

Definition with_cur (v : Z) (l : line) : line := Line (buf l) v (clen l) (views l).

Definition remove_at_cursor (backspace : bool) (l : line) : outcome line :=
  '(b, c, dec) ← remove_character (buf l) (cur l) (clen l) backspace;
  Done (Line b c (clen l - dec) (views l)).

(** A key: whether it ends the line, and the line. *)
Definition getdata_key (ch : Z) (rmsg last_msg : bool) (l : line) : outcome (bool * line) :=
  if rmsg && last_msg && ((ch =? Ctrl 90) || (ch =? KEY_UP)) then
    b ← wr (buf l) 0 (Ctrl 90); Done (true, Line b (cur l) 1 (views l))
  else if rmsg && last_msg && ((ch =? Ctrl 65) || (ch =? KEY_DOWN)) then
    b ← wr (buf l) 0 (Ctrl 65); Done (true, Line b (cur l) 1 (views l))
  else if (ch =? 10) || (ch =? 13) then Done (true, l)
  else if (ch =? 127) || (ch =? Ctrl 72) then l ← remove_at_cursor true l; Done (false, l)
  else if ch =? KEY_DEL then l ← remove_at_cursor false l; Done (false, l)
  else if ch =? KEY_LEFT then Done (false, if 0 <? cur l then with_cur (cur l - 1) l else l)
  else if ch =? KEY_RIGHT then Done (false, if cur l <? clen l then with_cur (cur l + 1) l else l)
  else if (ch =? Ctrl 69) || (ch =? KEY_END) then Done (false, with_cur (clen l) l)
  else if (ch =? Ctrl 65) || (ch =? KEY_HOME) then Done (false, with_cur 0 l)
  else if isprint2 ch && (clen l <? len - 1) then l ← insert_character ch l; Done (false, l)
  else Done (false, l).

(** The loop, until a key ends the line or there are no more keys. *)
Fixpoint getdata_loop (keys : list (Z * bool * bool)) (l : line) : outcome (bool * line) :=
  l ← draw l;
  match keys with
  | [] => Done (false, l)
  | (ch, rmsg, last_msg) :: keys =>
      '(ended, l) ← getdata_key ch rmsg last_msg l;
      if (ended : bool) then Done (true, l) else getdata_loop keys l
  end.

(** The value of [getdata] is [clen] of the line when it has ended. *)
Definition getdata (clear : bool) (keys : list (Z * bool * bool)) (b : list Z) : outcome (bool * line) :=
  b ← (if clear then wr b 0 0 else Done b);
  b ← wr b (len - 1) 0;
  n ← strlen b 0;
  getdata_loop keys (Line b n n []).
End Getdata.

(** A key as it comes when there is no message. *)
Definition plain (ch : Z) : Z * bool * bool := (ch, false, false).

(** Half of a character that did not fit, or that was typed alone, is counted
    as two bytes when it is taken back: the cursor is then behind the end, and
    the next character moves memory without bound. *)
Example half_character_faults :
  getdata 4 0 true true (map plain [97; 98; 0xd6; 0xd0; 127]) (replicate 8 0) =
    Done (false, Line [97; 0; 0xd6; 0; 0; 0; 0; 0] 2 1
      [View [97] 2; View [97; 98; 0xd6] 3; View [97; 98; 0xd6] 3; View [97; 98] 2; View [97] 1; View [] 0]) /\
  getdata 4 0 true true (map plain [97; 98; 0xd6; 0xd0; 127; 99]) (replicate 8 0) = Fault.
Proof. split; vm_compute; done. Qed.

(** A character typed before the end cuts the text off. *)
Example inserted_cuts :
  match getdata 8 0 true true (map plain [97; 98; 99; KEY_LEFT; KEY_LEFT; 120; 10]) (replicate 8 0) with
  | Done (true, l) => cstring (buf l) 0 = Done [97; 120] /\ clen l = 4 | _ => False end.
Proof. vm_compute. done. Qed.

(** * Changes within the first bytes of the buffer *)

Definition ascii (c : Z) : Prop := 0 <= c < 128.

Lemma wr_in a z p v : 0 <= p < blen a -> wr (a ++ z) p v = Done (<[Z.to_nat p := u8 v]> a ++ z).
Proof.
  intros Hp. pose proof (blen_nonneg z). unfold wr. rewrite blen_app.
  rewrite (proj2 (Z.leb_le 0 p)), (proj2 (Z.ltb_lt p _)) by lia. cbn [andb].
  rewrite insert_app_l; [done|]. unfold blen in Hp. lia.
Qed.

Lemma wr_done m p v : 0 <= p < blen m -> wr m p v = Done (<[Z.to_nat p := u8 v]> m).
Proof. intros Hp. pose proof (wr_in m [] p v Hp) as H. by rewrite !app_nil_r in H. Qed.

Lemma rd_app a z p c : a !! Z.to_nat p = Some c -> 0 <= p -> rd (a ++ z) p = Done c.
Proof.
  intros Hc Hp. unfold rd. rewrite (proj2 (Z.ltb_ge p 0)) by lia. by rewrite (lookup_app_l_Some _ _ _ _ Hc).
Qed.

Lemma memmove_in a z dst src n : 0 <= n -> 0 <= src -> 0 <= dst -> src + n <= blen a -> dst + n <= blen a ->
  exists a', memmove (a ++ z) dst src n = Done (a' ++ z) /\ blen a' = blen a /\
    (forall P, Forall P a -> Forall P a') /\ forall i, dst + n <= Z.of_nat i -> a' !! i = a !! i.
Proof.
  intros Hn Hs Hd Hsn Hdn. pose proof (blen_nonneg z). unfold blen in *.
  set (pre1 := take (Z.to_nat src) a). set (bs := take (Z.to_nat n) (drop (Z.to_nat src) a)).
  set (post1 := drop (Z.to_nat n) (drop (Z.to_nat src) a)).
  set (pre2 := take (Z.to_nat dst) a). set (old := take (Z.to_nat n) (drop (Z.to_nat dst) a)).
  set (post2 := drop (Z.to_nat n) (drop (Z.to_nat dst) a)).
  assert (a = pre1 ++ bs ++ post1) as E1 by (subst pre1 bs post1; by rewrite !take_drop).
  assert (a = pre2 ++ old ++ post2) as E2 by (subst pre2 old post2; by rewrite !take_drop).
  assert (length bs = Z.to_nat n /\ length old = Z.to_nat n /\ length pre1 = Z.to_nat src /\ length pre2 = Z.to_nat dst) as (L1 & L2 & L3 & L4).
  { subst bs old pre1 pre2. rewrite !length_take, !length_drop. lia. }
  exists (pre2 ++ bs ++ post2). split_and!.
  - rewrite (memmove_at _ pre1 bs (post1 ++ z) pre2 old (post2 ++ z)); unfold blen; try lia.
    + f_equal. app_eq.
    + rewrite E1 at 1. app_eq.
    + rewrite E2 at 1. app_eq.
  - rewrite E2 at 1. rewrite !length_app. lia.
  - intros P HP. repeat apply Forall_app_intro; subst bs pre2 post2; repeat first [apply Forall_take|apply Forall_drop]; done.
  - intros i Hi. rewrite E2. rewrite !lookup_app_r by (rewrite ?length_app; lia). do 2 f_equal. lia.
Qed.

(** A NUL within the buffer ends a string. *)
Lemma cstring_ends a z i : a !! i = Some 0 -> exists s, cstring (a ++ z) 0 = Done s /\ (length s <= i)%nat /\
  exists t, a ++ z = s ++ 0 :: t.
Proof.
  intros Hi. unfold cstring. cbn. rewrite drop_0. revert i Hi. induction a as [|c a IH]; intros i Hi; [done|].
  cbn [app until_nul]. destruct (Z.eqb_spec c 0) as [->|Hc].
  - exists []. split; [done|]. split; [cbn; lia|]. by exists (a ++ z).
  - destruct i as [|i]; [by injection Hi|]. destruct (IH i Hi) as (s & -> & Hs & t & Ht).
    exists (c :: s). split; [done|]. split; [cbn; lia|]. exists t. cbn. by rewrite Ht.
Qed.

(** ** Text of single bytes *)

Lemma find_character_ascii cur clen bk a z : Forall ascii a -> clen <= blen a -> 0 < cur <= clen ->
  forall fuel i pos dec, clen - i < Z.of_nat fuel -> 0 <= i <= clen ->
  (if bk : bool then i < cur else i <= cur) -> (i = clen -> pos = clen - 1 /\ dec = 1) ->
  find_character fuel (a ++ z) cur clen bk i pos dec = Done (if bk then cur - 1 else Z.min cur (clen - 1), 1).
Proof.
  intros Ha Hl Hc. induction fuel as [|fuel IH]; intros i pos dec Hf Hi Hik Hend; [lia|]. cbn [find_character].
  destruct (Z.ltb_spec i clen) as [Hlt|Hge].
  - destruct (lookup_lt_is_Some_2 a (Z.to_nat i)) as [c Ec]; [unfold blen in Hl; lia|].
    rewrite (rd_app _ _ _ c) by (done || lia). cbn [mbind outcome_bind].
    assert (ascii c) as Hac by by apply (Forall_lookup_1 _ _ _ _ Ha Ec).
    assert ((Z.land c 128 =? 0) = true) as ->.
    { pose proof (byte_table (fun c => implb (c <? 128) (Z.land c 128 =? 0)) ltac:(vm_compute; reflexivity) c) as Hb.
      unfold ascii in Hac. cbn beta in Hb. rewrite (proj2 (Z.ltb_lt c 128)) in Hb by lia. cbn [implb] in Hb. apply Hb. width. clear - Hac. lia. }
    cbn [negb]. destruct bk; cbn [negb andb orb].
    + destruct (Z.leb_spec cur (i + 1)); [do 2 f_equal; lia|]. apply IH; lia.
    + destruct (Z.leb_spec cur i); cbn [orb]; [do 2 f_equal; lia|].
      destruct (Z.ltb_spec cur (i + 1)); cbn [orb]; [lia|]. apply IH; lia.
  - destruct (Hend ltac:(lia)) as [-> ->]. do 2 f_equal. destruct bk; lia.
Qed.

Section Bounds.
Context (len real_x : Z) (echo : bool) (len_ok : 0 < len < 2 ^ 31) (z : list Z).

(** The first [len] bytes hold single bytes and end with NUL; the rest of the
    buffer is [z]. *)
Record in_bounds (l : line) (a : list Z) : Prop := InBounds {
  ib_buf : buf l = a ++ z;
  ib_len : blen a = len;
  ib_ascii : Forall ascii a;
  ib_end : a !! Z.to_nat (len - 1) = Some 0;
  ib_cur : 0 <= cur l <= clen l;
  ib_clen : clen l < len }.

Lemma in_bounds_wr l a p v : in_bounds l a -> 0 <= p < len -> ascii v -> (p = len - 1 -> v = 0) ->
  exists a', wr (buf l) p v = Done (a' ++ z) /\ blen a' = len /\ Forall ascii a' /\ a' !! Z.to_nat (len - 1) = Some 0.
Proof.
  intros [Hb Hl Ha He Hc Hn] Hp Hv Hv0. rewrite Hb, wr_in by lia.
  rewrite u8_id by (unfold ascii in Hv; width; lia).
  eexists. split; [done|]. split; [unfold blen in *; by rewrite length_insert|]. split; [by apply Forall_insert|].
  destruct (Z.eq_dec p (len - 1)) as [->|Hne].
  - rewrite list_lookup_insert_eq by (unfold blen in Hl; lia). by rewrite Hv0.
  - rewrite list_lookup_insert_ne by lia. done.
Qed.

Lemma remove_in_bounds bk l a : in_bounds l a -> exists l' a', remove_at_cursor bk l = Done l' /\ in_bounds l' a' /\ views l' = views l.
Proof.
  intros Hib. pose proof Hib as [Hb Hl Ha He Hc Hn]. unfold remove_at_cursor, remove_character.
  destruct (Z.leb_spec (cur l) 0) as [H0|H0]; cbn [orb].
  { cbn [mbind outcome_bind]. eexists _, a. split; [done|]. split; [|done]. split; cbn [buf cur clen]; try done; lia. }
  rewrite (proj2 (Z.leb_gt (clen l) 0)) by lia. rewrite Hb.
  rewrite (find_character_ascii (cur l) (clen l) bk a z Ha) by (first [lia|destruct bk; lia]). cbn [mbind outcome_bind].
  set (pos := if bk then cur l - 1 else Z.min (cur l) (clen l - 1)).
  assert (0 <= pos < clen l) as Hpos by (subst pos; destruct bk; lia).
  assert (exists a1, (if 0 <? clen l - pos - 1 then memmove (a ++ z) pos (pos + 1) (clen l - pos - 1) else Done (a ++ z)) = Done (a1 ++ z) /\
    blen a1 = len /\ Forall ascii a1 /\ a1 !! Z.to_nat (len - 1) = Some 0) as (a1 & -> & Hl1 & Ha1 & He1).
  { destruct (Z.ltb_spec 0 (clen l - pos - 1)); [|by exists a].
    destruct (memmove_in a z pos (pos + 1) (clen l - pos - 1)) as (a1 & E & H1 & H2 & H3); [lia..|].
    exists a1. split; [done|]. split; [lia|]. split; [by apply H2|]. rewrite H3 by lia. done. }
  cbn [mbind outcome_bind]. rewrite (proj2 (Z.ltb_ge (clen l - 1) 0)) by lia.
  destruct (in_bounds_wr (Line (a1 ++ z) 0 0 []) a1 (clen l - 1) 0) as (a2 & E & Hl2 & Ha2 & He2);
    [by split; cbn [buf cur clen]; lia||done|lia|done|done|].
  cbn [buf] in E. rewrite E. cbn [mbind outcome_bind]. eexists _, a2. split; [done|]. split; [|done].
  split; cbn [buf cur clen]; try done; lia.
Qed.

Lemma insert_in_bounds ch l a : in_bounds l a -> clen l < len - 1 -> ascii ch ->
  exists l' a', insert_character ch l = Done l' /\ in_bounds l' a' /\ views l' = views l.
Proof.
  intros Hib Hlt Hch. pose proof Hib as [Hb Hl Ha He Hc Hn]. unfold insert_character. rewrite Hb.
  destruct (lookup_lt_is_Some_2 a (Z.to_nat (cur l))) as [c Ec]; [unfold blen in Hl; lia|].
  rewrite (rd_app _ _ _ c) by (done || lia). cbn [mbind outcome_bind]. rewrite u64_id by (width; lia).
  assert (exists a1, (if negb (c =? 0) then memmove (a ++ z) (cur l + 1) (cur l) (clen l - cur l) else Done (a ++ z)) = Done (a1 ++ z) /\
    blen a1 = len /\ Forall ascii a1 /\ a1 !! Z.to_nat (len - 1) = Some 0) as (a1 & -> & Hl1 & Ha1 & He1).
  { destruct (negb (c =? 0)); [|by exists a].
    destruct (memmove_in a z (cur l + 1) (cur l) (clen l - cur l)) as (a1 & E & H1 & H2 & H3); [lia..|].
    exists a1. split; [done|]. split; [lia|]. split; [by apply H2|]. rewrite H3 by lia. done. }
  cbn [mbind outcome_bind].
  destruct (in_bounds_wr (Line (a1 ++ z) 0 0 []) a1 (cur l) ch) as (a2 & E2 & Hl2 & Ha2 & He2);
    [by split; cbn [buf cur clen]; lia||done|lia|done|lia|].
  cbn [buf] in E2. rewrite E2. cbn [mbind outcome_bind].
  destruct (in_bounds_wr (Line (a2 ++ z) 0 0 []) a2 (cur l + 1) 0) as (a3 & E3 & Hl3 & Ha3 & He3);
    [by split; cbn [buf cur clen]; lia||done|lia|done|lia|].
  cbn [buf] in E3. rewrite E3. cbn [mbind outcome_bind]. eexists _, a3. split; [done|]. split; [|done].
  split; cbn [buf cur clen]; try done; lia.
Qed.

(** What is shown while waiting stays within the length of the line. *)
Definition view_ok (v : view) : Prop := real_x <= v_col v < real_x + len /\ blen (v_text v) < len.

Lemma draw_in_bounds l a : in_bounds l a -> Forall view_ok (views l) ->
  exists l', draw real_x echo l = Done l' /\ in_bounds l' a /\ Forall view_ok (views l').
Proof.
  intros [Hb Hl Ha He Hc Hn] Hv. unfold draw.
  assert (exists s, (if echo then cstring (buf l) 0 else Done (replicate (Z.to_nat (clen l)) 42)) = Done s /\ blen s < len) as (s & -> & Hs).
  { destruct echo.
    - rewrite Hb. destruct (cstring_ends a z _ He) as (s & E & Hs & _). exists s. split; [done|]. unfold blen. lia.
    - eexists. split; [done|]. unfold blen. rewrite length_replicate. lia. }
  eexists. split; [done|]. split; [by split|]. constructor; [|done]. split; cbn [v_col v_text]; lia.
Qed.

(** Keys of single bytes: what is printable is below 128. *)
Definition single (ch : Z) : Prop := isprint2 ch = true -> ascii ch.

(** The line when it has ended: a message may have been called instead. *)
Definition ended_ok (l : line) : Prop :=
  blen (buf l) = len + blen z /\ (forall p, len <= Z.of_nat p -> buf l !! p = z !! (p - Z.to_nat len)%nat) /\
  0 <= clen l <= Z.max 1 (len - 1) /\ Forall view_ok (views l).

Lemma in_bounds_ended l a : in_bounds l a -> Forall view_ok (views l) -> ended_ok l.
Proof.
  intros [Hb Hl Ha He Hc Hn] Hv. split; [rewrite Hb, blen_app; lia|]. split; [|split; [lia|done]].
  intros p Hp. rewrite Hb, lookup_app_r by (unfold blen in Hl; lia). f_equal. unfold blen in Hl. lia.
Qed.

Lemma key_in_bounds ch rmsg last l a : in_bounds l a -> Forall view_ok (views l) -> single ch ->
  exists ended l', getdata_key len ch rmsg last l = Done (ended, l') /\
    (ended = true /\ ended_ok l' \/ ended = false /\ Forall view_ok (views l') /\ exists a', in_bounds l' a').
Proof.
  intros Hib Hv Hch. pose proof Hib as [Hb Hl Ha He Hc Hn]. unfold getdata_key.
  assert (forall v, ascii v -> exists ended l', (b ← wr (buf l) 0 v; Done (true, Line b (cur l) 1 (views l))) = Done (ended, l') /\
    (ended = true /\ ended_ok l' \/ ended = false /\ Forall view_ok (views l') /\ exists a', in_bounds l' a')) as Hmsg.
  { intros v Hva. rewrite Hb, wr_in by lia. cbn [mbind outcome_bind]. eexists _, _. split; [done|]. left. split; [done|].
    assert (length (<[Z.to_nat 0:=u8 v]> a) = Z.to_nat len) as Hins by (rewrite length_insert; unfold blen in Hl; lia).
    split; cbn [buf]; [rewrite blen_app; unfold blen; rewrite Hins; lia|].
    split; [|split; [cbn [clen]; lia|done]]. intros p Hp. rewrite lookup_app_r by lia. f_equal. lia. }
  assert (forall x, (exists l' a', x = Done l' /\ in_bounds l' a' /\ views l' = views l) -> exists ended l',
    (l' ← x; Done (false, l')) = Done (ended, l') /\
    (ended = true /\ ended_ok l' \/ ended = false /\ Forall view_ok (views l') /\ exists a', in_bounds l' a')) as Hgo.
  { intros x (l' & a' & -> & Hib' & Hv'). eexists _, _. split; [done|]. right. split; [done|]. rewrite Hv'. eauto. }
  assert (forall l', (exists v, l' = with_cur v l /\ 0 <= v <= clen l) \/ l' = l -> exists ended l1,
    Done (false, l') = Done (ended, l1) /\
    (ended = true /\ ended_ok l1 \/ ended = false /\ Forall view_ok (views l1) /\ exists a', in_bounds l1 a')) as Hmove.
  { intros l' Hl'. eexists _, _. split; [done|]. right. split; [done|].
    destruct Hl' as [(v & -> & Hvv)| ->]; (split; [done|]); exists a; [|done]. by split. }
  repeat match goal with |- exists e l', (if ?b then _ else _) = _ /\ _ => destruct b eqn:?E end;
    try (by apply Hmsg); try (apply Hgo; by eapply remove_in_bounds).
  - eexists _, _. split; [done|]. left. split; [done|]. by eapply in_bounds_ended.
  - apply Hmove. destruct (Z.ltb_spec 0 (cur l)); [left|by right]. exists (cur l - 1). split; [done|lia].
  - apply Hmove. destruct (Z.ltb_spec (cur l) (clen l)); [left|by right]. exists (cur l + 1). split; [done|lia].
  - apply Hmove. left. exists (clen l). split; [done|lia].
  - apply Hmove. left. exists 0. split; [done|lia].
  - apply andb_true_iff in E8 as [Hp Hlt]. apply Hgo. eapply insert_in_bounds; [done|lia|by apply Hch].
  - apply Hmove. by right.
Qed.

Lemma loop_in_bounds keys : forall l a, in_bounds l a -> Forall view_ok (views l) -> Forall (fun k => single k.1.1) keys ->
  exists ended l', getdata_loop len real_x echo keys l = Done (ended, l') /\
    (ended = true /\ ended_ok l' \/ ended = false /\ Forall (fun k => k.1.1 <> 10 /\ k.1.1 <> 13) keys /\
       Forall view_ok (views l') /\ exists a', in_bounds l' a').
Proof.
  induction keys as [|[[ch rmsg] last] keys IH]; intros l a Hib Hv Hk; cbn [getdata_loop];
    destruct (draw_in_bounds l a Hib Hv) as (l1 & -> & Hib1 & Hv1); cbn [mbind outcome_bind].
  - eexists _, _. split; [done|]. right. split; [done|]. split; [done|]. split; [done|]. by exists a.
  - apply Forall_cons_1 in Hk as [Hch Hk]. cbn [fst] in Hch.
    destruct (key_in_bounds ch rmsg last l1 a Hib1 Hv1 Hch) as (e & l2 & E & Hor). rewrite E. cbn [mbind outcome_bind].
    destruct e; [destruct Hor as [[_ Hend]|[? _]]; [|done]; eexists _, _; split; [done|]; by left|].
    destruct Hor as [[? _]|(_ & Hv2 & a2 & Hib2)]; [done|].
    destruct (IH l2 a2 Hib2 Hv2 Hk) as (e & l3 & E3 & Hor). exists e, l3. split; [done|].
    destruct Hor as [Hor|(He & Hne & Hr)]; [by left|right]. split; [done|]. split; [|done]. constructor; [|done]. cbn [fst].
    split; intros ->; revert E; unfold getdata_key; cbn; destruct rmsg, last; done.
Qed.
End Bounds.

(** C18. With a buffer and keys of single bytes, whatever the user does nothing
    outside the first [len] bytes of the buffer is read or written and nothing
    faults; while a key is awaited the cursor and the text on the screen are
    within [len - 1] columns, and a line is ended by Enter at the latest. *)
Theorem getdata_in_bounds (len real_x : Z) (echo clear : bool) (keys : list (Z * bool * bool)) (b : list Z) :
  0 < len < 2 ^ 31 -> len <= blen b -> Forall ascii (take (Z.to_nat len) b) -> Forall (fun k => single k.1.1) keys ->
  exists ended l, getdata len real_x echo clear keys b = Done (ended, l) /\
    blen (buf l) = blen b /\ (forall p, len <= Z.of_nat p -> buf l !! p = b !! p) /\
    0 <= clen l <= Z.max 1 (len - 1) /\ Forall (view_ok len real_x) (views l) /\
    (ended = false -> Forall (fun k => k.1.1 <> 10 /\ k.1.1 <> 13) keys /\ 0 <= cur l <= clen l).
Proof.
  intros Hlen Hb Ha Hk. set (a := take (Z.to_nat len) b) in *. set (z := drop (Z.to_nat len) b).
  assert (b = a ++ z) as Eb by (symmetry; apply take_drop).
  assert (blen a = len) as Hla by (subst a; unfold blen in *; rewrite length_take; lia).
  assert (blen b = len + blen z) as Hbz by (rewrite Eb, blen_app; lia).
  unfold getdata.
  assert (exists a1, (if clear then wr b 0 0 else Done b) = Done (a1 ++ z) /\ blen a1 = len /\ Forall ascii a1) as (a1 & -> & Hl1 & Ha1).
  { destruct clear; [|by exists a; rewrite <- Eb]. rewrite Eb, wr_in by lia. eexists. split; [done|].
    split; [unfold blen in *; by rewrite length_insert|]. by apply Forall_insert. }
  cbn [mbind outcome_bind]. rewrite wr_in by lia. cbn [mbind outcome_bind].
  set (a2 := <[Z.to_nat (len - 1):=u8 0]> a1).
  assert (a2 !! Z.to_nat (len - 1) = Some 0) as He2 by (subst a2; rewrite list_lookup_insert_eq by (unfold blen in Hl1; lia); done).
  assert (blen a2 = len) as Hl2 by (subst a2; unfold blen in *; by rewrite length_insert).
  assert (Forall ascii a2) as Ha2 by by apply Forall_insert.
  destruct (cstring_ends a2 z _ He2) as (s & E & Hs & _). unfold strlen. rewrite E. cbn [mbind outcome_bind].
  assert (in_bounds len z (Line (a2 ++ z) (blen s) (blen s) []) a2) as Hib.
  { split; cbn [buf cur clen]; try done; unfold blen; lia. }
  assert (forall l, (forall p, len <= Z.of_nat p -> buf l !! p = z !! (p - Z.to_nat len)%nat) -> forall p, len <= Z.of_nat p -> buf l !! p = b !! p) as Hrest.
  { intros l Hl p Hp. rewrite Hl by done. subst z. rewrite lookup_drop. f_equal. lia. }
  destruct (loop_in_bounds len real_x echo Hlen z keys _ a2 Hib ltac:(constructor) Hk) as (e & l & El & Hor). rewrite El.
  exists e, l. split; [done|].
  assert (ended_ok len real_x z l) as (H1 & H2 & H3 & H4).
  { destruct Hor as [[_ H]|(_ & _ & Hv & a' & Hib')]; [done|]. by eapply in_bounds_ended. }
  split; [lia|]. split; [by apply Hrest|]. split; [done|]. split; [done|].
  intros ->. destruct Hor as [[? _]|(_ & Hne & _ & a' & [_ _ _ _ Hc _])]; done.
Qed.

Lemma getdata_in_bounds_witness :
  exists ended l, getdata 4 10 true true (map plain [97; 98; KEY_LEFT; 99; 100; 127; KEY_DEL; 10]) (replicate 6 0) = Done (ended, l) /\
    blen (buf l) = 6 /\ (forall p, 4 <= Z.of_nat p -> buf l !! p = replicate 6 0 !! p) /\
    0 <= clen l <= 3 /\ Forall (view_ok 4 10) (views l) /\
    (ended = false -> Forall (fun k => k.1.1 <> 10 /\ k.1.1 <> 13) (map plain [97; 98; KEY_LEFT; 99; 100; 127; KEY_DEL; 10]) /\ 0 <= cur l <= clen l).
Proof.
  apply (getdata_in_bounds 4 10 true true (map plain [97; 98; KEY_LEFT; 99; 100; 127; KEY_DEL; 10]) (replicate 6 0)).
  - done.
  - done.
  - apply Forall_take, Forall_replicate. done.
  - cbn [map plain]. repeat (constructor; [intros Hp; first [discriminate Hp|by split]|]). constructor.
Defined.

(** * Typing at the end *)

(** A user types characters of one or two bytes and takes back the last one. *)
Inductive stroke := Char (c : list Z) | Back.

Definition char_ok (c : list Z) : Prop :=
  (exists x, c = [x] /\ 32 <= x <= 126) \/
  (exists hi lo, c = [hi; lo] /\ 129 <= hi <= 254 /\ 64 <= lo <= 254 /\ lo <> 127).

Definition stroke_ok (s : stroke) : Prop := match s with Char c => char_ok c | Back => True end.

Definition keys_of (s : stroke) : list (Z * bool * bool) :=
  map plain (match s with Char c => c | Back => [127] end).

(** What the user means: a list of characters. *)
Definition typed (cs : list (list Z)) (s : stroke) : list (list Z) :=
  match s with Char c => cs ++ [c] | Back => take (length cs - 1) cs end.

(** There is always room for the next character as a whole. *)
Fixpoint fits (len : Z) (cs : list (list Z)) (ss : list stroke) : Prop :=
  match ss with
  | [] => True
  | s :: ss => blen (concat (typed cs s)) <= len - 1 /\ fits len (typed cs s) ss
  end.

Lemma land_128 c : 0 <= c < 256 -> (Z.land c 128 =? 0) = (c <? 128).
Proof.
  intros Hc. pose proof (byte_table (fun c => Bool.eqb (Z.land c 128 =? 0) (c <? 128)) ltac:(vm_compute; reflexivity) c) as H.
  apply Bool.eqb_prop, H. width. lia.
Qed.

(** Scanning finds the last of the characters. *)
Lemma find_last c post clen : char_ok c -> forall cs pre fuel pos dec buf,
  Forall char_ok cs -> buf = pre ++ concat cs ++ c ++ post -> clen = blen pre + blen (concat cs) + blen c ->
  (length cs < fuel)%nat ->
  find_character fuel buf clen clen true (blen pre) pos dec = Done (blen pre + blen (concat cs), blen c).
Proof.
  intros Hc. induction cs as [|d cs IH]; intros pre fuel pos dec buf Hcs Hbuf Hlen Hf; (destruct fuel as [|fuel]; [lia|]);
    cbn [find_character].
  - cbn [concat app] in *. rewrite blen_nil in Hlen. rewrite (proj2 (Z.ltb_lt _ _)) by (destruct Hc as [(x & -> & _)|(hi & lo & -> & _)]; blen).
    destruct Hc as [(x & -> & Hx)|(hi & lo & -> & Hhi & Hlo & _)].
    + rewrite (rd_at buf pre x post) by done. cbn [mbind outcome_bind]. rewrite land_128, (proj2 (Z.ltb_lt x 128)) by lia.
      cbn [negb andb orb]. rewrite (proj2 (Z.leb_le clen _)) by (revert Hlen; blen). do 2 f_equal. rewrite blen_nil. lia.
    + rewrite (rd_at buf pre hi (lo :: post)) by done. cbn [mbind outcome_bind]. rewrite land_128, (proj2 (Z.ltb_ge hi 128)) by lia.
      cbn [negb andb orb]. rewrite (proj2 (Z.leb_le clen _)) by (revert Hlen; blen). do 2 f_equal. rewrite blen_nil. lia.
  - apply Forall_cons_1 in Hcs as [Hd Hcs]. cbn [concat] in *. cbn [length] in Hf.
    assert (0 < blen c) as Hc0 by (destruct Hc as [(x & -> & _)|(hi & lo & -> & _)]; blen).
    assert (forall n, n = blen d -> (if (negb true && ((clen <=? blen pre) || (clen <? blen pre + n))) || (true && (clen <=? blen pre + n))
        then Done (blen pre, n) else find_character fuel buf clen clen true (blen pre + n) (blen pre) n) =
      Done (blen pre + blen (d ++ concat cs), blen c)) as Hstep.
    { intros n ->. cbn [negb andb orb]. rewrite blen_app in Hlen |- *. rewrite (proj2 (Z.leb_gt clen _)) by blen.
      rewrite <- (blen_app pre d), (IH (pre ++ d)) by (first [done|rewrite Hbuf; app_eq|rewrite blen_app; lia|lia]).
      rewrite blen_app. do 2 f_equal. lia. }
    rewrite (proj2 (Z.ltb_lt _ _)) by (rewrite blen_app in Hlen; blen).
    destruct Hd as [(x & -> & Hx)|(hi & lo & -> & Hhi & Hlo & _)].
    + rewrite (rd_at buf pre x (concat cs ++ c ++ post)) by (done || rewrite Hbuf; app_eq). cbn [mbind outcome_bind].
      rewrite land_128, (proj2 (Z.ltb_lt x 128)) by lia. by apply Hstep.
    + rewrite (rd_at buf pre hi (lo :: concat cs ++ c ++ post)) by (done || rewrite Hbuf; app_eq). cbn [mbind outcome_bind].
      rewrite land_128, (proj2 (Z.ltb_ge hi 128)) by lia. by apply Hstep.
Qed.

Section Typing.
Context (len real_x : Z) (echo : bool) (n : Z) (room : len <= n).

(** The text is [s], and the cursor is at its end. *)
Definition at_end (s : list Z) (l : line) : Prop :=
  exists post, buf l = s ++ 0 :: post /\ blen (buf l) = n /\ cur l = blen s /\ clen l = blen s /\ nul_free s.

Lemma draw_at_end s l : at_end s l -> exists l', draw real_x echo l = Done l' /\ at_end s l'.
Proof.
  intros (post & Hb & Hn & Hc & Hl & Hs). unfold draw.
  rewrite (cstring_at (buf l) [] s post) by done. destruct echo; cbn [mbind outcome_bind]; (eexists; split; [done|]; by exists post).
Qed.

Lemma type_byte x s l : at_end s l -> 32 <= x <= 254 -> x <> 127 -> blen s < len - 1 ->
  exists l', getdata_key len x false false l = Done (false, l') /\ at_end (s ++ [x]) l'.
Proof.
  intros (post & Hb & Hn & Hc & Hl & Hs) Hx H127 Hlt. unfold getdata_key. cbn [andb].
  assert (isprint2 x = true) as Hp.
  { unfold isprint2, isprint. rewrite u8_id by (width; lia). rewrite land_128 by lia.
    destruct (Z.ltb_spec x 128); cbn [negb andb orb].
    - rewrite (proj2 (Z.leb_le 32 x)), (proj2 (Z.leb_le x 126)) by lia. done.
    - rewrite (proj2 (Z.eqb_neq x 255)) by lia. done. }
  change (Ctrl 90) with 26. change (Ctrl 65) with 1. change (Ctrl 72) with 8. change (Ctrl 69) with 5.
  unfold KEY_DEL, KEY_LEFT, KEY_RIGHT, KEY_END, KEY_HOME.
  rewrite Hp, Hl, (proj2 (Z.ltb_lt _ _) Hlt). cbn [andb]. repeat zcase.
  unfold insert_character. pose proof (blen_nonneg s) as Hs0. rewrite Hb in Hn. rewrite blen_app, blen_cons in Hn.
  rewrite (rd_at (buf l) s 0 post) by done. cbn [mbind outcome_bind negb Z.eqb].
  rewrite (wr_at (buf l) s 0 post) by done. cbn [mbind outcome_bind]. rewrite u8_id by (width; lia).
  destruct post as [|p post]; [rewrite blen_nil in Hn; lia|].
  rewrite (wr_at _ (s ++ [x]) p post) by (rewrite ?blen_app, ?blen_cons, ?blen_nil, ?Hc; (lia || app_eq)).
  cbn [mbind outcome_bind]. eexists. split; [done|]. exists post. cbn [buf cur clen].
  rewrite !blen_app, !blen_cons, blen_nil, Hc, Hl in *. split; [done|]. split; [lia|]. split; [lia|]. split; [lia|].
  apply Forall_app_intro; [done|]. constructor; [lia|constructor].
Qed.

Lemma chars_nul_free cs : Forall char_ok cs -> nul_free (concat cs).
Proof.
  induction 1 as [|c cs Hc _ IH]; [constructor|]. cbn [concat]. apply Forall_app_intro; [|done].
  destruct Hc as [(x & -> & Hx)|(hi & lo & -> & Hhi & Hlo & _)]; repeat (constructor; [lia|]); constructor.
Qed.

Lemma take_back cs c l : Forall char_ok (cs ++ [c]) -> at_end (concat (cs ++ [c])) l ->
  exists l', getdata_key len 127 false false l = Done (false, l') /\ at_end (concat cs) l'.
Proof.
  intros Hcs (post & Hb & Hn & Hc & Hl & Hs). apply Forall_app in Hcs as [Hcs Hc1]. apply Forall_cons_1 in Hc1 as [Hc1 _].
  rewrite concat_app in *. cbn [concat] in *. rewrite app_nil_r in *. rewrite blen_app in Hc, Hl.
  assert (0 < blen c) as Hc0 by (destruct Hc1 as [(x & -> & _)|(hi & lo & -> & _)]; blen).
  pose proof (blen_nonneg (concat cs)) as Hcc.
  assert (Z.of_nat (length cs) <= blen (concat cs)) as Hlen.
  { clear - Hcs. induction Hcs as [|d cs Hd _ IH]; [done|]. cbn [concat length]. rewrite blen_app.
    assert (0 < blen d) by (destruct Hd as [(x & -> & _)|(hi & lo & -> & _)]; blen). lia. }
  unfold getdata_key. cbn [andb orb Z.eqb Pos.eqb Ctrl]. unfold remove_at_cursor, remove_character.
  rewrite (proj2 (Z.leb_gt (cur l) 0)), (proj2 (Z.leb_gt (clen l) 0)) by lia. cbn [orb].
  rewrite Hc, Hl.
  rewrite (find_last c (0 :: post) _ Hc1 cs [] _ 0 0) by (first [done|rewrite Hb; app_eq|rewrite blen_nil; lia|lia]).
  rewrite blen_nil. cbn [mbind outcome_bind]. rewrite Z.add_0_l.
  replace (blen (concat cs) + blen c - blen (concat cs) - blen c) with 0 by lia. cbn [Z.ltb Z.compare].
  replace (blen (concat cs) + blen c - blen c) with (blen (concat cs)) by lia.
  rewrite (proj2 (Z.ltb_ge _ 0)) by lia. cbn [mbind outcome_bind].
  assert (exists x xs, c = x :: xs) as (x & xs & ->) by (destruct c; [done|eauto]).
  rewrite (wr_at (buf l) (concat cs) x (xs ++ 0 :: post)) by (done || rewrite Hb; app_eq).
  cbn [mbind outcome_bind]. eexists. split; [done|]. exists (xs ++ 0 :: post). cbn [buf cur clen].
  split; [done|]. split; [rewrite <- Hn, Hb; blen|]. split; [done|]. split; [lia|]. by apply chars_nul_free.
Qed.

Lemma loop_step ch l l1 l2 keys : draw real_x echo l = Done l1 -> getdata_key len ch false false l1 = Done (false, l2) ->
  getdata_loop len real_x echo (plain ch :: keys) l = getdata_loop len real_x echo keys l2.
Proof. intros E1 E2. cbn [getdata_loop plain]. rewrite E1. cbn [mbind outcome_bind]. by rewrite E2. Qed.

Lemma type_stroke s cs l keys : at_end (concat cs) l -> Forall char_ok cs -> stroke_ok s ->
  blen (concat (typed cs s)) <= len - 1 ->
  exists l', getdata_loop len real_x echo (keys_of s ++ keys) l = getdata_loop len real_x echo keys l' /\
    at_end (concat (typed cs s)) l' /\ Forall char_ok (typed cs s).
Proof.
  intros Hat Hcs Hs Hfit. destruct s as [c|]; cbn [typed keys_of map app stroke_ok] in *.
  - assert (Forall char_ok (cs ++ [c])) as Hcs' by (apply Forall_app_intro; [done|by constructor]).
    rewrite concat_app in *. cbn [concat] in *. rewrite app_nil_r in *. rewrite blen_app in Hfit.
    destruct (draw_at_end _ _ Hat) as (l1 & E1 & Hat1).
    destruct Hs as [(x & -> & Hx)|(hi & lo & -> & Hhi & Hlo & Hlo')]; rewrite !blen_cons, blen_nil in Hfit; cbn [map app].
    + destruct (type_byte x _ _ Hat1) as (l2 & E2 & Hat2); [lia..|].
      exists l2. split; [|done]. by rewrite (loop_step _ _ _ _ _ E1 E2).
    + destruct (type_byte hi _ _ Hat1) as (l2 & E2 & Hat2); [lia..|].
      destruct (draw_at_end _ _ Hat2) as (l3 & E3 & Hat3).
      destruct (type_byte lo _ _ Hat3) as (l4 & E4 & Hat4); [lia|lia|rewrite blen_app, blen_cons, blen_nil; lia|].
      exists l4. rewrite <- app_assoc in Hat4. split; [|done].
      by rewrite (loop_step _ _ _ _ _ E1 E2), (loop_step _ _ _ _ _ E3 E4).
  - destruct (draw_at_end _ _ Hat) as (l1 & E1 & Hat1). destruct (snoc_case cs) as [->|(cs0 & c & ->)].
    + exists l1. split; [|split; [done|constructor]]. apply (loop_step _ _ l1 l1); [done|].
      destruct Hat1 as (post & _ & _ & Hc & _ & _). unfold getdata_key. cbn [andb orb Z.eqb Pos.eqb Ctrl].
      unfold remove_at_cursor, remove_character. rewrite Hc.
      change (blen (concat [])) with 0. cbn [Z.leb Z.compare orb mbind outcome_bind]. rewrite Z.sub_0_r.
      destruct l1. cbn [buf cur clen views] in *. by rewrite Hc.
    + replace (take (length (cs0 ++ [c]) - 1) (cs0 ++ [c])) with cs0
        by (rewrite length_app; cbn [length]; rewrite Nat.add_sub; by rewrite take_app_length).
      destruct (take_back cs0 c l1 Hcs Hat1) as (l2 & E2 & Hat2). exists l2.
      split; [by apply (loop_step _ _ l1 l2)|]. split; [done|]. by apply Forall_app in Hcs as [? _].
Qed.

Lemma type_strokes ss : forall cs l keys, at_end (concat cs) l -> Forall char_ok cs -> Forall stroke_ok ss -> fits len cs ss ->
  exists l', getdata_loop len real_x echo (concat (map keys_of ss) ++ keys) l = getdata_loop len real_x echo keys l' /\
    at_end (concat (foldl typed cs ss)) l'.
Proof.
  induction ss as [|s ss IH]; intros cs l keys Hat Hcs Hss Hfit; cbn [map concat foldl]; [by exists l|].
  apply Forall_cons_1 in Hss as [Hs Hss]. destruct Hfit as [Hf Hfit].
  destruct (type_stroke s cs l (concat (map keys_of ss) ++ keys) Hat Hcs Hs Hf) as (l1 & E1 & Hat1 & Hcs1).
  destruct (IH (typed cs s) l1 keys Hat1 Hcs1 Hss Hfit) as (l2 & E2 & Hat2).
  exists l2. split; [|done]. by rewrite <- app_assoc, E1.
Qed.
End Typing.

(** C19. Typing characters of one or two bytes and taking them back at the end
    of the line, each fitting as a whole, leaves exactly the characters that
    were not taken back in the buffer when Enter is pressed, and their bytes
    are counted by the result. *)
Theorem typed_line (len real_x : Z) (echo : bool) (ss : list stroke) (b : list Z) :
  0 < len < 2 ^ 31 -> len <= blen b -> Forall stroke_ok ss -> fits len [] ss ->
  exists l, getdata len real_x echo true (concat (map keys_of ss) ++ [plain 10]) b = Done (true, l) /\
    cstring (buf l) 0 = Done (concat (foldl typed [] ss)) /\ clen l = blen (concat (foldl typed [] ss)).
Proof.
  intros Hlen Hb Hss Hfit. unfold getdata. rewrite wr_done by lia. cbn [mbind outcome_bind].
  rewrite wr_done by (unfold blen in *; rewrite ?length_insert; lia). cbn [mbind outcome_bind].
  assert (exists post, <[Z.to_nat (len - 1):=u8 0]> (<[Z.to_nat 0:=u8 0]> b) = 0 :: post /\ blen (0 :: post) = blen b) as (post & E & Hl).
  { set (b1 := <[Z.to_nat 0:=u8 0]> b). set (b2 := <[Z.to_nat (len - 1):=u8 0]> b1).
    assert (blen b2 = blen b) as Hl2 by (subst b2 b1; unfold blen; by rewrite !length_insert).
    assert (b2 !! 0%nat = Some 0) as H0.
    { assert (b1 !! 0%nat = Some 0) as H1 by (subst b1; rewrite list_lookup_insert_eq by (unfold blen in Hb; lia); done).
      destruct (Z.to_nat (len - 1)) as [|i] eqn:Ei; subst b2.
      - rewrite list_lookup_insert_eq by (subst b1; rewrite length_insert; unfold blen in Hb; lia). done.
      - by rewrite list_lookup_insert_ne by lia. }
    destruct b2 as [|c post]; [done|]. injection H0 as ->. by exists post. }
  rewrite E. unfold strlen. rewrite (cstring_at _ [] [] post) by done || constructor. cbn [mbind outcome_bind]. rewrite blen_nil.
  assert (at_end (blen b) (concat []) (Line (0 :: post) 0 0 [])) as Hat by (exists post; cbn [buf cur clen]; repeat split; [done|constructor]).
  destruct (type_strokes len real_x echo (blen b) Hb ss [] _ [plain 10] Hat) as (l & -> & Hat1); [constructor|done|done|].
  destruct (draw_at_end real_x echo (blen b) _ _ Hat1) as (l1 & E1 & (post1 & H1 & H2 & H3 & H4 & H5)).
  cbn [getdata_loop plain]. rewrite E1. cbn [mbind outcome_bind]. exists l1.
  split; [done|]. split; [|done]. by apply (cstring_at _ [] _ post1).
Qed.

Lemma typed_line_witness :
  exists l, getdata 5 0 true true (concat (map keys_of [Char [97]; Char [0xd6; 0xd0]; Back; Char [0xb9; 0xfa]; Char [98]]) ++ [plain 10]) (replicate 5 7) = Done (true, l) /\
    cstring (buf l) 0 = Done [97; 0xb9; 0xfa; 98] /\ clen l = 4.
Proof.
  apply (typed_line 5 0 true [Char [97]; Char [0xd6; 0xd0]; Back; Char [0xb9; 0xfa]; Char [98]] (replicate 5 7)); [done|done| |].
  - repeat (constructor; [cbn [stroke_ok]; first [exact I|left; eexists; split; [done|lia]|right; eexists _, _; split; [done|lia]]|]). constructor.
  - vm_compute. intuition discriminate.
Defined.
