(* ===== verification/Sysconf.v ===== *)
(** The configuration of the menus: [lib/sysconf.c], with the packed screens of
    [src/comm_lists.c]. Strings are kept in one buffer; a pointer is its
    address, [base] plus an offset, so that an image of the configuration can
    be loaded at another address. *)
From S2P Require Import Prelude CString Helper.
#[local] Open Scope Z_scope.

Definition SC_BUFSIZE : Z := 20480.
Definition SC_KEYSIZE : Z := 256.
Definition SC_CMDSIZE : Z := 256.

Record menuitem_t := MenuItem { line : Z; col : Z; level : Z; name : Z; desc : Z; arg : Z; func : Z }.
Record sdefine := SDefine { key : Z; str : Z; val : Z }.

(** [items] and [keys] are the lengths of the arrays; the address of the
    buffer is [base]. *)
Record sysconf_t := Sysconf { base : Z; buf : list Z; item : list menuitem_t; var : list sdefine; len : Z }.

Definition set_len (v : Z) (c : sysconf_t) : sysconf_t := Sysconf (base c) (buf c) (item c) (var c) v.
Definition set_buf (v : list Z) (c : sysconf_t) : sysconf_t := Sysconf (base c) v (item c) (var c) (len c).
Definition items (c : sysconf_t) : Z := Z.of_nat (length (item c)).
Definition keys (c : sysconf_t) : Z := Z.of_nat (length (var c)).

(** The string at an address of the buffer. *)
Definition string_at (c : sysconf_t) (p : Z) : outcome (list Z) := cstring (buf c) (p - base c).

(** * Packed text *)

Definition same4 (ch : Z) (s : list Z) : bool :=
  match s with a :: b :: c :: _ => (a =? ch) && (b =? ch) && (c =? ch) | _ => false end.

(** What follows the first four of a run, which is at most 100 long. *)
Fixpoint run_rest (fuel : nat) (ch n : Z) (s : list Z) : Z * list Z :=
  match fuel, s with
  | S fuel, c :: s' => if (c =? ch) && (n <? 100) then run_rest fuel ch (n + 1) s' else (n, s)
  | _, _ => (n, s)
  end.

Fixpoint encode_loop (fuel : nat) (s : list Z) : list Z :=
  match fuel, s with
  | S fuel, ch :: s =>
      if same4 ch s then let '(n, s) := run_rest 100 ch 4 (drop 3 s) in 1 :: ch :: n :: encode_loop fuel s
      else ch :: encode_loop fuel s
  | _, _ => []
  end.

(** The text is packed in place, and never gets longer. *)
Definition encodestr (s : list Z) : list Z := encode_loop (length s) s.

(** What is printed; counts are [char]s. *)
Fixpoint decodestr (s : list Z) : list Z :=
  match s with
  | [] => []
  | c :: s =>
      if negb (c =? 1) then c :: decodestr s
      else
        match s with
        | ch :: s' => match s' with n :: s'' => replicate (Z.to_nat (schar n)) ch ++ decodestr s'' | [] => decodestr s end
        | [] => []
        end
  end.

(** * The configuration *)

Definition sysconf_addstr (s : list Z) (c : sysconf_t) : outcome (Z * sysconf_t) :=
  let p := base c + len c in
  '(n, b) ← strlcpy (buf c) (len c) (s ++ [0]) 0 (u64 (SC_BUFSIZE - len c));
  let l := i32 (len c + n + 1) in
  Done (p, set_len (if SC_BUFSIZE <? l then SC_BUFSIZE else l) (set_buf b c)).

Fixpoint find_key (k : list Z) (vs : list sdefine) (c : sysconf_t) : outcome (option sdefine) :=
  match vs with
  | [] => Done None
  | v :: vs => s ← string_at c (key v); if bool_decide (s = k) then Done (Some v) else find_key k vs c
  end.

Definition sysconf_str (k : list Z) (c : sysconf_t) : outcome (option Z) :=
  v ← find_key k (var c) c; Done (match v with Some v => Some (str v) | None => None end).

(** [strtol] with base 0: what the prefix of the digits says. *)
Fixpoint digits_in (b acc : Z) (s : list Z) : Z :=
  match s with
  | c :: s => match hex_value c with Some d => if d <? b then digits_in b (acc * b + d) s else acc | None => acc end
  | [] => acc
  end.
Definition unsigned (s : list Z) : Z :=
  match s with
  | 48 :: x :: h :: s' => if ((x =? 120) || (x =? 88)) && bool_decide (is_Some (hex_value h)) then digits_in 16 0 (h :: s') else digits_in 8 0 s
  | 48 :: _ => digits_in 8 0 s
  | _ => digits_in 10 0 s
  end.
Fixpoint skip_spaces (s : list Z) : list Z :=
  match s with c :: s' => if isspace c then skip_spaces s' else s | [] => [] end.
Definition strtol0 (s : list Z) : Z :=
  match skip_spaces s with
  | 45 :: s => Z.max (- unsigned s) (- 2 ^ 63)
  | 43 :: s => Z.min (unsigned s) (2 ^ 63 - 1)
  | s => Z.min (unsigned s) (2 ^ 63 - 1)
  end.
(** [atoi]. *)
Definition atoi (s : list Z) : Z :=
  i32 match skip_spaces s with
      | 45 :: s => Z.max (- digits_in 10 0 s) (- 2 ^ 63)
      | 43 :: s => Z.min (digits_in 10 0 s) (2 ^ 63 - 1)
      | s => Z.min (digits_in 10 0 s) (2 ^ 63 - 1)
      end.

Definition sysconf_eval (k : list Z) (c : sysconf_t) : outcome Z :=
  v ← find_key k (var c) c; Done (match v with Some v => val v | None => i32 (strtol0 k) end).

Definition sysconf_addkey (k : list Z) (s : option (list Z)) (v : Z) (c : sysconf_t) : outcome sysconf_t :=
  if keys c <? SC_KEYSIZE then
    '(sp, c) ← match s with None => Done (base c, c) | Some s => sysconf_addstr s c end;
    '(kp, c) ← sysconf_addstr k c;
    Done (Sysconf (base c) (buf c) (item c) (var c ++ [SDefine kp sp v]) (len c))
  else Done c.

(** [conf->item + (conf->items++)]: the array has [SC_CMDSIZE] items. *)
Definition additem (m : menuitem_t) (c : sysconf_t) : outcome sysconf_t :=
  if items c <? SC_CMDSIZE then Done (Sysconf (base c) (buf c) (item c ++ [m]) (var c) (len c)) else Fault.

(** A line of the file as a string, and the rest of the file. *)
Definition next_line (s : list Z) : outcome (option (list Z * list Z)) :=
  r ← fgets (replicate (Z.to_nat LINE_BUFSIZE) 0) LINE_BUFSIZE s;
  match r with
  | Some (b, rest) => l ← cstring b 0; Done (Some (l, rest))
  | None => Done None
  end.

(** [*s == c], of a character that is not NUL. *)
Definition starts (c : Z) (s : list Z) : bool := default 0 (head s) =? c.

Definition blank (c : Z) : bool := (c =? 32) || (c =? 9).
Fixpoint skip_blanks (s : list Z) : list Z :=
  match s with c :: s' => if blank c then skip_blanks s' else s | [] => [] end.
Fixpoint until (stop : Z -> bool) (s : list Z) : list Z :=
  match s with c :: s => if stop c then [] else c :: until stop s | [] => [] end.

(** An argument: what is in quotes, or up to a blank. *)
Definition argument (t : list Z) : list Z :=
  match skip_blanks t with
  | 34 :: t => until (Z.eqb 34) t
  | t => until blank t
  end.

Fixpoint arguments (n : nat) (s : list Z) : list (list Z) :=
  match n with
  | O => []
  | S n => match strtok [44; 10] s with
           | Some (t, s) => argument t :: arguments n s
           | None => replicate (S n) []
           end
  end.

(** An item from a line: its command, and its arguments. *)
Definition menu_item (cmd : list Z) (args : list (list Z)) (c : sysconf_t) : outcome sysconf_t :=
  let a n := nth n args [] in
  l ← sysconf_eval (a 0%nat) c;
  co ← sysconf_eval (a 1%nat) c;
  let sign := default 0 (head cmd) in
  if sign =? 64 then
    lv ← sysconf_eval (a 2%nat) c;
    '(n, c) ← sysconf_addstr (a 3%nat) c;
    '(d, c) ← sysconf_addstr (a 4%nat) c;
    '(f, c) ← sysconf_addstr (drop 1 cmd) c;
    additem (MenuItem l co lv n d n f) c
  else if sign =? 33 then
    lv ← sysconf_eval (a 2%nat) c;
    '(n, c) ← sysconf_addstr (a 3%nat) c;
    '(d, c) ← sysconf_addstr (a 4%nat) c;
    '(f, c) ← sysconf_addstr (bytes "domenu") c;
    '(g, c) ← sysconf_addstr (drop 1 cmd) c;
    additem (MenuItem l co lv n d g f) c
  else
    '(n, c) ← sysconf_addstr cmd c;
    '(d, c) ← sysconf_addstr (a 2%nat) c;
    additem (MenuItem l co (-2) n d (base c) (base c)) c.

(** The items of a menu: the file from them on, and what is left of it. *)
Fixpoint menu_loop (fuel : nat) (s : list Z) (c : sysconf_t) : outcome (list Z * sysconf_t) :=
  match fuel with
  | O => NoFuel
  | S fuel =>
      r ← next_line s;
      match r with
      | None => Done ([], c)
      | Some (l, s) =>
          if starts 37 l then Done (s, c)
          else
            match strtok [32; 9; 10] l with
            | None => menu_loop fuel s c
            | Some (cmd, rest) =>
                if starts 35 cmd then menu_loop fuel s c
                else c ← menu_item cmd (arguments 5 rest) c; menu_loop fuel s c
            end
      end
  end.

(** The last item has only its pointers and its level set. *)
Definition sysconf_addmenu (s : list Z) (k : list Z) (garbage : menuitem_t) (c : sysconf_t) : outcome (list Z * sysconf_t) :=
  c ← sysconf_addkey k (Some (bytes "menu")) (items c) c;
  '(s, c) ← menu_loop (length s + 1) s c;
  c ← additem (MenuItem (line garbage) (col garbage) (-1) (base c) (base c) (base c) (base c)) c;
  Done (s, c).

(** The lines of a screen, one behind the other. *)
Fixpoint block_loop (fuel : nat) (store : bool) (s : list Z) (c : sysconf_t) : outcome (list Z * sysconf_t) :=
  match fuel with
  | O => NoFuel
  | S fuel =>
      r ← next_line s;
      match r with
      | None => Done ([], c)
      | Some (l, s) =>
          if starts 37 l then Done (s, c)
          else
            c ← (if store then
                   '(n, b) ← strlcpy (buf c) (len c) (encodestr l ++ [0]) 0 (u64 (SC_BUFSIZE - len c));
                   Done (set_len (i32 (len c + n)) (set_buf b c))
                 else Done c);
            block_loop fuel store s c
      end
  end.

Definition sysconf_addblock (s : list Z) (k : list Z) (c : sysconf_t) : outcome (list Z * sysconf_t) :=
  if keys c <? SC_KEYSIZE then
    '(kp, c) ← sysconf_addstr k c;
    let c := Sysconf (base c) (buf c) (item c) (var c ++ [SDefine kp (base c + len c) (-1)]) (len c) in
    '(s, c) ← block_loop (length s + 1) true s c;
    Done (s, set_len (i32 (len c + 1)) c)
  else block_loop (length s + 1) false s c.

(** What [strtok] leaves of a string when its token is not used. *)
Definition cut_token (delims s : list Z) : list Z :=
  match strtok delims s with
  | Some (t, _) => take (length s - length (skip_in delims s)) s ++ t
  | None => s
  end.

(** The values of a list of names, or-ed. *)
Fixpoint or_values (fuel : nat) (s : list Z) (v : Z) (c : sysconf_t) : outcome Z :=
  match fuel with
  | O => NoFuel
  | S fuel =>
      match strtok [44; 32; 9] s with
      | Some (t, s) => x ← sysconf_eval t c; or_values fuel s (Z.lor v x) c
      | None => Done v
      end
  end.

(** A line that sets a key; [None] when it is reported instead. *)
Definition set_key (l : list Z) (c : sysconf_t) : outcome sysconf_t :=
  match strtok [61; 35; 10] l with
  | None => Done c
  | Some (k, rest) =>
      match strtok [35; 10] rest with
      | None => Done c
      | Some (s, _) =>
          let k := cut_token [32; 9] k in
          match skip_blanks s with
          | 34 :: s => let s := cut_token [34] s in sysconf_addkey k (Some s) (atoi s) c
          | s => v ← or_values (length s + 1) s 0 c; sysconf_addkey k None v c
          end
      end
  end.

Section Parse.
(** [fopen] and the contents of files; what memory held where an item is. *)
Context (files : list Z -> option (list Z)) (garbage : menuitem_t).

Fixpoint sysconf_parse (depth : nat) (fname : list Z) (c : sysconf_t) : outcome sysconf_t :=
  match depth with
  | O => NoFuel
  | S depth =>
      match files fname with
      | None => Done c
      | Some s =>
          '(_, c) ← sysconf_addstr (bytes "(null ptr)") c;
          (fix lines (fuel : nat) (s : list Z) (c : sysconf_t) : outcome sysconf_t :=
             match fuel with
             | O => NoFuel
             | S fuel =>
                 r ← next_line s;
                 match r with
                 | None => Done c
                 | Some (l, s) =>
                     match skip_blanks l with
                     | 37 :: l =>
                         let '(w, rest) := match strtok [32; 9; 10] (37 :: l) with Some x => x | None => ([], []) end in
                         if bool_decide (w = bytes "%menu") then
                           match strtok [32; 9; 10] rest with
                           | Some (k, _) => '(s, c) ← sysconf_addmenu s k garbage c; lines fuel s c
                           | None => lines fuel s c
                           end
                         else '(s, c) ← sysconf_addblock s (drop 1 w) c; lines fuel s c
                     | 35 :: l =>
                         c ← match strtok [32; 9; 34; 10] (35 :: l) with
                             | Some (k, rest) =>
                                 match strtok [32; 9; 34; 10] rest with
                                 | Some (f, _) => if bool_decide (k = bytes "#include") then sysconf_parse depth f c else Done c
                                 | None => Done c
                                 end
                             | None => Done c
                             end;
                         lines fuel s c
                     | 10 :: _ => lines fuel s c
                     | l => c ← set_key l c; lines fuel s c
                     end
                 end
             end) (length s + 1)%nat s c
      end
  end.

Record image := Image { shead_buf : Z; i_item : list menuitem_t; i_var : list sdefine; i_buf : list Z }.

(** The image that is written, when there is memory and a file for it. When
    there is no memory what was freed is used. *)
Definition sysconf_build (depth : nat) (configfile : list Z) (memory writable : bool) (address : Z) (contents : list Z)
    : outcome (Z * option image) :=
  if memory then
    c ← sysconf_parse depth configfile (Sysconf address contents [] [] 0);
    if writable then
      b ← rdn (buf c) 0 (len c);
      Done (0, Some (Image (base c) (item c) (var c) b))
    else Done (-1, None)
  else Fault.
End Parse.

(** The distance of the two addresses is an [int]. *)
Definition sysconf_load_image (img : image) (address : Z) : sysconf_t :=
  let diff := i32 (address - shead_buf img) in
  Sysconf address (i_buf img)
    ((fun m => MenuItem (line m) (col m) (level m) (name m + diff) (desc m + diff) (arg m + diff) (func m + diff)) <$> i_item img)
    ((fun d => SDefine (key d + diff) (str d + diff) (val d)) <$> i_var img)
    (blen (i_buf img)).

(** * Packed text is printed as it was *)

Lemma run_rest_ok fuel : forall ch n s, 4 <= n -> n <= 100 -> Z.of_nat fuel + n <= 104 -> exists k,
  run_rest fuel ch n s = (n + Z.of_nat k, drop k s) /\ take k s = replicate k ch /\ n + Z.of_nat k <= 100 /\ (k <= length s)%nat.
Proof.
  induction fuel as [|fuel IH]; intros ch n s H4 H100 Hf; cbn [run_rest].
  { exists 0%nat. rewrite Z.add_0_r. destruct s; split_and!; try done; cbn; lia. }
  destruct s as [|c s]; [exists 0%nat; rewrite Z.add_0_r; split_and!; try done; cbn; lia|].
  destruct (Z.eqb_spec c ch) as [->|Hc]; cbn [andb].
  - destruct (Z.ltb_spec n 100) as [Hn|Hn].
    + destruct (IH ch (n + 1) s) as (k & E & Ht & Hk & Hl); [lia..|]. exists (S k). rewrite E.
      split_and!; [|by cbn; rewrite Ht|lia|cbn; lia]. f_equal. lia.
    + exists 0%nat. rewrite Z.add_0_r. split_and!; try done; cbn; lia.
  - exists 0%nat. rewrite Z.add_0_r. split_and!; try done; cbn; lia.
Qed.

Lemma same4_cons ch s : same4 ch s = true -> exists t, s = ch :: ch :: ch :: t.
Proof.
  destruct s as [|a [|b [|c t]]]; cbn; try done. rewrite !andb_true_iff, !Z.eqb_eq. intros [[-> ->] ->]. by exists t.
Qed.

(** Bytes of a text without the one that marks a run. *)
Definition unmarked (s : list Z) : Prop := Forall (fun c => c <> 1) s.

Lemma encode_loop_ok fuel : forall s t, (length s <= fuel)%nat -> unmarked s ->
  decodestr (encode_loop fuel s ++ t) = s ++ decodestr t /\ (length (encode_loop fuel s) <= length s)%nat.
Proof.
  induction fuel as [|fuel IH]; intros s t Hf Hs; (destruct s as [|ch s]; [done|]); [cbn in Hf; lia|].
  cbn [length] in Hf. apply Forall_cons_1 in Hs as [Hch Hs]. cbn [encode_loop].
  destruct (same4 ch s) eqn:E.
  - apply same4_cons in E as (u & ->). change (drop 3 (ch :: ch :: ch :: u)) with u. destruct (run_rest_ok 100 ch 4 u) as (k & -> & Ht & Hk & Hl); [lia..|].
    cbn [length] in Hf. assert (unmarked (drop k u)) as Hu.
    { apply Forall_drop. by repeat (apply Forall_cons_1 in Hs as [_ Hs]). }
    destruct (IH (drop k u) t) as [E1 E2]; [rewrite length_drop; lia|done|]. cbn [app decodestr]. rewrite Z.eqb_refl. cbn [negb].
    rewrite E1, schar_ascii by lia. replace (Z.to_nat (4 + Z.of_nat k)) with (4 + k)%nat by lia. cbn [Nat.add replicate app].
    split; [|cbn [length]; rewrite length_drop in E2; lia].
    do 4 f_equal. rewrite app_assoc, <- Ht, take_drop. done.
  - destruct (IH s t) as [E1 E2]; [lia|done|]. cbn [app decodestr]. rewrite (proj2 (Z.eqb_neq ch 1)) by done. cbn [negb].
    rewrite E1. split; [done|]. cbn. lia.
Qed.

(** C23. A screen of which every line is packed is printed as it was, and takes
    no more room than its text. *)
Theorem packed_roundtrip (ls : list (list Z)) :
  Forall unmarked ls ->
  decodestr (concat (map encodestr ls)) = concat ls /\
  (length (concat (map encodestr ls)) <= length (concat ls))%nat.
Proof.
  induction 1 as [|l ls Hl _ [IH1 IH2]]; [done|]. cbn [map concat].
  destruct (encode_loop_ok (length l) l (concat (map encodestr ls)) ltac:(lia) Hl) as [E1 E2].
  unfold encodestr at 1 3. rewrite E1, IH1. split; [done|]. rewrite !length_app. lia.
Qed.

Lemma packed_roundtrip_witness :
  let ls := [replicate 120 32 ++ [10]; bytes "aaab" ++ [10]] in
  decodestr (concat (map encodestr ls)) = concat ls /\
  (length (concat (map encodestr ls)) <= length (concat ls))%nat.
Proof.
  apply packed_roundtrip. constructor; [|constructor; [|constructor]].
  - apply Forall_app_intro; [by apply Forall_replicate|by repeat constructor].
  - by repeat constructor.
Defined.

(** * A menu is read as it is written *)

(** [s] is kept at the address [p], within what is used of the buffer. *)
Definition holds_at (c : sysconf_t) (p : Z) (s : list Z) : Prop :=
  nul_free s /\ p - base c + blen s + 1 <= len c /\
  exists pre post, buf c = pre ++ s ++ 0 :: post /\ blen pre = p - base c.

(** The buffer has its size, and keys are kept in it. *)
Record sound (c : sysconf_t) : Prop := Sound {
  sound_buf : blen (buf c) = SC_BUFSIZE;
  sound_len : 0 <= len c <= SC_BUFSIZE;
  sound_keys : Forall (fun v => exists s, holds_at c (key v) s) (var c) }.

(** Strings are added behind what is there. *)
Definition extends (c c' : sysconf_t) : Prop :=
  base c' = base c /\ len c <= len c' /\ take (Z.to_nat (len c)) (buf c') = take (Z.to_nat (len c)) (buf c).

Lemma extends_refl c : extends c c.
Proof. split; [done|]. split; [lia|done]. Qed.

Lemma extends_trans c1 c2 c3 : extends c1 c2 -> extends c2 c3 -> extends c1 c3.
Proof.
  intros (B1 & L1 & T1) (B2 & L2 & T2). split; [congruence|]. split; [lia|].
  apply (f_equal (take (Z.to_nat (len c1)))) in T2. rewrite !take_take, !Nat.min_l in T2 by lia. congruence.
Qed.

Lemma holds_at_string c p s : holds_at c p s -> string_at c p = Done s.
Proof. intros (Hs & _ & pre & post & E & Hp). unfold string_at. by apply (cstring_at _ pre s post). Qed.

Lemma holds_at_split c p s : holds_at c p s -> nul_free s /\ p - base c + blen s + 1 <= len c /\ 0 <= p - base c /\
  exists pre, take (Z.to_nat (len c)) (buf c) = pre ++ s ++ 0 :: drop (length (pre ++ s ++ [0])) (take (Z.to_nat (len c)) (buf c)) /\ blen pre = p - base c.
Proof.
  intros (Hs & Hl & pre & post & E & Hp). split; [done|]. split; [done|]. split; [pose proof (blen_nonneg pre); lia|].
  exists pre. split; [|done].
  assert (exists post', take (Z.to_nat (len c)) (buf c) = (pre ++ s ++ [0]) ++ post') as (post' & E').
  { exists (take (Z.to_nat (len c) - length (pre ++ s ++ [0])) post). rewrite E.
    replace (pre ++ s ++ 0 :: post) with ((pre ++ s ++ [0]) ++ post) by app_eq.
    rewrite take_app, take_ge; [done|]. rewrite !length_app. unfold blen in *. cbn [length]. lia. }
  rewrite E' at 1. rewrite E', drop_app_length. app_eq.
Qed.

Lemma extends_holds c c' p s : extends c c' -> holds_at c p s -> holds_at c' p s.
Proof.
  intros (Hb & Hl & Ht) H. apply holds_at_split in H as (Hs & Hsl & _ & pre & E & Hp).
  split; [done|]. split; [rewrite Hb; lia|]. rewrite <- Ht in E.
  eexists pre, _. rewrite Hb. split; [|done].
  rewrite <- (take_drop (Z.to_nat (len c)) (buf c')), E at 1. app_eq.
Qed.

Lemma addstr_ok s c : sound c -> nul_free s -> len c + blen s + 1 <= SC_BUFSIZE -> exists c',
  sysconf_addstr s c = Done (base c + len c, c') /\ sound c' /\ extends c c' /\ holds_at c' (base c + len c) s /\
  len c' = len c + blen s + 1 /\ item c' = item c /\ var c' = var c.
Proof.
  intros [Hb Hl Hk] Hs Hroom. unfold SC_BUFSIZE in *. pose proof (blen_nonneg s) as Hs0. unfold sysconf_addstr.
  set (pre := take (Z.to_nat (len c)) (buf c)). set (old := drop (Z.to_nat (len c)) (buf c)).
  assert (buf c = pre ++ old) as Eb by (symmetry; apply take_drop).
  assert (blen pre = len c) as Hpre by (subst pre; unfold blen in *; rewrite length_take; lia).
  assert (blen old = 20480 - len c) as Hold by (rewrite Eb, blen_app in Hb; lia).
  rewrite u64_id by (width; unfold SC_BUFSIZE; lia). unfold SC_BUFSIZE.
  pose proof (strlcpy_eq pre old [] [] s [] (20480 - len c) Hs ltac:(lia) ltac:(lia) ltac:(lia)) as E.
  cbn zeta in E. rewrite app_nil_r, <- Eb, Hpre, (proj2 (Z.eqb_neq (20480 - len c) 0)) in E by lia.
  change (blen []) with 0 in E. rewrite app_nil_l in E. rewrite E. cbn [mbind outcome_bind].
  rewrite i32_id by (width; lia). rewrite (proj2 (Z.ltb_ge 20480 _)) by lia.
  rewrite Z.min_r by lia. rewrite to_nat_blen, take_ge by lia. rewrite app_nil_r in *.
  set (post := drop (length s + 1) old).
  eexists. split; [done|].
  assert (extends c (set_len (len c + blen s + 1) (set_buf (pre ++ s ++ 0 :: post) c))) as He.
  { split; [done|]. split; [cbn; lia|]. cbn [buf set_len set_buf]. fold pre. rewrite take_app_le by (unfold blen in Hpre; lia).
    rewrite take_ge by (unfold blen in Hpre; lia). done. }
  split; [split|split; [done|split]].
  - cbn [buf set_len set_buf]. rewrite !blen_app, blen_cons. subst post. unfold SC_BUFSIZE. unfold blen in *. rewrite length_drop. lia.
  - cbn [len set_len]. unfold SC_BUFSIZE. lia.
  - cbn [var set_len set_buf]. eapply Forall_impl; [|exact Hk]. intros v (x & Hx). exists x. by apply (extends_holds c).
  - split; [done|]. cbn [base len buf set_len set_buf]. split; [lia|]. exists pre, post. split; [done|lia].
  - done.
Qed.

Lemma find_key_extends k c c' : extends c c' -> forall vs, Forall (fun v => exists s, holds_at c (key v) s) vs ->
  find_key k vs c' = find_key k vs c.
Proof.
  intros He. induction 1 as [|v vs (s & Hs) _ IH]; [done|]. cbn [find_key].
  by rewrite (holds_at_string c _ s Hs), (holds_at_string c' _ s (extends_holds _ _ _ _ He Hs)), IH.
Qed.

Lemma find_key_total k c : forall vs, Forall (fun v => exists s, holds_at c (key v) s) vs -> exists r, find_key k vs c = Done r.
Proof.
  induction 1 as [|v vs (s & Hs) _ (r & IH)]; [by exists None|]. cbn [find_key].
  rewrite (holds_at_string c _ s Hs), IH. cbn [mbind outcome_bind]. case_bool_decide; eauto.
Qed.

Lemma eval_extends k c c' : sound c -> extends c c' -> var c' = var c -> sysconf_eval k c' = sysconf_eval k c.
Proof. intros Hc He Hv. unfold sysconf_eval. by rewrite Hv, (find_key_extends k c c' He _ (sound_keys _ Hc)). Qed.

Lemma eval_total k c : sound c -> exists v, sysconf_eval k c = Done v.
Proof.
  intros Hc. unfold sysconf_eval. destruct (find_key_total k c _ (sound_keys _ Hc)) as (r & ->). by eexists.
Qed.

(** A line of a menu: the command with its sign, three words, and two texts in
    quotes; a property of the menu has the words only. *)
Record menu_line := MenuLine { m_cmd : list Z; m_line : list Z; m_col : list Z; m_level : list Z; m_name : list Z; m_desc : list Z }.

Definition is_item (l : menu_line) : bool :=
  let sign := default 0 (head (m_cmd l)) in (sign =? 64) || (sign =? 33).

(** The line as it is in the file, without its newline. *)
Definition print_line (l : menu_line) : list Z :=
  m_cmd l ++ [9] ++ m_line l ++ [44; 32] ++ m_col l ++ [44; 32] ++ m_level l ++
  (if is_item l then [44; 32; 34] ++ m_name l ++ [34; 44; 32; 34] ++ m_desc l ++ [34] else []).

Definition word (w : list Z) : Prop :=
  w <> [] /\ Forall (fun c => 0 < c < 256 /\ c <> 32 /\ c <> 9 /\ c <> 10 /\ c <> 44 /\ c <> 34) w.
Definition quoted (w : list Z) : Prop := Forall (fun c => 0 < c < 256 /\ c <> 10 /\ c <> 44 /\ c <> 34) w.

Definition line_ok (l : menu_line) : Prop :=
  word (m_cmd l) /\ head (m_cmd l) <> Some 35 /\ head (m_cmd l) <> Some 37 /\
  word (m_line l) /\ word (m_col l) /\ word (m_level l) /\ quoted (m_name l) /\ quoted (m_desc l) /\
  blen (print_line l) + 2 <= LINE_BUFSIZE.

(** The item is what the line says, its values being those of the keys. *)
Definition reads (c : sysconf_t) (l : menu_line) (m : menuitem_t) : Prop :=
  sysconf_eval (m_line l) c = Done (line m) /\ sysconf_eval (m_col l) c = Done (col m) /\
  let sign := default 0 (head (m_cmd l)) in
  if sign =? 64 then
    sysconf_eval (m_level l) c = Done (level m) /\ holds_at c (name m) (m_name l) /\
    holds_at c (desc m) (m_desc l) /\ holds_at c (func m) (drop 1 (m_cmd l)) /\ arg m = name m
  else if sign =? 33 then
    sysconf_eval (m_level l) c = Done (level m) /\ holds_at c (name m) (m_name l) /\
    holds_at c (desc m) (m_desc l) /\ holds_at c (func m) (bytes "domenu") /\ holds_at c (arg m) (drop 1 (m_cmd l))
  else level m = -2 /\ holds_at c (name m) (m_cmd l) /\ holds_at c (desc m) (m_level l).

(** The room that the strings of a line take. *)
Definition room_of (l : menu_line) : Z :=
  if is_item l then blen (m_name l) + blen (m_desc l) + blen (m_cmd l) + 10 else blen (m_cmd l) + blen (m_level l) + 2.

Lemma word_plain delims w : (forall c, existsb (Z.eqb c) delims = true -> c = 32 \/ c = 9 \/ c = 10 \/ c = 44 \/ c = 34) ->
  word w -> Forall (fun c => existsb (Z.eqb c) delims = false) w.
Proof.
  intros Hd [_ Hw]. eapply Forall_impl; [|exact Hw]. intros c Hc. cbn beta in Hc. destruct (existsb _ _) eqn:E; [|done]. apply Hd in E. lia.
Qed.

Lemma strtok_word delims w d r : w <> [] -> Forall (fun c => existsb (Z.eqb c) delims = false) w -> existsb (Z.eqb d) delims = true ->
  strtok delims (w ++ d :: r) = Some (w, r).
Proof.
  intros Hne Hw Hd. unfold strtok.
  assert (skip_in delims (w ++ d :: r) = w ++ d :: r) as ->.
  { destruct w as [|c w]; [done|]. apply Forall_cons_1 in Hw as [Hc _]. cbn [app skip_in]. by rewrite Hc. }
  destruct (w ++ d :: r) eqn:E; [by destruct w|]. by rewrite <- E, take_out_word.
Qed.

Lemma until_all f w : Forall (fun c => f c = false) w -> until f w = w.
Proof. induction 1 as [|c w Hc _ IH]; [done|]. cbn. by rewrite Hc, IH. Qed.
Lemma until_stop f w c r : Forall (fun c => f c = false) w -> f c = true -> until f (w ++ c :: r) = w.
Proof. intros Hw Hc. induction Hw as [|x w Hx _ IH]; cbn; [by rewrite Hc|]. by rewrite Hx, IH. Qed.

Lemma argument_word w bl : word w -> Forall (fun c => blank c = true) bl -> argument (bl ++ w) = w.
Proof.
  intros [Hne Hw] Hbl. unfold argument.
  assert (skip_blanks (bl ++ w) = w) as ->.
  { induction Hbl as [|c bl Hc _ IH]; cbn [app skip_blanks]; [|by rewrite Hc].
    destruct w as [|c w]; [done|]. apply Forall_cons_1 in Hw as [Hc _]. unfold skip_blanks, blank.
    rewrite (proj2 (Z.eqb_neq c 32)), (proj2 (Z.eqb_neq c 9)) by lia. done. }
  assert (until blank w = w) as Hu.
  { apply until_all. eapply Forall_impl; [|exact Hw]. intros c Hc. cbn beta in Hc. unfold blank. lia. }
  destruct w as [|c w]; [done|]. apply Forall_cons_1 in Hw as [Hc _].
  destruct (decide (c = 34)) as [->|Hn]; [lia|]. repeat case_match; try done; simplify_eq.
Qed.

Lemma argument_quoted w : quoted w -> argument ([32; 34] ++ w ++ [34]) = w.
Proof.
  intros Hw. unfold argument. cbn. apply until_stop; [|done]. eapply Forall_impl; [|exact Hw]. intros c Hc. cbn beta in Hc. apply Z.eqb_neq. lia.
Qed.

Definition comma (c : Z) : bool := existsb (Z.eqb c) [44; 10].

Lemma arguments_cons n t d r : t <> [] -> Forall (fun c => comma c = false) t -> comma d = true ->
  arguments (S n) (t ++ d :: r) = argument t :: arguments n r.
Proof. intros Hne Ht Hd. cbn [arguments]. by rewrite strtok_word. Qed.

Lemma word_comma w : word w -> Forall (fun c => comma c = false) w.
Proof. apply word_plain. intros c. cbn. lia. Qed.

Lemma word_blank w : word w -> Forall (fun c => existsb (Z.eqb c) [32; 9; 10] = false) w.
Proof. apply word_plain. intros c. cbn. lia. Qed.

Lemma arguments_nil n : arguments n [] = replicate n [].
Proof. by destruct n. Qed.

Lemma line_arguments l : line_ok l -> exists rest, strtok [32; 9; 10] (print_line l ++ [10]) = Some (m_cmd l, rest) /\
  arguments 5 rest = [m_line l; m_col l; m_level l] ++ (if is_item l then [m_name l; m_desc l] else [[]; []]).
Proof.
  intros (Hcmd & _ & _ & Hl & Hc & Hv & Hn & Hd & _). unfold print_line. eexists. split.
  - rewrite <- app_assoc. cbn [app]. apply strtok_word; [apply Hcmd|by apply word_blank|done].
  - repeat (rewrite <- app_assoc; cbn [app]).
    rewrite arguments_cons by first [apply Hl|by apply word_comma|done]. rewrite (argument_word (m_line l) [] Hl ltac:(constructor) : argument (m_line l) = m_line l).
    change (32 :: m_col l ++ ?x) with (([32] ++ m_col l) ++ x).
    rewrite (arguments_cons _ ([32] ++ m_col l)) by first [done|apply Forall_app_intro; [by repeat constructor|by apply word_comma]].
    rewrite argument_word by (done || by repeat constructor).
    assert (forall n d r, comma d = true -> arguments (S n) (32 :: m_level l ++ d :: r) = m_level l :: arguments n r) as Hlev.
    { intros n d r Hdd. change (32 :: m_level l ++ ?x) with (([32] ++ m_level l) ++ x).
      rewrite arguments_cons by first [done|apply Forall_app_intro; [by repeat constructor|by apply word_comma]].
      rewrite argument_word by (done || by repeat constructor). done. }
    assert (forall w, quoted w -> Forall (fun c => comma c = false) ([32; 34] ++ w ++ [34])) as Hq.
    { intros w Hw. apply Forall_app_intro; [by repeat constructor|]. apply Forall_app_intro; [|by repeat constructor].
      eapply Forall_impl; [|exact Hw]. intros c Hcc. cbn beta in Hcc. unfold comma. cbn. lia. }
    destruct (is_item l).
    + cbn [app]. repeat (rewrite <- app_assoc; cbn [app]). rewrite Hlev by done.
      replace (32 :: 34 :: m_name l ++ 34 :: 44 :: 32 :: 34 :: m_desc l ++ 34 :: [10])
        with (([32; 34] ++ m_name l ++ [34]) ++ 44 :: ([32; 34] ++ m_desc l ++ [34]) ++ 10 :: []) by app_eq.
      rewrite arguments_cons by (done || by apply Hq). rewrite argument_quoted by done.
      rewrite arguments_cons by (done || by apply Hq). by rewrite argument_quoted.
    + cbn [app]. rewrite Hlev by done. done.
Qed.

Lemma word_nul_free w : word w -> nul_free w.
Proof. intros [_ Hw]. eapply Forall_impl; [|exact Hw]. intros c Hc. cbn beta in Hc. lia. Qed.
Lemma quoted_nul_free w : quoted w -> nul_free w.
Proof. intros Hw. eapply Forall_impl; [|exact Hw]. intros c Hc. cbn beta in Hc. lia. Qed.

Lemma additem_ok m c : sound c -> items c < SC_CMDSIZE -> exists c', additem m c = Done c' /\ sound c' /\ extends c c' /\
  extends c' c /\ item c' = item c ++ [m] /\ var c' = var c /\ len c' = len c.
Proof.
  intros [Hb Hl Hk] Hi. unfold additem. rewrite (proj2 (Z.ltb_lt _ _) Hi). eexists. split; [done|].
  split; [|repeat split; done || lia]. split; [done|done|]. exact Hk.
Qed.

(** One string more in the buffer: the step of all that follows. *)
Ltac add_string H := let E := fresh "E" in
  match goal with |- context [sysconf_addstr ?s ?c] =>
    destruct (addstr_ok s c) as (? & E & ? & ? & ? & ? & ? & ?); [done|first [done|apply H]|lia|]; rewrite E; clear E;
    cbn [mbind outcome_bind] end.

Ltac add_item :=
  match goal with |- context [additem ?m ?c] =>
    let E := fresh "E" in destruct (additem_ok m c) as (? & E & ? & ? & ? & ? & ? & ?); [done|unfold items in *; repeat match goal with E : item _ = item _ |- _ => rewrite E end; done|];
    rewrite E; clear E end.
Ltac read_item := eexists _, _; (split; [done|]); (split; [done|]); (split; [by eauto using extends_trans|]);
  (split; [etransitivity; [eassumption|]; f_equal; congruence|]); (split; [congruence|]); cbn [line col level name desc arg func];
  (split; [|rewrite ?blen_cons; lia]);
  repeat match goal with
  | |- _ /\ _ => split
  | |- sysconf_eval _ _ = _ => erewrite eval_extends; [eassumption|done|by eauto using extends_trans|congruence]
  | |- holds_at _ _ _ => eapply extends_holds; [|eassumption]; by eauto using extends_trans, extends_refl
  | |- _ => reflexivity
  end.

Lemma menu_item_ok l c : sound c -> line_ok l -> items c < SC_CMDSIZE -> len c + room_of l <= SC_BUFSIZE -> exists c' m,
  menu_item (m_cmd l) ([m_line l; m_col l; m_level l] ++ (if is_item l then [m_name l; m_desc l] else [[]; []])) c = Done c' /\
  sound c' /\ extends c c' /\ item c' = item c ++ [m] /\ var c' = var c /\ reads c' l m /\ len c' <= len c + room_of l.
Proof.
  intros Hc (Hcmd & _ & _ & _ & _ & Hv & Hn & Hd & _) Hi Hroom.
  destruct (eval_total (m_line l) c Hc) as (x & Ex). destruct (eval_total (m_col l) c Hc) as (y & Ey).
  destruct (eval_total (m_level l) c Hc) as (z & Ez).
  apply quoted_nul_free in Hn, Hd. pose proof (word_nul_free _ Hv) as Hv0. pose proof (word_nul_free _ Hcmd) as Hcmd0.
  pose proof (blen_nonneg (m_name l)). pose proof (blen_nonneg (m_desc l)). pose proof (blen_nonneg (m_level l)).
  unfold menu_item. cbn [app nth]. rewrite Ex, Ey. cbn [mbind outcome_bind].
  unfold room_of, reads, is_item in *. destruct Hcmd as [Hne _]. destruct (m_cmd l) as [|k f]; [done|].
  apply Forall_cons_1 in Hcmd0 as Hkf. destruct Hkf as [Hk Hf]. rewrite blen_cons in Hroom. pose proof (blen_nonneg f).
  cbn [head default from_option id] in *. change (drop 1 (k :: f)) with f.
  destruct (Z.eqb_spec k 64) as [->|H64]; [|destruct (Z.eqb_spec k 33) as [->|H33]]; cbn [orb nth] in *; rewrite ?Ez; cbn [mbind outcome_bind].
  - add_string Hn. add_string Hd. add_string Hf. add_item. read_item.
  - assert (nul_free (bytes "domenu")) as Hdm by (repeat constructor).
    assert (blen (bytes "domenu") = 6) by done.
    add_string Hn. add_string Hd. add_string Hdm. add_string Hf. add_item. read_item.
  - pose proof (blen_cons k f). add_string Hcmd0. add_string Hv0. add_item. read_item.
Qed.

Lemma reads_extends c c' l m : sound c -> extends c c' -> var c' = var c -> reads c l m -> reads c' l m.
Proof.
  intros Hc He Hv (H1 & H2 & H3). unfold reads. rewrite !(eval_extends _ c c') by done. split; [done|]. split; [done|].
  cbn zeta in *. destruct (_ =? 64); [|destruct (_ =? 33)].
  - destruct H3 as (A1 & A2 & A3 & A4 & A5). split; [done|]. do 3 (split; [by apply (extends_holds c)|]). done.
  - destruct H3 as (A1 & A2 & A3 & A4 & A5). split; [done|]. do 3 (split; [by apply (extends_holds c)|]). by apply (extends_holds c).
  - destruct H3 as (A1 & A2 & A3). split; [done|]. split; by apply (extends_holds c).
Qed.

(** A line that is short enough is read as a whole. *)
Lemma next_line_row row rest : row_ok LINE_BUFSIZE row -> next_line (row ++ 10 :: rest) = Done (Some (row ++ [10], rest)).
Proof.
  intros Hr. unfold next_line.
  destruct (fgets_row (replicate (Z.to_nat LINE_BUFSIZE) 0) LINE_BUFSIZE row rest Hr) as (tl & E & _).
  { unfold blen. rewrite length_replicate. done. }
  rewrite E. cbn [mbind outcome_bind]. by rewrite (row_line LINE_BUFSIZE) by done.
Qed.

Lemma words_row l : line_ok l -> row_ok LINE_BUFSIZE (print_line l).
Proof.
  intros (Hcmd & _ & _ & Hl & Hc & Hv & Hn & Hd & Hlen).
  assert (forall w, word w -> Forall (fun c => 0 < c < 256 /\ c <> 10) w) as Hw
    by (intros w [_ Hw]; eapply Forall_impl; [|exact Hw]; intros c Hcc; cbn beta in Hcc; lia).
  assert (forall w, quoted w -> Forall (fun c => 0 < c < 256 /\ c <> 10) w) as Hq
    by (intros w Hw'; eapply Forall_impl; [|exact Hw']; intros c Hcc; cbn beta in Hcc; lia).
  assert (Forall (fun c => 0 < c < 256 /\ c <> 10) (print_line l)) as Hall.
  { unfold print_line. repeat apply Forall_app_intro; try by apply Hw.
    - by repeat constructor.
    - by repeat constructor.
    - by repeat constructor.
    - destruct (is_item l); [|constructor].
      repeat apply Forall_app_intro; try (by apply Hq); by repeat constructor. }
  split; [eapply Forall_impl; [|exact Hall]; intros c Hcc; cbn beta in Hcc; lia|].
  split; [eapply Forall_impl; [|exact Hall]; intros c Hcc; cbn beta in Hcc; lia|]. lia.
Qed.

Definition menu_text (ls : list menu_line) : list Z := concat (map (fun l => print_line l ++ [10]) ls).
Definition rooms (ls : list menu_line) : Z := foldr (fun l n => room_of l + n) 0 ls.

Lemma room_nonneg l : 0 <= room_of l.
Proof.
  unfold room_of. pose proof (blen_nonneg (m_name l)). pose proof (blen_nonneg (m_desc l)).
  pose proof (blen_nonneg (m_cmd l)). pose proof (blen_nonneg (m_level l)). destruct (is_item l); lia.
Qed.

Lemma rooms_nonneg ls : 0 <= rooms ls.
Proof. induction ls as [|l ls IH]; [done|]. cbn [rooms foldr]. fold (rooms ls). pose proof (room_nonneg l). lia. Qed.

Lemma menu_loop_ok ls : forall fuel c rest, sound c -> Forall line_ok ls ->
  items c + Z.of_nat (length ls) <= SC_CMDSIZE -> len c + rooms ls <= SC_BUFSIZE ->
  (length ls < fuel)%nat -> exists c' ms,
  menu_loop fuel (menu_text ls ++ bytes "%" ++ 10 :: rest) c = Done (rest, c') /\ sound c' /\ extends c c' /\
  item c' = item c ++ ms /\ var c' = var c /\ Forall2 (reads c') ls ms.
Proof.
  induction ls as [|l ls IH]; intros fuel c rest Hc Hls Hi Hroom Hf; (destruct fuel as [|fuel]; [lia|]); cbn [menu_loop].
  - change (menu_text [] ++ bytes "%" ++ 10 :: rest) with (bytes "%" ++ 10 :: rest).
    rewrite next_line_row by (split; [by repeat constructor|split; [by repeat constructor|done]]). cbn [mbind outcome_bind app].
    exists c, []. rewrite app_nil_r. split; [done|]. split; [done|]. split; [apply extends_refl|]. by split_and!.
  - apply Forall_cons_1 in Hls as [Hl Hls]. cbn [rooms foldr] in Hroom. fold (rooms ls) in Hroom. cbn [length] in Hi, Hf.
    unfold menu_text. cbn [map concat]. fold (menu_text ls).
    replace (((print_line l ++ [10]) ++ menu_text ls) ++ bytes "%" ++ 10 :: rest)
      with (print_line l ++ 10 :: (menu_text ls ++ bytes "%" ++ 10 :: rest)) by app_eq.
    rewrite next_line_row by by apply words_row. cbn [mbind outcome_bind].
    destruct (line_arguments l Hl) as (args & E1 & E2).
    assert (starts 37 (print_line l ++ [10]) = false /\ starts 35 (m_cmd l) = false) as [-> H35].
    { destruct Hl as ((Hne & _) & H35 & H37 & _). unfold starts, print_line. destruct (m_cmd l) as [|k f]; [done|].
      cbn [head app default from_option id] in *. split; apply Z.eqb_neq; congruence. }
    rewrite E1, H35, E2.
    pose proof (rooms_nonneg ls).
    destruct (menu_item_ok l c Hc Hl) as (c1 & m & Em & Hc1 & He1 & Hi1 & Hv1 & Hr1 & Hlen1); [lia|lia|].
    destruct (IH fuel c1 rest Hc1 Hls) as (c2 & ms & E3 & Hc2 & He2 & Hi2 & Hv2 & Hr2).
    { unfold items in *. rewrite Hi1, length_app. cbn [length]. lia. }
    { lia. }
    { lia. }
    exists c2, (m :: ms). split; [|split; [done|]].
    + rewrite Em. cbn [mbind outcome_bind]. exact E3.
    + split; [by apply (extends_trans _ c1)|]. split; [rewrite Hi2, Hi1; app_eq|]. split; [congruence|].
      constructor; [|done]. by apply (reads_extends c1).
Qed.

Lemma find_key_app k c vs v : (forall r, find_key k vs c = Done r -> r = None) -> Forall (fun v => exists s, holds_at c (key v) s) vs ->
  holds_at c (key v) k -> find_key k (vs ++ [v]) c = Done (Some v).
Proof.
  intros Hn. induction 1 as [|x vs (s & Hs) Hvs IH]; intros Hv; cbn [find_key app].
  - rewrite (holds_at_string c _ k Hv). cbn [mbind outcome_bind]. by rewrite bool_decide_eq_true_2.
  - cbn [find_key] in Hn. rewrite (holds_at_string c _ s Hs) in Hn |- *. cbn [mbind outcome_bind] in *.
    case_bool_decide; [by specialize (Hn (Some x) eq_refl)|]. by apply IH.
Qed.

Lemma addkey_ok k s v c : sound c -> keys c < SC_KEYSIZE -> nul_free k -> nul_free s ->
  len c + blen s + blen k + 2 <= SC_BUFSIZE -> find_key k (var c) c = Done None -> exists c' d,
  sysconf_addkey k (Some s) v c = Done c' /\ sound c' /\ extends c c' /\ item c' = item c /\ var c' = var c ++ [d] /\
  val d = v /\ find_key k (var c') c' = Done (Some d) /\ len c' = len c + blen s + blen k + 2.
Proof.
  intros Hc Hk Hkn Hsn Hroom Hnone. pose proof (blen_nonneg k). pose proof (blen_nonneg s).
  unfold sysconf_addkey. rewrite (proj2 (Z.ltb_lt _ _) Hk).
  add_string Hsn. add_string Hkn.
  match goal with H : holds_at ?y (base ?x + len ?x) k, Hv : var ?y = var ?x, Hv0 : var ?x = var c, Hsy : sound ?y |- _ =>
    set (d := SDefine (base x + len x) (base c + len c) v); set (c' := Sysconf (base y) (buf y) (item y) (var y ++ [d]) (len y));
    assert (extends c y) as Hey by eauto using extends_trans; assert (extends y c') as Hyc' by (repeat split; done || (cbn; lia));
    assert (holds_at c' (key d) k) as Hd by (by apply (extends_holds y)); exists c', d; rewrite Hv0 in Hv; destruct Hsy as [S1 S2 S3] end.
  assert (extends c c') as Hcc' by eauto using extends_trans.
  split; [done|]. split.
  { split; [done|done|]. subst c'. cbn [var]. apply Forall_app_intro; [|by constructor; [eauto|]].
    eapply Forall_impl; [|exact S3]. intros dv (sx & Hx). exists sx. by apply (extends_holds _ _ _ _ Hyc'). }
  split; [done|]. split; [subst c'; cbn [item]; congruence|]. split; [subst c'; cbn [var]; congruence|]. split; [done|].
  split; [|subst c'; cbn [len]; lia]. subst c'. cbn [var] in *.
  match goal with Hv : var ?y = var c |- _ => rewrite Hv in * end.
  apply find_key_app; [|by eapply Forall_impl; [|exact S3]; intros dv (sx & Hx); exists sx; by apply (extends_holds _ _ _ _ Hyc')|done].
  intros r. rewrite (find_key_extends k c _ Hcc' _ (sound_keys _ Hc)), Hnone. by intros [= <-].
Qed.

(** ** Loading the image *)

Section Load.
Context (c : sysconf_t) (address : Z) (Hc : sound c) (near : is_i32 (address - base c)).

Definition loaded : sysconf_t := sysconf_load_image (Image (base c) (item c) (var c) (take (Z.to_nat (len c)) (buf c))) address.
Definition moved (p : Z) : Z := p + i32 (address - base c).

Lemma loaded_holds p s : holds_at c p s -> holds_at loaded (moved p) s.
Proof.
  intros H. apply holds_at_split in H as (Hs & Hl & _ & pre & E & Hp).
  unfold loaded, sysconf_load_image, moved. split; [done|]. cbn [base len buf shead_buf i_buf].
  rewrite (i32_id (address - base c)) by done.
  assert (blen (take (Z.to_nat (len c)) (buf c)) = len c) as ->.
  { pose proof (sound_buf _ Hc). pose proof (sound_len _ Hc). unfold blen in *. rewrite length_take. lia. }
  split; [lia|]. eexists pre, _. split; [exact E|lia].
Qed.

Lemma loaded_eval k v : sysconf_eval k c = Done v -> sysconf_eval k loaded = Done v.
Proof.
  unfold sysconf_eval. intros H.
  assert (forall vs, Forall (fun v => exists s, holds_at c (key v) s) vs -> forall r, find_key k vs c = Done r ->
    find_key k ((fun d => SDefine (moved (key d)) (moved (str d)) (val d)) <$> vs) loaded =
      Done ((fun d => SDefine (moved (key d)) (moved (str d)) (val d)) <$> r)) as Hf.
  { induction 1 as [|x vs (s & Hs) _ IH]; intros r Hr; [by injection Hr as <-|]. cbn [find_key fmap list_fmap key] in *.
    rewrite (holds_at_string c _ s Hs) in Hr. rewrite (holds_at_string _ _ s (loaded_holds _ _ Hs)). cbn [mbind outcome_bind] in *.
    case_bool_decide; [by injection Hr as <-|]. by apply IH. }
  destruct (find_key k (var c) c) as [r| |] eqn:E; [|done..]. cbn [mbind outcome_bind] in H.
  rewrite (Hf _ (sound_keys _ Hc) r E : find_key k (var loaded) loaded = _). cbn [mbind outcome_bind]. by destruct r.
Qed.

Definition moved_item (m : menuitem_t) : menuitem_t :=
  MenuItem (line m) (col m) (level m) (moved (name m)) (moved (desc m)) (moved (arg m)) (moved (func m)).

Lemma loaded_reads l m : reads c l m -> reads loaded l (moved_item m).
Proof.
  intros (H1 & H2 & H3). apply loaded_eval in H1, H2. unfold reads. split; [done|]. split; [done|].
  cbn zeta in *. destruct (_ =? 64); [|destruct (_ =? 33)].
  - destruct H3 as (A1 & A2 & A3 & A4 & A5). apply loaded_eval in A1. split; [done|].
    do 3 (split; [by apply loaded_holds|]). cbn [arg name moved_item]. by rewrite A5.
  - destruct H3 as (A1 & A2 & A3 & A4 & A5). apply loaded_eval in A1. split; [done|].
    do 3 (split; [by apply loaded_holds|]). by apply loaded_holds.
  - destruct H3 as (A1 & A2 & A3). split; [done|]. split; by apply loaded_holds.
Qed.
End Load.

(** C22. A menu that is written in the configuration, within the sizes of the
    tables, is found under its name in the image when that is loaded at any
    address whose distance from the first one is an [int]: each item has the
    position, level, texts and command of its line, and the end of the menu
    follows the last one. *)
Theorem menu_roundtrip (c : sysconf_t) (k : list Z) (ls : list menu_line) (rest : list Z) (garbage : menuitem_t) (address : Z) :
  sound c -> Forall line_ok ls -> word k -> find_key k (var c) c = Done None ->
  keys c < SC_KEYSIZE -> items c + Z.of_nat (length ls) + 1 <= SC_CMDSIZE ->
  len c + blen k + 6 + rooms ls <= SC_BUFSIZE -> is_i32 (address - base c) ->
  exists c', sysconf_addmenu (menu_text ls ++ bytes "%" ++ 10 :: rest) k garbage c = Done (rest, c') /\
    let d := sysconf_load_image (Image (base c') (item c') (var c') (take (Z.to_nat (len c')) (buf c'))) address in
    exists ms e, sysconf_eval k d = Done (items c) /\ drop (Z.to_nat (items c)) (item d) = ms ++ [e] /\
      Forall2 (reads d) ls ms /\ level e = -1.
Proof.
  intros Hc Hls Hk Hnone Hkeys Hitems Hroom Hnear. pose proof (rooms_nonneg ls) as Hrn. unfold sysconf_addmenu.
  assert (blen (bytes "menu") = 4) as Hm4 by done.
  destruct (addkey_ok k (bytes "menu") (items c) c Hc Hkeys (word_nul_free _ Hk)) as (c1 & v & E1 & Hc1 & He1 & Hi1 & Hv1 & Hval & Hf1 & Hl1);
    [by repeat constructor|lia|done|].
  rewrite E1. cbn [mbind outcome_bind].
  assert (items c1 = items c) as Hic1 by (unfold items; by rewrite Hi1).
  destruct (menu_loop_ok ls (length (menu_text ls ++ bytes "%" ++ 10 :: rest) + 1) c1 rest Hc1 Hls) as (c2 & ms & E2 & Hc2 & He2 & Hi2 & Hv2 & Hr2);
    [lia|lia| |].
  { rewrite length_app. assert (length ls <= length (menu_text ls))%nat; [|lia]. unfold menu_text.
    clear. induction ls as [|l ls IH]; cbn [map concat length]; [lia|]. rewrite !length_app. cbn [length]. lia. }
  rewrite E2. cbn [mbind outcome_bind].
  pose proof (Forall2_length Hr2) as Hlen.
  destruct (additem_ok (MenuItem (line garbage) (col garbage) (-1) (base c2) (base c2) (base c2) (base c2)) c2 Hc2) as
    (c3 & E3 & Hc3 & He3 & He3' & Hi3 & Hv3 & Hl3).
  { unfold items in *. rewrite Hi2, length_app, Nat2Z.inj_add, <- Hlen. lia. }
  rewrite E3. cbn [mbind outcome_bind]. exists c3. split; [done|]. cbv zeta.
  assert (base c3 = base c) as Hb3 by (destruct He1 as (B1 & _), He2 as (B2 & _), He3 as (B3 & _); congruence).
  assert (is_i32 (address - base c3)) as Hnear3 by by rewrite Hb3.
  fold (loaded c3 address).
  exists (moved_item c3 address <$> ms). eexists. split; [|split; [|split]].
  - apply (loaded_eval c3 address Hc3 Hnear3). rewrite (eval_extends k c1 c3); [|done|by apply (extends_trans _ c2)|congruence].
    unfold sysconf_eval. rewrite Hf1. cbn [mbind outcome_bind]. by rewrite Hval.
  - cbn [item loaded sysconf_load_image i_item]. rewrite Hi3, Hi2, Hi1, !fmap_app, <- app_assoc.
    unfold items. rewrite Nat2Z.id. rewrite <- (length_fmap (moved_item c3 address) (item c)).
    rewrite drop_app_length. reflexivity.
  - apply Forall2_fmap_r. eapply Forall2_impl; [|exact Hr2]. intros l m Hr. cbn beta.
    apply (loaded_reads c3 address Hc3 Hnear3). by apply (reads_extends c2).
  - done.
Qed.

Definition talk_line : menu_line := MenuLine (bytes "!M_TALK") (bytes "10") (bytes "5") (bytes "0") (bytes "Talk") (bytes "T) talk").
Definition title_line : menu_line := MenuLine (bytes "title") (bytes "0") (bytes "0") (bytes "Main") [] [].
Definition empty_conf : sysconf_t := Sysconf 4096 (replicate 20480 0) [] [] 0.

Lemma empty_sound : sound empty_conf.
Proof.
  split; [|unfold SC_BUFSIZE; cbn [len empty_conf]; lia|constructor].
  unfold blen. cbn [buf empty_conf]. rewrite length_replicate. done.
Qed.

Lemma word_check w : w <> [] -> forallb (fun c => (0 <? c) && (c <? 256) && negb (existsb (Z.eqb c) [32; 9; 10; 44; 34])) w = true -> word w.
Proof.
  intros Hne Hw. split; [done|]. rewrite forallb_forall in Hw. apply List.Forall_forall. intros c Hc. apply Hw in Hc.
  cbn in Hc. lia.
Qed.
Lemma quoted_check w : forallb (fun c => (0 <? c) && (c <? 256) && negb (existsb (Z.eqb c) [10; 44; 34])) w = true -> quoted w.
Proof.
  intros Hw. rewrite forallb_forall in Hw. apply List.Forall_forall. intros c Hc. apply Hw in Hc. cbn in Hc. lia.
Qed.

Lemma menu_lines_ok : Forall line_ok [title_line; talk_line].
Proof.
  constructor; [|constructor; [|constructor]].
  all: do 8 (split; [first [apply word_check; [done|vm_compute; reflexivity]|apply quoted_check; vm_compute; reflexivity|vm_compute; congruence]|]).
  all: vm_compute; congruence.
Qed.

Lemma menu_roundtrip_witness :
  exists c', sysconf_addmenu (menu_text [title_line; talk_line] ++ bytes "%" ++ 10 :: bytes "rest") (bytes "TOPMENU") (MenuItem 0 0 0 0 0 0 0) empty_conf =
      Done (bytes "rest", c') /\
    let d := sysconf_load_image (Image (base c') (item c') (var c') (take (Z.to_nat (len c')) (buf c'))) 500000 in
    exists ms e, sysconf_eval (bytes "TOPMENU") d = Done 0 /\ drop (Z.to_nat 0) (item d) = ms ++ [e] /\
      Forall2 (reads d) [title_line; talk_line] ms /\ level e = -1.
Proof.
  apply (menu_roundtrip empty_conf (bytes "TOPMENU") [title_line; talk_line] (bytes "rest") (MenuItem 0 0 0 0 0 0 0) 500000).
  - apply empty_sound.
  - apply menu_lines_ok.
  - apply word_check; [done|vm_compute; reflexivity].
  - done.
  - done.
  - done.
  - vm_compute. congruence.
  - done.
Defined.

(** A comma ends a text that is in quotes. *)
Example comma_cuts : arguments 5 (bytes "0, 0, 0, " ++ [34] ++ bytes "A" ++ [34] ++ bytes ", " ++ [34] ++ bytes "a, b" ++ [34; 10]) =
  [bytes "0"; bytes "0"; bytes "0"; bytes "A"; bytes "a"].
Proof. vm_compute. done. Qed.

(** The highest permission is negative. *)
Example special9_negative : i32 (strtol0 (bytes "0x80000000")) = - 2 ^ 31.
Proof. vm_compute. done. Qed.
