(* ===== verification/Menu.v ===== *)
(** Menus: [domenu] of [src/comm_lists.c], from the items that [Sysconf] reads.
    A menu is a pointer to its first item; the items change as they are drawn,
    and all of them are replaced when the configuration is read again. What
    happens is kept as a log also when the process ends. *)
From S2P Require Import Prelude CString Helper More Sysconf.
#[local] Open Scope Z_scope.

Definition EOF : Z := -1.
Definition PERM_SYSOPS : Z := 0x2000.
Definition PERM_ESYSFILE : Z := PERM_SYSOPS.

(** The names of the configuration and the functions they stand for, as built
    with modules and games. *)
Definition cmdlist : list (list Z * list Z) := (fun '(n, f) => (bytes n, bytes f)) <$> [
  ("domenu", "domenu"); ("EGroups", "tui_read_sector"); ("BoardsAll", "tui_all_boards");
  ("BoardsGood", "tui_favorite_boards"); ("BoardsNew", "tui_unread_boards"); ("LeaveBBS", "Goodbye");
  ("Announce", "Announce"); ("Personal", "Personal"); ("SelectBoard", "board_select");
  ("ReadReply", "post_list_reply"); ("ReadMention", "post_list_mention"); ("MailAll", "mailall");
  ("LockScreen", "x_lockscreen"); ("OffLine", "offline"); ("GiveUpBBS", "giveUpBBS"); ("ReadNewMail", "m_new");
  ("ReadMail", "m_read"); ("SendMail", "m_send"); ("GroupSend", "g_send"); ("OverrideSend", "ov_send");
  ("SendNetMail", "m_internet"); ("UserDefine", "x_userdefine"); ("ShowFriends", "show_online_followings");
  ("ShowLogins", "show_online_users"); ("QueryUser", "tui_query"); ("SetCloak", "x_cloak"); ("SendMsg", "s_msg");
  ("ShowMsg", "msg_more"); ("SetFriends", "tui_following_list"); ("SetRejects", "tui_black_list");
  ("FillForm", "fill_reg_form"); ("Information", "x_info"); ("EditUFiles", "x_edits"); ("ShowLicense", "Conditions");
  ("ShowVersion", "Info"); ("Notepad", "shownotepad"); ("Vote", "x_vote"); ("VoteResult", "x_results");
  ("ExecBBSNet", "ent_bnet"); ("ExecBBSNet2", "ent_bnet2"); ("ShowWelcome", "Welcome"); ("AddPCorpus", "AddPCorpus");
  ("Props", "tui_props"); ("MyProps", "tui_my_props"); ("WinMine", "ent_winmine"); ("RunMBEM", "exec_mbem");
  ("OpenVote", "m_vote")]%string.

Definition dlmlist : list (list Z * list Z) := (fun '(n, f) => (bytes n, bytes f)) <$> [
  ("Gagb", "@mod:so/game.so#gagb"); ("BlackJack", "@mod:so/game.so#BlackJack"); ("X_dice", "@mod:so/game.so#x_dice");
  ("P_gp", "@mod:so/game.so#p_gp"); ("IP_nine", "@mod:so/game.so#p_nine"); ("OBingo", "@mod:so/game.so#bingo");
  ("Chicken", "@mod:so/game.so#chicken_main"); ("Mary", "@mod:so/game.so#mary_m"); ("Borrow", "@mod:so/game.so#borrow");
  ("Payoff", "@mod:so/game.so#payoff"); ("Impawn", "@mod:so/game.so#popshop");
  ("Doshopping", "@mod:so/game.so#doshopping"); ("Lending", "@mod:so/game.so#lending");
  ("StarChicken", "@mod:so/pip.so#mod_default"); ("Kick", "@mod:so/admintool.so#kick_user");
  ("Setsyspass", "@mod:so/admintool.so#setsystempasswd"); ("Register", "@mod:so/admintool.so#m_register");
  ("ShowRegister", "@mod:so/admintool.so#show_register"); ("Info", "@mod:so/admintool.so#m_info");
  ("Level", "@mod:so/admintool.so#x_level"); ("OrdainBM", "@mod:so/admintool.so#tui_ordain_bm");
  ("RetireBM", "@mod:so/admintool.so#tui_retire_bm"); ("ChangeLevel", "@mod:so/admintool.so#x_denylevel");
  ("NewChangeLevel", "@mod:so/admintool.so#x_new_denylevel"); ("NewBoard", "@mod:so/admintool.so#tui_new_board");
  ("ChangeBrd", "@mod:so/admintool.so#tui_edit_board"); ("BoardDel", "@mod:so/admintool.so#d_board");
  ("SysFiles", "@mod:so/admintool.so#a_edits"); ("Wall", "@mod:so/admintool.so#wall");
  ("TitleAdmin", "@mod:so/admintool.so#tui_title_list"); ("MoneyAdmin", "@mod:so/admintool.so#grant_money");
  ("SearchAll", "@mod:so/admintool.so#tui_search_all_boards")]%string.

Fixpoint find_name (name : list Z) (l : list (list Z * list Z)) : option (list Z) :=
  match l with
  | [] => None
  | (n, f) :: l => if bool_decide (name = n) then Some f else find_name name l
  end.
Definition sysconf_funcptr (name : list Z) : option (list Z) := find_name name cmdlist.
Definition sysconf_funcstr (name : list Z) : option (list Z) := find_name name dlmlist.

(** [HAS_PERM] with the level of the user; the level of an item is an [int]. *)
Definition HAS_PERM (userlevel x : Z) : bool := (x =? 0) || negb (Z.land userlevel (u32 x) =? 0).
Definition selectable (userlevel : Z) (m : menuitem_t) : bool := negb ((level m <? 0) || negb (HAS_PERM userlevel (level m))).

(** * What is outside *)

(** What reading the configuration again finds: files, memory, and addresses. *)
Record disk := Disk {
  files : list Z -> option (list Z); garbage : menuitem_t; memory : bool; writable : bool;
  build_at : Z; contents : list Z; loadable : bool; load_at : Z }.

(** Keys, mail, the functions of the menus and the modules. A function may
    change the level of the user. *)
Record env (W : Type) := Env {
  e_getch : W -> Z * W;
  e_refscreen : W -> bool;
  e_chkmail : W -> bool * W;
  e_replies : W -> Z * W;
  e_mentions : W -> Z * W;
  e_notice : W -> bool * W;
  e_call : list Z -> list Z -> Z -> W -> Z * W;
  e_module : list Z -> list Z -> Z -> W -> Z * W;
  e_disk : W -> disk * W }.
Arguments Env {W}.
Arguments e_getch {W}.
Arguments e_refscreen {W}.
Arguments e_chkmail {W}.
Arguments e_replies {W}.
Arguments e_mentions {W}.
Arguments e_notice {W}.
Arguments e_call {W}.
Arguments e_module {W}.
Arguments e_disk {W}.

(** [Ran f a m lv c]: the function that [f] names was called with [a], from the
    item [m] of the configuration [c], when the level of the user was [lv]. *)
Inductive event :=
| Clear
| Title (s : list Z)
| Move (line col : Z)
| Out (s : list Z)
| Status
| Boards
| BoardsInit
| StatusLine
| Report
| Ran (f a : list Z) (m : menuitem_t) (lv : Z) (c : sysconf_t).

(** [gen] counts the configurations; [alive] is false when the last one was
    freed and none was read after it. *)
Record st (W : Type) := St { conf : sysconf_t; gen : nat; alive : bool; userlevel : Z; world : W; log : list event }.
Arguments St {W}.
Arguments conf {W}.
Arguments gen {W}.
Arguments alive {W}.
Arguments userlevel {W}.
Arguments world {W}.
Arguments log {W}.

(** The first item of a menu. *)
Record pm_t := Pm { p_gen : nat; p_at : Z }.

(** A fault, a loop that never ends, the end of the process, and the end of the
    keys that are looked at. *)
Inductive stop := Faulted | Diverged | Exited | Unfinished.

Section Domenu.
Context {W : Type} (e : env W) (depth : nat).

Definition prog (A : Type) : Type := st W -> (A + stop) * st W.
#[local] Instance prog_ret : MRet prog := fun A a s => (inl a, s).
#[local] Instance prog_bind : MBind prog := fun A B f m s =>
  match m s with (inl a, s) => f a s | (inr k, s) => (inr k, s) end.

Definition ending {A} (k : stop) : prog A := fun s => (inr k, s).
Definition reading {A} (f : st W -> outcome A) : prog A := fun s =>
  (match f s with Done a => inl a | Fault => inr Faulted | NoFuel => inr Diverged end, s).
Definition modify (f : st W -> st W) : prog unit := fun s => (inl tt, f s).
Definition get : prog (st W) := fun s => (inl s, s).

Definition with_conf (c : sysconf_t) (s : st W) : st W := St c (gen s) (alive s) (userlevel s) (world s) (log s).
Definition with_world (w : W) (s : st W) : st W := St (conf s) (gen s) (alive s) (userlevel s) w (log s).
Definition logged (ev : event) (s : st W) : st W := St (conf s) (gen s) (alive s) (userlevel s) (world s) (ev :: log s).
Definition emit (ev : event) : prog unit := modify (logged ev).
(** A call that only the world sees. *)
Definition ask {A} (f : W -> A * W) : prog A := fun s => let '(a, w) := f (world s) in (inl a, with_world w s).
Definition permitted (s : st W) (x : Z) : bool := HAS_PERM (userlevel s) x.

(** * Items and strings, of a configuration that is still there *)

Definition item_at (s : st W) (pm : pm_t) (i : Z) : outcome menuitem_t :=
  if alive s && bool_decide (p_gen pm = gen s) then
    let j := p_at pm + i in
    if j <? 0 then Fault else match item (conf s) !! Z.to_nat j with Some m => Done m | None => Fault end
  else Fault.

Definition text_at (s : st W) (p : Z) : outcome (list Z) := if alive s then string_at (conf s) p else Fault.

(** [pm[i] = m], of an item that was read before. *)
Definition with_item (pm : pm_t) (i : Z) (m : menuitem_t) (s : st W) : st W :=
  let c := conf s in
  with_conf (Sysconf (base c) (buf c) (<[Z.to_nat (p_at pm + i) := m]> (item c)) (var c) (len c)) s.

Definition menu_at (name : list Z) (s : st W) : outcome pm_t :=
  if alive s then j ← sysconf_eval name (conf s); Done (Pm (gen s) j) else Fault.

(** * Drawing *)

Definition draw_property (m : menuitem_t) : prog unit :=
  n ← reading (fun s => text_at s (name m));
  if bool_decide (n = bytes "title") then d ← reading (fun s => text_at s (desc m)); emit (Title d)
  else if bool_decide (n = bytes "screen") then
    d ← reading (fun s => text_at s (desc m));
    p ← reading (fun s => sysconf_str d (conf s));
    match p with
    | Some p =>
        _ ← emit (Move (line m) (col m));
        t ← reading (fun s => text_at s p);
        emit (Out (decodestr t))
    | None => mret tt
    end
  else mret tt.

(** The next free place, and the item in its place. An item that is not shown
    has its line set to -1. *)
Definition draw_item (pm : pm_t) (num : Z) (m : menuitem_t) (l c : Z) : prog (Z * Z) :=
  s ← get;
  if (0 <=? line m) && permitted s (level m) then
    let '(l, c) := if line m =? 0 then (l, c) else (line m, col m) in
    _ ← modify (with_item pm num (MenuItem l c (level m) (name m) (desc m) (arg m) (func m)));
    _ ← emit (Move l c);
    d ← reading (fun s => text_at s (desc m));
    _ ← emit (Out (bytes "  " ++ d));
    mret (i32 (l + 1), c)
  else
    let '(l, c) := if 0 <? line m then (line m, col m) else (l, c) in
    _ ← modify (with_item pm num (MenuItem (-1) (col m) (level m) (name m) (desc m) (arg m) (func m)));
    mret (l, c).

Fixpoint draw_loop (fuel : nat) (pm : pm_t) (num l c : Z) : prog Z :=
  match fuel with
  | O => ending Diverged
  | S fuel =>
      m ← reading (fun s => item_at s pm num);
      if level m =? -1 then mret num
      else if level m =? -2 then _ ← draw_property m; draw_loop fuel pm (num + 1) l c
      else '(l, c) ← draw_item pm num m l c; draw_loop fuel pm (num + 1) l c
  end.

Definition draw_menu (pm : pm_t) : prog Z :=
  _ ← emit Clear;
  s ← get;
  draw_loop (length (item (conf s)) + 1) pm 0 3 0.

(** * Searches *)

(** [for (i = 0; i < size; i++) if (f(i)) break;] *)
Fixpoint search (n : nat) (i : Z) (f : Z -> outcome bool) : outcome Z :=
  match n with
  | O => Done i
  | S n => b ← f i; if b : bool then Done i else search n (i + 1) f
  end.
Definition first_of (size : Z) (f : Z -> outcome bool) : outcome Z := search (Z.to_nat size) 0 f.

(** The last one, or [now]. *)
Fixpoint last_of (n : nat) (i now : Z) (f : Z -> outcome bool) : outcome Z :=
  match n with
  | O => Done now
  | S n => b ← f i; last_of n (i + 1) (if b : bool then i else now) f
  end.

(** The loop before every key: down to an item that can be selected, around the
    end. More than one round finds nothing new. *)
Fixpoint skip_down (fuel : nat) (s : st W) (pm : pm_t) (size now : Z) : outcome (Z * menuitem_t) :=
  m ← item_at s pm now;
  if selectable (userlevel s) m then Done (now, m)
  else
    match fuel with
    | O => NoFuel
    | S fuel => let now := now + 1 in skip_down fuel s pm size (if size <=? now then 0 else now)
    end.

Fixpoint skip_up (fuel : nat) (s : st W) (pm : pm_t) (size now : Z) : outcome Z :=
  m ← item_at s pm now;
  if selectable (userlevel s) m then Done now
  else
    match fuel with
    | O => NoFuel
    | S fuel => skip_up fuel s pm size (if 0 <? now then now - 1 else size - 1)
    end.

(** [KEY_PGDN]: upwards without an end. *)
Fixpoint up_to_item (fuel : nat) (s : st W) (pm : pm_t) (now : Z) : outcome Z :=
  m ← item_at s pm now;
  if selectable (userlevel s) m then Done now
  else match fuel with O => NoFuel | S fuel => up_to_item fuel s pm (now - 1) end.

(** Two rounds of the menu. *)
Definition rounds (size : Z) : nat := 2 * Z.to_nat size + 2.

Definition right_of (s : st W) (pm : pm_t) (m : menuitem_t) (i : Z) : outcome bool :=
  x ← item_at s pm i;
  Done ((line x =? line m) && (0 <=? level x) && (col m <? col x) && permitted s (level x)).

Definition left_of (s : st W) (pm : pm_t) (m : menuitem_t) (i : Z) : outcome bool :=
  x ← item_at s pm i;
  if (line x =? line m) && (0 <=? level x) && (col x <? col m) && permitted s (level x) then Done true
  else f ← text_at s (func x); Done (bool_decide (f = bytes "LeaveBBS")).

(** [pm[i].name[0]], a [char]. *)
Definition initial (s : st W) (m : menuitem_t) : outcome Z := t ← text_at s (name m); Done (schar (default 0 (head t))).

Definition has_key (s : st W) (pm : pm_t) (ch : Z) (i : Z) : outcome bool :=
  x ← item_at s pm i;
  if 0 <? line x then n ← initial s x; Done ((ch =? n) && permitted s (level x)) else Done false.

Definition is_mail (s : st W) (pm : pm_t) (i : Z) : outcome bool :=
  x ← item_at s pm i; if 0 <? line x then n ← initial s x; Done (n =? 77) else Done false.

(** * Modules *)

Fixpoint contains (t s : list Z) : bool :=
  bool_decide (t `prefix_of` s) || match s with [] => false | _ :: s => contains t s end.

(** The module and the symbol of [@mod:module#symbol]. The name of the module
    starts at the sixth byte wherever the mark is. *)
Definition module_of (str : list Z) : option (list Z * list Z) :=
  let b := take 127 str in
  if contains (bytes "@mod:") b then
    let p := drop 5 b in
    Some (until (Z.eqb 35) p,
          match drop (length (until (Z.eqb 35) p)) p with _ :: sym => sym | [] => bytes "mod_main" end)
  else None.

Definition call (f : Z -> W -> Z * W) : prog unit := fun s =>
  let '(lv, w) := f (userlevel s) (world s) in (inl tt, St (conf s) (gen s) (alive s) lv w (log s)).

Definition exec_mbem (str : list Z) : prog unit :=
  match module_of str with Some (path, sym) => call (e_module e path sym) | None => mret tt end.

(** * Menus *)

(** [sysconf_load(true)]: the result is not looked at. *)
Definition sysconf_load : prog unit :=
  d ← ask (e_disk e);
  r ← reading (fun _ => sysconf_build (files d) (garbage d) depth (bytes "etc/sysconf.ini") (memory d) (writable d) (build_at d) (contents d));
  modify (fun s => match r with
                   | (_, Some img) =>
                       if loadable d then St (sysconf_load_image img (load_at d)) (S (gen s)) true (userlevel s) (world s) (log s)
                       else St (conf s) (S (gen s)) false (userlevel s) (world s) (log s)
                   | (_, None) => St (conf s) (S (gen s)) false (userlevel s) (world s) (log s)
                   end).

Definition redraw (pm : pm_t) : prog unit := _ ← draw_menu pm; _ ← emit Status; emit Boards.

Section Turn.
(** The rest of a menu: its name, its first item, its size and the current
    item. *)
Context (loop : list Z -> pm_t -> Z -> Z -> prog Z).

Definition has_news : prog bool :=
  m ← ask (e_chkmail e);
  if m : bool then mret true
  else
    r ← ask (e_replies e);
    if negb (r =? 0) then mret true else t ← ask (e_mentions e); mret (negb (t =? 0)).

Definition open_menu (menu_name : list Z) : prog Z :=
  s ← get;
  if Z.of_nat (length (item (conf s))) <=? 0 then mret (-1)
  else
    pm ← reading (menu_at menu_name);
    size ← draw_menu pm;
    news ← if bool_decide (menu_name = bytes "TOPMENU") then has_news else mret false;
    now ← if news : bool then reading (fun s => last_of (Z.to_nat size) 0 0 (is_mail s pm)) else mret 0;
    _ ← emit Status;
    _ ← emit Boards;
    loop menu_name pm size now.

Definition run (f target a : list Z) (m : menuitem_t) : prog unit :=
  s ← get;
  _ ← emit (Ran f a m (userlevel s) (conf s));
  if bool_decide (f = bytes "domenu") then _ ← open_menu a; mret tt
  else if bool_decide (f = bytes "RunMBEM") then exec_mbem a
  else call (e_call e target a).

(** Enter: the function of the item. A name that is not known does nothing. *)
Definition enter (menu_name : list Z) (pm : pm_t) (size now : Z) (m : menuitem_t) : prog Z :=
  a ← reading (fun s => text_at s (arg m));
  if bool_decide (a = bytes "..") then mret 0
  else
    f ← reading (fun s => text_at s (func m));
    match sysconf_funcptr f with
    | Some target => _ ← run f target a m; _ ← redraw pm; loop menu_name pm size now
    | None =>
        match sysconf_funcstr f with
        | Some str =>
            s ← get;
            _ ← emit (Ran f a m (userlevel s) (conf s));
            _ ← exec_mbem str; _ ← redraw pm; loop menu_name pm size now
        | None => loop menu_name pm size now
        end
    end.

Definition menu_key (ch : Z) (menu_name : list Z) (pm : pm_t) (size now : Z) (m : menuitem_t) : prog Z :=
  let again := loop menu_name pm size in
  if ch =? EOF then
    s ← get;
    if e_refscreen e (world s) then _ ← redraw pm; again now else ending Exited
  else if ch =? KEY_RIGHT then
    i ← reading (fun s => first_of size (right_of s pm m));
    if i <? size then again i else enter menu_name pm size now m
  else if (ch =? 10) || (ch =? 13) then enter menu_name pm size now m
  else if ch =? KEY_LEFT then
    i ← reading (fun s => first_of size (left_of s pm m));
    if i <? size then again i else mret 0
  else if ch =? KEY_DOWN then again (now + 1)
  else if ch =? KEY_UP then
    now ← reading (fun s => skip_up (rounds size) s pm size (now - 1)); again now
  else if ch =? KEY_PGUP then again 0
  else if ch =? KEY_PGDN then
    now ← reading (fun s => up_to_item (rounds size) s pm (size - 1)); again now
  else if ch =? 126 then
    s ← get;
    if permitted s PERM_ESYSFILE then
      _ ← sysconf_load;
      _ ← emit Report;
      pm ← reading (menu_at menu_name);
      _ ← emit BoardsInit;
      size ← draw_menu pm;
      loop menu_name pm size 0
    else again now
  else if ch =? 33 then if bool_decide (menu_name = bytes "TOPMENU") then again now else mret 0
  else if ch =? Ctrl 84 then
    full ← ask (e_notice e);
    if full : bool then _ ← draw_menu pm; _ ← emit Boards; again now else _ ← emit StatusLine; again now
  else
    let ch := if (97 <=? ch) && (ch <=? 122) then ch - 97 + 65 else ch in
    i ← reading (fun s => first_of size (has_key s pm ch));
    again (if i <? size then i else now).

(** One key. *)
Definition turn (menu_name : list Z) (pm : pm_t) (size now : Z) : prog Z :=
  '(now, m) ← reading (fun s => skip_down (rounds size) s pm size now);
  _ ← emit (Move (line m) (col m));
  _ ← emit (Out (bytes ">"));
  ch ← ask (e_getch e);
  _ ← emit (Move (line m) (col m));
  _ ← emit (Out (bytes " "));
  menu_key ch menu_name pm size now m.
End Turn.

Fixpoint menu_loop (fuel : nat) (menu_name : list Z) (pm : pm_t) (size now : Z) : prog Z :=
  match fuel with
  | O => ending Unfinished
  | S fuel => turn (menu_loop fuel) menu_name pm size now
  end.

(** At most [fuel] keys in one menu and those below it. *)
Definition domenu (fuel : nat) (menu_name : list Z) : prog Z := open_menu (menu_loop fuel) menu_name.

(** * What is called *)

#[local] Opaque sysconf_funcptr sysconf_funcstr.

(** The item is one of the configuration, its level permits the user, and its
    strings name the function and its argument. *)
Definition guarded (ev : event) : Prop :=
  match ev with
  | Ran f a m lv c =>
      m ∈ item c /\ 0 <= level m /\ HAS_PERM lv (level m) = true /\
      string_at c (func m) = Done f /\ string_at c (arg m) = Done a /\
      (is_Some (sysconf_funcptr f) \/ is_Some (sysconf_funcstr f))
  | _ => True
  end.

Definition adds {A} (s : st W) (p : prog A) : Prop :=
  exists new, log (p s).2 = new ++ log s /\ Forall guarded new.

Lemma adds_bind {A B} s (p : prog A) (q : A -> prog B) :
  adds s p -> (forall a s', p s = (inl a, s') -> adds s' (q a)) -> adds s (p ≫= q).
Proof.
  intros (n1 & H1 & G1) Hq. unfold adds, mbind, prog_bind. destruct (p s) as [[a|k] s'] eqn:E; [|by exists n1].
  destruct (Hq a s' eq_refl) as (n2 & H2 & G2). exists (n2 ++ n1). cbn in H1. rewrite H2, H1, app_assoc.
  split; [done|]. by apply Forall_app.
Qed.

Lemma adds_quiet {A} s (p : prog A) : log (p s).2 = log s -> adds s p.
Proof. intros H. exists []. by split. Qed.

Lemma adds_emit s ev : guarded ev -> adds s (emit ev).
Proof. intros H. exists [ev]. split; [done|]. by repeat constructor. Qed.

Lemma adds_ask {A} s (f : W -> A * W) : adds s (ask f).
Proof. apply adds_quiet. unfold ask. by destruct (f (world s)). Qed.

Lemma adds_call s f : adds s (call f).
Proof. apply adds_quiet. unfold call. by destruct (f (userlevel s) (world s)). Qed.

Lemma reading_done {A} (f : st W -> outcome A) s a s' : reading f s = (inl a, s') -> f s = Done a /\ s' = s.
Proof. unfold reading. destruct (f s); by inversion 1. Qed.

Ltac quiet := first [done | apply adds_emit; done | apply adds_ask | apply adds_call | apply adds_quiet; reflexivity].
Ltac step := first
  [ quiet
  | match goal with |- adds _ (_ ≫= _) => apply adds_bind; [|let H := fresh "Hs" in intros ?a ?s H; try (apply reading_done in H as [H ->])] end
  | match goal with |- adds _ (let '(_, _) := ?x in _) => destruct x end
  | match goal with |- adds _ (if ?b then _ else _) => let E := fresh "Eif" in destruct b eqn:E end
  | match goal with |- adds _ (match ?x with _ => _ end) => let E := fresh "Em" in destruct x eqn:E end ].
Ltac steps := repeat step.

Lemma draw_property_adds s m : adds s (draw_property m).
Proof. unfold draw_property. steps. Qed.

Lemma draw_item_adds s pm num m l c : adds s (draw_item pm num m l c).
Proof. unfold draw_item. steps. Qed.

Lemma draw_loop_adds fuel : forall s pm num l c, adds s (draw_loop fuel pm num l c).
Proof.
  induction fuel as [|fuel IH]; intros s pm num l c; cbn [draw_loop]; [quiet|].
  steps; eauto using draw_property_adds, draw_item_adds.
Qed.

Lemma draw_menu_adds s pm : adds s (draw_menu pm).
Proof. unfold draw_menu. steps. apply draw_loop_adds. Qed.

Lemma redraw_adds s pm : adds s (redraw pm).
Proof. unfold redraw. steps. apply draw_menu_adds. Qed.

Lemma exec_mbem_adds s str : adds s (exec_mbem str).
Proof. unfold exec_mbem. steps. Qed.

Lemma sysconf_load_adds s : adds s sysconf_load.
Proof.
  unfold sysconf_load. steps. apply adds_quiet. cbn. repeat case_match; done.
Qed.

Section Guard.
Context (loop : list Z -> pm_t -> Z -> Z -> prog Z) (loop_adds : forall n pm size now s, adds s (loop n pm size now)).

Lemma open_menu_adds s n : adds s (open_menu loop n).
Proof. unfold open_menu, has_news. steps; eauto using draw_menu_adds. Qed.

Lemma run_adds s f target a m : guarded (Ran f a m (userlevel s) (conf s)) -> adds s (run loop f target a m).
Proof.
  intros Hg. unfold run. step; [quiet|]. inversion Hs; subst. step; [by apply adds_emit|].
  steps; eauto using open_menu_adds, exec_mbem_adds.
Qed.

(** The item that Enter is pressed on can be selected. *)
Definition chosen (s : st W) (m : menuitem_t) : Prop := m ∈ item (conf s) /\ selectable (userlevel s) m = true.

Lemma chosen_guarded s m f a : chosen s m -> text_at s (func m) = Done f -> text_at s (arg m) = Done a ->
  is_Some (sysconf_funcptr f) \/ is_Some (sysconf_funcstr f) -> guarded (Ran f a m (userlevel s) (conf s)).
Proof.
  unfold text_at, chosen, selectable. intros [Hm Hsel] Hf Ha Hn. destruct (alive s); [|done].
  apply negb_true_iff, orb_false_iff in Hsel as [Hl Hp]. apply negb_false_iff in Hp. cbn. repeat split; try done. lia.
Qed.

Lemma enter_adds s n pm size now m : chosen s m -> adds s (enter loop n pm size now m).
Proof.
  intros Hc. unfold enter. step; [quiet|]. step; [quiet|]. step; [quiet|].
  destruct (sysconf_funcptr a0) as [t|] eqn:Et.
  - step; [apply run_adds, (chosen_guarded _ _ _ _ Hc Hs0 Hs); left; by exists t|]. steps; auto using redraw_adds.
  - destruct (sysconf_funcstr a0) as [t|] eqn:Es; [|apply loop_adds].
    step; [quiet|]. injection Hs1 as <- <-. step; [apply adds_emit, (chosen_guarded _ _ _ _ Hc Hs0 Hs); right; by exists t|].
    steps; auto using redraw_adds, exec_mbem_adds.
Qed.

Lemma menu_key_adds s ch n pm size now m : chosen s m -> adds s (menu_key loop ch n pm size now m).
Proof.
  intros Hc. unfold menu_key. steps; auto using redraw_adds, draw_menu_adds, sysconf_load_adds, enter_adds.
Qed.

Lemma item_at_in s pm i m : item_at s pm i = Done m -> m ∈ item (conf s).
Proof.
  unfold item_at. destruct (_ && _); [|done]. cbn zeta. destruct (_ <? 0); [done|].
  destruct (item (conf s) !! _) as [x|] eqn:E; [|done]. intros H. injection H as <-. by eapply list_elem_of_lookup_2.
Qed.

Lemma skip_down_chosen fuel : forall s pm size now i m, skip_down fuel s pm size now = Done (i, m) -> chosen s m.
Proof.
  induction fuel as [|fuel IH]; intros s pm size now i m H; cbn [skip_down] in H;
    destruct (item_at s pm now) as [x| |] eqn:E; try done; cbn [mbind outcome_bind] in H;
    destruct (selectable (userlevel s) x) eqn:Es.
  1, 3: injection H as _ <-; split; [by eapply item_at_in|done].
  - done.
  - by eapply IH.
Qed.

Lemma turn_adds s n pm size now : adds s (turn loop n pm size now).
Proof.
  unfold turn. step; [quiet|]. destruct a as [i m]. apply skip_down_chosen in Hs as [Hm Hsel].
  step; [quiet|]. inversion Hs; subst. step; [quiet|]. inversion Hs0; subst. step; [quiet|].
  unfold ask in Hs1. destruct (e_getch _ _) as [ch w]. inversion Hs1; subst.
  step; [quiet|]. inversion Hs2; subst. step; [quiet|]. inversion Hs3; subst. by apply menu_key_adds.
Qed.
End Guard.

Lemma menu_loop_adds fuel : forall n pm size now s, adds s (menu_loop fuel n pm size now).
Proof. induction fuel as [|fuel IH]; intros n pm size now s; [quiet|]. by apply turn_adds. Qed.
End Domenu.

(** * Well-formed menus *)

Fixpoint menu_items (l : list menuitem_t) : option (list menuitem_t) :=
  match l with
  | [] => None
  | m :: l => if level m =? -1 then Some [] else match menu_items l with Some ms => Some (m :: ms) | None => None end
  end.

(** A menu has an end; it starts with one of its properties; and it has an item
    that everybody may select. *)
Definition menu_okb (c : sysconf_t) (name : list Z) : bool :=
  match sysconf_eval name c with
  | Done b =>
      (0 <=? b) && match menu_items (drop (Z.to_nat b) (item c)) with
                   | Some (m :: ms) => (level m <? 0) && existsb (fun m => level m =? 0) ms
                   | _ => false
                   end
  | _ => false
  end.

Definition is_done {A} (o : outcome A) : bool := match o with Done _ => true | _ => false end.

(** The strings of an item can be read, and what it links to is a menu. *)
Definition item_okb (c : sysconf_t) (m : menuitem_t) : bool :=
  is_done (string_at c (name m)) && is_done (string_at c (desc m)) &&
  match string_at c (func m), string_at c (arg m) with
  | Done f, Done a => negb (bool_decide (f = bytes "domenu")) || bool_decide (a = bytes "..") || menu_okb c a
  | _, _ => false
  end.

Definition menus_okb (c : sysconf_t) : bool :=
  forallb (item_okb c) (item c) && forallb (fun v => is_done (string_at c (key v)) && is_done (string_at c (str v))) (var c).

Section Safe.
Context {W : Type} (e : env W) (depth : nat) (c0 : sysconf_t) (g : nat).
Context (c0_ok : menus_okb c0 = true).
Definition lowly (lv : Z) : Prop := HAS_PERM lv PERM_ESYSFILE = false.
Context (calls_lowly : forall f a lv w, lowly lv -> lowly (e_call e f a lv w).1)
        (modules_lowly : forall p f lv w, lowly lv -> lowly (e_module e p f lv w).1).

(** Drawing changes places only. *)
Definition same_item (m m0 : menuitem_t) : Prop :=
  level m = level m0 /\ name m = name m0 /\ desc m = desc m0 /\ arg m = arg m0 /\ func m = func m0.
Definition like (c : sysconf_t) : Prop :=
  base c = base c0 /\ buf c = buf c0 /\ var c = var c0 /\ Forall2 same_item (item c) (item c0).

Definition inv (s : st W) : Prop := alive s = true /\ gen s = g /\ lowly (userlevel s) /\ like (conf s).

(** The [size] items of a menu from the one at [b] on; [k] is an item that
    everybody may select. *)
Record menu (b size k : Z) : Prop := Menu {
  m_from : 0 <= b;
  m_open : 0 < k < size;
  m_end : exists m, item c0 !! Z.to_nat (b + size) = Some m /\ level m = -1;
  m_item : forall i, 0 <= i < size -> exists m, item c0 !! Z.to_nat (b + i) = Some m /\ level m <> -1;
  m_first : exists m, item c0 !! Z.to_nat b = Some m /\ level m < 0;
  m_zero : exists m, item c0 !! Z.to_nat (b + k) = Some m /\ level m = 0 }.

Lemma menu_items_spec l ms : menu_items l = Some ms ->
  exists m rest, l = ms ++ m :: rest /\ level m = -1 /\ Forall (fun m => level m <> -1) ms.
Proof.
  revert ms. induction l as [|m l IH]; intros ms H; cbn in H; [done|].
  destruct (Z.eqb_spec (level m) (-1)) as [Hm|Hm]; [injection H as <-; by exists m, l|].
  destruct (menu_items l) as [ms'|]; [|done]. injection H as <-.
  destruct (IH ms' eq_refl) as (x & r & -> & Hx & Hf). exists x, r. split; [done|]. split; [done|]. by constructor.
Qed.

Lemma menu_okb_menu n : menu_okb c0 n = true -> exists b size k, sysconf_eval n c0 = Done b /\ menu b size k.
Proof.
  unfold menu_okb. destruct (sysconf_eval n c0) as [b| |]; [|done..]. intros H. apply andb_true_iff in H as [Hb H].
  destruct (menu_items _) as [[|m ms]|] eqn:E; [done| |done].
  apply andb_true_iff in H as [Hm Hz]. apply existsb_exists in Hz as (z & Hz & Hlz).
  apply list_elem_of_In, list_elem_of_lookup_1 in Hz as [j Hj].
  destruct (menu_items_spec _ _ E) as (x & r & Hd & Hx & Hf). pose proof (lookup_lt_Some _ _ _ Hj) as Hlt.
  assert (forall i, 0 <= i -> item c0 !! Z.to_nat (b + i) = ((m :: ms) ++ x :: r) !! Z.to_nat i) as Hl.
  { intros i Hi. rewrite <- Hd, lookup_drop. f_equal. lia. }
  exists b, (Z.of_nat (length (m :: ms))), (Z.of_nat (S j)). split; [done|]. cbn [length] in *. split; [lia|lia| | | |].
  - exists x. split; [|done]. rewrite Hl by lia. rewrite Nat2Z.id. by rewrite lookup_app_r, Nat.sub_diag by (cbn; lia).
  - intros i Hi. rewrite Hl by lia. rewrite lookup_app_l by (cbn; lia).
    destruct (lookup_lt_is_Some_2 (m :: ms) (Z.to_nat i)) as [y Hy]; [cbn; lia|]. exists y. split; [done|].
    by apply (Forall_lookup_1 _ _ _ _ Hf Hy).
  - exists m. replace b with (b + 0) by lia. rewrite Hl by lia. split; [done|]. lia.
  - exists z. rewrite Hl by lia. rewrite Nat2Z.id, lookup_app_l by (cbn; lia). by split; [|lia].
Qed.

Lemma item_ok j m : item c0 !! j = Some m -> item_okb c0 m = true.
Proof.
  intros H. apply andb_true_iff in c0_ok as [Hi _]. rewrite forallb_forall in Hi. apply Hi.
  by apply list_elem_of_In, list_elem_of_lookup_2 with j.
Qed.

(** ** Reading *)

Lemma text_like s p t : inv s -> string_at c0 p = Done t -> text_at s p = Done t.
Proof. intros (Ha & _ & _ & Hb & Hf & _) H. unfold text_at, string_at in *. by rewrite Ha, Hb, Hf. Qed.

Lemma find_key_like s k vs : inv s -> find_key k vs (conf s) = find_key k vs c0.
Proof.
  intros (_ & _ & _ & Hb & Hf & _). induction vs as [|v vs IH]; [done|]. cbn. unfold string_at. rewrite Hb, Hf, IH. done.
Qed.

Lemma keys_found k : exists r, find_key k (var c0) c0 = Done r /\
  match r with Some v => exists t, string_at c0 (str v) = Done t | None => True end.
Proof.
  apply andb_true_iff in c0_ok as [_ Hv]. revert Hv. generalize (var c0) as vs.
  induction vs as [|v vs IH]; intros H; [by exists None|]. cbn [forallb] in H. apply andb_true_iff in H as [Hv H].
  apply andb_true_iff in Hv as [Hk Hs]. cbn [find_key]. destruct (string_at c0 (key v)) as [t| |]; [|done..].
  cbn [mbind outcome_bind]. destruct (string_at c0 (str v)) as [u| |] eqn:Eu; [|done..].
  destruct (bool_decide _) eqn:E; [exists (Some v); split; [done|by exists u]|by apply IH].
Qed.

Lemma menu_at_like s n b : inv s -> sysconf_eval n c0 = Done b -> menu_at n s = Done (Pm g b).
Proof.
  intros Hs H. pose proof Hs as (Ha & Hg & _ & _ & _ & Hv & _). unfold menu_at, sysconf_eval in *.
  by rewrite Ha, Hv, find_key_like, H, Hg.
Qed.

Lemma item_like s b i m0 : inv s -> 0 <= b + i -> item c0 !! Z.to_nat (b + i) = Some m0 ->
  exists m, item_at s (Pm g b) i = Done m /\ same_item m m0.
Proof.
  intros (Ha & Hg & _ & _ & _ & _ & Hf) Hi Hm. unfold item_at. rewrite Ha, Hg. cbn [p_gen p_at]. rewrite bool_decide_true by done.
  cbn [andb]. destruct (Z.ltb_spec (b + i) 0); [lia|].
  destruct (Forall2_lookup_r _ _ _ _ _ Hf Hm) as (m & -> & Hs). by exists m.
Qed.

Definition node (m : menuitem_t) : Prop := exists j m0, item c0 !! j = Some m0 /\ same_item m m0.

Lemma node_texts s m : inv s -> node m -> exists n d f a,
  text_at s (name m) = Done n /\ text_at s (desc m) = Done d /\ text_at s (func m) = Done f /\ text_at s (arg m) = Done a /\
  (f = bytes "domenu" -> a <> bytes ".." -> menu_okb c0 a = true).
Proof.
  intros Hs (j & m0 & Hm & _ & Hn & Hd & Ha & Hf). apply item_ok in Hm. unfold item_okb in Hm. rewrite Hn, Hd, Ha, Hf.
  apply andb_true_iff in Hm as [Hnd Hm]. apply andb_true_iff in Hnd as [Hin Hid].
  destruct (string_at c0 (name m0)) as [n| |] eqn:En; [|done..]. destruct (string_at c0 (desc m0)) as [d| |] eqn:Ed; [|done..].
  destruct (string_at c0 (func m0)) as [f| |] eqn:Ef; [|done..]. destruct (string_at c0 (arg m0)) as [a| |] eqn:Ea; [|done..].
  exists n, d, f, a. repeat split; try (by apply text_like).
  intros -> Hne. rewrite bool_decide_true, (bool_decide_false _ Hne) in Hm by done. done.
Qed.

(** ** Programs *)

Definition safe {A} (s : st W) (p : prog A) (Q : A -> Prop) : Prop :=
  match p s with
  | (inl a, s') => inv s' /\ Q a
  | (inr k, _) => k = Exited \/ k = Unfinished
  end.

Lemma safe_bind {A B} s (p : prog A) (q : A -> prog B) Q R :
  safe s p Q -> (forall a s', inv s' -> Q a -> safe s' (q a) R) -> safe s (prog_bind _ _ q p) R.
Proof. unfold safe, prog_bind. destruct (p s) as [[a|k] s']; [|done]. intros [Hs Ha] H. by apply H. Qed.

Lemma safe_reading {A B} s (f : st W -> outcome A) (q : A -> prog B) a R :
  f s = Done a -> safe s (q a) R -> safe s (prog_bind _ _ q (reading f)) R.
Proof. unfold safe, prog_bind, reading. by intros ->. Qed.

Lemma safe_get {B} s (q : st W -> prog B) R : safe s (q s) R -> safe s (prog_bind _ _ q get) R.
Proof. done. Qed.

Lemma safe_ret {A} s (a : A) (Q : A -> Prop) : inv s -> Q a -> safe s (prog_ret _ a) Q.
Proof. by split. Qed.

Lemma safe_emit s ev : inv s -> safe s (emit ev) (fun _ => True).
Proof. by split. Qed.

Lemma safe_modify s f : inv (f s) -> safe s (modify f) (fun _ => True).
Proof. by split. Qed.

Lemma safe_ask {A} s (f : W -> A * W) : inv s -> safe s (ask f) (fun _ => True).
Proof. intros H. unfold safe, ask. by destruct (f (world s)). Qed.

Lemma safe_call s f : inv s -> (forall w, lowly (f (userlevel s) w).1) -> safe s (call f) (fun _ => True).
Proof.
  intros (Ha & Hg & Hl & Hc) Hf. unfold safe, call. specialize (Hf (world s)). destruct (f (userlevel s) (world s)) as [lv w].
  split; [|done]. by split; [|split; [|split]].
Qed.

Lemma safe_mono {A} s (p : prog A) (Q R : A -> Prop) : safe s p Q -> (forall a, Q a -> R a) -> safe s p R.
Proof. unfold safe. destruct (p s) as [[a|k] s']; [|done]. intros [? ?] HQ. auto. Qed.

Tactic Notation "emitted" ident(s) ident(H) := eapply safe_bind; [by apply safe_emit|]; intros _ s H _.

(** ** Drawing *)

Lemma with_item_inv s b i m0 m : inv s -> item c0 !! Z.to_nat (b + i) = Some m0 -> same_item m m0 ->
  inv (with_item (Pm g b) i m s).
Proof.
  intros (Ha & Hg & Hl & Hb & Hu & Hv & Hf) Hm Hsame. split; [done|]. split; [done|]. split; [done|].
  split; [done|]. split; [done|]. split; [done|]. cbn [with_item with_conf conf item p_at].
  rewrite <- (list_insert_id (item c0) (Z.to_nat (b + i)) m0 Hm). by apply Forall2_insert.
Qed.

Lemma draw_property_safe s m : inv s -> node m -> safe s (draw_property m) (fun _ => True).
Proof.
  intros Hs Hm. destruct (node_texts s m Hs Hm) as (n & d & f & a & Hn & Hd & _). unfold draw_property.
  eapply safe_reading; [exact Hn|]. destruct (bool_decide _).
  { eapply safe_reading; [exact Hd|]. by apply safe_emit. }
  destruct (bool_decide _); [|by apply safe_ret].
  eapply safe_reading; [exact Hd|]. destruct (keys_found d) as (r & Hr & Ht).
  eapply safe_reading.
  { unfold sysconf_str. pose proof Hs as (_ & _ & _ & _ & _ & Hv & _). rewrite Hv, find_key_like, Hr by done. done. }
  destruct r as [v|]; [|by apply safe_ret]. destruct Ht as [t Ht]. emitted s2 H2.
  eapply safe_reading; [by apply text_like|]. by apply safe_emit.
Qed.

Lemma draw_item_safe s b i m0 m l c : inv s -> item c0 !! Z.to_nat (b + i) = Some m0 -> same_item m m0 ->
  safe s (draw_item (Pm g b) i m l c) (fun _ => True).
Proof.
  intros Hs Hm Hsame. unfold draw_item. apply safe_get. destruct (_ && _).
  - destruct (if line m =? 0 then _ else _) as [l' c'].
    eapply safe_bind; [apply safe_modify, with_item_inv with m0; done|]. intros _ s1 H1 _. emitted s2 H2.
    destruct (node_texts s2 m H2 ltac:(by exists (Z.to_nat (b + i)), m0)) as (n & d & f & a & _ & Hd & _).
    eapply safe_reading; [exact Hd|]. emitted s3 H3. by apply safe_ret.
  - destruct (if 0 <? line m then _ else _) as [l' c'].
    eapply safe_bind; [apply safe_modify, with_item_inv with m0; done|]. intros _ s1 H1 _. by apply safe_ret.
Qed.

Section Of_menu.
Context (b size k : Z) (Hmenu : menu b size k).

Lemma draw_loop_safe fuel : forall s i l c, inv s -> 0 <= i <= size -> size - i < Z.of_nat fuel ->
  safe s (draw_loop fuel (Pm g b) i l c) (fun n => n = size).
Proof.
  pose proof (m_from _ _ _ Hmenu) as Hb.
  induction fuel as [|fuel IH]; intros s i l c Hs Hi Hfuel; [lia|]. cbn [draw_loop].
  destruct (Z.eq_dec i size) as [->|Hne].
  - destruct (m_end _ _ _ Hmenu) as (m0 & Hm & Hl). destruct (item_like s b size m0 Hs ltac:(lia) Hm) as (m & Hat & Hsame).
    eapply safe_reading; [exact Hat|]. destruct Hsame as [-> _]. rewrite Hl. by apply safe_ret.
  - destruct (m_item _ _ _ Hmenu i ltac:(lia)) as (m0 & Hm & Hl). destruct (item_like s b i m0 Hs ltac:(lia) Hm) as (m & Hat & Hsame).
    eapply safe_reading; [exact Hat|]. pose proof Hsame as [Hlv _].
    destruct (Z.eqb_spec (level m) (-1)); [lia|]. destruct (Z.eqb_spec (level m) (-2)).
    + eapply safe_bind; [apply draw_property_safe; [done|by exists (Z.to_nat (b + i)), m0]|]. intros _ s1 H1 _. apply IH; [done|lia|lia].
    + eapply safe_bind; [by apply draw_item_safe with m0|]. intros [l' c'] s1 H1 _. apply IH; [done|lia|lia].
Qed.

Lemma draw_menu_safe s : inv s -> safe s (draw_menu (Pm g b)) (fun n => n = size).
Proof.
  intros Hs. unfold draw_menu. emitted s2 H2. apply safe_get. apply draw_loop_safe; [done| |].
  - pose proof (m_open _ _ _ Hmenu). lia.
  - destruct (m_end _ _ _ Hmenu) as (m & Hm & _). apply lookup_lt_Some in Hm. pose proof (m_from _ _ _ Hmenu).
    destruct H2 as (_ & _ & _ & _ & _ & _ & Hf). apply Forall2_length in Hf. pose proof (m_open _ _ _ Hmenu). lia.
Qed.

Lemma redraw_safe s : inv s -> safe s (redraw (Pm g b)) (fun _ => True).
Proof.
  intros Hs. unfold redraw. eapply safe_bind; [by apply draw_menu_safe|]. intros n s1 H1 _. emitted s2 H2. by apply safe_emit.
Qed.

(** ** Searches *)

Lemma search_total n : forall i f, (forall j, i <= j < i + Z.of_nat n -> exists v, f j = Done v) ->
  exists r, search n i f = Done r /\ i <= r <= i + Z.of_nat n.
Proof.
  induction n as [|n IH]; intros i f Hf; cbn [search]; [exists i; split; [done|lia]|].
  destruct (Hf i ltac:(lia)) as [[] Hv]; rewrite Hv; cbn [mbind outcome_bind]; [exists i; split; [done|lia]|].
  destruct (IH (i + 1) f) as (r & Hr & Hle); [intros j Hj; apply Hf; lia|]. exists r. split; [done|lia].
Qed.

Lemma first_total f : (forall j, 0 <= j < size -> exists v, f j = Done v) -> exists r, first_of size f = Done r /\ 0 <= r <= size.
Proof.
  intros Hf. pose proof (m_open _ _ _ Hmenu).
  destruct (search_total (Z.to_nat size) 0 f) as (r & Hr & Hle); [intros j Hj; apply Hf; lia|]. exists r. split; [done|lia].
Qed.

Lemma last_total n : forall i now f, (forall j, i <= j < i + Z.of_nat n -> exists v, f j = Done v) ->
  exists r, last_of n i now f = Done r /\ (r = now \/ i <= r < i + Z.of_nat n).
Proof.
  induction n as [|n IH]; intros i now f Hf; cbn [last_of]; [exists now; split; [done|by left]|].
  destruct (Hf i ltac:(lia)) as [v Hv]; rewrite Hv; cbn [mbind outcome_bind].
  destruct (IH (i + 1) (if v then i else now) f) as (r & Hr & Hle); [intros j Hj; apply Hf; lia|].
  exists r. split; [done|]. destruct v; lia.
Qed.

Lemma selectable_level lv m : selectable lv m = true -> 0 <= level m.
Proof. unfold selectable. intros H. apply negb_true_iff, orb_false_iff in H as [H _]. lia. Qed.

Lemma selectable_zero lv m : level m = 0 -> selectable lv m = true.
Proof. unfold selectable, HAS_PERM. by intros ->. Qed.

Lemma entry s i : inv s -> 0 <= i <= size -> exists m, item_at s (Pm g b) i = Done m /\ node m /\
  (i = 0 \/ i = size -> level m < 0) /\ (i = k -> level m = 0).
Proof.
  intros Hs Hi. pose proof (m_from _ _ _ Hmenu). pose proof (m_open _ _ _ Hmenu).
  assert (exists m0, item c0 !! Z.to_nat (b + i) = Some m0) as [m0 Hm].
  { destruct (Z.eq_dec i size) as [->|Hne]; [destruct (m_end _ _ _ Hmenu) as (x & Hx & _); by exists x|].
    destruct (m_item _ _ _ Hmenu i ltac:(lia)) as (x & Hx & _). by exists x. }
  destruct (item_like s b i m0 Hs ltac:(lia) Hm) as (m & Hat & Hsame). pose proof Hsame as [Hl _].
  exists m. split; [done|]. split; [by exists (Z.to_nat (b + i)), m0|]. rewrite Hl. split.
  - intros [-> | ->].
    + destruct (m_first _ _ _ Hmenu) as (x & Hx & Hlx). rewrite Z.add_0_r in Hm. rewrite Hm in Hx. by injection Hx as <-.
    + destruct (m_end _ _ _ Hmenu) as (x & Hx & Hlx). rewrite Hm in Hx. injection Hx as <-. lia.
  - intros ->. destruct (m_zero _ _ _ Hmenu) as (x & Hx & Hlx). rewrite Hm in Hx. by injection Hx as <-.
Qed.

Lemma skip_down_total fuel : forall s now, inv s -> 0 <= now <= size ->
  (if now <=? k then k - now else size + 1 - now + k) <= Z.of_nat fuel ->
  exists i m, skip_down fuel s (Pm g b) size now = Done (i, m) /\ 0 < i < size /\ node m.
Proof.
  pose proof (m_open _ _ _ Hmenu).
  induction fuel as [|fuel IH]; intros s now Hs Hn Hfuel; cbn [skip_down];
    destruct (entry s now Hs Hn) as (m & Hat & Hnode & Hedge & Hk); rewrite Hat; cbn [mbind outcome_bind];
    (destruct (selectable (userlevel s) m) eqn:Esel;
      [apply selectable_level in Esel; exists now, m; split; [done|]; split; [|done];
       destruct (Z.eq_dec now 0); [lia|]; destruct (Z.eq_dec now size); lia|]);
    (assert (now <> k) by (intros ->; rewrite selectable_zero in Esel; [done|by apply Hk])).
  - destruct (Z.leb_spec now k); lia.
  - apply IH; [done| |]; destruct (Z.leb_spec now k), (Z.leb_spec size (now + 1)); try lia; destruct (Z.leb_spec (now + 1) k); try lia.
    all: destruct (Z.leb_spec 0 k); lia.
Qed.

Lemma skip_up_total fuel : forall s now, inv s -> 0 <= now < size ->
  (if k <=? now then now - k else now + size - k) <= Z.of_nat fuel ->
  exists i, skip_up fuel s (Pm g b) size now = Done i /\ 0 <= i < size.
Proof.
  pose proof (m_open _ _ _ Hmenu).
  induction fuel as [|fuel IH]; intros s now Hs Hn Hfuel; cbn [skip_up];
    destruct (entry s now Hs ltac:(lia)) as (m & Hat & Hnode & Hedge & Hk); rewrite Hat; cbn [mbind outcome_bind];
    (destruct (selectable (userlevel s) m) eqn:Esel; [exists now; split; [done|lia]|]);
    (assert (now <> k) by (intros ->; rewrite selectable_zero in Esel; [done|by apply Hk])).
  - destruct (Z.leb_spec k now); lia.
  - apply IH; [done| |]; destruct (Z.leb_spec k now), (Z.ltb_spec 0 now); try lia; destruct (Z.leb_spec k (now - 1)); try lia.
    all: destruct (Z.leb_spec k (size - 1)); lia.
Qed.

Lemma up_to_item_total fuel : forall s now, inv s -> k <= now < size -> now - k <= Z.of_nat fuel ->
  exists i, up_to_item fuel s (Pm g b) now = Done i /\ k <= i < size.
Proof.
  pose proof (m_open _ _ _ Hmenu).
  induction fuel as [|fuel IH]; intros s now Hs Hn Hfuel; cbn [up_to_item];
    destruct (entry s now Hs ltac:(lia)) as (m & Hat & Hnode & Hedge & Hk); rewrite Hat; cbn [mbind outcome_bind];
    (destruct (selectable (userlevel s) m) eqn:Esel; [exists now; split; [done|lia]|]);
    (assert (now <> k) by (intros ->; rewrite selectable_zero in Esel; [done|by apply Hk])); [lia|].
  apply IH; [done|lia..].
Qed.

(** The conditions can be evaluated. *)
Lemma initial_total s m : inv s -> node m -> exists n, initial s m = Done n.
Proof.
  intros Hs Hm. destruct (node_texts s m Hs Hm) as (n & _ & _ & _ & Hn & _). unfold initial. rewrite Hn. eauto.
Qed.

Lemma conditions s m ch j : inv s -> 0 <= j < size ->
  (exists v, right_of s (Pm g b) m j = Done v) /\ (exists v, left_of s (Pm g b) m j = Done v) /\
  (exists v, has_key s (Pm g b) ch j = Done v) /\ (exists v, is_mail s (Pm g b) j = Done v).
Proof.
  intros Hs Hj. destruct (entry s j Hs ltac:(lia)) as (x & Hat & Hx & _).
  destruct (node_texts s x Hs Hx) as (_ & _ & f & _ & _ & _ & Hf & _). destruct (initial_total s x Hs Hx) as [n Hn].
  unfold right_of, left_of, has_key, is_mail. rewrite Hat. cbn [mbind outcome_bind]. rewrite Hf, Hn. cbn [mbind outcome_bind].
  repeat match goal with |- context [if ?c then _ else _] => destruct c end; eauto 10.
Qed.
End Of_menu.

(** ** Keys *)

Section Keys.
Context (loop : list Z -> pm_t -> Z -> Z -> @prog W Z).
Context (loop_safe : forall n b size k now s, inv s -> menu b size k -> 0 <= now <= size -> safe s (loop n (Pm g b) size now) (fun _ => True)).

Lemma has_news_safe s : inv s -> safe s (has_news e) (fun _ => True).
Proof.
  intros Hs. unfold has_news. eapply safe_bind; [by apply safe_ask|]. intros [] s1 H1 _; [by apply safe_ret|].
  eapply safe_bind; [by apply safe_ask|]. intros r s2 H2 _. destruct (negb _); [by apply safe_ret|].
  eapply safe_bind; [by apply safe_ask|]. intros t s3 H3 _. by apply safe_ret.
Qed.

Lemma open_menu_safe s n : inv s -> menu_okb c0 n = true -> safe s (open_menu e loop n) (fun _ => True).
Proof.
  intros Hs Hn. destruct (menu_okb_menu n Hn) as (b & size & k & Hb & Hm). pose proof (m_open _ _ _ Hm) as Hk.
  unfold open_menu. apply safe_get. destruct (_ <=? 0); [by apply safe_ret|].
  eapply safe_reading; [by apply menu_at_like|].
  eapply safe_bind; [by apply (draw_menu_safe b size k Hm)|]. intros ? s1 H1 ->.
  eapply (safe_bind _ _ _ (fun _ => True)); [destruct (bool_decide _); [by apply has_news_safe|by apply safe_ret]|].
  intros news s2 H2 _.
  eapply (safe_bind _ _ _ (fun now => 0 <= now <= size)).
  - destruct news; [|apply safe_ret; [done|lia]].
    destruct (last_total (Z.to_nat size) 0 0 (is_mail s2 (Pm g b))) as (r & Hr & Hle).
    { intros j Hj. apply (conditions b size k Hm s2 (MenuItem 0 0 0 0 0 0 0) 0 j); [done|lia]. }
    unfold safe, reading. rewrite Hr. split; [done|lia].
  - intros now s3 H3 Hnow. emitted s4 H4. emitted s5 H5. by apply (loop_safe n b size k).
Qed.

Lemma exec_mbem_safe s str : inv s -> safe s (exec_mbem e str) (fun _ => True).
Proof.
  intros Hs. unfold exec_mbem. destruct (module_of str) as [[path sym]|]; [|by apply safe_ret].
  apply safe_call; [done|]. intros w. apply modules_lowly, Hs.
Qed.

Lemma enter_safe s n b size k now m : inv s -> menu b size k -> 0 <= now <= size -> node m ->
  safe s (enter e loop n (Pm g b) size now m) (fun _ => True).
Proof.
  intros Hs Hm Hnow Hnode. destruct (node_texts s m Hs Hnode) as (_ & _ & f & a & _ & _ & Hf & Ha & Hlink).
  unfold enter. eapply safe_reading; [exact Ha|]. destruct (bool_decide (a = _)) eqn:Ea; [by apply safe_ret|].
  apply bool_decide_eq_false in Ea. eapply safe_reading; [exact Hf|].
  assert (forall s', inv s' -> safe s' (prog_bind _ _ (fun _ => loop n (Pm g b) size now) (redraw (Pm g b))) (fun _ => True)) as Hafter.
  { intros s1 H1. eapply safe_bind; [by apply (redraw_safe b size k)|]. intros _ s2 H2 _. by apply (loop_safe n b size k). }
  destruct (sysconf_funcptr f) as [target|].
  - eapply (safe_bind _ _ _ (fun _ => True)); [|by intros _ s1 H1 _; apply Hafter].
    unfold run. apply safe_get. emitted s1 H1. destruct (bool_decide (f = bytes "domenu")) eqn:Ed.
    + apply bool_decide_eq_true in Ed. eapply safe_bind; [by apply open_menu_safe; auto|]. intros r s2 H2 _. by apply safe_ret.
    + destruct (bool_decide (f = bytes "RunMBEM")); [by apply exec_mbem_safe|]. apply safe_call; [done|]. intros w. apply calls_lowly, H1.
  - destruct (sysconf_funcstr f) as [t|]; [|by apply (loop_safe n b size k)].
    apply safe_get. emitted s1 H1. eapply safe_bind; [by apply exec_mbem_safe|]. intros _ s2 H2 _. by apply Hafter.
Qed.

Lemma menu_key_safe s ch n b size k now m : inv s -> menu b size k -> 0 < now < size -> node m ->
  safe s (menu_key e depth loop ch n (Pm g b) size now m) (fun _ => True).
Proof.
  intros Hs Hm Hnow Hnode. pose proof (m_open _ _ _ Hm) as Hk.
  assert (forall s' i, inv s' -> 0 <= i <= size -> safe s' (loop n (Pm g b) size i) (fun _ => True)) as Hloop by eauto.
  assert (forall f, (forall j, 0 <= j < size -> exists v, f s j = Done v) -> exists i, first_of size (f s) = Done i /\ 0 <= i <= size) as Hfirst.
  { intros f Hf. by apply (first_total b size k). }
  unfold menu_key. destruct (ch =? EOF).
  { apply safe_get. destruct (e_refscreen e (world s)); [|by left].
    eapply safe_bind; [by apply (redraw_safe b size k)|]. intros _ s1 H1 _. apply Hloop; [done|lia]. }
  destruct (ch =? KEY_RIGHT).
  { destruct (Hfirst (fun s => right_of s (Pm g b) m)) as (i & Hi & Hle); [intros j Hj; by apply (conditions b size k Hm s m ch)|].
    eapply safe_reading; [exact Hi|]. destruct (i <? size); [by apply Hloop|]. apply (enter_safe s n b size k); [done..|lia|done]. }
  destruct (_ || _); [apply (enter_safe s n b size k); [done..|lia|done]|].
  destruct (ch =? KEY_LEFT).
  { destruct (Hfirst (fun s => left_of s (Pm g b) m)) as (i & Hi & Hle); [intros j Hj; by apply (conditions b size k Hm s m ch)|].
    eapply safe_reading; [exact Hi|]. destruct (i <? size); [by apply Hloop|by apply safe_ret]. }
  destruct (ch =? KEY_DOWN); [apply Hloop; [done|lia]|].
  destruct (ch =? KEY_UP).
  { destruct (skip_up_total b size k Hm (rounds size) s (now - 1) Hs ltac:(lia)) as (i & Hi & Hle).
    { unfold rounds. destruct (Z.leb_spec k (now - 1)); lia. }
    eapply safe_reading; [exact Hi|]. apply Hloop; [done|lia]. }
  destruct (ch =? KEY_PGUP); [apply Hloop; [done|lia]|].
  destruct (ch =? KEY_PGDN).
  { destruct (up_to_item_total b size k Hm (rounds size) s (size - 1) Hs ltac:(lia)) as (i & Hi & Hle); [unfold rounds; lia|].
    eapply safe_reading; [exact Hi|]. apply Hloop; [done|lia]. }
  destruct (ch =? 126).
  { apply safe_get. pose proof Hs as (_ & _ & Hlow & _). unfold permitted, lowly in *. rewrite Hlow. apply Hloop; [done|lia]. }
  destruct (ch =? 33); [destruct (bool_decide _); [apply Hloop; [done|lia]|by apply safe_ret]|].
  destruct (ch =? Ctrl 84).
  { eapply safe_bind; [by apply safe_ask|]. intros [] s1 H1 _.
    - eapply safe_bind; [by apply (draw_menu_safe b size k)|]. intros _ s2 H2 _. emitted s3 H3. apply Hloop; [done|lia].
    - emitted s2 H2. apply Hloop; [done|lia]. }
  set (c := if (97 <=? ch) && (ch <=? 122) then _ else _).
  destruct (Hfirst (fun s => has_key s (Pm g b) c)) as (i & Hi & Hle); [intros j Hj; by apply (conditions b size k Hm s m c)|].
  eapply safe_reading; [exact Hi|]. apply Hloop; [done|]. destruct (i <? size); lia.
Qed.

Lemma turn_safe s n b size k now : inv s -> menu b size k -> 0 <= now <= size ->
  safe s (turn e depth loop n (Pm g b) size now) (fun _ => True).
Proof.
  intros Hs Hm Hnow. pose proof (m_open _ _ _ Hm) as Hk. unfold turn.
  destruct (skip_down_total b size k Hm (rounds size) s now Hs Hnow) as (i & m & Hi & Hr & Hnode).
  { unfold rounds. destruct (Z.leb_spec now k); lia. }
  eapply safe_reading; [exact Hi|]. emitted s1 H1. emitted s2 H2.
  eapply safe_bind; [by apply safe_ask|]. intros ch s3 H3 _. emitted s4 H4. emitted s5 H5. by apply menu_key_safe with k.
Qed.
End Keys.

Lemma menu_loop_safe fuel : forall n b size k now s, inv s -> menu b size k -> 0 <= now <= size ->
  safe s (menu_loop e depth fuel n (Pm g b) size now) (fun _ => True).
Proof.
  induction fuel as [|fuel IH]; intros n b size k now s Hs Hm Hnow; [by right|]. cbn [menu_loop]. by apply turn_safe with k.
Qed.
End Safe.

Lemma like_refl c : like c c.
Proof. repeat (split; [done|]). induction (item c) as [|m l IH]; constructor; [by repeat split|done]. Qed.


(** C21. With well-formed menus (each has an end, begins with one of its
    properties and has an item for everybody, and links lead to menus), a user
    who may not read the configuration again goes through the menus without an
    access outside the configuration and without a search that never ends,
    whatever keys are pressed, whatever the user may see, and whatever the
    functions do short of giving the user that permission. *)
Theorem menu_safe {W} (e : env W) (depth fuel : nat) (menu_name : list Z) (s : st W) :
  menus_okb (conf s) = true -> menu_okb (conf s) menu_name = true -> alive s = true ->
  HAS_PERM (userlevel s) PERM_ESYSFILE = false ->
  (forall f a lv w, HAS_PERM lv PERM_ESYSFILE = false -> HAS_PERM (e_call e f a lv w).1 PERM_ESYSFILE = false) ->
  (forall p f lv w, HAS_PERM lv PERM_ESYSFILE = false -> HAS_PERM (e_module e p f lv w).1 PERM_ESYSFILE = false) ->
  match (domenu e depth fuel menu_name s).1 with
  | inr Faulted | inr Diverged => False
  | _ => True
  end.
Proof.
  intros Hok Hname Ha Hlow Hcalls Hmodules.
  assert (inv (conf s) (gen s) s) as Hs by (split; [done|]; split; [done|]; split; [done|apply like_refl]).
  pose proof (open_menu_safe e (conf s) (gen s) Hok (menu_loop e depth fuel)
    (menu_loop_safe e depth (conf s) (gen s) Hok Hcalls Hmodules fuel) s menu_name Hs Hname) as H.
  unfold safe in H. unfold domenu. destruct (open_menu _ _ _ _) as [[n|k] s']; [done|]. by destruct H as [-> | ->].
Qed.

(** ** A configuration, read from its file *)

Definition menu_file : list Z := concat (map (fun l => bytes l ++ [10]) [
  "PERM_POST = 0x8";
  "%menu TOPMENU"; "title 0, 0, Main"; "screen 3, 0, S_MAIN";
  "!M_TALK 10, 5, 0, Talk, talk"; "@BoardsNew 0, 0, PERM_POST, New, new"; "@LeaveBBS 0, 0, 0, Goodbye, bye"; "%";
  "%menu M_TALK"; "title 0, 0, Talk"; "@ShowFriends 5, 5, 0, Friends, friends"; "!.. 0, 0, 0, Exit, exit"; "%";
  "%S_MAIN"; "----------"; "%"]%string).
Definition start : sysconf_t :=
  match sysconf_build (fun _ => Some menu_file) (MenuItem 0 0 0 0 0 0 0) 2 (bytes "etc/sysconf.ini") true true 4096 (replicate 20480 0) with
  | Done (_, Some img) => sysconf_load_image img 8192
  | _ => Sysconf 0 [] [] [] 0
  end.

(** The world is the keys to come; a key that is there nowhere is [EOF], at
    which the process ends. *)
Definition typing : env (list Z) := Env
  (fun ks => match ks with k :: ks => (k, ks) | [] => (EOF, []) end)
  (fun _ => false) (fun ks => (false, ks)) (fun ks => (0, ks)) (fun ks => (0, ks)) (fun ks => (false, ks))
  (fun _ _ lv ks => (lv, ks)) (fun _ _ lv ks => (lv, ks))
  (fun ks => (Disk (fun _ => Some menu_file) (MenuItem 0 0 0 0 0 0 0) true true 4096 (replicate 20480 0) true 12288, ks)).
Definition at_start (lv : Z) (ks : list Z) : st (list Z) := St start 0 true lv ks [].

Lemma menu_safe_witness :
  menus_okb start = true /\
  match (domenu typing 2 20 (bytes "TOPMENU") (at_start 0 (bytes "n" ++ [KEY_UP; 10; KEY_PGDN; 10; KEY_LEFT; 10; 10]))).1 with
  | inr Faulted | inr Diverged => False | _ => True end.
Proof.
  split; [by vm_compute|].
  apply (menu_safe typing 2 20 (bytes "TOPMENU") (at_start 0 (bytes "n" ++ [KEY_UP; 10; KEY_PGDN; 10; KEY_LEFT; 10; 10])));
    [by vm_compute|by vm_compute|done|done|done|done].
Defined.

(** What is called is what the level permits: a user without a permission
    walks over the second item. *)
Definition ran (l : list event) : list (list Z) :=
  omap (fun ev => match ev with Ran f _ _ _ _ => Some f | _ => None end) (reverse l).
Example new_boards_hidden :
  let keys := [KEY_DOWN; 10] in
  ran (domenu typing 2 20 (bytes "TOPMENU") (at_start 0 keys)).2.(log) = [bytes "LeaveBBS"] /\
  ran (domenu typing 2 20 (bytes "TOPMENU") (at_start 8 keys)).2.(log) = [bytes "BoardsNew"].
Proof. by vm_compute. Qed.

(** In a menu below, the configuration is read again; back in the menu above
    its items are memory that was freed. *)
Example reload_below_faults :
  let keys := [10; 126; KEY_LEFT] in
  (domenu typing 2 20 (bytes "TOPMENU") (at_start 0x2000 keys)).1 = inr Faulted.
Proof. by vm_compute. Qed.

(** An item that was not permitted when the menu was drawn first keeps the
    line -1 when it is permitted later. *)
Example stays_hidden :
  let drawn lv s := (draw_menu (Pm 0 0) (St (conf s) 0 true lv (@nil Z) [])).2 in
  (fun m => line m) <$> take 5 (item (conf (drawn 8 (drawn 0 (at_start 0 []))))) = [0; 3; 10; -1; 11] /\
  (fun m => line m) <$> take 5 (item (conf (drawn 8 (at_start 0 [])))) = [0; 3; 10; 11; 12].
Proof. by vm_compute. Qed.

(** A menu without an item for the user: no number of steps is enough. *)
Example nothing_to_select :
  let s := St (Sysconf 0 [0] [MenuItem 0 0 (-2) 0 0 0 0; MenuItem 1 0 8 0 0 0 0; MenuItem 0 0 (-1) 0 0 0 0] [] 1) 0 true 0 tt [] in
  forall fuel now, now = 0 \/ now = 1 -> skip_down fuel s (Pm 0 0) 2 now = NoFuel.
Proof. cbn zeta. induction fuel as [|fuel IH]; intros now [-> | ->]; try done; cbn; apply IH; auto. Qed.
