(* ===== verification/Config.v ===== *)
(** The configuration file: [lib/cfg.c]. Lines are cut in a buffer that is used
    again for every line, by the [strtok] that keeps its place in it. *)
From S2P Require Import Prelude CString Helper PostParse.
#[local] Open Scope Z_scope.

Definition CONFIG_MAX_KEYS : Z := 64.
Definition CONFIG_MAX_LINE_LEN : Z := 256.

(** Keys and their values; [dups] counts the strings that were asked of the
    pool. *)
Record config_t := Config { pairs : list (list Z * list Z); dups : nat }.
Definition n_pairs (c : config_t) : Z := Z.of_nat (length (pairs c)).

(** * [strtok], with its place in the buffer *)

Section Strtok.
Context (delims : list Z).
Definition delim (c : Z) : bool := existsb (Z.eqb c) delims.

Fixpoint spn (fuel : nat) (m : list Z) (p : Z) : outcome Z :=
  match fuel with
  | O => NoFuel
  | S fuel => c ← rd m p; if negb (c =? 0) && delim c then spn fuel m (p + 1) else Done p
  end.
Fixpoint cspn (fuel : nat) (m : list Z) (p : Z) : outcome Z :=
  match fuel with
  | O => NoFuel
  | S fuel => c ← rd m p; if (c =? 0) || delim c then Done p else cspn fuel m (p + 1)
  end.

(** The token at or behind [p], the place behind it, and the buffer. *)
Definition strtok_at (m : list Z) (p : Z) : outcome (option Z * Z * list Z) :=
  b ← spn (length m + 1) m p;
  c ← rd m b;
  if c =? 0 then Done (None, b, m)
  else
    e ← cspn (length m + 1) m b;
    c ← rd m e;
    if c =? 0 then Done (Some b, e, m) else m ← wr m e 0; Done (Some b, e + 1, m).
End Strtok.

(** * Loading *)

Section Load.
(** Whether the pool has memory for its [n]th string, and for the tables. *)
Context (memory : nat -> bool) (tables : bool).

Definition _config_init : option config_t := if tables then Some (Config [] 0) else None.

(** A pair is counted when both of its strings were copied. *)
Definition _config_add (c : config_t) (key val : option (list Z)) : Z * config_t :=
  match key, val with
  | Some k, Some v =>
      if CONFIG_MAX_KEYS <=? n_pairs c then (-1, c)
      else if memory (dups c) && memory (S (dups c)) then (0, Config (pairs c ++ [(k, v)]) (2 + dups c))
      else (-1, Config (pairs c) (2 + dups c))
  | _, _ => (-1, c)
  end.

Definition string_of (m : list Z) (p : option Z) : outcome (option (list Z)) :=
  match p with Some p => s ← cstring m p; Done (Some s) | None => Done None end.

Fixpoint load_loop (fuel : nat) (buf s : list Z) (c : config_t) : outcome config_t :=
  match fuel with
  | O => NoFuel
  | S fuel =>
      r ← fgets buf CONFIG_MAX_LINE_LEN s;
      match r with
      | None => Done c
      | Some (buf, s) =>
          h ← rd buf 0;
          if h =? 35 then load_loop fuel buf s c
          else
            '(t, place, buf) ← strtok_at [61; 10] buf 0;
            '(key, buf) ← trim buf t;
            '(t, _, buf) ← strtok_at [61; 10] buf place;
            '(val, buf) ← trim buf t;
            k ← string_of buf key;
            v ← string_of buf val;
            load_loop fuel buf s (_config_add c k v).2
      end
  end.

(** The file, and what the buffer held before. *)
Definition config_load (file : option (list Z)) (buf : list Z) : outcome (option config_t) :=
  match _config_init, file with
  | Some c, Some s => c ← load_loop (length s + 1) buf s c; Done (Some c)
  | _, _ => Done None
  end.
End Load.

(** * Looking up *)

Fixpoint get_from (l : list (list Z * list Z)) (key : list Z) : option (list Z) :=
  match l with
  | [] => None
  | (k, v) :: l => if bool_decide (k = key) then Some v else get_from l key
  end.

(** A null key is compared, too. *)
Definition config_get (c : config_t) (key : option (list Z)) : outcome (option (list Z)) :=
  match key with
  | Some key => Done (get_from (pairs c) key)
  | None => match pairs c with [] => Done None | _ :: _ => Fault end
  end.

(** It is the key that is looked at, not the value: [strtol] of a null pointer
    faults. *)
Definition config_get_integer (c : config_t) (key : option (list Z)) (invalid : Z) : outcome Z :=
  s ← config_get c key;
  match key with
  | Some _ => match s with Some s => strtol (s ++ [0]) 0 | None => Fault end
  | None => Done invalid
  end.

(** * A file, line by line *)

Inductive line :=
| Remark (s : list Z)
| Pair (l1 k r1 l2 v r2 : list Z)
| Lone (s : list Z).

Definition print_line (l : line) : list Z :=
  match l with
  | Remark s => 35 :: s
  | Pair l1 k r1 l2 v r2 => l1 ++ k ++ r1 ++ 61 :: l2 ++ v ++ r2
  | Lone s => s
  end.
Definition pair_of (l : line) : list (list Z * list Z) := match l with Pair _ k _ _ v _ => [(k, v)] | _ => [] end.

Definition plain (s : list Z) : Prop := Forall (fun c => 0 < c < 256 /\ c <> 10 /\ c <> 61) s.
Definition white (s : list Z) : Prop := Forall (fun c => c <= 32) s.
(** Keys and values have no blanks at their ends; blanks around them do not
    count. A line without [=] has no value. *)
Definition line_ok (l : line) : Prop :=
  row_ok CONFIG_MAX_LINE_LEN (print_line l) /\
  match l with
  | Remark _ => True
  | Pair l1 k r1 l2 v r2 =>
      plain (l1 ++ k ++ r1) /\ plain (l2 ++ v ++ r2) /\ white l1 /\ white r1 /\ white l2 /\ white r2 /\
      solid k /\ solid v /\ head (l1 ++ k) <> Some 35
  | Lone s => plain s /\ (s = [] \/ solid s /\ head s <> Some 35)
  end.

(** * Tokens *)

Lemma spn_stops delims fuel m p c : rd m p = Done c -> negb (c =? 0) && delim delims c = false -> spn delims (S fuel) m p = Done p.
Proof. cbn [spn]. intros -> H. cbn [mbind outcome_bind]. by rewrite H. Qed.

Lemma cspn_token delims t : forall fuel pre d post,
  Forall (fun c => (c =? 0) || delim delims c = false) t -> (d =? 0) || delim delims d = true -> (length t < fuel)%nat ->
  cspn delims fuel (pre ++ t ++ d :: post) (blen pre) = Done (blen pre + blen t).
Proof.
  induction t as [|c t IH]; intros [|fuel] pre d post Ht Hd Hf; cbn [length] in Hf; try lia; cbn [cspn app].
  - rewrite (rd_at _ pre d post) by done. cbn [mbind outcome_bind]. rewrite Hd. f_equal. blen.
  - apply Forall_cons_1 in Ht as [Hc Ht]. rewrite (rd_at _ pre c (t ++ d :: post)) by done. cbn [mbind outcome_bind]. rewrite Hc.
    replace (pre ++ c :: t ++ d :: post) with ((pre ++ [c]) ++ t ++ d :: post) by app_eq.
    replace (blen pre + 1) with (blen (pre ++ [c])) by blen. rewrite IH by (done || lia). f_equal. blen.
Qed.

Lemma strtok_token delims pre c t d post :
  Forall (fun c => (c =? 0) || delim delims c = false) (c :: t) -> d <> 0 -> delim delims d = true ->
  strtok_at delims (pre ++ (c :: t) ++ d :: post) (blen pre)
    = Done (Some (blen pre), blen pre + blen (c :: t) + 1, pre ++ (c :: t) ++ 0 :: post).
Proof.
  intros Ht Hd Hdel. pose proof Ht as Ht'. apply Forall_cons_1 in Ht' as [Hc _]. apply orb_false_iff in Hc as [Hc0 Hcd].
  unfold strtok_at. rewrite Nat.add_1_r.
  assert (rd (pre ++ (c :: t) ++ d :: post) (blen pre) = Done c) as Hrd by (by apply (rd_at _ pre c (t ++ d :: post))).
  rewrite (spn_stops _ _ _ _ c) by (done || by rewrite Hc0, Hcd). cbn [mbind outcome_bind]. rewrite Hrd. cbn [mbind outcome_bind]. rewrite Hc0.
  rewrite cspn_token; [|done|by rewrite Hdel, orb_true_r|rewrite !length_app; cbn; lia]. cbn [mbind outcome_bind].
  rewrite (rd_at _ (pre ++ c :: t) d post) by (app_eq || blen). cbn [mbind outcome_bind].
  destruct (Z.eqb_spec d 0); [done|].
  rewrite (wr_at _ (pre ++ c :: t) d post) by (app_eq || blen). cbn [mbind outcome_bind]. change (u8 0) with 0. by rewrite <- app_assoc.
Qed.

Lemma strtok_none delims pre post : strtok_at delims (pre ++ 0 :: post) (blen pre) = Done (None, blen pre, pre ++ 0 :: post).
Proof.
  unfold strtok_at. assert (rd (pre ++ 0 :: post) (blen pre) = Done 0) as Hrd by (by apply (rd_at _ pre 0 post)).
  rewrite Nat.add_1_r, (spn_stops _ _ _ _ 0) by done. cbn [mbind outcome_bind]. rewrite Hrd. done.
Qed.

(** A line with nothing in it. *)
Lemma strtok_newline post : strtok_at [61; 10] (10 :: 0 :: post) 0 = Done (None, 1, 10 :: 0 :: post).
Proof.
  unfold strtok_at. rewrite Nat.add_1_r. change (length (10 :: 0 :: post)) with (S (length (0 :: post))).
  assert (rd (10 :: 0 :: post) 1 = Done 0) as H1 by (by apply (rd_at _ [10] 0 post)).
  assert (spn [61; 10] (S (S (length (0 :: post)))) (10 :: 0 :: post) 0 = Done 1) as ->.
  { change (spn [61; 10] (S (length (0 :: post))) (10 :: 0 :: post) 1 = Done 1). by apply spn_stops with 0. }
  cbn [mbind outcome_bind]. by rewrite H1.
Qed.

Lemma plain_tokens t : plain t -> Forall (fun c => (c =? 0) || delim [61; 10] c = false) t.
Proof.
  intros H. eapply Forall_impl; [|exact H]; cbn beta. intros c ((H1 & H2) & H3 & H4). unfold delim. cbn. lia.
Qed.

Lemma config_nul_free t : plain t -> nul_free t.
Proof. intros H. eapply Forall_impl; [|exact H]; cbn beta. intros c ((H1 & H2) & H3 & H4). lia. Qed.

Lemma solid_cons l k r : solid k -> exists c t, l ++ k ++ r = c :: t.
Proof. intros (x & y & t & t' & -> & _). destruct l as [|c l]; eauto. Qed.

(** ** A line *)

Definition cut (buf : list Z) : outcome (option (list Z) * option (list Z) * list Z) :=
  '(t, place, buf) ← strtok_at [61; 10] buf 0;
  '(key, buf) ← trim buf t;
  '(t, _, buf) ← strtok_at [61; 10] buf place;
  '(val, buf) ← trim buf t;
  k ← string_of buf key;
  v ← string_of buf val;
  Done (k, v, buf).

Lemma token_trimmed pre l k r d post : plain (l ++ k ++ r) -> white l -> white r -> solid k -> d = 61 \/ d = 10 ->
  exists m place rest, strtok_at [61; 10] (pre ++ (l ++ k ++ r) ++ d :: post) (blen pre) = Done (Some (blen pre), place, m) /\
    trim m (Some (blen pre)) = Done (Some (blen pre), pre ++ k ++ 0 :: rest ++ post) /\
    place = blen (pre ++ k ++ 0 :: rest) /\ blen (pre ++ k ++ 0 :: rest ++ post) = blen (pre ++ (l ++ k ++ r) ++ d :: post).
Proof.
  intros Hp Hl Hr Hk Hd. destruct (solid_cons l k r Hk) as (c & t & E).
  destruct (trim_eq pre l k r post (config_nul_free _ Hp) Hl Hr Hk) as (rest & Ht & Hrest).
  exists (pre ++ (l ++ k ++ r) ++ 0 :: post), (blen pre + blen (l ++ k ++ r) + 1), rest. split; [|split; [|split]].
  - rewrite E. apply strtok_token; [by rewrite <- E; apply plain_tokens|lia|by destruct Hd as [-> | ->]].
  - rewrite <- Ht. f_equal. app_eq.
  - blen.
  - blen.
Qed.

Lemma cut_pair l1 k r1 l2 v r2 post : line_ok (Pair l1 k r1 l2 v r2) -> exists buf,
  cut (print_line (Pair l1 k r1 l2 v r2) ++ 10 :: post) = Done (Some k, Some v, buf) /\
  blen buf = blen (print_line (Pair l1 k r1 l2 v r2) ++ 10 :: post).
Proof.
  intros (_ & Hp1 & Hp2 & Hl1 & Hr1 & Hl2 & Hr2 & Hk & Hv & _). unfold cut. cbn [print_line].
  destruct (token_trimmed [] l1 k r1 61 ((l2 ++ v ++ r2) ++ 10 :: post) Hp1 Hl1 Hr1 Hk ltac:(by left)) as (m1 & pl1 & rest1 & E1 & T1 & P1 & B1).
  replace ((l1 ++ k ++ r1 ++ 61 :: l2 ++ v ++ r2) ++ 10 :: post) with ([] ++ (l1 ++ k ++ r1) ++ 61 :: (l2 ++ v ++ r2) ++ 10 :: post) by app_eq.
  change (blen []) with 0 in *. rewrite E1. cbn [mbind outcome_bind]. rewrite T1. cbn [mbind outcome_bind].
  destruct (token_trimmed ([] ++ k ++ 0 :: rest1) l2 v r2 10 post Hp2 Hl2 Hr2 Hv ltac:(by right)) as (m2 & pl2 & rest2 & E2 & T2 & P2 & B2).
  replace ([] ++ k ++ 0 :: rest1 ++ (l2 ++ v ++ r2) ++ 10 :: post) with (([] ++ k ++ 0 :: rest1) ++ (l2 ++ v ++ r2) ++ 10 :: post) in * by app_eq.
  rewrite P1, E2. cbn [mbind outcome_bind]. rewrite T2. cbn [mbind outcome_bind string_of].
  apply Forall_app in Hp1 as [_ Hp1]. apply Forall_app in Hp1 as [Hpk _]. apply Forall_app in Hp2 as [_ Hp2]. apply Forall_app in Hp2 as [Hpv _].
  rewrite (cstring_at _ [] k (rest1 ++ v ++ 0 :: rest2 ++ post) 0) by (done || app_eq || by apply config_nul_free). cbn [mbind outcome_bind].
  rewrite (cstring_at _ ([] ++ k ++ 0 :: rest1) v (rest2 ++ post)) by (done || app_eq || by apply config_nul_free). cbn [mbind outcome_bind].
  eexists. split; [done|]. rewrite B2. rewrite B1. done.
Qed.

Lemma cut_lone s post : line_ok (Lone s) -> exists k buf,
  cut (print_line (Lone s) ++ 10 :: 0 :: post) = Done (k, None, buf) /\ blen buf = blen (print_line (Lone s) ++ 10 :: 0 :: post).
Proof.
  intros (_ & Hp & [-> | [Hs _]]); unfold cut; cbn [print_line].
  - cbn [app]. rewrite strtok_newline. cbn [mbind outcome_bind trim].
    pose proof (strtok_none [61; 10] [10] post) as H. cbn [app] in H. change (blen [10]) with 1 in H. rewrite H. cbn [mbind outcome_bind trim string_of].
    by eexists _, _.
  - destruct (token_trimmed [] [] s [] 10 (0 :: post)) as (m & pl & rest & E & T & P & B); [by rewrite app_nil_l, app_nil_r|by constructor|by constructor|done|by right|].
    rewrite !app_nil_l, app_nil_r in *. change (blen []) with 0 in *. rewrite E. cbn [mbind outcome_bind]. rewrite T. cbn [mbind outcome_bind].
    pose proof (strtok_none [61; 10] (s ++ 0 :: rest) post) as H. rewrite <- P in H.
    replace ((s ++ 0 :: rest) ++ 0 :: post) with (s ++ 0 :: rest ++ 0 :: post) in H by app_eq. rewrite H. cbn [mbind outcome_bind trim string_of].
    rewrite (cstring_at _ [] s (rest ++ 0 :: post) 0) by (done || app_eq || by apply config_nul_free). cbn [mbind outcome_bind]. by eexists _, _.
Qed.

Lemma head_not_remark l post : line_ok l -> (forall s, l <> Remark s) -> exists h, rd (print_line l ++ 10 :: post) 0 = Done h /\ h <> 35.
Proof.
  intros Hl Hr. assert (head (print_line l ++ [10]) <> Some 35) as Hh.
  { destruct l as [s|l1 k r1 l2 v r2|s]; [by destruct (Hr s)| |]; cbn [print_line] in *.
    - destruct Hl as (_ & _ & _ & _ & _ & _ & _ & (x & y & t & t' & -> & _) & _ & Hh). destruct l1 as [|c l1]; exact Hh.
    - destruct Hl as (_ & _ & [-> | [Hs Hh]]); [done|]. destruct s; [done|exact Hh]. }
  destruct (print_line l) as [|h t]; cbn [app head] in *.
  - exists 10. split; [by apply (rd_at _ [] 10 post)|done].
  - exists h. split; [by apply (rd_at _ [] h (t ++ 10 :: post))|congruence].
Qed.

(** ** The file *)

Definition all_pairs (lines : list line) : list (list Z * list Z) := concat (map pair_of lines).
Definition kept (l : list (list Z * list Z)) : list (list Z * list Z) := take (Z.to_nat CONFIG_MAX_KEYS) l.

Lemma kept_app a b : kept (kept a ++ b) = kept (a ++ b).
Proof.
  unfold kept. set (n := Z.to_nat _). destruct (Nat.le_ge_cases (length a) n).
  - by rewrite (take_ge a).
  - rewrite (take_app_le a) by done. rewrite take_app_le by (rewrite length_take; lia). by rewrite take_take, Nat.min_id.
Qed.

Lemma text_rows lines : (length lines <= length (text_of (map print_line lines)))%nat.
Proof. induction lines as [|l lines IH]; [done|]. cbn [map]. rewrite text_of_cons, length_app. cbn. lia. Qed.

Lemma add_kept memory c k v : (forall n, memory n = true) -> (length (pairs c) <= 64)%nat ->
  exists r c', _config_add memory c (Some k) (Some v) = (r, c') /\ pairs c' = kept (pairs c ++ [(k, v)]) /\ (length (pairs c') <= 64)%nat.
Proof.
  intros Hm Hl. unfold _config_add, kept. destruct (Z.leb_spec CONFIG_MAX_KEYS (n_pairs c)) as [H|H]; unfold CONFIG_MAX_KEYS, n_pairs in *.
  - exists (-1), c. split; [done|]. rewrite take_app_le, take_ge by lia. done.
  - rewrite !Hm. exists 0. eexists. split; [done|]. cbn [pairs]. rewrite take_ge by (rewrite length_app; cbn; lia).
    split; [done|]. rewrite length_app. cbn. lia.
Qed.

Lemma load_loop_step memory fuel buf s c : load_loop memory (S fuel) buf s c =
  (r ← fgets buf CONFIG_MAX_LINE_LEN s;
   match r with
   | None => Done c
   | Some (buf, s) =>
       h ← rd buf 0;
       if h =? 35 then load_loop memory fuel buf s c
       else '(k, v, buf) ← cut buf; load_loop memory fuel buf s (_config_add memory c k v).2
   end).
Proof.
  cbn [load_loop]. destruct (fgets _ _ _) as [[[b t]|]| |]; try done. cbn [mbind outcome_bind].
  destruct (rd b 0) as [h| |]; try done. cbn [mbind outcome_bind]. destruct (h =? 35); [done|]. unfold cut.
  repeat (match goal with |- context [mbind ?f ?m] => destruct m as [?x| |]; cbn [mbind outcome_bind]; try done end;
          repeat match goal with x : (_ * _)%type |- _ => destruct x end).
Qed.

Lemma load_lines memory lines : (forall n, memory n = true) -> Forall line_ok lines -> forall fuel buf c,
  blen buf = CONFIG_MAX_LINE_LEN -> (length lines < fuel)%nat -> (length (pairs c) <= 64)%nat ->
  exists c', load_loop memory fuel buf (text_of (map print_line lines)) c = Done c' /\ pairs c' = kept (pairs c ++ all_pairs lines).
Proof.
  intros Hm Hall. induction Hall as [|l lines Hl _ IH]; intros [|fuel] buf c Hb Hf Hc; cbn [length] in Hf; try lia; rewrite load_loop_step.
  - exists c. cbn [map text_of]. split; [done|]. unfold kept, all_pairs, CONFIG_MAX_KEYS. cbn. rewrite app_nil_r, take_ge by lia. done.
  - cbn [map]. rewrite text_of_cons. destruct (fgets_row buf CONFIG_MAX_LINE_LEN (print_line l) (text_of (map print_line lines)) (proj1 Hl) Hb) as (tl & -> & Hb').
    cbn [mbind outcome_bind]. destruct l as [s|l1 k r1 l2 v r2|s].
    + rewrite (rd_at _ [] 35 (s ++ 10 :: 0 :: tl)) by done. cbn [mbind outcome_bind]. by apply IH; [|lia|].
    + destruct (head_not_remark _ (0 :: tl) Hl) as (h & -> & Hh); [done|]. cbn [mbind outcome_bind]. destruct (Z.eqb_spec h 35); [done|].
      destruct (cut_pair _ _ _ _ _ _ (0 :: tl) Hl) as (b' & -> & Hb2). cbn [mbind outcome_bind].
      destruct (add_kept memory c k v Hm Hc) as (r & c' & -> & Hp & Hl'). cbn [snd].
      destruct (IH fuel b' c') as (c'' & Hload & Hp''); [lia|lia|done|]. exists c''. split; [exact Hload|]. rewrite Hp'', Hp.
      rewrite kept_app, <- app_assoc. done.
    + destruct (head_not_remark _ (0 :: tl) Hl) as (h & -> & Hh); [done|]. cbn [mbind outcome_bind]. destruct (Z.eqb_spec h 35); [done|].
      destruct (cut_lone _ tl Hl) as (k & b' & -> & Hb2). cbn [mbind outcome_bind].
      assert (_config_add memory c k None = (-1, c)) as -> by (by destruct k). apply IH; [lia|lia|done].
Qed.

Lemma loaded memory lines buf : (forall n, memory n = true) -> Forall line_ok lines -> blen buf = CONFIG_MAX_LINE_LEN ->
  exists c, config_load memory true (Some (text_of (map print_line lines))) buf = Done (Some c) /\ pairs c = kept (all_pairs lines).
Proof.
  intros Hm Hl Hb. unfold config_load, _config_init.
  destruct (load_lines memory lines Hm Hl (length (text_of (map print_line lines)) + 1) buf (Config [] 0) Hb) as (c & -> & Hp).
  - pose proof (text_rows lines). lia.
  - cbn. lia.
  - by exists c.
Qed.

(** A file of remarks, pairs and lines without a value is read to its end:
    what is looked up afterwards is the value of the first pair with that key,
    without the blanks around it, of the first 64 pairs of the file. *)
Theorem config_read (memory : nat -> bool) (lines : list line) (buf key : list Z) :
  (forall n, memory n = true) -> Forall line_ok lines -> blen buf = CONFIG_MAX_LINE_LEN ->
  exists c, config_load memory true (Some (text_of (map print_line lines))) buf = Done (Some c) /\
    config_get c (Some key) = Done (get_from (kept (all_pairs lines)) key).
Proof.
  intros Hm Hl Hb. destruct (loaded memory lines buf Hm Hl Hb) as (c & Hc & Hp). exists c. split; [done|]. unfold config_get. by rewrite Hp.
Qed.

(** C24. A number that is configured is what its value says; for a key that is
    not configured a null pointer is read, whatever the default is, and the
    default is never returned. *)
Theorem config_missing_faults (memory : nat -> bool) (lines : list line) (buf key : list Z) (invalid : Z) :
  (forall n, memory n = true) -> Forall line_ok lines -> blen buf = CONFIG_MAX_LINE_LEN ->
  exists c, config_load memory true (Some (text_of (map print_line lines))) buf = Done (Some c) /\
    match get_from (kept (all_pairs lines)) key with
    | Some v => exists n, strtol (v ++ [0]) 0 = Done n /\ config_get_integer c (Some key) invalid = Done n
    | None => config_get_integer c (Some key) invalid = Fault
    end.
Proof.
  intros Hm Hl Hb. destruct (loaded memory lines buf Hm Hl Hb) as (c & Hc & Hp). exists c. split; [done|].
  unfold config_get_integer, config_get. rewrite Hp. destruct (get_from _ key) as [v|]; [|done].
  destruct (strtol_string v) as [n Hn]. exists n. by split.
Qed.

(** ** A file *)

Definition byte_in (bad : list Z) (s : list Z) : bool := forallb (fun c => (0 <? c) && (c <? 256) && negb (existsb (Z.eqb c) bad)) s.
Definition solidb (s : list Z) : bool :=
  match head s, list_basics.list.last s with Some x, Some y => (32 <? x) && (32 <? y) | _, _ => false end.

Lemma byte_in_plain s : byte_in [10; 61] s = true -> plain s.
Proof. unfold byte_in, plain. rewrite forallb_forall, List.Forall_forall. intros H c Hc. specialize (H c Hc). cbn in H. lia. Qed.

Lemma solidb_solid s : solidb s = true -> solid s.
Proof.
  unfold solidb. destruct s as [|x t]; [done|]. cbn [head]. destruct (list_basics.list.last (x :: t)) as [y|] eqn:E; [|done]. intros H.
  apply last_Some in E as [t' E]. exists x, y, t, t'. repeat split; [done|lia|lia].
Qed.

Lemma row_check s : byte_in [10] s && (blen s <=? 254) = true -> row_ok CONFIG_MAX_LINE_LEN s.
Proof.
  intros H. apply andb_true_iff in H as [H Hl]. unfold byte_in in H. rewrite forallb_forall in H. unfold row_ok, nul_free, CONFIG_MAX_LINE_LEN.
  split; [|split; [|lia]]; apply List.Forall_forall; intros c Hc; specialize (H c Hc); cbn in H; lia.
Qed.

Definition sample : list line :=
  [Remark (bytes " where the database is"); Pair [] (bytes "host") [32] [9] (bytes "localhost") [32]; Lone [];
   Pair [32] (bytes "host") [] [] (bytes "elsewhere") []; Lone (bytes "nothing"); Pair [] (bytes "post_reply_partitions") [] [] (bytes "12") []].

Lemma sample_lines_ok : Forall line_ok sample.
Proof.
  repeat (apply List.Forall_cons; [split; [by apply row_check; vm_compute|]|]); [..|by constructor].
  all: repeat first [split | by apply byte_in_plain; vm_compute | by apply solidb_solid; vm_compute | done | by constructor | by repeat constructor | right | left].
Qed.

Lemma config_read_witness :
  exists c, config_load (fun _ => true) true (Some (text_of (map print_line sample))) (replicate 256 7) = Done (Some c) /\
    config_get c (Some (bytes "host")) = Done (Some (bytes "localhost")).
Proof. apply (config_read (fun _ => true) sample (replicate 256 7) (bytes "host")); [done|apply sample_lines_ok|done]. Defined.

Lemma config_missing_faults_witness :
  exists c, config_load (fun _ => true) true (Some (text_of (map print_line sample))) (replicate 256 7) = Done (Some c) /\
    config_get_integer c (Some (bytes "post_mention_partitions")) 1 = Fault.
Proof. apply (config_missing_faults (fun _ => true) sample (replicate 256 7) (bytes "post_mention_partitions") 1); [done|apply sample_lines_ok|done]. Defined.

Definition get (text key : list Z) : outcome (option (list Z)) :=
  c ← config_load (fun _ => true) true (Some text) (replicate 256 7);
  match c with Some c => config_get c (Some key) | None => Done None end.

(** What follows a second [=] is lost; of a key of blanks the byte before the
    buffer is read. *)
Example second_equals : get (bytes "password=a=b" ++ [10]) (bytes "password") = Done (Some (bytes "a")).
Proof. by vm_compute. Qed.
Example blank_key_faults : get (bytes "  = x" ++ [10]) (bytes "x") = Fault.
Proof. by vm_compute. Qed.
