(* ===== verification/Uinfo.v ===== *)
(** What is computed of the record of a user: [lib/uinfo.c]. Experience and
    performance, days between dates, the time spent online, and the checks of
    a profile. *)
From S2P Require Import Prelude CString Helper Time Mention.
#[local] Open Scope Z_scope.

Definition MAX_PERF : Z := 1000.
Definition MIN_BIRTH_YEAR : Z := 1901.
Definition MAX_BIRTH_YEAR : Z := 2009.
Definition UINFO_ENICK : Z := -1.
Definition UINFO_EGENDER : Z := -2.
Definition UINFO_EBIRTH : Z := -3.

Definition PERM_REGISTER : Z := 0x10.
Definition PERM_BOARDS : Z := 0x40.
Definition PERM_ANNOUNCE : Z := 0x200.
Definition PERM_OCHAT : Z := 0x1000.
Definition PERM_SYSOPS : Z := 0x2000.
Definition PERM_XEMPT : Z := 0x10000.
Definition PERM_LONGLIFE : Z := 0x20000.
Definition PERM_LARGEMAIL : Z := 0x40000.
Definition PERM_TECH : Z := 0x80000.
Definition PERM_ARBI : Z := 0x100000.
Definition PERM_SERV : Z := 0x200000.
Definition PERM_SPECIAL0 : Z := 0x400000.
Definition PERM_SPECIAL2 : Z := 0x1000000.
Definition PERM_SPECIAL3 : Z := 0x2000000.
Definition PERM_SPECIAL9 : Z := 0x80000000.

Definition GLY_CPERF0 : list Z := [180; 210; 180; 210; 185; 253; 191; 205].
Definition GLY_CPERF1 : list Z := [197; 212; 185; 219; 213; 223].
Definition GLY_CPERF2 : list Z := [191; 236; 197; 172; 193; 166; 209; 189].
Definition GLY_CPERF3 : list Z := [187; 185; 178; 187; 180; 237].
Definition GLY_CPERF4 : list Z := [186; 220; 186; 195].
Definition GLY_CPERF5 : list Z := [211; 197; 208; 227].
Definition GLY_CPERF6 : list Z := [186; 195; 188; 171; 193; 203].
Definition GLY_CPERF7 : list Z := [177; 190; 213; 190; 179; 163; 191; 205].
Definition GLY_CPERF8 : list Z := [214; 208; 188; 225; 193; 166; 193; 191].
Definition GLY_CPERF9 : list Z := [215; 202; 201; 238; 200; 203; 202; 191].
Definition GLY_CPERFA : list Z := [189; 173; 186; 254; 212; 170; 192; 207].
Definition GLY_CPERFB : list Z := [201; 241; 161; 171; 161; 171].
Definition GLY_MEDAL0 : list Z := [195; 187; 211; 208; 185; 177; 207; 215; 44; 186; 217; 186; 217].
Definition GLY_MEDAL1 : list Z := [211; 208; 181; 227; 177; 237; 207; 214; 193; 203; 58; 41].
Definition GLY_MEDAL2 : list Z := [211; 208; 189; 207; 180; 243; 181; 196; 185; 177; 207; 215].
Definition GLY_MEDAL3 : list Z := [185; 224; 203; 174; 213; 190; 189; 168; 201; 232; 213; 223].
Definition GLY_MEDAL4 : list Z := [185; 224; 203; 174; 213; 190; 181; 196; 185; 166; 216; 169].
Definition GLY_MONEY0 : list Z := [199; 238; 185; 226; 181; 176; 58; 80].
Definition GLY_MONEY1 : list Z := [195; 227; 199; 191; 182; 200; 200; 213].
Definition GLY_MONEY2 : list Z := [208; 161; 211; 208; 178; 198; 184; 187].
Definition GLY_MONEY3 : list Z := [211; 208; 199; 174; 200; 203; 188; 210].
Definition GLY_MONEY4 : list Z := [208; 161; 191; 181; 214; 174; 188; 210].
Definition GLY_MONEY5 : list Z := [205; 242; 212; 170; 187; 167; 33; 33].
Definition GLY_MONEY6 : list Z := [210; 187; 183; 189; 178; 198; 176; 212].
Definition GLY_MONEY7 : list Z := [203; 174; 213; 190; 178; 198; 201; 241].

(** The members of [struct userec] that are looked at; times are 32 bits wide
    and not negative. *)
Record userec := Userec {
  userid : list Z; username : list Z; userlevel : Z; numlogins : Z; numposts : Z; stay : Z;
  gender : Z; birthyear : Z; birthmonth : Z; birthday : Z; firstlogin : Z; lastlogin : Z; lastlogout : Z }.

Definition has (u : userec) (x : Z) : bool := negb (Z.land (userlevel u) x =? 0).

(** * Grades *)

(** The ten characters of a square root. *)
Definition exp_text (x : Z) : outcome (list Z) :=
  let i := Z.quot x 10 in
  let i := if 5 <? i then 5 else i in
  let j := x - i * 10 in
  let j := if 9 <? j then 9 else j in
  c ← rd (bytes "-=+*#A" ++ [0]) i;
  ce ← wrn (replicate 10 32 ++ [0]) 0 (replicate (Z.to_nat (j + 1)) c);
  cstring ce 0.

(** [sqrt] of a [double] is cut to an [int]. *)
Definition cexpstr (exp : Z) : outcome (list Z) :=
  if exp <? 0 then cstring (replicate 10 32 ++ [0]) 0 else exp_text (Z.sqrt (Z.quot exp 5)).

Definition cnummedals (num : Z) : list Z :=
  if num <=? 0 then GLY_MEDAL0 else if num <=? 300 then GLY_MEDAL1 else if num <=? 1000 then GLY_MEDAL2
  else if num <=? 3000 then GLY_MEDAL3 else GLY_MEDAL4.

Definition cmoney (num : Z) : list Z :=
  if num <=? 100 then GLY_MONEY0 else if num <=? 3000 then GLY_MONEY1 else if num <=? 10000 then GLY_MONEY2
  else if num <=? 50000 then GLY_MONEY3 else if num <=? 150000 then GLY_MONEY4 else if num <=? 300000 then GLY_MONEY5
  else if num <=? 500000 then GLY_MONEY6 else GLY_MONEY7.

Definition cperf (perf : Z) : list Z :=
  if perf <=? 100 then GLY_CPERF0 else if perf <=? 200 then GLY_CPERF1 else if perf <=? 400 then GLY_CPERF2
  else if perf <=? 500 then GLY_CPERF3 else if perf <=? 550 then GLY_CPERF4 else if perf <=? 600 then GLY_CPERF5
  else if perf <=? 650 then GLY_CPERF6 else if perf <=? 700 then GLY_CPERF7 else if perf <=? 800 then GLY_CPERF8
  else if perf <=? 900 then GLY_CPERF9 else if perf <? 1000 then GLY_CPERFA else GLY_CPERFB.

(** The members are unsigned, their sum with a time is a [long], and the result
    an [int]. *)
Definition countexp (now : Z) (u : userec) : Z :=
  if bool_decide (userid u = bytes "guest") then 0
  else
    let exp := i32 (u32 (numposts u + numlogins u / 5) + Z.quot (now - firstlogin u) 86400 + stay u / 3600) in
    let exp := if 18000 <? exp then 18000 else exp in
    if 0 <? exp then exp else 0.

(** The days are an [int], the time online is unsigned and so is what is
    divided by it. *)
Definition countperf (now : Z) (u : userec) : outcome Z :=
  if bool_decide (userid u = bytes "guest") then Done 0
  else
    let reg_days := i32 (Z.quot (now - firstlogin u) 86400 + 1) in
    let perf := if 250 <? Z.quot reg_days 4 then 250 else Z.quot reg_days 4 in
    let perf := i32 (perf + (if 250 <? stay u / 14400 then 250 else stay u / 14400)) in
    let d := u32 (36 * reg_days) in
    if d =? 0 then Fault
    else
      let perf := i32 (perf + (if 500 <? stay u / d then 500 else stay u / d)) in
      let perf := if MAX_PERF <? perf then MAX_PERF else perf in
      Done (if perf <? 0 then 0 else perf).

(** * Dates *)

Definition julian_day (year month day : Z) : Z :=
  let a := Z.quot (14 - month) 12 in
  let y := year + 4800 - a in
  let m := month + 12 * a - 3 in
  i32 (day + Z.quot (153 * m + 2) 5 + 365 * y + Z.quot y 4 - Z.quot y 100 + Z.quot y 400 - 32045).

Definition days_elapsed (year month day now : Z) : Z :=
  i32 (Z.quot (now - 43200) 86400 + 2440588 - julian_day year month day).

Definition signs : list (list Z) := [
  [196; 166; 244; 201; 215; 249];
  [203; 174; 198; 191; 215; 249];
  [203; 171; 211; 227; 215; 249];
  [196; 181; 209; 242; 215; 249];
  [189; 240; 197; 163; 215; 249];
  [203; 171; 215; 211; 215; 249];
  [190; 222; 208; 183; 215; 249];
  [202; 168; 215; 211; 215; 249];
  [180; 166; 197; 174; 215; 249];
  [204; 236; 179; 211; 215; 249];
  [204; 236; 208; 171; 215; 249];
  [201; 228; 202; 214; 215; 249]].
Definition no_sign : list Z := [178; 187; 207; 234; 215; 249].

(** A month has the end of one sign, up to a day, and the start of the next. *)
Definition horoscope (month day : Z) : list Z :=
  let pick (n limit : Z) := default no_sign (signs !! Z.to_nat (if day <? limit then n - 1 else n mod 12)) in
  if month =? 1 then pick 1 21 else if month =? 2 then pick 2 19 else if month =? 3 then pick 3 21
  else if month =? 4 then pick 4 21 else if month =? 5 then pick 5 21 else if month =? 6 then pick 6 22
  else if month =? 7 then pick 7 23 else if month =? 8 then pick 8 23 else if month =? 9 then pick 9 23
  else if month =? 10 then pick 10 24 else if month =? 11 then pick 11 23 else if month =? 12 then pick 12 22
  else no_sign.

(** * The value of an account, as built for the public site *)

Definition HP_NEW : Z := 14.
Definition HP_NORMAL1 : Z := 150.
Definition HP_NORMAL2 : Z := 365.
Definition HP_NORMAL3 : Z := 666.
Definition HP_PERMANENT : Z := 999.

Definition compute_user_value (now : Z) (u : userec) : Z :=
  let deduction := i32 (Z.quot (now - lastlogin u) 86400) in
  let rdays := i32 (Z.quot (now - firstlogin u) 86400) in
  if has u PERM_XEMPT || bool_decide (userid u = bytes "SYSOP") || bool_decide (userid u = bytes "guest") then HP_PERMANENT
  else if negb (has u PERM_REGISTER) then HP_NEW - deduction
  else if 5 * 365 <=? rdays then HP_NORMAL3 - deduction
  else if 2 * 365 <=? rdays then HP_NORMAL2 - deduction
  else HP_NORMAL1 - deduction.

(** * Checks *)

(** [strchr] finds the NUL, too. The full-width blank is two bytes. *)
Definition check_user_profile (u : userec) : outcome Z :=
  two ← strstr (username u ++ [0]) 0 (bytes "  ");
  wide ← strstr (username u ++ [0]) 0 [161; 161];
  if (blen (username u) <? 2) || bool_decide (is_Some two) || bool_decide (is_Some wide) then Done UINFO_ENICK
  else if negb (existsb (Z.eqb (gender u)) (bytes "MF" ++ [0])) then Done UINFO_EGENDER
  else
    let year := birthyear u + 1900 in
    if (year <? MIN_BIRTH_YEAR) || (MAX_BIRTH_YEAR <? year) then Done UINFO_EBIRTH
    else if negb (valid_date year (birthmonth u) (birthday u)) then Done UINFO_EBIRTH
    else Done 0.

(** * The time online *)

Definition set_times (s li lo : Z) (u : userec) : userec :=
  Userec (userid u) (username u) (userlevel u) (numlogins u) (numposts u) s
    (gender u) (birthyear u) (birthmonth u) (birthday u) (firstlogin u) li lo.

Definition last_seen (u : userec) : Z := if lastlogin u <? lastlogout u then lastlogout u else lastlogin u.

Definition update_user_stay (now : Z) (u : userec) (is_login is_dup : bool) : Z * userec :=
  let st := i32 (now - last_seen u) in
  let st := if st <? 0 then 0 else st in
  let s := if negb is_login || is_dup then u32 (stay u + st) else stay u in
  (st, if is_login then set_times s (u32 now) (lastlogout u) u else set_times s (lastlogin u) (u32 now) u).

(** [calc_user_stay] of [lib/user.c]. *)
Definition calc_user_stay (now : Z) (is_login is_dup : bool) (login logout : Z) : Z :=
  let last := if login <? logout then logout else login in
  let st := i32 (now - last) in
  if (st <? 0) || (is_login && negb is_dup) then 0 else st.

(** * The position of a user *)

Definition TITLE_CCHARS : Z := 15.
Definition esc (s : list Z) : list Z := [27; 91] ++ s.
Definition badge (s : list Z) : list Z := bytes "[" ++ esc (bytes "1;32m") ++ s ++ esc (bytes "m]").

(** The buffer, and the place and the room in it. *)
Definition cursor : Type := Z * Z * list Z.
Definition append (s : list Z) (c : cursor) : outcome cursor := let '(dst, size, md) := c in strappend md dst size (s ++ [0]) 0.
Definition append_if (b : bool) (s : list Z) (c : cursor) : outcome cursor := if b then append s c else Done c.

(** Every line of the file, with a blank for its last byte. A line that begins
    with a NUL makes the byte before the line a blank. *)
Fixpoint bm_loop (fuel : nat) (tmp s : list Z) (c : cursor) : outcome cursor :=
  match fuel with
  | O => NoFuel
  | S fuel =>
      r ← fgets tmp STRLEN s;
      match r with
      | None => Done c
      | Some (tmp, s) =>
          n ← strlen tmp 0;
          tmp ← wr tmp (n - 1) 32;
          line ← cstring tmp 0;
          c ← append line c;
          bm_loop fuel tmp s c
      end
  end.

Definition show_bm (file : option (list Z)) (tmp : list Z) (c : cursor) : outcome (Z * cursor) :=
  match file with
  | Some s =>
      c ← append (bytes "[" ++ esc (bytes "1;33m")) c;
      c ← bm_loop (length s + 1) tmp s c;
      c ← append (esc (bytes "32m") ++ [176; 230; 176; 230; 214; 247] ++ esc (bytes "m]")) c;
      Done (1, c)
  | None => Done (0, c)
  end.

(** [snprintf] of a text into the room of a cursor. *)
Definition snprintf_at (s : list Z) (c : cursor) : outcome (list Z) :=
  let '(dst, size, md) := c in
  if size =? 0 then Done md else wrn md dst (take (Z.to_nat (size - 1)) s ++ [0]).

Definition staff (u : userec) (c : cursor) : outcome cursor :=
  append (badge (if has u PERM_SYSOPS then [213; 190; 179; 164]
                 else if has u PERM_ANNOUNCE then [213; 190; 206; 241]
                 else if has u PERM_OCHAT then [202; 181; 207; 176; 213; 190; 206; 241]
                 else if has u PERM_SPECIAL0 then [213; 190; 206; 241; 206; 175; 212; 177; 187; 225; 195; 216; 202; 233]
                 else [192; 235; 200; 206; 213; 190; 206; 241])) c.

Definition groups (u : userec) (bmfile : option (list Z)) (tmp : list Z) (c : cursor) : outcome cursor :=
  c ← append_if (has u PERM_XEMPT && has u PERM_LONGLIFE && has u PERM_LARGEMAIL) (badge [200; 217; 211; 254; 176; 230; 214; 247]) c;
  c ← (if has u PERM_BOARDS then '(_, c) ← show_bm bmfile tmp c; Done c else Done c);
  c ← append_if (has u PERM_ARBI) (badge [214; 217; 178; 195; 215; 233]) c;
  c ← append_if (has u PERM_SERV) (badge [197; 224; 209; 181; 215; 233]) c;
  c ← append_if (has u PERM_SPECIAL2) (badge [183; 254; 206; 241; 215; 233]) c;
  c ← append_if (has u PERM_SPECIAL3) (badge [195; 192; 185; 164; 215; 233]) c;
  append_if (has u PERM_TECH) (badge [188; 188; 202; 245; 215; 233]) c.

(** The title is the converted one, which fits its buffer. *)
Definition show_position (u : userec) (md : list Z) (size : Z) (title : option (list Z)) (bmfile : option (list Z)) (tmp : list Z)
    : outcome (list Z) :=
  md ← wr md 0 0;
  c ← (if has u PERM_SPECIAL9 then staff u (0, size, md) else groups u bmfile tmp (0, size, md));
  c ← match title with
      | Some ((_ :: _) as t) =>
          append (take (Z.to_nat (TITLE_CCHARS * 4 + 13 - 1)) (bytes "[" ++ esc (bytes "1;33m") ++ t ++ esc (bytes "m]"))) c
      | _ => Done c
      end;
  h ← rd (c.2) 0;
  if h =? 0 then snprintf_at (bytes "[" ++ esc (bytes "1;32m") ++ [200; 170; 213; 190; 205; 248; 211; 209] ++ esc (bytes "m]")) c
  else Done c.2.

(** * The calendar *)

Definition date : Type := Z * Z * Z.
Definition valid (d : date) : Prop := let '(y, m, dd) := d in valid_date y m dd = true /\ 1 <= y <= 1000000.
Definition jd (d : date) : Z := let '(y, m, dd) := d in julian_day y m dd.

(** The day after a day: of the same month, or the first of the next month, or
    of the next year. *)
Definition tomorrow (d : date) : date :=
  let '(y, m, dd) := d in
  if valid_date y m (dd + 1) then (y, m, dd + 1) else if m =? 12 then (y + 1, 1, 1) else (y, m + 1, 1).

Definition leap (y : Z) : bool := (y mod 4 =? 0) && negb ((y mod 100 =? 0) && negb (y mod 400 =? 0)).
Definition month_days (y m : Z) : Z :=
  if m =? 2 then if leap y then 29 else 28 else if (m =? 4) || (m =? 6) || (m =? 9) || (m =? 11) then 30 else 31.

Lemma valid_date_eq y m d : 1 <= y -> valid_date y m d = (1 <=? m) && (m <=? 12) && (1 <=? d) && (d <=? month_days y m).
Proof.
  intros Hy. unfold valid_date, month_days, leap. rewrite !Z.rem_mod_nonneg by lia.
  destruct (Z.ltb_spec m 1), (Z.ltb_spec 12 m); cbn [orb]; lia.
Qed.

(** The days before a month of a year, and before a year; months are counted
    from March on. *)
Definition year_days (y : Z) : Z := 365 * y + y / 4 - y / 100 + y / 400.

Lemma julian_day_eq y m d : 1 <= y <= 2000000 -> 1 <= m <= 12 -> 1 <= d <= 31 ->
  julian_day y m d = d + (153 * ((m + 9) mod 12) + 2) / 5 + year_days (y + 4800 - (if m <=? 2 then 1 else 0)) - 32045.
Proof.
  intros Hy Hm Hd. unfold julian_day, year_days.
  assert (Z.quot (14 - m) 12 = if m <=? 2 then 1 else 0) as ->.
  { rewrite Z.quot_div_nonneg by lia. destruct (Z.leb_spec m 2); Z.div_mod_to_equations; lia. }
  set (a := if m <=? 2 then 1 else 0). assert (0 <= a <= 1) by (subst a; destruct (m <=? 2); lia).
  assert (m + 12 * a - 3 = (m + 9) mod 12) as -> by (subst a; destruct (Z.leb_spec m 2); Z.div_mod_to_equations; lia).
  pose proof (Z.mod_pos_bound (m + 9) 12 ltac:(lia)). set (r := (m + 9) mod 12) in *. set (z := y + 4800 - a).
  rewrite !Z.quot_div_nonneg by lia. unfold i32. rewrite Z.mod_small; [lia|]. clearbody r. subst z. Z.div_mod_to_equations. lia.
Qed.

Lemma year_days_step y : 1 <= y -> year_days (y + 4800 - 0) - year_days (y + 4800 - 1) = if leap y then 366 else 365.
Proof.
  intros Hy. unfold year_days, leap.
  assert ((y mod 4 =? 0) && negb ((y mod 100 =? 0) && negb (y mod 400 =? 0)) =
    (((y + 4800) mod 4 =? 0) && negb (((y + 4800) mod 100 =? 0) && negb ((y + 4800) mod 400 =? 0)))) as ->.
  { rewrite <- (Z.mod_add y 1200 4), <- (Z.mod_add y 48 100), <- (Z.mod_add y 12 400) by lia. done. }
  rewrite Z.sub_0_r. set (z := y + 4800). assert (1 <= z) by lia. clearbody z.
  destruct (Z.eqb_spec (z mod 4) 0), (Z.eqb_spec (z mod 100) 0), (Z.eqb_spec (z mod 400) 0); cbn [andb negb]; Z.div_mod_to_equations; lia.
Qed.

Lemma tomorrow_jd d : valid d -> jd (tomorrow d) = jd d + 1 /\ let '(y, m, dd) := tomorrow d in valid_date y m dd = true /\ 1 <= y.
Proof.
  destruct d as [[y m] dd]. intros [Hv Hy]. rewrite valid_date_eq in Hv by lia.
  apply andb_true_iff in Hv as [Hv Hd2]. apply andb_true_iff in Hv as [Hv Hd1]. apply andb_true_iff in Hv as [Hm1 Hm2].
  apply Z.leb_le in Hd2, Hd1, Hm1, Hm2. assert (28 <= month_days y m <= 31) as Hmd.
  { unfold month_days. destruct (m =? 2), (leap y), ((m =? 4) || (m =? 6) || (m =? 9) || (m =? 11)); lia. }
  unfold tomorrow. rewrite valid_date_eq by lia.
  destruct (Z.leb_spec (dd + 1) (month_days y m)) as [Hlt|Hge].
  - rewrite (proj2 (Z.leb_le 1 m)), (proj2 (Z.leb_le m 12)), (proj2 (Z.leb_le 1 (dd + 1))) by lia. cbn [andb jd].
    rewrite !julian_day_eq by lia. split; [lia|]. rewrite valid_date_eq by lia. lia.
  - rewrite andb_false_r. assert (dd = month_days y m) by lia. subst dd. clear Hge. destruct (Z.eqb_spec m 12) as [->|Hm].
    + cbn [jd]. rewrite !julian_day_eq by lia. split; [|split; [by rewrite valid_date_eq by lia|lia]]. change (month_days y 12) with 31.
      change (12 <=? 2) with false. change (1 <=? 2) with true. cbn iota. replace (y + 1 + 4800 - 1) with (y + 4800 - 0) by lia.
      generalize (year_days (y + 4800 - 0)). intros. Z.div_mod_to_equations. lia.
    + cbn [jd]. rewrite !julian_day_eq by lia. pose proof (year_days_step y ltac:(lia)).
      assert (m = 1 \/ m = 2 \/ m = 3 \/ m = 4 \/ m = 5 \/ m = 6 \/ m = 7 \/ m = 8 \/ m = 9 \/ m = 10 \/ m = 11) as Hc by lia.
      unfold month_days. split.
      2: { split; [|lia]. rewrite valid_date_eq by lia. unfold month_days. repeat destruct Hc as [->|Hc]; [..|subst m]; cbn; by destruct (leap y). }
      assert (exists n, m + 1 = n) as [n Hn] by eauto. rewrite Hn.
      repeat destruct Hc as [->|Hc]; [..|subst m]; vm_compute in Hn; subst n; cbn [Z.eqb Z.leb Z.compare Pos.eqb Pos.compare Pos.compare_cont orb];
        revert H; generalize (year_days (y + 4800 - 0)), (year_days (y + 4800 - 1)); intros; destruct (leap y); Z.div_mod_to_equations; lia.
Qed.

Lemma tomorrow_year d : let '(y, m, dd) := tomorrow d in let '(y0, _, _) := d in y0 <= y <= y0 + 1.
Proof. destruct d as [[y m] dd]. unfold tomorrow. destruct (valid_date _ _ _); [lia|]. destruct (m =? 12); lia. Qed.

Lemma days_later n : forall y m d, valid_date y m d = true -> 1 <= y -> y + Z.of_nat n <= 1000000 ->
  jd (Nat.iter n tomorrow (y, m, d)) = julian_day y m d + Z.of_nat n.
Proof.
  induction n as [|n IH]; intros y m d Hv Hy Hn; [cbn; lia|]. rewrite Nat.iter_succ_r.
  pose proof (tomorrow_jd (y, m, d) ltac:(split; [done|lia])) as [Hj Hv']. pose proof (tomorrow_year (y, m, d)) as Hyear.
  destruct (tomorrow (y, m, d)) as [[y' m'] d']. destruct Hv' as [Hv' Hy']. rewrite IH by (done || lia). cbn [jd] in Hj. lia.
Qed.

(** C26. The days that have elapsed are counted by the calendar: when [n] days
    after a date it is the day that begins [k] days after the first of January
    1970, then [n] is what is computed, from noon of that day (UTC) to noon of
    the next. *)
Theorem days_elapsed_counts (year month day now : Z) (n k : nat) :
  valid_date year month day = true -> 1 <= year <= 9999 -> Z.of_nat n <= 400000 -> Z.of_nat k <= 400000 ->
  Nat.iter n tomorrow (year, month, day) = Nat.iter k tomorrow (1970, 1, 1) ->
  Z.of_nat k * 86400 + 43200 <= now < Z.of_nat (S k) * 86400 + 43200 ->
  days_elapsed year month day now = Z.of_nat n.
Proof.
  intros Hv Hy Hn Hk Heq Hnow. apply (f_equal jd) in Heq.
  rewrite (days_later n year month day), (days_later k 1970 1 1) in Heq by (done || lia).
  change (julian_day 1970 1 1) with 2440588 in Heq.
  unfold days_elapsed. assert (Z.quot (now - 43200) 86400 = Z.of_nat k) as ->.
  { rewrite Z.quot_div_nonneg by lia. Z.div_mod_to_equations. lia. }
  replace (Z.of_nat k + 2440588 - julian_day year month day) with (Z.of_nat n) by lia.
  unfold i32. rewrite Z.mod_small by lia. lia.
Qed.

Lemma days_elapsed_counts_witness : days_elapsed 2000 2 28 (11017 * 86400 + 50000) = 2.
Proof.
  apply (days_elapsed_counts 2000 2 28 (11017 * 86400 + 50000) 2 (Z.to_nat 11017)); [done|lia|lia|lia|by vm_compute|lia].
Defined.

(** In the morning the day is still the one before. *)
Example morning : days_elapsed 1970 1 2 (86400 + 10 * 3600) = -1 /\ days_elapsed 1970 1 2 (86400 + 12 * 3600) = 0.
Proof. by vm_compute. Qed.

(** * Grades are within their bounds *)

Lemma exp_text_total x : 0 <= x -> exists s, exp_text x = Done s /\ length s = 10%nat.
Proof.
  intros Hx. assert (exists y, 0 <= y <= 60 /\ exp_text x = exp_text y) as (y & Hy & ->).
  { destruct (Z.le_gt_cases x 60); [by exists x|]. exists 60. split; [lia|]. unfold exp_text.
    rewrite Z.quot_div_nonneg by lia. assert (6 <= x / 10) by (Z.div_mod_to_equations; lia).
    rewrite (proj2 (Z.ltb_lt 5 (x / 10))) by lia. change (5 <? Z.quot 60 10) with true. cbn iota.
    rewrite (proj2 (Z.ltb_lt 9 (x - 5 * 10))) by lia. done. }
  pose proof (byte_table (fun y => (60 <? y) || match exp_text y with Done s => Nat.eqb (length s) 10 | _ => false end)
    ltac:(by vm_compute) y ltac:(unfold is_u8; width; lia)) as H. cbn beta in H.
  rewrite (proj2 (Z.ltb_ge 60 y)) in H by lia. cbn [orb] in H. destruct (exp_text y) as [s| |]; [|done..].
  exists s. split; [done|]. by apply Nat.eqb_eq.
Qed.

Theorem cexpstr_ten exp : exists s, cexpstr exp = Done s /\ length s = 10%nat.
Proof.
  unfold cexpstr. destruct (exp <? 0); [by eexists|]. apply exp_text_total, Z.sqrt_nonneg.
Qed.

Theorem countexp_range now u : 0 <= countexp now u <= 18000.
Proof.
  unfold countexp. destruct (bool_decide _); [lia|]. cbn zeta. set (e := i32 _). clearbody e.
  repeat case_match; lia.
Qed.

(** Performance is from 0 to 1000, but cannot be computed for a user whose
    first login is more than one day and up to two days ahead. *)
Theorem countperf_range now u : 0 <= now < 2 ^ 32 -> 0 <= firstlogin u < 2 ^ 32 ->
  match countperf now u with
  | Done perf => 0 <= perf <= MAX_PERF
  | _ => 86400 <= firstlogin u - now < 2 * 86400
  end.
Proof.
  intros Hn Hf. unfold countperf, MAX_PERF. destruct (bool_decide _); [lia|]. cbn zeta.
  assert (i32 (Z.quot (now - firstlogin u) 86400 + 1) = Z.quot (now - firstlogin u) 86400 + 1) as ->.
  { unfold i32. rewrite Z.mod_small; [lia|]. pose proof (Z.quot_rem' (now - firstlogin u) 86400).
    pose proof (Z.rem_bound_abs (now - firstlogin u) 86400 ltac:(lia)). lia. }
  set (r := Z.quot (now - firstlogin u) 86400 + 1). destruct (Z.eqb_spec (u32 (36 * r)) 0) as [H0|H0].
  - assert (r = 0) as Hr.
    { pose proof (Z.quot_rem' (now - firstlogin u) 86400). pose proof (Z.rem_bound_abs (now - firstlogin u) 86400 ltac:(lia)).
      unfold u32 in H0. apply Z.mod_divide in H0 as [q Hq]; [|lia]. subst r. lia. }
    subst r. pose proof (Z.quot_rem' (now - firstlogin u) 86400). pose proof (Z.rem_bound_abs (now - firstlogin u) 86400 ltac:(lia)).
    assert (now - firstlogin u < 0) by (destruct (Z.lt_ge_cases (now - firstlogin u) 0); [done|]; pose proof (Z.quot_pos (now - firstlogin u) 86400); lia).
    pose proof (Z.rem_nonpos (now - firstlogin u) 86400). lia.
  - set (p := i32 (i32 _ + _)). clearbody p. destruct (Z.ltb_spec 1000 p); [done|]. destruct (Z.ltb_spec p 0); lia.
Qed.

(** * The time online *)

(** Logins ([true]) and logouts of a user, and how many sessions there are. A
    login is told whether there are other sessions. *)
Definition sessions_after (n : Z) (login : bool) : Z := if login then n + 1 else n - 1.
Fixpoint play (n : Z) (u : userec) (evs : list (Z * bool)) : userec :=
  match evs with
  | [] => u
  | (t, login) :: evs => play (sessions_after n login) (update_user_stay t u login (0 <? n)).2 evs
  end.

(** In the order of their times, which fit 32 bits and are less than 68 years
    apart; no logout without a session. *)
Fixpoint in_order (n last : Z) (evs : list (Z * bool)) : Prop :=
  match evs with
  | [] => True
  | (t, login) :: evs =>
      last <= t < 2 ^ 32 /\ t - last < 2 ^ 31 /\ (login = true \/ 0 < n) /\ in_order (sessions_after n login) t evs
  end.

(** Whether the user is online in the second from [x] on. *)
Definition online (n : Z) (evs : list (Z * bool)) (x : Z) : bool :=
  0 <? foldl sessions_after n ((fun e => e.2) <$> filter (fun e => e.1 <= x) evs).
Definition seconds (from to : Z) (f : Z -> bool) : Z := Z.of_nat (length (filter (fun x => f x = true) (seqZ from (to - from)))).
Fixpoint last_time (t : Z) (evs : list (Z * bool)) : Z := match evs with [] => t | (t, _) :: evs => last_time t evs end.

Lemma in_order_last n evs : forall last, in_order n last evs -> last <= last_time last evs.
Proof.
  revert n. induction evs as [|[t b] evs IH]; intros n last H; cbn in *; [lia|]. destruct H as (H & _ & _ & Ho).
  specialize (IH _ _ Ho). lia.
Qed.

Lemma seconds_split a b c f : a <= b <= c -> seconds a c f = seconds a b f + seconds b c f.
Proof.
  intros H. unfold seconds. replace (c - a) with ((b - a) + (c - b)) by lia. rewrite seqZ_app by lia.
  rewrite list_basics.list.filter_app, length_app. replace (a + (b - a)) with b by lia. lia.
Qed.

Lemma seconds_const a b f v : a <= b -> (forall x, a <= x < b -> f x = v) -> seconds a b f = if v then b - a else 0.
Proof.
  intros Hab Hf. unfold seconds. assert (forall l, Forall (fun x => f x = v) l ->
    filter (fun x => f x = true) l = if v then l else []) as H.
  { induction l as [|x l IH]; intros Hl; [by destruct v|]. apply Forall_cons_1 in Hl as [Hx Hl]. rewrite filter_cons, IH by done.
    destruct v; [by rewrite decide_True|]. rewrite decide_False; [done|]. by rewrite Hx. }
  rewrite H.
  - destruct v; [rewrite length_seqZ; lia|done].
  - apply List.Forall_forall. intros x Hx. apply list_elem_of_In, elem_of_seqZ in Hx. apply Hf. lia.
Qed.

Lemma seconds_ext a b f g : (forall x, a <= x < b -> f x = g x) -> seconds a b f = seconds a b g.
Proof.
  intros H. unfold seconds. f_equal. f_equal. assert (Forall (fun x => f x = g x) (seqZ a (b - a))) as Hl.
  { apply List.Forall_forall. intros x Hx. apply list_elem_of_In, elem_of_seqZ in Hx. apply H. lia. }
  induction Hl as [|x l Hx _ IH]; [done|]. rewrite !filter_cons, IH. by rewrite Hx.
Qed.

Lemma later_events n evs : forall last x, in_order n last evs -> x < last -> filter (fun e : Z * bool => e.1 <= x) evs = [].
Proof.
  revert n. induction evs as [|[t b] evs IH]; intros n last x H Hx; [done|]. cbn in H. destruct H as (H & _ & _ & Ho).
  rewrite filter_cons, decide_False by (cbn; lia). eapply IH; [exact Ho|lia].
Qed.

Lemma last_seen_set s t u login : last_seen u <= t -> 0 <= lastlogin u -> 0 <= lastlogout u -> t < 2 ^ 32 ->
  last_seen (if login : bool then set_times s (u32 t) (lastlogout u) u else set_times s (lastlogin u) (u32 t) u) = t.
Proof.
  unfold last_seen. intros H H1 H2 Ht. assert (u32 t = t) as ->.
  { apply Z.mod_small. destruct (Z.ltb_spec (lastlogin u) (lastlogout u)); lia. }
  destruct login; cbn [set_times lastlogin lastlogout] in *;
    destruct (Z.ltb_spec (lastlogin u) (lastlogout u)), (Z.ltb_spec t (lastlogout u)), (Z.ltb_spec (lastlogin u) t); lia.
Qed.

Lemma stay_added n t u login : 0 <= lastlogin u -> 0 <= lastlogout u -> last_seen u <= t < 2 ^ 32 -> t - last_seen u < 2 ^ 31 ->
  login = true \/ 0 < n -> 0 <= stay u < 2 ^ 32 ->
  let u' := (update_user_stay t u login (0 <? n)).2 in
  stay u' = u32 (stay u + (if 0 <? n then t - last_seen u else 0)) /\ last_seen u' = t /\
  0 <= lastlogin u' /\ 0 <= lastlogout u' /\ 0 <= stay u' < 2 ^ 32.
Proof.
  intros H1 H2 Ht Hgap Hn Hs. cbn zeta. unfold update_user_stay.
  assert (i32 (t - last_seen u) = t - last_seen u) as -> by (unfold i32; rewrite Z.mod_small; lia).
  destruct (Z.ltb_spec (t - last_seen u) 0); [lia|]. cbn zeta. cbn [snd].
  set (s := if _ || _ then _ else _). assert (s = u32 (stay u + (if 0 <? n then t - last_seen u else 0))) as Hst.
  { subst s. destruct (Z.ltb_spec 0 n); [by rewrite orb_true_r|]. destruct Hn as [-> |]; [|lia]. cbn.
    unfold u32. rewrite Z.add_0_r, Z.mod_small; lia. }
  clearbody s. subst s. pose proof (last_seen_set (u32 (stay u + (if 0 <? n then t - last_seen u else 0))) t u login ltac:(lia) H1 H2 ltac:(lia)) as Hl.
  pose proof (Z.mod_pos_bound (stay u + (if 0 <? n then t - last_seen u else 0)) (2 ^ 32) ltac:(lia)) as Hb.
  pose proof (Z.mod_pos_bound t (2 ^ 32) ltac:(lia)) as Hb'.
  destruct login; (split; [done|]; split; [exact Hl|]); cbn [set_times lastlogin lastlogout stay]; unfold u32; lia.
Qed.


Definition newcomer : userec := Userec (bytes "newcomer") (bytes "new one") 0 1 0 100 77 80 1 2 1000 1000 900.


(** A gender that is NUL passes the check; the string is searched with its
    end. *)
Example no_gender : check_user_profile (Userec (bytes "x") (bytes "no one") 0 0 0 0 0 80 2 29 0 0 0) = Done 0.
Proof. by vm_compute. Qed.

Theorem calc_same now u is_login is_dup : 0 <= stay u < 2 ^ 32 ->
  stay (update_user_stay now u is_login is_dup).2 = u32 (stay u + calc_user_stay now is_login is_dup (lastlogin u) (lastlogout u)).
Proof.
  intros Hs. unfold update_user_stay, calc_user_stay. fold (last_seen u). set (st := i32 _). clearbody st. cbn zeta.
  assert (u32 (stay u + 0) = stay u) as H0 by (rewrite Z.add_0_r; by apply Z.mod_small).
  destruct (Z.ltb_spec st 0), is_login, is_dup; cbn [negb orb andb snd set_times stay]; rewrite ?H0; done.
Qed.

(** * The position fits its buffer *)

(** The cursor is within a buffer of [total] bytes, and its room ends there. *)
Definition fits (total : Z) (c : cursor) : Prop := let '(dst, size, md) := c in 0 <= dst /\ 0 <= size /\ dst + size = total /\ blen md = total.

Lemma append_fits total s c : fits total c -> nul_free s -> blen s < 2 ^ 64 -> exists c', append s c = Done c' /\ fits total c'.
Proof.
  destruct c as [[dst size] md]. intros (Hd & Hs & Ht & Hm) Hn Hb. unfold append, strappend.
  pose proof (strlcpy_eq (take (Z.to_nat dst) md) (drop (Z.to_nat dst) md) [] [] s [] size Hn Hb Hs) as H.
  assert (blen (take (Z.to_nat dst) md) = dst) as Hpre by (unfold blen in *; rewrite length_take; lia).
  assert (blen (drop (Z.to_nat dst) md) = size) as Hold by (unfold blen in *; rewrite length_drop; lia).
  rewrite Hpre, Hold, app_nil_r, take_drop in H. cbn [app] in H. change (blen []) with 0 in H. rewrite H by lia. clear H.
  cbn [mbind outcome_bind]. eexists. split; [done|]. cbn zeta. pose proof (blen_nonneg s).
  assert (0 <= (if size <=? blen s then size else blen s) <= size) as Hl by (destruct (Z.leb_spec size (blen s)); lia).
  repeat split; [lia..|]. destruct (Z.eqb_spec size 0); [done|].
  assert (size = Z.of_nat (length (drop (Z.to_nat dst) md))) as E by (unfold blen in *; lia).
  rewrite app_nil_r, !blen_app, blen_cons, Hpre. set (d := drop (Z.to_nat dst) md) in *. clearbody d.
  unfold blen in *. rewrite length_take, length_drop. lia.
Qed.

Lemma append_if_fits total b s c : fits total c -> nul_free s -> blen s < 2 ^ 64 -> exists c', append_if b s c = Done c' /\ fits total c'.
Proof. destruct b; [apply append_fits|]. intros H _ _. by exists c. Qed.

Lemma bm_loop_fits total rows : forall fuel tmp c, fits total c -> Forall (row_ok STRLEN) rows -> blen tmp = STRLEN -> (length rows < fuel)%nat ->
  exists c', bm_loop fuel tmp (text_of rows) c = Done c' /\ fits total c'.
Proof.
  induction rows as [|row rows IH]; intros [|fuel] tmp c Hc Hr Ht Hf; cbn [length] in Hf; try lia; cbn [bm_loop]; [by exists c|].
  apply Forall_cons_1 in Hr as [Hrow Hr]. rewrite text_of_cons.
  destruct (fgets_row tmp STRLEN row (text_of rows) Hrow Ht) as (tl & -> & Hb). cbn [mbind outcome_bind].
  destruct Hrow as (Hnul & _ & Hlen).
  assert (nul_free (row ++ [10])) as Hn by (apply Forall_app; split; [done|by repeat constructor]).
  rewrite (strlen_at _ [] (row ++ [10]) tl) by (done || app_eq). cbn [mbind outcome_bind].
  rewrite (wr_at _ row 10 (0 :: tl)) by (done || blen). cbn [mbind outcome_bind]. change (u8 32) with 32.
  assert (nul_free (row ++ [32])) as Hn' by (apply Forall_app; split; [done|by repeat constructor]).
  rewrite (cstring_at _ [] (row ++ [32]) tl) by (done || app_eq). cbn [mbind outcome_bind].
  destruct (append_fits total (row ++ [32]) c Hc Hn') as (c1 & -> & H1); [unfold STRLEN in *; blen|]. cbn [mbind outcome_bind].
  apply IH; [done|done| |lia]. rewrite <- Hb. rewrite !blen_app, !blen_cons. lia.
Qed.

Lemma show_bm_fits total rows tmp c : fits total c -> Forall (row_ok STRLEN) rows -> blen tmp = STRLEN ->
  exists r c', show_bm (Some (text_of rows)) tmp c = Done (r, c') /\ fits total c'.
Proof.
  intros Hc Hr Ht. unfold show_bm.
  destruct (append_fits total (bytes "[" ++ esc (bytes "1;33m")) c Hc) as (c1 & -> & H1); [by repeat constructor|done|]. cbn [mbind outcome_bind].
  destruct (bm_loop_fits total rows (length (text_of rows) + 1) tmp c1 H1 Hr Ht) as (c2 & -> & H2).
  { clear. induction rows as [|row rows IH]; [cbn; lia|]. rewrite text_of_cons, length_app. cbn. lia. }
  cbn [mbind outcome_bind].
  destruct (append_fits total (esc (bytes "32m") ++ [176; 230; 176; 230; 214; 247] ++ esc (bytes "m]")) c2 H2) as (c3 & -> & H3); [by repeat constructor|done|].
  by exists 1, c3.
Qed.

Lemma badge_text s : nul_free s -> blen s < 2 ^ 32 -> nul_free (badge s) /\ blen (badge s) < 2 ^ 64.
Proof.
  intros Hn Hs. unfold badge, esc. split.
  - repeat (apply Forall_app; split); (done || by repeat constructor).
  - rewrite !blen_app. change (blen (bytes "[")) with 1. change (blen [27; 91]) with 2. change (blen (bytes "1;32m")) with 5.
    change (blen (bytes "m]")) with 2. lia.
Qed.

Lemma groups_fits total u rows tmp c : fits total c -> Forall (row_ok STRLEN) rows -> blen tmp = STRLEN ->
  exists c', groups u (Some (text_of rows)) tmp c = Done c' /\ fits total c'.
Proof.
  intros Hc Hr Ht. unfold groups.
  assert (forall b s c, fits total c -> nul_free s -> blen s < 2 ^ 32 -> exists c', append_if b (badge s) c = Done c' /\ fits total c') as Hb.
  { intros b s c0 H0 Hn Hl. destruct (badge_text s Hn Hl). by apply append_if_fits. }
  edestruct Hb as (c1 & -> & H1); [exact Hc|by repeat constructor|done|]. cbn [mbind outcome_bind].
  assert (exists c2, (if has u PERM_BOARDS then '(_, c) ← show_bm (Some (text_of rows)) tmp c1; Done c else Done c1) = Done c2 /\ fits total c2) as (c2 & -> & H2).
  { destruct (has u PERM_BOARDS); [|by exists c1]. destruct (show_bm_fits total rows tmp c1 H1 Hr Ht) as (r & c2 & -> & H2). by exists c2. }
  cbn [mbind outcome_bind].
  edestruct Hb as (c3 & -> & H3); [exact H2|by repeat constructor|done|]. cbn [mbind outcome_bind].
  edestruct Hb as (c4 & -> & H4); [exact H3|by repeat constructor|done|]. cbn [mbind outcome_bind].
  edestruct Hb as (c5 & -> & H5); [exact H4|by repeat constructor|done|]. cbn [mbind outcome_bind].
  edestruct Hb as (c6 & -> & H6); [exact H5|by repeat constructor|done|]. cbn [mbind outcome_bind].
  edestruct Hb as (c7 & -> & H7); [exact H6|by repeat constructor|done|]. by exists c7.
Qed.

(** Whatever the user is and however many boards are managed, nothing behind
    the room is written. *)
Theorem position_fits u md title rows tmp : 1 <= blen md < 2 ^ 32 -> Forall (row_ok STRLEN) rows -> blen tmp = STRLEN ->
  (forall t, title = Some t -> nul_free t) ->
  exists md', show_position u md (blen md) title (Some (text_of rows)) tmp = Done md' /\ blen md' = blen md.
Proof.
  intros Hm Hr Ht Htitle. unfold show_position. destruct md as [|h md]; [unfold blen in *; cbn in *; lia|].
  rewrite (wr_at _ [] h md) by done. cbn [mbind outcome_bind app]. change (u8 0) with 0.
  assert (fits (blen (h :: md)) (0, blen (h :: md), 0 :: md)) as H0 by (split; [lia|split; [lia|split; [lia|done]]]).
  set (total := blen (h :: md)) in *.
  assert (exists c, (if has u PERM_SPECIAL9 then staff u (0, total, 0 :: md) else groups u (Some (text_of rows)) tmp (0, total, 0 :: md)) = Done c /\ fits total c)
    as (c & -> & Hc).
  { destruct (has u PERM_SPECIAL9); [|by apply groups_fits]. unfold staff. apply append_fits; [done|..].
    all: apply badge_text; repeat (match goal with |- context [if ?b then _ else _] => destruct b end); (done || by repeat constructor). }
  cbn [mbind outcome_bind].
  set (t := match title with Some (_ :: _) => _ | _ => _ end).
  assert (exists c, t = Done c /\ fits total c) as (c' & -> & Hc').
  { subst t. destruct title as [[|x l]|]; [by exists c| |by exists c]. apply append_fits; [done|..].
    - apply Forall_take. apply Forall_app; split; [by repeat constructor|]. apply Forall_app; split; [by repeat constructor|].
      apply Forall_app; split; [by apply Htitle|by repeat constructor].
    - unfold blen, TITLE_CCHARS. rewrite length_take. lia. }
  cbn [mbind outcome_bind]. destruct c' as [[dst size] m]. destruct Hc' as (Hd & Hs & Hsum & Hl). cbn [snd].
  destruct m as [|x m]; [unfold blen in *; cbn in *; lia|]. rewrite (rd_at _ [] x m) by done. cbn [mbind outcome_bind].
  destruct (x =? 0); [|by exists (x :: m)]. unfold snprintf_at. destruct (Z.eqb_spec size 0); [by exists (x :: m)|].
  set (s := take _ _ ++ [0]). assert (blen s <= size) as Hss.
  { subst s. unfold blen. rewrite length_app, length_take. cbn [length]. lia. }
  pose proof (blen_nonneg s). unfold wrn. rewrite (proj2 (Z.leb_le 0 dst)), (proj2 (Z.leb_le (dst + blen s) (blen (x :: m)))) by lia. cbn [andb].
  eexists. split; [done|]. unfold blen in *. rewrite !length_app, length_take, length_drop. lia.
Qed.
