(* ===== verification/TuiList.v ===== *)
(** Lists on the screen: [src/list.c], the engine that all menus of entries
    share. The callbacks of a list are arbitrary programs on the list and on a
    world of their own; what the engine itself does to the screen is recorded
    as a trace. [TuiRecent] holds the lists that load pages on demand. *)
From S2P Require Import Prelude More.
#[local] Open Scope Z_scope.

Definition TUI_LIST_START : Z := 3.
Definition DONOTHING : Z := 0.
Definition FULLUPDATE : Z := 1.
Definition PARTUPDATE : Z := 2.
Definition READ_AGAIN : Z := 10.
Definition MINIUPDATE : Z := 11.

(** [tui_list_t] without its callbacks and their data. *)
Record tui_list_t := TuiList {
  all : Z; cur : Z; jump : Z; begin : Z; update : Z; valid : bool; lines : Z; in_query : bool }.

Definition set_all (v : Z) (p : tui_list_t) : tui_list_t :=
  TuiList v (cur p) (jump p) (begin p) (update p) (valid p) (lines p) (in_query p).
Definition set_cur (v : Z) (p : tui_list_t) : tui_list_t :=
  TuiList (all p) v (jump p) (begin p) (update p) (valid p) (lines p) (in_query p).
Definition set_jump (v : Z) (p : tui_list_t) : tui_list_t :=
  TuiList (all p) (cur p) v (begin p) (update p) (valid p) (lines p) (in_query p).
Definition set_begin (v : Z) (p : tui_list_t) : tui_list_t :=
  TuiList (all p) (cur p) (jump p) v (update p) (valid p) (lines p) (in_query p).
Definition set_update (v : Z) (p : tui_list_t) : tui_list_t :=
  TuiList (all p) (cur p) (jump p) (begin p) v (valid p) (lines p) (in_query p).
Definition set_valid (v : bool) (p : tui_list_t) : tui_list_t :=
  TuiList (all p) (cur p) (jump p) (begin p) (update p) v (lines p) (in_query p).
Definition set_in_query (v : bool) (p : tui_list_t) : tui_list_t :=
  TuiList (all p) (cur p) (jump p) (begin p) (update p) (valid p) (lines p) v.

Definition tui_list_init (screen_lines : Z) (p : tui_list_t) : tui_list_t :=
  TuiList 0 0 (jump p) 0 FULLUPDATE false (screen_lines - 4) false.

(** A division by zero when there are no lines. *)
Definition adjust_window (tl : tui_list_t) : outcome tui_list_t :=
  if (cur tl <? begin tl) || (i32 (begin tl + lines tl) <=? cur tl) then
    if lines tl =? 0 then Fault
    else
      let tl := set_begin (i32 (Z.quot (cur tl) (lines tl) * lines tl)) tl in
      Done (if update tl =? FULLUPDATE then tl else set_update PARTUPDATE tl)
  else Done tl.

Definition invalidated (invalidate : bool) (tl : tui_list_t) : tui_list_t :=
  if invalidate then set_valid false tl else tl.
Definition begin_at_least_0 (tl : tui_list_t) : tui_list_t :=
  if begin tl <? 0 then set_begin 0 tl else tl.

(** The moves by page and by line of the lists that load one page at a time. *)
Definition tui_list_seek (tl : tui_list_t) (operation : Z) (invalidate loop : bool) : Z * tui_list_t :=
  if operation =? KEY_PGUP then
    let tl := begin_at_least_0 (set_begin (i32 (begin tl - (lines tl - 1))) tl) in
    let tl := set_cur (begin tl) tl in
    (PARTUPDATE, invalidated invalidate tl)
  else if operation =? KEY_UP then
    let tl := set_cur (i32 (cur tl - 1)) tl in
    if begin tl <=? cur tl then (DONOTHING, tl)
    else
      let tl := invalidated invalidate tl in
      if 0 <=? cur tl then
        (PARTUPDATE, begin_at_least_0 (set_begin (i32 (begin tl - (lines tl - 1))) tl))
      else if loop then
        let tl := set_cur (i32 (all tl - 1)) tl in
        let tl := if cur tl <? 0 then set_cur 0 tl else tl in
        (PARTUPDATE, begin_at_least_0 (set_begin (i32 (all tl - lines tl + 1)) tl))
      else (DONOTHING, set_cur 0 tl)
  else if operation =? KEY_PGDN then
    if all tl <=? i32 (begin tl + lines tl - 1) then (DONOTHING, set_cur (i32 (all tl - 1)) tl)
    else
      let tl := set_begin (i32 (begin tl + (lines tl - 1))) tl in
      (PARTUPDATE, invalidated invalidate (set_cur (begin tl) tl))
  else if operation =? KEY_DOWN then
    let tl := set_cur (i32 (cur tl + 1)) tl in
    if all tl <=? cur tl then
      if loop then (PARTUPDATE, invalidated invalidate (set_begin 0 (set_cur 0 tl)))
      else (DONOTHING, set_cur (i32 (cur tl - 1)) tl)
    else if i32 (begin tl + lines tl - 1) <=? cur tl then
      (PARTUPDATE, invalidated invalidate (set_begin (cur tl) tl))
    else (DONOTHING, tl)
  else (DONOTHING, tl).

(** What the engine does to the screen, and when it waits for a key. *)
Inductive event :=
| EClear                         (** [screen_clear] *)
| EMove (line col : Z)
| EClrtobot                      (** [screen_clrtobot] *)
| EDisplay (i : Z)               (** a call of [display] *)
| EOuts (s : list Z)
| EStatus                        (** [tui_update_status_line] *)
| EWait (tl : tui_list_t).       (** [terminal_getchar], with the list at that time *)

Section Engine.
Context {W : Type}.

(** Callbacks read and write the list and the world. *)
Definition callback (A : Type) : Type := tui_list_t -> W -> outcome (A * tui_list_t * W).

Record callbacks := Callbacks {
  loader : callback Z;
  title : callback unit;
  display : Z -> callback Z;
  handler : Z -> callback Z;
  query : option (callback Z) }.

Record st := St { tl : tui_list_t; world : W; trace : list event }.

Definition prog (A : Type) : Type := st -> outcome (A * st).
#[global] Instance prog_ret : MRet prog := fun A a s => Done (a, s).
#[global] Instance prog_bind : MBind prog := fun A B f m s =>
  match m s with Done (a, s) => f a s | Fault => Fault | NoFuel => NoFuel end.

Definition get : prog tui_list_t := fun s => Done (tl s, s).
Definition modify (f : tui_list_t -> tui_list_t) : prog unit := fun s => Done (tt, St (f (tl s)) (world s) (trace s)).
Definition emit (e : event) : prog unit := fun s => Done (tt, St (tl s) (world s) (e :: trace s)).
Definition call {A} (c : callback A) : prog A := fun s =>
  '(a, p, w) ← c (tl s) (world s); Done (a, St p w (trace s)).
Definition adjust : prog unit := fun s => p ← adjust_window (tl s); Done (tt, St p (world s) (trace s)).

Context (c : callbacks) (terminal_getchar : W -> outcome (Z * W)).

Definition getchar : prog Z := fun s =>
  '(ch, w) ← terminal_getchar (world s); Done (ch, St (tl s) w (EWait (tl s) :: trace s)).

(** The rest of the page, [n] entries from [i] on. *)
Fixpoint display_from (n : nat) (i : Z) : prog Z :=
  match n with
  | O => mret 0
  | S n =>
      emit (EDisplay i);;
      r ← call (display c i);
      if r =? -1 then mret (-1) else display_from n (i + 1)
  end.

Definition tui_list_display_loop : prog Z :=
  p ← get;
  let fin := i32 (begin p + lines p) in
  let fin := if all p <? fin then all p else fin in
  display_from (Z.to_nat (fin - begin p)) (begin p).

Definition clamp (p : tui_list_t) : tui_list_t :=
  let p := if all p <=? cur p then set_cur (i32 (all p - 1)) p else p in
  if cur p <? 0 then set_cur 0 p else p.

Definition redraw : prog unit :=
  p ← get;
  if negb (update p =? DONOTHING) then
    (if update p =? FULLUPDATE then emit EClear;; call (title c);; modify (set_update PARTUPDATE) else mret tt);;
    p ← get;
    (if update p =? PARTUPDATE then emit (EMove TUI_LIST_START 0);; emit EClrtobot;; tui_list_display_loop;; mret tt
     else mret tt);;
    emit EStatus;;
    modify (set_update DONOTHING)
  else mret tt.

(** The mark in front of the current entry is set or taken away. *)
Definition mark (s : list Z) : prog unit :=
  p ← get;
  if in_query p then mret tt
  else emit (EMove (TUI_LIST_START + cur p - begin p) 0);; emit (EOuts s).

Definition run_query : prog unit :=
  p ← get;
  match query c with
  | Some q => if in_query p then call q;; mret tt else mret tt
  | None => mret tt
  end.

(** The default branch; the value says whether the list goes on. *)
Definition other_key (ch : Z) : prog bool :=
  if (48 <=? ch) && (ch <=? 57) then
    modify (fun p => set_jump (i32 (jump p * 10 + (ch - 48))) p);; mret true
  else
    modify (set_jump 0);;
    ret ← call (handler c ch);
    if ret <? 0 then mret false else modify (set_update ret);; mret true.

(** The keys that the handler leaves to the list. *)
Definition list_key (ch : Z) : prog bool :=
  p ← get;
  if is_one_of ch [113; 101; KEY_LEFT; -1] then
    if in_query p then modify (fun p => set_update FULLUPDATE (set_in_query false p));; mret true
    else mret false
  else if is_one_of ch [98; Ctrl 66; KEY_PGUP] then
    modify (fun p => if cur p =? 0 then set_cur (i32 (all p - 1)) p else set_cur (i32 (cur p - lines p)) p);; mret true
  else if is_one_of ch [78; Ctrl 70; KEY_PGDN; 32] then
    modify (fun p => if cur p =? i32 (all p - 1) then set_cur 0 p else set_cur (i32 (cur p + lines p)) p);; mret true
  else if is_one_of ch [107; KEY_UP] then
    modify (fun p =>
      let p := set_cur (i32 (cur p - 1)) p in if cur p <? 0 then set_cur (i32 (all p - 1)) p else p);;
    run_query;; mret true
  else if is_one_of ch [106; KEY_DOWN] then
    modify (fun p =>
      let p := set_cur (i32 (cur p + 1)) p in if all p <=? cur p then set_cur 0 p else p);;
    run_query;; mret true
  else if is_one_of ch [36; KEY_END] then modify (fun p => set_cur (i32 (all p - 1)) p);; mret true
  else if ch =? KEY_HOME then modify (set_cur 0);; mret true
  else if is_one_of ch [10; 13] && (0 <? jump p) then
    modify (fun p => set_jump 0 (set_cur (jump p - 1) p));; mret true
  else other_key ch.

(** The data are loaded when they are not up to date. *)
Definition load : prog bool :=
  p ← get;
  if negb (in_query p) && negb (valid p) then
    r ← call (loader c);
    if r <? 0 then mret false
    else
      modify (fun p => let p := set_valid true p in if update p =? FULLUPDATE then p else set_update PARTUPDATE p);;
      mret true
  else mret true.

(** One round of the loop, and whether another follows. *)
Definition tui_list_round : prog bool :=
  adjust;;
  ok ← load;
  if negb (ok : bool) then mret false
  else
    modify clamp;; adjust;; redraw;;
    mark [62];;
    ch ← getchar;
    mark [32];;
    ret ← call (handler c ch);
    if ret <? 0 then mret false
    else if negb (ret =? READ_AGAIN) then modify (set_update ret);; mret true
    else list_key ch.

Fixpoint tui_list_loop (fuel : nat) : prog unit :=
  match fuel with
  | O => fun _ => NoFuel
  | S fuel => go ← tui_list_round; if (go : bool) then tui_list_loop fuel else mret tt
  end.

Definition tui_list (screen_lines : Z) (fuel : nat) : prog Z :=
  modify (set_jump 0);; modify (tui_list_init screen_lines);; tui_list_loop fuel;; mret 0.
End Engine.

(** * What the screen shows *)

(** The entries of the page, from the first one on. *)
Definition page (p : tui_list_t) : list Z :=
  seqZ (begin p) (Z.min (all p) (begin p + lines p) - begin p).

(** The entries that were displayed since the list was last cleared; the trace
    has the latest event first. *)
Fixpoint shown (tr : list event) : list Z :=
  match tr with
  | [] => []
  | EDisplay i :: tr => shown tr ++ [i]
  | (EClear | EClrtobot) :: _ => []
  | _ :: tr => shown tr
  end.

(** The current entry is on the page, and there is one unless the list is empty. *)
Definition at_entry (p : tui_list_t) : Prop :=
  0 <= begin p <= cur p /\ cur p < begin p + lines p /\ cur p < Z.max 1 (all p).

(** Every mark is on a line of the list, and whenever a key is awaited the
    screen shows the page of the current entry. *)
Fixpoint good (n : Z) (tr : list event) : Prop :=
  match tr with
  | [] => True
  | EWait p :: tr => at_entry p /\ lines p = n /\ shown tr = page p /\ good n tr
  | EMove line col :: tr => TUI_LIST_START <= line < TUI_LIST_START + n /\ col = 0 /\ good n tr
  | _ :: tr => good n tr
  end.

(** A list with values that cannot overflow; the first entry of the page is
    not so little below zero that the page reaches over it. *)
Definition ranged (n : Z) (p : tui_list_t) : Prop :=
  lines p = n /\ 0 <= all p < 2 ^ 30 /\ is_i32 (cur p) /\ is_i32 (begin p) /\ is_i32 (jump p) /\
  (0 <= begin p \/ begin p + lines p <= 0).

Definition redrawn (u : Z) : Prop := u = FULLUPDATE \/ u = PARTUPDATE.

(** The two lists have the same page. *)
Definition same_page (p p' : tui_list_t) : Prop :=
  begin p' = begin p /\ all p' = all p.

(** The keys that move the current entry, or leave the list. *)
Definition is_up (ch : Z) : bool := is_one_of ch [107; KEY_UP].
Definition is_pgup (ch : Z) : bool := is_one_of ch [98; Ctrl 66; KEY_PGUP].
Definition is_nav (ch : Z) : bool :=
  is_one_of ch [113; 101; KEY_LEFT; -1] || is_pgup ch || is_one_of ch [78; Ctrl 70; KEY_PGDN; 32] || is_up ch ||
  is_one_of ch [106; KEY_DOWN] || is_one_of ch [36; KEY_END] || (ch =? KEY_HOME).

(** The key takes the current entry off the page, backwards. *)
Definition moves_off (ch : Z) (p : tui_list_t) : Prop :=
  is_up ch = true /\ 0 < cur p <= begin p \/ is_pgup ch = true /\ 0 < cur p < begin p + lines p.

(** What the invariant of the callbacks may speak of: the number of entries,
    whether the data are up to date, and whether the list is in a query. *)
Definition same_data (p p' : tui_list_t) : Prop :=
  all p' = all p /\ valid p' = valid p /\ in_query p' = in_query p.

(** The data are up to date unless the list is in a query. *)
Definition ready (p : tui_list_t) : Prop := in_query p = true \/ valid p = true.

(** What the engine relies on, with an invariant of the list and the world:
    callbacks return, leave the numbers of the list in range, and when they
    have changed the page either ask for it to be drawn, or leave a key to the
    list that will turn the page. *)
Record lawful {W} (n : Z) (inv : tui_list_t -> W -> Prop) (c : @callbacks W) (terminal_getchar : W -> outcome (Z * W)) : Prop := Lawful {
  law_frame p p' w : same_data p p' -> inv p w -> inv p' w;
  law_no_query p w : inv p w -> inv (set_in_query false p) w;
  law_getchar p w : inv p w -> exists ch w', terminal_getchar w = Done (ch, w') /\ inv p w';
  law_loader p w : ranged n p -> inv p w ->
    exists r p' w', loader c p w = Done (r, p', w') /\ ranged n p' /\ inv (set_valid true p') w';
  law_title p w : inv p w -> exists w', title c p w = Done (tt, p, w') /\ inv p w';
  law_display i p w : inv p w -> 0 <= i < all p ->
    exists r w', display c i p w = Done (r, p, w') /\ r <> -1 /\ inv p w';
  law_handler ch p w : ranged n p -> inv p w -> at_entry p /\ ready p \/ is_nav ch = false ->
    exists r p' w', handler c ch p w = Done (r, p', w') /\ ranged n p' /\ inv p' w' /\
      (r < 0 \/ redrawn r \/ same_page p p' \/ r = READ_AGAIN /\ moves_off ch p');
  law_query q p w : query c = Some q -> ranged n p -> inv p w ->
    exists r p' w', q p w = Done (r, p', w') /\ ranged n p' /\ inv p' w' /\ same_page p p' /\ cur p' = cur p }.

Lemma same_page_refl p : same_page p p.
Proof. done. Qed.
Lemma same_page_trans p1 p2 p3 : same_page p1 p2 -> same_page p2 p3 -> same_page p1 p3.
Proof. unfold same_page. intuition congruence. Qed.

Lemma page_same n p p' : ranged n p -> ranged n p' -> same_page p p' -> page p' = page p.
Proof. intros [Hl _] [Hl' _] [Hb Ha]. unfold page. by rewrite Hb, Ha, Hl, Hl'. Qed.

Lemma quot_times a n : 0 < n -> is_i32 a -> let q := Z.quot a n * n in
  is_i32 q /\ (0 <= a -> 0 <= q <= a /\ a < q + n) /\ (a < 0 -> a <= q <= 0 /\ (q < 0 -> q + n <= 0)).
Proof.
  intros Hn Ha q. subst q. pose proof (Z.quot_rem' a n) as H.
  assert (Z.quot a n * n = a - Z.rem a n) as E by lia. rewrite E.
  destruct (Z.lt_ge_cases a 0).
  - pose proof (Z.rem_bound_pos_neg a n ltac:(lia) ltac:(lia)).
    pose proof (Z.quot_pos (- a) n ltac:(lia) ltac:(lia)) as Hqp. rewrite Z.quot_opp_l in Hqp by lia.
    assert (a - Z.rem a n <= 0) by (rewrite <- E; nia).
    split; [width; lia|]. split; [lia|]. intros _. split; [lia|]. rewrite <- E. intros Hq. assert (Z.quot a n < 0) by nia. nia.
  - pose proof (Z.rem_bound_pos a n ltac:(lia) ltac:(lia)).
    pose proof (Z.quot_pos a n ltac:(lia) ltac:(lia)).
    assert (0 <= a - Z.rem a n) by (rewrite <- E; nia). split; [width; lia|]. split; lia.
Qed.

Lemma adjust_ranged n p : 0 < n < 2 ^ 30 -> ranged n p ->
  exists p', adjust_window p = Done p' /\ ranged n p' /\ cur p' = cur p /\ all p' = all p /\ valid p' = valid p /\
    in_query p' = in_query p /\ (p' = p \/ redrawn (update p')) /\
    (0 <= cur p < Z.max 1 (all p) -> at_entry p').
Proof.
  intros Hn (Hl & Ha & Hc & Hb & Hj & Hz). unfold adjust_window. rewrite Hl.
  destruct (quot_times (cur p) n ltac:(lia) Hc) as (Hq & Hp & Hm).
  destruct (_ || _) eqn:E; cycle 1.
  - zprop E. destruct E as [E1 E2]. exists p. split_and!; try done; [by left|].
    intros Hcur. rewrite (i32_id (begin p + n)) in E2 by (width; lia). unfold at_entry. rewrite Hl. lia.
  - destruct (Z.eqb_spec n 0); [lia|]. cbn [update set_begin]. rewrite i32_id by done.
    assert (ranged n (set_begin (Z.quot (cur p) n * n) p)) as Hr.
    { unfold ranged. cbn [lines all cur begin jump set_begin]. rewrite Hl. split_and!; try done; try lia. }
    destruct (Z.eqb_spec (update p) FULLUPDATE) as [Hu|Hu]; eexists; (split; [done|]).
    + split_and!; try done; [right; by left|].
      intros Hcur. unfold at_entry. cbn [lines all cur begin set_begin]. rewrite Hl. lia.
    + split_and!; try done; [right; by right|].
      intros Hcur. unfold at_entry. cbn [lines all cur begin set_begin set_update]. rewrite Hl. lia.
Qed.

(** ** A program run, and what holds then *)

Definition post {W A} (m : @prog W A) (s : st) (Q : A -> st -> Prop) : Prop :=
  match m s with Done (a, s') => Q a s' | _ => False end.

Lemma post_bind {W A B} (m : @prog W A) (f : A -> prog B) s Q :
  post m s (fun a s' => post (f a) s' Q) -> post (m ≫= f) s Q.
Proof. unfold post, mbind, prog_bind. by destruct (m s) as [[a s']| |]. Qed.

Lemma post_mono {W A} (m : @prog W A) s (Q Q' : A -> st -> Prop) :
  post m s Q -> (forall a s', Q a s' -> Q' a s') -> post m s Q'.
Proof. unfold post. destruct (m s) as [[a s']| |]; auto. Qed.

Lemma post_ret {W A} (a : A) (s : @st W) Q : Q a s -> post (mret a) s Q.
Proof. done. Qed.
Lemma post_get {W} (s : @st W) Q : Q (tl s) s -> post get s Q.
Proof. done. Qed.
Lemma post_modify {W} f (s : @st W) Q : Q tt (St (f (tl s)) (world s) (trace s)) -> post (modify f) s Q.
Proof. done. Qed.
Lemma post_emit {W} e (s : @st W) Q : Q tt (St (tl s) (world s) (e :: trace s)) -> post (emit e) s Q.
Proof. done. Qed.

Section Proofs.
Context {W : Type} (n : Z) (inv : tui_list_t -> W -> Prop) (c : @callbacks W) (terminal_getchar : W -> outcome (Z * W)).
Context (n_ok : 0 < n < 2 ^ 30) (laws : lawful n inv c terminal_getchar).

Definition sound (s : @st W) : Prop := ranged n (tl s) /\ good n (trace s) /\ inv (tl s) (world s).

(** The screen shows the page, or will be redrawn. *)
Definition fresh (s : @st W) : Prop :=
  sound s /\ (redrawn (update (tl s)) \/ shown (trace s) = page (tl s)).

(** The list as it is between two rounds: the page may also be about to be turned. *)
Definition due (s : @st W) : Prop := fresh s \/ sound s /\ cur (tl s) < begin (tl s).

Lemma sound_kept p w tr p' : sound (St p w tr) -> ranged n p' -> same_data p p' -> sound (St p' w tr).
Proof.
  intros (Hr & Hg & Hi) Hr' Hd. split; [done|]. split; [done|]. cbn [tl world] in *. by apply (law_frame _ _ _ _ laws p).
Qed.

Lemma fresh_kept p w tr p' : fresh (St p w tr) -> ranged n p' -> same_page p p' -> same_data p p' ->
  update p' = update p -> fresh (St p' w tr).
Proof.
  intros (Hs & Hf) Hr' Hp Hd Hu. split; [by apply (sound_kept p)|]. cbn [tl trace] in *.
  by rewrite (page_same n p p' (proj1 Hs) Hr' Hp), Hu.
Qed.

Lemma adjust_fresh s : due s -> post adjust s (fun _ s' =>
  fresh s' /\ same_data (tl s) (tl s') /\ (0 <= cur (tl s) < Z.max 1 (all (tl s)) -> at_entry (tl s'))).
Proof.
  destruct s as [p w tr]. intros Hd.
  assert (sound (St p w tr)) as Hs by (destruct Hd as [[Hd _]|[Hd _]]; done).
  destruct (adjust_ranged n p n_ok (proj1 Hs)) as (p' & E & Hr & Hc & Ha & Hv & Hq & Hu & Hat).
  unfold post, adjust. cbn [tl world trace]. rewrite E. cbn. split; [|by split].
  destruct Hu as [->|Hu]; [|split; [by apply (sound_kept p)|by left]].
  destruct Hd as [Hd|[_ Hoff]]; [done|].
  unfold adjust_window in E. cbn [tl] in Hoff. rewrite (proj2 (Z.ltb_lt _ _) Hoff) in E. cbn [orb] in E.
  assert (lines p = n) as Hl by apply Hs. rewrite Hl in E. destruct (Z.eqb_spec n 0); [done|]. cbn zeta in E.
  split; [done|]. left. destruct (Z.eqb_spec (update p) FULLUPDATE) as [Hu|Hu]; [by left|].
  cbn [update set_begin] in E. rewrite (proj2 (Z.eqb_neq _ _) Hu) in E. injection E as E. right. by rewrite <- E.
Qed.

Lemma call_loader s : sound s -> post (call (loader c)) s (fun _ s' =>
  sound (St (set_valid true (tl s')) (world s') (trace s'))).
Proof.
  intros (Hr & Hg & Hi). destruct (law_loader _ _ _ _ laws (tl s) (world s) Hr Hi) as (r & p' & w' & E & Hr' & Hi').
  unfold post, call. rewrite E. by cbn.
Qed.

Lemma load_fresh s : fresh s -> post (load c) s (fun go s' => good n (trace s') /\ (go = true -> fresh s' /\ ready (tl s'))).
Proof.
  intros Hf. unfold load. apply post_bind, post_get. destruct (_ && _) eqn:E; cycle 1.
  { apply post_ret. split; [apply Hf|]. intros _. split; [done|]. unfold ready.
    destruct (in_query (tl s)), (valid (tl s)); auto. }
  apply post_bind. eapply post_mono; [apply call_loader, Hf|]. intros r [p w tr] Hs.
  destruct (r <? 0); [apply post_ret; split; [apply Hs|done]|].
  apply post_bind, post_modify, post_ret. cbn [tl world trace]. split; [apply Hs|intros _].
  cbn zeta. cbn [update set_valid].
  destruct (Z.eqb_spec (update p) FULLUPDATE); (split; [|by right]);
    (split; [apply (sound_kept (set_valid true p)); [done|apply Hs|done]|left]); [by left|by right].
Qed.

Lemma clamp_fresh p w tr : fresh (St p w tr) ->
  fresh (St (clamp p) w tr) /\ same_data p (clamp p) /\ 0 <= cur (clamp p) < Z.max 1 (all (clamp p)).
Proof.
  intros Hf. pose proof Hf as [((Hl & Ha & Hc & Hb & Hj & Hz) & _) _]. cbn [tl] in *.
  assert (all (clamp p) = all p /\ (same_page p (clamp p) /\ update (clamp p) = update p) /\ 0 <= cur (clamp p) < Z.max 1 (all p)) as (H1 & H2 & H3).
  { unfold clamp. rewrite i32_id by (width; lia). cbn zeta.
    destruct (Z.leb_spec (all p) (cur p)); cbn [cur set_cur];
      match goal with |- context [?x <? 0] => destruct (Z.ltb_spec x 0) end;
      cbn [all cur set_cur]; (split; [done|]); (split; [done|]); lia. }
  assert (same_data p (clamp p)) as Hd
    by (split; [done|unfold clamp; cbn zeta; repeat case_match; done]).
  split; [|split; [done|by rewrite H1]].
  apply (fresh_kept p w tr (clamp p) Hf); [|apply H2|done|apply H2].
  destruct H2 as ((E1 & E2) & E3). assert (lines (clamp p) = lines p /\ jump (clamp p) = jump p) as [E4 E5]
    by (unfold clamp; cbn zeta; repeat case_match; done).
  unfold ranged. rewrite E1, E2, E4, E5. repeat (split; [first [done|width; lia]|]). done.
Qed.

(** Displaying the rest of the page. *)
Lemma display_from_shown k : forall i p w tr, sound (St p w tr) -> 0 <= i -> i + Z.of_nat k <= all p ->
  post (display_from c k i) (St p w tr) (fun _ s' => tl s' = p /\ sound s' /\
    shown (trace s') = shown tr ++ seqZ i (Z.of_nat k)).
Proof.
  induction k as [|k IH]; intros i p w tr Hs Hi Hk; cbn [display_from].
  { apply post_ret. cbn [tl trace]. change (seqZ i (Z.of_nat 0)) with (@nil Z). by rewrite app_nil_r. }
  apply post_bind, post_emit, post_bind. cbn [tl world trace]. pose proof Hs as (Hr & Hg & Hinv).
  destruct (law_display _ _ _ _ laws i p w Hinv ltac:(lia)) as (r & w' & E & Hret & Hinv').
  unfold post at 1, call. cbn [tl world trace]. rewrite E. cbn.
  destruct (Z.eqb_spec r (-1)); [done|].
  eapply post_mono; [by apply IH; [|lia..]|]. cbn. intros _ s' (H1 & H2 & H3). split_and!; [done..|].
  rewrite H3. cbn [shown]. rewrite (seqZ_cons i (Z.of_nat (S k))) by lia.
  rewrite <- app_assoc. cbn. do 3 f_equal. lia.
Qed.

Lemma clear_done s : fresh s -> update (tl s) <> DONOTHING ->
  post (if update (tl s) =? FULLUPDATE then emit EClear;; call (title c);; modify (set_update PARTUPDATE) else mret tt) s
    (fun _ s' => tl s' = set_update (update (tl s')) (tl s) /\ sound s' /\
      (update (tl s') = PARTUPDATE \/ shown (trace s') = page (tl s))).
Proof.
  destruct s as [p w tr]. intros ((Hr & Hg & Hi) & Hf) Hd. cbn [tl trace world] in *.
  destruct (Z.eqb_spec (update p) FULLUPDATE) as [Hu|Hu].
  - apply post_bind, post_emit, post_bind. cbn [tl world trace].
    destruct (law_title _ _ _ _ laws p w Hi) as (w' & E & Hi').
    unfold post at 1, call. cbn [tl world trace]. rewrite E. cbn [mbind outcome_bind tl world trace].
    apply post_modify. cbn. split; [done|]. split; [|by left].
    split; [done|]. split; [done|]. by apply (law_frame _ _ _ _ laws p).
  - apply post_ret. cbn. split; [by destruct p|]. split; [done|]. destruct Hf as [[Hf|Hf]|Hf]; [done|by left|by right].
Qed.

Lemma page_drawn s p : sound s -> at_entry p -> tl s = set_update (update (tl s)) p ->
  update (tl s) = PARTUPDATE \/ shown (trace s) = page p ->
  post (if update (tl s) =? PARTUPDATE then emit (EMove TUI_LIST_START 0);; emit EClrtobot;; tui_list_display_loop c;; mret tt
     else mret tt) s (fun _ s' => tl s' = tl s /\ sound s' /\ shown (trace s') = page p).
Proof.
  destruct s as [p1 w tr]. intros Hs Hat Hp1 Hsh. cbn [tl trace] in *.
  assert (page p1 = page p /\ lines p1 = lines p /\ begin p1 = begin p /\ all p1 = all p /\ cur p1 = cur p)
    as (Epage & El & Eb & Ea & Ec) by (rewrite Hp1; split_and!; try done; by unfold page).
  pose proof Hs as (Hr & Hg & Hi). cbn [tl trace world] in *.
  destruct (Z.eqb_spec (update p1) PARTUPDATE) as [Hu|Hu].
  - apply post_bind, post_emit, post_bind, post_emit, post_bind. cbn [tl world trace].
    unfold tui_list_display_loop. apply post_bind, post_get. cbn [tl].
    destruct Hr as (Hl & Ha & Hc & Hb & Hj & Hz). destruct Hat as (H1 & H2 & H3). rewrite <- El, Hl in H2.
    rewrite Eb, Ea, Hl, i32_id by (width; lia).
    replace (if all p <? begin p + n then all p else begin p + n) with (Z.min (all p) (begin p + n))
      by (destruct (Z.ltb_spec (all p) (begin p + n)); lia).
    eapply post_mono; [apply display_from_shown; [|lia|rewrite Ea; lia]|].
    + split; [done|]. split; [|done]. cbn [good trace]. split; [unfold TUI_LIST_START; lia|]. by split.
    + intros _ s2 (Ht2 & Hg2 & Hs2). apply post_ret. split; [done|]. split; [done|]. rewrite Hs2.
      unfold page. rewrite <- El, Hl. cbn [shown app]. destruct (Z.le_gt_cases 0 (Z.min (all p) (begin p + n) - begin p)).
      { by rewrite Z2Nat.id. }
      { by rewrite !seqZ_nil by lia. }
  - apply post_ret. split; [done|]. split; [done|]. by destruct Hsh.
Qed.

(** The screen shows the page, and the current entry is on it. *)
Definition settled (s : @st W) : Prop := sound s /\ shown (trace s) = page (tl s).

Lemma settled_fresh s : settled s -> fresh s.
Proof. intros (H1 & H2). split; [done|]. by right. Qed.

(** The list as the handler gets it. *)
Definition at_key (p : tui_list_t) : Prop := at_entry p /\ ready p.

Lemma redraw_settled s : fresh s -> at_key (tl s) -> post (redraw c) s (fun _ s' => settled s' /\ at_key (tl s')).
Proof.
  intros Hf [Hat Hrd]. unfold redraw. apply post_bind, post_get.
  destruct (Z.eqb_spec (update (tl s)) DONOTHING) as [Hd|Hd]; cbn [negb].
  { apply post_ret. split; [|by split]. split; [apply Hf|].
    destruct Hf as [_ [[Hf|Hf]|Hf]]; [rewrite Hd in Hf; done|rewrite Hd in Hf; done|done]. }
  apply post_bind. eapply post_mono; [by apply clear_done|]. cbn beta. intros _ s1 (Ht1 & Hs1 & Hsh1).
  apply post_bind, post_get, post_bind. eapply post_mono; [by apply page_drawn|]. cbn beta.
  intros _ s2 (Ht2 & Hs2 & Hsh2). apply post_bind, post_emit, post_modify. cbn [tl trace world].
  destruct s2 as [p2 w2 tr2]. cbn [tl trace world] in *. subst p2.
  rewrite Ht1 in Hs2 |- *. split; [|by split]. split; [|done]. destruct Hs2 as (Hr2 & Hg2 & Hi2).
  split; [done|]. split; [done|]. by apply (law_frame _ _ _ _ laws (set_update (update (tl s1)) (tl s))).
Qed.

Lemma mark_settled x s : settled s -> at_key (tl s) -> post (mark x) s (fun _ s' => settled s' /\ at_key (tl s')).
Proof.
  destruct s as [p w tr]. intros ((Hr & Hg & Hi) & Hs) Hat. cbn [tl trace world] in *.
  unfold mark. apply post_bind, post_get. cbn [tl]. destruct (in_query p); [by apply post_ret|].
  apply post_bind, post_emit, post_emit. cbn [tl world trace]. split; [|done]. split; [|done].
  split; [done|]. split; [|done]. cbn [good trace]. pose proof (proj1 Hr). destruct Hat as [(H1 & H2 & H3) _].
  split; [unfold TUI_LIST_START; lia|done].
Qed.

Lemma getchar_settled s : settled s -> at_key (tl s) ->
  post (getchar terminal_getchar) s (fun _ s' => settled s' /\ at_key (tl s')).
Proof.
  destruct s as [p w tr]. intros ((Hr & Hg & Hi) & Hs) Hat. cbn [tl trace world] in *.
  destruct (law_getchar _ _ _ _ laws _ w Hi) as (ch & w' & E & Hi').
  unfold post, getchar. cbn [tl world trace]. rewrite E. cbn [mbind outcome_bind].
  split; [|done]. split; [|done]. split; [done|]. split; [|done]. cbn [good trace]. split; [apply Hat|]. split; [apply Hr|done].
Qed.

(** What a round leaves behind. *)
Definition left_by (go : bool) (s : @st W) : Prop := good n (trace s) /\ (go = true -> due s).

Lemma left_on s : due s -> left_by true s.
Proof. intros Hf. split; [|done]. destruct Hf as [[(_ & Hg & _) _]|[(_ & Hg & _) _]]; done. Qed.
Lemma left_settled s : settled s -> left_by true s.
Proof. intros Hf. apply left_on. left. by apply settled_fresh. Qed.
Lemma left_end s : settled s -> left_by false s.
Proof. intros Hf. split; [apply Hf|done]. Qed.

Lemma settled_kept p w tr p' : settled (St p w tr) -> ranged n p' -> same_page p p' -> inv p' w -> settled (St p' w tr).
Proof.
  intros (Hs & Hp) Hr' Hpp Hi. split; [split; [done|split; [apply Hs|done]]|]. cbn [tl trace] in *.
  by rewrite (page_same n p p' (proj1 Hs) Hr' Hpp).
Qed.

Lemma modify_settled f s : settled s -> ranged n (f (tl s)) -> same_page (tl s) (f (tl s)) -> inv (f (tl s)) (world s) ->
  post (modify f) s (fun _ s' => settled s').
Proof. intros. apply post_modify. destruct s as [p w tr]. by apply (settled_kept p w tr). Qed.

(** The handler's answer becomes what to update. *)
Lemma handler_settled ch s : settled s -> at_key (tl s) \/ is_nav ch = false ->
  post (call (handler c ch)) s (fun ret s' => good n (trace s') /\
    (0 <= ret -> ret <> READ_AGAIN \/ is_nav ch = false -> fresh (St (set_update ret (tl s')) (world s') (trace s'))) /\
    (ret = READ_AGAIN -> settled s' \/ sound s' /\ moves_off ch (tl s'))).
Proof.
  destruct s as [p w tr]. intros Hf Hat. pose proof Hf as [(Hr0 & Hg0 & Hi0) _]. cbn [tl world trace] in *.
  destruct (law_handler _ _ _ _ laws ch p w Hr0 Hi0 Hat) as (r & p' & w' & E & Hr & Hi & Hor).
  unfold post, call. cbn [tl world trace]. rewrite E. cbn [mbind outcome_bind tl world trace].
  assert (sound (St (set_update r p') w' tr)) as Hsr
    by (split; [done|]; split; [done|]; by apply (law_frame _ _ _ _ laws p')).
  split; [done|]. destruct Hor as [Hn|[Hn|[Hs|[-> Hm]]]].
  - split; [lia|]. unfold READ_AGAIN. lia.
  - split; [intros _ _; split; [done|by left]|]. intros ->. by destruct Hn.
  - assert (settled (St p' w' tr)) as Hset.
    { split; [done|]. cbn [tl trace]. rewrite (page_same n p p' Hr0 Hr Hs). apply Hf. }
    split; [intros _ _|by left]. apply settled_fresh. split; [exact Hsr|]. apply Hset.
  - split; [|by right]. intros _ [Hn|Hn]; [done|]. exfalso. unfold is_nav in Hn.
    destruct Hm as [[Hm _]|[Hm _]]; rewrite Hm, ?orb_true_r in Hn; done.
Qed.

Lemma run_query_kept s : sound s -> post (run_query c) s (fun _ s' =>
  sound s' /\ trace s' = trace s /\ same_page (tl s) (tl s') /\ cur (tl s') = cur (tl s)).
Proof.
  intros Hs. unfold run_query. apply post_bind, post_get. destruct (query c) as [q|] eqn:Eq; [|by apply post_ret].
  destruct (in_query (tl s)); [|by apply post_ret]. destruct Hs as (Hr & Hg & Hi).
  destruct (law_query _ _ _ _ laws q _ _ Eq Hr Hi) as (r & p' & w' & E & Hr' & Hi' & Hp & Hc).
  apply post_bind. unfold post at 1, call. rewrite E. cbn [mbind outcome_bind]. by apply post_ret.
Qed.

Lemma run_query_settled s : settled s -> post (run_query c) s (fun _ s' => settled s').
Proof.
  intros [Hs Hsh]. eapply post_mono; [by apply run_query_kept|]. cbn beta.
  intros _ s' (Hs' & Ht & Hp & _). split; [done|]. rewrite Ht.
  by rewrite (page_same n _ _ (proj1 Hs) (proj1 Hs') Hp).
Qed.

(** Moves of the current entry leave the page alone. *)
Lemma move_settled (f : tui_list_t -> tui_list_t) s :
  (exists v j u q, f (tl s) = set_in_query q (set_update u (set_jump j (set_cur v (tl s)))) /\
    (q = in_query (tl s) \/ q = false) /\ (is_i32 (cur (tl s)) -> is_i32 (jump (tl s)) -> is_i32 v /\ is_i32 j)) ->
  settled s -> post (modify f) s (fun _ s' => settled s').
Proof.
  intros (v & j & u & q & E & Hq & Hr) Hs.
  pose proof Hs as [((Hl & Ha & Hc & Hb & Hj & Hz) & _ & Hi) _]. destruct (Hr Hc Hj) as [Hv Hj'].
  apply modify_settled; [done|..]; rewrite E; [|done|]; cycle 1.
  { destruct Hq as [->| ->]; [|apply (law_frame _ _ _ _ laws (set_in_query false (tl s))); [done|by apply (law_no_query _ _ _ _ laws)]].
    by apply (law_frame _ _ _ _ laws (tl s)). }
  unfold ranged. cbn [lines all cur begin jump set_jump set_cur set_update set_in_query].
  repeat (split; [done|]). done.
Qed.

Lemma moved p x v j u q : x = TuiList (all p) v j (begin p) u (valid p) (lines p) q ->
  q = in_query p \/ q = false -> (is_i32 (cur p) -> is_i32 (jump p) -> is_i32 v /\ is_i32 j) ->
  exists v j u q, x = set_in_query q (set_update u (set_jump j (set_cur v p))) /\
    (q = in_query p \/ q = false) /\ (is_i32 (cur p) -> is_i32 (jump p) -> is_i32 v /\ is_i32 j).
Proof. intros -> Hq Hr. by exists v, j, u, q. Qed.

(** A goal of [move_settled] for a move that is written out. *)
Ltac moves := cbn zeta; repeat case_match;
  cbn beta; (eapply moved; [unfold set_in_query, set_update, set_jump, set_cur; cbn [all cur jump begin update valid lines in_query]; reflexivity|by auto|];
  cbn [set_cur cur] in *; intros Hcur Hjump; split;
   first [exact Hcur|exact Hjump|apply i32_range|done|width; lia]).

Lemma other_key_left ch s : settled s -> is_nav ch = false -> post (other_key c ch) s left_by.
Proof.
  intros Hs Hch. unfold other_key. destruct (_ && _); apply post_bind.
  - eapply post_mono; [apply move_settled; [moves|done]|].
    cbn beta; intros _ s' Hs'. by apply post_ret, left_settled.
  - eapply post_mono; [apply move_settled; [moves|done]|].
    cbn beta; intros _ s' Hs'. apply post_bind. eapply post_mono; [by apply handler_settled; [|right]|].
    cbn beta. intros ret s2 (Hg & Hf & _). destruct (Z.ltb_spec ret 0).
    * by apply post_ret.
    * apply post_bind, post_modify, post_ret, left_on. left. apply Hf; [lia|by right].
Qed.

Lemma list_key_left ch s : settled s -> post (list_key c ch) s left_by.
Proof.
  intros Hs. unfold list_key. apply post_bind, post_get.
  assert (forall f, post (modify f) s (fun _ s' => settled s') -> post (modify f;; mret true) s left_by) as Hgo.
  { intros f Hf. apply post_bind. eapply post_mono; [exact Hf|]. cbn beta; intros _ s' Hs'. by apply post_ret, left_settled. }
  assert (forall f, post (modify f) s (fun _ s' => settled s') -> post (modify f;; run_query c;; mret true) s left_by) as Hgoq.
  { intros f Hf. apply post_bind. eapply post_mono; [exact Hf|]. cbn beta; intros _ s' Hs'.
    apply post_bind. eapply post_mono; [by apply run_query_settled|]. cbn beta; intros _ s2 Hs2.
    by apply post_ret, left_settled. }
  repeat match goal with |- post (if ?b then _ else _) _ _ => destruct b eqn:?E end;
    try (first [apply Hgo|apply Hgoq]; apply move_settled; [|done]; moves).
  - apply post_ret. by apply left_end.
  - apply other_key_left; [done|]. unfold is_nav, is_pgup, is_up. by rewrite E, E0, E1, E2, E3, E4, E5.
Qed.

(** A key that the list uses to turn back the page. *)
Lemma list_key_off ch s : sound s -> moves_off ch (tl s) -> post (list_key c ch) s left_by.
Proof.
  destruct s as [p w tr]. intros Hs Hm. pose proof Hs as (Hr & Hg & Hi). cbn [tl trace world] in *.
  pose proof Hr as (Hl & Ha & Hc & Hb & Hj & Hz).
  destruct Hm as [[Hch Hm]|[Hch Hm]].
  - replace (list_key c ch) with (list_key c 107)
      by (unfold is_up, is_one_of in Hch; cbn [existsb] in Hch; zprop Hch;
          by destruct Hch as [->|[->|[=]]]).
    unfold list_key. apply post_bind, post_get. cbn [is_one_of existsb Z.eqb orb]. 
    apply post_bind, post_modify. cbn [tl world trace]. cbn zeta.
    rewrite i32_id by (width; lia). cbn [cur set_cur]. rewrite (proj2 (Z.ltb_ge _ _)) by lia.
    apply post_bind. eapply post_mono; [apply run_query_kept|].
    + apply (sound_kept p); [done| |by split]. unfold ranged. cbn [lines all cur begin jump set_cur].
      repeat (split; [first [done|width; lia]|]). done.
    + cbn beta. intros _ s' (Hs' & _ & (Hb' & _) & Hc'). apply post_ret, left_on. right. split; [done|].
      rewrite Hb', Hc'. cbn [cur begin tl set_cur]. lia.
  - replace (list_key c ch) with (list_key c 98)
      by (unfold is_pgup, is_one_of in Hch; cbn [existsb] in Hch; zprop Hch;
          by destruct Hch as [->|[->|[->|[=]]]]).
    unfold list_key. apply post_bind, post_get. cbn [is_one_of existsb Z.eqb orb].
    apply post_bind, post_modify, post_ret. cbn [tl world trace].
    rewrite (proj2 (Z.eqb_neq (cur p) 0)), i32_id by (width; lia).
    apply left_on. right. split; [|cbn [cur begin tl set_cur]; lia].
    apply (sound_kept p); [done| |by split]. unfold ranged. cbn [lines all cur begin jump set_cur].
    repeat (split; [first [done|width; lia]|]). done.
Qed.

Lemma round_left s : due s -> post (tui_list_round c terminal_getchar) s left_by.
Proof.
  intros Hf. unfold tui_list_round. apply post_bind. eapply post_mono; [by apply adjust_fresh|].
  intros _ s1 (Hf1 & _). apply post_bind. eapply post_mono; [by apply load_fresh|].
  intros go s2 (Hg2 & Hf2). destruct go; cbn [negb]; [|by apply post_ret].
  destruct (Hf2 eq_refl) as [Hf2' Hrd]. destruct s2 as [p w tr]. destruct (clamp_fresh p w tr Hf2') as (Hf3 & Hd3 & Hc).
  apply post_bind, post_modify. cbn [tl world trace]. apply post_bind.
  eapply post_mono; [apply adjust_fresh; by left|]. intros _ s3 (Hf4 & Hd4 & Hat). specialize (Hat Hc).
  assert (at_key (tl s3)) as Hat4.
  { split; [done|]. destruct Hd3 as (_ & Hv3 & Hq3), Hd4 as (_ & Hv4 & Hq4). unfold ready in *. cbn [tl] in *. by rewrite Hv4, Hq4, Hv3, Hq3. }
  apply post_bind. eapply post_mono; [by apply redraw_settled|]. intros _ s4 (Hf5 & Hat5).
  apply post_bind. eapply post_mono; [by apply mark_settled|]. intros _ s5 (Hf6 & Hat6).
  apply post_bind. eapply post_mono; [by apply getchar_settled|]. intros ch s6 (Hf7 & Hat7).
  apply post_bind. eapply post_mono; [by apply mark_settled|]. intros _ s7 (Hf8 & Hat8).
  apply post_bind. eapply post_mono; [by apply handler_settled; [|left]|]. cbn beta. intros ret s8 (Hg9 & Hf9 & Hr9).
  destruct (Z.ltb_spec ret 0); [by apply post_ret|].
  destruct (Z.eqb_spec ret READ_AGAIN) as [He|He]; cbn [negb].
  - destruct (Hr9 He) as [Hs|[Hs Hm]]; [by apply list_key_left|by apply list_key_off].
  - apply post_bind, post_modify, post_ret, left_on. left. apply Hf9; [done|by left].
Qed.
End Proofs.

(** The first [k] rounds, fewer if the list ends before; whether it goes on. *)
Fixpoint rounds {W} (c : @callbacks W) (terminal_getchar : W -> outcome (Z * W)) (k : nat) : prog bool :=
  match k with
  | O => mret true
  | S k => go ← tui_list_round c terminal_getchar; if (go : bool) then rounds c terminal_getchar k else mret false
  end.

Lemma rounds_left {W} n inv (c : @callbacks W) g k : 0 < n < 2 ^ 30 -> lawful n inv c g ->
  forall s, due n inv s -> post (rounds c g k) s (left_by n inv).
Proof.
  intros Hn Hlaw. induction k as [|k IH]; intros s Hf; cbn [rounds]; [by apply post_ret, left_on|].
  apply post_bind. eapply post_mono; [by eapply round_left|].
  intros go s' [Hg Hs]. destruct go; [by apply IH, Hs|by apply post_ret].
Qed.

Lemma rounds_end {W} (c : @callbacks W) g k : forall s s',
  rounds c g k s = Done (false, s') -> tui_list_loop c g (S k) s = Done (tt, s').
Proof.
  induction k as [|k IH]; intros s s' H; [done|].
  cbn [rounds] in H. unfold mbind, prog_bind in H.
  change (tui_list_loop c g (S (S k))) with
    (go ← tui_list_round c g; if (go : bool) then tui_list_loop c g (S k) else mret tt).
  unfold mbind, prog_bind.
  destruct (tui_list_round c g s) as [[go s1]| |]; [|done..].
  destruct go; [by apply IH|]. by injection H as ->.
Qed.

Lemma list_runs {W} (screen_lines : Z) (inv : tui_list_t -> W -> Prop) (c : @callbacks W) (terminal_getchar : W -> outcome (Z * W))
    (p : tui_list_t) (w : W) (k : nat) :
  4 < screen_lines < 2 ^ 30 -> lawful (screen_lines - 4) inv c terminal_getchar -> inv (tui_list_init screen_lines (set_jump 0 p)) w ->
  exists go s',
    rounds c terminal_getchar k (St (tui_list_init screen_lines (set_jump 0 p)) w []) = Done (go, s') /\
    good (screen_lines - 4) (trace s') /\ (go = true -> inv (tl s') (world s')) /\
    (go = false -> tui_list c terminal_getchar screen_lines (S k) (St p w []) = Done (0, s')).
Proof.
  intros Hl Hlaw Hi.
  assert (due (screen_lines - 4) inv (St (tui_list_init screen_lines (set_jump 0 p)) w [])) as Hf.
  { left. split; [|by left; left]. split; [|done]. unfold ranged. cbn. width. lia. }
  pose proof (rounds_left (screen_lines - 4) inv c terminal_getchar k ltac:(lia) Hlaw _ Hf) as H.
  unfold post in H. destruct (rounds _ _ _ _) as [[go s']| |] eqn:E; [|done..].
  destruct H as [Hg Hd]. exists go, s'. split; [done|]. split; [exact Hg|]. split.
  { intros Hgo. destruct (Hd Hgo) as [[(_ & _ & Hs) _]|[(_ & _ & Hs) _]]; exact Hs. }
  intros Hgo. subst go.
  apply rounds_end in E. unfold tui_list, mbind, prog_bind, modify. cbn [tl world trace]. by rewrite E.
Qed.

(** C14. Whatever keys are pressed and whatever the callbacks do within their
    laws, a list on a screen of more than four lines never faults (there is no
    division by zero, the mark stays on the lines of the list); whenever it
    waits for a key, the entries on the screen are exactly the page of the
    current entry, and the current entry is one of them unless the list is
    empty. The invariant of the callbacks holds between the rounds. When the
    list is left after some rounds, that many and one more are enough fuel. *)
Theorem list_shows {W} (screen_lines : Z) (inv : tui_list_t -> W -> Prop) (c : @callbacks W) (terminal_getchar : W -> outcome (Z * W))
    (p : tui_list_t) (w : W) (k : nat) :
  4 < screen_lines < 2 ^ 30 -> lawful (screen_lines - 4) inv c terminal_getchar -> inv (tui_list_init screen_lines (set_jump 0 p)) w ->
  exists go s',
    rounds c terminal_getchar k (St (tui_list_init screen_lines (set_jump 0 p)) w []) = Done (go, s') /\
    good (screen_lines - 4) (trace s') /\ (go = true -> inv (tl s') (world s')) /\
    (go = false -> tui_list c terminal_getchar screen_lines (S k) (St p w []) = Done (0, s')).
Proof. apply list_runs. Qed.

(** Three entries, with a handler that leaves all keys to the list; the world
    holds the keys to come. *)
Definition three : @callbacks (list Z) := Callbacks
  (fun p ks => Done (3, set_all 3 p, ks)) (fun p ks => Done (tt, p, ks)) (fun i p ks => Done (0, p, ks))
  (fun ch p ks => Done (READ_AGAIN, p, ks)) None.
Definition next_key (ks : list Z) : outcome (Z * list Z) :=
  match ks with ch :: ks => Done (ch, ks) | [] => Done (-1, []) end.

Lemma three_lawful : lawful 20 (fun _ _ => True) three next_key.
Proof.
  split; cbn.
  - done.
  - done.
  - intros p [|ch w] _; by eexists _, _.
  - intros p w (Hl & Ha & H) _. eexists _, _, _. split; [done|]. by split.
  - eauto.
  - intros i p w _ _. by eexists _, _.
  - intros ch p w Hr _ _. eexists _, _, _. split; [done|]. split; [done|]. split; [done|]. right. right. by left.
  - done.
Qed.

Lemma list_shows_witness :
  let ks := bytes "j2" ++ [10; KEY_UP; KEY_UP; 113] in let p := TuiList 0 0 0 0 0 false 0 false in
  exists go s', rounds three next_key 9 (St (tui_list_init 24 (set_jump 0 p)) ks []) = Done (go, s') /\
    good 20 (trace s') /\ (go = true -> True) /\ (go = false -> tui_list three next_key 24 10 (St p ks []) = Done (0, s')).
Proof. apply (list_shows 24 (fun _ _ => True) three next_key); [lia|apply three_lawful|done]. Defined.

Example three_left :
  let ks := bytes "j2" ++ [10; KEY_UP; KEY_UP; 113] in
  match tui_list three next_key 24 10 (St (TuiList 0 0 0 0 0 false 0 false) ks []) with
  | Done (r, s) => r = 0 /\ cur (tl s) = 2 /\ shown (trace s) = [0; 1; 2] | _ => False end.
Proof. vm_compute. done. Qed.

(** * Seeking *)

(** The current entry is on a page of one line less than there are: the lines
    of two neighbouring pages overlap by one. *)
Definition on_page (p : tui_list_t) : Prop :=
  0 <= begin p <= cur p /\ cur p < begin p + (lines p - 1) /\ cur p < all p.

(** C17. Seeking by page or by line keeps the current entry on the page and in
    the list, at both ends of the list and with or without wrapping around;
    the answer asks for a redraw exactly when it may have moved the page, and
    then the data are marked as out of date if the caller wants it. *)
Theorem seek_keeps (tl : tui_list_t) (operation : Z) (invalidate loop : bool) :
  on_page tl -> all tl < 2 ^ 30 -> lines tl < 2 ^ 30 ->
  let '(r, tl') := tui_list_seek tl operation invalidate loop in
  on_page tl' /\ all tl' = all tl /\ lines tl' = lines tl /\
  (r = DONOTHING /\ begin tl' = begin tl \/ r = PARTUPDATE /\ valid tl' = valid tl && negb invalidate) .
Proof.
  destruct tl as [a c j b u v n q]. unfold on_page. cbn [all cur begin lines valid]. intros (Hb & Hc & Ha) Hm Hl.
  assert (2 <= n) by lia.
  unfold tui_list_seek, invalidated, begin_at_least_0, set_begin, set_cur, set_valid.
  repeat match goal with |- let '_ := (if ?x =? ?y then _ else _) in _ => destruct (Z.eqb_spec x y) end;
    destruct loop, invalidate;
    repeat (cbn [all cur jump begin update valid lines in_query negb]; rewrite ?i32_id by (width; lia);
      try match goal with |- context [if ?x then _ else _] => lazymatch x with context [if _ then _ else _] => fail | _ =>
        destruct x eqn:?E; try (exfalso; lia) end end);
    rewrite ?andb_true_r, ?andb_false_r; 
    repeat match goal with H : context [i32 ?z] |- _ => rewrite (i32_id z) in H by (width; lia) end;
    (split; [lia|]; split; [done|]; split; [done|]);
    first [left; split; [done|lia]|right; by split].
Qed.

Lemma seek_keeps_witness :
  let '(r, tl') := tui_list_seek (TuiList 50 19 0 1 0 true 20 false) KEY_DOWN true true in
  on_page tl' /\ all tl' = 50 /\ lines tl' = 20 /\
  (r = DONOTHING /\ begin tl' = 1 \/ r = PARTUPDATE /\ valid tl' = false).
Proof. apply (seek_keeps (TuiList 50 19 0 1 0 true 20 false) KEY_DOWN true true); [|done|done]. done. Defined.
