(* ===== verification/TuiRecent.v ===== *)
(** Lists that load a page of older entries when the first one is passed:
    [tui_list_recent] of [src/list.c], on the vectors of [Vector] and the
    engine of [TuiList]. The newest entry is the first of the vector and the
    last of the list. *)
From Stdlib Require Sorting.Sorted ZArith.Znumtheory ZArith.Zpow_facts.
From S2P Require Import Prelude Parcel More Vector TuiList.
#[local] Open Scope Z_scope.

Definition INT64_MAX : Z := 2 ^ 63 - 1.

(** [tui_list_recent_helper_t] without its callbacks, and the rest of the world. *)
Record recent_t {W : Type} := Recent {
  unread_only : bool; all_loaded : bool; user_id : Z; vector : vector_t; rest : W }.
Arguments recent_t : clear implicits.

Section Recent.
Context {W : Type} (realloc : option (list Z) -> Z -> option (list Z)).

Definition set_unread_only (v : bool) (h : recent_t W) : recent_t W := Recent _ v (all_loaded h) (user_id h) (vector h) (rest h).
Definition set_all_loaded (v : bool) (h : recent_t W) : recent_t W := Recent _ (unread_only h) v (user_id h) (vector h) (rest h).
Definition set_vector (v : vector_t) (h : recent_t W) : recent_t W := Recent _ (unread_only h) (all_loaded h) (user_id h) v (rest h).
Definition set_rest (v : W) (h : recent_t W) : recent_t W := Recent _ (unread_only h) (all_loaded h) (user_id h) (vector h) v.

(** The callbacks of a list of this kind. The loader returns how many rows
    there are, and what it writes to the memory it is given; entries are passed
    to the deleter and the finalizer by their address in the vector. *)
Record recent_callbacks := RecentCallbacks {
  rc_loader : bool -> Z -> Z -> Z -> W -> Z * list Z * W;
  rc_title : bool -> W -> W;
  rc_display : Z -> callback (W := recent_t W) Z;
  rc_handler : Z -> callback (W := recent_t W) Z;
  rc_query : option (callback (W := recent_t W) Z);
  rc_deleter : Z -> Z -> recent_t W -> Z * W;
  rc_finalizer : option (Z -> option Z -> recent_t W -> W) }.

Context (rc : recent_callbacks).

Definition int64_at (v : vector_t) (p : Z) : outcome Z :=
  match data v with Some d => bs ← rdn d p 8; Done (i64 (le_value bs)) | None => Fault end.

(** The identifier behind which the next page starts: that of the last entry. *)
Definition last_id (v : vector_t) : outcome Z :=
  if 0 <? vector_size v then
    match vector_at v (u32 (vector_size v - 1)) with Some p => int64_at v p | None => Fault end
  else Done INT64_MAX.

(** What the loader writes is in the vector, at [buf]. *)
Definition written (v : vector_t) (buf : Z) (bs : list Z) : outcome vector_t :=
  match data v with
  | Some d => d ← wrn d buf bs; Done (Vector (len v) (size v) (capacity v) (Some d))
  | None => Fault
  end.

Definition tui_list_recent_loader : callback (W := recent_t W) Z := fun tl h =>
  if all_loaded h then Done (0, tl, h)
  else
    let first := vector_size (vector h) =? 0 in
    id ← last_id (vector h);
    '(buf, v) ← vector_grow realloc (vector h) (u32 (lines tl));
    match buf with
    | None => Done (-1, tl, set_vector v h)
    | Some buf =>
        let '(rows, bs, w) := rc_loader rc (unread_only h) (user_id h) id (lines tl) (rest h) in
        v ← written v buf bs;
        let h := set_rest w (set_vector v h) in
        h ← (if rows <? lines tl then
               let diff := u32 (lines tl - rows) in
               let size := vector_size v in
               '(_, v) ← vector_erase_range v (u32 (size - diff)) size;
               Done (set_all_loaded true (set_vector v h))
             else Done h);
        let tl := set_valid true (set_all (i32 (vector_size (vector h))) tl) in
        Done (rows, if (first : bool) then set_cur (if 0 <? all tl then all tl - 1 else 0) tl else tl, h)
    end.

Definition load_more (tl : tui_list_t) (h : recent_t W) : outcome (tui_list_t * recent_t W) :=
  let n := all tl in
  '(_, tl, h) ← tui_list_recent_loader tl h;
  let diff := i32 (all tl - n) in
  Done (if 0 <? diff then set_cur (i32 (cur tl + diff)) (set_begin (i32 (begin tl + diff)) tl) else tl, h).

Definition tui_list_recent_title : callback (W := recent_t W) unit := fun tl h =>
  Done (tt, tl, set_rest (rc_title rc (unread_only h) (rest h)) h).

(** The finalizer with the newest entry. *)
Definition finalize (h : recent_t W) : recent_t W :=
  match rc_finalizer rc with
  | Some f => set_rest (f (user_id h) (vector_at (vector h) 0) h) h
  | None => h
  end.

Definition no_later (tl : tui_list_t) : tui_list_t :=
  if all tl <=? cur tl then set_cur (if 0 <? all tl then all tl - 1 else 0) tl else tl.

Definition tui_list_recent_handler (key : Z) : callback (W := recent_t W) Z := fun tl h =>
  '(ret, tl, h) ← rc_handler rc key tl h;
  if ret =? READ_AGAIN then
    if key =? 115 then
      let h := if unread_only h then finalize h else h in
      '(_, v) ← vector_erase_range (vector h) 0 (vector_size (vector h));
      let h := set_all_loaded false (set_unread_only (negb (unread_only h)) (set_vector v h)) in
      Done (FULLUPDATE, set_valid false tl, h)
    else if is_one_of key [107; KEY_UP] then
      '(tl, h) ← (if cur tl =? 0 then load_more tl h else Done (tl, h));
      Done (READ_AGAIN, tl, h)
    else if is_one_of key [106; KEY_DOWN] then
      Done (DONOTHING, no_later (set_cur (i32 (cur tl + 1)) tl), h)
    else if is_one_of key [98; Ctrl 66; KEY_PGUP] then
      '(tl, h) ← (if cur tl <? lines tl - 1 then load_more tl h else Done (tl, h));
      Done (READ_AGAIN, tl, h)
    else if is_one_of key [78; Ctrl 70; KEY_PGDN; 32] then
      Done (DONOTHING, no_later (set_cur (i32 (cur tl + lines tl)) tl), h)
    else Done (READ_AGAIN, tl, h)
  else Done (ret, tl, h).

Definition recent_list : callbacks (W := recent_t W) :=
  Callbacks tui_list_recent_loader tui_list_recent_title (rc_display rc) tui_list_recent_handler (rc_query rc).

(** The value is 0 whether or not there is memory for the vector. *)
Definition tui_list_recent (getchar : recent_t W -> outcome (Z * recent_t W)) (screen_lines elem_len uid : Z)
    (unread : bool) (fuel : nat) (w : W) : outcome (Z * W) :=
  let lines := screen_lines - 4 in
  '(ok, v) ← vector_init realloc elem_len (u32 lines);
  if negb (ok : bool) then Done (0, w)
  else
    let tl := TuiList 0 0 0 0 0 false lines false in
    '(_, s) ← tui_list recent_list getchar screen_lines fuel (St tl (Recent _ unread false uid v w) []);
    let h := finalize (world s) in
    Done (0, rest (set_vector (vector_free (vector h)) h)).

(** The address of entry [n] of the list. *)
Definition tui_list_recent_get_data (tl : tui_list_t) (h : recent_t W) (n : Z) : option Z :=
  vector_at (vector h) (u32 (all tl - n - 1)).

Definition tui_list_recent_delete (askyn : recent_t W -> outcome (bool * recent_t W)) : callback (W := recent_t W) Z := fun tl h =>
  match tui_list_recent_get_data tl h (cur tl) with
  | None => Done (DONOTHING, tl, h)
  | Some ptr =>
      '(yes, h) ← askyn h;
      if (yes : bool) then
        let '(n, w) := rc_deleter rc (user_id h) ptr h in
        let h := set_rest w h in
        if 0 <? n then
          '(_, v) ← vector_erase (vector h) (u32 (all tl - cur tl - 1));
          Done (PARTUPDATE, set_all (i32 (all tl - 1)) tl, set_vector v h)
        else Done (MINIUPDATE, tl, h)
      else Done (MINIUPDATE, tl, h)
  end.
End Recent.

(** * Vectors that grow and shrink at the end *)

(** What [realloc] does when there is memory: the old contents, and room. *)
Definition realloc_ok (realloc : option (list Z) -> Z -> option (list Z)) : Prop :=
  forall d n, blen (default [] d) <= n < 2 ^ 32 ->
    exists tail, realloc d n = Some (default [] d ++ tail) /\ blen (default [] d ++ tail) = n.

Definition pow2 (c : Z) : Prop := exists j, 0 <= j /\ c = 2 ^ j.

(** [elements], with a capacity that came from doubling. *)
Definition holds (v : vector_t) (l : list (list Z)) : Prop := elements v l /\ pow2 (capacity v).

Lemma grow_loop_ok fuel : forall val c, pow2 val -> 0 < c <= 2 ^ 30 -> c <= val * 2 ^ Z.of_nat fuel -> val < 2 * c \/ val = 8 ->
  exists r, grow_loop (S fuel) val c = Done r /\ pow2 r /\ c <= r /\ (r < 2 * c \/ r = 8).
Proof.
  induction fuel as [|fuel IH]; intros val c Hp Hc Hf Hv.
  - cbn [grow_loop]. rewrite (proj2 (Z.ltb_ge _ _)) by lia. exists val. split_and!; [done|done|lia|done].
  - change (grow_loop (S (S fuel)) val c) with
      (if val <? c then grow_loop (S fuel) (u32 (val * 2)) c else Done val).
    destruct (Z.ltb_spec val c) as [Hlt|Hge].
    + destruct Hp as (j & Hj & ->). rewrite (u32_id (2 ^ j * 2)) by (width; lia).
      apply IH; [|done| |lia].
      * exists (j + 1). split; [lia|]. by rewrite Z.pow_add_r by lia.
      * rewrite Nat2Z.inj_succ, Z.pow_succ_r in Hf by lia. lia.
    + exists val. split_and!; [done|done|lia|done].
Qed.

Lemma grow_capacity_ok c : 0 < c <= 2 ^ 30 ->
  exists r, grow_capacity c = Done r /\ pow2 r /\ c <= r /\ (r < 2 * c \/ r = 8).
Proof.
  intros Hc. apply (grow_loop_ok 29); [by exists 3|done| |by right].
  change (2 ^ Z.of_nat 29) with 536870912. unfold VECTOR_DEFAULT_CAPACITY. lia.
Qed.

Section Vectors.
Context (realloc : option (list Z) -> Z -> option (list Z)) (memory : realloc_ok realloc).

(** The bytes behind the elements, as elements. *)
Fixpoint chunks (n : nat) (k : Z) (bs : list Z) : list (list Z) :=
  match n with O => [] | S n => take (Z.to_nat k) bs :: chunks n k (drop (Z.to_nat k) bs) end.

Lemma chunks_ok n k : forall bs, 0 <= k -> Z.of_nat n * k <= blen bs ->
  length (chunks n k bs) = n /\ Forall (fun e => blen e = k) (chunks n k bs) /\
  exists tail, bs = concat (chunks n k bs) ++ tail.
Proof.
  induction n as [|n IH]; intros bs Hk Hb; cbn [chunks length concat].
  { split; [done|]. split; [by constructor|]. by exists bs. }
  assert (blen (take (Z.to_nat k) bs) = k) as Ht by (unfold blen in *; rewrite length_take; lia).
  destruct (IH (drop (Z.to_nat k) bs) Hk) as (H1 & H2 & tail & H3).
  { unfold blen in *. rewrite length_drop. lia. }
  split; [lia|]. split; [by constructor|]. exists tail. rewrite <- app_assoc, <- H3. by rewrite take_drop.
Qed.

Lemma vector_reserve_ok v l k : holds v l -> 0 <= k -> size v + k <= 2 ^ 29 -> len v * (2 * (size v + k) + 8) < 2 ^ 32 ->
  exists v' g, vector_reserve realloc (Vector (len v) (size v + k) (capacity v) (data v)) (size v + k) = Done (true, v') /\
    len v' = len v /\ size v' = size v + k /\ length g = Z.to_nat k /\ holds v' (l ++ g).
Proof.
  intros [(He & Hs & Hl & Hc & Hm & tail & Hd & Ht) Hp] Hk Hb Hlim. unfold vector_reserve. cbn [capacity len size data].
  assert (forall c d, size v + k <= c -> len v * c < 2 ^ 32 -> pow2 c -> blen (concat l ++ d) = len v * c ->
    exists g, length g = Z.to_nat k /\ holds (Vector (len v) (size v + k) c (Some (concat l ++ d))) (l ++ g)) as Hdone.
  { intros c d Hle Hlt Hpc Hd'. pose proof (concat_blen _ l He) as Hcl. rewrite blen_app, Hcl in Hd'.
    destruct (chunks_ok (Z.to_nat k) (len v) d ltac:(lia) ltac:(nia)) as (H1 & H2 & t & H3).
    exists (chunks (Z.to_nat k) (len v) d). split; [done|]. split; [|done].
    split; [cbn [len]; by apply Forall_app|]. cbn [size capacity len data].
    split; [rewrite length_app, H1; lia|]. split; [done|]. split; [done|]. split; [done|].
    exists t. rewrite concat_app, <- app_assoc, <- H3. split; [done|]. rewrite blen_app, Hcl. done. }
  destruct (Z.ltb_spec (capacity v) (size v + k)) as [Hlt|Hge].
  - destruct (grow_capacity_ok (size v + k) ltac:(lia)) as (r & -> & Hr & Hr1 & Hr2). cbn [mbind outcome_bind].
    assert (len v * r < 2 ^ 32) as Hlr by nia.
    rewrite u32_id by (width; nia).
    destruct (memory (data v) (len v * r)) as (t & E & Hbl).
    { rewrite Hd. cbn [from_option id]. rewrite Ht. nia. }
    rewrite E. rewrite Hd in *. cbn [default from_option id] in *.
    rewrite <- app_assoc in *. destruct (Hdone r (tail ++ t) Hr1 Hlr Hr Hbl) as (g & Hg & Hh).
    eexists _, g. split; [done|]. done.
  - rewrite Hd. destruct (Hdone (capacity v) tail Hge Hm Hp Ht) as (g & Hg & Hh).
    eexists _, g. split; [done|]. done.
Qed.

Lemma vector_grow_ok v l k : holds v l -> 0 <= k -> size v + k <= 2 ^ 29 -> len v * (2 * (size v + k) + 8) < 2 ^ 32 ->
  exists v' g, vector_grow realloc v k = Done (Some (len v * size v), v') /\
    len v' = len v /\ size v' = size v + k /\ length g = Z.to_nat k /\ holds v' (l ++ g).
Proof.
  intros Hh Hk Hb Hlim. pose proof Hh as [(He & Hs & Hl & Hc & Hm & _) _].
  destruct (vector_reserve_ok v l k Hh Hk Hb Hlim) as (v' & g & E & H1 & H2 & H3 & H4).
  unfold vector_grow, _vector_grow. rewrite u32_id by (width; lia). rewrite E. cbn [mbind outcome_bind].
  exists v', g. split; [|done]. rewrite H1, H2. rewrite (proj2 (Z.leb_le k _)) by lia. cbn [andb].
  replace (size v + k - k) with (size v) by lia.
  rewrite (u32_id (size v)), u32_id by (width; nia). done.
Qed.
End Vectors.

Lemma written_ok v l g page : holds v (l ++ g) -> Forall (fun e => blen e = len v) page -> (length page <= length g)%nat ->
  exists v', written v (len v * Z.of_nat (length l)) (concat page) = Done v' /\ len v' = len v /\ size v' = size v /\
    capacity v' = capacity v /\ holds v' (l ++ page ++ drop (length page) g).
Proof.
  intros [(He & Hs & Hl & Hc & Hm & tail & Hd & Ht) Hp] Hpage Hle. unfold written. rewrite Hd.
  apply Forall_app in He as [He1 He2].
  assert (g = take (length page) g ++ drop (length page) g) as Eg by by rewrite take_drop.
  assert (Forall (fun e => blen e = len v) (take (length page) g)) as Htk by by apply Forall_take.
  assert (blen (concat page) = blen (concat (take (length page) g))) as Hbl.
  { rewrite (concat_blen _ _ Hpage), (concat_blen _ _ Htk), length_take. f_equal. lia. }
  rewrite (wrn_at _ (concat l) (concat (take (length page) g)) (concat (drop (length page) g) ++ tail)); cycle 1.
  { rewrite Eg at 1. rewrite !concat_app. app_eq. }
  { rewrite (concat_blen _ _ He1). lia. }
  { done. }
  cbn [mbind outcome_bind]. eexists. do 4 (split; [done|]). split; [|done].
  split; [cbn [len]; apply Forall_app; split; [done|]; apply Forall_app; split; [done|by apply Forall_drop]|].
  cbn [size capacity len data].
  split; [rewrite !length_app, length_drop in *; lia|]. split; [done|]. split; [done|]. split; [done|].
  exists tail. rewrite !concat_app. split; [app_eq|]. rewrite <- Ht. rewrite Eg at 2.
  rewrite !concat_app, !blen_app. lia.
Qed.

(** Dropping the last elements, when there is room behind them. *)
Lemma drop_last_ok v l g : holds v (l ++ g) -> g <> [] -> size v < capacity v ->
  exists v', vector_erase_range v (Z.of_nat (length l)) (size v) = Done (true, v') /\ len v' = len v /\ capacity v' = capacity v /\ holds v' l.
Proof.
  intros [He Hp] Hg Hlt. pose proof (vector_erase_range_moves v l g []) as H. cbn zeta in H.
  rewrite app_nil_r in H. specialize (H He Hg). rewrite (proj2 (Z.ltb_lt _ _) Hlt) in H.
  destruct H as (v' & E & Hel & Hcap). exists v'. rewrite app_nil_r in Hel.
  destruct He as (_ & Hs & _). rewrite Hs, length_app, Nat2Z.inj_add. split; [done|].
  split; [|split; [done|split; [done|by rewrite Hcap]]].
  unfold vector_erase_range in E. repeat case_match; try done; simplify_eq; try done.
  all: by destruct (memmove _ _ _ _); simplify_eq/=.
Qed.

(** * The messages behind the list *)

Definition id_of (e : list Z) : Z := i64 (le_value (take 8 e)).

(** The messages before the one with an identifier. *)
Definition older (id : Z) (l : list (list Z)) : list (list Z) := filter (fun e => id_of e < id) l.

(** Messages, newest first, each of [k] bytes. *)
Definition messages (k : Z) (l : list (list Z)) : Prop :=
  8 <= k /\ Forall (fun e => blen e = k /\ id_of e < INT64_MAX) l /\
  Sorted.StronglySorted (fun x y => id_of y < id_of x) l.

Lemma older_all id l : Forall (fun e => id_of e < id) l -> older id l = l.
Proof.
  induction 1 as [|e l He _ IH]; [done|]. unfold older in *. rewrite filter_cons_True by done. by rewrite IH.
Qed.
Lemma older_none id l : Forall (fun e => id <= id_of e) l -> older id l = [].
Proof.
  induction 1 as [|e l He _ IH]; [done|]. unfold older in *. rewrite filter_cons_False by lia. done.
Qed.

(** What is older than the last of the first messages are the others. *)
Lemma older_drop k l1 e l2 : messages k (l1 ++ e :: l2) -> older (id_of e) (l1 ++ e :: l2) = l2.
Proof.
  intros (_ & _ & Hs). unfold older. rewrite list_basics.list.filter_app.
  induction l1 as [|x l1 IH].
  - apply Sorted.StronglySorted_inv in Hs as [_ Hs]. rewrite filter_cons_False by lia. by apply older_all.
  - apply Sorted.StronglySorted_inv in Hs as [Hs Hx]. rewrite filter_cons_False; [by apply IH|].
    apply Forall_app in Hx as [_ Hx]. apply Forall_cons_1 in Hx as [Hx _]. lia.
Qed.

Section Loading.
Context {W : Type} (realloc : option (list Z) -> Z -> option (list Z)) (memory : realloc_ok realloc).
Context (rc : recent_callbacks (W := W)) (db : bool -> list (list Z)) (k lines : Z) (lines_ok : 0 < lines < 2 ^ 20).

(** The loader reads a page of the messages before the given one. *)
Definition loads_pages : Prop := forall unread uid id w, exists w',
  rc_loader rc unread uid id lines w =
    (Z.of_nat (length (take (Z.to_nat lines) (older id (db unread)))), concat (take (Z.to_nat lines) (older id (db unread))), w').

Context (loads : loads_pages) (sorted : forall unread, messages k (db unread)).
Context (fits : forall unread, Z.of_nat (length (db unread)) < 2 ^ 28 /\
  k * (2 * (Z.of_nat (length (db unread)) + lines) + 8) < 2 ^ 32).

(** The vector holds the newest messages [l]; it has room for a page more, or
    there are no others. *)
Record loaded (h : recent_t W) (l : list (list Z)) : Prop := Loaded {
  loaded_len : len (vector h) = k;
  loaded_holds : holds (vector h) l;
  loaded_prefix : l = take (length l) (db (unread_only h));
  loaded_all : all_loaded h = true -> l = db (unread_only h) }.

Lemma messages_len unread : Forall (fun e => blen e = k) (db unread).
Proof. destruct (sorted unread) as (_ & Hf & _). eapply Forall_impl; [|exact Hf]. by intros e [He _]. Qed.

Lemma holds_size v l : holds v l -> size v = Z.of_nat (length l).
Proof. by intros [(_ & H & _) _]. Qed.

Lemma int64_at_last v l e : holds v (l ++ [e]) -> 8 <= len v ->
  int64_at v (len v * Z.of_nat (length l)) = Done (id_of e).
Proof.
  intros [(He & Hs & Hl & Hc & Hm & tail & Hd & Ht) _] H8. unfold int64_at. rewrite Hd.
  apply Forall_app in He as [He1 He2]. apply Forall_cons_1 in He2 as [He2 _].
  rewrite (rdn_at _ (concat l) (take 8 e) (drop 8 e ++ tail)); cycle 1.
  { rewrite concat_app. cbn [concat]. rewrite app_nil_r, (app_assoc (take 8 e)), take_drop. app_eq. }
  { rewrite (concat_blen _ _ He1). lia. }
  { unfold blen in *. rewrite length_take. lia. }
  done.
Qed.

(** The next page starts behind what is there. *)
Lemma last_id_ok h l : loaded h l -> exists id,
  last_id (vector h) = Done id /\ older id (db (unread_only h)) = drop (length l) (db (unread_only h)).
Proof.
  intros [Hk Hh Hp _]. pose proof (sorted (unread_only h)) as Hs. unfold last_id, vector_size.
  rewrite (holds_size _ _ Hh). destruct (snoc_case l) as [->|(l0 & e & ->)].
  - exists INT64_MAX. split; [done|]. cbn [length drop]. apply older_all.
    destruct Hs as (_ & Hf & _). eapply Forall_impl; [|exact Hf]. by intros x [_ Hx].
  - rewrite length_app. cbn [length]. rewrite (proj2 (Z.ltb_lt _ _)) by lia.
    pose proof Hh as [(_ & Hsz & Hl & Hc & Hm & tail & Hd & _) _].
    rewrite length_app in Hsz. cbn [length] in Hsz.
    replace (Z.of_nat (length l0 + 1) - 1) with (Z.of_nat (length l0)) by lia.
    unfold vector_at. rewrite Hd, (u32_id (Z.of_nat (length l0))) by (width; nia).
    rewrite (proj2 (Z.ltb_lt _ _)), u32_id by (width; nia).
    exists (id_of e). split; [apply int64_at_last; [done|]; rewrite Hk; apply Hs|].
    rewrite <- (take_drop (length (l0 ++ [e])) (db (unread_only h))) at 1.
    rewrite <- Hp, <- app_assoc. cbn [app]. rewrite length_app. cbn [length].
    apply (older_drop k). 
    rewrite <- (take_drop (length (l0 ++ [e])) (db (unread_only h))), <- Hp, <- app_assoc in Hs.
    cbn [app] in Hs. by rewrite length_app in Hs.
Qed.

(** One page more, up to all the messages. *)
Lemma recent_loader_loads tl h l : TuiList.lines tl = lines -> loaded h l -> all_loaded h = false ->
  ~ pow2 (Z.of_nat (length l) + lines) ->
  let l' := take (length l + Z.to_nat lines) (db (unread_only h)) in
  exists h' tl', tui_list_recent_loader realloc rc tl h = Done (Z.of_nat (length l') - Z.of_nat (length l), tl', h') /\
    loaded h' l' /\ unread_only h' = unread_only h /\ size (vector h') < capacity (vector h') /\
    all_loaded h' = bool_decide (length l' < length l + Z.to_nat lines)%nat /\
    tl' = (let t := set_valid true (set_all (Z.of_nat (length l')) tl) in
           if bool_decide (l = []) then set_cur (if 0 <? all t then all t - 1 else 0) t else t).
Proof.
  intros Hlines Hld Ha Hpow l'. pose proof Hld as [Hk Hh Hp _].
  destruct (fits (unread_only h)) as [Hf1 Hf2]. set (ms := db (unread_only h)) in *.
  assert (length l <= length ms)%nat as Hle by (rewrite Hp, length_take; lia).
  pose proof (holds_size _ _ Hh) as Hsz.
  unfold tui_list_recent_loader. rewrite Ha.
  destruct (last_id_ok h l Hld) as (id & -> & Hold). fold ms in Hold. cbn [mbind outcome_bind].
  rewrite Hlines, (u32_id lines) by (width; lia).
  destruct (vector_grow_ok realloc memory (vector h) l lines Hh ltac:(lia) ltac:(lia)) as (v1 & g & -> & Hk1 & Hs1 & Hg & Hh1).
  { rewrite Hk, Hsz. destruct Hh as [(_ & _ & H & _) _]. nia. }
  cbn [mbind outcome_bind]. destruct (loads (unread_only h) (user_id h) id (rest h)) as (w' & E).
  fold ms in E. rewrite Hold in E.
  assert (take (Z.to_nat lines) (drop (length l) ms) = drop (length l) l') as Epage.
  { subst l'. rewrite <- take_drop_commute. done. }
  assert (l' = l ++ drop (length l) l') as El'.
  { rewrite <- (take_drop (length l) l') at 1. f_equal. subst l'. rewrite take_take, Nat.min_l by lia. done. }
  rewrite Epage in E. rewrite E. set (page := drop (length l) l') in *.
  assert (length l' = length l + length page)%nat as Hlen by (rewrite El' at 1; by rewrite length_app).
  assert (length page <= length g)%nat as Hpg by (rewrite Hg, <- Epage, length_take; lia).
  assert (Forall (fun e => blen e = len v1) page) as Hpk.
  { rewrite Hk1, Hk. subst page l'. apply Forall_drop, Forall_take, messages_len. }
  rewrite Hsz, <- Hk1.
  destruct (written_ok v1 l g page Hh1 Hpk Hpg) as (v2 & -> & Hk2 & Hs2 & Hc2 & Hh2). cbn [mbind outcome_bind].
  assert (size v2 < capacity v2) as Hroom.
  { destruct Hh1 as [(_ & _ & _ & Hcap & _) Hpw]. rewrite Hs2, Hc2, Hs1, Hsz in *.
    destruct (Z.eq_dec (Z.of_nat (length l) + lines) (capacity v1)) as [Heq|]; [|lia]. by rewrite <- Heq in Hpw. }
  change (vector_size (vector h)) with (size (vector h)). rewrite Hsz.
  replace (Z.of_nat (length l) =? 0) with (bool_decide (l = [])) by (destruct l; [done|]; cbn; symmetry; apply Z.eqb_neq; lia).
  replace (Z.of_nat (length l') - Z.of_nat (length l)) with (Z.of_nat (length page)) by lia.
  assert (forall v3 b, holds v3 l' -> len v3 = k -> size v3 < capacity v3 -> b = bool_decide (length l' < length l + Z.to_nat lines)%nat ->
    let h' := Recent W (unread_only h) b (user_id h) v3 w' in
    loaded h' l' /\ unread_only h' = unread_only h /\ size (vector h') < capacity (vector h') /\
    all_loaded h' = bool_decide (length l' < length l + Z.to_nat lines)%nat) as Hend.
  { intros v3 b Hh3 Hk3 Hr3 Hb h'. split; [|by split]. split; [done|done| |].
    - subst h'. cbn [unread_only]. fold ms.
      assert (length l' = (length l + Z.to_nat lines) `min` length ms)%nat as -> by (subst l'; by rewrite length_take).
      subst l'. destruct (Nat.le_gt_cases (length l + Z.to_nat lines) (length ms)); [by rewrite Nat.min_l|].
      by rewrite Nat.min_r, !take_ge by lia.
    - subst h'. cbn [all_loaded unread_only]. fold ms. rewrite Hb, bool_decide_eq_true. intros Hlt.
      subst l'. rewrite length_take in Hlt. by rewrite take_ge by lia. }
  destruct (Z.ltb_spec (Z.of_nat (length page)) lines) as [Hshort|Hfull].
  - assert (drop (length page) g <> []) as Hne.
    { intros Hnil. apply (f_equal length) in Hnil. rewrite length_drop in Hnil. cbn in Hnil. lia. }
    cbn [set_rest set_vector vector]. change (vector_size v2) with (size v2).
    rewrite app_assoc, <- El' in Hh2.
    pose proof (holds_size _ _ Hh2) as Hsz2. rewrite length_app, length_drop, Hg in Hsz2.
    rewrite (u32_id (lines - _)), (u32_id (size v2 - _)) by (width; lia).
    replace (size v2 - (lines - Z.of_nat (length page))) with (Z.of_nat (length l')) by lia.
    destruct (drop_last_ok v2 l' _ Hh2 Hne Hroom) as (v3 & -> & Hk3 & Hc3 & Hh3). cbn [mbind outcome_bind].
    pose proof (holds_size _ _ Hh3) as Hsz3.
    destruct (Hend v3 true Hh3 ltac:(congruence) ltac:(lia)) as (L1 & L2 & L3 & L4); [symmetry; apply bool_decide_eq_true; lia|].
    eexists _, _. split; [reflexivity|]. cbn [set_all_loaded set_vector unread_only user_id rest vector].
    split; [exact L1|]. split; [exact L2|]. split; [exact L3|]. split; [exact L4|]. cbn zeta. change (vector_size v3) with (size v3).
    rewrite Hsz3, i32_id by (width; lia). done.
  - assert (length page = Z.to_nat lines) as Hpl by (subst page; rewrite <- Epage, length_take in *; lia).
    rewrite drop_ge, app_nil_r, <- El' in Hh2 by lia. cbn [mbind outcome_bind].
    destruct (Hend v2 (all_loaded h) Hh2 ltac:(congruence) Hroom) as (L1 & L2 & L3 & L4).
    { rewrite Ha. symmetry. apply bool_decide_eq_false. lia. }
    eexists _, _. split; [reflexivity|]. cbn [set_rest set_vector unread_only user_id rest vector all_loaded].
    split; [exact L1|]. split; [exact L2|]. split; [exact L3|]. split; [exact L4|]. cbn zeta. change (vector_size v2) with (size v2).
    rewrite (holds_size _ _ Hh2), i32_id by (width; lia). done.
Qed.

(** The bytes of entry [n] of the list. *)
Definition entry_of (tl : tui_list_t) (h : recent_t W) (n : Z) : outcome (list Z) :=
  match tui_list_recent_get_data tl h n, data (vector h) with
  | Some p, Some d => rdn d p (len (vector h))
  | _, _ => Fault
  end.

Lemma entry_of_ok tl h l n : loaded h l -> all tl = Z.of_nat (length l) -> 0 <= n < all tl ->
  exists e, l !! (length l - 1 - Z.to_nat n)%nat = Some e /\ entry_of tl h n = Done e.
Proof.
  intros [Hk [(He & Hs & Hl & Hc & Hm & tail & Hd & Ht) _] _ _] Ha Hn.
  destruct (lookup_lt_is_Some_2 l (length l - 1 - Z.to_nat n)) as [e E]; [lia|]. exists e. split; [done|].
  apply take_drop_middle in E as Es. set (i := (length l - 1 - Z.to_nat n)%nat) in *.
  unfold entry_of, tui_list_recent_get_data, vector_at. rewrite Hd, Ha.
  replace (Z.of_nat (length l) - n - 1) with (Z.of_nat i) by lia.
  rewrite (u32_id (Z.of_nat i)) by (width; nia). rewrite (proj2 (Z.ltb_lt _ _)), u32_id by (width; nia).
  assert (Forall (fun e => blen e = len (vector h)) (take i l)) as Hti by by apply Forall_take.
  apply (rdn_at _ (concat (take i l)) e (concat (drop (S i) l) ++ tail)).
  - rewrite <- Es at 1. rewrite concat_app. cbn [concat]. app_eq.
  - rewrite (concat_blen _ _ Hti), length_take. lia.
  - symmetry. by apply (Forall_lookup_1 _ _ _ _ He E).
Qed.

(** C15. When older messages are loaded, the vector holds exactly the newest
    messages, a page more than before or all that there are; every entry of
    the list is the same message as before, at a place moved by the number of
    new ones, and the page and the current entry are moved by as much. *)
Theorem load_more_keeps (tl : tui_list_t) (h : recent_t W) (l : list (list Z)) :
  TuiList.lines tl = lines -> loaded h l -> l <> [] -> all tl = Z.of_nat (length l) ->
  is_i32 (cur tl + lines) -> is_i32 (begin tl + lines) -> - 2 ^ 31 <= cur tl -> - 2 ^ 31 <= begin tl ->
  ~ pow2 (Z.of_nat (length l) + lines) ->
  exists tl' h', load_more realloc rc tl h = Done (tl', h') /\
    loaded h' (take (length l + Z.to_nat lines) (db (unread_only h))) /\
    all tl' = Z.of_nat (length (take (length l + Z.to_nat lines) (db (unread_only h)))) /\
    begin tl' = begin tl + (all tl' - all tl) /\ cur tl' = cur tl + (all tl' - all tl) /\
    forall i, 0 <= i < all tl -> entry_of tl' h' (i + (all tl' - all tl)) = entry_of tl h i.
Proof.
  intros Hlines Hld Hne Ha Hc Hb Hc0 Hb0 Hpow. pose proof Hld as [Hk Hh Hp Hal]. set (ms := db (unread_only h)) in *.
  assert (length l <= length ms)%nat as Hle by (rewrite Hp, length_take; lia).
  destruct (fits (unread_only h)) as [Hf _]. fold ms in Hf. unfold load_more.
  destruct (all_loaded h) eqn:Eal.
  - unfold tui_list_recent_loader. rewrite Eal. cbn [mbind outcome_bind]. rewrite Z.sub_diag. cbn.
    exists tl, h. rewrite Z.sub_diag, !Z.add_0_r. rewrite take_ge by (rewrite Hal by done; lia).
    split; [done|]. rewrite <- Hal by done. split; [done|]. split; [done|]. split; [done|]. split; [done|].
    intros i _. by rewrite Z.add_0_r.
  - destruct (recent_loader_loads tl h l Hlines Hld Eal Hpow) as (h' & tl1 & E & Hld' & Hur & _ & _ & ->).
    fold ms in E, Hld' |- *. set (l' := take (length l + Z.to_nat lines) ms) in *.
    rewrite bool_decide_eq_false_2 in E by done. rewrite E. cbn [mbind outcome_bind].
    assert (length l <= length l' <= length l + Z.to_nat lines)%nat as Hl' by (subst l'; rewrite length_take; lia).
    cbn [all cur begin set_valid set_all set_cur set_begin].
    rewrite Ha, (i32_id (_ - _)) by (width; lia).
    set (d := Z.of_nat (length l') - Z.of_nat (length l)) in *.
    set (tl' := if 0 <? d then _ else _).
    assert (all tl' = Z.of_nat (length l') /\ begin tl' = begin tl + d /\ cur tl' = cur tl + d) as (H1 & H2 & H3).
    { subst tl'. destruct (Z.ltb_spec 0 d); cbn [all begin cur set_valid set_all set_cur set_begin]; [|lia].
      rewrite !i32_id by (width; lia). done. }
    exists tl', h'. rewrite H1, H2, H3. fold d. split; [done|]. split; [done|]. split; [done|]. split; [done|]. split; [done|].
    intros i Hi. destruct (entry_of_ok tl h l i Hld Ha ltac:(lia)) as (e & He & ->).
    destruct (entry_of_ok tl' h' l' (i + d) Hld' H1 ltac:(subst d; lia)) as (e' & He' & Hee). rewrite Hee. f_equal.
    replace (length l' - 1 - Z.to_nat (i + d))%nat with (length l - 1 - Z.to_nat i)%nat in He' by lia.
    assert (length l - 1 - Z.to_nat i < length l)%nat as Hlt by (clear - Hi; lia).
    subst l'. rewrite lookup_take_lt in He' by (clear - Hlt; lia). apply (f_equal (.!! (length l - 1 - Z.to_nat i)%nat)) in Hp; rewrite lookup_take_lt in Hp by (clear - Hlt; lia). congruence.
Qed.

(** ** The list as a whole *)

(** Between the steps of the list: outside queries, the vector holds the
    newest messages, in full pages until all are there, and the list has as
    many entries when it is up to date. *)
Definition recent_inv (p : tui_list_t) (h : recent_t W) : Prop :=
  in_query p = false /\ exists l, loaded h l /\ size (vector h) < capacity (vector h) /\
    (valid p = true \/ all_loaded h = true -> all p = Z.of_nat (length l)) /\
    (valid p = true -> all_loaded h = true \/ l <> []) /\
    (all_loaded h = false -> exists m, 0 <= m /\ Z.of_nat (length l) = m * lines).

(** What is relied on of the callbacks: they leave the messages that are
    loaded alone, and the list too when they pass on a key. *)
Record recent_laws (getchar : recent_t W -> outcome (Z * recent_t W)) : Prop := RecentLaws {
  rl_getchar h : exists ch w', getchar h = Done (ch, set_rest w' h);
  rl_display i p h : recent_inv p h -> 0 <= i < all p -> exists r w', rc_display rc i p h = Done (r, p, set_rest w' h) /\ r <> -1;
  rl_handler ch p h : ranged lines p -> recent_inv p h -> exists r p' w', rc_handler rc ch p h = Done (r, p', set_rest w' h) /\
    ranged lines p' /\ same_data p p' /\ (r = READ_AGAIN -> p' = p) /\ (r < 0 \/ redrawn r \/ same_page p p');
  rl_query : rc_query rc = None }.

Lemma loaded_rest w h l : loaded h l -> loaded (set_rest w h) l.
Proof. by intros [? ? ? ?]. Qed.

Lemma recent_inv_rest p p' w h : same_data p p' -> recent_inv p h -> recent_inv p' (set_rest w h).
Proof.
  intros (Ha & Hv & Hq) (H0 & l & H1 & H2). split; [by rewrite Hq|]. exists l. rewrite Ha, Hv.
  split; [by apply loaded_rest|done].
Qed.

Lemma recent_inv_same p p' h : same_data p p' -> recent_inv p h -> recent_inv p' h.
Proof. intros Hd Hi. apply (recent_inv_rest p p' (rest h)) in Hi; [by destruct h|done]. Qed.

(** No number of full pages fills a vector. *)
Context (q : Z) (q_prime : Znumtheory.prime q) (q_odd : 2 < q) (q_lines : (q | lines)).

Lemma pages_not_pow2 m : 0 < m -> ~ pow2 (m * lines).
Proof.
  intros Hm (j & Hj & E). assert ((q | 2 ^ j)) as Hd by (rewrite <- E; by apply Z.divide_mul_r).
  apply Zpow_facts.prime_power_prime in Hd; [lia|done|done|apply Znumtheory.prime_2].
Qed.

Lemma loaded_range h l : loaded h l -> (length l <= length (db (unread_only h)))%nat /\ Z.of_nat (length l) < 2 ^ 28.
Proof.
  intros [_ _ Hp _]. destruct (fits (unread_only h)) as [Hf _].
  assert (length l <= length (db (unread_only h)))%nat by (rewrite Hp, length_take; lia). lia.
Qed.

Lemma loader_inv p h : ranged lines p -> recent_inv p h ->
  exists r p' h', tui_list_recent_loader realloc rc p h = Done (r, p', h') /\ ranged lines p' /\
    recent_inv (set_valid true p') h' /\ begin p' = begin p /\
    (valid p = true -> cur p' = cur p /\ all p <= all p').
Proof.
  intros Hr (Hq & l & Hld & Hroom & Hall & Hne & Hm). pose proof (loaded_range _ _ Hld) as [_ Hsm].
  destruct (all_loaded h) eqn:Ea.
  - exists 0, p, h. unfold tui_list_recent_loader. rewrite Ea. split; [done|]. split; [done|]. split; [|done].
    split; [done|]. exists l. cbn [all valid set_valid]. split; [done|]. split; [done|]. rewrite Ea. split; [auto|]. auto.
  - destruct (Hm eq_refl) as (m & Hm0 & Hml).
    destruct (recent_loader_loads p h l (proj1 Hr) Hld Ea) as (h' & p' & E & Hld' & Hur & Hroom' & Hal' & ->).
    { rewrite Hml. replace (m * lines + lines) with ((m + 1) * lines) by lia. apply pages_not_pow2. lia. }
    set (l' := take _ _) in *. eexists _, _, h'. split; [exact E|].
    destruct (loaded_range _ _ Hld') as [_ Hsm'].
    pose proof Hr as (Hl & Ha & Hc & Hb & Hj & Hz).
    assert (length l' <= length l + Z.to_nat lines)%nat as Hle by (subst l'; rewrite length_take; lia).
    assert (length l <= length l')%nat as Hge.
    { subst l'. pose proof (loaded_range _ _ Hld) as [Hx _]. rewrite length_take. lia. }
    cbn zeta. cbn [all set_valid set_all]. split; [|split].
    + clear E. destruct (bool_decide (l = [])); unfold ranged; cbn [TuiList.lines all cur begin jump set_valid set_all set_cur].
      * split; [done|]. split; [lia|]. split; [destruct (0 <? _) eqn:?; width; lia|]. done.
      * split; [done|]. split; [lia|]. done.
    + split; [clear E; by destruct (bool_decide (l = []))|]. exists l'. split; [done|]. split; [done|].
      split; [intros _; clear E; by destruct (bool_decide (l = []))|]. rewrite Hal', bool_decide_eq_true, bool_decide_eq_false. split.
      * intros _. destruct (Nat.lt_ge_cases (length l') (length l + Z.to_nat lines)) as [Hlt|Hge']; [by left|right].
        intros Hnil. rewrite Hnil in Hge'. cbn in Hge'. lia.
      * intros Hfull. exists (m + 1). lia.
    + split; [clear E; by destruct (bool_decide (l = []))|]. intros Hv. destruct (Hne Hv) as [|Hnl]; [done|].
      rewrite bool_decide_eq_false_2 by done. cbn [all cur set_valid set_all]. split; [done|].
      rewrite Hall by auto. lia.
Qed.

(** Loading more at a key leaves the page, or puts the current entry where
    the key turns the page. *)
Lemma load_more_inv p h : ranged lines p -> recent_inv p h -> at_entry p -> ready p ->
  exists p' h', load_more realloc rc p h = Done (p', h') /\ ranged lines p' /\ recent_inv p' h' /\
    (same_page p p' \/ 0 < cur p' /\ cur p' = cur p + (begin p' - begin p)).
Proof.
  intros Hr Hi Hat Hrd. pose proof Hi as (Hq & _).
  assert (valid p = true) as Hv by (destruct Hrd; [congruence|done]).
  destruct (loader_inv p h Hr Hi) as (r & p1 & h' & E & Hr1 & Hi1 & Hb1 & Hk). destruct (Hk Hv) as [Hc1 Ha1].
  unfold load_more. rewrite E. cbn [mbind outcome_bind].
  pose proof Hr as (Hl & Ha & Hc & Hb & Hj & Hz). pose proof Hr1 as (Hl1 & Har1 & _ & _ & Hj1 & _).
  destruct Hat as (H1 & H2 & H3).
  rewrite (i32_id (all p1 - all p)) by (width; lia).
  assert (recent_inv p1 h') as Hi1'.
  { destruct Hi1 as (Hq1 & l1 & J1 & J2 & J3 & J4 & J5). split; [done|]. exists l1. cbn [valid all set_valid] in *.
    split; [done|]. split; [done|]. split; [intros _; auto|]. split; [intros _; auto|done]. }
  destruct (Z.ltb_spec 0 (all p1 - all p)) as [Hd|Hd].
  - rewrite Hc1, Hb1, !i32_id by (width; lia). eexists _, h'. split; [done|].
    split; [|split; [by apply (recent_inv_same p1)|]].
    + unfold ranged. cbn [TuiList.lines all cur begin jump set_cur set_begin].
      split; [done|]. split; [done|]. split; [width; lia|]. split; [width; lia|]. split; [done|lia].
    + right. cbn [cur begin set_cur set_begin]. lia.
  - exists p1, h'. split; [done|]. split; [done|]. split; [done|]. left. split; [done|lia].
Qed.

Lemma one_of_in x ks : is_one_of x ks = true <-> In x ks.
Proof.
  unfold is_one_of. rewrite existsb_exists. split.
  - intros (y & Hy & E). apply Z.eqb_eq in E. by subst.
  - intros Hx. exists x. by rewrite Z.eqb_refl.
Qed.

Lemma moved_down p v : ranged lines p -> is_i32 v -> ranged lines (no_later (set_cur v p)) /\ same_page p (no_later (set_cur v p)) /\
  same_data p (no_later (set_cur v p)).
Proof.
  intros (Hl & Ha & Hc & Hb & Hj & Hz) Hv. unfold no_later. cbn [all cur set_cur].
  destruct (all p <=? v); (split; [|by split]); unfold ranged; cbn [TuiList.lines all cur begin jump set_cur];
    (split; [done|]); (split; [done|]); (split; [destruct (0 <? all p); width; lia|]); done.
Qed.

(** Switching between the unread messages and all of them empties the vector. *)
Lemma switch_inv p h : recent_inv p h -> exists v b,
  vector_erase_range (vector h) 0 (vector_size (vector h)) = Done (b, v) /\
  recent_inv (set_valid false p) (set_all_loaded false (set_unread_only (negb (unread_only h)) (set_vector v h))).
Proof.
  intros (Hq & l & [Hk Hh Hp Hal] & Hroom & _).
  assert (exists v b, vector_erase_range (vector h) 0 (vector_size (vector h)) = Done (b, v) /\
    len v = k /\ holds v [] /\ size v < capacity v) as (v & b & E & Hkv & Hhv & Hrv).
  { change (vector_size (vector h)) with (size (vector h)). destruct l as [|e l].
    - pose proof (holds_size _ _ Hh) as Hs. exists (vector h), false. unfold vector_erase_range. rewrite Hs. split; [done|]. split; [done|]. split; [done|]. by rewrite <- Hs.
    - destruct (drop_last_ok (vector h) [] (e :: l)) as (v & E & Hkv & Hcv & Hhv); [done|done|done|].
      exists v, true. split; [exact E|]. split; [congruence|]. split; [done|]. rewrite (holds_size _ _ Hhv), Hcv. cbn.
      rewrite (holds_size _ _ Hh) in Hroom. cbn in Hroom. lia. }
  exists v, b. split; [done|]. split; [done|]. exists []. split; [by split|]. split; [done|]. cbn.
  split; [by intros [|]|]. split; [done|]. intros _. exists 0. lia.
Qed.

Lemma finalize_rest h : exists w, finalize rc h = set_rest w h.
Proof. unfold finalize. destruct (rc_finalizer rc) as [f|]; [by eexists|]. exists (rest h). by destruct h. Qed.

Lemma handler_inv getchar ch p h : recent_laws getchar -> ranged lines p -> recent_inv p h ->
  at_entry p /\ ready p \/ is_nav ch = false ->
  exists r p' h', tui_list_recent_handler realloc rc ch p h = Done (r, p', h') /\ ranged lines p' /\ recent_inv p' h' /\
    (r < 0 \/ redrawn r \/ same_page p p' \/ r = READ_AGAIN /\ moves_off ch p').
Proof.
  intros Hlaws Hr Hi Hat. unfold tui_list_recent_handler.
  destruct (rl_handler _ Hlaws ch p h Hr Hi) as (r & p' & w' & E & Hr' & Hd' & Hsame & Hor). rewrite E. cbn [mbind outcome_bind].
  destruct (Z.eqb_spec r READ_AGAIN) as [->|Hra]; cycle 1.
  { exists r, p', (set_rest w' h). split; [done|]. split; [done|]. split; [by apply (recent_inv_rest p)|]. tauto. }
  specialize (Hsame eq_refl). subst p'. assert (recent_inv p (set_rest w' h)) as Hi' by by apply (recent_inv_rest p).
  set (h1 := set_rest w' h) in *. clearbody h1. clear h Hi E.
  pose proof Hr as (Hl & Ha & Hc & Hb & Hj & Hz).
  destruct (Z.eqb_spec ch 115) as [->|Hs].
  { assert (exists w, (if unread_only h1 then finalize rc h1 else h1) = set_rest w h1) as (w & ->).
    { destruct (unread_only h1); [apply finalize_rest|]. exists (rest h1). by destruct h1. }
    destruct (switch_inv p (set_rest w h1)) as (v & b & E & Hi2); [by apply (recent_inv_rest p)|].
    rewrite E. cbn [mbind outcome_bind]. eexists _, _, _. split; [done|]. split; [done|]. split; [done|]. right. left. by left. }
  assert (forall ks, (In ch ks -> is_nav ch = true) -> is_one_of ch ks = true -> at_entry p /\ ready p) as Hnav.
  { intros ks Hks Hin. apply one_of_in in Hin. destruct Hat as [|Hn]; [done|]. rewrite Hks in Hn by done. done. }
  destruct (is_one_of ch [107; KEY_UP]) eqn:Eup.
  { destruct (Hnav [107; KEY_UP] ltac:(intros Hin; destruct Hin as [<-|[<-|[]]]; reflexivity) Eup) as [He Hrd].
    destruct (Z.eqb_spec (cur p) 0) as [H0|H0]; cycle 1.
    { eexists _, _, _. split; [done|]. split; [done|]. split; [done|]. right. right. left. by split. }
    destruct (load_more_inv p h1 Hr Hi' He Hrd) as (p2 & h2 & -> & Hr2 & Hi2 & Hm). cbn [mbind outcome_bind].
    eexists _, _, _. split; [done|]. split; [done|]. split; [done|]. right. right.
    destruct Hm as [Hm|[Hm1 Hm2]]; [by left|right]. split; [done|]. left. split; [done|]. destruct He as (He & _). lia. }
  destruct (is_one_of ch [106; KEY_DOWN]) eqn:Edown.
  { destruct (moved_down p (i32 (cur p + 1)) Hr (i32_range _)) as (H1 & H2 & H3).
    eexists _, _, _. split; [done|]. split; [done|]. split; [by apply (recent_inv_same p)|]. tauto. }
  destruct (is_one_of ch [98; Ctrl 66; KEY_PGUP]) eqn:Epgup.
  { destruct (Hnav [98; Ctrl 66; KEY_PGUP] ltac:(intros Hin; destruct Hin as [<-|[<-|[<-|[]]]]; reflexivity) Epgup) as [He Hrd].
    destruct (Z.ltb_spec (cur p) (TuiList.lines p - 1)) as [H0|H0]; cycle 1.
    { eexists _, _, _. split; [done|]. split; [done|]. split; [done|]. right. right. left. by split. }
    destruct (load_more_inv p h1 Hr Hi' He Hrd) as (p2 & h2 & -> & Hr2 & Hi2 & Hm). cbn [mbind outcome_bind].
    eexists _, _, _. split; [done|]. split; [done|]. split; [done|]. right. right.
    destruct Hm as [Hm|[Hm1 Hm2]]; [by left|right]. split; [done|]. right. split; [done|].
    destruct He as (He1 & He2 & He3). rewrite (proj1 Hr2). rewrite Hl in H0, He2. lia. }
  destruct (is_one_of ch [78; Ctrl 70; KEY_PGDN; 32]) eqn:Epgdn.
  { destruct (moved_down p (i32 (cur p + TuiList.lines p)) Hr (i32_range _)) as (H1 & H2 & H3).
    eexists _, _, _. split; [done|]. split; [done|]. split; [by apply (recent_inv_same p)|]. tauto. }
  eexists _, _, _. split; [done|]. split; [done|]. split; [done|]. right. right. left. by split.
Qed.

Lemma recent_lawful getchar : recent_laws getchar -> lawful lines recent_inv (recent_list realloc rc) getchar.
Proof.
  intros Hlaws. split; cbn [recent_list loader title display handler query].
  - intros p p' h Hd Hi. by apply (recent_inv_same p).
  - intros p h Hi. apply (recent_inv_same p); [|done]. destruct Hi as (Hq & _). by split.
  - intros p h Hi. destruct (rl_getchar _ Hlaws h) as (ch & w' & E). exists ch, (set_rest w' h).
    split; [done|]. by apply (recent_inv_rest p).
  - intros p h Hr Hi. destruct (loader_inv p h Hr Hi) as (r & p' & h' & E & H1 & H2 & _). by exists r, p', h'.
  - intros p h Hi. eexists. split; [done|]. by apply (recent_inv_rest p).
  - intros i p h Hi Hn. destruct (rl_display _ Hlaws i p h Hi Hn) as (r & w' & E & Hne). exists r, (set_rest w' h).
    split; [done|]. split; [done|]. by apply (recent_inv_rest p).
  - intros ch p h Hr Hi Hat. by apply (handler_inv getchar).
  - intros x p h E. by rewrite (rl_query _ Hlaws) in E.
Qed.

Lemma vector_init_ok : 0 < k -> k * (2 * lines + 8) < 2 ^ 32 ->
  exists v, vector_init realloc k (u32 lines) = Done (true, v) /\ len v = k /\ holds v [] /\ size v < capacity v.
Proof.
  intros Hk Hlim. unfold vector_init, vector_reserve. cbn [capacity len size data].
  rewrite (u32_id lines), (proj2 (Z.ltb_lt 0 lines)) by (width; lia).
  destruct (grow_capacity_ok lines ltac:(lia)) as (r & -> & Hr & Hr1 & Hr2). cbn [mbind outcome_bind].
  rewrite u32_id by (width; nia). destruct (memory None (k * r)) as (t & E & Hb); [cbn; unfold blen; cbn; nia|].
  rewrite E. cbn [default from_option id app] in *. eexists. split; [done|]. split; [done|].
  cbn [size capacity]. split; [|lia]. split; [|done]. split; [constructor|]. cbn [size capacity len data].
  split; [done|]. split; [done|]. split; [lia|]. split; [nia|]. by exists t.
Qed.

End Loading.

(** ** Five messages on a screen of seven lines *)

Definition five : list (list Z) := le_bytes 8 <$> [9; 7; 5; 4; 2].
Definition zero_realloc (d : option (list Z)) (n : Z) : option (list Z) :=
  Some (default [] d ++ replicate (Z.to_nat (n - blen (default [] d))) 0).
Definition five_callbacks : recent_callbacks (W := list Z) := RecentCallbacks
  (fun unread uid id n w => let page := take (Z.to_nat n) (older id five) in (Z.of_nat (length page), concat page, w))
  (fun unread w => w) (fun i p h => Done (0, p, h)) (fun ch p h => Done (READ_AGAIN, p, h)) None (fun uid p h => (1, rest h)) None.
Definition five_getchar (h : recent_t (list Z)) : outcome (Z * recent_t (list Z)) :=
  match rest h with ch :: ks => Done (ch, set_rest ks h) | [] => Done (-1, h) end.

Lemma zero_realloc_ok : realloc_ok zero_realloc.
Proof.
  intros d n Hn. eexists. split; [done|]. rewrite blen_app. unfold blen in *. rewrite length_replicate. lia.
Qed.
Lemma five_loads : loads_pages five_callbacks (fun _ => five) 3.
Proof. intros unread uid id w. by eexists. Qed.
Lemma five_messages (unread : bool) : messages 8 five.
Proof.
  split; [done|]. split; [repeat constructor; vm_compute; done|].
  repeat (constructor; [|repeat constructor; vm_compute; done]). constructor.
Qed.
Lemma five_fits (unread : bool) : Z.of_nat (length five) < 2 ^ 28 /\ 8 * (2 * (Z.of_nat (length five) + 3) + 8) < 2 ^ 32.
Proof. done. Qed.

Definition three_loaded : recent_t (list Z) :=
  Recent _ true false 0 (Vector 8 3 8 (Some (concat (take 3 five) ++ replicate 40 0))) [].

Lemma three_loaded_ok : loaded (fun _ => five) 8 three_loaded (take 3 five).
Proof.
  split; [done| |done|done]. split; [|by exists 3]. split; [by repeat constructor|].
  split; [done|]. split; [done|]. split; [done|]. split; [done|]. by exists (replicate 40 0).
Qed.

Lemma load_more_keeps_witness :
  let tl := TuiList 3 0 0 0 0 true 3 false in
  exists tl' h', load_more zero_realloc five_callbacks tl three_loaded = Done (tl', h') /\
    loaded (fun _ => five) 8 h' five /\ all tl' = 5 /\ begin tl' = 0 + (all tl' - 3) /\ cur tl' = 0 + (all tl' - 3) /\
    forall i, 0 <= i < 3 -> entry_of tl' h' (i + (all tl' - 3)) = entry_of tl three_loaded i.
Proof.
  apply (load_more_keeps zero_realloc zero_realloc_ok five_callbacks (fun _ => five) 8 3 ltac:(lia) five_loads five_messages five_fits
    (TuiList 3 0 0 0 0 true 3 false) three_loaded (take 3 five)).
  - done.
  - apply three_loaded_ok.
  - done.
  - done.
  - done.
  - done.
  - done.
  - done.
  - apply (pages_not_pow2 3 3 Znumtheory.prime_3 ltac:(lia) ltac:(by exists 1) 2). lia.
Defined.

Lemma five_laws : recent_laws five_callbacks (fun _ => five) 8 3 five_getchar.
Proof.
  split; cbn.
  - intros [u a i v [|ch ks]]; [by exists (-1), []|by exists ch, ks].
  - intros i p h _ _. exists 0, (rest h). by destruct h.
  - intros ch p h Hr Hi. exists READ_AGAIN, p, (rest h). split; [by destruct h|]. split; [done|]. split; [done|].
    split; [done|]. right. right. by split.
  - done.
Qed.


Example five_left :
  tui_list_recent zero_realloc five_callbacks five_getchar 7 8 0 false 6 [107; 107; KEY_PGUP; 113] = Done (0, []).
Proof. vm_compute. done. Qed.
