(* ===== verification/Json.v ===== *)
(** The documents of [fcgi/xml.c] printed as JSON, read back by a parser. *)
From S2P Require Import Prelude Convert Xml.

(** * A parser *)

Inductive json :=
| JNull
| JBool (b : bool)
| JNum (n : Z)
| JStr (s : list Z)
| JArr (l : list json)
| JObj (l : list (list Z * json)).

(** The character after a backslash. *)
Definition escaped (c : Z) : option Z :=
  if (c =? quote) || (c =? backslash) || (c =? 47) then Some c
  else if c =? 98 then Some 8
  else if c =? 102 then Some 12
  else if c =? 110 then Some 10
  else if c =? 114 then Some 13
  else if c =? 116 then Some 9
  else None.

(** The rest of a string after its opening quote; of the characters written with
    four digits, the ASCII ones. *)
Fixpoint parse_string (l : list Z) : option (list Z * list Z) :=
  match l with
  | [] => None
  | c :: l =>
      let more x (r : option (list Z * list Z)) := '(s, l) ← r; Some (x :: s, l) in
      if c =? quote then Some ([], l)
      else if c =? backslash then
        match l with
        | [] => None
        | e :: l =>
            if e =? 117 then
              match l with
              | a :: b :: x :: y :: l =>
                  x ← hex_value x; y ← hex_value y;
                  if (a =? 48) && (b =? 48) && (x <? 8) then more (x * 16 + y) (parse_string l) else None
              | _ => None
              end
            else x ← escaped e; more x (parse_string l)
        end
      else if c <? 32 then None
      else more c (parse_string l)
  end.

Fixpoint span_digits (l : list Z) : list Z * list Z :=
  match l with
  | c :: l' => if isdigit c then let '(ds, r) := span_digits l' in (c :: ds, r) else ([], l)
  | [] => ([], [])
  end.

Definition parse_number (l : list Z) : option (Z * list Z) :=
  let minus := match l with c :: _ => c =? 45 | [] => false end in
  let '(ds, r) := span_digits (if minus then tail l else l) in
  match ds with
  | [] => None
  | _ => Some (if minus then - digits_value 0 ds else digits_value 0 ds, r)
  end.

Fixpoint strip (p l : list Z) : option (list Z) :=
  match p, l with
  | [], _ => Some l
  | c :: p, d :: l => if c =? d then strip p l else None
  | _, [] => None
  end.

(** A value, the members of an object and the elements of an array. *)
Fixpoint parse_value (fuel : nat) (l : list Z) : option (json * list Z) :=
  match fuel, l with
  | S fuel, c :: t =>
      if c =? quote then '(s, l) ← parse_string t; Some (JStr s, l)
      else if c =? 123 then
        match t with
        | d :: l => if d =? 125 then Some (JObj [], l) else '(m, l) ← parse_members fuel t; Some (JObj m, l)
        | [] => None
        end
      else if c =? 91 then
        match t with
        | d :: l => if d =? 93 then Some (JArr [], l) else '(m, l) ← parse_elements fuel t; Some (JArr m, l)
        | [] => None
        end
      else if c =? 110 then l ← strip (bytes "null") l; Some (JNull, l)
      else if c =? 116 then l ← strip (bytes "true") l; Some (JBool true, l)
      else if c =? 102 then l ← strip (bytes "false") l; Some (JBool false, l)
      else '(n, l) ← parse_number l; Some (JNum n, l)
  | _, _ => None
  end
with parse_members (fuel : nat) (l : list Z) : option (list (list Z * json) * list Z) :=
  match fuel, l with
  | S fuel, c :: l =>
      if c =? quote then
        '(k, l) ← parse_string l;
        match l with
        | 58 :: l =>
            '(v, l) ← parse_value fuel l;
            match l with
            | 44 :: l => '(m, l) ← parse_members fuel l; Some ((k, v) :: m, l)
            | 125 :: l => Some ([(k, v)], l)
            | _ => None
            end
        | _ => None
        end
      else None
  | _, _ => None
  end
with parse_elements (fuel : nat) (l : list Z) : option (list json * list Z) :=
  match fuel with
  | S fuel =>
      '(v, l) ← parse_value fuel l;
      match l with
      | 44 :: l => '(m, l) ← parse_elements fuel l; Some (v :: m, l)
      | 93 :: l => Some ([v], l)
      | _ => None
      end
  | O => None
  end.

Definition parse_json (l : list Z) : option json :=
  match parse_value (length l) l with Some (j, []) => Some j | _ => None end.

(** * The documents printed *)

(** A node with all that is below it. *)
Inductive tree := Tree (t_type : Z) (t_name : option (list Z)) (t_attr : list xml_attr_t) (t_child : list tree).

Definition t_type '(Tree t _ _ _) : Z := t.
Definition t_name '(Tree _ n _ _) : option (list Z) := n.

(** The node at [id] and those below it are the tree. *)
Fixpoint represents (h : heap) (id : nat) (t : tree) {struct t} : Prop :=
  let '(Tree ty nm at_ cs) := t in
  exists ids, h !! id = Some (Node ty nm at_ ids) /\
    (fix all (ids : list nat) (cs : list tree) {struct cs} : Prop := match ids, cs with
      | [], [] => True
      | i :: ids, c :: cs => represents h i c /\ all ids cs
      | _, _ => False
      end) ids cs.

Definition t_has (t : tree) (f : Z) : bool := negb (Z.land (t_type t) f =? 0).

Definition attr_json (a : xml_attr_t) : json :=
  match value a with
  | VStr None => JNull
  | VStr (Some s) => JStr s
  | VInt n | VBig n => JNum n
  | VBool b => JBool b
  end.

(** An attribute as the functions above make them: the type is that of the
    value. *)
Definition attr_ok (a : xml_attr_t) : Prop :=
  match value a with
  | VStr s => real_type a = XML_ATTR_TYPE_STRING /\ match s with Some s => nul_free s | None => True end
  | VInt n => real_type a = XML_ATTR_TYPE_INTEGER /\ is_i32 n
  | VBig n => real_type a = XML_ATTR_TYPE_BIGINT /\ is_i64 n
  | VBool _ => real_type a = XML_ATTR_TYPE_BOOLEAN
  end.

(** The document a tree stands for: an object of its attributes and its named
    children, an array of unnamed ones, or a single plain value. *)
Fixpoint tree_json (t : tree) : json :=
  let '(Tree _ _ at_ cs) := t in
  if t_has t XML_NODE_PLAIN_JSON then
    match at_, cs with
    | a :: _, _ => attr_json a
    | [], c :: _ => tree_json c
    | [], [] => JNull
    end
  else if t_has t XML_NODE_CHILD_ARRAY then JArr (map attr_json at_ ++ map tree_json cs)
  else JObj (map (fun a => (default [] (attr_name a), attr_json a)) at_ ++
             map (fun c => (default [] (t_name c), tree_json c)) cs).

(** The trees that are documents: names where they are needed and only there. *)
Definition attr_named (a : xml_attr_t) : Prop := exists s, attr_name a = Some s /\ nul_free s.
Definition tree_named (t : tree) : Prop :=
  t_has t XML_NODE_ANONYMOUS_JSON = false /\ exists s, t_name t = Some s /\ nul_free s.
Definition tree_unnamed (t : tree) : Prop := t_has t XML_NODE_ANONYMOUS_JSON = true.

Fixpoint tree_ok (t : tree) : Prop :=
  let '(Tree _ _ at_ cs) := t in
  Forall attr_ok at_ /\ foldr (fun c P => tree_ok c /\ P) True cs /\
  if t_has t XML_NODE_PLAIN_JSON then
    (exists a, at_ = [a] /\ attr_name a = None /\ cs = []) \/ (exists c, at_ = [] /\ cs = [c] /\ tree_unnamed c)
  else if t_has t XML_NODE_CHILD_ARRAY then Forall (fun a => attr_name a = None) at_ /\ Forall tree_unnamed cs
  else Forall attr_named at_ /\ Forall tree_named cs.

Lemma tree_ind' (P : tree -> Prop) :
  (forall ty nm at_ cs, Forall P cs -> P (Tree ty nm at_ cs)) -> forall t, P t.
Proof.
  intros H. fix IH 1. intros [ty nm at_ cs]. apply H.
  induction cs as [|c cs IHcs]; [by apply Forall_nil|by constructor].
Qed.

Lemma tree_ok_children ty nm at_ cs : tree_ok (Tree ty nm at_ cs) -> Forall attr_ok at_ /\ Forall tree_ok cs.
Proof.
  cbn. intros (Ha & Hc & _). split; [done|]. induction cs as [|c cs IH]; [by apply Forall_nil|].
  cbn [foldr] in Hc. destruct Hc. constructor; auto.
Qed.

(** * The text *)

(** Texts with a comma between. *)
Fixpoint join (l : list (list Z)) : list Z :=
  match l with
  | [] => []
  | [x] => x
  | x :: l => x ++ 44 :: join l
  end.

Definition string_text (s : list Z) : list Z := [quote] ++ _json_string s ++ [quote].
Definition key_text (n : option (list Z)) : list Z :=
  match n with Some s => string_text s | None => bytes "null" end ++ bytes ":".

Definition value_text (a : xml_attr_t) : list Z :=
  match value a with
  | VStr None => bytes "null"
  | VStr (Some s) => string_text s
  | VInt n | VBig n => decimal n
  | VBool b => if b then bytes "true" else bytes "false"
  end.

Definition attr_text (a : xml_attr_t) : list Z :=
  match attr_name a with Some _ => key_text (attr_name a) | None => [] end ++ value_text a.

Definition prefix_text (t : tree) : list Z := if t_has t XML_NODE_ANONYMOUS_JSON then [] else key_text (t_name t).
Definition open_text (t : tree) : list Z :=
  if t_has t XML_NODE_PLAIN_JSON then [] else if t_has t XML_NODE_CHILD_ARRAY then bytes "[" else bytes "{".
Definition close_text (t : tree) : list Z :=
  if t_has t XML_NODE_PLAIN_JSON then [] else if t_has t XML_NODE_CHILD_ARRAY then bytes "]" else bytes "}".

Fixpoint body_text (t : tree) : list Z :=
  let '(Tree _ _ at_ cs) := t in
  open_text t ++ join (map attr_text at_ ++ map (fun c => prefix_text c ++ body_text c) cs) ++ close_text t.

Fixpoint height (t : tree) : nat :=
  let '(Tree _ _ _ cs) := t in S (foldr (fun c n => Nat.max (height c) n) 0%nat cs).

Lemma height_child ty nm at_ cs c : c ∈ cs -> (height c < height (Tree ty nm at_ cs))%nat.
Proof.
  intros Hc. cbn. induction cs as [|d cs IH]; [by apply elem_of_nil in Hc|].
  apply elem_of_cons in Hc as [->|Hc]; cbn; [|specialize (IH Hc)]; lia.
Qed.

Section Text.
Context (u2g : list Z -> Z -> Z * list Z * iconv_stop) (stack : list Z).

Lemma print_attr_text a : attr_ok a -> json_print_attr u2g stack a XML_ENCODING_UTF8 = Done (attr_text a).
Proof.
  intros Ha. unfold json_print_attr, attr_text, attr_ok, value_text in *.
  assert ((match attr_name a with
           | Some s => n ← json_string u2g stack (Some s) XML_ENCODING_UTF8; Done (n ++ bytes ":")
           | None => Done []
           end) = Done (match attr_name a with Some _ => key_text (attr_name a) | None => [] end)) as ->
    by (by destruct (attr_name a)).
  cbn [mbind outcome_bind].
  destruct (value a) as [[s|]|n|n|b]; [destruct Ha as [Ha _]..|]; rewrite Ha;
    cbn -[key_text decimal]; done.
Qed.

Lemma json_attrs_text more l : Forall attr_ok l ->
  json_attrs u2g stack XML_ENCODING_UTF8 more l =
    Done (join (map attr_text l) ++ match l with [] => [] | _ => if more then [44] else [] end).
Proof.
  induction 1 as [|a l Ha _ IH]; [done|]. cbn [json_attrs]. rewrite print_attr_text, IH by done.
  cbn [mbind outcome_bind map]. destruct l as [|b l]; cbn [join map app]; [|by rewrite <- app_assoc].
  by rewrite app_nil_r.
Qed.

(** Both lists of items. *)
Lemma join_app l k : join (l ++ k) = join l ++ match l, k with [], _ | _, [] => [] | _, _ => [44] end ++ join k.
Proof.
  induction l as [|x l IH]; [done|]. cbn [app join]. destruct l as [|y l].
  - cbn [app]. destruct k; [by rewrite !app_nil_r|]. done.
  - rewrite IH. cbn [app]. destruct k; rewrite <- app_assoc; done.
Qed.

Lemma represents_children h id ty nm at_ cs : represents h id (Tree ty nm at_ cs) <->
  exists ids, h !! id = Some (Node ty nm at_ ids) /\ Forall2 (represents h) ids cs.
Proof.
  cbn. split; intros (ids & Hn & H); exists ids; (split; [done|]); clear Hn.
  - revert cs H. induction ids as [|i ids IH]; intros [|c cs] H; try done. destruct H. constructor; auto.
  - induction H; auto.
Qed.

Lemma print_tree_text h t : forall id fuel, represents h id t -> tree_ok t -> (height t <= fuel)%nat ->
  _print_as_json u2g stack fuel h XML_ENCODING_UTF8 id = Done (prefix_text t ++ body_text t).
Proof.
  induction t as [ty nm at_ cs IH] using tree_ind'. intros id fuel Hr Hok Hf.
  apply represents_children in Hr as (ids & Hn & Hids). destruct fuel as [|fuel]; [cbn in Hf; lia|].
  apply tree_ok_children in Hok as [Ha Hc]. cbn [_print_as_json]. rewrite Hn. cbn [attr child node_name].
  assert (json_children (_print_as_json u2g stack fuel h XML_ENCODING_UTF8) ids =
    Done (join (map (fun c => prefix_text c ++ body_text c) cs))) as ->.
  { assert (Forall (fun c => height c <= fuel)%nat cs) as Hh.
    { apply list.Forall_forall. intros c Hin. apply (height_child ty nm at_) in Hin. lia. }
    clear Hn Hf. induction Hids as [|i c ids cs Hi Hids IHl]; [done|].
    apply Forall_cons_1 in IH as [IH1 IH2]. apply Forall_cons_1 in Hc as [Hc1 Hc2]. apply Forall_cons_1 in Hh as [Hh1 Hh2].
    cbn [json_children]. rewrite (IH1 i fuel Hi Hc1 Hh1), (IHl IH2 Hc2 Hh2). cbn [mbind outcome_bind map join].
    destruct Hids; [cbn; by rewrite app_nil_r|done]. }
  rewrite json_attrs_text by done. cbn [mbind outcome_bind].
  assert ((if negb (has (Node ty nm at_ ids) XML_NODE_ANONYMOUS_JSON)
           then s ← json_string u2g stack nm XML_ENCODING_UTF8; Done (s ++ bytes ":") else Done []) =
          Done (prefix_text (Tree ty nm at_ cs))) as ->.
  { unfold has, prefix_text, t_has, t_type. cbn [node_type t_name].
    destruct (negb (Z.land ty XML_NODE_ANONYMOUS_JSON =? 0)); [done|]. by destruct nm. }
  cbn [mbind outcome_bind body_text]. rewrite join_app. unfold has, open_text, close_text, t_has, t_type.
  cbn [node_type]. f_equal. f_equal. f_equal. rewrite <- !app_assoc. f_equal.
  assert (match ids with [] => false | _ => true end = match cs with [] => false | _ => true end) as ->
    by (by destruct Hids).
  by destruct at_, cs.
Qed.
End Text.

(** * The depth of a tree *)

(** A node stands for one tree, so it is not below itself, and a branch is no
    longer than the heap. *)
Lemma represents_fun h t : forall id t', represents h id t -> represents h id t' -> t = t'.
Proof.
  induction t as [ty nm at_ cs IH] using tree_ind'. intros id [ty' nm' at' cs'] H H'.
  apply represents_children in H as (ids & Hn & Hids). apply represents_children in H' as (ids' & Hn' & Hids').
  rewrite Hn in Hn'. injection Hn' as <- <- <- <-. f_equal. clear Hn. revert cs' Hids'.
  induction Hids as [|i c ids cs Hi Hids IHl]; intros cs' H'; inversion H' as [|? c' ? cs'' Hc' Hcs']; [done|].
  apply Forall_cons_1 in IH as [IH1 IH2]. f_equal; [by eapply IH1|by apply IHl].
Qed.

Lemma highest cs : cs <> [] -> exists c : tree, c ∈ cs /\ foldr (fun c n => Nat.max (height c) n) 0%nat cs = height c.
Proof.
  induction cs as [|c cs IH]; [done|]. intros _. destruct cs as [|d cs].
  - exists c. split; [by left|]. cbn. lia.
  - destruct IH as (e & He & Hh); [done|]. cbn [foldr] in *. rewrite Hh.
    destruct (Nat.max_spec (height c) (height e)) as [[_ ->]|[_ ->]].
    + exists e. split; [by right|done].
    + exists c. split; [by left|done].
Qed.

Lemma branch h t : forall id, represents h id t -> exists p : list nat,
  length p = height t /\ NoDup p /\
  forall i, i ∈ p -> (i < length h)%nat /\ exists t', represents h i t' /\ (height t' <= height t)%nat.
Proof.
  induction t as [ty nm at_ cs IH] using tree_ind'. intros id Hr. pose proof Hr as Hroot.
  apply represents_children in Hr as (ids & Hn & Hids). pose proof (lookup_lt_Some _ _ _ Hn) as Hlt.
  destruct (decide (cs = [])) as [->|Hne].
  { exists [id]. split_and!; [done|apply NoDup_singleton|]. intros i ->%list_elem_of_singleton. eauto. }
  destruct (highest cs Hne) as (c & Hc & Hh).
  assert (exists i, represents h i c) as [i Hi].
  { apply list_elem_of_lookup in Hc as [k Hc]. destruct (Forall2_lookup_r _ _ _ _ _ Hids Hc) as (i & _ & Hi). by exists i. }
  rewrite list.Forall_forall in IH. destruct (IH c Hc i Hi) as (p & Hp & Hnd & Hall).
  exists (id :: p). split_and!.
  - cbn. rewrite Hh. lia.
  - constructor; [|done]. intros Hin. destruct (Hall id Hin) as (_ & t' & Ht' & Hle).
    rewrite (represents_fun h t' id _ Ht' Hroot) in Hle. cbn [height] in Hle. rewrite Hh in Hle. lia.
  - intros j [->|Hj]%elem_of_cons; [eauto|]. destruct (Hall j Hj) as (Hj' & t' & Ht' & Hle).
    split; [done|]. exists t'. split; [done|]. cbn [height]. rewrite Hh. lia.
Qed.

Lemma height_heap h id t : represents h id t -> (height t <= length h)%nat.
Proof.
  intros Hr. destruct (branch h t id Hr) as (p & <- & Hnd & Hall).
  rewrite <- (length_seq (length h) 0). apply submseteq_length, NoDup_submseteq; [done|].
  intros i Hi. apply elem_of_seq. destruct (Hall i Hi). lia.
Qed.

(** * Reading the text back *)

Lemma hex_digit_value d : 0 <= d < 16 -> hex_value (hex_digit d) = Some d.
Proof.
  intros Hd. unfold hex_digit, hex_value, isdigit.
  destruct (Z.ltb_spec d 10); repeat zcase; f_equal; lia.
Qed.

Lemma parse_string_text s rest : nul_free s -> parse_string (_json_string s ++ quote :: rest) = Some (s, rest).
Proof.
  induction 1 as [|c s Hc _ IH]; [done|]. change (_json_string (c :: s)) with (json_char c ++ _json_string s).
  rewrite <- app_assoc. unfold json_char at 1. destruct (Z.eqb_spec c quote) as [->|H1]; [cbn -[_json_string]; by rewrite IH|].
  destruct (Z.eqb_spec c backslash) as [->|H2]; [cbn -[_json_string]; by rewrite IH|].
  assert ((0 <=? schar c) && (schar c <=? 31) = (c <? 32)) as ->.
  { rewrite schar_eq by lia. destruct (Z.ltb_spec c 128); apply eq_bool_prop_intro;
      rewrite !Is_true_true, andb_true_iff, !Z.leb_le, Z.ltb_lt; lia. }
  destruct (Z.ltb_spec c 32) as [H3|H3].
  - change (bytes "u00") with [117; 48; 48]. cbn [app parse_string]. unfold hex2.
    pose proof (Z.div_mod c 16 ltac:(lia)). pose proof (Z.mod_pos_bound c 16 ltac:(lia)).
    assert (0 <= c / 16 < 2) by (split; [apply Z.div_pos; lia|apply Z.div_lt_upper_bound; lia]).
    change (backslash =? quote) with false. change (backslash =? backslash) with true.
    change (117 =? 117) with true. cbv iota. cbn [app]. rewrite !hex_digit_value by lia. cbn [mbind option_bind].
    rewrite (proj2 (Z.ltb_lt (c / 16) 8)) by lia. cbn [andb Z.eqb]. change (48 =? 48) with true. cbn [andb].
    rewrite IH. cbn. do 3 f_equal. lia.
  - cbn [app parse_string]. rewrite (proj2 (Z.eqb_neq c quote)), (proj2 (Z.eqb_neq c backslash)),
      (proj2 (Z.ltb_ge c 32)) by done. by rewrite IH.
Qed.

(** What may follow a number. *)
Definition stops (rest : list Z) : Prop := match rest with c :: _ => isdigit c = false | [] => True end.

Lemma span_digits_app ds rest : Forall (fun c => isdigit c = true) ds -> stops rest ->
  span_digits (ds ++ rest) = (ds, rest).
Proof.
  intros Hd Hr. induction Hd as [|c ds Hc _ IH]; cbn; [|by rewrite Hc, IH].
  destruct rest as [|c rest]; cbn in *; [done|by rewrite Hr].
Qed.

Lemma parse_number_text n rest : - 10 ^ 20 < n < 10 ^ 20 -> stops rest ->
  parse_number (decimal n ++ rest) = Some (n, rest) /\
  exists c t, decimal n = c :: t /\ (c = 45 \/ isdigit c = true).
Proof.
  intros Hn Hr. unfold decimal, parse_number. destruct (Z.ltb_spec n 0) as [Hneg|Hpos].
  - destruct (digits_spec 20 (- n) []) as (ds & -> & Hne & Hd & Hv); [lia|lia|].
    rewrite app_nil_r. cbn [app]. change (45 =? 45) with true. cbv iota zeta. cbn [tail]. rewrite span_digits_app, Hv by done.
    split; [|eauto]. destruct ds; [done|]. do 2 f_equal. lia.
  - destruct (digits_spec 20 n []) as (ds & -> & Hne & Hd & Hv); [lia|lia|]. rewrite app_nil_r.
    destruct ds as [|c ds]; [done|]. pose proof Hd as [Hc _]%Forall_cons_1. cbn [app]. cbv zeta.
    assert (c =? 45 = false) as ->.
    { unfold isdigit in Hc. zprop Hc. lia. }
    cbv iota. change (c :: ds ++ rest) with ((c :: ds) ++ rest). rewrite span_digits_app, Hv by done. split; [done|eauto].
Qed.

(** A text that is read as a value, whatever follows it. *)
Definition reads_as (x : list Z) (j : json) : Prop :=
  (forall fuel rest, stops rest -> (length x <= fuel)%nat -> parse_value fuel (x ++ rest) = Some (j, rest)) /\
  exists c t, x = c :: t /\ c <> 93.

Lemma string_reads s : nul_free s -> reads_as (string_text s) (JStr s).
Proof.
  intros Hs. split; [|by exists quote, (_json_string s ++ [quote])]. intros fuel rest _ Hf.
  destruct fuel; [cbn in Hf; lia|]. unfold string_text. cbn [app parse_value]. rewrite <- app_assoc. cbn [app].
  change (quote =? quote) with true. cbv iota. by rewrite parse_string_text.
Qed.

Lemma number_reads n : - 10 ^ 20 < n < 10 ^ 20 -> reads_as (decimal n) (JNum n).
Proof.
  intros Hn. destruct (parse_number_text n [] Hn I) as [_ (c & t & Hd & Hc)].
  assert (48 <= c <= 57 \/ c = 45) as Hr.
  { destruct Hc as [->|Hc]; [by right|]. unfold isdigit in Hc. zprop Hc. lia. }
  split; [|exists c, t; split; [done|lia]]. intros fuel rest Hrest Hf. rewrite Hd in *.
  destruct fuel; [cbn in Hf; lia|]. cbn [app parse_value]. unfold quote. repeat zcase.
  change (c :: t ++ rest) with ((c :: t) ++ rest). rewrite <- Hd.
  by rewrite (proj1 (parse_number_text n rest Hn Hrest)).
Qed.

Lemma value_reads a : attr_ok a -> reads_as (value_text a) (attr_json a).
Proof.
  unfold attr_ok, value_text, attr_json. destruct (value a) as [[s|]|n|n|b].
  - intros [_ Hs]. by apply string_reads.
  - intros _. split; [|by exists 110, [117; 108; 108]]. intros [|fuel] rest _ Hf; [cbn in Hf; lia|done].
  - intros [_ Hn]. apply number_reads. width. lia.
  - intros [_ Hn]. apply number_reads. width. lia.
  - intros _. destruct b; (split; [intros [|fuel] rest _ Hf; [cbn in Hf; lia|done]|by eexists _, _]).
Qed.

(** The elements of an array. *)
Lemma elements_read xs js : Forall2 reads_as xs js -> xs <> [] -> forall fuel rest,
  (length (join xs) < fuel)%nat -> parse_elements fuel (join xs ++ 93 :: rest) = Some (js, rest).
Proof.
  induction 1 as [|x j xs js [Hx _] Hxs IH]; [done|]. intros _ fuel rest Hf.
  destruct fuel as [|fuel]; [lia|]. destruct Hxs as [|y k ys ks Hy Hys].
  - cbn [join] in *. cbn [parse_elements]. rewrite Hx by (done || lia). done.
  - change (join (x :: y :: ys)) with (x ++ 44 :: join (y :: ys)) in *. rewrite length_app in Hf. cbn [length] in Hf.
    rewrite <- app_assoc. cbn [app parse_elements]. rewrite Hx by (done || lia). cbn [mbind option_bind].
    rewrite IH by (done || lia). done.
Qed.

(** A member of an object: a name and a value. *)
Definition member_reads (x : list Z) (kv : list Z * json) : Prop :=
  exists v, x = string_text kv.1 ++ 58 :: v /\ nul_free kv.1 /\ reads_as v kv.2.

Lemma members_read xs ms : Forall2 member_reads xs ms -> xs <> [] -> forall fuel rest,
  (length (join xs) < fuel)%nat -> parse_members fuel (join xs ++ 125 :: rest) = Some (ms, rest).
Proof.
  induction 1 as [|x [k j] xs ms (v & -> & Hk & [Hv _]) Hxs IH]; [done|]. intros _ fuel rest Hf. cbn [fst snd] in *.
  destruct fuel as [|fuel]; [lia|].
  assert (forall tl, parse_members (S fuel) ((string_text k ++ 58 :: v) ++ tl) =
    ('(j, l) ← parse_value fuel (v ++ tl);
     match l with
     | 44 :: l => '(m, l) ← parse_members fuel l; Some ((k, j) :: m, l)
     | 125 :: l => Some ([(k, j)], l)
     | _ => None
     end)) as Hstep.
  { intros tl. unfold string_text. rewrite <- !app_assoc. cbn [app parse_members].
    change (quote =? quote) with true. cbv iota. by rewrite parse_string_text by done. }
  destruct Hxs as [|y m ys ks Hy Hys].
  - cbn [join] in *. rewrite Hstep, Hv; [done|done|]. rewrite length_app in Hf. cbn in Hf. lia.
  - change (join ((string_text k ++ 58 :: v) :: y :: ys)) with ((string_text k ++ 58 :: v) ++ 44 :: join (y :: ys)) in *.
    rewrite !length_app in Hf. cbn [length] in Hf. rewrite <- app_assoc. cbn [app].
    rewrite Hstep, Hv by (done || lia). cbn [mbind option_bind]. rewrite IH by (done || lia). done.
Qed.

Lemma reads_bracketed (o c : Z) (inner : list Z) j :
  o <> 93 -> (forall fuel rest, (length inner < fuel)%nat -> parse_value (S fuel) (o :: inner ++ c :: rest) = Some (j, rest)) ->
  reads_as (o :: inner ++ [c]) j.
Proof.
  intros Ho H. split; [|eauto]. intros fuel rest _ Hf. cbn [length] in Hf. rewrite length_app in Hf. cbn in Hf.
  destruct fuel as [|fuel]; [lia|]. cbn [app]. rewrite <- app_assoc. apply H. lia.
Qed.

Lemma array_reads xs js : Forall2 reads_as xs js -> reads_as (bytes "[" ++ join xs ++ bytes "]") (JArr js).
Proof.
  intros H. apply (reads_bracketed 91 93); [done|]. intros fuel rest Hf. cbn [parse_value].
  change (91 =? quote) with false. change (91 =? 123) with false. change (91 =? 91) with true. cbv iota.
  destruct H as [|x j xs js Hx Hxs]; [done|].
  assert (exists c t, join (x :: xs) ++ 93 :: rest = c :: t /\ c <> 93) as (c & t & Hct & Hc).
  { destruct Hx as [_ (c & t & -> & Hc)]. destruct xs; cbn [join app]; eauto. }
  rewrite Hct. rewrite (proj2 (Z.eqb_neq c 93)), <- Hct by done. rewrite (elements_read (x :: xs) (j :: js)); [done| |done|done].
  by constructor.
Qed.

Lemma object_reads xs ms : Forall2 member_reads xs ms -> reads_as (bytes "{" ++ join xs ++ bytes "}") (JObj ms).
Proof.
  intros H. apply (reads_bracketed 123 125); [done|]. intros fuel rest Hf. cbn [parse_value].
  change (123 =? quote) with false. change (123 =? 123) with true. cbv iota.
  destruct H as [|x j xs js Hx Hxs]; [done|].
  assert (exists t, join (x :: xs) ++ 125 :: rest = quote :: t) as (t & Hct).
  { destruct Hx as (v & -> & _). destruct xs; cbn [join app]; unfold string_text; cbn [app]; eauto. }
  rewrite Hct. change (quote =? 125) with false. rewrite <- Hct. rewrite (members_read (x :: xs) (j :: js)); [done| |done|done].
  by constructor.
Qed.

Lemma tree_reads t : tree_ok t -> reads_as (body_text t) (tree_json t).
Proof.
  induction t as [ty nm at_ cs IH] using tree_ind'. intros Hok. pose proof Hok as [Ha Hc]%tree_ok_children.
  destruct Hok as (_ & _ & Hk). cbn [body_text tree_json]. unfold open_text, close_text.
  set (t := Tree ty nm at_ cs) in *.
  assert (Forall2 reads_as (map body_text cs) (map tree_json cs)) as Hcs.
  { clear -IH Hc. induction IH as [|c cs Hr _ IHl]; [constructor|]. apply Forall_cons_1 in Hc as [Hc1 Hc2].
    constructor; [by apply Hr|by apply IHl]. }
  destruct (t_has t XML_NODE_PLAIN_JSON).
  - destruct Hk as [(a & -> & Hn & ->)|(c & -> & -> & Hu)]; cbn [map app join].
    + rewrite app_nil_r. unfold attr_text. rewrite Hn. apply value_reads. by inversion Ha.
    + rewrite app_nil_r. unfold prefix_text. rewrite Hu. cbn [app]. by inversion Hcs.
  - destruct (t_has t XML_NODE_CHILD_ARRAY).
    + destruct Hk as [Hn Hu]. apply array_reads. apply Forall2_app.
      * clear -Ha Hn. induction Ha as [|a at_ Ha _ IH]; [constructor|]. apply Forall_cons_1 in Hn as [Hn1 Hn2].
        constructor; [|by apply IH]. unfold attr_text. rewrite Hn1. by apply value_reads.
      * clear -Hcs Hu. induction Hu as [|c cs Hu _ IH]; [constructor|]. inversion Hcs; subst.
        constructor; [|by apply IH]. unfold prefix_text. by rewrite Hu.
    + destruct Hk as [Hn Hu]. apply object_reads. apply Forall2_app.
      * clear -Ha Hn. induction Ha as [|a at_ Ha _ IH]; [constructor|]. apply Forall_cons_1 in Hn as [(s & Hs & Hnf) Hn2].
        constructor; [|by apply IH]. exists (value_text a). unfold attr_text. rewrite Hs. cbn [fst snd default].
        split; [unfold key_text; app_eq|]. split; [done|by apply value_reads].
      * clear -Hcs Hu. induction Hu as [|c cs [Hu (s & Hs & Hnf)] _ IH]; [constructor|]. inversion Hcs; subst.
        constructor; [|by apply IH]. exists (body_text c). unfold prefix_text. rewrite Hu, Hs. cbn [fst snd].
        split; [unfold key_text; app_eq|]. by split.
Qed.

(** C4. A document printed as JSON is read back by a parser as the object,
    array or value its nodes stand for, whatever bytes its strings hold. *)
Theorem json_document u2g stack h doc t r : root doc = Some r -> encoding doc = XML_ENCODING_UTF8 ->
  represents h r t -> tree_ok t -> tree_unnamed t ->
  exists x, xml_dump u2g stack h doc 0 = Done x /\ parse_json x = Some (tree_json t).
Proof.
  intros Hr He Hrep Hok Hu. exists (body_text t). split.
  - unfold xml_dump, print_as_json. change (0 =? XML_AS_XML) with false. cbv iota. rewrite Hr, He.
    rewrite (print_tree_text u2g stack h t); [|done|done|pose proof (height_heap h r t Hrep); lia].
    unfold prefix_text. by rewrite Hu.
  - unfold parse_json. destruct (tree_reads t Hok) as [Hp _].
    specialize (Hp (length (body_text t)) [] I (le_n _)). rewrite app_nil_r in Hp. by rewrite Hp.
Qed.

(** * Witness *)

(** An error response as [fcgi/web.c] builds it, with an array added to it. *)
Definition sample_heap : heap := [
  Node XML_NODE_ANONYMOUS_JSON (Some (bytes "bbs_error"))
    [Attr 0 (Some (bytes "msg")) (VStr (Some [34; 92; 7; 200])); Attr 1 (Some (bytes "code")) (VInt (-10002))] [1%nat];
  Node XML_NODE_CHILD_ARRAY (Some (bytes "flags")) [] [2%nat; 2%nat];
  Node (Z.lor XML_NODE_ANONYMOUS_JSON XML_NODE_PLAIN_JSON) None [Attr 3 None (VBool true)] []].

Definition flag_tree : tree := Tree (Z.lor XML_NODE_ANONYMOUS_JSON XML_NODE_PLAIN_JSON) None [Attr 3 None (VBool true)] [].
Definition sample_tree : tree :=
  Tree XML_NODE_ANONYMOUS_JSON (Some (bytes "bbs_error"))
    [Attr 0 (Some (bytes "msg")) (VStr (Some [34; 92; 7; 200])); Attr 1 (Some (bytes "code")) (VInt (-10002))]
    [Tree XML_NODE_CHILD_ARRAY (Some (bytes "flags")) [] [flag_tree; flag_tree]].

Lemma sample_represents : represents sample_heap 0 sample_tree.
Proof.
  exists [1%nat]. split; [done|]. split; [|done]. exists [2%nat; 2%nat]. split; [done|].
  split_and!; try done; by exists [].
Defined.

Lemma sample_named a : match attr_name a with Some s => nul_free s | None => False end -> attr_named a.
Proof. unfold attr_named. destruct (attr_name a) as [s|]; [by exists s|done]. Qed.

Lemma sample_ok : tree_ok sample_tree.
Proof.
  assert (Forall attr_ok [Attr 3 None (VBool true)]) as Hflag by (repeat constructor).
  cbn [tree_ok sample_tree flag_tree foldr]. repeat match goal with
    | |- context [t_has ?t ?f] => let b := eval vm_compute in (t_has t f) in change (t_has t f) with b
    end. cbv iota.
  split_and!; try done; try (left; by exists (Attr 3 None (VBool true))).
  - apply Forall_cons; [split; [done|repeat constructor; lia]|].
    apply Forall_cons; [split; [done|width; lia]|done].
  - by repeat constructor.
  - apply Forall_cons; [apply sample_named; repeat constructor; lia|].
    apply Forall_cons; [apply sample_named; repeat constructor; lia|done].
  - apply Forall_cons; [split; [done|]|done]. exists (bytes "flags"). split; [done|repeat constructor; lia].
Qed.

Lemma json_document_witness : exists x,
  xml_dump (fun _ _ => (0, [], Converted)) [] sample_heap (Doc XML_ENCODING_UTF8 (Some 0%nat)) 0 = Done x /\
  parse_json x = Some (JObj [(bytes "msg", JStr [34; 92; 7; 200]); (bytes "code", JNum (-10002));
                             (bytes "flags", JArr [JBool true; JBool true])]).
Proof.
  apply (json_document (fun _ _ => (0, [], Converted)) [] sample_heap (Doc XML_ENCODING_UTF8 (Some 0%nat)) sample_tree 0);
    [done|done|apply sample_represents|apply sample_ok|done].
Defined.
