(* ===== verification/Display.v ===== *)
(** What the client sees: a terminal that interprets the bytes sent by
    [src/screen.c], and what it shows after a flush. *)
From S2P Require Import Prelude CString Utf8 Terminal Convert Screen.

(** * The terminal of the client *)

(** In text, after an escape character, and in a sequence with the parameters
    read so far. *)
Inductive vmode := Ground | Esc | Csi (ps : list Z) (n : Z).

(** The cells by row and column, the cursor and the mode; the rows are as wide as
    what is written to them. *)
Record vt := Vt { cells : Z -> Z -> Z; vrow : Z; vcol : Z; vmod : vmode }.

Definition blank_vt : vt := Vt (fun _ _ => 32) 0 0 Ground.

Section Display.
Context (rows : Z).

Definition ground (v : vt) : vt := Vt (cells v) (vrow v) (vcol v) Ground.
Definition set_mode (k : vmode) (v : vt) : vt := Vt (cells v) (vrow v) (vcol v) k.

Definition clear_cells (hit : Z -> Z -> bool) (v : vt) : vt :=
  Vt (fun r c => if hit r c then 32 else cells v r c) (vrow v) (vcol v) Ground.

(** Every row moves by [k]; those that come from outside are blank. *)
Definition shift_rows (k : Z) (f : Z -> Z -> Z) : Z -> Z -> Z :=
  fun r c => if (0 <=? r + k) && (r + k <? rows) then f (r + k) c else 32.

Definition put_text (b : Z) (v : vt) : vt :=
  if b =? 27 then set_mode Esc v
  else if b =? 10 then
    if vrow v <? rows - 1 then Vt (cells v) (vrow v + 1) (vcol v) Ground
    else Vt (shift_rows 1 (cells v)) (vrow v) (vcol v) Ground
  else if b =? 13 then Vt (cells v) (vrow v) 0 Ground
  else if b =? 8 then Vt (cells v) (vrow v) (Z.max 0 (vcol v - 1)) Ground
  else Vt (fun r c => if (r =? vrow v) && (c =? vcol v) then b else cells v r c) (vrow v) (vcol v + 1) Ground.

(** The last byte of a sequence with parameters: move, clear to the end of the
    screen or of the line. *)
Definition run_csi (ps : list Z) (b : Z) (v : vt) : vt :=
  if b =? 72 then
    Vt (cells v) (Z.max 0 (default 1 (ps !! 0%nat) - 1)) (Z.max 0 (default 1 (ps !! 1%nat) - 1)) Ground
  else if b =? 74 then clear_cells (fun r c => (vrow v <? r) || ((r =? vrow v) && (vcol v <=? c))) v
  else if b =? 75 then clear_cells (fun r c => (r =? vrow v) && (vcol v <=? c)) v
  else ground v.

Definition feed (v : vt) (b : Z) : vt :=
  match vmod v with
  | Ground => put_text b v
  | Esc =>
      if b =? 91 then set_mode (Csi [] 0) v
      else if b =? 77 then
        if vrow v =? 0 then Vt (shift_rows (-1) (cells v)) (vrow v) (vcol v) Ground
        else Vt (cells v) (vrow v - 1) (vcol v) Ground
      else ground v
  | Csi ps n =>
      if isdigit b then set_mode (Csi ps (n * 10 + (b - 48))) v
      else if b =? 59 then set_mode (Csi (ps ++ [n]) 0) v
      else run_csi (ps ++ [n]) b v
  end.

Definition display (o : output) : vt := foldl feed blank_vt (written o).

(** * What sequences of bytes do *)

(** In text, the cursor at a row and a column. *)
Definition at_pos (v : vt) (r c : Z) : Prop := vmod v = Ground /\ vrow v = r /\ vcol v = c.

Definition printable (c : Z) : Prop := 32 <= c <= 126.

Lemma feed_text l : forall v r c, at_pos v r c -> Forall printable l ->
  at_pos (foldl feed v l) r (c + blen l) /\
  forall i j, cells (foldl feed v l) i j =
    if (i =? r) && (c <=? j) && (j <? c + blen l) then default 32 (l !! Z.to_nat (j - c)) else cells v i j.
Proof.
  induction l as [|b l IH]; intros v r c (Hm & Hr & Hc) Hl.
  - change (blen []) with 0. rewrite Z.add_0_r. split; [done|]. intros i j. repeat zcase; done.
  - apply Forall_cons_1 in Hl as [Hb Hl]. unfold printable in Hb. cbn [foldl].
    set (v1 := Vt (fun i j => if (i =? r) && (j =? c) then b else cells v i j) r (c + 1) Ground).
    assert (feed v b = v1) as ->.
    { unfold feed. rewrite Hm. unfold put_text. repeat zcase. subst v1. by rewrite Hr, Hc. }
    destruct (IH v1 r (c + 1)) as [Hat Hcells]; [by split_and!|done|]. rewrite blen_cons. split.
    + by replace (c + (1 + blen l)) with (c + 1 + blen l) by lia.
    + intros i j. rewrite Hcells. subst v1. cbn [cells]. pose proof (blen_nonneg l).
      destruct (Z.eqb_spec i r) as [->|]; cbn [andb]; [|done].
      destruct (Z.eqb_spec j c) as [->|Hne].
      * repeat zcase. by rewrite Z.sub_diag.
      * replace (Z.to_nat (j - c)) with (Z.to_nat (j - c)) by done.
        destruct (Z.leb_spec (c + 1) j); destruct (Z.leb_spec c j); try lia; cbn [andb]; [|done].
        replace (Z.to_nat (j - c)) with (S (Z.to_nat (j - (c + 1)))) by lia. cbn [lookup list_lookup].
        replace (c + (1 + blen l)) with (c + 1 + blen l) by lia. done.
Qed.

(** The digits of a parameter. *)
Lemma feed_digits ds : forall v ps n, vmod v = Csi ps n -> Forall (fun c => isdigit c = true) ds ->
  foldl feed v ds = set_mode (Csi ps (digits_value n ds)) v.
Proof.
  induction ds as [|d ds IH]; intros v ps n Hm Hd; cbn [foldl].
  - unfold set_mode. destruct v. cbn in *. by subst.
  - apply Forall_cons_1 in Hd as [Hd Hds].
    assert (feed v d = set_mode (Csi ps (n * 10 + (d - 48))) v) as -> by (unfold feed; by rewrite Hm, Hd).
    by rewrite (IH _ ps (n * 10 + (d - 48))).
Qed.

Lemma feed_decimal v ps n : vmod v = Csi ps 0 -> 0 <= n < 100000 -> foldl feed v (decimal n) = set_mode (Csi ps n) v.
Proof.
  intros Hm Hn. unfold decimal. rewrite (proj2 (Z.ltb_ge n 0)) by lia.
  destruct (digits_spec 20 n []) as (ds & -> & _ & Hd & Hv); [lia|lia|]. rewrite app_nil_r.
  by rewrite (feed_digits ds v ps 0), Hv by done.
Qed.

Definition cursor_text (col line : Z) : list Z := [27; 91] ++ decimal (line + 1) ++ [59] ++ decimal (col + 1) ++ [72].

Lemma feed_cursor v col line : vmod v = Ground -> 0 <= col < 10000 -> 0 <= line < 10000 ->
  foldl feed v (cursor_text col line) = Vt (cells v) line col Ground.
Proof.
  intros Hm Hc Hl. unfold cursor_text. rewrite !foldl_app. cbn [foldl].
  assert (feed (feed v 27) 91 = set_mode (Csi [] 0) v) as -> by (unfold feed; rewrite Hm; done).
  rewrite (feed_decimal _ [] (line + 1)) by (done || lia).
  change (feed (set_mode (Csi [] (line + 1)) (set_mode (Csi [] 0) v)) 59) with (set_mode (Csi [line + 1] 0) v).
  rewrite (feed_decimal _ [line + 1] (col + 1)) by (done || lia).
  unfold feed, run_csi, set_mode. cbn. f_equal; lia.
Qed.

Lemma feed_clear_line v r c : at_pos v r c ->
  at_pos (foldl feed v ANSI_CMD_CE) r c /\
  forall i j, cells (foldl feed v ANSI_CMD_CE) i j = if (i =? r) && (c <=? j) then 32 else cells v i j.
Proof. intros (Hm & <- & <-). destruct v as [f r c k]. cbn in Hm. subst k. done. Qed.

Lemma feed_clear_screen v : vmod v = Ground ->
  at_pos (foldl feed v ANSI_CMD_CL) 0 0 /\ forall i j, 0 <= i -> 0 <= j -> cells (foldl feed v ANSI_CMD_CL) i j = 32.
Proof.
  intros Hm. destruct v as [f r c k]. cbn in Hm. subst k. split; [done|].
  intros i j Hi Hj. cbn. zcase. done.
Qed.
End Display.

(** * The functions that write *)

Lemma adds_nil o : out_ok o -> adds o o [].
Proof. intros Ho. split_and!; [done|by rewrite app_nil_r|change (blen []) with 0; lia]. Qed.

Lemma adds_trans o o1 o2 a b : adds o o1 a -> adds o1 o2 b -> adds o o2 (a ++ b).
Proof.
  intros (_ & Hw1 & Hs1) (Ho & Hw2 & Hs2). split_and!; [done|by rewrite Hw2, Hw1, app_assoc|rewrite blen_app; lia].
Qed.

Lemma adds_display rows o o' bs : adds o o' bs -> display rows o' = foldl (feed rows) (display rows o) bs.
Proof. intros (_ & Hw & _). unfold display. by rewrite Hw, foldl_app. Qed.

Lemma adds_ok o o' bs : adds o o' bs -> out_ok o'.
Proof. by intros (? & _). Qed.
Lemma adds_size o o' bs : adds o o' bs -> osize o' = osize o + blen bs.
Proof. by intros (_ & _ & ?). Qed.

Lemma set_out_idem o o' s : set_out o (set_out o' s) = set_out o s.
Proof. done. Qed.

Lemma putchar_ok ch s : out_ok (outp s) -> osize (outp s) + 1 < OUTPUT_BUFFER_SIZE ->
  exists o, putchar true ch s = Done (set_out o s) /\ adds (outp s) o [u8 ch].
Proof.
  intros Ho Hs. unfold putchar. destruct (putchar_adds (outp s) ch Ho Hs) as (o & -> & Ha). by exists o.
Qed.

Lemma write_ok bs s : out_ok (outp s) -> osize (outp s) + blen bs < OUTPUT_BUFFER_SIZE ->
  exists o, write_cached true bs s = Done (set_out o s) /\ adds (outp s) o bs.
Proof.
  intros Ho Hs. unfold write_cached. destruct (write_cached_adds (outp s) bs Ho Hs) as (o & -> & Ha). by exists o.
Qed.

Lemma putchars_ok l : forall s, Forall (fun c => 0 <= c < 128) l -> out_ok (outp s) ->
  osize (outp s) + blen l < OUTPUT_BUFFER_SIZE ->
  exists o, putchars true l s = Done (set_out o s) /\ adds (outp s) o l.
Proof.
  induction l as [|c l IH]; intros s Hl Ho Hs.
  - exists (outp s). split; [by destruct s|by apply adds_nil].
  - apply Forall_cons_1 in Hl as [Hc Hl]. rewrite blen_cons in Hs. pose proof (blen_nonneg l). cbn [putchars].
    rewrite schar_ascii by done. destruct (putchar_ok c s Ho) as (o & -> & Ha); [lia|]. cbn [mbind outcome_bind].
    rewrite u8_id in Ha by (width; lia). pose proof (adds_size _ _ _ Ha) as Hsz. change (blen [c]) with 1 in Hsz.
    destruct (IH (set_out o s)) as (o' & -> & Ha'); [done|by eapply adds_ok|cbn [outp set_out]; lia|].
    exists o'. split; [done|]. by apply (adds_trans _ o _ [c]).
Qed.

Section Cursor.
Context (rows : Z).

(** The cursor moved: the bytes, the new position, and nothing else. *)
Definition moves (s : state) (col line : Z) (o : output) (bs : list Z) : Prop :=
  adds (outp s) o bs /\ blen bs <= 16 /\ at_pos (display rows o) line col /\
  forall i j, cells (display rows o) i j = cells (display rows (outp s)) i j.

Lemma cursor_text_ok col line : 0 <= col < 9999 -> 0 <= line < 9999 ->
  blen (cursor_text col line) <= 15 /\ Forall (fun c => 0 <= c < 128) (cursor_text col line).
Proof.
  intros Hc Hl. unfold cursor_text.
  pose proof (decimal_length (line + 1) ltac:(lia)). pose proof (decimal_length (col + 1) ltac:(lia)). split.
  - rewrite !blen_app. change (blen [27; 91]) with 2. change (blen [59]) with 1. change (blen [72]) with 1. lia.
  - assert (forall n, Forall (fun c => 0 <= c < 128) (decimal n)) as Hd.
    { intros n. eapply Forall_impl; [|apply decimal_chars]. cbn. lia. }
    repeat (apply Forall_app; split); try apply Hd; repeat constructor; lia.
Qed.

Lemma move_cursor_ok col line s : out_ok (outp s) -> osize (outp s) + 16 < OUTPUT_BUFFER_SIZE ->
  at_pos (display rows (outp s)) (tc_line (scr s)) (tc_col (scr s)) ->
  0 <= tc_col (scr s) -> 0 <= tc_line (scr s) ->
  0 <= line < lines (scr s) -> 0 <= col < columns (scr s) -> lines (scr s) <= rows -> rows <= 1000 -> columns (scr s) <= 2000 ->
  exists o bs, move_terminal_cursor true col line s = Done (on_screen (set_tc line col) (set_out o s)) /\
    moves s col line o bs.
Proof.
  intros Ho Hs (Hm & Hr & Hc) Htc Htl Hl Hcol Hrows H1000 H2000. set (v := display rows (outp s)) in *.
  unfold move_terminal_cursor. rewrite (proj2 (Z.leb_gt (lines (scr s)) line)), (proj2 (Z.leb_gt (columns (scr s)) col)) by lia.
  cbn [orb].
  (* a byte that moves the cursor only *)
  assert (forall ch s, out_ok (outp s) -> osize (outp s) + 1 < OUTPUT_BUFFER_SIZE -> ch = 10 \/ ch = 13 \/ ch = 8 ->
    exists o, putchar true ch s = Done (set_out o s) /\ adds (outp s) o [ch] /\
      display rows o = feed rows (display rows (outp s)) ch) as Hput.
  { intros ch s' Ho' Hs' Hch. destruct (putchar_ok ch s' Ho' Hs') as (o & -> & Ha). exists o.
    rewrite u8_id in Ha by (width; lia). split; [done|]. split; [done|]. by rewrite (adds_display rows _ _ _ Ha). }
  set (body := (if (col =? 0) && (line =? tc_line (scr s) + 1) then _ else _)).
  assert (exists o bs, body = Done (set_out o s) /\ adds (outp s) o bs /\ blen bs <= 16 /\
    display rows o = Vt (cells v) line col Ground) as (o & bs & -> & Ha & Hb & Hd).
  { subst body. destruct ((col =? 0) && (line =? tc_line (scr s) + 1)) eqn:E1; [zprop E1; destruct E1 as [E1 E1']|].
    { assert (col = 0 /\ line = tc_line (scr s) + 1) as [-> ->] by lia.
      destruct (Hput 10 s Ho) as (o & -> & Ha & Hd); [lia|by left|]. cbn [mbind outcome_bind].
      assert (display rows o = Vt (cells v) (tc_line (scr s) + 1) (tc_col (scr s)) Ground) as Hd1.
      { rewrite Hd. fold v. unfold feed. rewrite Hm. unfold put_text. cbn. rewrite Hr, Hc.
        rewrite (proj2 (Z.ltb_lt _ _)) by lia. done. }
      pose proof (adds_size _ _ _ Ha) as Hsz. change (blen [10]) with 1 in Hsz.
      destruct (negb (tc_col (scr s) =? 0)) eqn:E2.
      - destruct (Hput 13 (set_out o s)) as (o2 & -> & Ha2 & Hd2); [by eapply adds_ok|cbn; lia|by right; left|].
        exists o2, ([10] ++ [13]). split; [done|]. split; [by eapply adds_trans|]. split; [by vm_compute|].
        rewrite Hd2. cbn [outp set_out]. by rewrite Hd1.
      - exists o, [10]. split; [done|]. split; [done|]. split; [by vm_compute|]. rewrite Hd1. f_equal. zprop E2. lia. }
    destruct ((col =? 0) && (line =? tc_line (scr s))) eqn:E2.
    { zprop E2. assert (col = 0 /\ line = tc_line (scr s)) as [-> ->] by lia.
      destruct (negb (tc_col (scr s) =? 0)) eqn:E3.
      - destruct (Hput 13 s Ho) as (o & -> & Ha & Hd); [lia|by right; left|]. exists o, [13].
        split; [done|]. split; [done|]. split; [by vm_compute|]. rewrite Hd. fold v. unfold feed. rewrite Hm, <- Hr. done.
      - zprop E3. exists (outp s), []. split; [by destruct s|]. split; [by apply adds_nil|]. split; [by vm_compute|].
        fold v. destruct v. cbn in *. subst. f_equal. lia. }
    destruct ((col =? tc_col (scr s) - 1) && (line =? tc_line (scr s))) eqn:E3.
    { zprop E3. assert (col = tc_col (scr s) - 1 /\ line = tc_line (scr s)) as [-> ->] by lia.
      destruct (Hput 8 s Ho) as (o & Hp & Ha & Hd); [lia|by right; right|]. exists o, [8].
      change (Ctrl 72) with 8. rewrite Hp. split; [done|]. split; [done|]. split; [by vm_compute|].
      rewrite Hd. fold v. unfold feed. rewrite Hm. unfold put_text. cbn. rewrite Hr, Hc. f_equal. lia. }
    destruct (negb (col =? tc_col (scr s)) || negb (line =? tc_line (scr s))) eqn:E4.
    - destruct (cursor_text_ok col line) as [Hct Hca]; [lia..|]. unfold move_terminal_cursor_to.
      fold (cursor_text col line). rewrite take_ge by (unfold blen in Hct; lia).
      destruct (putchars_ok (cursor_text col line) s Hca Ho) as (o & -> & Ha); [lia|].
      exists o, (cursor_text col line). split; [done|]. split; [done|]. split; [lia|].
      rewrite (adds_display rows _ _ _ Ha). apply feed_cursor; [done|lia..].
    - zprop E4. assert (col = tc_col (scr s) /\ line = tc_line (scr s)) as [-> ->] by lia.
      exists (outp s), []. split; [by destruct s|]. split; [by apply adds_nil|]. split; [by vm_compute|].
      fold v. destruct v. cbn in *. by subst. }
  cbn [mbind outcome_bind]. exists o, bs. split; [done|]. split; [done|]. split; [done|]. rewrite Hd. by split_and!.
Qed.
End Cursor.

(** * The lines of the screen *)

Definition line_of (c : screen_t) (r : Z) : option screen_line_t :=
  match buf c with Some b => b !! Z.to_nat (line_index c r) | None => None end.

(** A line within its bounds, holding printable text. *)
Definition line_ok (columns : Z) (sl : screen_line_t) : Prop :=
  0 <= len sl < columns /\ (len sl <= blen (data sl) /\ blen (data sl) = SCREEN_LINE_LEN) /\ 0 <= old_len sl <= SCREEN_LINE_LEN /\
  Forall printable (take (Z.to_nat (len sl)) (data sl)).

Record screen_ok (c : screen_t) : Prop := {
  ok_buf : exists b, buf c = Some b /\ Z.of_nat (length b) = lines c /\ Forall (line_ok (columns c)) b;
  ok_lines : 3 < lines c <= MAX_SCREEN_LINES;
  ok_columns : 0 < columns c <= SCREEN_LINE_LEN;
  ok_roll : 0 <= roll c < lines c;
  ok_tc : 0 <= tc_line c < lines c /\ 0 <= tc_col c < columns c;
}.

(** The rest of the state. *)
Definition env (s : state) : input * Z * list Z * list (list Z) := (inp s, left s, saved s, temp s).

(** What writing to the terminal leaves alone. *)
Definition frame (c c' : screen_t) : Prop :=
  lines c' = lines c /\ columns c' = columns c /\ roll c' = roll c /\ cur_ln c' = cur_ln c /\
  cur_col c' = cur_col c /\
  forall r, 0 <= r < lines c -> exists sl sl', line_of c r = Some sl /\ line_of c' r = Some sl' /\
    len sl' = len sl /\ data sl' = data sl.

Lemma line_index_range c r : 0 < lines c -> 0 <= roll c -> 0 <= r -> 0 <= line_index c r < lines c.
Proof. intros. unfold line_index. rewrite Z.rem_mod_nonneg by lia. apply Z.mod_pos_bound. lia. Qed.

Lemma mod_shift_inj n k a b : 0 < n -> 0 <= a < n -> 0 <= b < n -> (a + k) mod n = (b + k) mod n -> a = b.
Proof.
  intros Hn Ha Hb H. pose proof (Z.div_mod (a + k) n ltac:(lia)). pose proof (Z.div_mod (b + k) n ltac:(lia)).
  rewrite H in *. assert (n * ((a + k) / n - (b + k) / n) = a - b) as Heq by lia.
  assert ((a + k) / n - (b + k) / n = 0) by nia. nia.
Qed.

Lemma line_index_inj c r r' : 0 <= roll c -> 0 <= r < lines c -> 0 <= r' < lines c ->
  line_index c r = line_index c r' -> r = r'.
Proof.
  intros Hroll Hr Hr'. unfold line_index. rewrite !Z.rem_mod_nonneg by lia.
  apply mod_shift_inj; lia.
Qed.

Lemma line_of_some c r : screen_ok c -> 0 <= r < lines c -> exists sl, line_of c r = Some sl /\ line_ok (columns c) sl.
Proof.
  intros [(b & Hb & Hlen & Hall) Hl _ Hroll _] Hr. unfold line_of. rewrite Hb.
  pose proof (line_index_range c r ltac:(lia) ltac:(lia) ltac:(lia)).
  destruct (lookup_lt_is_Some_2 b (Z.to_nat (line_index c r))) as [sl Hsl]; [lia|].
  exists sl. split; [done|]. by eapply Forall_lookup_1.
Qed.

Lemma line_at_of s r sl : screen_ok (scr s) -> 0 <= r < lines (scr s) -> line_of (scr s) r = Some sl ->
  line_at s (line_index (scr s) r) = Done sl.
Proof.
  intros [(b & Hb & _) Hl _ Hroll _] Hr. unfold line_of, line_at. rewrite Hb. intros Hsl.
  pose proof (line_index_range (scr s) r ltac:(lia) ltac:(lia) ltac:(lia)).
  by rewrite (proj2 (Z.ltb_ge _ 0)), Hsl by lia.
Qed.

(** Changing one line. *)
Lemma set_line_spec s r sl' : screen_ok (scr s) -> 0 <= r < lines (scr s) -> line_ok (columns (scr s)) sl' ->
  screen_ok (scr (set_line (line_index (scr s) r) sl' s)) /\
  forall r', 0 <= r' < lines (scr s) ->
    line_of (scr (set_line (line_index (scr s) r) sl' s)) r' = if r' =? r then Some sl' else line_of (scr s) r'.
Proof.
  intros [(b & Hb & Hlen & Hall) Hl Hcol Hroll Htc] Hr Hok. unfold set_line. rewrite Hb.
  pose proof (line_index_range (scr s) r ltac:(lia) ltac:(lia) ltac:(lia)) as Hi.
  destruct s as [c inp_ o lft sv tm]. cbn [scr on_screen] in *. split.
  - constructor; cbn [set_buf buf lines columns roll utf8 tc_line tc_col]; try done.
    eexists. split; [done|]. rewrite length_insert. split; [done|]. by apply Forall_insert.
  - intros r' Hr'. unfold line_of. cbn [set_buf buf]. rewrite Hb.
    change (line_index (set_buf _ c) r') with (line_index c r').
    pose proof (line_index_range c r' ltac:(lia) ltac:(lia) ltac:(lia)) as Hi'.
    destruct (Z.eqb_spec r' r) as [->|Hne].
    + rewrite list_lookup_insert_eq by lia. done.
    + rewrite list_lookup_insert_ne; [done|]. intros Heq. apply Hne.
      apply (line_index_inj c); lia.
Qed.

Definition cell_of (sl : screen_line_t) (c : Z) : Z := default 32 (data sl !! Z.to_nat c).

(** A row shows the line. *)
Definition row_shown (f : Z -> Z) (sl : screen_line_t) : Prop :=
  forall c, 0 <= c -> f c = if c <? len sl then cell_of sl c else 32.

(** A row is at most as far from its line as a flush can repair: a line not
    modified is shown as far as it goes, and nothing is beyond what was sent. *)
Definition row_ok (f : Z -> Z) (sl : screen_line_t) : Prop :=
  (modified sl = false -> forall c, 0 <= c < len sl -> f c = cell_of sl c) /\
  forall c, old_len sl <= c -> f c = 32.

(** What a line holds was sent. *)
Definition settled (c : screen_t) (r : Z) : Prop := exists sl, line_of c r = Some sl /\ len sl <= old_len sl.

(** At most [n] bytes were written, the cursor of the terminal is where the screen
    expects it, and the lines hold what they did. *)
Record wrote (rows : Z) (s s' : state) (n : Z) : Prop := {
  wrote_frame : frame (scr s) (scr s');
  wrote_ok : screen_ok (scr s');
  wrote_scroll : scrollcnt (scr s') = scrollcnt (scr s);
  wrote_env : env s' = env s;
  wrote_adds : exists bs, adds (outp s) (outp s') bs /\ blen bs <= n;
  wrote_at : at_pos (display rows (outp s')) (tc_line (scr s')) (tc_col (scr s'));
}.

Lemma frame_refl c : screen_ok c -> frame c c.
Proof.
  intros Hc. split_and!; try done. intros r Hr. destruct (line_of_some c r Hc Hr) as (sl & Hsl & _). by exists sl, sl.
Qed.

Lemma frame_trans c c1 c2 : frame c c1 -> frame c1 c2 -> frame c c2.
Proof.
  intros (H1 & H2 & H3 & H4 & H5 & H6) (K1 & K2 & K3 & K4 & K5 & K6). split_and!; try congruence.
  intros r Hr. destruct (H6 r Hr) as (sl & sl1 & ? & ? & ? & ?). rewrite <- H1 in Hr.
  destruct (K6 r Hr) as (sl1' & sl2 & ? & ? & ? & ?). exists sl, sl2. split_and!; congruence.
Qed.

Lemma wrote_trans rows s s1 s2 n k : wrote rows s s1 n -> wrote rows s1 s2 k -> wrote rows s s2 (n + k).
Proof.
  intros [F1 O1 S1 I1 (b1 & A1 & L1) P1] [F2 O2 S2 I2 (b2 & A2 & L2) P2]. constructor; try congruence; try done.
  - by eapply frame_trans.
  - exists (b1 ++ b2). split; [by eapply adds_trans|]. rewrite blen_app. lia.
Qed.

Lemma wrote_size rows s s' n : wrote rows s s' n -> osize (outp s') <= osize (outp s) + n.
Proof. intros [_ _ _ _ (bs & Ha & Hl) _]. rewrite (adds_size _ _ _ Ha). lia. Qed.

Lemma wrote_out_ok rows s s' n : wrote rows s s' n -> out_ok (outp s').
Proof. intros [_ _ _ _ (bs & Ha & Hl) _]. by eapply adds_ok. Qed.

(** The cursor of the terminal moved, nothing else changed. *)
Lemma set_tc_ok c ln col : screen_ok c -> 0 <= ln < lines c -> 0 <= col < columns c ->
  screen_ok (set_tc ln col c) /\ frame c (set_tc ln col c).
Proof.
  intros Hc Hl Hcol. pose proof (frame_refl c Hc) as Hf. destruct Hc. split; [by constructor|done].
Qed.

Lemma move_wrote s col line : screen_ok (scr s) -> out_ok (outp s) -> osize (outp s) + 16 < OUTPUT_BUFFER_SIZE ->
  at_pos (display (lines (scr s)) (outp s)) (tc_line (scr s)) (tc_col (scr s)) ->
  0 <= line < lines (scr s) -> 0 <= col < columns (scr s) ->
  exists s', move_terminal_cursor true col line s = Done s' /\ wrote (lines (scr s)) s s' 16 /\
    tc_line (scr s') = line /\ tc_col (scr s') = col /\ buf (scr s') = buf (scr s) /\
    forall i j, cells (display (lines (scr s)) (outp s')) i j = cells (display (lines (scr s)) (outp s)) i j.
Proof.
  intros Hok Ho Hs Hat Hl Hc. pose proof Hok as [_ Hlines Hcols _ Htc]. unfold MAX_SCREEN_LINES, SCREEN_LINE_LEN in *.
  destruct (move_cursor_ok (lines (scr s)) col line s) as (o & bs & -> & Ha & Hb & Hp & Hcells); [done|done|done|lia..|].
  eexists. split; [done|]. destruct (set_tc_ok (scr s) line col Hok Hl Hc) as [H1 H2]. split; [|by split_and!].
  constructor; cbn [scr inp outp on_screen set_out]; try done. by exists bs.
Qed.

(** Printable bytes written on a row. *)
Lemma text_wrote rows s bs : out_ok (outp s) -> osize (outp s) + blen bs < OUTPUT_BUFFER_SIZE ->
  at_pos (display rows (outp s)) (tc_line (scr s)) (tc_col (scr s)) -> Forall printable bs ->
  exists o, write_cached true bs s = Done (set_out o s) /\ adds (outp s) o bs /\
    at_pos (display rows o) (tc_line (scr s)) (tc_col (scr s) + blen bs) /\
    forall i j, cells (display rows o) i j =
      if (i =? tc_line (scr s)) && (tc_col (scr s) <=? j) && (j <? tc_col (scr s) + blen bs)
      then default 32 (bs !! Z.to_nat (j - tc_col (scr s))) else cells (display rows (outp s)) i j.
Proof.
  intros Ho Hs Hat Hb. destruct (write_ok bs s Ho Hs) as (o & Hw & Ha). exists o. split; [done|]. split; [done|].
  rewrite (adds_display rows _ _ _ Ha). by apply feed_text.
Qed.

(** Clearing to the end of the row of the cursor. *)
Lemma clear_wrote s : screen_ok (scr s) -> out_ok (outp s) -> osize (outp s) + 3 < OUTPUT_BUFFER_SIZE ->
  at_pos (display (lines (scr s)) (outp s)) (tc_line (scr s)) (tc_col (scr s)) ->
  exists s', write_cached true ANSI_CMD_CE s = Done s' /\ wrote (lines (scr s)) s s' 3 /\ scr s' = scr s /\
    forall i j, cells (display (lines (scr s)) (outp s')) i j =
      if (i =? tc_line (scr s)) && (tc_col (scr s) <=? j) then 32 else cells (display (lines (scr s)) (outp s)) i j.
Proof.
  intros Hok Ho Hs Hat. destruct (write_ok ANSI_CMD_CE s Ho) as (o & -> & Ha); [change (blen ANSI_CMD_CE) with 3; lia|].
  eexists. split; [done|]. destruct (feed_clear_line (lines (scr s)) _ _ _ Hat) as [Hp Hcells].
  cbn [scr set_out outp]. rewrite (adds_display _ _ _ _ Ha). split; [|done].
  constructor; cbn [scr inp outp set_out]; try done; [by apply frame_refl|by exists ANSI_CMD_CE|].
  by rewrite (adds_display _ _ _ _ Ha).
Qed.

Section Flush.
Context (u2g : list Z -> Z -> Z * list Z * iconv_stop) (stack : list Z).

(** Both encodings have the printable characters of ASCII as they are. *)
Context (u2g_ascii : forall l room, Forall printable l -> blen l <= room -> u2g l room = (blen l, l, Converted)).
Context (stack_size : blen stack = 1024).

(** Text of a line is sent with one call of the converter, or without it. *)
Lemma write_line_ok m l u s : Forall printable l -> blen l <= SCREEN_LINE_LEN -> rdn m 0 (blen l) = Done l ->
  buf (scr s) <> None -> out_ok (outp s) -> osize (outp s) + blen l < OUTPUT_BUFFER_SIZE ->
  screen_write_cached true u2g stack m (blen l) u s = write_cached true l s.
Proof.
  intros Hp Hl Hm Hb Ho Hs. assert (forall l, _write_helper true l s = write_cached true l s) as Hh.
  { intros l'. unfold _write_helper. by destruct (buf (scr s)). }
  unfold screen_write_cached. destruct u; [rewrite Hm; apply Hh|].
  unfold convert_with, convert, SCREEN_LINE_LEN in *. rewrite (proj2 (Z.eqb_neq (blen l) CONVERT_ALL)) by (unfold CONVERT_ALL; lia).
  cbn [mbind outcome_bind default from_option id]. unfold id. pose proof (blen_nonneg l). destruct (write_ok l s Ho Hs) as (o & Hw & Ha).
  destruct (Z.eqb_spec (blen l) 0) as [Hz|Hz].
  - assert (l = []) as -> by (destruct l; [done|rewrite blen_cons in *; pose proof (blen_nonneg l); lia]).
    unfold wr. rewrite (proj2 (Z.ltb_lt 0 (blen stack))) by lia. cbn [Z.leb Z.compare andb mbind outcome_bind].
    unfold write_cached, terminal_write_cached. cbn. by destruct s.
  - replace (Z.to_nat (blen l) + 1)%nat with (S (S (Z.to_nat (blen l) - 1))) by lia. cbn [convert_loop].
    rewrite (proj2 (Z.eqb_neq (blen l) 0)) by lia. cbn [handled]. rewrite Hm. cbn [mbind outcome_bind].
    change (1024 - 1) with 1023. rewrite u2g_ascii by (done || lia).
    destruct (write_chunk stack l 1023) as (b & -> & b' & Hb' & _ & Hr); [lia|lia|]. cbn [mbind outcome_bind]. rewrite Hb'.
    cbn [mbind outcome_bind]. rewrite (proj2 (Z.ltb_lt (1023 - blen l) 1023)) by lia. cbn [andb].
    replace (1023 - (1023 - blen l)) with (blen l) by lia. rewrite Hr. cbn [mbind outcome_bind call Z.ltb Z.compare].
    rewrite Z.sub_diag. cbn [Z.eqb mbind outcome_bind]. apply Hh.
Qed.

Lemma frame_buf c c' : screen_ok c -> frame c c' -> buf c' = buf c ->
  forall r, 0 <= r < lines c -> line_of c' r = line_of c r.
Proof.
  intros Hc (H1 & _ & H3 & _) Hb r Hr. unfold line_of, line_index. by rewrite Hb, H1, H3.
Qed.

Lemma line_text columns sl : line_ok columns sl -> rdn (data sl) 0 (len sl) = Done (take (Z.to_nat (len sl)) (data sl)) /\
  blen (take (Z.to_nat (len sl)) (data sl)) = len sl /\
  forall j, 0 <= j < len sl -> default 32 (take (Z.to_nat (len sl)) (data sl) !! Z.to_nat j) = cell_of sl j.
Proof.
  intros (H1 & H2 & _ & _). split_and!.
  - unfold rdn. by rewrite (proj2 (Z.leb_le 0 0)), (proj2 (Z.leb_le 0 (len sl))), (proj2 (Z.leb_le (0 + len sl) _)) by lia.
  - unfold blen in *. rewrite length_take. lia.
  - intros j Hj. unfold cell_of. by rewrite lookup_take_lt by lia.
Qed.

(** The text of a line sent to its row. *)
Lemma send_line s i sl : screen_ok (scr s) -> out_ok (outp s) -> 0 <= i < lines (scr s) -> line_ok (columns (scr s)) sl ->
  osize (outp s) + len sl + 20 < OUTPUT_BUFFER_SIZE ->
  at_pos (display (lines (scr s)) (outp s)) (tc_line (scr s)) (tc_col (scr s)) ->
  exists s1 s2, move_terminal_cursor true 0 i s = Done s1 /\
    screen_write_cached true u2g stack (data sl) (len sl) (utf8 (scr s1)) s1 = Done s2 /\
    tc_line (scr s2) = i /\ tc_col (scr s2) = 0 /\ columns (scr s2) = columns (scr s) /\ lines (scr s2) = lines (scr s) /\
    let s3 := on_screen (set_tc i (len sl)) s2 in
    wrote (lines (scr s)) s s3 (len sl + 16) /\ buf (scr s3) = buf (scr s) /\
    forall r j, 0 <= j -> cells (display (lines (scr s)) (outp s3)) r j =
      if (r =? i) && (j <? len sl) then cell_of sl j else cells (display (lines (scr s)) (outp s)) r j.
Proof.
  intros Hok Ho Hi Hl Hs Hat. pose proof Hl as (Hlen & Hbl & _ & Hpr).
  destruct (move_wrote s 0 i Hok Ho) as (s1 & Hm & Hw & Hl1 & Hc1 & Hb1 & Hcells1);
    [lia|done|done|destruct Hok as [_ _ [? _] _ _]; lia|].
  pose proof (wrote_size _ _ _ _ Hw) as Hsz. pose proof (wrote_out_ok _ _ _ _ Hw) as Ho1.
  pose proof (wrote_ok _ _ _ _ Hw) as Hok1.
  destruct (line_text _ _ Hl) as (Hrd & Hlt & Hcell).
  pose proof (wrote_at _ _ _ _ Hw) as Hat1. rewrite Hl1, Hc1 in Hat1.
  destruct (text_wrote (lines (scr s)) s1 (take (Z.to_nat (len sl)) (data sl))) as (o & Hwr & Ha & Hp & Hcells);
    [done|lia|by rewrite Hl1, Hc1|done|].
  rewrite Hl1, Hc1, Hlt in *.
  pose proof (wrote_frame _ _ _ _ Hw) as (F1 & F2 & F3 & F4 & F5 & F6).
  exists s1, (set_out o s1). split; [done|]. split.
  { pose proof (ok_columns _ Hok). rewrite <- Hlt in Hrd at 1. rewrite <- Hlt at 1.
    rewrite (write_line_ok (data sl) (take (Z.to_nat (len sl)) (data sl))); [exact Hwr|done|lia|done| |done|lia].
    destruct (ok_buf _ Hok1) as (b & -> & _). done. }
  cbn [scr set_out]. do 4 (split; [done|]). cbv zeta. split; [|split; [exact Hb1|]].
  - pose proof (set_tc_ok (scr s1) i (len sl) Hok1) as [G1 G2]; [lia|lia|].
    rewrite Z.add_comm. apply (wrote_trans _ _ s1); [done|]. constructor; try done.
    exists (take (Z.to_nat (len sl)) (data sl)). split; [done|]. lia.
  - intros r j Hj. cbn [outp on_screen set_out]. rewrite Hcells, Hcells1, Z.add_0_l, Z.sub_0_r.
    destruct (Z.eqb_spec r i) as [->|]; cbn [andb]; [|done].
    rewrite (proj2 (Z.leb_le 0 j)) by lia. cbn [andb]. destruct (Z.ltb_spec j (len sl)); [|done]. apply Hcell. lia.
Qed.

(** The line stored after it was sent. *)
Lemma store_line s s2 i sl sl1 n k : screen_ok (scr s) -> 0 <= i < lines (scr s) -> line_of (scr s) i = Some sl ->
  buf (scr s2) = buf (scr s) -> wrote (lines (scr s)) s s2 n -> n <= k -> len sl1 = len sl /\ data sl1 = data sl ->
  let s3 := set_line (line_index (scr s) i) (set_old_len (len sl1) sl1) s2 in
  wrote (lines (scr s)) s s3 k /\ outp s3 = outp s2 /\ settled (scr s3) i /\
  forall r, 0 <= r < lines (scr s) -> r <> i -> line_of (scr s3) r = line_of (scr s) r.
Proof.
  intros Hok Hi Hsl Hb Hw Hnk [Hlen Hdata]. cbv zeta.
  assert (line_ok (columns (scr s)) sl) as (A1 & A2 & A3 & A4).
  { destruct (line_of_some (scr s) i Hok Hi) as (sl' & Hsl' & Hl). rewrite Hsl in Hsl'. by injection Hsl' as ->. }
  pose proof (wrote_frame _ _ _ _ Hw) as F. pose proof F as (Gl & Gc & Gr & _).
  assert (line_index (scr s2) i = line_index (scr s) i) as <- by (unfold line_index; by rewrite Gl, Gr).
  set (sl2 := set_old_len (len sl1) sl1).
  assert (line_ok (columns (scr s2)) sl2) as Hl2.
  { rewrite Gc. unfold line_ok, sl2. cbn [len data old_len set_old_len]. rewrite Hlen, Hdata.
    split; [exact A1|]. split; [exact A2|]. split; [|exact A4]. unfold u16.
    pose proof (ok_columns _ Hok). rewrite Z.mod_small; unfold SCREEN_LINE_LEN in *; lia. }
  destruct (set_line_spec s2 i sl2 (wrote_ok _ _ _ _ Hw) ltac:(lia) Hl2) as [Hok3 Hlines].
  assert (outp (set_line (line_index (scr s2) i) sl2 s2) = outp s2) as Hout by (unfold set_line; by destruct (buf (scr s2))).
  assert (forall A (f : screen_t -> A), (forall b c, f (set_buf b c) = f c) ->
    f (scr (set_line (line_index (scr s2) i) sl2 s2)) = f (scr s2)) as Hkeep.
  { intros A f Hf. unfold set_line. destruct (buf (scr s2)); [apply Hf|done]. }
  split; [|split; [done|split]].
  - destruct Hw as [_ _ Ws Wi (bs & Wa & Wb) Wp]. constructor; rewrite ?Hout; try done.
    + destruct F as (F1 & F2 & F3 & F4 & F5 & F6).
      split_and!; [by rewrite (Hkeep _ lines)|by rewrite (Hkeep _ columns)|by rewrite (Hkeep _ roll)|
        by rewrite (Hkeep _ cur_ln)|by rewrite (Hkeep _ cur_col)|]. intros r Hr. destruct (F6 r Hr) as (x & x' & X1 & X2 & X3 & X4).
      exists x. rewrite Hlines by lia. destruct (Z.eqb_spec r i) as [->|].
      * exists sl2. rewrite Hsl in X1. injection X1 as <-. by split_and!.
      * by exists x'.
    + by rewrite (Hkeep _ scrollcnt).
    + unfold set_line. by destruct (buf (scr s2)).
    + exists bs. split; [done|lia].
    + by rewrite (Hkeep _ tc_line), (Hkeep _ tc_col).
  - exists sl2. rewrite Hlines, Z.eqb_refl by lia. split; [done|]. unfold sl2. cbn [len old_len set_old_len].
    pose proof (ok_columns _ Hok). unfold SCREEN_LINE_LEN in *. unfold u16. rewrite Z.mod_small by lia. lia.
  - intros r Hr Hne. rewrite Hlines, (proj2 (Z.eqb_neq r i)) by lia. by apply frame_buf.
Qed.

(** One line of the loop of [screen_flush]. *)
Lemma flush_line_ok s i sl : screen_ok (scr s) -> out_ok (outp s) -> 0 <= i < lines (scr s) ->
  line_of (scr s) i = Some sl -> osize (outp s) + len sl + 40 < OUTPUT_BUFFER_SIZE ->
  at_pos (display (lines (scr s)) (outp s)) (tc_line (scr s)) (tc_col (scr s)) ->
  row_ok (cells (display (lines (scr s)) (outp s)) i) sl ->
  exists s', flush_line true u2g stack i s = Done s' /\ wrote (lines (scr s)) s s' (len sl + 40) /\
    row_shown (cells (display (lines (scr s)) (outp s')) i) sl /\ settled (scr s') i /\
    forall r, 0 <= r < lines (scr s) -> r <> i -> line_of (scr s') r = line_of (scr s) r /\
      forall j, 0 <= j -> cells (display (lines (scr s)) (outp s')) r j = cells (display (lines (scr s)) (outp s)) r j.
Proof.
  intros Hok Ho Hi Hsl Hs Hat [Hun Hbeyond].
  assert (line_ok (columns (scr s)) sl) as Hlok.
  { destruct (line_of_some (scr s) i Hok Hi) as (sl' & Hsl' & Hl). rewrite Hsl in Hsl'. by injection Hsl' as ->. }
  pose proof Hlok as (Hlen & _ & Hold & _). unfold flush_line. rewrite (line_at_of s i sl Hok Hi Hsl). cbn [mbind outcome_bind].
  set (v := display (lines (scr s)) (outp s)) in *.
  (* the text *)
  match goal with |- context [if modified sl then ?f else _] =>
    assert (exists sl1 s1, (if modified sl then f else Done (sl, s)) = Done (sl1, s1) /\
      sl1 = set_modified false sl /\ wrote (lines (scr s)) s s1 (len sl + 16) /\ buf (scr s1) = buf (scr s) /\
      (forall j, 0 <= j < len sl -> cells (display (lines (scr s)) (outp s1)) i j = cell_of sl j) /\
      forall r j, 0 <= j -> (r <> i \/ len sl <= j) -> cells (display (lines (scr s)) (outp s1)) r j = cells v r j)
      as (sl1 & s1 & -> & -> & Hw1 & Hb1 & Htext & Hsame) end.
  { destruct (modified sl) eqn:Em.
    - destruct (send_line s i sl Hok Ho Hi Hlok) as (s1 & s2 & H1 & H2 & Hl2 & Hc2 & Hcol & Hln & Hw & Hb & Hcells);
        [lia|done|]. rewrite H1. cbn [mbind outcome_bind data len set_modified]. rewrite H2. cbn [mbind outcome_bind].
      eexists _, _. split; [done|]. split; [done|].
      assert (on_screen (fun c => if columns c <=? len sl then
          set_tc (if lines c <=? tc_line c + 1 then lines c - 1 else tc_line c + 1) (len sl - columns c) c
          else set_tc (tc_line c) (len sl) c) s2 = on_screen (set_tc i (len sl)) s2) as ->.
      { unfold on_screen. by rewrite Hcol, (proj2 (Z.leb_gt _ (len sl))), Hl2 by lia. }
      split; [done|]. split; [done|]. split.
      + intros j Hj. rewrite Hcells by lia. rewrite Z.eqb_refl, (proj2 (Z.ltb_lt j _)) by lia. done.
      + intros r j Hj Hr. rewrite Hcells by lia. destruct (Z.eqb_spec r i); cbn [andb]; [|done].
        by rewrite (proj2 (Z.ltb_ge j _)) by lia.
    - exists sl, s. split; [done|]. split; [by destruct sl; cbn in *; subst|]. split; [|split_and!; try done; by auto].
      constructor; try done; [by apply frame_refl|]. exists []. split; [by apply adds_nil|]. change (blen []) with 0. lia. }
  cbn [mbind outcome_bind]. pose proof (wrote_size _ _ _ _ Hw1) as Hsz1. pose proof (wrote_out_ok _ _ _ _ Hw1) as Ho1.
  pose proof (wrote_ok _ _ _ _ Hw1) as Hok1. pose proof (wrote_frame _ _ _ _ Hw1) as F1.
  pose proof F1 as (Fl & Fc & Fr & _). pose proof (wrote_at _ _ _ _ Hw1) as Hat1.
  (* the rest of the row *)
  match goal with |- context [if len (set_modified false sl) <? old_len (set_modified false sl) then ?f else Done s1] =>
    assert (exists s2, (if len (set_modified false sl) <? old_len (set_modified false sl) then f else Done s1) = Done s2 /\
      wrote (lines (scr s)) s1 s2 19 /\ buf (scr s2) = buf (scr s1) /\
      (forall j, 0 <= j < len sl -> cells (display (lines (scr s)) (outp s2)) i j = cell_of sl j) /\
      (forall j, len sl <= j -> cells (display (lines (scr s)) (outp s2)) i j = 32) /\
      forall r j, 0 <= j -> r <> i -> cells (display (lines (scr s)) (outp s2)) r j = cells v r j)
      as (s2 & -> & Hw2 & Hb2 & Htext2 & Hblank2 & Hsame2) end.
  { cbn [len old_len set_modified]. destruct (Z.ltb_spec (len sl) (old_len sl)).
    - rewrite <- Fl in Hat1, Hi. destruct (move_wrote s1 (len sl) i Hok1 Ho1) as (s2 & -> & Hw & Hl2 & Hc2 & Hb2 & Hcells);
        [lia|done|done|lia|]. cbn [mbind outcome_bind].
      pose proof (wrote_frame _ _ _ _ Hw) as (Gl & _). pose proof (wrote_at _ _ _ _ Hw) as Hat2.
      pose proof (wrote_size _ _ _ _ Hw) as Hsz2. rewrite <- Gl in Hat2.
      destruct (clear_wrote s2 (wrote_ok _ _ _ _ Hw) (wrote_out_ok _ _ _ _ Hw)) as (s3 & -> & Hw3 & Hs3 & Hcells3);
        [lia|done|]. rewrite Gl, Fl in *. exists s3. split; [done|]. split; [exact (wrote_trans _ _ _ _ _ _ Hw Hw3)|].
      split; [by rewrite Hs3|]. rewrite Hl2, Hc2 in Hcells3. split_and!.
      + intros j Hj. rewrite Hcells3, Hcells, Z.eqb_refl, (proj2 (Z.leb_gt _ j)) by lia. cbn [andb]. by apply Htext.
      + intros j Hj. by rewrite Hcells3, Z.eqb_refl, (proj2 (Z.leb_le _ j)) by lia.
      + intros r j Hj Hr. rewrite Hcells3, (proj2 (Z.eqb_neq r i)) by done. cbn [andb]. rewrite Hcells. auto.
    - exists s1. split; [done|]. split.
      { constructor; try done; [by apply frame_refl|]. exists []. split; [by apply adds_nil|]. by change (blen []) with 0. }
      split; [done|]. split; [done|]. split; [|by auto]. intros j Hj. rewrite Hsame by lia. apply Hbeyond. lia. }
  cbn [mbind outcome_bind]. eexists. split; [done|].
  pose proof (wrote_trans _ _ _ _ _ _ Hw1 Hw2) as Hw.
  destruct (store_line s s2 i sl (set_modified false sl) (len sl + 16 + 19) (len sl + 40)) as (Hst & Hout & Hset & Hlines);
    [done|done|done|congruence|done|lia|by split|].
  split; [exact Hst|]. rewrite Hout. split; [|split; [exact Hset|]].
  - intros j Hj. destruct (Z.ltb_spec j (len sl)); [apply Htext2; lia|apply Hblank2; lia].
  - intros r Hr Hne. split; [by apply Hlines|]. intros j Hj. by apply Hsame2.
Qed.

(** * The loops over the lines *)

Definition len_of (c : screen_t) (r : Z) : Z := match line_of c r with Some sl => len sl | None => 0 end.

(** Bytes enough to send the lines [rs]. *)
Definition budget (c : screen_t) (rs : list Z) : Z := foldr (fun r n => len_of c r + 40 + n) 0 rs.

Lemma budget_cons c r rs : budget c (r :: rs) = len_of c r + 40 + budget c rs.
Proof. done. Qed.

Lemma frame_len c c' r : frame c c' -> 0 <= r < lines c -> len_of c' r = len_of c r.
Proof.
  intros (_ & _ & _ & _ & _ & F) Hr. destruct (F r Hr) as (sl & sl' & H1 & H2 & H3 & _). unfold len_of. by rewrite H1, H2.
Qed.

Lemma frame_budget c c' rs : frame c c' -> Forall (fun r => 0 <= r < lines c) rs -> budget c' rs = budget c rs.
Proof. intros F. induction 1 as [|r rs Hr _ IH]; [done|]. by rewrite !budget_cons, IH, (frame_len c c'). Qed.

Lemma frame_line c c' r : frame c c' -> 0 <= r < lines c -> exists sl sl', line_of c r = Some sl /\ line_of c' r = Some sl' /\
  len sl' = len sl /\ data sl' = data sl.
Proof. intros (_ & _ & _ & _ & _ & F) Hr. by apply F. Qed.

Lemma row_shown_same f sl sl' : len sl' = len sl -> data sl' = data sl -> row_shown f sl -> row_shown f sl'.
Proof. unfold row_shown, cell_of. by intros -> ->. Qed.

Lemma budget_pos c rs : screen_ok c -> Forall (fun r => 0 <= r < lines c) rs -> 0 <= budget c rs.
Proof.
  intros Hok. induction 1 as [|r rs Hr _ IH]; [done|]. rewrite budget_cons.
  destruct (line_of_some c r Hok Hr) as (sl & Hsl & [? _]). unfold len_of. rewrite Hsl. lia.
Qed.

Lemma rows_in a n m : 0 <= a -> a + n <= m -> Forall (fun r => 0 <= r < m) (seqZ a n).
Proof. intros Ha Hn. apply list.Forall_forall. intros r Hr. apply elem_of_seqZ in Hr. lia. Qed.

(** An operation on one line that makes its row show it when the row is as [Q]
    says. *)
Section Loop.
Context (f : Z -> state -> outcome state) (Q : (Z -> Z) -> screen_line_t -> Prop).
Context (Q_ext : forall g g' sl, (forall j, 0 <= j -> g j = g' j) -> Q g sl -> Q g' sl).
Context (f_ok : forall s i sl, screen_ok (scr s) -> out_ok (outp s) -> 0 <= i < lines (scr s) ->
  line_of (scr s) i = Some sl -> osize (outp s) + len sl + 40 < OUTPUT_BUFFER_SIZE ->
  at_pos (display (lines (scr s)) (outp s)) (tc_line (scr s)) (tc_col (scr s)) ->
  Q (cells (display (lines (scr s)) (outp s)) i) sl ->
  exists s', f i s = Done s' /\ wrote (lines (scr s)) s s' (len sl + 40) /\
    row_shown (cells (display (lines (scr s)) (outp s')) i) sl /\ settled (scr s') i /\
    forall r, 0 <= r < lines (scr s) -> r <> i -> line_of (scr s') r = line_of (scr s) r /\
      forall j, 0 <= j -> cells (display (lines (scr s)) (outp s')) r j = cells (display (lines (scr s)) (outp s)) r j).

Lemma each_line_ok n : forall i s, 0 <= i -> i + Z.of_nat n = lines (scr s) -> screen_ok (scr s) -> out_ok (outp s) ->
  osize (outp s) + budget (scr s) (seqZ i (Z.of_nat n)) < OUTPUT_BUFFER_SIZE ->
  at_pos (display (lines (scr s)) (outp s)) (tc_line (scr s)) (tc_col (scr s)) ->
  (forall r, i <= r < lines (scr s) -> exists sl, line_of (scr s) r = Some sl /\
    Q (cells (display (lines (scr s)) (outp s)) r) sl) ->
  exists s', each_line f (seqZ i (Z.of_nat n)) s = Done s' /\
    wrote (lines (scr s)) s s' (budget (scr s) (seqZ i (Z.of_nat n))) /\
    (forall r, i <= r < lines (scr s) -> exists sl, line_of (scr s) r = Some sl /\
      row_shown (cells (display (lines (scr s)) (outp s')) r) sl /\ settled (scr s') r) /\
    forall r, 0 <= r < i -> line_of (scr s') r = line_of (scr s) r /\ forall j, 0 <= j ->
      cells (display (lines (scr s)) (outp s')) r j = cells (display (lines (scr s)) (outp s)) r j.
Proof.
  induction n as [|n IH]; intros i s Hi Hn Hok Ho Hsize Hat HQ.
  { rewrite seqZ_nil by lia. exists s. split; [done|]. split; [|split; [intros r Hr; lia|done]].
    constructor; try done; [by apply frame_refl|]. exists []. split; [by apply adds_nil|]. change (blen []) with 0. cbn. lia. }
  rewrite seqZ_cons in * by lia. replace (Z.pred (Z.of_nat (S n))) with (Z.of_nat n) in * by lia.
  cbn [each_line]. rewrite budget_cons in *.
  pose proof (rows_in (Z.succ i) (Z.of_nat n) (lines (scr s)) ltac:(lia) ltac:(lia)) as Hall.
  pose proof (budget_pos _ _ Hok Hall) as Hbn.
  destruct (HQ i) as (sl & Hsl & Hq); [lia|].
  assert (len_of (scr s) i = len sl) as Hlen by (unfold len_of; by rewrite Hsl). rewrite Hlen in *.
  destruct (f_ok s i sl) as (s1 & -> & Hw & Hshown & Hset & Hothers); [done|done|lia|done|lia|done|done|].
  cbn [mbind outcome_bind]. pose proof (wrote_frame _ _ _ _ Hw) as F. pose proof F as (Fl & _).
  pose proof (wrote_size _ _ _ _ Hw).
  destruct (IH (Z.succ i) s1) as (s2 & -> & Hw2 & Hshown2 & Hsame2); rewrite ?Fl in *.
  - lia.
  - lia.
  - exact (wrote_ok _ _ _ _ Hw).
  - by eapply wrote_out_ok.
  - rewrite (frame_budget _ _ _ F Hall). lia.
  - exact (wrote_at _ _ _ _ Hw).
  - intros r Hr. destruct (HQ r) as (sl' & Hsl' & Hq'); [lia|]. destruct (Hothers r) as [Hl Hc]; [lia|lia|].
    exists sl'. split; [by rewrite Hl|]. eapply Q_ext; [|exact Hq']. intros j Hj. by rewrite Hc.
  - exists s2. split; [done|]. split; [|split].
    + rewrite (frame_budget _ _ _ F Hall) in Hw2. by apply (wrote_trans _ _ s1).
    + intros r Hr. destruct (decide (r = i)) as [->|Hne].
      * exists sl. split; [done|]. destruct (Hsame2 i) as [Hl2 Hc2]; [lia|]. split.
        -- intros j Hj. rewrite Hc2 by lia. by apply Hshown.
        -- destruct Hset as (x & Hx & ?). exists x. by rewrite Hl2.
      * destruct (Hshown2 r) as (sl' & Hsl' & Hs'); [lia|]. destruct (Hothers r) as [Hl _]; [lia|done|].
        exists sl'. split; [by rewrite <- Hl|done].
    + intros r Hr. destruct (Hsame2 r) as [Hl2 Hc2]; [lia|]. destruct (Hothers r) as [Hl Hc]; [lia|lia|].
      split; [congruence|]. intros j Hj. by rewrite Hc2, Hc.
Qed.
End Loop.

Lemma row_ok_ext g g' sl : (forall j, 0 <= j -> g j = g' j) -> row_ok g sl -> 0 <= old_len sl -> row_ok g' sl.
Proof.
  intros Hg [H1 H2] Hlen. split.
  - intros Hm c Hc. rewrite <- Hg by lia. by apply H1.
  - intros c Hc. rewrite <- Hg by lia. by apply H2.
Qed.

Definition flushable (g : Z -> Z) (sl : screen_line_t) : Prop := row_ok g sl /\ 0 <= old_len sl.

Lemma flush_lines s : screen_ok (scr s) -> out_ok (outp s) ->
  osize (outp s) + budget (scr s) (seqZ 0 (lines (scr s))) < OUTPUT_BUFFER_SIZE ->
  at_pos (display (lines (scr s)) (outp s)) (tc_line (scr s)) (tc_col (scr s)) ->
  (forall r, 0 <= r < lines (scr s) -> exists sl, line_of (scr s) r = Some sl /\
    flushable (cells (display (lines (scr s)) (outp s)) r) sl) ->
  exists s', each_line (flush_line true u2g stack) (seqZ 0 (lines (scr s))) s = Done s' /\
    wrote (lines (scr s)) s s' (budget (scr s) (seqZ 0 (lines (scr s)))) /\
    forall r, 0 <= r < lines (scr s) -> exists sl, line_of (scr s) r = Some sl /\
      row_shown (cells (display (lines (scr s)) (outp s')) r) sl /\ settled (scr s') r.
Proof.
  intros Hok Ho Hsize Hat HQ. pose proof Hok as [_ Hl _ _ _].
  destruct (each_line_ok (flush_line true u2g stack) flushable) with (n := Z.to_nat (lines (scr s))) (i := 0) (s := s)
    as (s' & Hs' & Hw & Hshown & _); try rewrite Z2Nat.id in * by lia; try done.
  - intros g g' sl Hg [H1 H2]. split; [|done]. by eapply row_ok_ext.
  - intros s0 i sl H1 H2 H3 H4 H5 H6 [H7 _]. by apply flush_line_ok.
  - by exists s'.
Qed.

(** * Redrawing *)

Definition blank_row (g : Z -> Z) (sl : screen_line_t) : Prop := forall j, 0 <= j -> g j = 32.

Lemma redraw_line_ok s i sl : screen_ok (scr s) -> out_ok (outp s) -> 0 <= i < lines (scr s) ->
  line_of (scr s) i = Some sl -> osize (outp s) + len sl + 40 < OUTPUT_BUFFER_SIZE ->
  at_pos (display (lines (scr s)) (outp s)) (tc_line (scr s)) (tc_col (scr s)) ->
  blank_row (cells (display (lines (scr s)) (outp s)) i) sl ->
  exists s', redraw_line true u2g stack i s = Done s' /\ wrote (lines (scr s)) s s' (len sl + 40) /\
    row_shown (cells (display (lines (scr s)) (outp s')) i) sl /\ settled (scr s') i /\
    forall r, 0 <= r < lines (scr s) -> r <> i -> line_of (scr s') r = line_of (scr s) r /\
      forall j, 0 <= j -> cells (display (lines (scr s)) (outp s')) r j = cells (display (lines (scr s)) (outp s)) r j.
Proof.
  intros Hok Ho Hi Hsl Hs Hat Hblank.
  assert (line_ok (columns (scr s)) sl) as Hlok.
  { destruct (line_of_some (scr s) i Hok Hi) as (sl' & Hsl' & Hl). rewrite Hsl in Hsl'. by injection Hsl' as ->. }
  pose proof Hlok as (Hlen & _). unfold redraw_line. rewrite (line_at_of s i sl Hok Hi Hsl). cbn [mbind outcome_bind].
  destruct (Z.eqb_spec (len sl) 0) as [Hz|Hz].
  - exists s. split; [done|]. split; [|split; [|split; [|done]]].
    + constructor; try done; [by apply frame_refl|]. exists []. split; [by apply adds_nil|]. change (blen []) with 0. lia.
    + intros c Hc. rewrite Hblank by done. by rewrite (proj2 (Z.ltb_ge c _)) by lia.
    + exists sl. split; [done|]. destruct Hlok as (_ & _ & ? & _). lia.
  - destruct (send_line s i sl Hok Ho Hi Hlok) as (s1 & s2 & H1 & H2 & Hl2 & Hc2 & Hcol & Hln & Hw & Hb & Hcells);
      [lia|done|]. rewrite H1. cbn [mbind outcome_bind]. rewrite H2. cbn [mbind outcome_bind].
    rewrite Hc2, Hcol, Hl2, Z.add_0_l, (proj2 (Z.leb_gt _ (len sl))) by lia.
    eexists. split; [done|].
    destruct (store_line s (on_screen (set_tc i (len sl)) s2) i sl (set_modified false sl) (len sl + 16) (len sl + 40))
      as (Hst & Hout & Hset & Hlines); [done|done|done|done|done|lia|by split|].
    split; [exact Hst|]. cbn [len set_modified] in Hout, Hset. rewrite Hout. split; [|split; [exact Hset|]].
    + intros c Hc. rewrite Hcells, Z.eqb_refl by done. cbn [andb]. destruct (c <? len sl); [done|by apply Hblank].
    + intros r Hr Hne. split; [by apply Hlines|]. intros j Hj. by rewrite Hcells, (proj2 (Z.eqb_neq r i)) by done.
Qed.

Lemma redraw_lines s : screen_ok (scr s) -> out_ok (outp s) ->
  osize (outp s) + budget (scr s) (seqZ 0 (lines (scr s))) < OUTPUT_BUFFER_SIZE ->
  at_pos (display (lines (scr s)) (outp s)) (tc_line (scr s)) (tc_col (scr s)) ->
  (forall r j, 0 <= r < lines (scr s) -> 0 <= j -> cells (display (lines (scr s)) (outp s)) r j = 32) ->
  exists s', each_line (redraw_line true u2g stack) (seqZ 0 (lines (scr s))) s = Done s' /\
    wrote (lines (scr s)) s s' (budget (scr s) (seqZ 0 (lines (scr s)))) /\
    forall r, 0 <= r < lines (scr s) -> exists sl, line_of (scr s) r = Some sl /\
      row_shown (cells (display (lines (scr s)) (outp s')) r) sl /\ settled (scr s') r.
Proof.
  intros Hok Ho Hsize Hat HQ. pose proof Hok as [_ Hl _ _ _].
  destruct (each_line_ok (redraw_line true u2g stack) blank_row) with (n := Z.to_nat (lines (scr s))) (i := 0) (s := s)
    as (s' & Hs' & Hw & Hshown & _); try rewrite Z2Nat.id in * by lia; try done.
  - intros g g' sl Hg Hb j Hj. by rewrite <- Hg, Hb.
  - apply redraw_line_ok.
  - intros r Hr. destruct (line_of_some (scr s) r Hok Hr) as (sl & Hsl & _). exists sl. split; [done|].
    intros j Hj. by apply HQ.
  - by exists s'.
Qed.

(** * A whole flush *)

(** All lines are shown. *)
Definition shown (s s' : state) : Prop :=
  forall r, 0 <= r < lines (scr s) -> exists sl, line_of (scr s) r = Some sl /\
    row_shown (cells (display (lines (scr s)) (outp s')) r) sl /\ settled (scr s') r.

(** The screen differs from the terminal by what a flush repairs: the cursor of
    the terminal is known, and every row is [row_ok], unless the screen is to be
    redrawn, once the scrolling that is
    pending has moved it. *)
Definition flush_ready (s : state) : Prop :=
  let v := display (lines (scr s)) (outp s) in
  at_pos v (tc_line (scr s)) (tc_col (scr s)) /\
  (redraw (scr s) = true \/ forall r, 0 <= r < lines (scr s) -> exists sl, line_of (scr s) r = Some sl /\
    row_ok (shift_rows (lines (scr s)) (scrollcnt (scr s)) (cells v) r) sl).

Lemma shift_rows_0 rows f r c : 0 <= r < rows -> shift_rows rows 0 f r c = f r c.
Proof. intros Hr. unfold shift_rows. rewrite Z.add_0_r. by rewrite (proj2 (Z.leb_le 0 r)), (proj2 (Z.ltb_lt r rows)) by lia. Qed.

Lemma shown_ready s s' : screen_ok (scr s') -> frame (scr s) (scr s') -> scrollcnt (scr s') = 0 ->
  at_pos (display (lines (scr s)) (outp s')) (tc_line (scr s')) (tc_col (scr s')) -> shown s s' -> flush_ready s'.
Proof.
  intros Hok F Hsc Hat Hsh. pose proof F as (Fl & _). unfold flush_ready. rewrite Fl, Hsc. split; [done|]. right.
  intros r Hr. destruct (frame_line _ _ r F Hr) as (sl & sl' & H1 & H2 & H3 & H4). exists sl'. split; [done|].
  destruct (Hsh r Hr) as (sl0 & H0 & Hrow & (sl1 & Hsl1 & Hold)). rewrite H2 in Hsl1. injection Hsl1 as <-. rewrite H1 in H0. injection H0 as <-.
  apply (row_shown_same _ _ sl') in Hrow; [|done|done]. rewrite <- Fl in Hr.
  destruct (line_of_some _ r Hok Hr) as (x & Hx & [Hxl _]). rewrite H2 in Hx. injection Hx as <-. rewrite Fl in Hr. split.
  - intros _ c Hc. rewrite shift_rows_0, Hrow, (proj2 (Z.ltb_lt c _)) by lia. done.
  - intros c Hc. rewrite shift_rows_0, Hrow, (proj2 (Z.ltb_ge c _)) by lia. done.
Qed.

(** The cursor placed and the buffer sent. *)
Lemma finish s g : screen_ok (scr s) -> out_ok (outp s) -> osize (outp s) + 16 < OUTPUT_BUFFER_SIZE ->
  at_pos (display (lines (scr s)) (outp s)) (tc_line (scr s)) (tc_col (scr s)) ->
  0 <= cur_ln (scr s) -> 0 <= cur_col (scr s) ->
  (forall c, buf (g c) = buf c /\ lines (g c) = lines c /\ columns (g c) = columns c /\ roll (g c) = roll c /\
    cur_ln (g c) = cur_ln c /\ cur_col (g c) = cur_col c /\ tc_line (g c) = tc_line c /\ tc_col (g c) = tc_col c) ->
  exists s', (s ← move_terminal_cursor true (cur_col (scr s)) (cur_ln (scr s)) s; flush true (on_screen g s)) = Done s' /\
    screen_ok (scr s') /\ frame (scr s) (scr s') /\ (forall r, line_of (scr s') r = line_of (scr s) r) /\ env s' = env s /\
    scrollcnt (scr s') = scrollcnt (g (set_tc (tc_line (scr s')) (tc_col (scr s')) (scr s))) /\
    osize (outp s') = 0 /\ out_ok (outp s') /\
    at_pos (display (lines (scr s)) (outp s')) (tc_line (scr s')) (tc_col (scr s')) /\
    (cur_ln (scr s) < lines (scr s) -> cur_col (scr s) < columns (scr s) ->
     tc_line (scr s') = cur_ln (scr s) /\ tc_col (scr s') = cur_col (scr s)) /\
    forall r j, cells (display (lines (scr s)) (outp s')) r j = cells (display (lines (scr s)) (outp s)) r j.
Proof.
  intros Hok Ho Hs Hat Hln Hcol Hg. pose proof Hok as [_ Hl Hc _ _]. unfold MAX_SCREEN_LINES, SCREEN_LINE_LEN in *.
  assert (exists s1 ln col, move_terminal_cursor true (cur_col (scr s)) (cur_ln (scr s)) s = Done s1 /\
    scr s1 = set_tc ln col (scr s) /\ env s1 = env s /\ out_ok (outp s1) /\ 0 <= ln < lines (scr s) /\ 0 <= col < columns (scr s) /\
    at_pos (display (lines (scr s)) (outp s1)) ln col /\
    (cur_ln (scr s) < lines (scr s) -> cur_col (scr s) < columns (scr s) -> ln = cur_ln (scr s) /\ col = cur_col (scr s)) /\
    forall r j, cells (display (lines (scr s)) (outp s1)) r j = cells (display (lines (scr s)) (outp s)) r j)
    as (s1 & ln & col & -> & Hscr & Hinp & Ho1 & Hln1 & Hcol1 & Hat1 & Hcur & Hcells).
  { destruct (Z.leb_spec (lines (scr s)) (cur_ln (scr s))); [|destruct (Z.leb_spec (columns (scr s)) (cur_col (scr s)))].
    1, 2: exists s, (tc_line (scr s)), (tc_col (scr s)); unfold move_terminal_cursor; pose proof (ok_tc _ Hok).
    - rewrite (proj2 (Z.leb_le _ (cur_ln (scr s)))) by lia. cbn [orb]. split_and!; try done; try lia; [by destruct (scr s)|by destruct Hat as (?&?&?)..].
    - rewrite (proj2 (Z.leb_le _ (cur_col (scr s)))), orb_true_r by lia.
      split_and!; try done; try lia; [by destruct (scr s)|by destruct Hat as (?&?&?)..].
    - destruct (move_cursor_ok (lines (scr s)) (cur_col (scr s)) (cur_ln (scr s)) s) as (o & bs & -> & Ha & _ & Hp & Hce);
        [done|done|done|pose proof (ok_tc _ Hok); lia..|].
      exists (on_screen (set_tc (cur_ln (scr s)) (cur_col (scr s))) (set_out o s)), (cur_ln (scr s)), (cur_col (scr s)).
      cbn [scr inp outp on_screen set_out]. split; [done|]. split; [done|]. split; [done|]. split; [by eapply adds_ok|].
      split; [lia|]. split; [lia|]. split; [done|]. split; [done|done]. }
  cbn [mbind outcome_bind]. unfold flush. cbn [outp on_screen]. destruct (flush_ok _ Ho1) as [n ->]. cbn [mbind outcome_bind].
  eexists. split; [done|].
  destruct (set_tc_ok (scr s) ln col Hok Hln1 Hcol1) as [Hok1 F1]. cbn [scr inp outp on_screen set_out osize]. rewrite Hscr.
  destruct (Hg (set_tc ln col (scr s))) as (G1 & G2 & G3 & G4 & G5 & G6 & G7 & G8).
  assert (written (Output (optr (outp s1)) 0 (written (outp s1))) = written (outp s1)) as Hwr.
  { unfold written at 1. cbn [sent osize optr]. change (Z.to_nat 0) with 0%nat. by rewrite take_0, app_nil_r. }
  assert (display (lines (scr s)) (Output (optr (outp s1)) 0 (written (outp s1))) = display (lines (scr s)) (outp s1)) as Hd
    by (unfold display; by rewrite Hwr).
  split; [|split; [|split; [|split; [|split; [|split; [|split; [|split; [|split]]]]]]]].
  - destruct Hok1 as [B1 B2 B3 B4 B5]. constructor; rewrite ?G1, ?G2, ?G3, ?G4, ?G7, ?G8; done.
  - destruct F1 as (A1 & A2 & A3 & A4 & A5 & A6). split_and!; try congruence. intros r Hr.
    destruct (A6 r Hr) as (sl & sl' & ? & K & ? & ?). exists sl, sl'. split_and!; try done.
    unfold line_of, line_index in *. by rewrite G1, G2, G4.
  - intros r. unfold line_of, line_index. by rewrite G1, G2, G4.
  - done.
  - by rewrite G7, G8.
  - done.
  - destruct Ho1 as [Hlen Hrange]. split; [exact Hlen|]. cbn. unfold OUTPUT_BUFFER_SIZE. lia.
  - by rewrite Hd, G7, G8.
  - by rewrite G7, G8.
  - intros r j. by rewrite Hd.
Qed.

(** What a flush achieves. *)
Definition flushed (s s' : state) : Prop :=
  screen_ok (scr s') /\ frame (scr s) (scr s') /\ env s' = env s /\ osize (outp s') = 0 /\ out_ok (outp s') /\
  shown s s' /\ flush_ready s' /\ scrollcnt (scr s') = 0 /\
  (cur_ln (scr s) < lines (scr s) -> cur_col (scr s) < columns (scr s) ->
   at_pos (display (lines (scr s)) (outp s')) (cur_ln (scr s)) (cur_col (scr s))).

Lemma finish_flushed s s1 g : frame (scr s) (scr s1) -> env s1 = env s -> screen_ok (scr s1) -> out_ok (outp s1) ->
  osize (outp s1) + 16 < OUTPUT_BUFFER_SIZE ->
  at_pos (display (lines (scr s)) (outp s1)) (tc_line (scr s1)) (tc_col (scr s1)) ->
  0 <= cur_ln (scr s) -> 0 <= cur_col (scr s) -> shown s s1 ->
  (forall c, buf (g c) = buf c /\ lines (g c) = lines c /\ columns (g c) = columns c /\ roll (g c) = roll c /\
    cur_ln (g c) = cur_ln c /\ cur_col (g c) = cur_col c /\ tc_line (g c) = tc_line c /\ tc_col (g c) = tc_col c) -> (forall l k, scrollcnt (g (set_tc l k (scr s1))) = 0) ->
  exists s', (s ← move_terminal_cursor true (cur_col (scr s1)) (cur_ln (scr s1)) s1; flush true (on_screen g s)) = Done s' /\
    flushed s s'.
Proof.
  intros F Hinp Hok Ho Hs Hat Hln Hcol Hsh Hg Hsc. pose proof F as (Fl & Fc & _ & Fln & Fcol & _).
  destruct (finish s1 g) as (s' & -> & K1 & K2 & K0 & K3 & K4 & K5 & K6 & K7 & K8 & K9); rewrite ?Fl; try done; try lia.
  rewrite Fl, ?Fln, ?Fcol, ?Fc in *. exists s'. split; [done|].
  assert (shown s s') as Hsh'.
  { intros r Hr. destruct (Hsh r Hr) as (sl & Hsl & Hrow & Hset). exists sl. split; [done|]. split.
    - intros c Hc. rewrite K9. by apply Hrow.
    - destruct Hset as (x & ? & ?). exists x. by rewrite K0. }
  assert (frame (scr s) (scr s')) as F' by (by eapply frame_trans).
  split; [done|]. split; [done|]. split; [congruence|]. split; [done|]. split; [done|]. split; [done|].
  assert (scrollcnt (scr s') = 0) as Hsc' by (by rewrite K4, Hsc). split; [by apply (shown_ready s)|]. split; [done|].
  - intros H1 H2. destruct (K8 H1 H2) as [<- <-]. done.
Qed.

Lemma redraw_ok s : screen_ok (scr s) -> out_ok (outp s) -> vmod (display (lines (scr s)) (outp s)) = Ground ->
  osize (outp s) + budget (scr s) (seqZ 0 (lines (scr s))) + 32 < OUTPUT_BUFFER_SIZE ->
  0 <= cur_ln (scr s) -> 0 <= cur_col (scr s) ->
  exists s', screen_redraw true u2g stack s = Done s' /\ flushed s s'.
Proof.
  intros Hok Ho Hm Hs Hln Hcol. pose proof Hok as [(b & Hb & _) Hl Hc _ _]. unfold screen_redraw. rewrite Hb.
  pose proof (rows_in 0 (lines (scr s)) (lines (scr s)) ltac:(lia) ltac:(lia)) as Hall.
  pose proof (budget_pos _ _ Hok Hall) as Hpos.
  destruct (write_ok ANSI_CMD_CL s Ho) as (o & -> & Ha); [change (blen ANSI_CMD_CL) with 6; lia|]. cbn [mbind outcome_bind].
  pose proof (adds_size _ _ _ Ha) as Hsz. change (blen ANSI_CMD_CL) with 6 in Hsz.
  destruct (feed_clear_screen (lines (scr s)) _ Hm) as [Hp Hblank]. rewrite <- (adds_display _ _ _ _ Ha) in Hp, Hblank.
  destruct (set_tc_ok (scr s) 0 0 Hok) as [Hok1 F1]; [lia|lia|].
  set (s1 := on_screen (set_tc 0 0) (set_out o s)).
  destruct (redraw_lines s1) as (s2 & Hr & Hw & Hsh); [done|by eapply adds_ok| |exact Hp|intros r j [? ?] ?; apply Hblank; lia|].
  { rewrite (frame_budget (scr s) (scr s1)) by done. cbn [outp on_screen set_out s1]. change (lines (scr s1)) with (lines (scr s)). lia. }
  change (scr s1) with (set_tc 0 0 (scr s)) in *. rewrite Hr. cbn [mbind outcome_bind].
  change (lines (set_tc 0 0 (scr s))) with (lines (scr s)) in *. pose proof (wrote_size _ _ _ _ Hw) as Hsz2.
  rewrite (frame_budget (scr s)) in Hsz2 by done. cbn [outp on_screen set_out s1] in Hsz2.
  apply (finish_flushed s s2).
  - eapply frame_trans; [exact F1|exact (wrote_frame _ _ _ _ Hw)].
  - exact (wrote_env _ _ _ _ Hw).
  - exact (wrote_ok _ _ _ _ Hw).
  - by eapply wrote_out_ok.
  - lia.
  - exact (wrote_at _ _ _ _ Hw).
  - done.
  - done.
  - intros r Hr0. destruct (Hsh r Hr0) as (sl & Hsl & Hrow). by exists sl.
  - by intros c.
  - done.
Qed.

(** The pending scrolling, in either direction. *)
Lemma shift_shift rows k k' f r c : 0 <= k * k' -> 0 <= r < rows ->
  shift_rows rows k (shift_rows rows k' f) r c = shift_rows rows (k + k') f r c.
Proof.
  intros Hk Hr. unfold shift_rows.
  replace (r + (k + k')) with (r + k + k') by lia.
  destruct ((0 <=? r + k) && (r + k <? rows)) eqn:E1; [done|].
  destruct ((0 <=? r + k + k') && (r + k + k' <? rows)) eqn:E2; [|done]. zprop E1. zprop E2. exfalso. nia.
Qed.

Lemma repeat_scroll (f : state -> outcome state) (d : Z) (len row col : Z) rows :
  0 <= len <= 2 -> (forall s, out_ok (outp s) -> osize (outp s) + len < OUTPUT_BUFFER_SIZE ->
    at_pos (display rows (outp s)) row col ->
    exists o bs, f s = Done (set_out o s) /\ adds (outp s) o bs /\ blen bs = len /\ at_pos (display rows o) row col /\
      forall r c, cells (display rows o) r c = shift_rows rows d (cells (display rows (outp s))) r c) ->
  forall n s, out_ok (outp s) -> osize (outp s) + Z.of_nat n * len < OUTPUT_BUFFER_SIZE ->
    at_pos (display rows (outp s)) row col ->
    exists o bs, repeat_op n f s = Done (set_out o s) /\ adds (outp s) o bs /\ blen bs = Z.of_nat n * len /\
      at_pos (display rows o) row col /\
      forall r c, 0 <= r < rows -> cells (display rows o) r c = shift_rows rows (Z.of_nat n * d) (cells (display rows (outp s))) r c.
Proof.
  intros Hlen Hf. induction n as [|n IH]; intros s Ho Hs Hat.
  - exists (outp s), []. split; [by destruct s|]. split; [by apply adds_nil|]. split; [done|]. split; [done|].
    intros r c Hr. by rewrite shift_rows_0.
  - destruct (Hf s Ho) as (o & bs & Hfs & Ha & Hb & Hp & Hcells); [nia|done|]. cbn [repeat_op]. rewrite Hfs. cbn [mbind outcome_bind].
    pose proof (adds_size _ _ _ Ha). destruct (IH (set_out o s)) as (o2 & bs2 & -> & Ha2 & Hb2 & Hp2 & Hcells2);
      [by eapply adds_ok|cbn [outp set_out]; nia|done|].
    exists o2, (bs ++ bs2). split; [done|]. split; [by eapply adds_trans|]. split; [rewrite blen_app; lia|]. split; [done|].
    intros r c Hr. rewrite Hcells2 by done. cbn [outp set_out].
    assert (shift_rows rows (Z.of_nat n * d) (cells (display rows o)) r c =
      shift_rows rows (Z.of_nat n * d) (shift_rows rows d (cells (display rows (outp s)))) r c) as ->.
    { unfold shift_rows at 1 2. destruct (_ && _); [apply Hcells|done]. }
    rewrite shift_shift by (done || nia). f_equal. lia.
Qed.

(** The pending scrolling is done: the rows moved by [k] and the lines did not change. *)
Record scrolled (k : Z) (s s' : state) : Prop := {
  sc_frame : frame (scr s) (scr s');
  sc_ok : screen_ok (scr s');
  sc_env : env s' = env s;
  sc_out : out_ok (outp s');
  sc_size : osize (outp s') <= osize (outp s) + 2 * Z.abs k + 16;
  sc_at : at_pos (display (lines (scr s)) (outp s')) (tc_line (scr s')) (tc_col (scr s'));
  sc_cnt : scrollcnt (scr s') = 0;
  sc_buf : buf (scr s') = buf (scr s);
  sc_cells : forall r c, 0 <= r < lines (scr s) ->
    cells (display (lines (scr s)) (outp s')) r c =
    shift_rows (lines (scr s)) k (cells (display (lines (scr s)) (outp s))) r c;
}.

Lemma line_feed_step s rows : out_ok (outp s) -> osize (outp s) + 1 < OUTPUT_BUFFER_SIZE ->
  at_pos (display rows (outp s)) (rows - 1) 0 ->
  exists o bs, putchar true 10 s = Done (set_out o s) /\ adds (outp s) o bs /\ blen bs = 1 /\ at_pos (display rows o) (rows - 1) 0 /\
    forall r c, cells (display rows o) r c = shift_rows rows 1 (cells (display rows (outp s))) r c.
Proof.
  intros Ho Hs (Hm & Hr & Hc). destruct (putchar_ok 10 s Ho Hs) as (o & -> & Ha). exists o, [10].
  rewrite u8_id in Ha by (width; lia). split; [done|]. split; [done|]. split; [done|].
  rewrite (adds_display rows _ _ _ Ha). cbn [foldl]. unfold feed. rewrite Hm. unfold put_text. cbn [Z.eqb].
  rewrite Hr, Z.ltb_irrefl. done.
Qed.

Lemma reverse_index_step s rows : out_ok (outp s) -> osize (outp s) + 2 < OUTPUT_BUFFER_SIZE ->
  at_pos (display rows (outp s)) 0 0 ->
  exists o bs, write_cached true ANSI_CMD_SR s = Done (set_out o s) /\ adds (outp s) o bs /\ blen bs = 2 /\
    at_pos (display rows o) 0 0 /\
    forall r c, cells (display rows o) r c = shift_rows rows (-1) (cells (display rows (outp s))) r c.
Proof.
  intros Ho Hs (Hm & Hr & Hc). destruct (write_ok ANSI_CMD_SR s Ho Hs) as (o & -> & Ha). exists o, ANSI_CMD_SR.
  split; [done|]. split; [done|]. split; [done|]. rewrite (adds_display rows _ _ _ Ha).
  destruct (display rows (outp s)) as [f r c m]. cbn in Hm, Hr, Hc. by subst.
Qed.

Lemma scroll_by f d len line k s : screen_ok (scr s) -> out_ok (outp s) ->
  osize (outp s) + 2 * Z.abs k + 32 < OUTPUT_BUFFER_SIZE ->
  at_pos (display (lines (scr s)) (outp s)) (tc_line (scr s)) (tc_col (scr s)) ->
  0 <= line < lines (scr s) -> 0 <= len <= 2 -> k = Z.abs k * d ->
  (forall s0, out_ok (outp s0) -> osize (outp s0) + len < OUTPUT_BUFFER_SIZE ->
    at_pos (display (lines (scr s)) (outp s0)) line 0 ->
    exists o bs, f s0 = Done (set_out o s0) /\ adds (outp s0) o bs /\ blen bs = len /\
      at_pos (display (lines (scr s)) o) line 0 /\
      forall r c, cells (display (lines (scr s)) o) r c =
        shift_rows (lines (scr s)) d (cells (display (lines (scr s)) (outp s0))) r c) ->
  exists s', (s ← move_terminal_cursor true 0 line s; s ← repeat_op (Z.to_nat (Z.abs k)) f s;
    Done (on_screen (set_scrollcnt 0) s)) = Done s' /\ scrolled k s s'.
Proof.
  intros Hok Ho Hs Hat Hl Hlen Hk Hf. destruct (move_wrote s 0 line Hok Ho) as (s1 & -> & Hw & Hln & Hcol & Hbuf & Hcells);
    [lia|done|done|pose proof (ok_columns _ Hok); lia|]. cbn [mbind outcome_bind].
  pose proof (wrote_size _ _ _ _ Hw) as Hsz. pose proof (wrote_at _ _ _ _ Hw) as Hat1. rewrite Hln, Hcol in Hat1.
  destruct (repeat_scroll f d len line 0 (lines (scr s)) Hlen Hf (Z.to_nat (Z.abs k)) s1) as (o & bs & -> & Ha & Hb & Hp & Hc);
    [by eapply wrote_out_ok|rewrite Z2Nat.id by lia; nia|done|]. rewrite Z2Nat.id in * by lia. rewrite <- Hk in Hc.
  cbn [mbind outcome_bind]. eexists. split; [done|]. destruct (wrote_ok _ _ _ _ Hw).
  constructor; cbn [scr inp outp on_screen set_out].
  - exact (wrote_frame _ _ _ _ Hw).
  - by constructor.
  - exact (wrote_env _ _ _ _ Hw).
  - by eapply adds_ok.
  - rewrite (adds_size _ _ _ Ha), Hb. nia.
  - change (at_pos (display (lines (scr s)) o) (tc_line (scr s1)) (tc_col (scr s1))). by rewrite Hln, Hcol.
  - done.
  - exact Hbuf.
  - intros r c Hr. rewrite Hc by done. unfold shift_rows. destruct (_ && _); [apply Hcells|done].
Qed.

Lemma bind_done {A B C} (x : outcome A) (f : A -> outcome B) (g : B -> outcome C) y :
  (a ← x; f a) = Done y -> (a ← x; b ← f a; g b) = g y.
Proof. destruct x; cbn; try done. by intros ->. Qed.

Lemma scroll_pending s : screen_ok (scr s) -> out_ok (outp s) ->
  osize (outp s) + 2 * Z.abs (scrollcnt (scr s)) + 32 < OUTPUT_BUFFER_SIZE ->
  at_pos (display (lines (scr s)) (outp s)) (tc_line (scr s)) (tc_col (scr s)) ->
  exists s1,
    (s0 ← (if scrollcnt (scr s) <? 0 then
             s2 ← move_terminal_cursor true 0 0 s;
             s3 ← repeat_op (Z.to_nat (- scrollcnt (scr s))) (write_cached true ANSI_CMD_SR) s2;
             Done (on_screen (set_scrollcnt 0) s3)
           else Done s);
     if 0 <? scrollcnt (scr s0) then
       s1 ← move_terminal_cursor true 0 (lines (scr s0) - 1) s0;
       s1 ← repeat_op (Z.to_nat (scrollcnt (scr s))) (putchar true 10) s1;
       Done (on_screen (set_scrollcnt 0) s1)
     else Done s0) = Done s1 /\ scrolled (scrollcnt (scr s)) s s1.
Proof.
  intros Hok Ho Hs Hat. pose proof (ok_lines _ Hok) as Hl.
  destruct (Z.ltb_spec (scrollcnt (scr s)) 0) as [Hneg|Hneg].
  - destruct (scroll_by (write_cached true ANSI_CMD_SR) (-1) 2 0 (scrollcnt (scr s)) s) as (s1 & Hs1 & Hsc); try done; try lia.
    { intros s0 H1 H2 H3. by apply reverse_index_step. }
    rewrite Z.abs_neq in Hs1 by lia. exists s1. rewrite Hs1. cbn [mbind outcome_bind]. by rewrite (sc_cnt _ _ _ Hsc).
  - cbn [mbind outcome_bind]. destruct (Z.ltb_spec 0 (scrollcnt (scr s))) as [Hpos|Hpos].
    + destruct (scroll_by (putchar true 10) 1 1 (lines (scr s) - 1) (scrollcnt (scr s)) s) as (s1 & Hs1 & Hsc); try done; try lia.
      { intros s0 H1 H2 H3. by apply line_feed_step. }
      rewrite Z.abs_eq in Hs1 by lia. exists s1. by rewrite Hs1.
    + assert (scrollcnt (scr s) = 0) as Hz by lia. exists s. split; [done|]. rewrite Hz in *.
      constructor; try done; [by apply frame_refl|lia|]. intros r c Hr. by rewrite shift_rows_0.
Qed.

Lemma screen_flush_ok s : screen_ok (scr s) -> out_ok (outp s) -> flush_ready s ->
  terminal_input_buffer_empty (inp s) = Done true ->
  osize (outp s) + budget (scr s) (seqZ 0 (lines (scr s))) + 2 * lines (scr s) + 64 < OUTPUT_BUFFER_SIZE ->
  0 <= cur_ln (scr s) -> 0 <= cur_col (scr s) ->
  exists s', screen_flush true u2g stack s = Done s' /\ flushed s s'.
Proof.
  intros Hok Ho (Hat & Hrows) Hin Hs Hln Hcol. pose proof Hok as [(b & Hb & _) Hl _ _ _].
  unfold screen_flush. rewrite Hb, Hin. cbn [mbind outcome_bind negb].
  destruct (redraw (scr s) || (lines (scr s) - 3 <=? Z.abs (scrollcnt (scr s)))) eqn:E.
  { apply redraw_ok; try done; [apply Hat|lia]. }
  zprop E. destruct E as [Er E]. destruct Hrows as [Hrows|Hrows]; [congruence|].
  pose proof (rows_in 0 (lines (scr s)) (lines (scr s)) ltac:(lia) ltac:(lia)) as Hall.
  pose proof (budget_pos _ _ Hok Hall).
  destruct (scroll_pending s Hok Ho) as (s1 & Hs1 & Hsc); [lia|done|].
  rewrite (bind_done _ _ _ _ Hs1). destruct Hsc as [F Hok1 Hinp1 Ho1 Hsz1 Hat1 Hcnt1 Hbuf1 Hcells1]. pose proof F as (Fl & _ & Fr & _).
  assert (forall r, line_of (scr s1) r = line_of (scr s) r) as Hline by (intros r; unfold line_of, line_index; by rewrite Hbuf1, Fl, Fr).
  pose proof (frame_budget (scr s) (scr s1) _ F Hall) as Hbudget.
  destruct (flush_lines s1) as (s2 & Hfl & Hw & Hsh); rewrite ?Fl, ?Hbudget; try done; [lia|..].
  { intros r Hr. destruct (Hrows r Hr) as (sl & Hsl & Hrow). exists sl. rewrite Hline. split; [done|].
    destruct (line_of_some (scr s) r Hok Hr) as (x & Hx & (_ & _ & ? & _)). rewrite Hsl in Hx. injection Hx as <-. split; [|lia].
    apply (row_ok_ext _ _ _ (fun j _ => eq_sym (Hcells1 r j Hr)) Hrow). lia. }
  rewrite Fl in Hfl. rewrite Hfl. cbn [mbind outcome_bind]. rewrite Fl, Hbudget in *. pose proof (wrote_size _ _ _ _ Hw) as Hsz2.
  assert (frame (scr s) (scr s2)) as F2 by (eapply frame_trans; [exact F|exact (wrote_frame _ _ _ _ Hw)]).
  destruct (finish_flushed s s2 (fun c => c)) as (s' & Hs' & Hfin); try done.
  - by rewrite (wrote_env _ _ _ _ Hw).
  - exact (wrote_ok _ _ _ _ Hw).
  - by eapply wrote_out_ok.
  - lia.
  - exact (wrote_at _ _ _ _ Hw).
  - intros r Hr. rewrite <- Hline. by apply Hsh.
  - intros l k. cbn. by rewrite (wrote_scroll _ _ _ _ Hw).
  - exists s'. split; [|done]. rewrite <- Hs'. destruct (move_terminal_cursor _ _ _ s2) as [s3| |]; [|done..]. by destruct s3.
Qed.
End Flush.
