(* ===== verification/Drawing.v ===== *)
(** Drawing on the screen of [src/screen.c]: programs of drawing operations never
    fault, and what they drew is what the client sees after a flush. *)
From S2P Require Import Prelude CString Utf8 Terminal Convert Screen Display.

(** * Operations *)

(** The calls by which the rest of the program draws. *)
Inductive draw_op :=
| Move (line col : Z)
| Puts (text : list Z)
| Outc (ch : Z)
| ClrToEol
| ClrToBot
| Clear
| Scroll
| FlushScreen.

Section Drawing.
Context (u2g g2u : list Z -> Z -> Z * list Z * iconv_stop) (stack : list Z) (showansi : bool).

Definition run_op (op : draw_op) (s : state) : outcome state :=
  match op with
  | Move line col => Done (move line col s)
  | Puts text => screen_puts true u2g stack text (blen text) s
  | Outc ch => outc true u2g g2u stack showansi ch s
  | ClrToEol => clrtoeol true s
  | ClrToBot => screen_clrtobot s
  | Clear => screen_clear s
  | Scroll => screen_scroll true s
  | FlushScreen => screen_flush true u2g stack s
  end.

Fixpoint run_ops (ops : list draw_op) (s : state) : outcome state :=
  match ops with
  | [] => Done s
  | op :: ops => s ← run_op op s; run_ops ops s
  end.

(** * When an operation may be called *)

(** The line of the cursor can end at the cursor: what lies between the end of
    the line and the cursor is blank on the terminal, or the line will be sent. *)
Definition endable (c : screen_t) : Prop :=
  forall sl, line_of c (cur_ln c) = Some sl ->
    cur_col c <= len sl \/ modified sl = true \/ old_len sl <= len sl.

Definition may (op : draw_op) (s : state) : Prop :=
  let c := scr s in
  match op with
  | Move line col => - lines c <= line < lines c /\ 0 <= col < columns c
  | Puts text => Forall printable text /\ text <> [] /\ cur_ln c < lines c /\ cur_col c + blen text < columns c
  | Outc ch =>
      cur_ln c < lines c /\ ((ch = 10 \/ ch = 13) /\ endable c \/ printable ch /\ cur_col c + 1 < columns c)
  | ClrToEol => cur_ln c < lines c /\ endable c
  | ClrToBot | Clear | Scroll => True
  | FlushScreen =>
      osize (outp s) + budget c (seqZ 0 (lines c)) + 2 * lines c + 64 < OUTPUT_BUFFER_SIZE
  end.

(** Every operation of a program may be called when it is. *)
Fixpoint may_run (ops : list draw_op) (s : state) : Prop :=
  match ops with
  | [] => True
  | op :: ops => may op s /\ forall s', run_op op s = Done s' -> may_run ops s'
  end.

(** * The invariant *)

Record drawn (s : state) : Prop := {
  dr_ok : screen_ok (scr s);
  dr_out : out_ok (outp s);
  dr_in : exists e, terminal_input_buffer_empty (inp s) = Done e;
  dr_left : left s = 0;
  dr_ln : 0 <= cur_ln (scr s) <= lines (scr s);
  dr_col : 0 <= cur_col (scr s) < columns (scr s);
  dr_scroll : 0 <= scrollcnt (scr s);
  dr_ready : flush_ready s;
}.

Lemma drawn_line s r : drawn s -> 0 <= r < lines (scr s) -> exists sl, line_of (scr s) r = Some sl /\
  line_ok (columns (scr s)) sl /\ line_at s (line_index (scr s) r) = Done sl.
Proof.
  intros [Hok _ _ _ _ _ _ _] Hr. destruct (line_of_some _ r Hok Hr) as (sl & Hsl & Hl). exists sl.
  split; [done|]. split; [done|]. by apply line_at_of.
Qed.

Lemma drawn_cursor s ln col : drawn s -> 0 <= ln <= lines (scr s) -> 0 <= col < columns (scr s) ->
  drawn (on_screen (set_cursor ln col) s).
Proof. intros [[B1 B2 B3 B4 B5] D2 D3 D4 _ _ D7 D8] Hln Hcol. by constructor. Qed.

(** A line changes so that a flush can still repair its row. *)
Lemma drawn_set_line s r sl sl' : drawn s -> 0 <= r < lines (scr s) -> line_of (scr s) r = Some sl ->
  line_ok (columns (scr s)) sl' -> (forall g, row_ok g sl -> row_ok g sl') ->
  drawn (set_line (line_index (scr s) r) sl' s).
Proof.
  intros [Hok D2 D3 D4 D5 D6 D7 [D8 D9]] Hr Hsl Hl' Hrow. destruct (set_line_spec s r sl' Hok Hr Hl') as [Hok' Hlines].
  revert Hok' Hlines. unfold set_line. destruct (buf (scr s)) as [b|]; [|done]. intros Hok' Hlines.
  constructor; try done. split; [done|].
  destruct D9 as [D9|D9]; [by left|right]. intros r' Hr'. cbn [scr on_screen set_buf lines scrollcnt] in *.
  rewrite Hlines by done. destruct (Z.eqb_spec r' r) as [->|]; [|by apply D9]. exists sl'. split; [done|]. apply Hrow.
  destruct (D9 r Hr) as (x & Hx & Hok1). rewrite Hsl in Hx. by injection Hx as <-.
Qed.

(** * The text of a line *)

(** Printable bytes up to [n]. *)
Definition text_upto (n : Z) (d : list Z) : Prop :=
  forall i, 0 <= i < n -> exists c, d !! Z.to_nat i = Some c /\ printable c.

Lemma text_upto_take n d : 0 <= n <= blen d -> Forall printable (take (Z.to_nat n) d) <-> text_upto n d.
Proof.
  intros Hn. rewrite Forall_lookup. split.
  - intros H i Hi. destruct (lookup_lt_is_Some_2 d (Z.to_nat i)) as [c Hc]; [unfold blen in *; lia|]. exists c.
    split; [done|]. apply (H (Z.to_nat i)). by rewrite lookup_take_lt by lia.
  - intros H i c Hc. apply lookup_take_Some in Hc as [Hc Hi]. destruct (H (Z.of_nat i)) as (c' & Hc' & Hp); [lia|].
    rewrite Nat2Z.id in Hc'. congruence.
Qed.

Lemma pad_spec d p n : 0 <= p -> 0 <= n -> p + n <= blen d ->
  exists d', pad d p n = Done d' /\ blen d' = blen d /\
    forall i, 0 <= i -> d' !! Z.to_nat i = if (p <=? i) && (i <? p + n) then Some 32 else d !! Z.to_nat i.
Proof.
  intros Hp Hn Hl. set (a := take (Z.to_nat p) d). set (b := take (Z.to_nat n) (drop (Z.to_nat p) d)).
  set (e := drop (Z.to_nat n) (drop (Z.to_nat p) d)).
  assert (d = a ++ b ++ e) as Hd by (subst a b e; by rewrite !take_drop).
  assert (length a = Z.to_nat p) as Ha by (subst a; unfold blen in Hl; rewrite length_take; lia).
  assert (length b = Z.to_nat n) as Hb by (subst b; unfold blen in Hl; rewrite length_take, length_drop; lia).
  exists (a ++ replicate (Z.to_nat n) 32 ++ e). split; [|split].
  - unfold pad. apply (wrn_at d a b e); [done|unfold blen; lia|]. unfold blen. rewrite length_replicate. lia.
  - rewrite Hd, !blen_app. unfold blen. rewrite length_replicate. lia.
  - intros i Hi. destruct (Z.leb_spec p i) as [H1|H1]; cbn [andb].
    + rewrite lookup_app_r by lia. destruct (Z.ltb_spec i (p + n)) as [H2|H2].
      * rewrite lookup_app_l by (rewrite length_replicate; lia). rewrite lookup_replicate. split; [done|lia].
      * rewrite Hd, lookup_app_r by (rewrite length_replicate; lia). rewrite (lookup_app_r a), (lookup_app_r b) by lia.
        rewrite length_replicate. f_equal. lia.
    + rewrite Hd, !lookup_app_l by lia. done.
Qed.

Lemma padded cols sl col n : line_ok cols sl -> 0 <= col -> (len sl < col -> col - len sl <= n /\ len sl + n <= SCREEN_LINE_LEN) ->
  exists d, (if len sl <? col then pad (data sl) (len sl) n else Done (data sl)) = Done d /\ blen d = SCREEN_LINE_LEN /\
    text_upto (Z.max (len sl) col) d /\ (forall i, 0 <= i < len sl -> d !! Z.to_nat i = data sl !! Z.to_nat i) /\
    forall i, len sl <= i < col -> d !! Z.to_nat i = Some 32.
Proof.
  intros (Hlen & [Hle Hd] & _ & Hp) Hcol Hn. rewrite text_upto_take in Hp by lia.
  destruct (Z.ltb_spec (len sl) col) as [Hlt|Hge].
  - destruct (pad_spec (data sl) (len sl) n) as (d & Hpad & Hl & Hi); [lia..|]. exists d. split; [done|]. split; [lia|].
    assert (forall i, len sl <= i < col -> d !! Z.to_nat i = Some 32) as H32.
    { intros i ?. by rewrite Hi, (proj2 (Z.leb_le _ i)), (proj2 (Z.ltb_lt i _)) by lia. }
    assert (forall i, 0 <= i < len sl -> d !! Z.to_nat i = data sl !! Z.to_nat i) as Hold.
    { intros i ?. by rewrite Hi, (proj2 (Z.leb_gt _ i)) by lia. }
    split_and!; try done. intros i ?. destruct (decide (i < len sl)).
    + rewrite Hold by lia. apply Hp. lia.
    + exists 32. split; [apply H32; lia|]. unfold printable. lia.
  - exists (data sl). split_and!; try done; try lia. replace (Z.max (len sl) col) with (len sl) by lia. done.
Qed.

Lemma set_len_id cols n sl : 0 <= n < cols -> cols <= SCREEN_LINE_LEN -> len (set_len n sl) = n.
Proof. intros Hn Hc. cbn. unfold u16, SCREEN_LINE_LEN in *. rewrite Z.mod_small by lia. done. Qed.

(** The line of the cursor ends at the cursor. *)
Lemma drawn_end s : drawn s -> cur_ln (scr s) < lines (scr s) -> endable (scr s) ->
  exists sl d, line_at s (line_index (scr s) (cur_ln (scr s))) = Done sl /\
    (if len sl <? cur_col (scr s) then pad (data sl) (len sl) (cur_col (scr s) - len sl + 1) else Done (data sl)) = Done d /\
    drawn (set_line (line_index (scr s) (cur_ln (scr s))) (set_len (cur_col (scr s)) (set_data d sl)) s).
Proof.
  intros Hd Hln Hend. pose proof (dr_ln _ Hd). pose proof (dr_col _ Hd) as Hcol. pose proof (ok_columns _ (dr_ok _ Hd)) as Hcols.
  destruct (drawn_line s (cur_ln (scr s)) Hd) as (sl & Hsl & Hl & Hat); [lia|].
  destruct (padded (columns (scr s)) sl (cur_col (scr s)) (cur_col (scr s) - len sl + 1) Hl) as (d & Hpad & Hbl & Ht & Hold & H32); [lia|lia|].
  exists sl, d. split; [done|]. split; [done|]. apply (drawn_set_line _ _ sl); [done|lia|done|..].
  - pose proof Hl as (_ & _ & Hol & _). unfold line_ok. rewrite (set_len_id (columns (scr s))) by lia. cbn [data old_len set_data set_len].
    split_and!; try done; try lia. apply text_upto_take; [lia|]. intros i Hi. apply Ht. lia.
  - intros g [G1 G2]. unfold row_ok. rewrite (set_len_id (columns (scr s))) by lia.
    cbn [modified old_len set_data set_len data]. split; [|done]. intros Hm c Hc. unfold cell_of. cbn [data set_data set_len].
    destruct (decide (c < len sl)).
    + rewrite G1 by (done || lia). unfold cell_of. by rewrite Hold by lia.
    + rewrite H32 by lia. cbn. destruct (Hend sl Hsl) as [?|[?|?]]; [lia|congruence|]. apply G2. lia.
Qed.

Lemma set_line_scr s i sl (A : Type) (f : screen_t -> A) : (forall b c, f (set_buf b c) = f c) -> f (scr (set_line i sl s)) = f (scr s).
Proof. intros Hf. unfold set_line. destruct (buf (scr s)); [apply Hf|done]. Qed.

Ltac kept := rewrite ?(set_line_scr _ _ _ _ lines (fun _ _ => eq_refl)), ?(set_line_scr _ _ _ _ columns (fun _ _ => eq_refl)),
  ?(set_line_scr _ _ _ _ cur_ln (fun _ _ => eq_refl)), ?(set_line_scr _ _ _ _ cur_col (fun _ _ => eq_refl)).

Lemma newline_drawn s : drawn s -> cur_ln (scr s) < lines (scr s) -> endable (scr s) ->
  exists s', newline (line_index (scr s) (cur_ln (scr s))) s = Done s' /\ drawn s'.
Proof.
  intros Hd Hln Hend. destruct (drawn_end s Hd Hln Hend) as (sl & d & H1 & H2 & H3). unfold newline.
  rewrite H1. cbn [mbind outcome_bind]. rewrite H2. cbn [mbind outcome_bind].
  eexists. split; [done|].
  pose proof (ok_columns _ (dr_ok _ Hd)). pose proof (dr_ln _ Hd).
  apply (drawn_cursor _ (if cur_ln (scr s) <? lines (scr s) then cur_ln (scr s) + 1 else cur_ln (scr s)) 0) in H3;
    [done|kept; rewrite (proj2 (Z.ltb_lt _ _) Hln); lia|kept; lia].
Qed.

Lemma clrtoeol_drawn s : drawn s -> cur_ln (scr s) < lines (scr s) -> endable (scr s) ->
  exists s', clrtoeol true s = Done s' /\ drawn s'.
Proof.
  intros Hd Hln Hend. destruct (drawn_end s Hd Hln Hend) as (sl & d & H1 & H2 & H3). unfold clrtoeol.
  destruct (ok_buf _ (dr_ok _ Hd)) as (b & -> & _). cbv zeta.
  rewrite H1. cbn [mbind outcome_bind]. rewrite H2. cbn [mbind outcome_bind]. by eexists.
Qed.

(** * Text *)

Lemma puts_byte_drawn s ch : drawn s -> printable ch -> cur_ln (scr s) < lines (scr s) ->
  cur_col (scr s) + 1 < columns (scr s) ->
  exists s', puts_byte (line_index (scr s) (cur_ln (scr s))) ch s = Done s' /\ drawn s' /\
    lines (scr s') = lines (scr s) /\ columns (scr s') = columns (scr s) /\ roll (scr s') = roll (scr s) /\
    cur_ln (scr s') = cur_ln (scr s) /\ cur_col (scr s') = cur_col (scr s) + 1.
Proof.
  intros Hd Hch Hln Hcol. pose proof (dr_ln _ Hd). pose proof (dr_col _ Hd). pose proof (ok_columns _ (dr_ok _ Hd)) as Hcols.
  destruct (drawn_line s (cur_ln (scr s)) Hd) as (sl & Hsl & Hl & Hat); [lia|]. pose proof Hl as (Hlen & _ & Hold & _).
  destruct (padded (columns (scr s)) sl (cur_col (scr s)) (cur_col (scr s) - len sl) Hl) as (d & Hpad & Hbl & Ht & _ & _);
    [lia|intros _; lia|]. unfold puts_byte. assert (32 <= ch <= 126) as Hch' by exact Hch.
  rewrite (proj2 (Z.eqb_neq ch 10)), (proj2 (Z.eqb_neq ch 13)) by lia. cbn [orb].
  rewrite Hat. cbn [mbind outcome_bind]. rewrite Hpad. cbn [mbind outcome_bind].
  unfold wr. rewrite (proj2 (Z.leb_le 0 _)), (proj2 (Z.ltb_lt _ (blen d))) by lia. cbn [andb mbind outcome_bind].
  rewrite u8_id by (width; lia). set (col := cur_col (scr s)) in *. set (d' := <[Z.to_nat col := ch]> d).
  assert (blen d' = SCREEN_LINE_LEN) as Hbl' by (subst d'; unfold blen in *; by rewrite length_insert).
  assert (text_upto (Z.max (len sl) (col + 1)) d') as Ht'.
  { intros i Hi. subst d'. destruct (decide (i = col)) as [->|].
    - exists ch. split; [|done]. apply list_lookup_insert_eq. unfold blen in *. lia.
    - rewrite list_lookup_insert_ne by lia. apply Ht. lia. }
  eexists. split; [done|].
  match goal with |- drawn (on_screen _ (set_line _ ?x s)) /\ _ => set (sl' := x) end.
  assert (len sl' = Z.max (len sl) (col + 1) /\ old_len sl' = old_len sl /\ modified sl' = true /\ data sl' = d') as (L1 & L2 & L3 & L4).
  { subst sl'. cbn [len set_modified set_data]. destruct (Z.ltb_spec (len sl) (col + 1)).
    - rewrite (set_len_id (columns (scr s))) by lia. split_and!; try done. lia.
    - split_and!; try done. cbn. lia. }
  assert (drawn (set_line (line_index (scr s) (cur_ln (scr s))) sl' s)) as Hd'.
  { apply (drawn_set_line _ _ sl); [done|lia|done|..].
    - unfold line_ok. rewrite L1, L2, L4. split; [lia|]. split; [lia|]. split; [lia|]. apply text_upto_take; [lia|done].
    - intros g [_ G2]. split; [congruence|]. by rewrite L2. }
  split; [|cbn [scr on_screen set_cursor lines columns roll cur_ln cur_col]; kept;
    by rewrite (set_line_scr _ _ _ _ roll (fun _ _ => eq_refl))].
  apply drawn_cursor; [done|kept; lia|kept; lia].
Qed.

Lemma puts_loop_drawn l : forall s, drawn s -> Forall printable l -> cur_ln (scr s) < lines (scr s) ->
  cur_col (scr s) + blen l < columns (scr s) ->
  exists s', puts_loop (line_index (scr s) (cur_ln (scr s))) l s = Done s' /\ drawn s' /\ lines (scr s') = lines (scr s) /\
    columns (scr s') = columns (scr s) /\ cur_ln (scr s') = cur_ln (scr s) /\ cur_col (scr s') = cur_col (scr s) + blen l.
Proof.
  induction l as [|ch l IH]; intros s Hd Hp Hln Hcol.
  - exists s. split; [done|]. split; [done|]. split_and!; try done. change (blen []) with 0. lia.
  - apply Forall_cons_1 in Hp as [Hch Hp]. rewrite blen_cons in *. pose proof (blen_nonneg l). cbn [puts_loop].
    destruct (puts_byte_drawn s ch) as (s1 & -> & Hd1 & E1 & E2 & E3 & E4 & E5); [done|done|done|lia|]. cbn [mbind outcome_bind].
    assert (line_index (scr s1) (cur_ln (scr s1)) = line_index (scr s) (cur_ln (scr s))) as <- by (unfold line_index; congruence).
    destruct (IH s1) as (s2 & -> & Hd2 & F1 & F2 & F3 & F4); [done|done|lia|lia|]. exists s2. split; [done|]. split; [done|].
    split_and!; try congruence. lia.
Qed.

Lemma screen_puts_drawn s text : drawn s -> Forall printable text -> text <> [] -> cur_ln (scr s) < lines (scr s) ->
  cur_col (scr s) + blen text < columns (scr s) ->
  exists s', screen_puts true u2g stack text (blen text) s = Done s' /\ drawn s' /\ lines (scr s') = lines (scr s) /\
    columns (scr s') = columns (scr s) /\ cur_ln (scr s') = cur_ln (scr s) /\ cur_col (scr s') = cur_col (scr s) + blen text.
Proof.
  intros Hd Hp Hne Hln Hcol. unfold screen_puts. assert (0 < blen text) as Hpos.
  { destruct text; [done|]. rewrite blen_cons. pose proof (blen_nonneg text). lia. }
  rewrite (proj2 (Z.eqb_neq (blen text) 0)) by lia. cbn [mbind outcome_bind].
  destruct (ok_buf _ (dr_ok _ Hd)) as (b & -> & _). cbv zeta. pose proof (dr_ln _ Hd).
  destruct (drawn_line s (cur_ln (scr s)) Hd) as (sl & _ & _ & ->); [lia|]. cbn [mbind outcome_bind].
  rewrite (rdn_at text [] text [] 0 (blen text)) by (rewrite ?app_nil_r; done). cbn [mbind outcome_bind].
  by apply puts_loop_drawn.
Qed.

Lemma isprint2_printable ch : printable ch -> isprint2 ch = true /\ Z.land ch 128 = 0.
Proof.
  unfold printable. intros Hch. assert (Z.land ch 128 = 0) as Hz.
  { rewrite Z.land_comm. change 128 with (2 ^ 7). apply Z.bits_inj'. intros n Hn. rewrite Z.land_spec, Z.pow2_bits_eqb, Z.bits_0 by lia.
    destruct (Z.eqb_spec 7 n) as [<-|]; [|done]. cbn [andb]. apply Z.testbit_false; [lia|]. rewrite Z.div_small by lia. done. }
  split; [|done]. unfold isprint2, isprint. rewrite u8_id by (width; lia).
  rewrite (proj2 (Z.leb_le 32 ch)), (proj2 (Z.leb_le ch 126)) by lia. by rewrite orb_true_r.
Qed.

Lemma outc_drawn s ch : drawn s -> may (Outc ch) s -> exists s', outc true u2g g2u stack showansi ch s = Done s' /\ drawn s'.
Proof.
  intros Hd [Hln Hch]. unfold outc. destruct (ok_buf _ (dr_ok _ Hd)) as (b & -> & _). cbv zeta.
  destruct Hch as [[Hch Hend]|[Hp Hcol]].
  - assert (negb (isprint2 ch) && ((ch =? 10) || (ch =? 13)) = true) as -> by (by destruct Hch as [->| ->]).
    by apply newline_drawn.
  - destruct (isprint2_printable ch Hp) as [-> Hz]. cbn [negb andb]. unfold screen_put_gbk.
    rewrite (dr_left _ Hd), Hz. cbn [Z.eqb negb]. unfold screen_putc. assert (32 <= ch <= 126) by exact Hp.
    rewrite u8_id by (width; lia). change (screen_puts true u2g stack [ch] 1 s) with (screen_puts true u2g stack [ch] (blen [ch]) s).
    destruct (screen_puts_drawn s [ch]) as (s1 & -> & Hd1 & E1 & E2 & E3 & E4); [done|by constructor|done|done|
      change (blen [ch]) with 1; lia|]. cbn [mbind outcome_bind]. change (blen [ch]) with 1 in E4.
    rewrite (proj2 (Z.leb_gt (columns (scr s1)) _)) by lia. by eexists.
Qed.

(** * Lines cleared, scrolling and flushing *)

Lemma drawn_clear_line s r sl sl' : drawn s -> 0 <= r < lines (scr s) -> line_of (scr s) r = Some sl ->
  len sl' = 0 -> data sl' = data sl -> old_len sl <= old_len sl' <= SCREEN_LINE_LEN ->
  drawn (set_line (line_index (scr s) r) sl' s).
Proof.
  intros Hd Hr Hsl Hlen Hdata Hold. destruct (drawn_line s r Hd Hr) as (x & Hx & (Hl1 & [Hl2 Hl3] & Hl4 & Hl5) & _).
  rewrite Hsl in Hx. injection Hx as <-. pose proof (dr_col _ Hd).
  apply (drawn_set_line _ _ sl); [done|done|done|..].
  - unfold line_ok. rewrite Hlen, Hdata. cbn. pose proof (blen_nonneg (data sl)). split; [lia|]. split; [lia|]. split; [lia|constructor].
  - intros g [_ G2]. split; [rewrite Hlen; intros; lia|]. intros c Hc. apply G2. lia.
Qed.

Lemma clear_lines (f : Z -> state -> outcome state) :
  (forall i s, drawn s -> 0 <= i < lines (scr s) -> exists s', f i s = Done s' /\ drawn s' /\ lines (scr s') = lines (scr s)) ->
  forall n i s, drawn s -> 0 <= i -> i + Z.of_nat n <= lines (scr s) ->
  exists s', each_line f (seqZ i (Z.of_nat n)) s = Done s' /\ drawn s' /\ lines (scr s') = lines (scr s).
Proof.
  intros Hf. induction n as [|n IH]; intros i s Hd Hi Hn; [by exists s|].
  rewrite seqZ_cons by lia. replace (Z.pred (Z.of_nat (S n))) with (Z.of_nat n) by lia. cbn [each_line].
  destruct (Hf i s Hd) as (s1 & -> & Hd1 & E1); [lia|]. cbn [mbind outcome_bind].
  destruct (IH (Z.succ i) s1) as (s2 & -> & Hd2 & E2); [done|lia|lia|]. exists s2. split_and!; try done. congruence.
Qed.

Lemma clrtobot_drawn s : drawn s -> exists s', screen_clrtobot s = Done s' /\ drawn s'.
Proof.
  intros Hd. unfold screen_clrtobot. destruct (ok_buf _ (dr_ok _ Hd)) as (b & -> & _). pose proof (dr_ln _ Hd).
  destruct (clear_lines clrtobot_line) with (n := Z.to_nat (lines (scr s) - cur_ln (scr s))) (i := cur_ln (scr s)) (s := s)
    as (s' & Hs' & Hd' & _); try done; try lia.
  - intros i s0 Hd0 Hi. destruct (drawn_line s0 i Hd0 Hi) as (sl & Hsl & Hl & Hat). unfold clrtobot_line. rewrite Hat. cbn [mbind outcome_bind].
    eexists. split; [done|]. kept. split; [|done]. destruct Hl as (_ & _ & Ho & _).
    apply (drawn_clear_line _ _ sl); try done. cbn. change (u16 SCREEN_LINE_LEN) with SCREEN_LINE_LEN. lia.
  - rewrite Z2Nat.id in Hs' by lia. by exists s'.
Qed.

Lemma screen_clear_drawn s : drawn s -> exists s', screen_clear s = Done s' /\ drawn s'.
Proof.
  intros Hd. unfold screen_clear. destruct (ok_buf _ (dr_ok _ Hd)) as (b & Hb & _). rewrite Hb. cbv zeta.
  set (s1 := on_screen (fun c => set_redraw true (set_roll 0 c)) s). pose proof (ok_lines _ (dr_ok _ Hd)) as Hl.
  assert (drawn s1 /\ roll (scr s1) = 0 /\ lines (scr s1) = lines (scr s)) as (Hd1 & Hr1 & El).
  { split; [|done]. destruct Hd as [[B1 B2 B3 B4 B5] D2 D3 D4 D5 D6 D7 [D8 D9]].
    constructor; try done; [constructor; try done; cbn; lia|]. split; [done|by left]. }
  destruct (clear_lines (fun i s => if roll (scr s) =? 0 then screen_clear_line i s else Done s)) with
    (n := Z.to_nat (lines (scr s1))) (i := 0) (s := s1) as (s' & Hs' & Hd' & El'); try done; try lia.
  - intros i s0 Hd0 Hi. destruct (Z.eqb_spec (roll (scr s0)) 0) as [Hr|]; [|by exists s0].
    destruct (drawn_line s0 i Hd0 Hi) as (sl & Hsl & Hl0 & Hat).
    assert (line_index (scr s0) i = i) as Hidx by (unfold line_index; rewrite Hr, Z.add_0_r, Z.rem_small by lia; done).
    rewrite Hidx in Hat. unfold screen_clear_line. rewrite Hat. cbn [mbind outcome_bind]. eexists. split; [done|].
    kept. split; [|done]. destruct Hl0 as (_ & _ & Ho & _).
    pose proof (drawn_clear_line s0 i sl (set_len 0 (set_modified false sl)) Hd0 Hi Hsl) as K. rewrite Hidx in K.
    apply K; try done. cbn. lia.
  - rewrite Z2Nat.id in Hs' by lia. exists (move 0 0 s'). split.
    + match type of Hs' with each_line ?f _ _ = _ => assert (forall idx s0, roll (scr s0) = 0 ->
        each_line screen_clear_line idx s0 = each_line f idx s0) as Heq end.
      { intros idx. induction idx as [|i idx IH]; intros s0 Hr; [done|]. cbn [each_line]. rewrite Hr. cbn [Z.eqb].
        destruct (screen_clear_line i s0) as [s2| |] eqn:E; cbn [mbind outcome_bind]; try done. apply IH.
        revert E. unfold screen_clear_line. destruct (line_at s0 i); cbn [mbind outcome_bind]; intros [= <-].
        by rewrite (set_line_scr _ _ _ _ roll (fun _ _ => eq_refl)). }
      by rewrite Heq, Hs' by done.
    + pose proof (dr_col _ Hd'). apply drawn_cursor; [done|cbn; lia|lia].
Qed.

Lemma move_drawn s line col : drawn s -> may (Move line col) s -> drawn (move line col s).
Proof. intros Hd [Hl Hc]. apply drawn_cursor; [done| |done]. destruct (Z.ltb_spec line 0); lia. Qed.

(** The lines move up by one; the one at the top, emptied, becomes the one at the bottom. *)
Definition rolled (s : state) : state :=
  let r := roll (scr s) + 1 in
  on_screen (fun c => set_roll (if lines c <=? r then r - lines c else r) (set_scrollcnt (scrollcnt c + 1) c)) s.

Lemma rolled_line s i : screen_ok (scr s) -> 0 <= i < lines (scr s) ->
  line_index (scr (rolled s)) i = line_index (scr s) (if i =? lines (scr s) - 1 then 0 else i + 1).
Proof.
  intros Hok Hi. pose proof (ok_roll _ Hok). pose proof (ok_lines _ Hok). unfold line_index.
  cbn [scr on_screen rolled set_roll set_scrollcnt roll lines].
  set (r := if _ <=? _ then _ else _).
  assert (0 <= r < lines (scr s) /\ (r = roll (scr s) + 1 \/ r = roll (scr s) + 1 - lines (scr s))) as [Hr Hr'].
  { subst r. destruct (Z.leb_spec (lines (scr s)) (roll (scr s) + 1)); lia. }
  rewrite !Z.rem_mod_nonneg by (destruct (i =? lines (scr s) - 1); lia).
  destruct (Z.eqb_spec i (lines (scr s) - 1)) as [->|].
  - destruct Hr' as [->| ->].
    + rewrite <- (Z.mod_add (0 + roll (scr s)) 1) by lia. f_equal. lia.
    + f_equal. lia.
  - destruct Hr' as [->| ->]; [f_equal; lia|]. rewrite <- (Z.mod_add _ 1) by lia. f_equal. lia.
Qed.

Lemma rolled_drawn s sl : drawn s -> line_of (scr s) 0 = Some sl -> len sl = 0 -> drawn (rolled s).
Proof.
  intros [Hok D2 D3 D4 D5 D6 D7 [D8 D9]] Hsl Hlen. pose proof (ok_lines _ Hok). pose proof (ok_roll _ Hok).
  constructor; try done.
  - destruct Hok as [B1 B2 B3 B4 B5]. constructor; try done. cbn.
    destruct (Z.leb_spec (lines (scr s)) (roll (scr s) + 1)); lia.
  - cbn. lia.
  - split; [done|]. destruct D9 as [D9|D9]; [by left|right]. intros i Hi.
    change (lines (scr (rolled s))) with (lines (scr s)) in *. change (outp (rolled s)) with (outp s).
    change (scrollcnt (scr (rolled s))) with (scrollcnt (scr s) + 1).
    assert (line_of (scr (rolled s)) i = line_of (scr s) (if i =? lines (scr s) - 1 then 0 else i + 1)) as ->.
    { unfold line_of. change (buf (scr (rolled s))) with (buf (scr s)). by rewrite rolled_line. }
    destruct (Z.eqb_spec i (lines (scr s) - 1)) as [->|].
    + exists sl. split; [done|]. split; [rewrite Hlen; intros; lia|]. intros c _. unfold shift_rows.
      rewrite (proj2 (Z.ltb_ge (lines (scr s) - 1 + (scrollcnt (scr s) + 1)) _)) by lia. by rewrite andb_false_r.
    + destruct (D9 (i + 1)) as (x & Hx & Hrow); [lia|]. exists x. split; [done|].
      assert (forall c, shift_rows (lines (scr s)) (scrollcnt (scr s) + 1) (cells (display (lines (scr s)) (outp s))) i c =
        shift_rows (lines (scr s)) (scrollcnt (scr s)) (cells (display (lines (scr s)) (outp s))) (i + 1) c) as Heq.
      { intros c. unfold shift_rows. by replace (i + (scrollcnt (scr s) + 1)) with (i + 1 + scrollcnt (scr s)) by lia. }
      destruct Hrow as [R1 R2]. split; intros; rewrite Heq; auto.
Qed.

Lemma scroll_drawn s : drawn s -> exists s', screen_scroll true s = Done s' /\ drawn s'.
Proof.
  intros Hd. pose proof (ok_lines _ (dr_ok _ Hd)) as Hl. pose proof (dr_col _ Hd).
  destruct (drawn_line s 0 Hd) as (sl & Hsl & Hlok & Hat); [lia|]. pose proof Hlok as (Hlen & _ & Hold & _).
  pose proof (rolled_line s (lines (scr s) - 1) (dr_ok _ Hd)) as Hidx. rewrite Z.eqb_refl in Hidx.
  assert (drawn (set_line (line_index (scr s) 0) (set_len 0 sl) s)) as Hd1.
  { apply (drawn_clear_line _ _ sl); try done; cbn; lia. }
  assert (line_of (scr (set_line (line_index (scr s) 0) (set_len 0 sl) s)) 0 = Some (set_len 0 sl)) as Htop.
  { destruct (set_line_spec s 0 (set_len 0 sl) (dr_ok _ Hd)) as [_ Hlines]; [lia| |by rewrite Hlines by lia].
    unfold line_ok. change (len (set_len 0 sl)) with 0. cbn [data old_len set_len]. destruct Hlok as (? & [? ?] & ? & _).
    pose proof (blen_nonneg (data sl)). split; [lia|]. split; [lia|]. split; [lia|constructor]. }
  pose proof (rolled_drawn _ _ Hd1 Htop eq_refl) as Hd2.
  pose proof (drawn_cursor _ (lines (scr s) - 1) 0 Hd2) as Hd3.
  eexists. split; [|apply Hd3; unfold rolled; cbn [scr on_screen set_roll set_scrollcnt lines columns]; kept; lia].
  specialize (Hidx ltac:(lia)). clear Hd1 Htop Hd2 Hd3.
  unfold screen_scroll, screen_move_clear, clrtoeol. destruct (ok_buf _ (dr_ok _ Hd)) as (b & Hb & _).
  unfold rolled, line_index, line_at, set_line in *. destruct s as [c i o l sv tm]. cbn [scr inp outp left saved temp on_screen] in *.
  destruct c as [bf cols lns ln col tl tcl rl sc rd u]. cbn in * |-. subst bf.
  cbn [move on_screen scr set_cursor set_roll set_scrollcnt buf roll lines columns cur_ln cur_col]. cbn [Z.ltb Z.compare].
  unfold move. cbn [on_screen scr set_roll set_scrollcnt lines set_cursor]. cbn [Z.ltb Z.compare].
  replace (-1 + lns) with (lns - 1) by lia. rewrite Hidx, Hat. cbn [mbind outcome_bind]. rewrite (proj2 (Z.ltb_ge (len sl) 0)) by lia. cbn [mbind outcome_bind].
  destruct sl.
  unfold on_screen, set_buf, set_cursor, set_roll, set_scrollcnt, set_len, set_data. cbn.
  by replace (-1 + lns) with (lns - 1) by lia.
Qed.

Context (u2g_ascii : forall l room, Forall printable l -> blen l <= room -> u2g l room = (blen l, l, Converted)).
Context (stack_size : blen stack = 1024).

Lemma flushed_drawn s s' : drawn s -> flushed s s' -> drawn s'.
Proof.
  intros [D1 D2 D3 D4 D5 D6 D7 D8] (Hok & F & He & _ & Ho & _ & Hr & Hsc & _). unfold env in He. injection He as E1 E2 E3 E4.
  pose proof F as (Fl & Fc & _ & Fln & Fcol & _). constructor; try congruence; try done; by rewrite ?E1, ?Fln, ?Fl, ?Fcol, ?Fc, ?Hsc.
Qed.

Lemma flush_drawn s : drawn s -> may FlushScreen s -> exists s', screen_flush true u2g stack s = Done s' /\ drawn s' /\
  (terminal_input_buffer_empty (inp s) = Done true -> flushed s s').
Proof.
  intros Hd Hroom. destruct (dr_in _ Hd) as [[] Hin].
  - destruct (screen_flush_ok u2g stack u2g_ascii stack_size s) as (s' & Hs' & Hfl);
      [apply Hd|apply Hd|apply Hd|done|exact Hroom|apply Hd|apply Hd|].
    exists s'. split; [done|]. split; [by eapply flushed_drawn|done].
  - exists s. split; [|split; [done|by rewrite Hin]]. unfold screen_flush.
    destruct (ok_buf _ (dr_ok _ Hd)) as (b & -> & _). by rewrite Hin.
Qed.

Lemma step_drawn op s : drawn s -> may op s -> exists s', run_op op s = Done s' /\ drawn s'.
Proof.
  intros Hd Hm. destruct op as [line col|text|ch| | | | |]; cbn [run_op].
  - eexists. split; [done|]. by apply move_drawn.
  - destruct Hm as (H1 & H2 & H3 & H4). destruct (screen_puts_drawn s text) as (s' & ? & ? & _); try done. by exists s'.
  - by apply outc_drawn.
  - destruct Hm. by apply clrtoeol_drawn.
  - by apply clrtobot_drawn.
  - by apply screen_clear_drawn.
  - by apply scroll_drawn.
  - destruct (flush_drawn s Hd Hm) as (s' & ? & ? & _). by exists s'.
Qed.

Lemma steps_drawn ops : forall s, drawn s -> may_run ops s -> exists s', run_ops ops s = Done s' /\ drawn s'.
Proof.
  induction ops as [|op ops IH]; intros s Hd Hm; [by exists s|]. destruct Hm as [Hop Hm].
  destruct (step_drawn op s Hd Hop) as (s1 & Hs1 & Hd1). cbn [run_ops]. rewrite Hs1. apply IH; [done|by apply Hm].
Qed.

Lemma may_run_app ops ops' : forall s, may_run (ops ++ ops') s -> may_run ops s.
Proof. induction ops as [|op ops IH]; intros s H; [done|]. destruct H as [H1 H2]. split; [done|]. intros s' Hs'. by apply IH, H2. Qed.

(** The screen as [screen_init] leaves it when the program starts, the terminal
    being blank and nothing written. *)
Lemma init_drawn fresh n i o sv tm e : (forall k, blen (data (fresh k)) = SCREEN_LINE_LEN) ->
  out_ok o -> written o = [] -> terminal_input_buffer_empty i = Done e ->
  drawn (screen_init fresh n (State screen0 i o 0 sv tm)).
Proof.
  intros Hf Ho Hw Hi. constructor; try done.
  - constructor; [|change (3 < 24 <= 100); lia|change (0 < 255 <= 1019); lia|change (0 <= 0 < 24); lia|
      change (0 <= 0 < 24 /\ 0 <= 0 < 255); lia].
    eexists. split; [done|]. split; [done|]. apply Forall_fmap, list.Forall_forall. intros k _.
    change (line_ok 255 (Line 0 0 false (data (fresh k)))). unfold line_ok. cbn [len old_len data]. rewrite Hf.
    unfold SCREEN_LINE_LEN. split; [lia|]. split; [lia|]. split; [lia|constructor].
  - by exists e.
  - split; [|by left]. unfold display. cbn. by rewrite Hw.
Qed.

(** Nothing that the program draws within the lines of the screen makes it
    fault or leave its bounds: from a screen that is well formed and known to the
    terminal, any sequence of moves, texts, line ends, clearings, scrollings and
    flushes runs to its end and leaves such a screen. *)
Theorem drawing_safe ops s : drawn s -> may_run ops s -> exists s', run_ops ops s = Done s' /\ drawn s'.
Proof. apply steps_drawn. Qed.

End Drawing.

(** * Witnesses *)

Definition copy_ascii (l : list Z) (room : Z) : Z * list Z * iconv_stop := (blen l, l, Converted).

Definition first_screen : state :=
  screen_init (fun _ => Line 0 0 false (replicate 1019 0)) 24
    (State screen0 (Input [] 0 0 [] false 0 false 0 []) fresh_output 0 [] []).

Lemma first_drawn : drawn first_screen.
Proof. apply (init_drawn _ _ _ _ _ _ true); [intros; by vm_compute|apply fresh_ok|done|done]. Defined.

(** A title on the first line, a text on the third, and the first flush. *)
Definition title : list draw_op :=
  [Puts (bytes "fbbs"); Outc 10; Move 2 4; Puts (bytes "news")].

Ltac next_state := let s := fresh "s" in let H := fresh "H" in intros s H; vm_compute in H; injection H as <-.

Lemma title_may conv : may_run conv conv (replicate 1024 0) false (title ++ [FlushScreen]) first_screen.
Proof.
  cbn [title app may_run]. split; [|next_state; split; [|next_state; split; [|next_state; split; [|next_state; split; [|done]]]]].
  - split; [repeat constructor; by vm_compute|]. split; [done|]. split; by vm_compute.
  - split; [by vm_compute|]. left. split; [by left|]. intros sl H. vm_compute in H. injection H as <-. left. by vm_compute.
  - split; [split; by vm_compute|split; by vm_compute].
  - split; [repeat constructor; by vm_compute|]. split; [done|]. split; by vm_compute.
  - by vm_compute.
Defined.

Lemma drawing_safe_witness : exists s', run_ops copy_ascii copy_ascii (replicate 1024 0) false
    (title ++ [FlushScreen]) first_screen = Done s' /\ drawn s'.
Proof.
  apply (drawing_safe copy_ascii copy_ascii (replicate 1024 0) false ltac:(done) eq_refl _ _ first_drawn (title_may _)).
Defined.

