(* ===== verification/Edit.v ===== *)
(** The text editor: [src/edit.c].

    The lines of the text are in a heap and refer to each other by address. What
    the editor shows is left out, what it does to the text and to the cursor is
    not. *)
From stdpp Require Import gmap.
From S2P Require Import Prelude CString Terminal Screen PostParse.

Definition WRAPMARGIN : Z := 255.
Definition STRLEN : Z := 80.
Definition M_MARK : Z := 1.
Definition scrollen : Z := 2.

(** * State *)

Record textline := Textline {
  prev : option nat;
  next : option nat;
  len : Z;
  attr : Z;
  data : list Z;
}.

(** The static variables of the file; [lastindent] is in [vedit_key]. *)
Record editor := Editor {
  heap : gmap nat textline;
  firstline : option nat;
  can_edit_begin : option nat;
  can_edit_end : option nat;
  top_of_win : option nat;
  currline : option nat;
  mark_begin : option nat;
  mark_end : option nat;
  currpnt : Z;
  searchtext : list Z;
  moveln : Z;
  shifttmp : Z;
  curr_window_line : Z;
  currln : Z;
  redraw_everything : bool;
  insert_character : bool;
  linelen : Z;
  mark_on : Z;
  editansi : bool;
  enabledbchar : bool;
  lastindent : Z;
}.

Definition set_prev (x : option nat) (r : textline) : textline :=
  Textline x (next r) (len r) (attr r) (data r).
Definition set_next (x : option nat) (r : textline) : textline :=
  Textline (prev r) x (len r) (attr r) (data r).
Definition set_len (x : Z) (r : textline) : textline :=
  Textline (prev r) (next r) x (attr r) (data r).
Definition set_attr (x : Z) (r : textline) : textline :=
  Textline (prev r) (next r) (len r) x (data r).
Definition set_data (x : list Z) (r : textline) : textline :=
  Textline (prev r) (next r) (len r) (attr r) x.

Definition set_heap (x : gmap nat textline) (r : editor) : editor :=
  Editor x (firstline r) (can_edit_begin r) (can_edit_end r) (top_of_win r) (currline r) (mark_begin r)
    (mark_end r) (currpnt r) (searchtext r) (moveln r) (shifttmp r) (curr_window_line r) (currln r)
    (redraw_everything r) (insert_character r) (linelen r) (mark_on r) (editansi r) (enabledbchar r)
    (lastindent r).
Definition set_firstline (x : option nat) (r : editor) : editor :=
  Editor (heap r) x (can_edit_begin r) (can_edit_end r) (top_of_win r) (currline r) (mark_begin r)
    (mark_end r) (currpnt r) (searchtext r) (moveln r) (shifttmp r) (curr_window_line r) (currln r)
    (redraw_everything r) (insert_character r) (linelen r) (mark_on r) (editansi r) (enabledbchar r)
    (lastindent r).
Definition set_can_edit_begin (x : option nat) (r : editor) : editor :=
  Editor (heap r) (firstline r) x (can_edit_end r) (top_of_win r) (currline r) (mark_begin r) (mark_end r)
    (currpnt r) (searchtext r) (moveln r) (shifttmp r) (curr_window_line r) (currln r) (redraw_everything r)
    (insert_character r) (linelen r) (mark_on r) (editansi r) (enabledbchar r) (lastindent r).
Definition set_can_edit_end (x : option nat) (r : editor) : editor :=
  Editor (heap r) (firstline r) (can_edit_begin r) x (top_of_win r) (currline r) (mark_begin r) (mark_end r)
    (currpnt r) (searchtext r) (moveln r) (shifttmp r) (curr_window_line r) (currln r) (redraw_everything r)
    (insert_character r) (linelen r) (mark_on r) (editansi r) (enabledbchar r) (lastindent r).
Definition set_top_of_win (x : option nat) (r : editor) : editor :=
  Editor (heap r) (firstline r) (can_edit_begin r) (can_edit_end r) x (currline r) (mark_begin r)
    (mark_end r) (currpnt r) (searchtext r) (moveln r) (shifttmp r) (curr_window_line r) (currln r)
    (redraw_everything r) (insert_character r) (linelen r) (mark_on r) (editansi r) (enabledbchar r)
    (lastindent r).
Definition set_currline (x : option nat) (r : editor) : editor :=
  Editor (heap r) (firstline r) (can_edit_begin r) (can_edit_end r) (top_of_win r) x (mark_begin r)
    (mark_end r) (currpnt r) (searchtext r) (moveln r) (shifttmp r) (curr_window_line r) (currln r)
    (redraw_everything r) (insert_character r) (linelen r) (mark_on r) (editansi r) (enabledbchar r)
    (lastindent r).
Definition set_mark_begin (x : option nat) (r : editor) : editor :=
  Editor (heap r) (firstline r) (can_edit_begin r) (can_edit_end r) (top_of_win r) (currline r) x
    (mark_end r) (currpnt r) (searchtext r) (moveln r) (shifttmp r) (curr_window_line r) (currln r)
    (redraw_everything r) (insert_character r) (linelen r) (mark_on r) (editansi r) (enabledbchar r)
    (lastindent r).
Definition set_mark_end (x : option nat) (r : editor) : editor :=
  Editor (heap r) (firstline r) (can_edit_begin r) (can_edit_end r) (top_of_win r) (currline r)
    (mark_begin r) x (currpnt r) (searchtext r) (moveln r) (shifttmp r) (curr_window_line r) (currln r)
    (redraw_everything r) (insert_character r) (linelen r) (mark_on r) (editansi r) (enabledbchar r)
    (lastindent r).
Definition set_currpnt (x : Z) (r : editor) : editor :=
  Editor (heap r) (firstline r) (can_edit_begin r) (can_edit_end r) (top_of_win r) (currline r)
    (mark_begin r) (mark_end r) x (searchtext r) (moveln r) (shifttmp r) (curr_window_line r) (currln r)
    (redraw_everything r) (insert_character r) (linelen r) (mark_on r) (editansi r) (enabledbchar r)
    (lastindent r).
Definition set_searchtext (x : list Z) (r : editor) : editor :=
  Editor (heap r) (firstline r) (can_edit_begin r) (can_edit_end r) (top_of_win r) (currline r)
    (mark_begin r) (mark_end r) (currpnt r) x (moveln r) (shifttmp r) (curr_window_line r) (currln r)
    (redraw_everything r) (insert_character r) (linelen r) (mark_on r) (editansi r) (enabledbchar r)
    (lastindent r).
Definition set_moveln (x : Z) (r : editor) : editor :=
  Editor (heap r) (firstline r) (can_edit_begin r) (can_edit_end r) (top_of_win r) (currline r)
    (mark_begin r) (mark_end r) (currpnt r) (searchtext r) x (shifttmp r) (curr_window_line r) (currln r)
    (redraw_everything r) (insert_character r) (linelen r) (mark_on r) (editansi r) (enabledbchar r)
    (lastindent r).
Definition set_shifttmp (x : Z) (r : editor) : editor :=
  Editor (heap r) (firstline r) (can_edit_begin r) (can_edit_end r) (top_of_win r) (currline r)
    (mark_begin r) (mark_end r) (currpnt r) (searchtext r) (moveln r) x (curr_window_line r) (currln r)
    (redraw_everything r) (insert_character r) (linelen r) (mark_on r) (editansi r) (enabledbchar r)
    (lastindent r).
Definition set_curr_window_line (x : Z) (r : editor) : editor :=
  Editor (heap r) (firstline r) (can_edit_begin r) (can_edit_end r) (top_of_win r) (currline r)
    (mark_begin r) (mark_end r) (currpnt r) (searchtext r) (moveln r) (shifttmp r) x (currln r)
    (redraw_everything r) (insert_character r) (linelen r) (mark_on r) (editansi r) (enabledbchar r)
    (lastindent r).
Definition set_currln (x : Z) (r : editor) : editor :=
  Editor (heap r) (firstline r) (can_edit_begin r) (can_edit_end r) (top_of_win r) (currline r)
    (mark_begin r) (mark_end r) (currpnt r) (searchtext r) (moveln r) (shifttmp r) (curr_window_line r) x
    (redraw_everything r) (insert_character r) (linelen r) (mark_on r) (editansi r) (enabledbchar r)
    (lastindent r).
Definition set_redraw_everything (x : bool) (r : editor) : editor :=
  Editor (heap r) (firstline r) (can_edit_begin r) (can_edit_end r) (top_of_win r) (currline r)
    (mark_begin r) (mark_end r) (currpnt r) (searchtext r) (moveln r) (shifttmp r) (curr_window_line r)
    (currln r) x (insert_character r) (linelen r) (mark_on r) (editansi r) (enabledbchar r) (lastindent r).
Definition set_insert_character (x : bool) (r : editor) : editor :=
  Editor (heap r) (firstline r) (can_edit_begin r) (can_edit_end r) (top_of_win r) (currline r)
    (mark_begin r) (mark_end r) (currpnt r) (searchtext r) (moveln r) (shifttmp r) (curr_window_line r)
    (currln r) (redraw_everything r) x (linelen r) (mark_on r) (editansi r) (enabledbchar r) (lastindent r).
Definition set_linelen (x : Z) (r : editor) : editor :=
  Editor (heap r) (firstline r) (can_edit_begin r) (can_edit_end r) (top_of_win r) (currline r)
    (mark_begin r) (mark_end r) (currpnt r) (searchtext r) (moveln r) (shifttmp r) (curr_window_line r)
    (currln r) (redraw_everything r) (insert_character r) x (mark_on r) (editansi r) (enabledbchar r)
    (lastindent r).
Definition set_mark_on (x : Z) (r : editor) : editor :=
  Editor (heap r) (firstline r) (can_edit_begin r) (can_edit_end r) (top_of_win r) (currline r)
    (mark_begin r) (mark_end r) (currpnt r) (searchtext r) (moveln r) (shifttmp r) (curr_window_line r)
    (currln r) (redraw_everything r) (insert_character r) (linelen r) x (editansi r) (enabledbchar r)
    (lastindent r).
Definition set_editansi (x : bool) (r : editor) : editor :=
  Editor (heap r) (firstline r) (can_edit_begin r) (can_edit_end r) (top_of_win r) (currline r)
    (mark_begin r) (mark_end r) (currpnt r) (searchtext r) (moveln r) (shifttmp r) (curr_window_line r)
    (currln r) (redraw_everything r) (insert_character r) (linelen r) (mark_on r) x (enabledbchar r)
    (lastindent r).
Definition set_enabledbchar (x : bool) (r : editor) : editor :=
  Editor (heap r) (firstline r) (can_edit_begin r) (can_edit_end r) (top_of_win r) (currline r)
    (mark_begin r) (mark_end r) (currpnt r) (searchtext r) (moveln r) (shifttmp r) (curr_window_line r)
    (currln r) (redraw_everything r) (insert_character r) (linelen r) (mark_on r) (editansi r) x
    (lastindent r).
Definition set_lastindent (x : Z) (r : editor) : editor :=
  Editor (heap r) (firstline r) (can_edit_begin r) (can_edit_end r) (top_of_win r) (currline r)
    (mark_begin r) (mark_end r) (currpnt r) (searchtext r) (moveln r) (shifttmp r) (curr_window_line r)
    (currln r) (redraw_everything r) (insert_character r) (linelen r) (mark_on r) (editansi r)
    (enabledbchar r) x.

(** An operation returns a value and the new state, or exits ([None]). *)
Definition E A : Type := editor -> outcome (option (A * editor)).

#[export] Instance E_ret : MRet E := fun A a e => Done (Some (a, e)).
#[export] Instance E_bind : MBind E := fun A B f m e =>
  r ← m e; match r with None => Done None | Some (a, e) => f a e end.

Definition lift {A} (o : outcome A) : E A := fun e => a ← o; Done (Some (a, e)).
Definition get : E editor := fun e => Done (Some (e, e)).
Definition gets {A} (f : editor -> A) : E A := fun e => Done (Some (f e, e)).
Definition put (f : editor -> editor) : E unit := fun e => Done (Some (tt, f e)).
Definition abort_bbs {A} : E A := fun _ => Done None.
Definition fault {A} : E A := fun _ => Fault.
Definition nofuel {A} : E A := fun _ => NoFuel.

(** Reading and changing a line through a pointer. *)
Definition deref (p : option nat) : E textline := fun e =>
  match p with
  | None => Fault
  | Some a => match heap e !! a with Some l => Done (Some (l, e)) | None => Fault end
  end.
Definition on_line (p : option nat) (f : textline -> textline) : E unit :=
  l ← deref p;
  match p with None => fault | Some a => put (fun e => set_heap (<[a := f l]> (heap e)) e) end.
Definition same (p q : option nat) : bool := bool_decide (p = q).

Section Editor.
(** What [malloc] leaves in a line, by address, and the lines of the screen. *)
Context (garbage : nat -> list Z) (screen_lines : Z).

(** * Moving between lines *)

(** A bound on the steps along the lines. *)
Definition steps : E nat := gets (fun e => S (base.size (heap e))).

Fixpoint back_line (num : nat) (pos : option nat) : E (option nat) :=
  match num with
  | O => mret pos
  | S num =>
      first ← gets can_edit_begin;
      if negb (same pos None) && negb (same pos first) then
        l ← deref pos;
        put (fun e => set_moveln (moveln e + 1) e);;
        back_line num (prev l)
      else mret pos
  end.

Fixpoint forward_line (num : nat) (pos : option nat) : E (option nat) :=
  match num with
  | O => mret pos
  | S num =>
      l ← deref pos;
      last ← gets can_edit_end;
      if negb (same (next l) None) && negb (same (next l) last) then
        put (fun e => set_moveln (moveln e + 1) e);;
        forward_line num (next l)
      else mret pos
  end.

Definition back_lines (pos : option nat) (num : Z) : E (option nat) :=
  put (set_moveln 0);; back_line (Z.to_nat num) pos.
Definition forward_lines (pos : option nat) (num : Z) : E (option nat) :=
  put (set_moveln 0);; forward_line (Z.to_nat num) pos.

Fixpoint count_loop (fuel : nat) (pos : option nat) : E unit :=
  match fuel with
  | O => nofuel
  | S fuel =>
      last ← gets can_edit_end;
      if same pos last then mret tt
      else
        l ← deref pos;
        if same (next l) None then mret tt
        else put (fun e => set_moveln (moveln e + 1) e);; count_loop fuel (next l)
  end.

Definition countline : E unit :=
  put (set_moveln 0);; n ← steps; first ← gets can_edit_begin; count_loop n first.

Fixpoint lineno_loop (fuel : nat) (p : option nat) (cnt : Z) : E Z :=
  match fuel with
  | O => nofuel
  | S fuel =>
      top ← gets top_of_win;
      if same p top || same p None then mret cnt
      else l ← deref p; lineno_loop fuel (prev l) (cnt + 1)
  end.

Definition getlineno : E Z := n ← steps; p ← gets currline; lineno_loop n p 0.

Fixpoint killsp_loop (fuel : nat) (s : list Z) (p : Z) : outcome Z :=
  match fuel with
  | O => NoFuel
  | S fuel => c ← rd s p; if c =? 32 then killsp_loop fuel s (p + 1) else Done p
  end.

(** The offset of the first character that is not a space. *)
Definition killsp (s : list Z) : outcome Z := killsp_loop (length s + 1) s 0.

(** [malloc] does not fail. *)
Definition alloc_line : E (option nat) :=
  h ← gets heap;
  let a := fresh (dom h) in
  d ← lift (wr (garbage a) 0 0);
  put (set_heap (<[a := Textline None None 0 0 d]> h));;
  mret (Some a).

(** The loop ends at line [n] or at the last one. *)
Fixpoint go_loop (fuel : nat) (p : option nat) (count n : Z) : E (option nat * Z) :=
  match fuel with
  | O => nofuel
  | S fuel =>
      if count <? n then
        match p with
        | None => mret (p, count)
        | Some _ =>
            l ← deref p;
            last ← gets can_edit_end;
            if negb (same (next l) last) then go_loop fuel (next l) (count + 1) n else mret (p, count)
        end
      else mret (p, count)
  end.

Definition goline (n : Z) : E unit :=
  let n := if n <? 0 then 1 else n in
  if n =? 0 then mret tt
  else
    fuel ← steps;
    first ← gets can_edit_begin;
    '(p, count) ← go_loop fuel first 1 n;
    let count := if count =? n then count - 1 else count in
    put (fun e => set_currline p (set_top_of_win p (set_curr_window_line 0 (set_currln (count - 1) e)))).

(** [strstr]: where the string [t] first is in [s]. *)
Fixpoint strstr_at (s t : list Z) (p : Z) : option Z :=
  if bool_decide (take (length t) s = t) then Some p
  else match s with [] => None | _ :: s => strstr_at s t (p + 1) end.

Definition strstr (m : list Z) (p : Z) (t : list Z) : outcome (option Z) :=
  s ← cstring m p; Done (strstr_at s t p).

(** The line and the offset after the text found, and the lines looked at. *)
Fixpoint search_loop (fuel : nat) (text : list Z) (p : option nat) (count : Z) : E (option (option nat * Z) * Z) :=
  match fuel with
  | O => nofuel
  | S fuel =>
      last ← gets can_edit_end;
      if same p None || same p last then mret (None, count)
      else
        l ← deref p;
        pnt ← gets currpnt;
        let count := count + 1 in
        let off := if count =? 1 then pnt else 0 in
        r ← lift (strstr (data l) off text);
        match r with
        | Some addr => mret (Some (p, addr + blen text), count)
        | None => search_loop fuel text (next l) count
        end
  end.

Definition searchline (text : list Z) : E unit :=
  n ← steps;
  p ← gets currline;
  '(r, count) ← search_loop n text p 0;
  match r with
  | Some (p, pnt) =>
      put (fun e => set_currline p (set_top_of_win p (set_curr_window_line 0
        (set_currln (currln e + count - 1) (set_currpnt pnt e)))))
  | None => ln ← gets currln; goline (ln + 1)
  end.

(** * The list of lines *)

Definition append (p line : option nat) : E unit :=
  if same p None then mret tt
  else
    l ← deref line;
    on_line p (set_next (next l));;
    put (fun e => if same line (can_edit_end e) then set_can_edit_end p e else e);;
    (if same (next l) None then mret tt else on_line (next l) (set_prev p));;
    on_line line (set_next p);;
    on_line p (set_prev line).

Definition delete_line (line : option nat) : E unit :=
  if same line None then mret tt
  else
    l ← deref line;
    e ← get;
    if same line (can_edit_begin e) && same (next l) (can_edit_end e) then
      d ← lift (wr (data l) 0 0);
      on_line line (fun l => set_attr (Z.land (attr l) (Z.lnot M_MARK)) (set_len 0 (set_data d l)));;
      put (fun e => set_currpnt 0 (set_mark_end None (set_mark_begin None e)))
    else
      put (fun e => if same (mark_begin e) line
                    then set_mark_begin (if same (next l) (can_edit_end e) then None else next l) e else e);;
      put (fun e => if same (mark_end e) line
                    then set_mark_end (if same line (can_edit_begin e) then None else prev l) e else e);;
      put (fun e => if same line (can_edit_begin e) then set_can_edit_begin (next l) e else e);;
      first ← gets firstline;
      (if same line first then
         on_line (next l) (set_prev None);; put (set_firstline (next l))
       else
         on_line (next l) (set_prev (prev l));; on_line (prev l) (set_next (next l)));;
      put (fun e => match line with Some a => set_heap (delete a (heap e)) e | None => e end).

(** How many bytes before [i] have the high bit. *)
Fixpoint high_run (fuel : nat) (d : list Z) (i patch : Z) : outcome Z :=
  match fuel with
  | O => NoFuel
  | S fuel =>
      if 0 <=? i then
        c ← rd d i;
        if Z.land c 128 =? 0 then Done patch else high_run fuel d (i - 1) (patch + 1)
      else Done patch
  end.

Definition high_before (d : list Z) (pos : Z) : outcome Z := high_run (length d + 1) d (pos - 1) 0.

(** [strchr] of a set, which finds the NUL too. *)
Definition in_set (set : list Z) (c : Z) : bool := (c =? 0) || existsb (Z.eqb c) set.
Definition ansi_set : list Z := bytes "[0123456789;".

Fixpoint ansi_back (fuel : nat) (d : list Z) (i : Z) : outcome Z :=
  match fuel with
  | O => NoFuel
  | S fuel =>
      c ← rd d i;
      if (0 <? i) && negb (c =? KEY_ESC) && in_set ansi_set c then ansi_back fuel d (i - 1) else Done i
  end.

(** The place of the split, so that neither a character of two bytes nor an ANSI
    sequence is cut. The byte before [data] is [attr]. *)
Definition split_pos (l : textline) (pos : Z) : outcome Z :=
  c ← (if pos =? 0 then Done (attr l) else rd (data l) (pos - 1));
  pos ← (if Z.land c 128 =? 0 then Done pos
         else patch ← high_before (data l) pos;
              Done (if Z.rem patch 2 =? 0 then pos else pos - 1));
  if pos =? 0 then Done pos
  else
    c ← rd (data l) (pos - 1);
    if in_set (KEY_ESC :: ansi_set) c then
      i ← ansi_back (Z.to_nat pos + 1) (data l) (pos - 1);
      c ← rd (data l) i;
      Done (if c =? KEY_ESC then if pos - i <? 20 then i else pos - 1 else pos)
    else Done pos.

(** [strcpy] to the start of [dst]. *)
Definition strcpy (dst src : list Z) (p : Z) : outcome (list Z) := s ← cstring src p; wrn dst 0 (s ++ [0]).

Definition split (line : option nat) (pos : Z) : E unit :=
  l ← deref line;
  if len l <? pos then mret tt
  else
    pos ← lift (split_pos l pos);
    p ← alloc_line;
    lp ← deref p;
    d ← lift (strcpy (data lp) (data l) pos);
    on_line p (fun lp => set_attr (attr l) (set_data d (set_len (len l - pos) lp)));;
    dl ← lift (wr (data l) pos 0);
    on_line line (fun l => set_data dl (set_len pos l));;
    append p line;;
    put (fun e => if (same (mark_end e) None && same line (mark_begin e)) || same line (mark_end e)
                  then set_mark_end p e else e);;
    put (fun e => if same line (currline e) && (pos <=? currpnt e)
                  then set_currline p (set_currpnt (currpnt e - pos)
                         (set_curr_window_line (curr_window_line e + 1) (set_currln (currln e + 1) e)))
                  else e);;
    put (set_redraw_everything true).

Fixpoint seek_loop (str : list Z) (i num : Z) : Z :=
  match str with
  | [] => i
  | _ :: str => if num =? 0 then i else seek_loop str (i + 1) (num - 1)
  end.

(** The test for ANSI sequences does not change the result. *)
Definition seekthestr (m : list Z) (num : Z) : outcome Z := s ← cstring m 0; Done (seek_loop s 0 num).

(** The length of a line without its ANSI sequences. *)
Definition shown_len (l : textline) : outcome Z := n ← num_ans_chr (data l) 0; Done (len l - n).

(** [while (s != p->data && test) s--]. *)
Fixpoint while_back (fuel : nat) (test : Z -> bool) (d : list Z) (s : Z) : outcome Z :=
  match fuel with
  | O => NoFuel
  | S fuel =>
      if s =? 0 then Done s
      else c ← rd d s; if test c then while_back fuel test d (s - 1) else Done s
  end.

Definition is_space (c : Z) : bool := c =? 32.
Definition not_space (c : Z) : bool := negb (c =? 32).

Definition strcat (dst src : list Z) : outcome (list Z) :=
  n ← strlen dst 0; s ← cstring src 0; wrn dst n (s ++ [0]).

Definition marked (l : textline) : bool := negb (Z.land (attr l) M_MARK =? 0).

(** The recursive call joins at once. *)
Fixpoint join_loop (fuel : nat) (line : option nat) : E bool :=
  match fuel with
  | O => nofuel
  | S fuel =>
      l ← deref line;
      e ← get;
      if same (next l) None || same (next l) (can_edit_end e) then mret true
      else
        n ← deref (next l);
        c ← lift (rd (data n) 0);
        (if c =? 45 then d ← lift (wr (data n) 1 45); on_line (next l) (set_data d) else mret tt);;
        if (c =? 45) && (len n =? 2) then mret true
        else
          n ← deref (next l);
          a ← lift (shown_len l);
          b ← lift (shown_len n);
          let ovfl := a + b - linelen e in
          if ovfl <? 0 then
            d ← lift (strcat (data l) (data n));
            on_line line (fun l => set_len (len l + len n) (set_data d l));;
            (if marked n then on_line line (set_attr (attr n)) else mret tt);;
            put (fun e => if same (mark_begin e) (next l) then set_mark_begin line e else e);;
            put (fun e => if same (mark_end e) (next l) then set_mark_end line e else e);;
            delete_line (next l);;
            mret true
          else
            let p := next l in
            s ← lift (seekthestr (data n) (len n - ovfl - 1));
            s ← lift (while_back (length (data n) + 1) is_space (data n) s);
            s ← lift (while_back (length (data n) + 1) not_space (data n) s);
            if (s =? 0) || (8 <? linelen e - s) then mret true
            else
              split p (s + 1);;
              l ← deref line;
              n ← deref p;
              a ← lift (shown_len l);
              b ← lift (shown_len n);
              if linelen e <=? a + b then mret true
              else
                join_loop fuel line;;
                l ← deref line;
                p ← deref (next l);
                b ← lift (shown_len p);
                (if (1 <=? len p) && (b + 1 <? linelen e) then
                   c ← lift (rd (data p) (len p - 1));
                   if c =? 32 then mret tt
                   else d ← lift (strcat (data p) [32; 0]);
                        on_line (next l) (fun p => set_len (len p + 1) (set_data d p))
                 else mret tt);;
                mret false
  end.

Definition join (line : option nat) : E bool := join_loop 2 line.

(** [while (!join(p))] to the next lines; [missing] is what is done when there
    is none. *)
Fixpoint join_all (fuel : nat) (missing : E unit) (p : option nat) : E unit :=
  match fuel with
  | O => nofuel
  | S fuel =>
      done ← join p;
      if (done : bool) then mret tt
      else
        l ← deref p;
        if same (next l) None then missing else join_all fuel missing (next l)
  end.

(** * Changing the text *)

(** The loop that splits a line longer than the margin. *)
Fixpoint fit_loop (fuel : nat) (p : option nat) : E unit :=
  match fuel with
  | O => nofuel
  | S fuel =>
      l ← deref p;
      n ← lift (shown_len l);
      w ← gets linelen;
      if w <? n then
        k ← lift (seekthestr (data l) w);
        split p k;;
        l ← deref p;
        fit_loop fuel (next l)
      else mret tt
  end.

(** The byte stored at the cursor, over another one or before it. *)
Definition store_char (p : option nat) (ch : Z) : E unit :=
  l ← deref p;
  e ← get;
  if (currpnt e <? len l) && negb (insert_character e) then
    d ← lift (wr (data l) (currpnt e) ch);
    on_line p (set_data d);;
    put (set_currpnt (currpnt e + 1))
  else if len l <? WRAPMARGIN then
    d ← lift (if currpnt e <=? len l
              then memmove (data l) (currpnt e + 1) (currpnt e) (len l - currpnt e + 1) else Done (data l));
    d ← lift (wr d (currpnt e) ch);
    on_line p (fun l => set_len (len l + 1) (set_data d l));;
    put (set_currpnt (currpnt e + 1))
  else mret tt.

(** Where a line that is too long is cut, and whether that is between words. *)
Definition wrap_at (l : textline) : outcome (Z * bool) :=
  let fuel := (length (data l) + 1)%nat in
  s ← seekthestr (data l) (len l - 1);
  s ← while_back fuel is_space (data l) s;
  c ← rd (data l) s;
  '(s, wordwrap) ← (if Z.land c 128 =? 0 then
      s ← while_back fuel (fun c => not_space c && (Z.land c 128 =? 0)) (data l) s;
      c ← rd (data l) s;
      Done (s, is_space c)
    else Done (s, false));
  s ← (if (wordwrap : bool) then Done s else seekthestr (data l) (len l - 2));
  Done (s, wordwrap).

Definition insert_char (ch : Z) : E unit :=
  p ← gets currline;
  l ← deref p;
  pnt ← gets currpnt;
  if len l <? pnt then mret tt
  else
    i ← gets currln;
    fit_loop (Z.to_nat (len l) + 1) p;;
    put (set_currln i);;
    store_char p ch;;
    l ← deref p;
    n ← lift (shown_len l);
    w ← gets linelen;
    if (n <? w - 1) && (len l <? WRAPMARGIN) then mret tt
    else
      '(s, wordwrap) ← lift (wrap_at l);
      split p (s + 1);;
      l ← deref p;
      let p := next l in
      l ← deref p;
      (if (wordwrap : bool) && (1 <=? len l) then
         c ← lift (rd (data l) (len l - 1));
         if c =? 32 then mret tt
         else
           d ← lift (wr (data l) (len l) 32);
           d ← lift (wr d (len l + 1) 0);
           on_line p (fun l => set_len (len l + 1) (set_data d l))
       else mret tt);;
      n ← steps;
      join_all n (mret tt) p.

Fixpoint ve_insert_loop (str : list Z) : E unit :=
  match str with
  | [] => mret tt
  | c :: str => insert_char (schar c);; ve_insert_loop str
  end.

Definition ve_insert_str (m : list Z) : E unit := s ← lift (cstring m 0); ve_insert_loop s.

(** How many bytes the loop removes besides one, and how far the cursor goes back. *)
Definition char_at (l : textline) (pnt : Z) (dbchar : bool) : outcome (Z * bool) :=
  c ← rd (data l) pnt;
  if dbchar && negb (Z.land c 128 =? 0) then
    patch ← high_before (data l) pnt;
    if Z.rem patch 2 =? 0 then
      if pnt <? len l - 1 then c ← rd (data l) (pnt + 1); Done (if Z.land c 128 =? 0 then 0 else 1, false)
      else Done (0, false)
    else Done (1, true)
  else Done (0, false).

(** [data[i] = data[i + n]] for [i] from [i] on, [k] times. *)
Fixpoint shift_left (k : nat) (d : list Z) (i n : Z) : outcome (list Z) :=
  match k with
  | O => Done d
  | S k => c ← rd d (i + n); d ← wr d i c; shift_left k d (i + 1) n
  end.

Definition delete_char : E unit :=
  p ← gets currline;
  l ← deref p;
  e ← get;
  if (len l =? 0) || (len l <=? currpnt e) then mret tt
  else
    '(patch, dec) ← lift (char_at l (currpnt e) (enabledbchar e));
    let pnt := if (dec : bool) then currpnt e - 1 else currpnt e in
    put (set_currpnt pnt);;
    d ← lift (shift_left (Z.to_nat (len l - pnt)) (data l) pnt (1 + patch));
    on_line p (fun l => set_len (len l - 1 - (if patch =? 0 then 0 else 1)) (set_data d l)).

(** * Files *)

(** The lines written, and whether one has an escape character. *)
Fixpoint fp_loop (fuel : nat) (p : option nat) : E (list (list Z) * bool) :=
  match fuel with
  | O => nofuel
  | S fuel =>
      last ← gets can_edit_end;
      if same p last then mret ([] : list (list Z), false)
      else
        l ← deref p;
        s ← lift (cstring (data l) 0);
        '(rest, ansi) ← fp_loop fuel (next l);
        mret (match s with
              | [] => (rest, ansi)
              | _ => (s :: rest, bool_decide (KEY_ESC ∈ s) || ansi)
              end)
  end.

Definition ANSI_RESET : list Z := [27] ++ bytes "[0m".

Definition insert_to_fp : E (list Z) :=
  n ← steps;
  first ← gets can_edit_begin;
  '(ls, ansi) ← fp_loop n first;
  mret (text_of ls ++ (if (ansi : bool) then ANSI_RESET ++ [10] else [])).

(** [do insert_char(' ') while (currpnt & 3)]; the margin is wider than that. *)
Fixpoint tab_loop (fuel : nat) : E unit :=
  match fuel with
  | O => nofuel
  | S fuel =>
      insert_char 32;;
      pnt ← gets currpnt;
      if Z.land pnt 3 =? 0 then mret tt else tab_loop fuel
  end.

Definition insertch_from_fp (ch : Z) : E unit :=
  e ← get;
  put (set_linelen WRAPMARGIN);;
  (if isprint2 ch || (ch =? 27) then
     if currpnt e <? 254 then insert_char ch
     else if currpnt e <? 255 then insert_char 46 else mret tt
   else if ch =? Ctrl 73 then tab_loop 256
   else if ch =? 10 then split (currline e) (currpnt e)
   else mret tt);;
  put (set_linelen (linelen e)).

(** The bytes of the file, as [char]s. *)
Fixpoint insert_from_fp (content : list Z) : E unit :=
  match content with
  | [] => mret tt
  | c :: content => insertch_from_fp (schar c);; insert_from_fp content
  end.

(** * Marks *)

(** [p->attr &= ~M_MARK] from [p] to the end. *)
Fixpoint unmark_loop (fuel : nat) (p : option nat) : E unit :=
  match fuel with
  | O => nofuel
  | S fuel =>
      last ← gets can_edit_end;
      if same p None || same p last then mret tt
      else
        on_line p (fun l => set_attr (Z.land (attr l) (Z.lnot M_MARK)) l);;
        l ← deref p; unmark_loop fuel (next l)
  end.

Definition unmark_all : E unit := n ← steps; first ← gets can_edit_begin; unmark_loop n first.

Definition set_mark (p : option nat) : E unit := on_line p (fun l => set_attr (Z.lor (attr l) M_MARK) l).

Fixpoint block_loop (fuel : nat) (p : option nat) (pass_mark : Z) : E unit :=
  match fuel with
  | O => nofuel
  | S fuel =>
      e ← get;
      if same p (can_edit_end e) then mret tt
      else
        let hit := same p (mark_begin e) || same p (mark_end e) in
        (if hit || (pass_mark =? 1) then set_mark p
         else on_line p (fun l => set_attr (Z.land (attr l) (Z.lnot M_MARK)) l));;
        l ← deref p; block_loop fuel (next l) (if hit then pass_mark + 1 else pass_mark)
  end.

Definition mark_block : E Z :=
  unmark_all;;
  e ← get;
  if same (mark_begin e) None && same (mark_end e) None then mret 0
  else if same (mark_begin e) (mark_end e) then set_mark (mark_begin e);; mret 2
  else if same (mark_begin e) None then set_mark (mark_end e);; mret 1
  else if same (mark_end e) None then set_mark (mark_begin e);; mret 1
  else n ← steps; block_loop n (can_edit_begin e) 0;; mret 2.

Definition clear_mark : E unit := put (fun e => set_mark_end None (set_mark_begin None (set_mark_on 0 e))).

(** The marked lines from [p], pasted at the cursor. The text that is pasted may
    grow the list while it is read. *)
Fixpoint paste_loop (fuel : nat) (p : option nat) : E unit :=
  match fuel with
  | O => nofuel
  | S fuel =>
      last ← gets can_edit_end;
      if same p last then mret tt
      else
        l ← deref p;
        if marked l then
          ve_insert_str (data l);;
          e ← get;
          split (currline e) (currpnt e);;
          l ← deref p; paste_loop fuel (next l)
        else mret tt
  end.

(** The marked lines are deleted, from the start after every one. *)
Fixpoint remove_loop (fuel : nat) (p : option nat) : E unit :=
  match fuel with
  | O => nofuel
  | S fuel =>
      e ← get;
      if same p (can_edit_end e) then mret tt
      else
        l ← deref p;
        if marked l then delete_line p;; first ← gets can_edit_begin; remove_loop fuel first
        else remove_loop fuel (next l)
  end.

(** The message is left out. *)
Definition process_MARK_action (fuel : nat) (arg : Z) : E unit :=
  if arg =? 48 then unmark_all;; clear_mark
  else if arg =? 49 then
    put (fun e => if same (mark_begin e) None then set_mark_begin (currline e) e else set_mark_end (currline e) e);;
    m ← mark_block; put (set_mark_on m)
  else if arg =? 50 then
    m ← mark_block;
    put (set_mark_on m);;
    e ← get;
    l ← deref (currline e);
    if negb (m =? 0) && negb (marked l) then paste_loop fuel (mark_begin e) else mret tt
  else if arg =? 51 then
    m ← mark_block;
    put (set_mark_on m);;
    if m =? 0 then mret tt
    else first ← gets can_edit_begin; remove_loop fuel first;; clear_mark;; goline 1
  else mret tt.

(** The marked lines that are exported. *)
Fixpoint marked_loop (fuel : nat) (p : option nat) : E (list (list Z)) :=
  match fuel with
  | O => nofuel
  | S fuel =>
      last ← gets can_edit_end;
      if same p last then mret []
      else
        l ← deref p;
        if marked l then s ← lift (cstring (data l) 0); rest ← marked_loop fuel (next l); mret (s :: rest)
        else mret []
  end.

(** [set]: the width of a line, as it is typed. *)
Definition set_width (line : list Z) : E unit :=
  match line with
  | [] => mret tt
  | _ =>
      n ← lift (PostParse.strtol (line ++ [0]) 0);
      let w := n + 1 in
      put (set_linelen (if w <? 11 then 11 else if WRAPMARGIN <? w then WRAPMARGIN else w))
  end.

Definition go (line : list Z) : E unit :=
  match line with [] => mret tt | _ => n ← lift (PostParse.strtol (line ++ [0]) 0); goline n end.

Definition search (line : list Z) : E unit :=
  match line with [] => mret tt | _ => put (set_searchtext line);; searchline line end.

(** The actions that change the text leave a message or not, and the screen is
    drawn again after those in [strchr("FBRCM", action)]. [page] is the clipboard
    that is read, when there is one, [line] what is typed; the result is what is
    written to the clipboard. *)
Definition process_ESC_action (fuel : nat) (action arg : Z) (page : option (list Z)) (line : list Z) : E (option (list Z)) :=
  let quiet (m : E unit) : E (option (list Z)) := m;; mret None in
  let redraw := put (set_redraw_everything true) in
  r ← (if action =? 77 then quiet (process_MARK_action fuel arg)
       else if action =? 73 then quiet (match page with Some content => insert_from_fp content | None => mret tt end)
       else if action =? 88 then quiet (set_width line)
       else if action =? 71 then quiet (go line;; redraw)
       else if action =? 69 then
         e ← get;
         if negb (mark_on e =? 0) then n ← steps; ls ← marked_loop n (mark_begin e); mret (Some (text_of ls))
         else t ← insert_to_fp; mret (Some t)
       else if action =? 78 then quiet (t ← gets searchtext; searchline t;; redraw)
       else if action =? 83 then quiet (search line;; redraw)
       else if action =? 70 then quiet (ve_insert_loop ([27] ++ bytes "[3" ++ [arg] ++ bytes "m"))
       else if action =? 66 then quiet (ve_insert_loop ([27] ++ bytes "[4" ++ [arg] ++ bytes "m"))
       else if action =? 82 then quiet (ve_insert_loop ANSI_RESET)
       else mret None);
  (if existsb (Z.eqb action) (bytes "FBRCM") then redraw else mret tt);;
  mret r.

(** * Starting and ending *)

(** Before the first text nothing is allocated. *)
Definition editor0 : editor :=
  Editor ∅ None None None None None None None 0 [] 0 0 0 0 false true WRAPMARGIN 0 false true (-1).

Definition vedit_init : E unit :=
  p ← alloc_line;
  put (fun e => set_firstline p (set_can_edit_begin p (set_currline p (set_currpnt 0 e))));;
  unmark_all;; clear_mark;;
  put (set_top_of_win p);;
  q ← alloc_line;
  on_line p (set_next q);;
  on_line q (set_prev p);;
  put (fun e => set_can_edit_end q (set_curr_window_line 0 (set_currln 0 (set_redraw_everything false e))));;
  clear_mark.

(** Backwards to the line with the text [tmp], or to the first one. *)
Fixpoint source_loop (fuel : nat) (tmp : list Z) (p : option nat) : E (option nat) :=
  match fuel with
  | O => nofuel
  | S fuel =>
      first ← gets can_edit_begin;
      if same p first then mret p
      else
        l ← deref p;
        r ← lift (strstr (data l) 0 tmp);
        c ← lift (rd (data l) 0);
        match r with
        | Some _ => if c =? 58 then source_loop fuel tmp (prev l) else put (set_can_edit_end p);; mret p
        | None => source_loop fuel tmp (prev l)
        end
  end.

(** [content]: the file, that is made when there is none; [tmp]: the mark of the
    site. *)
Definition read_file (content : option (list Z)) (tmp : list Z) : E Z :=
  e ← get;
  (if same (currline e) None then vedit_init else mret tt);;
  match content with
  | None => mret 0
  | Some content =>
      insert_from_fp content;;
      n ← steps;
      last ← gets can_edit_end;
      p ← source_loop n tmp last;
      last ← gets can_edit_end;
      mret (if negb (same p last) then 1 else 0)
  end.

(** * Keys *)

Definition KEY_DOWN : Z := 0x0102.
Definition KEY_RIGHT : Z := 0x0103.
Definition KEY_LEFT : Z := 0x0104.
Definition KEY_INS : Z := 0x0202.
Definition KEY_DEL : Z := 0x0203.
Definition KEY_BACKSPACE : Z := 0x7f.
Definition KEY_END : Z := 0x0204.
Definition KEY_PGUP : Z := 0x0205.
Definition KEY_PGDN : Z := 0x0206.

(** A tab is at most four spaces. *)
Fixpoint key_tab (count : nat) : E unit :=
  match count with
  | O => mret tt
  | S count =>
      insert_char 32;;
      pnt ← gets currpnt;
      if Z.land pnt 3 =? 0 then mret tt else key_tab count
  end.

Definition up_a_line : E unit := put (fun e =>
  set_currln (currln e - 1) (set_curr_window_line (curr_window_line e - 1) e)).
Definition down_a_line : E unit := put (fun e =>
  set_currln (currln e + 1) (set_curr_window_line (curr_window_line e + 1) e)).

Definition key_left : E unit :=
  e ← get;
  if 0 <? currpnt e then put (set_currpnt (currpnt e - 1))
  else
    l ← deref (currline e);
    if negb (same (currline e) (can_edit_begin e)) && negb (same (prev l) None) then
      up_a_line;; p ← deref (prev l); put (fun e => set_currline (prev l) (set_currpnt (len p) e))
    else mret tt.

Definition key_right : E unit :=
  e ← get;
  l ← deref (currline e);
  if negb (len l =? currpnt e) then put (set_currpnt (currpnt e + 1))
  else if negb (same (next l) None) && negb (same (next l) (can_edit_end e)) then
    down_a_line;; put (fun e => set_currline (next l) (set_currpnt 0 e))
  else mret tt.

(** The column kept while the cursor moves between lines. *)
Definition indent_to (p : option nat) : E unit :=
  l ← deref p;
  put (fun e => set_currline p (set_currpnt (if lastindent e <? len l then lastindent e else len l) e)).

Definition key_up : E unit :=
  e ← get;
  if negb (same (currline e) (can_edit_begin e)) then
    up_a_line;; l ← deref (currline e); indent_to (prev l)
  else mret tt.

Definition key_down : E unit :=
  e ← get;
  l ← deref (currline e);
  if negb (same (next l) (can_edit_end e)) then down_a_line;; indent_to (next l) else mret tt.

(** The cursor after a page: on its line in the window, within the line. *)
Definition place_cursor : E unit :=
  n ← getlineno;
  put (set_curr_window_line n);;
  e ← get;
  l ← deref (currline e);
  put (fun e => set_redraw_everything true (if len l <? currpnt e then set_currpnt (len l) e else e)).

Definition key_pgup : E unit :=
  e ← get;
  top ← back_lines (top_of_win e) (screen_lines - 2);
  put (set_top_of_win top);;
  cur ← back_lines (currline e) (screen_lines - 2);
  put (fun e => set_currline cur (set_currln (currln e - moveln e) e));;
  place_cursor.

Definition key_pgdn : E unit :=
  e ← get;
  top ← forward_lines (top_of_win e) 22;
  put (set_top_of_win top);;
  cur ← forward_lines (currline e) 22;
  put (fun e => set_currline cur (set_currln (currln e + moveln e) e));;
  place_cursor.

Definition key_end : E unit := e ← get; l ← deref (currline e); put (set_currpnt (len l)).

Definition key_top : E unit := put (fun e =>
  set_top_of_win (can_edit_begin e) (set_currline (can_edit_begin e) (set_currpnt 0
    (set_curr_window_line 0 (set_currln 0 (set_redraw_everything true e)))))).

Definition key_tail : E unit :=
  e ← get;
  l ← deref (can_edit_end e);
  top ← back_lines (prev l) 22;
  put (set_top_of_win top);;
  countline;;
  put (fun e => set_currline (prev l) (set_currln (moveln e) e));;
  n ← getlineno;
  put (fun e => set_redraw_everything true (set_currpnt 0 (set_curr_window_line n e))).

(** The join of a line with the one after it, however far it wraps. *)
Definition join_redraw (p : option nat) : E unit :=
  n ← steps; join_all n abort_bbs p;; put (set_redraw_everything true).

Definition key_backspace : E unit :=
  e ← get;
  if currpnt e =? 0 then
    if same (currline e) (can_edit_begin e) then mret tt
    else
      l ← deref (currline e);
      let p := prev l in
      up_a_line;;
      lp ← deref p;
      put (fun e => set_currline p (set_currpnt (len lp) e));;
      e ← get;
      (if curr_window_line e <? 0 then t ← deref (top_of_win e); put (set_top_of_win (next t)) else mret tt);;
      n ← deref (next lp);
      i ← lift (killsp (data n));
      c ← lift (rd (data n) i);
      if c =? 0 then delete_line (next lp);; put (set_redraw_everything true) else join_redraw p
  else put (set_currpnt (currpnt e - 1));; delete_char.

(** Deleting to the end of the line, or the line end, or an empty line. *)
Definition kill_line : E unit :=
  e ← get;
  let p := currline e in
  l ← deref p;
  if same (next l) (can_edit_end e) then
    let n := if currpnt e <? len l then currpnt e else if negb (currpnt e =? 0) then 0 else len l in
    let pnt := if (currpnt e <? len l) || (currpnt e =? 0) then currpnt e else 0 in
    d ← lift (wr (data l) pnt 0);
    on_line p (fun l => set_len n (set_data d l));;
    put (set_currpnt pnt)
  else if len l =? 0 then
    put (fun e => if same p (top_of_win e) then set_top_of_win (next l) e else e);;
    delete_line p;;
    put (fun e => set_currline (next l) (set_redraw_everything true e))
  else if len l =? currpnt e then join_redraw p
  else
    patch ← lift (high_before (data l) (currpnt e));
    let pnt := if Z.rem patch 2 =? 0 then currpnt e else currpnt e - 1 in
    d ← lift (wr (data l) pnt 0);
    on_line p (fun l => set_len pnt (set_data d l));;
    put (set_currpnt pnt).

(** The window follows the cursor. *)
Fixpoint scroll_window (n : nat) : E unit :=
  match n with
  | O => mret tt
  | S n =>
      put (fun e => set_curr_window_line (curr_window_line e - 1) e);;
      e ← get;
      t ← deref (top_of_win e);
      (if negb (same (next t) (can_edit_end e)) then put (fun e => set_top_of_win (next t) (set_redraw_everything true e))
       else mret tt);;
      scroll_window n
  end.

Definition follow_cursor : E unit :=
  e ← get;
  (if curr_window_line e <? 0 then
     put (set_curr_window_line 0);;
     if negb (same (top_of_win e) (can_edit_begin e)) then
       t ← deref (top_of_win e); put (fun e => set_top_of_win (prev t) (set_redraw_everything true e))
     else mret tt
   else mret tt);;
  e ← get;
  (if screen_lines - 1 <=? curr_window_line e
   then scroll_window (Z.to_nat (curr_window_line e - screen_lines + 2)) else mret tt);;
  put (fun e => if editansi e then set_redraw_everything true e else e).

Definition window_shift (pnt : Z) : Z :=
  if STRLEN <? pnt + 2 then Z.quot pnt (STRLEN - scrollen) * (STRLEN - scrollen) else 0.

Definition follow_shift : E unit := put (fun e =>
  let shift := window_shift (currpnt e) in
  if negb (shifttmp e =? shift) || redraw_everything e
  then set_redraw_everything true (set_shifttmp shift e) else set_redraw_everything false e).

Definition moves_between_lines (ch : Z) : bool :=
  (ch =? Ctrl 80) || (ch =? KEY_UP) || (ch =? Ctrl 78) || (ch =? KEY_DOWN).

(** The keys that call [vedit_key] again do it once. What is shown is left out. *)
Fixpoint vedit_key (fuel : nat) (ch : Z) : E unit :=
  match fuel with
  | O => nofuel
  | S fuel =>
      put (fun e => if moves_between_lines ch
                    then if lastindent e =? -1 then set_lastindent (currpnt e) e else e
                    else set_lastindent (-1) e);;
      e ← get;
      l ← deref (currline e);
      no_touch ← (if editansi e then s ← lift (cstring (data l) 0); mret (bool_decide (KEY_ESC ∈ s)) else mret false);
      let modify (m : E unit) := if (no_touch : bool) then mret tt else m in
      (if (ch <? 0x100) && isprint2 ch then modify (insert_char ch)
       else if ch =? Ctrl 73 then modify (key_tab 4)
       else if (ch =? 13) || (ch =? 10) then modify (split (currline e) (currpnt e))
       else if ch =? Ctrl 82 then put (fun e => set_enabledbchar (negb (enabledbchar e)) e)
       else if ch =? Ctrl 71 then put (set_redraw_everything true)
       else if ch =? Ctrl 81 then put (set_redraw_everything true)
       else if ch =? KEY_LEFT then key_left
       else if ch =? Ctrl 67 then n ← steps; process_ESC_action (n * 256) 77 50 None [];; mret tt
       else if ch =? Ctrl 85 then process_ESC_action 0 77 49 None [];; mret tt
       else if (ch =? Ctrl 86) || (ch =? KEY_RIGHT) then key_right
       else if (ch =? Ctrl 80) || (ch =? KEY_UP) then key_up
       else if (ch =? Ctrl 78) || (ch =? KEY_DOWN) then key_down
       else if (ch =? Ctrl 66) || (ch =? KEY_PGUP) then key_pgup
       else if (ch =? Ctrl 70) || (ch =? KEY_PGDN) then key_pgdn
       else if (ch =? Ctrl 65) || (ch =? KEY_HOME) then put (set_currpnt 0)
       else if (ch =? Ctrl 69) || (ch =? KEY_END) then key_end
       else if ch =? Ctrl 83 then key_top
       else if ch =? Ctrl 84 then key_tail
       else if (ch =? Ctrl 79) || (ch =? KEY_INS) then put (fun e => set_insert_character (negb (insert_character e)) e)
       else if (ch =? Ctrl 72) || (ch =? KEY_BACKSPACE) then modify key_backspace
       else if (ch =? Ctrl 68) || (ch =? KEY_DEL) then
         modify (if len l =? currpnt e then vedit_key fuel (Ctrl 75) else delete_char)
       else if ch =? Ctrl 89 then
         put (set_currpnt 0);; on_line (currline e) (set_len 0);; vedit_key fuel (Ctrl 75)
       else if ch =? Ctrl 75 then modify kill_line
       else mret tt);;
      follow_cursor;;
      follow_shift
  end.

(** * Writing the text *)

(** The lines from the last one back that are empty are freed; the last one
    that stays. *)
Fixpoint trim_loop (fuel : nat) (p : option nat) : E (option nat) :=
  match fuel with
  | O => nofuel
  | S fuel =>
      l ← deref p;
      first ← gets can_edit_begin;
      s ← lift (cstring (data l) 0);
      if negb (same p first) && (bool_decide (s = []) || bool_decide (s = [10])) then
        put (fun e => match p with Some a => set_heap (delete a (heap e)) e | None => e end);;
        on_line (prev l) (set_next None);;
        trim_loop fuel (prev l)
      else mret p
  end.

Fixpoint last_loop (fuel : nat) (p : option nat) : E (option nat) :=
  match fuel with
  | O => nofuel
  | S fuel => l ← deref p; if same (next l) None then mret p else last_loop fuel (next l)
  end.

(** Every line from [p] is freed; those that [keep] are written. *)
Fixpoint free_loop (fuel : nat) (keep : list Z -> bool) (p : option nat) : E (list (list Z)) :=
  match fuel with
  | O => nofuel
  | S fuel =>
      match p with
      | None => mret []
      | Some a =>
          l ← deref p;
          s ← lift (cstring (data l) 0);
          put (fun e => set_heap (delete a (heap e)) e);;
          rest ← free_loop fuel keep (next l);
          mret (if keep s then s :: rest else rest)
      end
  end.

(** The mark of an edited post. *)
Definition EDIT_MARK : list Z :=
  [27] ++ bytes "[m" ++ [27] ++ bytes "[1;36m" ++ [0xa1; 0xf9; 0x20; 0xd0; 0xde; 0xb8; 0xc4].

(** The lines of [write_file]: what is written when the text is kept. *)
Definition write_lines (aborted : bool) : E (list Z) :=
  n ← steps;
  last ← gets can_edit_end;
  last ← (if same last None then mret last else last_loop n last);
  p ← trim_loop n last;
  put (set_can_edit_end p);;
  first ← gets firstline;
  ls ← free_loop n (fun s => negb aborted && negb (bool_decide (take 17 s = EDIT_MARK))) first;
  put (fun e => set_currline None (set_can_edit_end None (set_firstline None (set_can_edit_begin None e))));;
  mret (text_of ls).

(** What [keep_fail_post] writes; nothing when the file cannot be opened. *)
Fixpoint keep_loop (fuel : nat) (p : option nat) : E (list (list Z)) :=
  match fuel with
  | O => nofuel
  | S fuel =>
      match p with
      | None => mret []
      | Some a =>
          l ← deref p;
          s ← lift (cstring (data l) 0);
          put (fun e => set_heap (delete a (heap e)) e);;
          rest ← keep_loop fuel (next l);
          mret (if same (next l) None && bool_decide (s = []) then rest else s :: rest)
      end
  end.

Definition keep_fail_post (opened : bool) : E (list Z) :=
  if opened then n ← steps; first ← gets firstline; ls ← keep_loop n first; mret (text_of ls) else mret [].

(** The header of a post is not edited: the text starts after its empty line. *)
Fixpoint header_loop (fuel : nat) (top : option nat) : E (option nat) :=
  match fuel with
  | O => nofuel
  | S fuel =>
      l ← deref top;
      last ← gets can_edit_end;
      if negb (same (next l) last) && (0 <? len l) then header_loop fuel (next l) else mret top
  end.

Definition start_edit (content : option (list Z)) (tmp : list Z) (modifyheader : bool) : E Z :=
  addfrom ← read_file content tmp;
  (if modifyheader then mret tt
   else
     n ← steps;
     first ← gets firstline;
     top ← header_loop n first;
     l ← deref top;
     last ← gets can_edit_end;
     let top := if same (next l) last then top else next l in
     put (fun e => set_can_edit_begin top (set_top_of_win top e)));;
  put (fun e => set_currline (top_of_win e) (set_curr_window_line 0 (set_currln 0 (set_currpnt 0 e))));;
  mret addfrom.
End Editor.

(** * Examples *)

Definition zeros (_ : nat) : list Z := replicate 256 7.

Fixpoint press (ks : list Z) : E unit :=
  match ks with [] => mret tt | k :: ks => vedit_key zeros 24 2 k;; press ks end.

Definition session (content keys : list Z) : E (list Z) :=
  start_edit zeros (Some content) (bytes ":BBS") true;; press keys;; write_lines false.

Definition typed (content keys : list Z) : outcome (option (list Z)) :=
  match session content keys editor0 with
  | Done (Some (t, _)) => Done (Some t)
  | Done None => Done None
  | Fault => Fault
  | NoFuel => NoFuel
  end.

Example typing : typed [] (bytes "hello" ++ [13] ++ bytes "world" ++ [KEY_UP; KEY_HOME; KEY_DEL] ++ bytes "J") =
  Done (Some (bytes "Jello" ++ [10] ++ bytes "world" ++ [10])).
Proof. by vm_compute. Qed.

Example joining : typed (bytes "ab" ++ [10] ++ bytes "cd" ++ [10]) [KEY_DOWN; KEY_HOME; KEY_BACKSPACE; 88] =
  Done (Some (bytes "abXcd" ++ [10])).
Proof. by vm_compute. Qed.

(** The second character of a line that starts with a dash is lost in a join. *)
Example join_overwrites : typed (bytes "ab" ++ [10] ++ bytes "-cd" ++ [10]) [KEY_DOWN; KEY_HOME; KEY_BACKSPACE] =
  Done (Some (bytes "ab--d" ++ [10])).
Proof. by vm_compute. Qed.

(** At the end of the last line the key that deletes what follows deletes what is
    before. *)
Example kill_erases : typed (bytes "ab" ++ [10] ++ bytes "cd") [KEY_DOWN; KEY_END; Ctrl 75] =
  Done (Some (bytes "ab" ++ [10])).
Proof. by vm_compute. Qed.
