(* ===== verification/EditSpec.v ===== *)
(** What the operations of the editor do to the text, as a list of lines. *)
From stdpp Require Import gmap.
From S2P Require Import Prelude CString Terminal Screen PostParse Edit.

(** * The list of lines in the heap *)

(** A line holds a text, with a NUL after it. *)
Definition holds (l : textline) (t : list Z) : Prop :=
  len l = blen t /\ nul_free t /\ blen (data l) = 256 /\ exists rest, data l = t ++ 0 :: rest.

(** The address at the start of a list, or else what follows it, and the one at
    its end, or else what is before it. *)
Definition hd (nx : option nat) (ids : list nat) : option nat := match ids with [] => nx | a :: _ => Some a end.
Fixpoint lst (pv : option nat) (ids : list nat) : option nat := match ids with [] => pv | a :: ids => lst (Some a) ids end.

(** The lines at [ids] hold [ts] and are linked between [pv] and [nx]. *)
Fixpoint seg (h : gmap nat textline) (pv : option nat) (ids : list nat) (ts : list (list Z)) (nx : option nat) : Prop :=
  match ids, ts with
  | [], [] => True
  | a :: ids, t :: ts =>
      (exists l, h !! a = Some l /\ prev l = pv /\ next l = hd nx ids /\ holds l t) /\ seg h (Some a) ids ts nx
  | _, _ => False
  end.

Lemma seg_length h pv ids ts nx : seg h pv ids ts nx -> length ids = length ts.
Proof. revert pv ts. induction ids as [|a ids IH]; intros pv [|t ts]; cbn; try done. intros [_ H]. f_equal. by eapply IH. Qed.

Lemma seg_app h pv xs ys us vs nx : length xs = length us ->
  seg h pv (xs ++ ys) (us ++ vs) nx <-> seg h pv xs us (hd nx ys) /\ seg h (lst pv xs) ys vs nx.
Proof.
  revert pv us. induction xs as [|a xs IH]; intros pv us Hl; destruct us as [|u us]; try done.
  - cbn. tauto.
  - cbn [app seg lst]. rewrite IH by (cbn in Hl; lia).
    replace (hd nx (xs ++ ys)) with (hd (hd nx ys) xs) by (by destruct xs). tauto.
Qed.

Lemma seg_frame h h' pv ids ts nx : (forall a, a ∈ ids -> h' !! a = h !! a) -> seg h pv ids ts nx -> seg h' pv ids ts nx.
Proof.
  revert pv ts. induction ids as [|a ids IH]; intros pv [|t ts] Hf; cbn; try done.
  intros [(l & Hl & Hr) H]. split; [exists l; by rewrite Hf by set_solver|]. apply IH; [set_solver|done].
Qed.

Lemma seg_dom h pv ids ts nx a : seg h pv ids ts nx -> a ∈ ids -> exists l, h !! a = Some l.
Proof.
  revert pv ts. induction ids as [|b ids IH]; intros pv [|t ts]; cbn; set_solver.
Qed.

(** Only the first line refers to what is before. *)
Lemma seg_relink h h' pv pv' ids ts nx : NoDup ids -> seg h pv ids ts nx ->
  (forall a, a ∈ tail ids -> h' !! a = h !! a) ->
  (forall a l, head ids = Some a -> h !! a = Some l -> h' !! a = Some (set_prev pv' l)) -> seg h' pv' ids ts nx.
Proof.
  destruct ids as [|a ids], ts as [|t ts]; cbn; try done. intros Hn [(l & Hl & _ & Hnx & Hh) Hs] Hf Hp.
  split; [|by eapply seg_frame]. exists (set_prev pv' l). split; [by apply Hp|]. done.
Qed.

(** Only the last line refers to what is after. *)
Lemma seg_relink_end h h' pv xs c us t nx nx' : NoDup (xs ++ [c]) -> length xs = length us ->
  seg h pv (xs ++ [c]) (us ++ [t]) nx -> (forall a, a ∈ xs -> h' !! a = h !! a) ->
  (forall l, h !! c = Some l -> h' !! c = Some (set_next nx' l)) -> seg h' pv (xs ++ [c]) (us ++ [t]) nx'.
Proof.
  intros Hn Hlen Hs Hf Hc. rewrite seg_app in * by done. destruct Hs as [H1 [(l & H2 & H3 & H4 & H5) _]].
  split; [by eapply seg_frame|]. cbn. split; [|done]. exists (set_next nx' l). split; [by apply Hc|]. done.
Qed.

(** The text of the editor: all lines, from the first one. *)
Record buffer (e : editor) (ids : list nat) (ts : list (list Z)) : Prop := {
  b_nodup : NoDup ids;
  b_seg : seg (heap e) None ids ts None;
  b_first : firstline e = head ids;
}.

(** * Running operations *)

Lemma run {A B} (m : E A) (f : A -> E B) e a e' : m e = Done (Some (a, e')) -> (a ← m; f a) e = f a e'.
Proof. intros H. unfold mbind, E_bind. by rewrite H. Qed.

Lemma deref_ok e a l : heap e !! a = Some l -> deref (Some a) e = Done (Some (l, e)).
Proof. intros H. unfold deref. by rewrite H. Qed.

Lemma on_line_ok e a l f : heap e !! a = Some l -> on_line (Some a) f e = Done (Some (tt, set_heap (<[a := f l]> (heap e)) e)).
Proof. intros H. unfold on_line. by rewrite (run _ _ _ _ _ (deref_ok _ _ _ H)). Qed.

Lemma lift_ok {A} (o : outcome A) e a : o = Done a -> lift o e = Done (Some (a, e)).
Proof. by intros ->. Qed.

Lemma same_true p : same p p = true.
Proof. by apply bool_decide_eq_true. Qed.
Lemma same_false p q : p <> q -> same p q = false.
Proof. intros H. by apply bool_decide_eq_false. Qed.

(** * Inserting and deleting lines *)

(** The links of [p] after [a] and before [b]. *)
Lemma append_ok e a p l lp : heap e !! a = Some l -> heap e !! p = Some lp -> a <> p ->
  (forall b, next l = Some b -> b <> a /\ b <> p /\ exists lb, heap e !! b = Some lb) ->
  exists h, append (Some p) (Some a) e = Done (Some (tt, set_heap h
      (if same (Some a) (can_edit_end e) then set_can_edit_end (Some p) e else e))) /\
    h !! p = Some (set_prev (Some a) (set_next (next l) lp)) /\ h !! a = Some (set_next (Some p) l) /\
    (forall b lb, next l = Some b -> heap e !! b = Some lb -> h !! b = Some (set_prev (Some p) lb)) /\
    forall x, x <> p -> x <> a -> next l <> Some x -> h !! x = heap e !! x.
Proof.
  intros Hl Hp Hne Hb. unfold append. rewrite same_false by done.
  rewrite (run _ _ _ _ _ (deref_ok _ _ _ Hl)), (run _ _ _ _ _ (on_line_ok _ _ _ _ Hp)).
  set (e1 := set_heap (<[p:=set_next (next l) lp]> (heap e)) e).
  erewrite (run (put _)) by done.
  set (e2 := if same (Some a) (can_edit_end e1) then set_can_edit_end (Some p) e1 else e1).
  assert (heap e2 = <[p:=set_next (next l) lp]> (heap e)) as He2 by (subst e2; by destruct (same _ _)).
  assert (exists h3, (if same (next l) None then mret tt else on_line (next l) (set_prev (Some p))) e2 =
    Done (Some (tt, set_heap h3 e2)) /\ h3 !! p = Some (set_next (next l) lp) /\ h3 !! a = Some l /\
    (forall b lb, next l = Some b -> heap e !! b = Some lb -> h3 !! b = Some (set_prev (Some p) lb)) /\
    forall x, x <> p -> next l <> Some x -> h3 !! x = heap e !! x) as (h3 & E3 & Hp3 & Ha3 & Hb3 & Hx3).
  { destruct (next l) as [b|] eqn:En.
    - destruct (Hb b eq_refl) as (Hba & Hbp & lb & Hlb). rewrite same_false by done.
      assert (heap e2 !! b = Some lb) as Hlb2 by (by rewrite He2, lookup_insert_ne).
      rewrite (on_line_ok _ _ _ _ Hlb2). eexists. split; [done|]. rewrite He2. split; [|split; [|split]].
      + by rewrite lookup_insert_ne, lookup_insert_eq.
      + by rewrite !lookup_insert_ne.
      + intros b' lb' [= <-] H'. rewrite Hlb in H'. injection H' as <-. by rewrite lookup_insert_eq.
      + intros x Hx Hxb. rewrite !lookup_insert_ne; congruence.
    - rewrite same_true. exists (heap e2). split; [by destruct e2|]. rewrite He2. split; [|split; [|split]].
      + by rewrite lookup_insert_eq.
      + by rewrite lookup_insert_ne.
      + done.
      + intros x Hx _. by rewrite lookup_insert_ne. }
  rewrite (run _ _ _ _ _ E3). erewrite run; [|apply (on_line_ok _ a l); exact Ha3].
  erewrite on_line_ok; [|cbn [heap set_heap]; rewrite lookup_insert_ne by done; exact Hp3].
  eexists. split.
  - cbn [heap set_heap]. do 3 f_equal. subst e2 e1. cbn. by destruct (same _ _).
  - cbn [heap set_heap]. split; [by rewrite lookup_insert_eq|]. split; [by rewrite lookup_insert_ne, lookup_insert_eq|]. split.
    + intros b lb Hbn Hlb. destruct (Hb b Hbn) as (? & ? & _). rewrite !lookup_insert_ne by done. by apply Hb3.
    + intros x ? ? ?. rewrite !lookup_insert_ne by done. by apply Hx3.
Qed.

(** The line [a], wherever it is, and what follows it. *)
Lemma seg_at h xs a ys us t vs : length xs = length us -> seg h None (xs ++ a :: ys) (us ++ t :: vs) None ->
  exists l, h !! a = Some l /\ prev l = lst None xs /\ next l = hd None ys /\ holds l t /\
    seg h None xs us (Some a) /\ seg h (Some a) ys vs None.
Proof.
  intros Hlen Hs. rewrite seg_app in Hs by done. destruct Hs as [H1 [(l & H2 & H3 & H4 & H5) H6]]. by exists l.
Qed.

Lemma seg_insert h h' xs a p ys us t t1 t2 vs l l' lp : length xs = length us -> NoDup (xs ++ a :: ys) ->
  p ∉ xs ++ a :: ys -> seg h None (xs ++ a :: ys) (us ++ t :: vs) None -> h !! a = Some l ->
  h' !! p = Some lp -> prev lp = Some a -> next lp = next l -> holds lp t2 ->
  h' !! a = Some l' -> prev l' = prev l -> next l' = Some p -> holds l' t1 ->
  (forall b lb, next l = Some b -> h !! b = Some lb -> h' !! b = Some (set_prev (Some p) lb)) ->
  (forall x, x <> p -> x <> a -> next l <> Some x -> h' !! x = h !! x) ->
  seg h' None (xs ++ a :: p :: ys) (us ++ t1 :: t2 :: vs) None.
Proof.
  intros Hlen Hn Hp Hs Hl P1 P2 P3 P4 A1 A2 A3 A4 Hb Hx.
  destruct (seg_at _ _ _ _ _ _ _ Hlen Hs) as (x & Hxl & X1 & X2 & X3 & X4 & X5). rewrite Hl in Hxl. injection Hxl as <-.
  apply list.NoDup_app in Hn as (Hn1 & Hn2 & Hn3). apply list.NoDup_cons in Hn3 as [Hn3 Hn4].
  assert (forall y, y ∈ xs -> h' !! y = h !! y) as Hxs.
  { intros y Hy. apply Hx; [set_solver|set_solver|]. rewrite X2. destruct ys as [|b ys]; cbn; [done|]. set_solver. }
  apply seg_app; [done|]. split; [by eapply seg_frame|]. cbn [seg hd]. split; [exists l'; by rewrite A2, A3|].
  split; [exists lp; by rewrite P2, P3, X2|].
  destruct ys as [|b ys]; [by destruct vs|]. cbn [hd] in X2.
  eapply (seg_relink h h' (Some a)); [done|done|..].
  - intros y Hy. cbn [tail] in Hy. apply list.NoDup_cons in Hn4 as [? ?]. apply Hx; [set_solver|set_solver|]. rewrite X2. set_solver.
  - intros y ly [= <-] Hy. by apply Hb.
Qed.

(** The texts of the two lines of a split. *)
Lemma holds_take l t k : holds l t -> 0 <= k <= blen t -> exists d,
  wr (data l) k 0 = Done d /\ forall f, len f = k -> data f = d -> holds f (take (Z.to_nat k) t).
Proof.
  intros (Hlen & Hnf & Hd & rest & Hr) Hk. assert (0 <= k < blen (data l)) as Hin.
  { rewrite Hr, blen_app, blen_cons in *. pose proof (blen_nonneg rest). lia. }
  unfold wr. rewrite (proj2 (Z.leb_le 0 k)), (proj2 (Z.ltb_lt k _)) by lia. cbn [andb]. eexists. split; [done|].
  intros f Hf Hdf. split; [unfold blen in *; rewrite length_take; lia|]. split; [by apply Forall_take|]. split.
  - rewrite Hdf. unfold blen in *. by rewrite length_insert.
  - rewrite Hdf. unfold blen in *. exists (drop (S (Z.to_nat k)) (data l)).
    rewrite insert_take_drop by lia. change (u8 0) with 0. f_equal. rewrite Hr, take_app_le by lia. done.
Qed.

Lemma cstring_drop l t k : holds l t -> 0 <= k <= blen t -> cstring (data l) k = Done (drop (Z.to_nat k) t).
Proof.
  intros (Hlen & Hnf & Hd & rest & Hr) Hk. unfold cstring. rewrite (proj2 (Z.ltb_ge k 0)) by lia.
  rewrite Hr, drop_app_le by (unfold blen in *; lia). apply Forall_drop with (n := Z.to_nat k) in Hnf.
  induction Hnf as [|c s Hc _ IH]; [done|]. cbn [app until_nul]. rewrite (proj2 (Z.eqb_neq c 0)) by lia. by rewrite IH.
Qed.

(** [strcpy] over a line. *)
Lemma holds_copy d0 s : blen d0 = 256 -> nul_free s -> blen s < 256 -> exists d, wrn d0 0 (s ++ [0]) = Done d /\
  forall f, len f = blen s -> data f = d -> holds f s.
Proof.
  intros Hd Hs Hl. unfold wrn. rewrite blen_app, Hd. change (blen [0]) with 1.
  rewrite (proj2 (Z.leb_le 0 0)), (proj2 (Z.leb_le (0 + (blen s + 1)) 256)) by lia. cbn [andb]. eexists. split; [done|].
  intros f Hf Hdf. split; [done|]. split; [done|]. split.
  - rewrite Hdf. change (Z.to_nat 0) with 0%nat. rewrite take_0. cbn [app Nat.add]. rewrite blen_app, blen_app. change (blen [0]) with 1. unfold blen in *.
    rewrite length_drop, length_app. cbn [length]. lia.
  - rewrite Hdf. change (Z.to_nat 0) with 0%nat. rewrite take_0. cbn [app Nat.add]. eexists. by rewrite <- app_assoc.
Qed.

(** * Splitting a line *)

Lemma high_run_total d fuel : forall i patch, -1 <= i < blen d -> i + 1 < Z.of_nat fuel -> exists n,
  high_run fuel d i patch = Done n /\ patch <= n <= patch + i + 1.
Proof.
  induction fuel as [|fuel IH]; intros i patch Hi Hf; [lia|]. cbn [high_run].
  destruct (Z.leb_spec 0 i); [|exists patch; split; [done|lia]].
  destruct (rd_in d i) as [c ->]; [lia|]. cbn [mbind outcome_bind].
  destruct (Z.land c 128 =? 0); [exists patch; split; [done|lia]|].
  destruct (IH (i - 1) (patch + 1)) as (n & -> & Hn); [lia|lia|]. exists n. split; [done|lia].
Qed.

Lemma high_before_total d pos : 0 <= pos <= blen d -> exists n, high_before d pos = Done n /\ 0 <= n <= pos.
Proof.
  intros Hp. destruct (high_run_total d (length d + 1) (pos - 1) 0) as (n & Hn & ?); [lia|unfold blen in *; lia|].
  exists n. split; [done|lia].
Qed.

Lemma ansi_back_total d fuel : forall i, 0 <= i < blen d -> i < Z.of_nat fuel -> exists n, ansi_back fuel d i = Done n /\ 0 <= n <= i.
Proof.
  induction fuel as [|fuel IH]; intros i Hi Hf; [lia|]. cbn [ansi_back].
  destruct (rd_in d i) as [c ->]; [lia|]. cbn [mbind outcome_bind].
  destruct ((0 <? i) && negb (c =? KEY_ESC) && in_set ansi_set c) eqn:E; [|exists i; split; [done|lia]].
  apply andb_true_iff in E as [E _]. apply andb_true_iff in E as [E _]. apply Z.ltb_lt in E.
  destruct (IH (i - 1)) as (n & -> & Hn); [lia|lia|]. exists n. split; [done|lia].
Qed.

Lemma split_pos_total l t pos : holds l t -> 0 <= pos <= blen t -> exists k, split_pos l pos = Done k /\ 0 <= k <= pos.
Proof.
  intros (_ & _ & Hd & rest & Hr) Hpos. assert (blen t < blen (data l)) as Hlt.
  { rewrite Hr, blen_app, blen_cons. pose proof (blen_nonneg rest). lia. }
  unfold split_pos. assert (exists c, (if pos =? 0 then Done (attr l) else rd (data l) (pos - 1)) = Done c) as [c ->].
  { destruct (Z.eqb_spec pos 0); [by eexists|]. apply rd_in. lia. }
  cbn [mbind outcome_bind].
  assert (exists k, (if Z.land c 128 =? 0 then Done pos else patch ← high_before (data l) pos;
    Done (if Z.rem patch 2 =? 0 then pos else pos - 1)) = Done k /\ 0 <= k <= pos) as (k & -> & Hk).
  { destruct (Z.land c 128 =? 0); [exists pos; split; [done|lia]|]. destruct (high_before_total (data l) pos) as (n & -> & Hn); [lia|].
    cbn [mbind outcome_bind]. eexists. split; [done|]. destruct (Z.eqb_spec (Z.rem n 2) 0) as [|Hne]; [lia|].
    assert (n <> 0) by (by intros ->). lia. }
  cbn [mbind outcome_bind]. destruct (Z.eqb_spec k 0); [exists k; split; [done|lia]|].
  destruct (rd_in (data l) (k - 1)) as [c2 ->]; [lia|]. cbn [mbind outcome_bind].
  destruct (in_set (KEY_ESC :: ansi_set) c2); [|exists k; split; [done|lia]].
  destruct (ansi_back_total (data l) (Z.to_nat k + 1) (k - 1)) as (i & -> & Hi); [lia|lia|]. cbn [mbind outcome_bind].
  destruct (rd_in (data l) i) as [c3 ->]; [lia|]. cbn [mbind outcome_bind]. eexists. split; [done|].
  destruct (c3 =? KEY_ESC); [destruct (k - i <? 20)|]; lia.
Qed.

Section Operations.
Context (garbage : nat -> list Z) (garbage_len : forall a, blen (garbage a) = 256).

Lemma alloc_ok e : exists p d0, alloc_line garbage e =
    Done (Some (Some p, set_heap (<[p := Textline None None 0 0 d0]> (heap e)) e)) /\
  heap e !! p = None /\ blen d0 = 256.
Proof.
  exists (fresh (dom (heap e))), (<[0%nat := 0]> (garbage (fresh (dom (heap e))))). unfold alloc_line.
  erewrite (run (gets heap)) by done. split; [|split].
  - unfold wr. rewrite garbage_len. done.
  - apply not_elem_of_dom, is_fresh.
  - unfold blen. rewrite length_insert. apply garbage_len.
Qed.

(** What an operation on the text leaves alone. *)
Definition settings (e : editor) : Z * bool * bool * bool * option nat :=
  (linelen e, insert_character e, editansi e, enabledbchar e, top_of_win e).

(** A line cut in two: where, and the cursor if it was after the cut. *)
Lemma split_ok e xs a ys us t vs pos : length xs = length us -> buffer e (xs ++ a :: ys) (us ++ t :: vs) ->
  0 <= pos <= blen t -> exists l k p e', split garbage (Some a) pos e = Done (Some (tt, e')) /\ 0 <= k <= pos /\
    heap e !! a = Some l /\ split_pos l pos = Done k /\
    buffer e' (xs ++ a :: p :: ys) (us ++ take (Z.to_nat k) t :: drop (Z.to_nat k) t :: vs) /\
    can_edit_begin e' = can_edit_begin e /\
    can_edit_end e' = (if same (Some a) (can_edit_end e) then Some p else can_edit_end e) /\ settings e' = settings e /\
    curr_window_line e <= curr_window_line e' /\ (currline e', currpnt e') = if same (Some a) (currline e) && (k <=? currpnt e) then (Some p, currpnt e - k)
                                else (currline e, currpnt e).
Proof.
  intros Hlen [Hn Hs Hf] Hpos. destruct (seg_at _ _ _ _ _ _ _ Hlen Hs) as (l & Hl & H1 & H2 & H3 & H4 & H5).
  pose proof H3 as (Hll & Hnf & Hdl & _). destruct (split_pos_total l t pos H3 Hpos) as (k & Hk & Hkp).
  unfold split. rewrite (run _ _ _ _ _ (deref_ok _ _ _ Hl)), (proj2 (Z.ltb_ge (len l) pos)) by lia.
  rewrite (run _ _ _ _ _ (lift_ok _ e _ Hk)).
  destruct (alloc_ok e) as (p & d0 & Ha & Hp & Hd0). rewrite (run _ _ _ _ _ Ha).
  set (e1 := set_heap _ e). assert (heap e1 = <[p := Textline None None 0 0 d0]> (heap e)) as He1 by done.
  assert (a <> p) as Hap by (intros ->; congruence).
  erewrite run; [|apply (deref_ok e1 p); rewrite He1; apply lookup_insert_eq]. cbn [data].
  assert (blen t < 256) as Ht by (destruct H3 as (_ & _ & _ & rest & Hr); rewrite Hr, blen_app, blen_cons in Hdl;
    pose proof (blen_nonneg rest); lia).
  destruct (holds_copy d0 (drop (Z.to_nat k) t)) as (d & Hcpy & Hcopy);
    [done|by apply Forall_drop|unfold blen in *; rewrite length_drop; lia|].
  erewrite run; [|apply lift_ok; unfold strcpy; rewrite (cstring_drop l t k H3) by lia; exact Hcpy].
  erewrite run; [|apply (on_line_ok e1 p); rewrite He1; apply lookup_insert_eq].
  destruct (holds_take l t k H3) as (dl & Hdl2 & Htake); [lia|].
  rewrite (run _ _ _ _ _ (lift_ok _ _ _ Hdl2)).
  erewrite run; [|apply (on_line_ok _ a l); cbn [heap set_heap]; rewrite He1, !lookup_insert_ne by done; exact Hl].
  set (lp := set_attr _ _). set (la := set_data dl (set_len k l)). set (e2 := set_heap (<[a := la]> _) _).
  assert (heap e2 !! a = Some la) as Ha2 by apply lookup_insert_eq.
  assert (heap e2 !! p = Some lp) as Hp2 by (cbn [heap set_heap e2]; by rewrite lookup_insert_ne, lookup_insert_eq).
  assert (forall x, x <> a -> x <> p -> heap e2 !! x = heap e !! x) as Hx2.
  { intros x ? ?. cbn [heap set_heap e2]. rewrite !lookup_insert_ne by done. by rewrite He1, lookup_insert_ne. }
  assert (forall b, next l = Some b -> b <> a /\ b <> p /\ exists lb, heap e2 !! b = Some lb) as Hb.
  { intros b Hb. rewrite H2 in Hb. destruct ys as [|y ys]; [done|]. injection Hb as ->.
    destruct (seg_dom _ _ _ _ _ b H5) as [lb Hlb]; [set_solver|].
    apply list.NoDup_app in Hn as (_ & _ & Hn). apply list.NoDup_cons in Hn as [Hn _].
    assert (b <> a) by set_solver. assert (b <> p) by (intros ->; congruence). split_and!; try done. exists lb. by rewrite Hx2. }
  destruct (append_ok e2 a p la lp Ha2 Hp2 Hap Hb) as (h & Happ & F1 & F2 & F3 & F4).
  rewrite (run _ _ _ _ _ Happ). erewrite (run (put _)) by done. erewrite (run (put _)) by done.
  assert (seg h None (xs ++ a :: p :: ys) (us ++ take (Z.to_nat k) t :: drop (Z.to_nat k) t :: vs) None) as Hseg.
  { eapply (seg_insert (heap e) h xs a p ys us t); try done.
    - intros Hin. destruct (seg_dom _ _ _ _ _ p Hs Hin). congruence.
    - apply Hcopy; [|done]. cbn. unfold blen in *. rewrite length_drop. lia.
    - by apply Htake.
    - intros b lb Hbn Hlb. destruct (Hb b Hbn) as (? & ? & _). apply F3; [done|]. by rewrite Hx2.
    - intros x ? ? ?. rewrite F4 by done. by apply Hx2. }
  exists l, k, p. eexists. split; [done|]. do 3 (split; [done|]).
  assert (NoDup (xs ++ a :: p :: ys)) as Hnd.
  { assert (p ∉ xs ++ a :: ys) as Hin by (intros Hin; destruct (seg_dom _ _ _ _ _ p Hs Hin); congruence).
    apply list.NoDup_app in Hn as (N1 & N2 & N3). apply list.NoDup_cons in N3 as [N3 N4].
    apply list.NoDup_app. split; [done|]. split; [set_solver|]. apply list.NoDup_cons. split; [set_solver|].
    apply list.NoDup_cons. split; [set_solver|done]. }
  assert (head (xs ++ a :: p :: ys) = firstline e) as Hfl by (rewrite Hf; by destruct xs).
  set (e3 := set_heap h _). set (e4 := if _ || _ then set_mark_end (Some p) e3 else e3).
  assert (heap e4 = h /\ firstline e4 = firstline e /\ can_edit_begin e4 = can_edit_begin e /\ settings e4 = settings e /\
    curr_window_line e4 = curr_window_line e /\ currline e4 = currline e /\ currpnt e4 = currpnt e /\
    can_edit_end e4 = if same (Some a) (can_edit_end e) then Some p else can_edit_end e)
    as (G1 & G2 & G3 & G4 & G8 & G5 & G6 & G7).
  { subst e4 e3 e2 e1. destruct (_ || _); cbn; by destruct (same (Some a) (can_edit_end e)). }
  rewrite G5, G6. clearbody e4. destruct (same (Some a) (currline e) && (k <=? currpnt e)).
  all: split; [constructor; [done|cbn; by rewrite G1|cbn; by rewrite G2]|].
  all: split; [done|]; split; [done|]; split; [exact G4|]; split; [cbn; lia|]. all: cbn; by rewrite ?G5, ?G6.
Qed.

(** * Deleting a line *)

Lemma lst_app pv xs c : lst pv (xs ++ [c]) = Some c.
Proof. revert pv. induction xs as [|x xs IH]; intros pv; [done|]. apply IH. Qed.

(** A line between others is taken out. *)
Lemma delete_line_ok e xs a b ys us t vs : length xs = length us ->
  buffer e (xs ++ a :: b :: ys) (us ++ t :: vs) ->
  (same (Some a) (can_edit_begin e) && same (Some b) (can_edit_end e)) = false ->
  exists e', delete_line (Some a) e = Done (Some (tt, e')) /\ buffer e' (xs ++ b :: ys) (us ++ vs) /\
    can_edit_begin e' = (if same (Some a) (can_edit_begin e) then Some b else can_edit_begin e) /\
    can_edit_end e' = can_edit_end e /\ settings e' = settings e /\ currline e' = currline e /\ currpnt e' = currpnt e.
Proof.
  intros Hlen [Hn Hs Hf] Hone. destruct (seg_at _ _ _ _ _ _ _ Hlen Hs) as (l & Hl & H1 & H2 & H3 & H4 & H5).
  cbn [hd] in H2. unfold delete_line. rewrite same_false by done. rewrite (run _ _ _ _ _ (deref_ok _ _ _ Hl)).
  erewrite (run get) by done. rewrite H2, Hone. erewrite (run (put _)) by done. erewrite (run (put _)) by done. erewrite (run (put _)) by done.
  match goal with |- exists e', ?m ?x = _ /\ _ => set (e1 := x) end.
  assert (heap e1 = heap e /\ firstline e1 = firstline e /\ settings e1 = settings e /\ currline e1 = currline e /\ currpnt e1 = currpnt e /\
    can_edit_begin e1 = (if same (Some a) (can_edit_begin e) then Some b else can_edit_begin e) /\
    can_edit_end e1 = can_edit_end e) as (G1 & G2 & G3 & G4 & G5 & G6 & G7).
  { subst e1. repeat match goal with |- context [if same (mark_begin e) _ then ?x else ?y] => destruct (same (mark_begin e) _) end;
    repeat match goal with |- context [if same (mark_end ?z) _ then ?x else ?y] => destruct (same (mark_end z) _) end;
    cbn; by destruct (same (Some a) (can_edit_begin e)). }
  clearbody e1. erewrite (run (gets firstline)) by done. rewrite G2.
  apply list.NoDup_app in Hn as (N1 & N2 & N3). apply list.NoDup_cons in N3 as [N3 N4]. pose proof N4 as N4'. apply list.NoDup_cons in N4' as [N5 N6].
  destruct (seg_dom _ _ _ _ _ b H5) as [lb Hlb]; [set_solver|]. destruct vs as [|w vs]; [done|].
  assert (b <> a) as Hba by set_solver.
  (* the heap when the links are changed *)
  assert (exists e2, (if same (Some a) (firstline e)
     then on_line (Some b) (set_prev None);; put (set_firstline (Some b))
     else on_line (Some b) (set_prev (prev l));; on_line (prev l) (set_next (Some b))) e1 = Done (Some (tt, e2)) /\
     firstline e2 = head (xs ++ b :: ys) /\ settings e2 = settings e1 /\ currline e2 = currline e1 /\ currpnt e2 = currpnt e1 /\
     can_edit_begin e2 = can_edit_begin e1 /\ can_edit_end e2 = can_edit_end e1 /\
     seg (heap e2) None (xs ++ b :: ys) (us ++ w :: vs) None)
    as (e2 & HE & K1 & K2 & K3 & K4 & K5 & K6 & K7).
  { destruct (decide (xs = [])) as [->|Hne].
    - destruct us; [|done]. cbn [app head] in *. rewrite Hf, same_true.
      erewrite run; [|apply (on_line_ok e1 b lb); by rewrite G1]. eexists. split; [done|]. do 6 (split; [done|]).
      cbn [heap set_heap set_firstline]. rewrite G1. apply (seg_relink (heap e) _ (Some a) None (b :: ys) (w :: vs)); [done|done|..].
      + intros y Hy. cbn in Hy. rewrite lookup_insert_ne; [done|]. set_solver.
      + intros y ly [= <-] Hy. rewrite Hlb in Hy. injection Hy as <-. apply lookup_insert_eq.
    - destruct (exists_last Hne) as (ys0 & c & Hxs). subst xs. rewrite lst_app in H1. rewrite H1.
      assert (same (Some a) (firstline e) = false) as ->.
      { apply same_false. rewrite Hf. destruct ys0; cbn; set_solver. }
      destruct (exists_last (l := us)) as (us0 & u & Hus); [by intros ->; destruct ys0|]. subst us.
      rewrite !length_app in Hlen. cbn in Hlen. assert (length ys0 = length us0) as Hlen0 by lia.
      destruct (seg_dom _ _ _ _ _ c H4) as [lc Hlc]; [set_solver|].
      assert (c <> b) as Hcb by set_solver.
      erewrite run; [|apply (on_line_ok e1 b lb); by rewrite G1].
      erewrite on_line_ok; [|cbn; rewrite G1, lookup_insert_ne by done; exact Hlc].
      eexists. split; [done|]. split; [cbn; rewrite G2, Hf; by destruct ys0|]. do 5 (split; [done|]).
      cbn [heap set_heap]. rewrite G1.
      apply seg_app; [rewrite !length_app; cbn; lia|]. split.
      + apply (seg_relink_end (heap e) _ None ys0 c us0 u (Some a)); [done|done|done|..].
        * intros y Hy. apply list.NoDup_app in N1 as (_ & N1 & _). rewrite !lookup_insert_ne; [done|set_solver|set_solver].
        * intros l0 Hl0. rewrite Hlc in Hl0. injection Hl0 as <-. apply lookup_insert_eq.
      + rewrite lst_app. apply (seg_relink (heap e) _ (Some a) (Some c) (b :: ys) (w :: vs)); [done|done|..].
        * intros y Hy. cbn in Hy. rewrite !lookup_insert_ne; [done|set_solver|set_solver].
        * intros y ly [= <-] Hy. rewrite Hlb in Hy. injection Hy as <-. rewrite lookup_insert_ne by done. apply lookup_insert_eq. }
  rewrite (run _ _ _ _ _ HE). eexists. split; [done|]. split; [|cbn; rewrite K3, K4, K5, K6, G4, G5, G6, G7; do 2 (split; [done|]); split; [|done];
    transitivity (settings e2); [done|congruence]].
  constructor; cbn.
  - apply list.NoDup_app. split; [done|]. split; [set_solver|done].
  - eapply seg_frame; [|exact K7]. intros y Hy. rewrite lookup_delete_ne; [done|]. set_solver.
  - done.
Qed.

(** * Changing a line *)

(** A line that is changed where it is. *)
Lemma buffer_update e xs a ys us t t' vs l l' : length xs = length us -> buffer e (xs ++ a :: ys) (us ++ t :: vs) ->
  heap e !! a = Some l -> prev l' = prev l -> next l' = next l -> holds l' t' ->
  buffer (set_heap (<[a := l']> (heap e)) e) (xs ++ a :: ys) (us ++ t' :: vs).
Proof.
  intros Hlen [Hn Hs Hf] Hl Hp Hx Hh. destruct (seg_at _ _ _ _ _ _ _ Hlen Hs) as (x & Hxl & H1 & H2 & H3 & H4 & H5).
  rewrite Hl in Hxl. injection Hxl as <-.
  constructor; [done| |done]. cbn [heap set_heap]. apply list.NoDup_app in Hn as (N1 & N2 & N3). apply list.NoDup_cons in N3 as [N3 N4].
  apply seg_app; [done|]. split; [|split].
  - eapply seg_frame; [|exact H4]. intros y Hy. rewrite lookup_insert_ne; [done|]. set_solver.
  - exists l'. rewrite lookup_insert_eq, Hp, Hx, H2. done.
  - eapply seg_frame; [|exact H5]. intros y Hy. rewrite lookup_insert_ne; [done|]. set_solver.
Qed.

Lemma buffer_line e xs a ys us t vs : length xs = length us -> buffer e (xs ++ a :: ys) (us ++ t :: vs) ->
  exists l, heap e !! a = Some l /\ prev l = lst None xs /\ next l = hd None ys /\ holds l t.
Proof. intros Hlen [_ Hs _]. destruct (seg_at _ _ _ _ _ _ _ Hlen Hs) as (l & ? & ? & ? & ? & _). by exists l. Qed.

(** The variables the text does not depend on. *)
Lemma buffer_same e e' ids ts : heap e' = heap e -> firstline e' = firstline e -> buffer e ids ts -> buffer e' ids ts.
Proof. intros H1 H2 [Hn Hs Hf]. constructor; [done|by rewrite H1|by rewrite H2]. Qed.

Lemma until_nul_at t rest : nul_free t -> until_nul (t ++ 0 :: rest) = Done t.
Proof. induction 1 as [|c s Hc _ IH]; [done|]. cbn beta in Hc. cbn [app until_nul]. rewrite (proj2 (Z.eqb_neq c 0)) by lia. by rewrite IH. Qed.

Lemma shown_len_ok l t : holds l t -> shown_len l = Done (blen t - num_ans_loop t false 0).
Proof.
  intros H. pose proof (cstring_drop l t 0 H) as Hc. pose proof (blen_nonneg t). rewrite drop_0 in Hc.
  unfold shown_len, num_ans_chr. rewrite Hc by lia. cbn [mbind outcome_bind]. by destruct H as [-> _].
Qed.

Lemma num_ans_bounds t : forall ansi n, n <= num_ans_loop t ansi n <= n + blen t.
Proof.
  induction t as [|c t IH]; intros ansi n; [cbn; unfold blen; cbn; lia|]. rewrite blen_cons. cbn [num_ans_loop].
  destruct (c =? KEY_ESC); [specialize (IH true (n + 1)); lia|].
  destruct ansi; [|specialize (IH false n); pose proof (blen_nonneg t); lia].
  match goal with |- context [num_ans_loop t ?b (n + 1)] => specialize (IH b (n + 1)) end. lia.
Qed.

(** A byte stored before the cursor. *)
Lemma store_ok l t k ch : holds l t -> 0 <= k <= blen t -> 0 < ch < 256 -> blen t < 255 -> exists d d',
  memmove (data l) (k + 1) k (len l - k + 1) = Done d /\ wr d k ch = Done d' /\
  forall f, len f = len l + 1 -> data f = d' -> holds f (take (Z.to_nat k) t ++ ch :: drop (Z.to_nat k) t).
Proof.
  intros (Hlen & Hnf & Hd & rest & Hr) Hk Hch Hmax. destruct rest as [|g rest].
  { rewrite Hr, blen_app, blen_cons in Hd. change (blen []) with 0 in Hd. lia. }
  set (x := take (Z.to_nat k) t). set (y := drop (Z.to_nat k) t).
  assert (t = x ++ y) as Ht by (subst x y; by rewrite take_drop).
  assert (blen x = k) as Hx by (subst x; unfold blen in *; rewrite length_take; lia).
  assert (blen y = blen t - k) as Hy by (rewrite Ht, blen_app; lia).
  assert (exists o post, y ++ 0 :: g :: rest = o :: post) as (o & post & Ho) by (destruct y; by eexists _, _).
  assert (data l = x ++ (y ++ [0]) ++ g :: rest) as Hdl by (rewrite Hr, Ht; app_eq).
  assert (blen post = blen (y ++ [0]) + blen rest) as Hpost.
  { apply (f_equal blen) in Ho. rewrite !blen_app, !blen_cons in *. change (blen []) with 0 in *. lia. }
  exists ((x ++ [o]) ++ (y ++ [0]) ++ rest), (x ++ ch :: (y ++ [0]) ++ rest). split; [|split].
  - unfold memmove. rewrite (rdn_at (data l) x (y ++ [0]) (g :: rest)); [|done|done|blen].
    cbn [mbind outcome_bind].
    assert (exists mid, data l = (x ++ [o]) ++ mid ++ rest /\ blen mid = blen (y ++ [0])) as (mid & Hm & Hmid).
    { exists (take (Z.to_nat (blen (y ++ [0]))) post). split.
      - rewrite Hr, Ht. replace ((x ++ y) ++ 0 :: g :: rest) with (x ++ (y ++ 0 :: g :: rest)) by app_eq. rewrite Ho.
        assert (drop (Z.to_nat (blen (y ++ [0]))) post = rest) as Hdrop.
        { destruct y as [|c y]; cbn [app] in Ho; injection Ho as <- <-.
          - done.
          - rewrite to_nat_blen. replace (y ++ 0 :: g :: rest) with ((y ++ [0; g]) ++ rest) by app_eq.
            apply drop_app_length'. rewrite !length_app. cbn [length]. lia. }
        rewrite <- Hdrop. rewrite take_drop. app_eq.
      - unfold blen in *. rewrite length_take. lia. }
    apply (wrn_at _ (x ++ [o]) mid rest); [done|blen|done].
  - rewrite (wr_at _ x o ((y ++ [0]) ++ rest)); [by rewrite u8_id by (width; lia)|app_eq|done].
  - intros f Hf Hdf. split; [|split; [|split]].
    + rewrite Hf, Hlen, blen_app, blen_cons, Hx, Hy. lia.
    + apply Forall_app. split; [by apply Forall_take|]. constructor; [lia|by apply Forall_drop].
    + rewrite Hdf, <- Hd, Hdl, !blen_app, !blen_cons, !blen_app. change (blen [0]) with 1. change (blen []) with 0. lia.
    + rewrite Hdf. exists rest. app_eq.
Qed.

(** * Plain text *)

(** Printable characters of ASCII. *)
Definition plain_char (c : Z) : Prop := 32 <= c <= 126.
Definition plain (t : list Z) : Prop := Forall plain_char t.

Lemma plain_high c : plain_char c -> Z.land c 128 = 0.
Proof.
  unfold plain_char. intros Hc. rewrite Z.land_comm. change 128 with (2 ^ 7). apply Z.bits_inj'. intros n Hn.
  rewrite Z.land_spec, Z.pow2_bits_eqb, Z.bits_0 by lia. destruct (Z.eqb_spec 7 n) as [<-|]; [|done].
  apply Z.testbit_false; [lia|]. by rewrite Z.div_small by lia.
Qed.

Lemma plain_nul_free t : plain t -> nul_free t.
Proof. intros H. eapply Forall_impl; [|exact H]. unfold plain_char. cbn. lia. Qed.

Lemma plain_no_ansi t n : plain t -> num_ans_loop t false n = n.
Proof.
  induction 1 as [|c t Hc _ IH]; [done|]. cbn [num_ans_loop]. unfold plain_char in Hc. unfold KEY_ESC.
  by rewrite (proj2 (Z.eqb_neq c 27)) by lia.
Qed.

Lemma plain_rd l t i : holds l t -> plain t -> 0 <= i < blen t -> exists c, rd (data l) i = Done c /\ plain_char c.
Proof.
  intros (_ & _ & _ & rest & Hr) Hp Hi. destruct (lookup_lt_is_Some_2 t (Z.to_nat i)) as [c Hc]; [unfold blen in *; lia|].
  exists c. split; [|by eapply Forall_lookup_1]. unfold rd. rewrite (proj2 (Z.ltb_ge i 0)) by lia.
  by rewrite Hr, lookup_app_l, Hc by (by eapply lookup_lt_Some).
Qed.

(** Plain text is split where it is asked for. *)
Lemma split_pos_plain l t pos : holds l t -> plain t -> 0 <= pos <= blen t -> split_pos l pos = Done pos.
Proof.
  intros H Hp Hpos. pose proof H as (_ & _ & Hd & rest & Hr). assert (blen t < blen (data l)) as Hlt.
  { rewrite Hr, blen_app, blen_cons. pose proof (blen_nonneg rest). lia. }
  unfold split_pos. destruct (Z.eqb_spec pos 0) as [->|Hne].
  - cbn [mbind outcome_bind]. unfold high_before. rewrite Nat.add_1_r. cbn [high_run Z.leb Z.compare Z.sub].
    cbn. by destruct (Z.land (attr l) 128 =? 0).
  - destruct (plain_rd l t (pos - 1) H Hp) as (c & Hc & Hpc); [lia|]. rewrite Hc. cbn [mbind outcome_bind].
    rewrite (plain_high c Hpc). cbn [Z.eqb mbind outcome_bind]. rewrite (proj2 (Z.eqb_neq pos 0)), Hc by lia. cbn [mbind outcome_bind].
    destruct (in_set (KEY_ESC :: ansi_set) c); [|done].
    destruct (ansi_back_total (data l) (Z.to_nat pos + 1) (pos - 1)) as (i & -> & Hi); [lia|lia|]. cbn [mbind outcome_bind].
    destruct (plain_rd l t i H Hp) as (c2 & -> & Hc2); [lia|]. cbn [mbind outcome_bind]. unfold plain_char, KEY_ESC in *.
    by rewrite (proj2 (Z.eqb_neq c2 27)) by lia.
Qed.

(** A character put into a line that stays within the margin. *)
Lemma insert_char_ok e xs a ys us t vs ch : length xs = length us -> buffer e (xs ++ a :: ys) (us ++ t :: vs) ->
  currline e = Some a -> 0 <= currpnt e <= blen t -> insert_character e = true -> plain t -> plain_char ch ->
  linelen e <= WRAPMARGIN -> blen t + 2 < linelen e ->
  exists e', insert_char garbage ch e = Done (Some (tt, e')) /\
    buffer e' (xs ++ a :: ys) (us ++ (take (Z.to_nat (currpnt e)) t ++ ch :: drop (Z.to_nat (currpnt e)) t) :: vs) /\
    settings e' = settings e /\ can_edit_begin e' = can_edit_begin e /\ can_edit_end e' = can_edit_end e /\
    currline e' = Some a /\ currpnt e' = currpnt e + 1 /\ curr_window_line e' = curr_window_line e.
Proof.
  intros Hlen Hbuf Hcur Hpnt Hins Hp Hch Hw Hroom. unfold WRAPMARGIN in *.
  destruct (buffer_line _ _ _ _ _ _ _ Hlen Hbuf) as (l & Hl & H1 & H2 & H3). pose proof H3 as (Hll & _).
  unfold insert_char. erewrite (run (gets currline)) by done. rewrite Hcur, (run _ _ _ _ _ (deref_ok _ _ _ Hl)).
  erewrite (run (gets currpnt)) by done. rewrite (proj2 (Z.ltb_ge (len l) (currpnt e))) by lia. erewrite (run (gets currln)) by done.
  assert (fit_loop garbage (Z.to_nat (len l) + 1) (Some a) e = Done (Some (tt, e))) as Hfit.
  { rewrite Nat.add_1_r. cbn [fit_loop]. rewrite (run _ _ _ _ _ (deref_ok _ _ _ Hl)), (run _ _ _ _ _ (lift_ok _ _ _ (shown_len_ok l t H3))).
    erewrite (run (gets linelen)) by done. rewrite plain_no_ansi by done. by rewrite (proj2 (Z.ltb_ge (linelen e) _)) by lia. }
  rewrite (run _ _ _ _ _ Hfit). erewrite (run (put _)) by done.
  set (e1 := set_currln (currln e) e). set (t' := take (Z.to_nat (currpnt e)) t ++ ch :: drop (Z.to_nat (currpnt e)) t).
  destruct (store_ok l t (currpnt e) ch H3 Hpnt) as (d & d' & Hmove & Hwr & Hst); [unfold plain_char in *; lia|lia|].
  set (l' := set_len (len l + 1) (set_data d' l)). assert (holds l' t') as Hl' by (by apply Hst).
  set (e2 := set_currpnt (currpnt e + 1) (set_heap (<[a := l']> (heap e)) e1)).
  assert (store_char (Some a) ch e1 = Done (Some (tt, e2))) as Hstore.
  { unfold store_char. rewrite (run _ _ _ _ _ (deref_ok e1 a l Hl)). erewrite (run get) by done.
    change (insert_character e1) with (insert_character e). change (currpnt e1) with (currpnt e). rewrite Hins, andb_false_r.
    unfold WRAPMARGIN. rewrite (proj2 (Z.ltb_lt (len l) 255)), (proj2 (Z.leb_le (currpnt e) (len l))) by lia.
    erewrite run; [|apply lift_ok; exact Hmove]. erewrite run; [|apply lift_ok; exact Hwr].
    by erewrite run; [|apply (on_line_ok e1 a l); exact Hl]. }
  rewrite (run _ _ _ _ _ Hstore).
  assert (heap e2 !! a = Some l') as Ha2 by apply lookup_insert_eq.
  rewrite (run _ _ _ _ _ (deref_ok _ _ _ Ha2)), (run _ _ _ _ _ (lift_ok _ _ _ (shown_len_ok l' t' Hl'))).
  erewrite (run (gets linelen)) by done.
  assert (plain t') as Hpt' by (apply Forall_app; split; [by apply Forall_take|constructor; [done|by apply Forall_drop]]).
  rewrite plain_no_ansi by done. pose proof Hl' as (Hll' & _). rewrite <- Hll'. change (len l') with (len l + 1).
  change (linelen e2) with (linelen e). unfold WRAPMARGIN.
  rewrite (proj2 (Z.ltb_lt (len l + 1 - 0) _)), (proj2 (Z.ltb_lt (len l + 1) 255)) by lia. cbn [andb].
  exists e2. split; [done|]. split; [|by split_and!].
  apply (buffer_same (set_heap (<[a := l']> (heap e)) e)); [done|done|]. by apply (buffer_update _ _ _ _ _ t _ _ l).
Qed.

(** * Typing *)

Context (screen_lines : Z) (screen_ok : 2 <= screen_lines).

(** The cursor at the end of the last line, [a], before the one that ends the
    text, [z]. *)
Record typing (e : editor) (xs : list nat) (a z : nat) (us : list (list Z)) (t : list Z) : Prop := {
  ty_len : length xs = length us;
  ty_buf : buffer e (xs ++ [a; z]) (us ++ [t; []]);
  ty_cur : currline e = Some a;
  ty_pnt : currpnt e = blen t;
  ty_begin : can_edit_begin e = head (xs ++ [a]);
  ty_end : can_edit_end e = Some z;
  ty_set : linelen e = WRAPMARGIN /\ insert_character e = true /\ editansi e = false;
  ty_top : exists w, w ∈ xs ++ [a] /\ top_of_win e = Some w;
  ty_win : 0 <= curr_window_line e;
}.

(** The variables of the window change, the text and the cursor do not. *)
Definition core (e : editor) : Z * bool * bool * option nat * option nat * option nat * Z :=
  (linelen e, insert_character e, editansi e, can_edit_begin e, can_edit_end e, currline e, currpnt e).

Lemma typing_same e e' xs a z us t : typing e xs a z us t -> heap e' = heap e -> firstline e' = firstline e -> core e' = core e ->
  (exists w, w ∈ xs ++ [a] /\ top_of_win e' = Some w) -> 0 <= curr_window_line e' -> typing e' xs a z us t.
Proof.
  intros [T1 T2 T3 T4 T5 T6 (T7 & T8 & T9) _ _] Hh Hf Hc Ht Hw. injection Hc as C1 C2 C3 C4 C5 C6 C7.
  constructor; try congruence; [by eapply buffer_same|split_and!; congruence].
Qed.

Lemma next_in e xs a z us t w : typing e xs a z us t -> w ∈ xs ++ [a] -> exists l, heap e !! w = Some l /\
  (next l = Some z \/ exists w', w' ∈ xs ++ [a] /\ next l = Some w').
Proof.
  intros Hty Hw. destruct (ty_buf _ _ _ _ _ _ Hty) as [_ Hs _]. pose proof (ty_len _ _ _ _ _ _ Hty) as Hlen. clear Hty.
  replace (xs ++ [a; z]) with ((xs ++ [a]) ++ [z]) in Hs by app_eq. replace (us ++ [t; []]) with ((us ++ [t]) ++ [[]]) in Hs by app_eq.
  rewrite seg_app in Hs by (rewrite !length_app; cbn; lia). destruct Hs as [Hs _]. cbn [hd] in Hs.
  assert (length (xs ++ [a]) = length (us ++ [t])) as Hl by (rewrite !length_app; cbn; lia).
  revert Hs Hw Hl. generalize (us ++ [t]) as ts, (@None nat) as pv. generalize (xs ++ [a]) as ids.
  induction ids as [|x ids IH]; intros ts pv Hs Hw Hl; [set_solver|]. destruct ts as [|u ts]; [done|].
  destruct Hs as [(l & Hl1 & _ & Hn & _) Hs]. apply elem_of_cons in Hw as [->|Hw].
  - exists l. split; [done|]. rewrite Hn. destruct ids as [|y ids]; [by left|right]. exists y. set_solver.
  - destruct (IH ts (Some x) Hs Hw) as (l' & Hl' & Hor); [cbn in Hl; lia|]. exists l'. split; [done|].
    destruct Hor as [|(w' & ? & ?)]; [by left|right]. exists w'. set_solver.
Qed.

Lemma scroll_window_ok n : forall e xs a z us t, typing e xs a z us t -> Z.of_nat n <= curr_window_line e ->
  exists e', scroll_window n e = Done (Some (tt, e')) /\ typing e' xs a z us t.
Proof.
  induction n as [|n IH]; intros e xs a z us t Hty Hn; [by exists e|]. cbn [scroll_window].
  erewrite (run (put _)) by done. erewrite (run get) by done. set (e1 := set_curr_window_line _ e).
  assert (typing e1 xs a z us t) as Hty1.
  { apply (typing_same e); try done; [exact (ty_top _ _ _ _ _ _ Hty)|cbn; lia]. }
  destruct (ty_top _ _ _ _ _ _ Hty1) as (w & Hw & Ht). rewrite Ht.
  destruct (next_in _ _ _ _ _ _ _ Hty1 Hw) as (l & Hl & Hor). rewrite (run _ _ _ _ _ (deref_ok _ _ _ Hl)).
  rewrite (ty_end _ _ _ _ _ _ Hty1).
  assert (exists e2, (if negb (same (next l) (Some z))
    then put (fun e => set_top_of_win (next l) (set_redraw_everything true e)) else mret tt) e1 = Done (Some (tt, e2)) /\
    typing e2 xs a z us t /\ curr_window_line e2 = curr_window_line e - 1) as (e2 & H2 & Hty2 & Hw2).
  { destruct (same (next l) (Some z)) eqn:E; [by exists e1|]. eexists. split; [done|]. split; [|done].
    destruct Hor as [Hz|(w' & Hw' & Hn')]; [rewrite Hz, same_true in E; done|].
    apply (typing_same e1); try done; [by exists w'|exact (ty_win _ _ _ _ _ _ Hty1)]. }
  rewrite (run _ _ _ _ _ H2). apply IH; [done|lia].
Qed.

Lemma follow_ok e xs a z us t : typing e xs a z us t ->
  exists e', (follow_cursor screen_lines;; follow_shift) e = Done (Some (tt, e')) /\ typing e' xs a z us t.
Proof.
  intros Hty. pose proof (ty_win _ _ _ _ _ _ Hty) as Hwin. destruct (ty_set _ _ _ _ _ _ Hty) as (_ & _ & Hansi).
  assert (exists e1, follow_cursor screen_lines e = Done (Some (tt, e1)) /\ typing e1 xs a z us t) as (e1 & H1 & Hty1).
  { unfold follow_cursor. erewrite (run get) by done. rewrite (proj2 (Z.ltb_ge (curr_window_line e) 0)) by lia.
    erewrite run by done. erewrite (run get) by done.
    assert (exists e1, (if screen_lines - 1 <=? curr_window_line e
      then scroll_window (Z.to_nat (curr_window_line e - screen_lines + 2)) else mret tt) e = Done (Some (tt, e1)) /\
      typing e1 xs a z us t) as (e1 & H1 & Hty1).
    { destruct (Z.leb_spec (screen_lines - 1) (curr_window_line e)); [|by exists e]. apply scroll_window_ok; [done|lia]. }
    rewrite (run _ _ _ _ _ H1). exists e1. split; [|done]. destruct (ty_set _ _ _ _ _ _ Hty1) as (_ & _ & Ha). unfold put. by rewrite Ha. }
  rewrite (run _ _ _ _ _ H1). unfold follow_shift, put. destruct (negb _ || _).
  all: eexists; split; [done|].
  all: apply (typing_same e1); try done; [exact (ty_top _ _ _ _ _ _ Hty1)|exact (ty_win _ _ _ _ _ _ Hty1)].
Qed.

(** One character typed. *)
Lemma key_char_ok e xs a z us t fuel ch : typing e xs a z us t -> plain t -> plain_char ch -> blen t < 250 ->
  exists e', vedit_key garbage screen_lines (S fuel) ch e = Done (Some (tt, e')) /\ typing e' xs a z us (t ++ [ch]).
Proof.
  intros Hty Hp Hch Hroom. cbn [vedit_key]. unfold plain_char in Hch.
  assert (moves_between_lines ch = false) as ->.
  { unfold moves_between_lines. change (Ctrl 80) with 16. change (Ctrl 78) with 14. unfold KEY_UP, KEY_DOWN.
    rewrite !(proj2 (Z.eqb_neq ch _)) by lia. done. }
  erewrite (run (put _)) by done. set (e0 := set_lastindent (-1) e).
  assert (typing e0 xs a z us t) as Hty0 by (apply (typing_same e); try done; apply Hty). clearbody e0.
  erewrite (run get) by done. rewrite (ty_cur _ _ _ _ _ _ Hty0).
  destruct (buffer_line e0 xs a [z] us t [[]] (ty_len _ _ _ _ _ _ Hty0) (ty_buf _ _ _ _ _ _ Hty0)) as (l & Hl & H1 & H2 & H3).
  rewrite (run _ _ _ _ _ (deref_ok _ _ _ Hl)). pose proof (blen_nonneg t).
  assert (cstring (data l) 0 = Done t) as Hc by (rewrite (cstring_drop l t 0 H3) by lia; by rewrite drop_0).
  destruct (ty_set _ _ _ _ _ _ Hty0) as (S1 & S2 & S3). rewrite S3. erewrite (run (mret false)) by done.
  assert (isprint2 ch = true) as Hpr.
  { unfold isprint2, isprint. rewrite u8_id by (width; lia). rewrite (proj2 (Z.leb_le 32 ch)), (proj2 (Z.leb_le ch 126)) by lia.
    by rewrite orb_true_r. }
  rewrite (proj2 (Z.ltb_lt ch 0x100)), Hpr by lia. cbn [andb].
  destruct (insert_char_ok e0 xs a [z] us t [[]] ch) as (e1 & HI & Hb & Hs & Hbg & Hen & Hcu & Hpn & Hwn);
    try apply Hty0; try done; [rewrite (ty_pnt _ _ _ _ _ _ Hty0); lia|by rewrite S1|rewrite S1; unfold WRAPMARGIN; lia|].
  rewrite (run _ _ _ _ _ HI). apply (follow_ok e1). unfold settings in Hs. injection Hs as E1 E2 E3 E4 E5.
  rewrite (ty_pnt _ _ _ _ _ _ Hty0) in Hb, Hpn. rewrite to_nat_blen, firstn_all, drop_all in Hb.
  destruct Hty0 as [T1 T2 T3 T4 T5 T6 T7 T8 T9]. destruct T7 as (T7 & _). constructor; try done; try congruence.
  - rewrite Hpn, blen_app. done.
  - split; [congruence|]. split; congruence.
  - by rewrite E5.
Qed.

(** The end of a line typed. *)
Lemma key_return_ok e xs a z us t fuel : typing e xs a z us t -> plain t ->
  exists p e', vedit_key garbage screen_lines (S fuel) 13 e = Done (Some (tt, e')) /\
    typing e' (xs ++ [a]) p z (us ++ [t]) [].
Proof.
  intros Hty Hp. cbn [vedit_key].
  change (moves_between_lines 13) with false. erewrite (run (put _)) by done. set (e0 := set_lastindent (-1) e).
  assert (typing e0 xs a z us t) as Hty0 by (apply (typing_same e); try done; apply Hty). clearbody e0.
  erewrite (run get) by done. rewrite (ty_cur _ _ _ _ _ _ Hty0).
  destruct (buffer_line e0 xs a [z] us t [[]] (ty_len _ _ _ _ _ _ Hty0) (ty_buf _ _ _ _ _ _ Hty0)) as (l & Hl & H1 & H2 & H3).
  rewrite (run _ _ _ _ _ (deref_ok _ _ _ Hl)). pose proof (blen_nonneg t).
  assert (cstring (data l) 0 = Done t) as Hc by (rewrite (cstring_drop l t 0 H3) by lia; by rewrite drop_0).
  destruct (ty_set _ _ _ _ _ _ Hty0) as (S1 & S2 & S3). rewrite S3. erewrite (run (mret false)) by done.
  change ((13 <? 0x100) && isprint2 13) with false. change (13 =? Ctrl 73) with false. change ((13 =? 13) || (13 =? 10)) with true.
  rewrite (ty_pnt _ _ _ _ _ _ Hty0).
  destruct (split_ok e0 xs a [z] us t [[]] (blen t) (ty_len _ _ _ _ _ _ Hty0) (ty_buf _ _ _ _ _ _ Hty0))
    as (l' & k & p & e1 & HS & Hk & Hl' & Hpos & Hb & Hbg & Hen & Hs & Hw & Hcp); [lia|].
  rewrite Hl in Hl'. injection Hl' as <-. rewrite (split_pos_plain l t (blen t) H3 Hp) in Hpos by lia. injection Hpos as <-.
  rewrite (run _ _ _ _ _ HS). unfold settings in Hs. injection Hs as E1 E2 E3 E4 E5.
  rewrite (ty_cur _ _ _ _ _ _ Hty0), same_true, (ty_pnt _ _ _ _ _ _ Hty0), Z.leb_refl, Z.sub_diag in Hcp. injection Hcp as C1 C2.
  rewrite to_nat_blen, firstn_all, drop_all in Hb. exists p. apply (follow_ok e1).
  destruct Hty0 as [T1 T2 T3 T4 T5 T6 (T7 & T8 & T9) (w & T10 & T11) T12].
  assert (a <> z) as Haz.
  { destruct T2 as [Hn _ _]. apply list.NoDup_app in Hn as (_ & _ & Hn). apply list.NoDup_cons in Hn as [Hn _]. set_solver. }
  constructor.
  - rewrite !length_app. cbn. lia.
  - by rewrite <- !app_assoc.
  - done.
  - by rewrite C2.
  - rewrite Hbg, T5. by destruct xs.
  - rewrite Hen, T6. by rewrite same_false by congruence.
  - split_and!; congruence.
  - exists w. split; [set_solver|congruence].
  - lia.
Qed.

(** A key, and keys one after the other; the screen is drawn after each. *)
Definition press_key (k : Z) : E unit := vedit_key garbage screen_lines 2 k;; put (set_redraw_everything false).
Fixpoint press_keys (ks : list Z) : E unit :=
  match ks with [] => mret tt | k :: ks => press_key k;; press_keys ks end.

Lemma press_key_ok e e' k xs a z us t : vedit_key garbage screen_lines 2 k e = Done (Some (tt, e')) -> typing e' xs a z us t ->
  exists e'', press_key k e = Done (Some (tt, e'')) /\ typing e'' xs a z us t.
Proof.
  intros H Hty. unfold press_key. rewrite (run _ _ _ _ _ H). eexists. split; [done|].
  apply (typing_same e'); try done; [exact (ty_top _ _ _ _ _ _ Hty)|exact (ty_win _ _ _ _ _ _ Hty)].
Qed.

(** The keys that type lines. *)
Fixpoint keys_of (s : list Z) (ls : list (list Z)) : list Z :=
  match ls with [] => s | s' :: ls => s ++ 13 :: keys_of s' ls end.

Lemma press_app ks ks' e u e' : press_keys ks e = Done (Some (u, e')) -> press_keys (ks ++ ks') e = press_keys ks' e'.
Proof.
  revert e. induction ks as [|k ks IH]; intros e H; [by injection H as _ <-|]. cbn [press_keys app] in *.
  unfold mbind, E_bind in *. destruct (press_key k e) as [[[? e1]|]| |]; try done. by apply IH.
Qed.

Lemma press_line s : forall e xs a z us t, typing e xs a z us t -> plain t -> plain s -> blen (t ++ s) <= 250 ->
  exists e', press_keys s e = Done (Some (tt, e')) /\ typing e' xs a z us (t ++ s).
Proof.
  induction s as [|c s IH]; intros e xs a z us t Hty Ht Hs Hl.
  - exists e. by rewrite app_nil_r.
  - apply Forall_cons_1 in Hs as [Hc Hs]. rewrite blen_app, blen_cons in Hl. pose proof (blen_nonneg s). cbn [press_keys].
    destruct (key_char_ok e xs a z us t 1 c Hty Ht Hc) as (e0 & H0 & Hty0); [lia|].
    destruct (press_key_ok _ _ _ _ _ _ _ _ H0 Hty0) as (e1 & H1 & Hty1). rewrite (run _ _ _ _ _ H1).
    replace (t ++ c :: s) with ((t ++ [c]) ++ s) by app_eq. apply IH; try done; [|rewrite !blen_app, blen_cons; change (blen []) with 0; lia].
    apply Forall_app. split; [done|]. by constructor.
Qed.

Lemma press_lines ls : forall s e xs a z us, typing e xs a z us [] -> Forall plain (s :: ls) ->
  Forall (fun s => blen s <= 250) (s :: ls) ->
  exists e' xs' a' us' t', press_keys (keys_of s ls) e = Done (Some (tt, e')) /\ typing e' xs' a' z us' t' /\
    us' ++ [t'] = us ++ s :: ls.
Proof.
  induction ls as [|s' ls IH]; intros s e xs a z us Hty Hp Hl; apply Forall_cons_1 in Hp as [Hs Hp];
    apply Forall_cons_1 in Hl as [Hls Hl]; destruct (press_line s e xs a z us [] Hty) as (e1 & H1 & Hty1); try done; [by constructor| |by constructor|].
  - exists e1, xs, a, us, s. by split_and!.
  - cbn [keys_of]. rewrite (press_app _ _ _ _ _ H1). cbn [press_keys].
    destruct (key_return_ok e1 xs a z us s 1 Hty1 Hs) as (p & e0 & H0 & Hty0).
    destruct (press_key_ok _ _ _ _ _ _ _ _ H0 Hty0) as (e2 & H2 & Hty2). rewrite (run _ _ _ _ _ H2).
    destruct (IH s' e2 _ _ _ _ Hty2 Hp Hl) as (e3 & xs3 & a3 & us3 & t3 & H3 & Hty3 & Heq).
    exists e3, xs3, a3, us3, t3. split; [done|]. split; [done|]. rewrite Heq. app_eq.
Qed.

(** * Starting and saving *)

Lemma alloc_blank e : exists p rest, alloc_line garbage e =
    Done (Some (Some p, set_heap (<[p := Textline None None 0 0 (0 :: rest)]> (heap e)) e)) /\
  heap e !! p = None /\ holds (Textline None None 0 0 (0 :: rest)) [].
Proof.
  set (p := fresh (dom (heap e))). destruct (garbage p) as [|g rest] eqn:Eg; [by pose proof (garbage_len p) as H; rewrite Eg in H|].
  pose proof (garbage_len p) as Hl. rewrite Eg in Hl. exists p, rest. unfold alloc_line. erewrite (run (gets heap)) by done.
  fold p. rewrite Eg. split; [|split].
  - unfold wr. by rewrite Hl.
  - apply not_elem_of_dom, is_fresh.
  - split; [done|]. split; [constructor|]. split; [by rewrite blen_cons in Hl; cbn [data]; rewrite blen_cons|by exists rest].
Qed.

(** One empty line and the line that ends the text. *)
Lemma vedit_init_ok : exists a z e, vedit_init garbage editor0 = Done (Some (tt, e)) /\ typing e [] a z [] [] /\ insert_character e = true.
Proof.
  destruct (alloc_blank editor0) as (a & rest & Ha & _ & Hr). unfold vedit_init. rewrite (run _ _ _ _ _ Ha).
  set (e1 := set_heap _ editor0). erewrite (run (put _)) by done.
  set (e2 := set_firstline _ _). set (l := Textline None None 0 0 (0 :: rest)) in *.
  assert (heap e2 !! a = Some l) as Hl by apply lookup_insert_eq.
  set (e3 := set_heap (<[a := set_attr (Z.land (attr l) (Z.lnot M_MARK)) l]> (heap e2)) e2).
  assert (heap e3 !! a = Some l) as Hl3 by apply lookup_insert_eq.
  assert (unmark_all e2 = Done (Some (tt, e3))) as Hun.
  { unfold unmark_all. erewrite (run steps) by done. erewrite (run (gets _)) by done. cbn [unmark_loop].
    erewrite (run (gets _)) by done. change (can_edit_end e2) with (@None nat). change (can_edit_begin e2) with (Some a).
    rewrite same_false by done. cbn [orb]. rewrite (run _ _ _ _ _ (on_line_ok _ _ _ _ Hl)). fold e3.
    rewrite (run _ _ _ _ _ (deref_ok _ _ _ Hl3)). change (base.size (heap e2)) with (base.size (<[a:=l]> (∅ : gmap nat textline))).
    rewrite map_size_insert_None by done. cbn [unmark_loop]. erewrite (run (gets _)) by done. by rewrite same_true. }
  rewrite (run _ _ _ _ _ Hun). erewrite (run clear_mark) by done. erewrite (run (put _)) by done. set (e4 := set_top_of_win _ _).
  destruct (alloc_blank e4) as (z & rest' & Hz & Hnz & Hrz). rewrite (run _ _ _ _ _ Hz).
  assert (heap e4 !! a = Some l) as Hl4 by apply Hl3. assert (a <> z) as Haz by congruence.
  set (lz := Textline None None 0 0 (0 :: rest')) in *.
  erewrite run; [|apply (on_line_ok _ a l); cbn [heap set_heap]; by rewrite lookup_insert_ne].
  erewrite run; [|apply (on_line_ok _ z lz); cbn [heap set_heap]; by rewrite lookup_insert_ne, lookup_insert_eq].
  erewrite (run (put _)) by done. eexists a, z, _. split; [done|]. split; [|done].
  constructor; try done.
  - constructor; [|split; [|split; [|done]]|done].
    + apply list.NoDup_cons. split; [set_solver|]. apply list.NoDup_cons. split; [set_solver|constructor].
    + eexists. split; [cbn; rewrite lookup_insert_ne, lookup_insert_eq by done; done|]. done.
    + eexists. split; [cbn; rewrite lookup_insert_eq by done; done|]. done.
  - exists a. split; [set_solver|done].
Qed.

(** An empty file, with the mark of a site. *)
Lemma start_ok tmp : tmp <> [] -> exists a z e, start_edit garbage (Some []) tmp true editor0 = Done (Some (1, e)) /\
  typing e [] a z [] [].
Proof.
  intros Htmp. destruct vedit_init_ok as (a & z & e & Hi & Hty & Hins). exists a, z.
  assert (read_file garbage (Some []) tmp editor0 = Done (Some (1, e))) as Hr.
  { unfold read_file. erewrite (run get) by done. change (currline editor0) with (@None nat). rewrite same_true.
    rewrite (run _ _ _ _ _ Hi). cbn [insert_from_fp]. erewrite (run (mret tt)) by done. erewrite (run steps) by done.
    erewrite (run (gets _)) by done. pose proof Hty as [_ [Hn Hs _] _ _ Hb He _ _ _]. cbn [app head] in Hb.
    destruct Hs as [(la & Hla & _) [(lz & Hlz & Hp & _ & Hhz) _]]. rewrite He.
    assert (exists n, base.size (heap e) = S n) as [n ->].
    { destruct (base.size (heap e)) eqn:E; [|by eexists]. apply map_size_empty_iff in E. by rewrite E in Hla. }
    assert (a <> z) as Haz by (apply list.NoDup_cons in Hn as [? _]; set_solver).
    cbn [source_loop]. erewrite run; [|].
    2:{ erewrite (run (gets _)) by done. rewrite Hb, same_false by congruence. rewrite (run _ _ _ _ _ (deref_ok _ _ _ Hlz)).
      assert (cstring (data lz) 0 = Done []) as Hc by (rewrite (cstring_drop lz [] 0 Hhz) by (change (blen []) with 0; lia); done).
      assert (strstr (data lz) 0 tmp = Done None) as Hss.
      { unfold strstr. rewrite Hc. cbn [mbind outcome_bind strstr_at]. rewrite take_nil. by rewrite bool_decide_eq_false_2 by congruence. }
      rewrite (run _ _ _ _ _ (lift_ok _ _ _ Hss)). destruct Hhz as (_ & _ & _ & r & Hdz).
      erewrite run; [|apply lift_ok; rewrite Hdz; done]. rewrite Hp. cbn [lst].
      erewrite (run (gets _)) by done. by rewrite Hb, same_true. }
    erewrite (run (gets _)) by done. rewrite He, same_false by congruence. done. }
  unfold start_edit. rewrite (run _ _ _ _ _ Hr). erewrite (run (mret tt)) by done. erewrite (run (put _)) by done.
  eexists. split; [done|]. destruct Hty as [T1 T2 T3 T4 T5 T6 T7 (w & T8 & T9) T10]. constructor; try done.
  - by apply (buffer_same e).
  - cbn [app] in T8. apply list_elem_of_singleton in T8 as ->. exact T9.
  - exists w. done.
Qed.

(** What is saved of a text: the empty lines at the end, but for the first line,
    are not. *)
Fixpoint strip (ts : list (list Z)) : list (list Z) :=
  match ts with
  | [] => []
  | t :: ts => match strip ts with [] => if bool_decide (t = []) then [] else [t] | rest => t :: rest end
  end.
Definition stripped (ts : list (list Z)) : list (list Z) := match ts with [] => [] | t :: ts => t :: strip ts end.

Lemma strip_app ts t : strip (ts ++ [t]) = if bool_decide (t = []) then strip ts else ts ++ [t].
Proof.
  induction ts as [|u ts IH]; cbn [app strip]; [done|]. rewrite IH. case_bool_decide; [done|].
  by destruct ts.
Qed.

Lemma stripped_app us u t : stripped ((u :: us) ++ [t]) = if bool_decide (t = []) then stripped (u :: us) else (u :: us) ++ [t].
Proof. cbn [app stripped]. rewrite strip_app. by destruct (bool_decide _). Qed.

Lemma plain_line t : plain t -> bool_decide (t = [10]) = false.
Proof. intros Hp. apply bool_decide_eq_false. intros ->. apply Forall_cons_1 in Hp as [Hc _]. unfold plain_char in Hc. lia. Qed.

Lemma trim_ok xs : forall a e us t fuel, length xs = length us -> NoDup (xs ++ [a]) ->
  seg (heap e) None (xs ++ [a]) (us ++ [t]) None -> can_edit_begin e = head (xs ++ [a]) -> Forall plain (us ++ [t]) ->
  (length xs < fuel)%nat -> exists e' ids p, trim_loop fuel (Some a) e = Done (Some (p, e')) /\ NoDup ids /\
    seg (heap e') None ids (stripped (us ++ [t])) None /\ head ids = head (xs ++ [a]) /\ firstline e' = firstline e /\
    (length ids <= S (length xs))%nat.
Proof.
  induction xs as [|y xs IH] using rev_ind; intros a e us t fuel Hlen Hn Hs Hb Hp Hf; (destruct fuel as [|fuel]; [lia|]); cbn [trim_loop].
  - destruct us; [|done]. cbn [app] in *. destruct Hs as [(l & Hl & Hpv & Hnx & Hh) _]. exists e, [a], (Some a).
    split; [|split; [done|split; [split; [exists l; split; [exact Hl|split; [cbn; assumption|split; [cbn; assumption|assumption]]]|done]|cbn; split; [done|split; [done|lia]]]]]. rewrite (run _ _ _ _ _ (deref_ok _ _ _ Hl)). erewrite (run (gets _)) by done.
    assert (cstring (data l) 0 = Done t) as Hc by (rewrite (cstring_drop l t 0 Hh), drop_0; [done|pose proof (blen_nonneg t); lia]).
    rewrite (run _ _ _ _ _ (lift_ok _ _ _ Hc)). cbn [head] in Hb. by rewrite Hb, same_true.
  - destruct us as [|u us _] using rev_ind; [by rewrite length_app in Hlen; cbn in Hlen; lia|].
    pose proof Hs as Hs0. rewrite seg_app in Hs by done. destruct Hs as [Hs [(l & Hl & Hpv & Hnx & Hh) _]].
    rewrite lst_app in Hpv. rewrite (run _ _ _ _ _ (deref_ok _ _ _ Hl)). erewrite (run (gets _)) by done.
    assert (cstring (data l) 0 = Done t) as Hc by (rewrite (cstring_drop l t 0 Hh), drop_0; [done|pose proof (blen_nonneg t); lia]).
    rewrite (run _ _ _ _ _ (lift_ok _ _ _ Hc)). pose proof Hn as Hn0. apply list.NoDup_app in Hn as (Hn1 & Hn2 & _).
    rewrite same_false by (rewrite Hb; intros E; apply (Hn2 a); [destruct xs; cbn in E; injection E as ->|]; set_solver).
    apply Forall_app in Hp as [Hp Ht]. apply Forall_cons_1 in Ht as [Ht _]. rewrite plain_line by done. rewrite orb_false_r. cbn [negb andb].
    assert (exists v vs, us ++ [u] = v :: vs) as (v & vs & Hv) by (destruct us; by do 2 eexists).
    rewrite Hv, stripped_app. destruct (bool_decide (t = [])).
    + erewrite (run (put _)) by done. rewrite Hpv.
      rewrite !length_app in Hlen. cbn in Hlen. rewrite seg_app in Hs by lia. pose proof Hs as [_ [(ly & Hly & Hy1 & Hy2 & Hy3) _]].
      assert (a <> y) as Hay by (intros ->; apply (Hn2 y); set_solver).
      set (e1 := set_heap (delete a (heap e)) e). erewrite run; [|apply (on_line_ok e1 y ly); cbn; by rewrite lookup_delete_ne].
      set (e2 := set_heap _ e1).
      destruct (IH y e2 us u fuel) as (e' & ids & p & H1 & H2 & H3 & H4 & H5 & H6); [lia|done| |cbn; rewrite Hb; by destruct xs|done|rewrite length_app in Hf; cbn in Hf; lia|].
      * apply (seg_relink_end (heap e) _ _ _ _ _ _ (hd None [a])); [done|lia| | |].
        -- apply seg_app; [lia|]. done.
        -- intros x Hx. cbn. apply list.NoDup_app in Hn1 as (_ & Hn1 & _).
           rewrite lookup_insert_ne by (intros ->; apply (Hn1 x); set_solver).
           apply lookup_delete_ne. intros ->. apply (Hn2 x); set_solver.
        -- intros l' Hl'. cbn. rewrite lookup_insert_eq. rewrite Hly in Hl'. by injection Hl' as <-.
      * exists e', ids, p. split; [done|]. split; [done|]. rewrite <- Hv. split; [done|]. split; [rewrite H4; by destruct xs|].
        split; [done|]. rewrite length_app. cbn. lia.
    + exists e, ((xs ++ [y]) ++ [a]), (Some a). rewrite <- Hv. split; [done|]. do 4 (split; [done|]). rewrite (length_app _ [a]). cbn. lia.
Qed.

(** Every line is freed, the ones that [keep] are written. *)
Lemma free_ok keep ids : forall pv ts e fuel, NoDup ids -> seg (heap e) pv ids ts None -> (length ids < fuel)%nat ->
  exists e', free_loop fuel keep (hd None ids) e = Done (Some (filter (fun t => keep t = true) ts, e')).
Proof.
  induction ids as [|a ids IH]; intros pv ts e fuel Hn Hs Hf; destruct ts as [|t ts]; try done; (destruct fuel as [|fuel]; [cbn in Hf; lia|]); cbn [free_loop hd].
  - by eexists.
  - destruct Hs as [(l & Hl & _ & Hnx & Hh) Hs]. rewrite (run _ _ _ _ _ (deref_ok _ _ _ Hl)).
    assert (cstring (data l) 0 = Done t) as Hc by (rewrite (cstring_drop l t 0 Hh), drop_0; [done|pose proof (blen_nonneg t); lia]).
    rewrite (run _ _ _ _ _ (lift_ok _ _ _ Hc)). erewrite (run (put _)) by done. apply list.NoDup_cons in Hn as [Hna Hn]. rewrite Hnx.
    destruct (IH (Some a) ts (set_heap (delete a (heap e)) e) fuel) as (e' & He'); [done| |cbn in Hf; lia|].
    + eapply seg_frame; [|exact Hs]. intros x Hx. cbn. apply lookup_delete_ne. congruence.
    + exists e'. rewrite (run _ _ _ _ _ He'). rewrite filter_cons. by destruct (keep t).
Qed.

(** A bound on the lines of a text. *)
Lemma seg_size h pv ids ts nx : NoDup ids -> seg h pv ids ts nx -> (length ids <= base.size h)%nat.
Proof.
  intros Hn Hs. rewrite <- (size_list_to_set (C := gset nat) ids) by done. rewrite <- (size_dom h). apply subseteq_size.
  intros a Ha. apply elem_of_list_to_set in Ha. destruct (seg_dom _ _ _ _ _ a Hs Ha). by apply elem_of_dom_2 in H.
Qed.

Lemma filter_kept {A} (f : A -> bool) l : Forall (fun x => f x = true) l -> filter (fun x => f x = true) l = l.
Proof. induction 1 as [|x l Hx _ IH]; [done|]. rewrite filter_cons, decide_True by done. by rewrite IH. Qed.

Lemma plain_kept t : plain t -> negb (bool_decide (take 17 t = EDIT_MARK)) = true.
Proof.
  intros Hp. rewrite bool_decide_eq_false_2; [done|]. intros He. destruct t as [|c t]; [done|].
  apply Forall_cons_1 in Hp as [Hc _]. injection He as -> _. unfold plain_char in Hc. lia.
Qed.

Lemma stripped_incl ts : Forall plain ts -> Forall plain (stripped ts).
Proof.
  assert (forall ts, Forall plain ts -> Forall plain (strip ts)) as H.
  { intros us. induction us as [|u us IH]; [done|]. intros H. apply Forall_cons_1 in H as [Hu H]. cbn.
    destruct (strip us) eqn:E; [destruct (bool_decide _); by repeat constructor|]. constructor; [done|by apply IH]. }
  destruct ts as [|t ts]; [done|]. intros Hp. apply Forall_cons_1 in Hp as [Ht Hp]. constructor; [done|by apply H].
Qed.

Lemma lines_written e xs a z us t : typing e xs a z us t -> Forall plain (us ++ [t]) ->
  exists e', write_lines false e = Done (Some (text_of (stripped (us ++ [t])), e')).
Proof.
  intros [T1 [Hn Hs Hf] _ _ Hb He _ _ _] Hp. unfold write_lines. erewrite (run steps) by done. erewrite (run (gets _)) by done. rewrite He.
  rewrite same_false by done. pose proof (seg_size _ _ _ _ _ Hn Hs) as Hsz. rewrite length_app in Hsz. cbn in Hsz.
  replace (xs ++ [a; z]) with ((xs ++ [a]) ++ [z]) in * by app_eq. replace (us ++ [t; []]) with ((us ++ [t]) ++ [[]]) in Hs by app_eq.
  assert (length (xs ++ [a]) = length (us ++ [t])) as Hl1 by (rewrite !length_app; cbn; lia).
  pose proof Hs as Hs0. rewrite seg_app in Hs0 by done. destruct Hs0 as [_ [(lz & Hlz & _ & Hnz & _) _]].
  erewrite run; [|cbn [last_loop]; rewrite (run _ _ _ _ _ (deref_ok _ _ _ Hlz)), Hnz; cbn [hd]; rewrite same_true; done].
  destruct (trim_ok (xs ++ [a]) z e (us ++ [t]) [] (S (base.size (heap e)))) as (e1 & ids & p & H1 & H2 & H3 & H4 & H5 & H6);
    [done|done|done|rewrite Hb; by destruct xs|apply Forall_app; split; [done|by repeat constructor]|rewrite length_app; cbn; lia|].
  rewrite (run _ _ _ _ _ H1). erewrite (run (put _)) by done. erewrite (run (gets _)) by done.
  assert (exists v vs, us ++ [t] = v :: vs) as (v & vs & Hv) by (destruct us; by do 2 eexists).
  rewrite Hv, stripped_app in H3. rewrite bool_decide_eq_true_2, <- Hv in H3 by done.
  set (e2 := set_can_edit_end p e1). assert (firstline e2 = hd None ids) as ->.
  { change (firstline e2) with (firstline e1). rewrite H5, Hf, <- H4. by destruct ids. }
  destruct (free_ok (fun s => negb false && negb (bool_decide (take 17 s = EDIT_MARK))) ids None _ e2 (S (base.size (heap e))) H2 H3)
    as (e3 & H7); [rewrite length_app in H6; cbn in H6; lia|].
  rewrite (run _ _ _ _ _ H7). erewrite (run (put _)) by done. eexists. unfold mret, E_ret. do 4 f_equal.
  apply filter_kept. apply stripped_incl in Hp. eapply Forall_impl; [|exact Hp]. exact plain_kept.
Qed.

End Operations.
