(* ===== verification/EditFile.v ===== *)
(** Saving a text, and the loop of the editor: the rest of [src/edit.c]. *)
From stdpp Require Import gmap.
From S2P Require Import Prelude CString Terminal PostParse Helper Edit EditSpec.

(** * The user and the post *)

Inductive status := ST_POSTING | ST_SMAIL | ST_EDIT | ST_OTHER.

(** [currentuser], [fromhost] masked, and the board. *)
Record author := Author {
  userid : list Z;
  username : list Z;
  numlogins : Z;
  signature : Z;
  masked_host : list Z;
}.

Record board := Board { b_name : list Z; b_anony : bool }.

Record postheader := Postheader {
  postboard : bool;
  anonymous : bool;
  title : list Z;
  ds : list Z;
}.

Definition set_title (t : list Z) (h : postheader) : postheader := Postheader (postboard h) (anonymous h) t (ds h).

Definition ANONYMOUS_ACCOUNT : list Z := bytes "Anonymous".
Definition ANONYMOUS_NICK : list Z := [0xce; 0xd2; 0xca; 0xc7; 0xc4; 0xe4; 0xc3; 0xfb; 0xcc; 0xec; 0xca; 0xb9].
Definition ANONYMOUS_SOURCE : list Z := [0xc4; 0xe4; 0xc3; 0xfb; 0xcc; 0xec; 0xca; 0xb9; 0xb5; 0xc4; 0xbc; 0xd2].
Definition BBSHOST : list Z := bytes "bbs.fudan.edu.cn".
Definition EDIT_LABEL : list Z := [0xa1; 0xf9; 0x20; 0xd0; 0xde; 0xb8; 0xc4; 0x3a; 0xa1; 0xa4].
Definition SOURCE_LABEL : list Z := [0xa1; 0xf9; 0x20; 0xc0; 0xb4; 0xd4; 0xb4; 0x3a; 0xa1; 0xa4].
Definition RESET : list Z := [27] ++ bytes "[m".

(** The header of a post or a mail. [find] is [get_board], [current] the board
    the user is in; [site] is the name of the site and [date] the time now. *)
Definition write_header (u : author) (h : postheader) (in_mail : bool) (current : board)
    (currboard : list Z) (find : list Z -> board) (site date : list Z) : list Z :=
  let uid := take 19 (userid u) in
  let uname := take 39 (username u) in
  (if in_mail then [0xbc; 0xc4; 0xd0; 0xc5; 0xc8; 0xcb] ++ bytes ": " ++ uid ++ bytes " (" ++ uname ++ bytes ")" ++ [10]
   else
     let b := if postboard h && negb (strcaseeq currboard (ds h)) then find (ds h) else current in
     let anon := anonymous h && b_anony b in
     [0xb7; 0xa2; 0xd0; 0xc5; 0xc8; 0xcb] ++ bytes ": " ++ (if anon then ANONYMOUS_ACCOUNT else uid) ++ bytes " (" ++
     (if anon then ANONYMOUS_NICK else uname) ++ bytes "), " ++ [0xd0; 0xc5; 0xc7; 0xf8] ++ bytes ": " ++ b_name b ++ [10]) ++
  [0xb1; 0xea] ++ bytes "  " ++ [0xcc; 0xe2] ++ bytes ": " ++ title h ++ [10] ++
  [0xb7; 0xa2; 0xd0; 0xc5; 0xd5; 0xbe] ++ bytes ": " ++ site ++ bytes " (" ++ date ++ bytes ")" ++
  (if in_mail then [10; 0xc0; 0xb4] ++ bytes "  " ++ [0xd4; 0xb4] ++ bytes ": " ++ masked_host u ++ [10]
   else bytes ", " ++ [0xd5; 0xbe; 0xc4; 0xda; 0xd0; 0xc5; 0xbc; 0xfe] ++ [10]) ++ [10].

(** * Checking the text *)

(** The phrase before a quotation. *)
Definition QUOTED : list Z :=
  [0xb5; 0xc4; 0xb4; 0xf3; 0xd7; 0xf7; 0xd6; 0xd0; 0xcc; 0xe1; 0xb5; 0xbd; 0x3a; 0x20; 0xa1; 0xbf].

(** The lines that are not quoted, and all lines. *)
Fixpoint article_loop (fuel : nat) (p : option nat) (lines total : Z) : E (Z * Z) :=
  match fuel with
  | O => nofuel
  | S fuel =>
      last ← gets can_edit_end;
      if same p None || same p last then mret (lines, total)
      else
        l ← deref p;
        ch ← lift (rd (data l) 0);
        quoted ← (if (ch =? 58) || (ch =? 62) || (ch =? 61) then mret true
                  else r ← lift (strstr (data l) 0 QUOTED); mret (bool_decide (r <> None)));
        article_loop fuel (next l) (if (quoted : bool) then lines else lines + 1) (total + 1)
  end.

(** Whether the user is told to quote less; [lines < total * 0.35]. *)
Definition valid_article (st : status) : E bool :=
  match st with
  | ST_POSTING | ST_EDIT =>
      n ← steps;
      first ← gets can_edit_begin;
      '(lines, total) ← article_loop n first 0 0;
      mret (lines * 100 <? total * 35)
  | _ => mret false
  end.

(** * Writing the file *)

(** [src/postheader.c]: the title is in a buffer. The copy back is as long as a
    pointer, not as the buffer. *)
Definition check_title (sysop : bool) (title : list Z) : outcome (list Z) :=
  '(_, title) ← trim title (Some 0);
  t ← cstring title 0;
  title ← (if strcaseeq (take 3 t) (bytes "Re:") && negb sysop then
             '(_, title) ← strlcpy title 0 (take 49 (bytes "Re" ++ [0xa3; 0xba] ++ drop 3 t) ++ [0]) 0 8; Done title
           else Done title);
  valid_title_gbk title.

Inductive written :=
| Keep
| Cancelled (removed : bool)
| Saved (text : list Z) (h : postheader).

Section Write.
(** What is not in the editor: the user and the session, the board, the name of
    the site, the date, whether the user has a file of signatures and may manage the site,
    and the size of the file, when there is one. *)
Context (u : author) (st : status) (current : board) (currboard : list Z) (find : list Z -> board).
Context (site date : list Z) (dashf in_mail sysop : bool) (size : option Z).

(** The line that says who changed the post. *)
Definition edit_line : list Z :=
  RESET ++ [27] ++ bytes "[1;36m" ++ EDIT_LABEL ++ userid u ++ bytes " " ++ [0xd3; 0xda] ++ bytes " " ++ (replicate (22 - length date) 32 ++ take 22 date) ++
  [0xa1; 0xa4] ++ bytes "[FROM: " ++ masked_host u ++ bytes "]" ++ RESET ++ [10].

(** The lines that say where the post is from. *)
Definition source_lines (h : postheader) : list Z :=
  let anony := b_anony current && anonymous h in
  (if negb dashf || (signature u =? 0) || anony then bytes "--" ++ [10] else []) ++
  RESET ++ [27] ++ bytes "[1;" ++ decimal (Z.rem (numlogins u) 7 + 31) ++ bytes "m" ++ SOURCE_LABEL ++ site ++ bytes " " ++
  BBSHOST ++ [0xa1; 0xa4] ++ bytes "[FROM: " ++ (if anony then ANONYMOUS_SOURCE else masked_host u) ++ bytes "]" ++ RESET ++ [10].

Definition lower_is (answer c : Z) : bool := (answer =? c) || (answer =? c - 32).

(** [answer] is what the user types, 'L' when nothing is asked, and [newtitle]
    the title that is typed then. *)
Definition write_file (write_header_to_file : bool) (addfrom answer : Z) (newtitle : list Z) (h : postheader) : E written :=
  valid_article st;;
  if lower_is answer 97 then
    write_lines true;; mret (Cancelled (match size with None => true | Some n => n =? 0 end))
  else if lower_is answer 101 then mret Keep
  else
    let retitle := match st with ST_POSTING => lower_is answer 116 | _ => false end in
    h ← (if retitle && negb (bool_decide (title h = newtitle)) && negb (bool_decide (newtitle = [])) then
           t ← lift (m ← check_title sysop (newtitle ++ replicate (80 - length newtitle) 0); cstring m 0);
           mret (set_title (take 79 t) h)
         else mret h);
    text ← write_lines false;
    mret (Saved ((if write_header_to_file then write_header u h in_mail current currboard find site date else []) ++ text ++
                 (match st with ST_EDIT => edit_line | _ => [] end) ++
                 (match st with
                  | ST_POSTING | ST_SMAIL | ST_EDIT => if addfrom =? 0 then [] else source_lines h
                  | ST_OTHER => []
                  end)) h).

(** * Escapes *)

(** The action of a key after ESC, and its argument, asked for or fixed;
    [None]: nothing is done. *)
Definition esc_action (arg : Z) (answer : Z) : option (Z * Z) :=
  if lower_is arg 109 then Some (77, answer)
  else if lower_is arg 105 then Some (73, answer)
  else if lower_is arg 101 then Some (69, answer)
  else if lower_is arg 115 then Some (83, 48)
  else if lower_is arg 102 then Some (70, answer)
  else if lower_is arg 120 then Some (88, 48)
  else if lower_is arg 98 then Some (66, answer)
  else if lower_is arg 114 then Some (82, 48)
  else if lower_is arg 100 then Some (77, 51)
  else if lower_is arg 110 then Some (78, 48)
  else if lower_is arg 103 then Some (71, 49)
  else if lower_is arg 108 then Some (76, 48)
  else if lower_is arg 99 then Some (67, 48)
  else if lower_is arg 113 then Some (77, 48)
  else None.

Section Loop.
Context (garbage : nat -> list Z) (screen_lines : Z).

Definition vedit_process_ESC (arg answer : Z) (page : option (list Z)) (line : list Z) : E (option (list Z)) :=
  (if lower_is arg 101 then m ← mark_block; put (set_mark_on m) else mret tt);;
  match esc_action arg answer with
  | None => mret None
  | Some (action, ch2) =>
      let ch2 := if existsb (Z.eqb action) (bytes "IES") && ((ch2 =? 10) || (ch2 =? 13)) then 48 else ch2 in
      if (48 <=? ch2) && (ch2 <=? 55) then n ← steps; process_ESC_action garbage (n * 256) action ch2 page line
      else mret None
  end.

(** What the user does: a key, ESC and a key with what is typed at its prompts,
    or the end of editing with the answer. *)
Inductive event :=
| Key (ch : Z)
| Escape (arg answer : Z) (page : option (list Z)) (line : list Z)
| Finish (ch answer : Z) (newtitle : list Z).

(** [None]: the events are over before the text is. *)
Fixpoint edit_loop (write_header_to_file : bool) (addfrom : Z) (h : postheader) (sure : bool) (events : list event)
    : E (option written) :=
  match events with
  | [] => mret None
  | Key ch :: events =>
      vedit_key garbage screen_lines 2 ch;; put (set_redraw_everything false);;
      edit_loop write_header_to_file addfrom h sure events
  | Escape arg answer page line :: events =>
      (if arg =? KEY_ESC then insert_char garbage KEY_ESC else vedit_process_ESC arg answer page line;; mret tt);;
      put (set_redraw_everything false);;
      edit_loop write_header_to_file addfrom h sure events
  | Finish ch answer newtitle :: events =>
      let sure := sure || (ch =? Ctrl 88) in
      w ← write_file write_header_to_file addfrom (if sure then 76 else answer) newtitle h;
      match w with
      | Keep => put (set_redraw_everything false);; edit_loop write_header_to_file addfrom h sure events
      | w => mret (Some w)
      end
  end.

(** The mark of a text that was posted here. *)
Definition source_mark : list Z := [0x3a; 0xa1; 0xa4] ++ site ++ bytes " " ++ BBSHOST ++ [0xa1; 0xa4].

Definition raw_vedit (content : option (list Z)) (write_header_to_file modifyheader : bool) (h : postheader)
    (events : list event) : E (option written) :=
  addfrom ← start_edit garbage content source_mark modifyheader;
  edit_loop write_header_to_file addfrom h false events.

(** The width of a line is 79 when the user wants lines to be wrapped. *)
Definition vedit (autowrap : bool) (content : option (list Z)) (write_header_to_file modifyheader : bool) (h : postheader)
    (events : list event) : E (option written) :=
  let wraps := match st with ST_OTHER => false | _ => true end in
  put (set_linelen (if autowrap && wraps then 79 else WRAPMARGIN));;
  raw_vedit content write_header_to_file modifyheader h events.
End Loop.
End Write.

(** * Texts that are typed and saved *)

Section Typed.
Context (garbage : nat -> list Z) (garbage_len : forall a, blen (garbage a) = 256).
Context (screen_lines : Z) (screen_ok : 2 <= screen_lines).

Lemma loop_keys u st current currboard find site date dashf in_mail sysop size wh addfrom h sure ks evs e e' :
  press_keys garbage screen_lines ks e = Done (Some (tt, e')) ->
  edit_loop u st current currboard find site date dashf in_mail sysop size garbage screen_lines wh addfrom h sure (map Key ks ++ evs) e =
  edit_loop u st current currboard find site date dashf in_mail sysop size garbage screen_lines wh addfrom h sure evs e'.
Proof.
  revert e. induction ks as [|k ks IH]; intros e H; [by injection H as <-|]. cbn [press_keys map app edit_loop] in *.
  destruct (press_key garbage screen_lines k e) as [[[[] e1]|]| |] eqn:E; unfold mbind, E_bind in H; rewrite E in H; try done.
  unfold press_key in E. destruct (vedit_key garbage screen_lines 2 k e) as [[[[] e0]|]| |] eqn:E0; unfold mbind, E_bind in E |- *; rewrite E0 in *; try done.
  unfold put in *. injection E as <-. by apply IH.
Qed.

(** Looking through the text does not change it. *)
Lemma article_ok e xs z us pv ids ts : buffer e (xs ++ [z]) us -> seg (heap e) pv ids ts (Some z) -> can_edit_end e = Some z ->
  z ∉ ids -> forall fuel lines total, (length ids < fuel)%nat ->
  exists r, article_loop fuel (hd (Some z) ids) lines total e = Done (Some (r, e)).
Proof.
  intros _ Hs He. revert pv ts Hs. induction ids as [|a ids IH]; intros pv ts Hs Hz [|fuel] lines total Hf; try (cbn in Hf; lia); cbn [article_loop hd];
    erewrite (run (gets _)) by done; rewrite He.
  - rewrite same_true, orb_true_r. by eexists.
  - destruct ts as [|t ts]; [done|]. destruct Hs as [(l & Hl & _ & Hnx & Hh) Hs]. rewrite !same_false by set_solver. cbn [orb].
    rewrite (run _ _ _ _ _ (deref_ok _ _ _ Hl)). pose proof Hh as (_ & _ & Hd & _).
    destruct (rd_in (data l) 0) as [c Hc]; [lia|]. rewrite (run _ _ _ _ _ (lift_ok _ _ _ Hc)).
    assert (cstring (data l) 0 = Done t) as Ht by (rewrite (cstring_drop l t 0 Hh), drop_0; [done|pose proof (blen_nonneg t); lia]).
    assert (exists q, (if (c =? 58) || (c =? 62) || (c =? 61) then mret true
      else r ← lift (strstr (data l) 0 QUOTED); mret (bool_decide (r <> None))) e = Done (Some (q, e))) as [q Hq].
    { destruct (_ || _); [by eexists|]. unfold strstr. erewrite run; [|apply lift_ok; rewrite Ht; done]. by eexists. }
    rewrite (run _ _ _ _ _ Hq), Hnx. apply (IH (Some a) ts); [done|set_solver|cbn in Hf; lia].
Qed.

Lemma valid_ok st e xs a z us t : typing e xs a z us t -> exists b, valid_article st e = Done (Some (b, e)).
Proof.
  intros [T1 [Hn Hs Hf] _ _ Hb He _ _ _]. unfold valid_article.
  pose proof (seg_size _ _ _ _ _ Hn Hs) as Hsz. rewrite length_app in Hsz. cbn in Hsz.
  pose proof Hs as Hs0. replace (xs ++ [a; z]) with ((xs ++ [a]) ++ [z]) in * by app_eq. replace (us ++ [t; []]) with ((us ++ [t]) ++ [[]]) in * by app_eq.
  rewrite seg_app in Hs0 by (rewrite !length_app; cbn; lia). destruct Hs0 as [Hs0 _]. cbn [hd] in Hs0.
  apply list.NoDup_app in Hn as Hn'. destruct Hn' as (_ & Hz & _).
  destruct (article_ok e (xs ++ [a]) z ((us ++ [t]) ++ [[]]) None (xs ++ [a]) (us ++ [t])) with (fuel := S (base.size (heap e))) (lines := 0) (total := 0)
    as [[r1 r2] Hr]; [by constructor|done|done|intros H; apply (Hz z); set_solver|rewrite length_app; cbn; lia|].
  assert (hd (Some z) (xs ++ [a]) = can_edit_begin e) as Eh by (rewrite Hb; by destruct xs). rewrite Eh in Hr.
  destruct st; try (by eexists); erewrite (run steps) by done; erewrite (run (gets _)) by done; rewrite (run _ _ _ _ _ Hr); by eexists.
Qed.

Lemma save_ok u st current currboard find site date dashf in_mail sysop size wh h e e' b text :
  valid_article st e = Done (Some (b, e)) -> write_lines false e = Done (Some (text, e')) ->
  write_file u st current currboard find site date dashf in_mail sysop size wh 1 76 [] h e = Done (Some (Saved (
      (if wh then write_header u h in_mail current currboard find site date else []) ++ text ++
      match st with
      | ST_POSTING | ST_SMAIL => source_lines u current site dashf h
      | ST_EDIT => edit_line u date ++ source_lines u current site dashf h
      | ST_OTHER => []
      end) h, e')).
Proof.
  intros Hv Hw. unfold write_file. change (lower_is 76 97) with false. change (lower_is 76 101) with false.
  change (lower_is 76 116) with false. rewrite (run _ _ _ _ _ Hv). cbv iota.
  assert ((match st with ST_POSTING => false | _ => false end) = false) as -> by (by destruct st). cbn [andb].
  erewrite (run (mret h)) by done. rewrite (run _ _ _ _ _ Hw). by destruct st.
Qed.

End Typed.

